(* ===== verification/_CoqProject ===== *)
-Q . S2P
Prelude.v
Utf8.v
Json.v
JsonText.v
TimeText.v
DurationText.v
Redact.v
Hash.v
Program.v
RateLimit.v
Domain.v
Vulnerability.v
Values.v
Trust.v
Lifecycle.v
Database.v
AuthStore.v
Policy.v
ProcedurePolicy.v
Sessions.v
Authn.v
Lockout.v
ValuesRows.v
Timeline.v
Idempotency.v
Outbox.v
OperationStore.v
EmergencyStore.v
ValuesLifecycle.v
Creation.v
Authorization.v
Membership.v
System.v
Progress.v
Recovery.v
Delivery.v
ValuesSystem.v
Operators.v
Enrollment.v
ValuesInvariant.v
EmergencyService.v
Preflight.v
ReleaseService.v
