(* ===== verification/Prelude.v ===== *)
(** * release-manager: a verified model of the release control plane

    release-manager (Go) rolls Helm releases out to customer clusters.  An
    orchestrator keeps every release operation in a SQL store and walks it through
    preflight, queue, execution and a terminal status; an operator process on the
    customer cluster takes commands from an outbox over a gRPC stream and reports
    results; EMERGENCY operations patch a workload directly and must later be
    reconciled with the release.  Who may do what is kept by a second service,
    release-auth: users and sessions, organizations and their members, bindings of
    organizations to customers, grants; the orchestrator pulls snapshots of it and fences every write with the version of the
    authorization it used.
    This library models the store (its SQLite implementation) and the services
    around it that decide state, and proves what they promise each other.

    ** The files, the code they model, and what is proved

    - [Prelude]: the state-and-error monad [M] (Go's [(value, error)] results over
      a state), its inversion lemmas and [minv]; relations preserved by a method
      ([preserves], the [preserve] tactic and hint database); times, their RFC3339
      and RFC3339Nano texts and the text order SQL compares them by.
    - [Utf8]: Go's view of a string as runes: decoding, encoding, [TrimSpace].
    - [Json]: JSON trees, parser and printer, Go's decoding rules for the few
      structs the store unmarshals.  [JsonText]: the parser reads back what the
      printer writes, so printing is injective.
    - [Hash]: SHA-256, HMAC and URL-safe base64, executable, with the published
      test vectors and the base64 round trip.
    - [TimeText], [DurationText]: Go's [time.Parse] for RFC3339 texts,
      [time.ParseDuration] and [Duration.String].
    - [Redact] (internal/redact/sanitize.go): the regular-expression redaction of
      error summaries and the rune-wise [Truncate], with its bound.
    - [Program]: request handlers as programs of atomic calls ([svc]).  [runs] lets an
      environment act before, between and after the calls and lets calls fail;
      [wp] and [guarantees] prove what holds of every such run; [pool_step]
      interleaves whole requests; [exec_svc] runs one alone.
    - [RateLimit] (internal/auth/ratelimit.go): the sliding-window limiter and its
      bound.
    - [Domain] (internal/store/store.go): enums, rows, commands and results, the
      transition table [CanTransitionTo], the projection of an EMERGENCY effect,
      the stable error codes.
    - [Vulnerability] (internal/vulnerability, store/sqlite/vulnerability.go,
      orchestrator/admission.go): scan results, exceptions, the policy evaluator,
      written against the class [ResultStore] that the SQLite rows implement, and
      the admission modes.  An artifact passes exactly when it is certified;
      enforce mode admits nothing else; nothing passes silently in shadow mode.
    - [Values] (internal/values): YAML nodes to documents, canonical JSON and its
      digest, JSON pointers, literal secrets, secret references.  What validation
      accepts; canonical text identifies a document up to key order; pointers
      name every place.
    - [Trust] (internal/trust, store/sqlite/trust_roots.go, verification.go): trust
      roots, policy counters and verification records; the trust RPCs and the
      Ed25519 verifier as programs of store calls ([prog]) that interleave and may
      fail at any call ([trust_reachable]).  A trusted verdict always rests on a
      verified signature; a removed root stays removed unless a rotation races.
    - [Lifecycle] (internal/orchestrator/operation/state.go): the event machine.
      It allows the same edges as the store's table; every path ends in at most
      five steps; the documented event path of a standard operation is rejected.
    - [Database] (internal/store/sqlite/db.go and the retry loop): the tables, the
      [World] around them (clock, identifiers, a busy database), immediate
      transactions [run_tx] that commit or restore all tables, [retryBusy]; frame
      reasoning per table ([on_table], [use_frame]) and the inversion tactic [dinv].
    - [AuthStore] (organization_members.go, users.go, organizations.go, bindings.go,
      customers.go, customer_bindings.go, authorization.go): the rows release-auth
      owns, the source version every change of memberships, bindings and grants
      advances ([fenced]), versioned [Apply], checkpoints that never go back.
    - [Policy] (internal/auth/casbin.go): memberships and grants compiled to rules,
      the enforcer's load, refresh and mutation.  Casbin's matcher is a parameter
      with its documented laws ([casbin_laws], met by [reference_Enforce]).
    - [ProcedurePolicy] (procedure_policy.go): the registry of procedures, its
      consistency with the role matrix.
    - [Sessions] (auth_sessions.go, store/redis/adapter.go): sessions in SQL and
      behind a Redis cache with arbitrary answers, both instances of the interface
      [SessionStore] whose promises are [SessionStoreLaws].
    - [Authn] (interceptor.go, service.go, browser_session.go, local_users.go,
      jwt.go): the interceptor and the AuthService handlers, against
      [SessionStoreLaws]: what passes the interceptor, rotation, refused replays.
    - [Lockout]: the requests of the AuthService as a pool.  After a password change
      no request that starts later is served as the user without the new password;
      a refresh in flight during the change, and an organization switch with two
      credentials, do get through (executed schedules).
    - [Timeline] (operation_timeline.go, operation_events.go,
      notification_outbox.go, preflight_lifecycle.go): evidence rows; timelines
      stay gapless, a resumed listing loses nothing; progress conditions [env_ok].
    - [Idempotency] (idempotency.go): create-or-get on (scope, key) in all its
      cases and within two rounds; where the text comparison of expiry is exact.
    - [Outbox] (commands.go): commands in sequence order and the acknowledgement
      transaction shared with the EMERGENCY intents, through the [AckTableLaws]
      interface that both tables instantiate.
    - [OperationStore] (operations.go, QueueOperation of uow.go): creation,
      idempotent creation, compare-and-swap transitions with their evidence,
      queueing with its dispatch row, cancellation, upgrade finalisation, the
      non-terminal feed.
    - [EmergencyStore] (emergency_intents.go, emergency_converge.go,
      convergence_tasks.go): intents and their target locks, convergence of a
      result along the legal chain, resolution of unknown effects, stuck locks.
    - [ValuesRows] (store/sqlite/values.go): revision rows, pages and their signed
      cursors; paging returns every row once.
    - [ValuesLifecycle] (values_approval.go, values_lifecycle.go,
      prepare_sessions.go, store/values_convergence.go): drafts, submission,
      approval, rejection, discarding, prepare sessions, locked paths.
    - [Creation] (uow.go, setCurrentBundle, linkCandidateArtifacts): the creation
      transactions of standard and EMERGENCY operations.
    - [Authorization] (authorization_snapshot.go, authorization_decision.go,
      internal/authorization): snapshots, grants and decisions of release-auth and
      the orchestrator's module that pulls them.  An operation is only created
      under an authorization that is still true; what decides a second write.
    - [Membership] (org_service.go, binding_service.go): organizations, members and
      bindings.  No escalation under any interleaving, the last administrator,
      revocation of a binding stops the writes it allowed.
    - [Operators] (store/sqlite/operators.go, operator_management.go,
      operator_lifecycle.go, clusters.go, customer_events.go): tokens, operators,
      sessions and clusters with their UNIQUE indexes.  Every method keeps the
      invariant [fleet_ok] and moves the rows by [fleet_moves]: tokens are spent
      once, inactive operators stay inactive, revoked rows are final.  What an
      enrollment, a revocation and a cascade do to the tables, exactly.
    - [Enrollment] (internal/operator: service.go, csr.go, identity.go, renew.go,
      session_registry.go, stream_registry.go; internal/orchestrator: operator.go,
      enrollment.go, customer.go, cluster.go): enrollment, the hello of a command
      stream, heartbeats, renewal, the liveness sweep and the management RPCs, over
      the tables and the process's registries of streams and heartbeats.  What an
      answered enrollment means, single use of tokens, the lock-out by revocation
      and by disabling a customer or cluster, under any interleaving.
    - [EmergencyService] (emergency.go, emergency_stuck.go, the emergency channel of
      operator/service.go): EMERGENCY requests from validation to delivery, expiry,
      the stuck-lock RPCs and scan, over the tables (the operator is looked up in
      those of [Operators]), the trust store and a heap of the streams' channels.  Every command an operator takes is that of a
      recorded intent; an accepted change passed every gate; who releases a lock.
    - [Preflight] (internal/orchestrator/preflight; the effective values of
      command.go): the stages an operation passes before it is queued, as programs
      of store calls, and the runner that starts and cancels their coordinators.
    - [ReleaseService] (internal/orchestrator: service.go, rollback.go, values.go,
      non_bundle_image.go): CreateOperation, RollbackRelease, CancelOperation,
      PublishRelease and Shutdown over the tables and that runner.  Whatever
      interleaves and fails, an operation with a bundle is queued only after every
      production stage was answered, and with its write command in the outbox; an
      executed run shows the stored acknowledgement is answer enough.
    - [System]: all store methods as one step relation.  Invariants of every
      reachable state (one live operation per release, no conflicting locks, one
      intent per operation), finality of a decided effect, persistence of
      operations.
    - [Progress]: when a transition succeeds.
    - [Recovery] (internal/orchestrator/operation/recover.go): start-up recovery.
    - [Delivery] (internal/operator/service.go): the delivery poll and its fence,
      reconnect and redelivery, command results and EMERGENCY results; all of them
      refine the step relation of [System].
    - [ValuesSystem]: the exact effect of the values transactions.
      [ValuesInvariant]: drafts, approvals, sessions and all store methods as one
      step relation; in every reachable state a definition has at most one approved
      revision and points at it, decision logs explain every status, and bound
      convergence tasks never overlap.

    ** How state and operations correspond

    One field of [DB] is one table; a method of a Go store is the definition of
    the same name (with the store appended where two stores share a method name,
    as in [UpdateStatus_outbox]); its guards stand in the order of the code's early
    returns.  A method body that runs in a transaction is the definition with the
    suffix [Tx] or [InTx], and the method is [run_tx] of it: [Commit] and [Rollback]
    say whether the code reaches [tx.Commit].  Because the store opens immediate
    transactions, a method call is atomic, and sequences of [store_step] are
    exactly the interleavings of concurrent callers; a crash between calls is a
    shorter sequence.  Identifiers and clock readings are infinite streams that a
    method consumes; [w_busy] decides for each attempt whether SQLite answers BUSY.

    A handler of release-auth is a program over a state that contains a [Node]: the
    tables with the enforcer and the limiter of the process, extended by a Redis
    server ([cached_host]) or by the orchestrator's module ([site_host]); the operator
    and management handlers run over a [Gateway].  [let* x :=
    m fails f in k] is one call [m] and the branch [f] of the code for its error.

    ** Bounds and fuel

    [advance] walks an EMERGENCY operation to running; its fuel 2 is proved enough
    ([advance_enough]).  [createOrGet_loop] has fuel 3 and is proved to finish in
    two rounds.  [retry_loop] has the source's ten retries, [converge_attempts] its
    three attempts.  [regex] matching and JSON parsing recurse on fuel derived from
    the input length.  State versions and sequence numbers are Go's [int64] counters
    of single steps and are modelled as [Z]; the code never comes near their bounds.
    RFC3339 texts are those of the years 1 to 9999.

    ** What is not modelled

    The PostgreSQL implementation of the same interfaces; the orchestrator's requests
    other than creations, rollbacks, cancellations, EMERGENCY changes and lock releases
    and those on operators, tokens, customers and clusters (of which the lists and the
    cluster routes are left out): reads and watches of operations, bundles, definitions,
    values and inventory; the waiting of the runner's shutdown;
    audit events handed to the asynchronous emitter; the external identity provider,
    service tokens and the streaming interceptor; the CA's own keys, files and server
    certificates; registry, Helm and Kubernetes clients; audit spooling and notification transport; the web console.  The
    module's mutex that serialises pulls of one key is not modelled: pulls may
    interleave, which allows more behaviours than the code has.  Where a service
    calls such code (printing or decoding a generated protobuf message, sending on the
    stream, parsing YAML, compiling an administrator's regular expression, reading
    PEM and X.509 keys and requests, issuing a certificate, checking an Ed25519 signature, signing and validating a JWT,
    bcrypt, Casbin's matcher, the Redis server) it is a section variable.  Rows that SQL leaves in any order (equal sort keys) are taken
    in insertion order.  Entropy of a string, a float computation in the code, is
    compared exactly. *)

From stdpp Require Export base gmap sets list strings sorting.
From Stdlib Require Export ZArith Lia.

#[global] Open Scope Z_scope.

(** ** Results and the state-and-error monad

    Go's [(value, error)] pairs are [res E A]; a method on a store, which
    reads the clock, draws identifiers and rewrites tables before it returns a
    value or an error, is a computation [M S E A] over the state [S].  The
    state survives an error: only the transaction boundary (Database.v) resets
    the tables. *)
Inductive res (E A : Type) : Type :=
| Ok (a : A)
| Err (e : E).
Arguments Ok {E A} a.
Arguments Err {E A} e.

Definition M (S E A : Type) : Type := S → res E A * S.

Section monad.
Context {S E : Type}.

Definition ret {A} (a : A) : M S E A := λ s, (Ok a, s).
Definition throw {A} (e : E) : M S E A := λ s, (Err e, s).
Definition bind {A B} (m : M S E A) (f : A → M S E B) : M S E B := λ s,
  match m s with
  | (Ok a, s') => f a s'
  | (Err e, s') => (Err e, s')
  end.
(** [v, err := m; k]: the caller looks at the error itself. *)
Definition catch {A B} (m : M S E A) (k : res E A → M S E B) : M S E B := λ s, let (r, s') := m s in k r s'.
Definition gets {A} (f : S → A) : M S E A := λ s, (Ok (f s), s).
Definition modify (f : S → S) : M S E unit := λ s, (Ok tt, f s).
End monad.

Declare Scope rm_scope.
Delimit Scope rm_scope with rm.
Notation "'let!' x := m 'in' k" := (bind m (λ x, k))
  (at level 10, x name, m at level 100, k at level 200) : rm_scope.
Notation "m ;! k" := (bind m (λ _, k))
  (at level 100, right associativity) : rm_scope.
#[global] Open Scope rm_scope.

(** [when b m] is Go's [if b { m }] for a statement without a result. *)
Definition when {S E} (b : bool) (m : M S E unit) : M S E unit :=
  if b then m else ret tt.

(** ** Inversion of computations *)
Section monad_lemmas.
Context {S E : Type}.
Implicit Types s : S.

Lemma bind_Ok {A B} (m : M S E A) (f : A → M S E B) s b s' :
  bind m f s = (Ok b, s') ↔ ∃ a s1, m s = (Ok a, s1) ∧ f a s1 = (Ok b, s').
Proof.
  unfold bind. destruct (m s) as [[a|e] s1]; split.
  - eauto.
  - by intros (a' & s1' & [= <- <-] & ?).
  - done.
  - by intros (a' & s1' & ? & ?).
Qed.

Lemma bind_Err {A B} (m : M S E A) (f : A → M S E B) s e s' :
  bind m f s = (Err e, s') → m s = (Err e, s') ∨ ∃ a s1, m s = (Ok a, s1) ∧ f a s1 = (Err e, s').
Proof. unfold bind. destruct (m s) as [[a|e'] s1]; [by eauto|]. intros [= -> ->]. by left. Qed.
Lemma bind_ext {A B} (m : M S E A) (f g : A → M S E B) s :
  (∀ a s', m s = (Ok a, s') → f a s' = g a s') → bind m f s = bind m g s.
Proof. intros H. unfold bind. destruct (m s) as [[a|e] s'] eqn:E1; [by apply H|done]. Qed.

Lemma ret_Ok {A} (a b : A) s s' : @ret S E A a s = (Ok b, s') ↔ a = b ∧ s = s'.
Proof. unfold ret. split; [by intros [= -> ->] | by intros [-> ->]]. Qed.

Lemma gets_Ok {A} (f : S → A) (b : A) s s' :
  @gets S E A f s = (Ok b, s') ↔ b = f s ∧ s = s'.
Proof. unfold gets. split; [by intros [= -> ->] | by intros [-> ->]]. Qed.

Lemma modify_Ok (f : S → S) u s s' :
  @modify S E f s = (Ok u, s') ↔ s' = f s.
Proof. unfold modify. destruct u. split; [by intros [= ->] | by intros ->]. Qed.

Lemma throw_Ok {A} (e : E) (b : A) s s' : @throw S E A e s = (Ok b, s') ↔ False.
Proof. unfold throw. split; [done | tauto]. Qed.
End monad_lemmas.

(** ** Preserved relations

    [preserves R m] says that [R] relates the states before and after [m],
    whatever [m] returns.  With [R] a preorder the property is compositional;
    [preserve] proves it for a whole method from the table updates inside. *)
Definition preserves {S E A} (R : relation S) (m : M S E A) : Prop :=
  ∀ s r s', m s = (r, s') → R s s'.

Section preserves.
Context {S E : Type} (R : relation S) `{!PreOrder R}.

Lemma preserves_ret {A} (a : A) : preserves R (@ret S E A a).
Proof. intros s r s' [= _ <-]. reflexivity. Qed.
Lemma preserves_throw {A} (e : E) : preserves R (@throw S E A e).
Proof. intros s r s' [= _ <-]. reflexivity. Qed.
Lemma preserves_gets {A} (f : S → A) : preserves R (@gets S E A f).
Proof. intros s r s' [= _ <-]. reflexivity. Qed.
Lemma preserves_bind {A B} (m : M S E A) (f : A → M S E B) :
  preserves R m → (∀ a, preserves R (f a)) → preserves R (bind m f).
Proof.
  intros Hm Hf s r s'. unfold bind.
  destruct (m s) as [[a|e] s1] eqn:Hs; intros H.
  - transitivity s1; [by eapply Hm | by eapply Hf].
  - injection H as _ <-. by eapply Hm.
Qed.
Lemma preserves_catch {A B} (m : M S E A) (k : res E A → M S E B) :
  preserves R m → (∀ r, preserves R (k r)) → preserves R (catch m k).
Proof.
  intros Hm Hk s r s'. unfold catch. destruct (m s) as [r1 s1] eqn:Hs. intros H.
  transitivity s1; [by eapply Hm | by eapply Hk].
Qed.
Lemma preserves_when b (m : M S E unit) : preserves R m → preserves R (when b m).
Proof. destruct b; [done | intros _; apply preserves_ret]. Qed.
Lemma preserves_modify (f : S → S) : (∀ s, R s (f s)) → preserves R (@modify S E f).
Proof. intros H s r s' [= _ <-]. apply H. Qed.
End preserves.

Create HintDb preserve discriminated.
#[export] Hint Extern 0 (PreOrder _) => apply _ : preserve.

(** [preserve] walks the syntax of a method: it splits binds, destructs the
    scrutinees of matches and closes the leaves with the [preserve] hints. *)
Ltac preserve_step :=
  lazymatch goal with
  | |- preserves _ (bind _ _) => apply preserves_bind; [try apply _ | | intros ?]
  | |- preserves _ (catch _ _) => apply preserves_catch; [try apply _ | | intros ?]
  | |- preserves _ (ret _) => apply preserves_ret; apply _
  | |- preserves _ (throw _) => apply preserves_throw; apply _
  | |- preserves _ (gets _) => apply preserves_gets; apply _
  | |- preserves _ (when _ _) => apply preserves_when; [apply _ |]
  | |- preserves _ (match ?x with _ => _ end) => destruct x
  | |- preserves _ (let _ := _ in _) => cbv zeta
  | |- PreOrder _ => apply _
  | |- _ => solve [eauto with preserve nocore]
  end.
Ltac preserve := repeat preserve_step.

(** [minv] turns a successful run into the successful runs of its steps. *)
Ltac minv_step :=
  match goal with
  | H : bind _ _ _ = (Ok _, _) |- _ =>
      let a := fresh "a" in let s := fresh "s" in let H1 := fresh "Hm" in
      apply bind_Ok in H as (a & s & H1 & H)
  | H : ret _ _ = (Ok _, _) |- _ => apply ret_Ok in H as [? ?]; subst
  | H : gets _ _ = (Ok _, _) |- _ => apply gets_Ok in H as [? ?]; subst
  | H : modify _ _ = (Ok _, _) |- _ => apply modify_Ok in H; subst
  | H : throw _ _ = (Ok _, _) |- _ => apply throw_Ok in H; destruct H
  | H : (if ?b then _ else _) _ = (Ok _, _) |- _ => let E := fresh "E" in destruct b eqn:E
  | H : (match ?o with Some _ => _ | None => _ end) _ = (Ok _, _) |- _ =>
      let E := fresh "E" in destruct o eqn:E
  end.
Ltac minv := repeat (minv_step; simpl in *).

(** ** Booleans *)
Ltac destruct_bools :=
  repeat match goal with
  | H : negb _ = true |- _ => apply negb_true_iff in H
  | H : negb _ = false |- _ => apply negb_false_iff in H
  | H : _ && _ = true |- _ => apply andb_true_iff in H as [? ?]
  | H : _ || _ = false |- _ => apply orb_false_iff in H as [? ?]
  | H : bool_decide _ = true |- _ => apply bool_decide_eq_true in H
  | H : bool_decide _ = false |- _ => apply bool_decide_eq_false in H
  | H : (_ =? _) = true |- _ => apply Z.eqb_eq in H
  | H : (_ =? _) = false |- _ => apply Z.eqb_neq in H
  | H : (_ <? _) = true |- _ => apply Z.ltb_lt in H
  | H : (_ <? _) = false |- _ => apply Z.ltb_ge in H
  | H : (_ <=? _) = true |- _ => apply Z.leb_le in H
  | H : (_ <=? _) = false |- _ => apply Z.leb_gt in H
  end.

(** ** Time

    A [time] is the number of nanoseconds since Go's zero time, in UTC: the
    zero [time.Time] is [0].  Stored timestamps are text in the source.  The
    layout RFC3339 drops the sub-second part ([rfc3339]); RFC3339Nano keeps it
    exactly, so a round trip through the column is the identity.  Where SQL
    compares RFC3339Nano columns it compares the {e text}; [nano_text] is the
    part of the text after the fixed-width seconds prefix and [text_ltb] the
    resulting order. *)
Abbreviation time := Z (only parsing).
Definition nsec : Z := 1000000000.
Definition is_zero_time (t : time) : bool := t =? 0.
Definition seconds (t : time) : Z := t / nsec.
Definition nanos (t : time) : Z := t mod nsec.
Definition rfc3339 (t : time) : time := seconds t * nsec.

(** [digits k n]: the last [k] decimal digits of [n], most significant first, as ASCII codes. *)
Fixpoint digits (k : nat) (n : Z) : list Z :=
  match k with
  | O => []
  | S k' => digits k' (n / 10) ++ [48 + n mod 10]
  end.
Fixpoint trim_zeros (rev_digits : list Z) : list Z :=
  match rev_digits with
  | 48 :: l => trim_zeros l
  | l => l
  end.
(** [t.Format(time.RFC3339)] in UTC for the years 1 to 9999: the civil date is
    computed in years that start on the first of March, where a leap day comes
    last. *)
Definition civil (t : time) : Z * Z * Z :=
  let days := seconds t / 86400 + 306 in
  let era := days / 146097 in
  let doe := days mod 146097 in
  let yoe := (doe - doe / 1460 + doe / 36524 - doe / 146096) / 365 in
  let doy := doe - (365 * yoe + yoe / 4 - yoe / 100) in
  let mp := (5 * doy + 2) / 153 in
  let month := if mp <? 10 then mp + 3 else mp - 9 in
  (yoe + era * 400 + (if month <=? 2 then 1 else 0), month, doy - (153 * mp + 2) / 5 + 1).
Definition code_text (l : list Z) : string := foldr (λ c s, String (Ascii.ascii_of_N (Z.to_N c)) s) EmptyString l.
Definition date_codes (t : time) : list Z :=
  let '(year, month, day) := civil t in
  let s := seconds t mod 86400 in
  digits 4 year ++ [45] ++ digits 2 month ++ [45] ++ digits 2 day ++ [84] ++ digits 2 (s / 3600) ++ [58]
    ++ digits 2 (s / 60 mod 60) ++ [58] ++ digits 2 (s mod 60).
Definition rfc3339_text (t : time) : string := code_text (date_codes t ++ [90]).

(** The fraction and zone suffix RFC3339Nano prints: ["Z"] for a whole
    second, otherwise [".d...dZ"] with trailing zeros removed. *)
Definition nano_text (n : Z) : list Z :=
  if n =? 0 then [90] else 46 :: rev (trim_zeros (rev (digits 9 n))) ++ [90].

(** [t.Format(time.RFC3339Nano)] in UTC. *)
Definition rfc3339nano_text (t : time) : string := code_text (date_codes t ++ nano_text (nanos t)).

Fixpoint lex_ltb (l k : list Z) : bool :=
  match l, k with
  | _, [] => false
  | [], _ :: _ => true
  | a :: l', b :: k' => (a <? b) || ((a =? b) && lex_ltb l' k')
  end.

(** Text order of two RFC3339Nano columns (years 0000-9999: the seconds
    prefix has a fixed width, so it compares chronologically). *)
Definition text_ltb (a b : time) : bool :=
  (seconds a <? seconds b)
  || ((seconds a =? seconds b) && lex_ltb (nano_text (nanos a)) (nano_text (nanos b))).
Definition text_leb (a b : time) : bool := negb (text_ltb b a).

Lemma seconds_lt_time a b : seconds a < seconds b → a < b.
Proof.
  unfold seconds, nsec. intros H. apply Z.nle_gt. intros Hle.
  assert (b / 1000000000 ≤ a / 1000000000) by (apply Z.div_le_mono; lia). lia.
Qed.

Lemma text_ltb_seconds a b : seconds a < seconds b → text_ltb a b = true.
Proof. intros H. unfold text_ltb. by rewrite (proj2 (Z.ltb_lt _ _) H). Qed.

Lemma text_ltb_seconds_ge a b : seconds b < seconds a → text_ltb a b = false.
Proof.
  intros H. unfold text_ltb.
  rewrite (proj2 (Z.ltb_ge _ _)) by lia. rewrite (proj2 (Z.eqb_neq _ _)) by lia. done.
Qed.

Lemma text_ltb_chronological a b : seconds a ≠ seconds b → text_ltb a b = (a <? b).
Proof.
  intros H. destruct (Z.lt_total (seconds a) (seconds b)) as [Hlt|[?|Hgt]]; [|done|].
  - rewrite text_ltb_seconds by done. symmetry. apply Z.ltb_lt. by apply seconds_lt_time.
  - rewrite text_ltb_seconds_ge by lia. symmetry. apply Z.ltb_ge. apply Z.lt_le_incl. by apply seconds_lt_time.
Qed.

(** ** Text order

    SQLite's BINARY collation and Go's [<] on strings compare bytes. *)
Definition string_leb (a b : string) : bool := match String.compare a b with Gt => false | _ => true end.
Definition string_ltb (a b : string) : bool := match String.compare a b with Lt => true | _ => false end.

Lemma string_leb_le a b : string_leb a b = true ↔ String.le a b.
Proof. unfold String.le. change (String.leb a b) with (string_leb a b). by rewrite Is_true_true. Qed.
Lemma string_leb_refl a : string_leb a a = true.
Proof. apply string_leb_le. reflexivity. Qed.
Lemma string_leb_trans a b c : string_leb a b = true → string_leb b c = true → string_leb a c = true.
Proof. rewrite !string_leb_le. intros. by transitivity b. Qed.
Lemma string_leb_total a b : string_leb a b = true ∨ string_leb b a = true.
Proof. rewrite !string_leb_le. apply total, _. Qed.
Lemma string_leb_antisym a b : string_leb a b = true → string_leb b a = true → a = b.
Proof. rewrite !string_leb_le. intros. by apply (anti_symm String.le). Qed.
Lemma string_ltb_leb a b : string_ltb a b = negb (string_leb b a).
Proof. unfold string_ltb, string_leb. rewrite (String.compare_antisym b a). by destruct (String.compare a b). Qed.

(** ** Small list facts shared by the table models *)
Lemma existsb_false_forall {A} (p : A → bool) l :
  existsb p l = false ↔ Forall (λ x, p x = false) l.
Proof.
  induction l as [|x l IH]; simpl; [by split|].
  rewrite orb_false_iff, IH, Forall_cons. done.
Qed.

Lemma existsb_elem {A} (p : A → bool) l :
  existsb p l = true ↔ ∃ x, x ∈ l ∧ p x = true.
Proof.
  rewrite existsb_exists. by setoid_rewrite <- list_elem_of_In.
Qed.
