(* ===== verification/Utf8.v ===== *)
(** * Byte strings and UTF-8

    A Go [string] is a sequence of bytes.  [runes] is [[]rune(s)] of the
    language (an invalid byte is one U+FFFD), [string_of_runes] the conversion
    back, and [chunks] splits a string into its runes and the bytes of each,
    which is what unicode/utf8 and the [strings] functions that look at runes
    iterate over. *)
From S2P Require Import Prelude.
From Stdlib Require Import Ascii.
#[local] Open Scope Z_scope.

Abbreviation bytes := (list ascii).
Definition str (s : string) : bytes := String.list_ascii_of_string s.
Definition ascii_code (c : ascii) : Z := Z.of_N (N_of_ascii c).

(** ** Runes *)
Definition rune_error : Z := 65533.
Definition in_range (lo hi b : Z) : bool := (lo <=? b) && (b <=? hi).
Definition cont (b : Z) : bool := in_range 128 191 b.

(** The first rune of a byte sequence and the bytes after it ([utf8.DecodeRune]). *)
Definition decode_rune (b0 : Z) (l : list Z) : Z * list Z :=
  if b0 <? 128 then (b0, l)
  else if in_range 194 223 b0 then
    match l with
    | b1 :: l' => if cont b1 then ((b0 - 192) * 64 + (b1 - 128), l') else (rune_error, l)
    | _ => (rune_error, l)
    end
  else if in_range 224 239 b0 then
    match l with
    | b1 :: b2 :: l' =>
        let ok1 := if b0 =? 224 then in_range 160 191 b1 else if b0 =? 237 then in_range 128 159 b1 else cont b1 in
        if ok1 && cont b2 then ((b0 - 224) * 4096 + (b1 - 128) * 64 + (b2 - 128), l') else (rune_error, l)
    | _ => (rune_error, l)
    end
  else if in_range 240 244 b0 then
    match l with
    | b1 :: b2 :: b3 :: l' =>
        let ok1 := if b0 =? 240 then in_range 144 191 b1 else if b0 =? 244 then in_range 128 143 b1 else cont b1 in
        if ok1 && cont b2 && cont b3
        then ((b0 - 240) * 262144 + (b1 - 128) * 4096 + (b2 - 128) * 64 + (b3 - 128), l') else (rune_error, l)
    | _ => (rune_error, l)
    end
  else (rune_error, l).

Fixpoint decode_runes (fuel : nat) (l : list Z) : list Z :=
  match fuel, l with
  | S fuel, b :: l' => let '(r, rest) := decode_rune b l' in r :: decode_runes fuel rest
  | _, _ => []
  end.

(** [string(rune)] for a decoded rune. *)
Definition encode_rune (r : Z) : list Z :=
  if r <? 128 then [r]
  else if r <? 2048 then [192 + r / 64; 128 + r mod 64]
  else if r <? 65536 then [224 + r / 4096; 128 + (r / 64) mod 64; 128 + r mod 64]
  else [240 + r / 262144; 128 + (r / 4096) mod 64; 128 + (r / 64) mod 64; 128 + r mod 64].

Definition byte_values (s : string) : list Z := map ascii_code (str s).
Definition from_bytes (l : list Z) : string :=
  String.string_of_list_ascii (map (λ b, ascii_of_N (Z.to_N b)) l).

Definition runes (s : string) : list Z := decode_runes (length (byte_values s)) (byte_values s).
Definition string_of_runes (l : list Z) : string := from_bytes (concat (map encode_rune l)).
(** [utf8.RuneCountInString] *)
Definition RuneCount (s : string) : Z := Z.of_nat (length (runes s)).

(** One step of [for _, r := range s]: the rune, whether its bytes are valid,
    and how many bytes it takes. *)
Definition next_rune (c : ascii) (l : bytes) : Z * bool * nat :=
  let look := map ascii_code (take 3 l) in
  let '(r, rest) := decode_rune (ascii_code c) look in
  let used := (length look - length rest)%nat in
  (r, negb ((r =? rune_error) && (used =? 0)%nat), S used).
Fixpoint chunks_from (fuel : nat) (l : bytes) : list (Z * bool * bytes) :=
  match fuel, l with
  | S fuel, c :: l' =>
      let '(r, valid, n) := next_rune c l' in (r, valid, take n l) :: chunks_from fuel (drop n l)
  | _, _ => []
  end.
Definition chunks (l : bytes) : list (Z * bool * bytes) := chunks_from (length l) l.

(** [unicode.IsSpace] and [strings.TrimSpace]. *)
Definition unicode_IsSpace (r : Z) : bool :=
  in_range 9 13 r || (r =? 32) || (r =? 133) || (r =? 160) || (r =? 5760) || in_range 8192 8202 r
  || (r =? 8232) || (r =? 8233) || (r =? 8239) || (r =? 8287) || (r =? 12288).
Fixpoint drop_spaces (l : list (Z * bool * bytes)) : list (Z * bool * bytes) :=
  match l with ch :: l' => if unicode_IsSpace ch.1.1 then drop_spaces l' else l | [] => [] end.
Definition TrimSpace (s : string) : string :=
  String.string_of_list_ascii (concat (snd <$> rev (drop_spaces (rev (drop_spaces (chunks (str s))))))).

Example TrimSpace_nbsp : TrimSpace (from_bytes [32; 194; 160; 97; 32; 98; 194; 9; 226; 128; 168]) = from_bytes [97; 32; 98; 194].
Proof. vm_compute. reflexivity. Qed.

(** ** Lemmas *)
Definition valid_rune (r : Z) : Prop := 0 ≤ r < 55296 ∨ 57344 ≤ r < 1114112.
Definition is_byte (b : Z) : Prop := 0 ≤ b < 256.

Ltac rune_arith :=
  unfold cont, in_range in *;
  repeat (simpl; match goal with
  | |- context [(?a <? ?b)] =>
      first [rewrite (proj2 (Z.ltb_lt a b)) by lia | rewrite (proj2 (Z.ltb_ge a b)) by lia
            | destruct (Z.ltb_spec a b)]
  | |- context [(?a <=? ?b)] =>
      first [rewrite (proj2 (Z.leb_le a b)) by lia | rewrite (proj2 (Z.leb_gt a b)) by lia
            | destruct (Z.leb_spec a b)]
  | |- context [(?a =? ?b)] =>
      first [rewrite (proj2 (Z.eqb_eq a b)) by lia | rewrite (proj2 (Z.eqb_neq a b)) by lia
            | destruct (Z.eqb_spec a b)]
  end).

Lemma decode_rune_spec b l r rest :
  is_byte b → Forall is_byte l → decode_rune b l = (r, rest) →
  valid_rune r ∧ Forall is_byte rest ∧ (length rest ≤ length l)%nat.
Proof.
  intros Hb Hl. unfold decode_rune, is_byte in *.
  repeat case_match; intros [= <- <-]; simplify_eq;
    repeat match goal with H : Forall _ (_ :: _) |- _ => apply Forall_cons in H as [? H] end;
    destruct_bools; repeat case_match; unfold cont, in_range, rune_error, valid_rune in *; destruct_bools;
    (split; [lia|split; [first [assumption | repeat (apply Forall_cons; split); first [assumption|lia|constructor]]|simpl; lia]]).
Qed.

Lemma encode_rune_bytes r : valid_rune r → Forall is_byte (encode_rune r).
Proof.
  unfold valid_rune, encode_rune, is_byte. intros Hr.
  rune_arith; repeat constructor; try lia;
    try (apply Z.add_nonneg_nonneg; [lia|]; apply Z.div_pos || apply Z.mod_pos_bound; lia);
    Z.to_euclidean_division_equations; lia.
Qed.

Lemma decode_encode r rest :
  valid_rune r →
  ∃ b l, encode_rune r = b :: l ∧ decode_rune b (l ++ rest) = (r, rest).
Proof.
  unfold valid_rune. intros Hr. unfold encode_rune.
  destruct (Z.ltb_spec r 128); [|destruct (Z.ltb_spec r 2048); [|destruct (Z.ltb_spec r 65536)]].
  - eexists _, _; split; [done|]. unfold decode_rune. rune_arith; try lia; done.
  - eexists _, _; split; [done|]. unfold decode_rune; simpl.
    assert (Hq : 2 ≤ r / 64 ≤ 31) by (Z.to_euclidean_division_equations; lia).
    assert (Hm : 0 ≤ r mod 64 < 64) by (apply Z.mod_pos_bound; lia).
    assert (Hd : r = 64 * (r / 64) + r mod 64) by (apply Z.div_mod; lia).
    generalize dependent (r / 64). generalize dependent (r mod 64). intros.
    rune_arith; try lia. f_equal; lia.
  - eexists _, _; split; [done|]. unfold decode_rune; simpl.
    assert (Hq : 0 ≤ r / 4096 ≤ 15) by (Z.to_euclidean_division_equations; lia).
    assert (Hm : 0 ≤ r mod 64 < 64) by (apply Z.mod_pos_bound; lia).
    assert (Hn : 0 ≤ (r / 64) mod 64 < 64) by (apply Z.mod_pos_bound; lia).
    assert (Hd : r = 4096 * (r / 4096) + 64 * ((r / 64) mod 64) + r mod 64)
      by (Z.to_euclidean_division_equations; lia).
    generalize dependent (r / 4096). generalize dependent ((r / 64) mod 64).
    generalize dependent (r mod 64). intros.
    rune_arith; try lia; f_equal; lia.
  - eexists _, _; split; [done|]. unfold decode_rune; simpl.
    assert (Hq : 0 ≤ r / 262144 ≤ 4) by (Z.to_euclidean_division_equations; lia).
    assert (Hm : 0 ≤ r mod 64 < 64) by (apply Z.mod_pos_bound; lia).
    assert (Hn : 0 ≤ (r / 64) mod 64 < 64) by (apply Z.mod_pos_bound; lia).
    assert (Ho : 0 ≤ (r / 4096) mod 64 < 64) by (apply Z.mod_pos_bound; lia).
    assert (Hd : r = 262144 * (r / 262144) + 4096 * ((r / 4096) mod 64) + 64 * ((r / 64) mod 64) + r mod 64)
      by (Z.to_euclidean_division_equations; lia).
    generalize dependent (r / 262144). generalize dependent ((r / 4096) mod 64).
    generalize dependent ((r / 64) mod 64). generalize dependent (r mod 64). intros.
    rune_arith; try lia; f_equal; lia.
Qed.

Lemma decode_runes_encode rs fuel :
  Forall valid_rune rs → (length (concat (map encode_rune rs)) ≤ fuel)%nat →
  decode_runes fuel (concat (map encode_rune rs)) = rs.
Proof.
  intros Hrs. revert fuel. induction Hrs as [|r rs Hr Hrs IH]; intros fuel Hf.
  - by destruct fuel.
  - simpl in *. destruct (decode_encode r (concat (map encode_rune rs)) Hr) as (b & l & He & Hd).
    rewrite He in *. simpl in *. destruct fuel as [|fuel]; [lia|].
    simpl. rewrite Hd. f_equal. apply IH. rewrite length_app in Hf. lia.
Qed.

Lemma decode_runes_valid fuel l : Forall is_byte l → Forall valid_rune (decode_runes fuel l).
Proof.
  revert l. induction fuel as [|fuel IH]; intros l Hl; [constructor|].
  destruct l as [|b l]; [constructor|]. apply Forall_cons in Hl as [Hb Hl]. simpl.
  destruct (decode_rune b l) as [r rest] eqn:E.
  destruct (decode_rune_spec _ _ _ _ Hb Hl E) as (? & ? & _). constructor; [done|by apply IH].
Qed.

Lemma ascii_code_byte c : is_byte (ascii_code c).
Proof. unfold is_byte, ascii_code. pose proof (N_ascii_bounded c). lia. Qed.

Lemma byte_values_from_bytes l : Forall is_byte l → byte_values (from_bytes l) = l.
Proof.
  intros Hl. unfold byte_values, from_bytes, str. rewrite String.list_ascii_of_string_of_list_ascii, map_map.
  induction Hl as [|b l Hb Hl IH]; [done|]. simpl. rewrite IH. f_equal.
  unfold ascii_code. unfold is_byte in Hb. rewrite N_ascii_embedding; lia.
Qed.

Lemma runes_valid s : Forall valid_rune (runes s).
Proof.
  unfold runes. apply decode_runes_valid. unfold byte_values.
  induction (str s) as [|c l IH]; [constructor|]. constructor; [apply ascii_code_byte|done].
Qed.

Lemma encode_runes_bytes rs : Forall valid_rune rs → Forall is_byte (concat (map encode_rune rs)).
Proof.
  induction 1; simpl; [constructor|]. rewrite Forall_app. split; [by apply encode_rune_bytes|done].
Qed.

Lemma runes_string_of_runes rs : Forall valid_rune rs → runes (string_of_runes rs) = rs.
Proof.
  intros Hrs. unfold runes, string_of_runes.
  rewrite byte_values_from_bytes by (by apply encode_runes_bytes). by apply decode_runes_encode.
Qed.

Lemma from_bytes_app l k : from_bytes (l ++ k) = (from_bytes l ++ from_bytes k)%string.
Proof.
  unfold from_bytes. rewrite map_app. generalize (map (λ b, ascii_of_N (Z.to_N b)) l). intros l'.
  induction l' as [|c l' IH]; simpl; [done|]. by rewrite IH.
Qed.

Lemma string_of_runes_app l k : string_of_runes (l ++ k) = (string_of_runes l ++ string_of_runes k)%string.
Proof. unfold string_of_runes. by rewrite map_app, concat_app, from_bytes_app. Qed.

Lemma byte_values_bytes s : Forall is_byte (byte_values s).
Proof. unfold byte_values. induction (str s); constructor; [apply ascii_code_byte|done]. Qed.

Lemma from_bytes_byte_values s : from_bytes (byte_values s) = s.
Proof.
  unfold from_bytes, byte_values, str. rewrite map_map. induction s as [|c s IH]; [done|].
  simpl. rewrite IH. f_equal. unfold ascii_code. rewrite N2Z.id. apply ascii_N_embedding.
Qed.
