(* ===== verification/Json.v ===== *)
(** * JSON values and raw JSON columns

    The part of Go's [encoding/json] the store relies on: a syntax tree, a
    parser for the texts the code unmarshals from plain strings
    ([json.Unmarshal] of a [last_error]), the compact printer behind
    [json.Marshal], and decoding of object fields with Go's rules (keys are
    matched case-insensitively, the last matching key wins, [null] leaves the
    target unchanged, a kind mismatch is an error).

    A [json.RawMessage] or BLOB column is a [raw]: empty, bytes that are not
    JSON, or the tree its bytes parse to. *)
From S2P Require Import Prelude Utf8.
From stdpp Require Import pretty.
From Stdlib Require Import Ascii.
#[local] Open Scope Z_scope.

#[warnings="-register-all"]
Inductive json : Type :=
| JNull
| JBool (b : bool)
| JNum (n : Z)
| JFrac (literal : string)   (* a number literal that is not an integer *)
| JStr (s : string)
| JArr (elems : list json)
| JObj (fields : list (string * json)).

Inductive raw : Type :=
| RawEmpty                   (* nil or zero bytes *)
| RawText (s : string)       (* non-empty bytes that are not valid JSON *)
| RawJson (j : json).

(** [len(value) == 0] *)
Definition raw_is_empty (r : raw) : bool := match r with RawEmpty => true | _ => false end.
(** [json.Valid] *)
Definition json_Valid (r : raw) : bool := match r with RawJson _ => true | _ => false end.

(** ** Decoding *)

(** Case folding, as in encoding/json's key match: of the runes outside ASCII,
    U+212A folds to [k] and U+017F to [s]. *)
Definition fold_ascii (c : ascii) : ascii :=
  let n := N_of_ascii c in
  if (65 <=? n)%N && (n <=? 90)%N then ascii_of_N (n + 32) else c.
Definition fold_chunk (special : list (Z * ascii)) (ch : Z * bool * bytes) : bytes :=
  match list_find (λ p, p.1 = ch.1.1) special with
  | Some (_, (_, c)) => [c]
  | None => map fold_ascii ch.2
  end.
Definition fold_with (special : list (Z * ascii)) (s : string) : string :=
  String.string_of_list_ascii (concat (map (fold_chunk special) (chunks (str s)))).
Definition fold_string (s : string) : string := fold_with [(8490%Z, "k"%char); (383%Z, "s"%char)] s.
(** [strings.ToLower], as far as ASCII text in the result goes: U+212A and
    U+0130 are the runes outside ASCII whose lower case is ASCII. *)
Definition ToLower (s : string) : string := fold_with [(8490%Z, "k"%char); (304%Z, "i"%char)] s.
Definition key_matches (name key : string) : bool :=
  bool_decide (fold_string name = fold_string key).

(** A string field [name] of a struct, decoded from the object's fields into a
    target that holds [acc]; [None] is an [UnmarshalTypeError]. *)
Fixpoint decode_string_field (name : string) (fields : list (string * json)) (acc : string) : option string :=
  match fields with
  | [] => Some acc
  | (key, v) :: fields' =>
      if key_matches name key then
        match v with
        | JStr s => decode_string_field name fields' s
        | JNull => decode_string_field name fields' acc
        | _ => None
        end
      else decode_string_field name fields' acc
  end.

(** An [int64] field: only an integer literal in range decodes. *)
Definition is_int64 (n : Z) : bool := (-9223372036854775808 <=? n) && (n <=? 9223372036854775807).
Fixpoint decode_int_field (name : string) (fields : list (string * json)) (acc : Z) : option Z :=
  match fields with
  | [] => Some acc
  | (key, v) :: fields' =>
      if key_matches name key then
        match v with
        | JNum n => if is_int64 n then decode_int_field name fields' n else None
        | JNull => decode_int_field name fields' acc
        | _ => None
        end
      else decode_int_field name fields' acc
  end.

(** [json.Unmarshal] into a struct with the one string field [name]. *)
Definition decode_struct1 (name : string) (j : json) : option string :=
  match j with
  | JObj fields => decode_string_field name fields EmptyString
  | JNull => Some EmptyString
  | _ => None
  end.

(** [json.Unmarshal] into [[]T], element decoder [f]. *)
Definition decode_slice {A} (f : json → option A) (r : raw) : option (list A) :=
  match r with
  | RawJson (JArr l) => mapM f l
  | RawJson JNull => Some []
  | _ => None
  end.
Definition decode_string (j : json) : option string :=
  match j with JStr s => Some s | JNull => Some EmptyString | _ => None end.
Definition decode_strings : raw → option (list string) := decode_slice decode_string.

(** ** Printing *)
Definition dquote : ascii := ascii_of_N 34.
Definition backslash : ascii := ascii_of_N 92.
Definition hex_digit (n : N) : ascii :=
  if (n <? 10)%N then ascii_of_N (48 + n) else ascii_of_N (87 + n).

(** A backslash-u escape of a code point below 65536. *)
Definition u_escape (n : N) : bytes :=
  [backslash; "u"%char; hex_digit (n / 4096); hex_digit (n / 256 mod 16); hex_digit (n / 16 mod 16); hex_digit (n mod 16)].
(** [json.Marshal] escapes the quote, the backslash, control characters, the
    HTML characters [<], [>] and [&] and the line separators U+2028 and U+2029;
    an invalid byte becomes the escape of U+FFFD. *)
Definition escape_ascii (c : ascii) : bytes :=
  let n := N_of_ascii c in
  if (n =? 34)%N || (n =? 92)%N then [backslash; c]
  else if (n =? 10)%N then [backslash; "n"%char]
  else if (n =? 13)%N then [backslash; "r"%char]
  else if (n =? 9)%N then [backslash; "t"%char]
  else if (n =? 8)%N then [backslash; "b"%char]
  else if (n =? 12)%N then [backslash; "f"%char]
  else if (n <? 32)%N || (n =? 60)%N || (n =? 62)%N || (n =? 38)%N then u_escape n
  else [c].
Definition escape_chunk (ch : Z * bool * bytes) : bytes :=
  let '(r, valid, bs) := ch in
  if negb valid then u_escape 65533
  else if (r =? 8232) || (r =? 8233) then u_escape (Z.to_N r)
  else match bs with [c] => escape_ascii c | _ => bs end.
Definition escape (s : string) : string :=
  String.string_of_list_ascii (concat (escape_chunk <$> chunks (str s))).
Definition quote (s : string) : string :=
  (String dquote (escape s) ++ String dquote EmptyString)%string.

Fixpoint json_text (j : json) : string :=
  match j with
  | JNull => "null"
  | JBool true => "true"
  | JBool false => "false"
  | JNum n => pretty n
  | JFrac l => l
  | JStr s => quote s
  | JArr l => "[" ++ String.concat "," (map json_text l) ++ "]"
  | JObj fs => "{" ++ String.concat "," (map (λ kv, quote kv.1 ++ ":" ++ json_text kv.2) fs) ++ "}"
  end%string.

(** The bytes of a column as a Go string. *)
Definition raw_string (r : raw) : string :=
  match r with RawEmpty => EmptyString | RawText s => s | RawJson j => json_text j end.

(** ** Parsing *)
Definition is_ws (c : ascii) : bool :=
  let n := N_of_ascii c in (n =? 32)%N || (n =? 9)%N || (n =? 10)%N || (n =? 13)%N.
Fixpoint skip_ws (l : list ascii) : list ascii :=
  match l with c :: l' => if is_ws c then skip_ws l' else l | [] => [] end.

Definition hex_value (c : ascii) : option N :=
  let n := N_of_ascii c in
  if (48 <=? n)%N && (n <=? 57)%N then Some (n - 48)%N
  else if (97 <=? n)%N && (n <=? 102)%N then Some (n - 87)%N
  else if (65 <=? n)%N && (n <=? 70)%N then Some (n - 55)%N else None.

Definition utf8_encode (n : N) : bytes := map (λ b, ascii_of_N (Z.to_N b)) (encode_rune (Z.of_N n)).
(** The four digits of a [\u] escape. *)
Definition u_digits (l : bytes) : option (N * bytes) :=
  match l with
  | a :: b :: c :: d :: rest =>
      match hex_value a, hex_value b, hex_value c, hex_value d with
      | Some a, Some b, Some c, Some d => Some ((a * 4096 + b * 256 + c * 16 + d)%N, rest)
      | _, _, _, _ => None
      end
  | _ => None
  end.
Definition high_surrogate (n : N) : bool := (55296 <=? n)%N && (n <? 56320)%N.
Definition low_surrogate (n : N) : bool := (56320 <=? n)%N && (n <? 57344)%N.
(** The code point of an escape whose first unit is [n]: a surrogate pair is
    combined, a lone surrogate is U+FFFD. *)
Definition u_code_point (n : N) (l : bytes) : N * bytes :=
  if high_surrogate n then
    match l with
    | bs :: u :: l' =>
        if Ascii.eqb bs backslash && Ascii.eqb u "u" then
          match u_digits l' with
          | Some (m, rest) =>
              if low_surrogate m then ((65536 + (n - 55296) * 1024 + (m - 56320))%N, rest) else (65533%N, l)
          | None => (65533%N, l)
          end
        else (65533%N, l)
    | _ => (65533%N, l)
    end
  else (if low_surrogate n then 65533%N else n, l).

(** The characters of a string literal after its opening quote, and the rest. *)
Fixpoint parse_string (fuel : nat) (l acc : bytes) : option (string * bytes) :=
  match fuel with
  | O => None
  | S fuel =>
      match l with
      | [] => None
      | c :: l' =>
          let n := N_of_ascii c in
          if (n =? 34)%N then Some (String.string_of_list_ascii (reverse acc), l')
          else if (n <? 32)%N then None
          else if (n =? 92)%N then
            match l' with
            | [] => None
            | e :: l'' =>
                let m := N_of_ascii e in
                if (m =? 34)%N || (m =? 92)%N || (m =? 47)%N then parse_string fuel l'' (e :: acc)
                else if (m =? 98)%N then parse_string fuel l'' (ascii_of_N 8 :: acc)
                else if (m =? 102)%N then parse_string fuel l'' (ascii_of_N 12 :: acc)
                else if (m =? 110)%N then parse_string fuel l'' (ascii_of_N 10 :: acc)
                else if (m =? 114)%N then parse_string fuel l'' (ascii_of_N 13 :: acc)
                else if (m =? 116)%N then parse_string fuel l'' (ascii_of_N 9 :: acc)
                else if (m =? 117)%N then
                  match u_digits l'' with
                  | Some (n, rest) =>
                      let '(r, rest) := u_code_point n rest in parse_string fuel rest (reverse (utf8_encode r) ++ acc)
                  | None => None
                  end
                else None
            end
          else if (n <? 128)%N then parse_string fuel l' (c :: acc)
          else
            let '(_, valid, used) := next_rune c l' in
            parse_string fuel (drop used l)
              (if valid then reverse (take used l) ++ acc else reverse (utf8_encode 65533) ++ acc)
      end
  end.

Definition is_digit (c : ascii) : bool :=
  let n := N_of_ascii c in (48 <=? n)%N && (n <=? 57)%N.
Fixpoint span_digits (l : list ascii) : list ascii * list ascii :=
  match l with
  | c :: l' => if is_digit c then let '(d, r) := span_digits l' in (c :: d, r) else ([], l)
  | [] => ([], [])
  end.
Definition digits_value (l : list ascii) : Z :=
  fold_left (λ (acc : Z) (c : ascii), acc * 10 + (Z.of_N (N_of_ascii c) - 48)) l 0.

(** A number: [-]int[.frac][(e|E)[+-]exp], no leading zeros. *)
Definition parse_number (l : list ascii) : option (json * list ascii) :=
  let '(neg, l1) := match l with c :: l' => if bool_decide (c = "-"%char) then (true, l') else (false, l) | [] => (false, l) end in
  let '(int, l2) := span_digits l1 in
  let bad_int := match int with [] => true | [_] => false | c :: _ => bool_decide (c = "0"%char) end in
  if bad_int then None else
  let '(has_frac, frac, l3) :=
    match l2 with
    | c :: l' => if bool_decide (c = "."%char) then let '(d, r) := span_digits l' in (true, d, r) else (false, [], l2)
    | [] => (false, [], l2)
    end in
  let '(has_exp, exp, l4) :=
    match l3 with
    | c :: l' =>
        if bool_decide (fold_ascii c = "e"%char) then
          let l'' := match l' with s :: r => if bool_decide (s = "+"%char) || bool_decide (s = "-"%char) then r else l' | [] => l' end in
          let '(d, r) := span_digits l'' in (true, d, r)
        else (false, [], l3)
    | [] => (false, [], l3)
    end in
  if (has_frac && bool_decide (frac = [])) || (has_exp && bool_decide (exp = [])) then None
  else if has_frac || has_exp
    then Some (JFrac (String.string_of_list_ascii (take (length l - length l4) l)), l4)
    else Some (JNum (if neg then - digits_value int else digits_value int), l4).

Fixpoint strip (p l : list ascii) : option (list ascii) :=
  match p, l with
  | [], _ => Some l
  | a :: p', b :: l' => if bool_decide (a = b) then strip p' l' else None
  | _, _ => None
  end.

Fixpoint parse_value (fuel : nat) (l : list ascii) : option (json * list ascii) :=
  match fuel with
  | O => None
  | S fuel =>
      match skip_ws l with
      | [] => None
      | c :: l' =>
          let n := N_of_ascii c in
          if (n =? 34)%N then
            match parse_string (S (length l')) l' [] with Some (s, r) => Some (JStr s, r) | None => None end
          else if (n =? 123)%N then
            match skip_ws l' with
            | d :: r => if (N_of_ascii d =? 125)%N then Some (JObj [], r) else parse_members fuel (d :: r) []
            | [] => None
            end
          else if (n =? 91)%N then
            match skip_ws l' with
            | d :: r => if (N_of_ascii d =? 93)%N then Some (JArr [], r) else parse_elements fuel (d :: r) []
            | [] => None
            end
          else if (n =? 110)%N then match strip (String.list_ascii_of_string "ull") l' with Some r => Some (JNull, r) | None => None end
          else if (n =? 116)%N then match strip (String.list_ascii_of_string "rue") l' with Some r => Some (JBool true, r) | None => None end
          else if (n =? 102)%N then match strip (String.list_ascii_of_string "alse") l' with Some r => Some (JBool false, r) | None => None end
          else parse_number (c :: l')
      end
  end
with parse_members (fuel : nat) (l : list ascii) (acc : list (string * json)) : option (json * list ascii) :=
  match fuel with
  | O => None
  | S fuel =>
      match skip_ws l with
      | c :: l1 =>
          if negb (N_of_ascii c =? 34)%N then None else
          match parse_string (S (length l1)) l1 [] with
          | Some (k, l2) =>
              match skip_ws l2 with
              | d :: l3 =>
                  if negb (N_of_ascii d =? 58)%N then None else
                  match parse_value fuel l3 with
                  | Some (v, l4) =>
                      match skip_ws l4 with
                      | e :: l5 =>
                          if (N_of_ascii e =? 44)%N then parse_members fuel l5 ((k, v) :: acc)
                          else if (N_of_ascii e =? 125)%N then Some (JObj (reverse ((k, v) :: acc)), l5)
                          else None
                      | [] => None
                      end
                  | None => None
                  end
              | [] => None
              end
          | None => None
          end
      | [] => None
      end
  end
with parse_elements (fuel : nat) (l : list ascii) (acc : list json) : option (json * list ascii) :=
  match fuel with
  | O => None
  | S fuel =>
      match parse_value fuel l with
      | Some (v, l1) =>
          match skip_ws l1 with
          | e :: l2 =>
              if (N_of_ascii e =? 44)%N then parse_elements fuel l2 (v :: acc)
              else if (N_of_ascii e =? 93)%N then Some (JArr (reverse (v :: acc)), l2)
              else None
          | [] => None
          end
      | None => None
      end
  end.

(** [json.Unmarshal] of a whole text: one value, then only white space.  Each
    level of recursion consumes a character, so the length is enough fuel. *)
Definition parse_json (s : string) : option json :=
  let l := String.list_ascii_of_string s in
  match parse_value (2 * length l + 2) l with
  | Some (j, rest) => match skip_ws rest with [] => Some j | _ => None end
  | None => None
  end.

Example parse_json_object :
  parse_json (json_text (JObj [("code", JStr "rollout_timeout"); ("n", JNum (-12)); ("x", JArr [JNull; JBool true])]))
  = Some (JObj [("code", JStr "rollout_timeout"); ("n", JNum (-12)); ("x", JArr [JNull; JBool true])]).
Proof. vm_compute. reflexivity. Qed.
