(* ===== verification/JsonText.v ===== *)
(** * Reading back printed JSON

    [parse_json] inverts [json_text] on every tree whose strings are valid
    UTF-8 and whose fractional literals are number literals: the part of
    encoding/json that page cursors, idempotency references and canonical
    documents rely on. *)
From S2P Require Import Prelude Utf8 Json.
From stdpp Require Import pretty.
From Stdlib Require Import Ascii.
#[local] Open Scope Z_scope.

(** ** Strings as byte lists *)
Lemma str_app a b : str (a ++ b) = (str a ++ str b)%list.
Proof. induction a as [|c a IH]; [done|]. unfold str in *. simpl. by rewrite IH. Qed.
Lemma str_of_list l : str (String.string_of_list_ascii l) = l.
Proof. apply String.list_ascii_of_string_of_list_ascii. Qed.
Lemma of_list_str s : String.string_of_list_ascii (str s) = s.
Proof. apply String.string_of_list_ascii_of_string. Qed.

(** ** Integers *)
Definition all_digits (l : bytes) : Prop := Forall (λ c, is_digit c = true) l.
(** What may follow a number so that the parser stops there. *)
Definition ends_number (l : bytes) : Prop :=
  match l with
  | [] => True
  | c :: _ => is_digit c = false ∧ c ≠ "."%char ∧ fold_ascii c ≠ "e"%char
  end.

Lemma digits_value_app a b : digits_value (a ++ b) = digits_value a * 10 ^ Z.of_nat (length b) + digits_value b.
Proof.
  unfold digits_value. rewrite fold_left_app. generalize (fold_left (λ acc c, acc * 10 + (Z.of_N (N_of_ascii c) - 48)) a 0).
  induction b as [|c b IH] using rev_ind; intros z; [simpl; lia|].
  rewrite !fold_left_app, length_app. simpl. rewrite IH, Nat2Z.inj_add, Z.pow_add_r by lia. simpl. lia.
Qed.

Lemma span_digits_app ds rest :
  all_digits ds → (match rest with [] => True | c :: _ => is_digit c = false end) →
  span_digits (ds ++ rest) = (ds, rest).
Proof.
  intros Hd Hr. induction Hd as [|c ds Hc _ IH]; simpl; [destruct rest as [|c r]; [done|]; simpl; by rewrite Hr|].
  by rewrite Hc, IH.
Qed.

Lemma pretty_N_char_digit x :
  (x < 10)%N → is_digit (pretty_N_char x) = true ∧ Z.of_N (N_of_ascii (pretty_N_char x)) - 48 = Z.of_N x
  ∧ (x ≠ 0%N → pretty_N_char x ≠ "0"%char).
Proof.
  intros H. assert (x ∈ [0;1;2;3;4;5;6;7;8;9]%N) as Hx.
  { set_solver by lia. }
  repeat (apply elem_of_cons in Hx as [->|Hx]; [by vm_compute|]). by apply not_elem_of_nil in Hx.
Qed.

(** The digits of a positive number: no leading zero, and their value. *)
Lemma pretty_N_go_spec x s :
  (0 < x)%N →
  ∃ c ds, str (pretty_N_go x s) = (c :: ds) ++ str s ∧ all_digits (c :: ds) ∧ c ≠ "0"%char
          ∧ digits_value (c :: ds) = Z.of_N x.
Proof.
  revert s. induction (N.lt_wf_0 x) as [x _ IH]; intros s Hx. rewrite pretty_N_go_step by done.
  pose proof (N.mod_lt x 10 ltac:(lia)) as Hm. pose proof (N.div_mod x 10 ltac:(lia)) as Hdm.
  destruct (pretty_N_char_digit (x mod 10) Hm) as (Hc & Hv & Hz).
  destruct (decide (x / 10 = 0)%N) as [E|E].
  - rewrite E, pretty_N_go_0. exists (pretty_N_char (x mod 10)), []. split; [done|].
    split; [by constructor|]. split; [apply Hz; lia|]. unfold digits_value. simpl. lia.
  - destruct (IH (x / 10)%N ltac:(apply N.div_lt; lia) (String (pretty_N_char (x mod 10)) s) ltac:(lia))
      as (c & ds & Hs & Hd & Hc0 & Hdv).
    exists c, (ds ++ [pretty_N_char (x mod 10)]). split; [|split; [|split; [done|]]].
    + rewrite Hs. simpl. f_equal. by rewrite <- app_assoc.
    + change (c :: (ds ++ ?l)) with ((c :: ds) ++ l). apply Forall_app. split; [done|by constructor].
    + change (c :: (ds ++ ?l)) with ((c :: ds) ++ l). rewrite digits_value_app, Hdv. simpl length.
      change (digits_value [pretty_N_char (x mod 10)]) with (Z.of_N (N_of_ascii (pretty_N_char (x mod 10))) - 48).
      rewrite Hv. lia.
Qed.

Lemma not_minus c : is_digit c = true → c ≠ "-"%char.
Proof. by intros H ->. Qed.

(** The tail of [parse_number] on an integer literal. *)
Lemma parse_number_int (neg : bool) c ds rest :
  all_digits (c :: ds) → (ds = [] ∨ c ≠ "0"%char) → ends_number rest →
  parse_number ((if neg then ["-"%char] else []) ++ (c :: ds) ++ rest)
  = Some (JNum (if neg then - digits_value (c :: ds) else digits_value (c :: ds)), rest).
Proof.
  intros Hd Hz Hr. unfold parse_number.
  assert (Hspan : span_digits (c :: ds ++ rest) = (c :: ds, rest)).
  { apply (span_digits_app (c :: ds)); [done|]. destruct rest; [done|]. apply Hr. }
  assert (Hbad : match c :: ds with [] => true | [_] => false | c :: _ => bool_decide (c = "0"%char) end = false).
  { destruct ds; [done|]. apply bool_decide_eq_false. by destruct Hz. }
  assert (Hminus : c ≠ "-"%char) by (apply not_minus; by apply Forall_cons in Hd as [? _]).
  destruct neg; cbn [app]; [rewrite (bool_decide_true ("-"%char = "-"%char)) by done|rewrite (bool_decide_false (c = "-"%char)) by done];
    cbv beta iota zeta; rewrite Hspan; cbv beta iota zeta; rewrite Hbad; cbv beta iota zeta;
    (destruct rest as [|d r]; [done|]); destruct Hr as (_ & ? & ?); by rewrite !bool_decide_false by done.
Qed.

Lemma parse_pretty n rest :
  ends_number rest → parse_number (str (pretty n) ++ rest) = Some (JNum n, rest).
Proof.
  intros Hr. destruct n as [|p|p].
  - by apply (parse_number_int false "0"%char [] rest); [repeat constructor|left|].
  - change (pretty (Zpos p)) with (pretty_N_go (Npos p) "").
    destruct (pretty_N_go_spec (Npos p) "" ltac:(lia)) as (c & ds & -> & Hd & Hc & Hv). simpl str.
    rewrite app_nil_r. change (Zpos p) with (Z.of_N (Npos p)). rewrite <- Hv.
    exact (parse_number_int false c ds rest Hd (or_intror Hc) Hr).
  - change (str (pretty (Zneg p))) with ("-"%char :: str (pretty_N_go (Npos p) "")).
    destruct (pretty_N_go_spec (Npos p) "" ltac:(lia)) as (c & ds & -> & Hd & Hc & Hv). simpl str.
    rewrite app_nil_r. change (Zneg p) with (- Z.of_N (Npos p)). rewrite <- Hv.
    exact (parse_number_int true c ds rest Hd (or_intror Hc) Hr).
Qed.

(** ** Fractional literals *)
(** A literal that [parse_number] takes as a whole and that is not an integer. *)
Definition frac_literal (l : string) : bool := 
  match parse_number (str l) with Some (JFrac l', []) => bool_decide (l' = l) | _ => false end.

Lemma span_digits_ext a rest :
  (match rest with [] => True | c :: _ => is_digit c = false end) →
  span_digits (a ++ rest) = ((span_digits a).1, (span_digits a).2 ++ rest).
Proof.
  intros Hr. induction a as [|c a IH]; simpl.
  - destruct rest as [|c r]; [done|]. simpl. by rewrite Hr.
  - destruct (is_digit c); [|done]. rewrite IH. by destruct (span_digits a).
Qed.

Lemma take_literal (l l4 rest : bytes) :
  take (length (l ++ rest) - length (l4 ++ rest)) (l ++ rest) = take (length l - length l4) l.
Proof.
  rewrite !length_app. replace (length l + length rest - (length l4 + length rest))%nat with (length l - length l4)%nat by lia.
  apply take_app_le. lia.
Qed.

Lemma parse_number_ext a j l4 rest :
  ends_number rest → parse_number a = Some (j, l4) → parse_number (a ++ rest) = Some (j, l4 ++ rest).
Proof.
  intros Hr. assert (Hd : match rest with [] => True | c :: _ => is_digit c = false end) by (destruct rest; [done|apply Hr]).
  unfold parse_number. destruct a as [|c a]; [done|]. cbn [app].
  destruct (if bool_decide (c = "-"%char) then (true, a) else (false, c :: a)) as [neg l1] eqn:El1.
  assert (Hl1 : (if bool_decide (c = "-"%char) then (true, a ++ rest) else (false, c :: a ++ rest)) = (neg, l1 ++ rest))
    by (destruct (bool_decide _); by injection El1 as <- <-).
  rewrite Hl1. clear Hl1 El1. rewrite span_digits_ext by done. destruct (span_digits l1) as [int l2]. cbn [fst snd].
  destruct (match int with [] => true | [_] => false | c0 :: _ => bool_decide (c0 = "0"%char) end); [done|].
  set (F l := match l with c0 :: l' => if bool_decide (c0 = "."%char) then let '(d, r) := span_digits l' in (true, d, r) else (false, [], l) | [] => (false, [], l) end).
  change (match l2 ++ rest with [] => _ | _ => _ end) with (F (l2 ++ rest)).
  change (match l2 with [] => _ | _ => _ end) with (F l2) at 1.
  assert (HF : F (l2 ++ rest) = ((F l2).1, (F l2).2 ++ rest)).
  { unfold F. destruct l2 as [|d l2]; cbn [app].
    - destruct rest as [|e r]; [done|]. destruct Hr as (_ & ? & _). by rewrite bool_decide_false.
    - destruct (bool_decide _); [|done]. rewrite span_digits_ext by done. by destruct (span_digits l2). }
  rewrite HF. destruct (F l2) as [[has_frac frac] l3]. cbn [fst snd]. clear HF F.
  set (E l := match l with c0 :: l' => if bool_decide (fold_ascii c0 = "e"%char) then
      let '(d, r) := span_digits (match l' with s :: r => if bool_decide (s = "+"%char) || bool_decide (s = "-"%char) then r else l' | [] => l' end) in (true, d, r)
      else (false, [], l) | [] => (false, [], l) end).
  change (match l3 ++ rest with [] => _ | _ => _ end) with (E (l3 ++ rest)).
  change (match l3 with [] => _ | _ => _ end) with (E l3) at 1.
  assert (HE : E (l3 ++ rest) = ((E l3).1, (E l3).2 ++ rest) ∨ (E l3).1 = (true, [])).
  { unfold E. destruct l3 as [|d l3]; cbn [app].
    - left. destruct rest as [|e r]; [done|]. destruct Hr as (_ & _ & ?). by rewrite bool_decide_false.
    - destruct (bool_decide _); [|by left]. destruct l3 as [|s l3]; [by right|]. cbn [app].
      left. destruct (_ || _); [|change (s :: l3 ++ rest) with ((s :: l3) ++ rest)]; rewrite span_digits_ext by done;
        by destruct (span_digits _). }
  destruct (E l3) as [[has_exp exp] l5] eqn:EE. cbn [fst snd] in HE. destruct HE as [HE|[= -> ->]].
  - rewrite HE. cbn [fst snd]. destruct (_ || _); [done|]. change (c :: a ++ rest) with ((c :: a) ++ rest).
    rewrite take_literal. destruct (has_frac || has_exp); by intros [= <- <-].
  - intros H. exfalso. revert H. cbv beta iota. rewrite (bool_decide_true ([] = [])) by done. by rewrite orb_true_r.
Qed.

Lemma parse_frac l rest : frac_literal l = true → ends_number rest → parse_number (str l ++ rest) = Some (JFrac l, rest).
Proof.
  unfold frac_literal. intros Hl Hr. destruct (parse_number (str l)) as [[j [|c l4]]|] eqn:E; [|by destruct j|done].
  destruct j; try done. apply bool_decide_eq_true in Hl as ->. by rewrite (parse_number_ext _ _ _ _ Hr E).
Qed.

(** *** What a float formatter writes *)
(** [strconv.FormatFloat(v, 'g', -1, 64)] of a finite [v], as its documentation
    describes it: the format [-ddd.ddd] or, for large exponents, [-d.ddde±dd], with
    the fewest digits that identify [v]; so possibly neither point nor exponent. *)
Definition float_frac (l : bytes) : Prop := l = [] ∨ ∃ ds, l = "."%char :: ds ∧ ds ≠ [] ∧ all_digits ds.
Definition float_exp (l : bytes) : Prop :=
  l = [] ∨ ∃ s ds, l = "e"%char :: s :: ds ∧ (s = "+"%char ∨ s = "-"%char) ∧ ds ≠ [] ∧ all_digits ds.
Definition formatted_float (t : string) : Prop :=
  ∃ (neg : bool) c ds frac exp,
    str t = (if neg then ["-"%char] else []) ++ (c :: ds) ++ frac ++ exp
    ∧ all_digits (c :: ds) ∧ (ds = [] ∨ c ≠ "0"%char) ∧ float_frac frac ∧ float_exp exp.

Lemma float_exp_head l : float_exp l → match l with [] => True | c :: _ => is_digit c = false ∧ c ≠ "."%char end.
Proof. by intros [->|(s & ds & -> & _)]. Qed.
Lemma float_rest_head frac exp :
  float_frac frac → float_exp exp → match frac ++ exp with [] => True | c :: _ => is_digit c = false end.
Proof. intros [->|(ds & -> & _)] He; [|done]. apply float_exp_head in He. by destruct exp as [|c l]; [|destruct He]. Qed.

(** The two optional parts, as [parse_number] reads them. *)
Definition number_frac (l : bytes) : bool * bytes * bytes :=
  match l with
  | c :: l' => if bool_decide (c = "."%char) then let '(d, r) := span_digits l' in (true, d, r) else (false, [], l)
  | [] => (false, [], l)
  end.
Definition number_exp (l : bytes) : bool * bytes * bytes :=
  match l with
  | c :: l' =>
      if bool_decide (fold_ascii c = "e"%char) then
        let l'' := match l' with s :: r => if bool_decide (s = "+"%char) || bool_decide (s = "-"%char) then r else l' | [] => l' end in
        let '(d, r) := span_digits l'' in (true, d, r)
      else (false, [], l)
  | [] => (false, [], l)
  end.
Lemma number_frac_spec frac exp :
  float_frac frac → float_exp exp → number_frac (frac ++ exp) = (negb (bool_decide (frac = [])), drop 1 frac, exp).
Proof.
  intros Hf He. apply float_exp_head in He. destruct Hf as [->|(ds & -> & Hne & Hd)]; unfold number_frac; cbn [app].
  - destruct exp as [|c l]; [done|]. by rewrite bool_decide_false by apply He.
  - rewrite bool_decide_true by done. by rewrite span_digits_app by (done || by destruct exp as [|? ?]; [|destruct He]).
Qed.
Lemma number_exp_spec exp : float_exp exp → number_exp exp = (negb (bool_decide (exp = [])), drop 2 exp, []).
Proof.
  intros [->|(s & ds & -> & Hs & Hne & Hd)]; [done|]. unfold number_exp. rewrite bool_decide_true by done. cbv beta iota zeta.
  pose proof (span_digits_app ds [] Hd I) as Hspan. rewrite app_nil_r in Hspan.
  by destruct Hs as [-> | ->]; simpl; rewrite Hspan.
Qed.

(** With a point or an exponent such a text is one JSON number literal. *)
Lemma formatted_literal (neg : bool) c ds frac exp :
  all_digits (c :: ds) → (ds = [] ∨ c ≠ "0"%char) → float_frac frac → float_exp exp → frac ++ exp ≠ [] →
  parse_number ((if neg then ["-"%char] else []) ++ (c :: ds) ++ frac ++ exp)
  = Some (JFrac (String.string_of_list_ascii ((if neg then ["-"%char] else []) ++ (c :: ds) ++ frac ++ exp)), []).
Proof.
  intros Hd Hz Hf He Hne. unfold parse_number.
  pose proof (span_digits_app (c :: ds) (frac ++ exp) Hd (float_rest_head frac exp Hf He)) as Hspan.
  assert (Hbad : match c :: ds with [] => true | [_] => false | c :: _ => bool_decide (c = "0"%char) end = false).
  { destruct ds; [done|]. apply bool_decide_eq_false. by destruct Hz. }
  assert (Hminus : c ≠ "-"%char) by (apply not_minus; by apply Forall_cons in Hd as [? _]).
  assert (Hall : ∀ l : bytes, take (length l - 0) l = l) by (intros l; apply firstn_all2; lia).
  pose proof (float_rest_head frac exp Hf He) as Hhead. pose proof (number_frac_spec frac exp Hf He) as HF.
  pose proof (number_exp_spec exp He) as HE. unfold number_frac in HF. unfold number_exp in HE.
  destruct neg; cbn [app]; [rewrite (bool_decide_true ("-"%char = "-"%char)) by done|rewrite (bool_decide_false (c = "-"%char)) by done];
    cbv beta iota zeta; cbn [app] in Hspan; rewrite Hspan; cbv beta iota zeta; rewrite Hbad; cbv beta iota zeta;
    rewrite HF; cbv beta iota zeta; rewrite HE; cbv beta iota zeta; change (length (@nil ascii)) with O; rewrite Hall;
    destruct Hf as [->|(fs & -> & Hfs & _)], He as [->|(s & es & -> & _ & Hes & _)]; try done; simpl;
    by rewrite ?(bool_decide_false (_ = [])) by done.
Qed.

Lemma formatted_frac_literal (neg : bool) c ds frac exp t :
  str t = (if neg then ["-"%char] else []) ++ (c :: ds) ++ frac ++ exp →
  all_digits (c :: ds) → (ds = [] ∨ c ≠ "0"%char) → float_frac frac → float_exp exp → frac ++ exp ≠ [] →
  frac_literal t = true.
Proof.
  intros Ht Hd Hz Hf He Hne. unfold frac_literal. rewrite <- (of_list_str t), str_of_list, Ht, formatted_literal by done.
  by apply bool_decide_eq_true.
Qed.

(** ** Strings *)
Definition enc (r : Z) : bytes := map (λ b, ascii_of_N (Z.to_N b)) (encode_rune r).
(** Valid UTF-8. *)
Definition valid_text (s : string) : Prop := ∃ rs, Forall valid_rune rs ∧ s = string_of_runes rs.

Lemma str_string_of_runes rs : str (string_of_runes rs) = concat (map enc rs).
Proof.
  unfold string_of_runes, from_bytes, enc. rewrite str_of_list. induction rs as [|r rs IH]; [done|].
  simpl. by rewrite map_app, IH.
Qed.

Lemma ascii_code_of_byte b : is_byte b → ascii_code (ascii_of_N (Z.to_N b)) = b.
Proof. unfold is_byte, ascii_code. intros. rewrite N_ascii_embedding; lia. Qed.
Lemma codes_of_bytes l : Forall is_byte l → map ascii_code (map (λ b, ascii_of_N (Z.to_N b)) l) = l.
Proof. induction 1; simpl; [done|]. by rewrite ascii_code_of_byte, IHForall. Qed.

Lemma encode_rune_length r : (1 ≤ length (encode_rune r) ≤ 4)%nat.
Proof. unfold encode_rune. repeat case_match; simpl; lia. Qed.

Lemma next_rune_enc r rest :
  valid_rune r → ∃ c l, enc r = c :: l ∧ next_rune c (l ++ rest) = (r, true, length (enc r)).
Proof.
  intros Hr. pose proof (encode_rune_bytes r Hr) as Hb. pose proof (encode_rune_length r) as Hlen. unfold enc.
  destruct (encode_rune r) as [|b l] eqn:E; [simpl in Hlen; lia|]. apply Forall_cons in Hb as [Hb Hl].
  exists (ascii_of_N (Z.to_N b)), (map (λ b, ascii_of_N (Z.to_N b)) l). split; [done|].
  unfold next_rune. rewrite ascii_code_of_byte by done. simpl in Hlen. rewrite length_map. simpl length.
  rewrite firstn_app, map_app, (firstn_all2 (map _ l)) by (rewrite length_map; lia). rewrite codes_of_bytes by done.
  set (tail := map ascii_code (firstn (3 - length (map (λ b, ascii_of_N (Z.to_N b)) l)) rest)).
  destruct (decode_encode r tail Hr) as (b' & l' & E' & Hd). rewrite E in E'. injection E' as <- <-. rewrite Hd.
  assert (Htail : length tail = length (take (3 - length l) rest)) by (unfold tail; by rewrite !length_map).
  rewrite length_app, !length_map, <- Htail. replace (length l + length tail - length tail)%nat with (length l) by lia.
  f_equal. f_equal. rewrite negb_true_iff, andb_false_iff.
  destruct (Z.eqb_spec r rune_error) as [->|]; [right|by left]. vm_compute in E. by injection E as <- <-.
Qed.

Lemma chunks_from_enc fuel rs :
  Forall valid_rune rs → (length (concat (map enc rs)) ≤ fuel)%nat →
  chunks_from fuel (concat (map enc rs)) = map (λ r, (r, true, enc r)) rs.
Proof.
  intros Hrs. revert fuel. induction Hrs as [|r rs Hr Hrs IH]; intros fuel Hf; [by destruct fuel|].
  simpl in *. destruct (next_rune_enc r (concat (map enc rs)) Hr) as (c & l & He & Hn). rewrite He in *. simpl in Hf.
  destruct fuel as [|fuel]; [lia|]. cbn [app chunks_from]. rewrite Hn.
  change (c :: l ++ concat (map enc rs)) with ((c :: l) ++ concat (map enc rs)).
  rewrite take_app_length, drop_app_length. f_equal. apply IH.
  rewrite length_app in Hf. lia.
Qed.

Lemma chunks_valid rs : Forall valid_rune rs → chunks (str (string_of_runes rs)) = map (λ r, (r, true, enc r)) rs.
Proof. intros. rewrite str_string_of_runes. by apply chunks_from_enc. Qed.

(** One rune of a string literal costs the scanner one unit of fuel. *)
Lemma parse_string_rune r fuel l acc :
  valid_rune r →
  parse_string (S fuel) (escape_chunk (r, true, enc r) ++ l) acc = parse_string fuel l (reverse (enc r) ++ acc).
Proof.
  intros Hr. destruct (decide (r < 128)) as [Hlt|Hge].
  { assert (Hpos : 0 ≤ r) by (destruct Hr; lia). rewrite <- (Z2Nat.id r) by done.
    assert (Hn : (Z.to_nat r < 128)%nat) by lia. revert Hn. generalize (Z.to_nat r). intros n Hn.
    do 128 (destruct n as [|n]; [reflexivity|]). lia. }
  destruct (decide (r = 8232)) as [->|H1]; [reflexivity|]. destruct (decide (r = 8233)) as [->|H2]; [reflexivity|].
  unfold escape_chunk. cbn [negb]. rewrite (proj2 (Z.eqb_neq r 8232)), (proj2 (Z.eqb_neq r 8233)) by done. cbn [orb].
  destruct (next_rune_enc r l Hr) as (c & bs & He & Hn).
  assert (Hc : (128 <= N_of_ascii c)%N ∧ bs ≠ []).
  { revert He. unfold enc, encode_rune. pose proof (encode_rune_bytes r Hr) as Hb. unfold encode_rune in Hb.
    rewrite (proj2 (Z.ltb_ge r 128)) in * by lia.
    destruct (Z.ltb_spec r 2048); [|destruct (Z.ltb_spec r 65536)]; cbn [map] in *; intros [= <- <-];
      apply Forall_cons in Hb as [Hb _]; unfold is_byte in Hb;
      (split; [rewrite N_ascii_embedding by lia|done]); Z.to_euclidean_division_equations; lia. }
  destruct Hc as [Hc Hbs]. rewrite He in *. destruct bs as [|b bs]; [done|].
  cbn [app parse_string]. cbv zeta.
  assert (Hne : ∀ k, (k < 128)%N → (N_of_ascii c =? k)%N = false) by (intros; apply N.eqb_neq; lia).
  assert (Hlt : ∀ k, (k <= 128)%N → (N_of_ascii c <? k)%N = false) by (intros; apply N.ltb_ge; lia).
  rewrite !Hne, !Hlt by lia. cbn [app] in Hn. rewrite Hn.
  change (c :: b :: bs ++ l) with ((c :: b :: bs) ++ l). by rewrite take_app_length, drop_app_length.
Qed.

Lemma parse_string_runes rs fuel tail acc :
  Forall valid_rune rs → (length rs < fuel)%nat →
  parse_string fuel (concat (map escape_chunk (map (λ r, (r, true, enc r)) rs)) ++ dquote :: tail) acc
  = Some (String.string_of_list_ascii (reverse acc ++ concat (map enc rs)), tail).
Proof.
  intros Hrs. revert fuel acc. induction Hrs as [|r rs Hr Hrs IH]; intros [|fuel] acc Hf; simpl in Hf; try lia.
  - simpl. by rewrite app_nil_r.
  - cbn [map concat]. rewrite <- app_assoc, parse_string_rune, IH by (done || lia).
    by rewrite reverse_app, reverse_involutive, <- app_assoc.
Qed.

Lemma escape_length rs : Forall valid_rune rs → (length rs <= length (concat (map escape_chunk (map (λ r, (r, true, enc r)) rs))))%nat.
Proof.
  induction 1 as [|r rs Hr Hrs IH]; [done|]. cbn [map concat length]. rewrite length_app.
  assert (Hpos : (1 <= length (escape_chunk (r, true, enc r)))%nat); [|lia].
  destruct (next_rune_enc r [] Hr) as (c & l & He & _). unfold escape_chunk. rewrite He.
  destruct (_ || _); simpl; [lia|]. destruct l; [|simpl; lia]. unfold escape_ascii. repeat case_match; simpl; lia.
Qed.

(** A quoted text reads back as itself. *)
Lemma parse_quoted s tail :
  valid_text s →
  ∃ l, str (quote s) ++ tail = dquote :: l ∧ parse_string (S (length l)) l [] = Some (s, tail).
Proof.
  intros (rs & Hrs & ->). unfold quote. rewrite !str_app. cbn [str String.list_ascii_of_string app].
  eexists. split; [done|]. unfold escape. rewrite str_of_list, chunks_valid by done.
  change (escape_chunk <$> ?l) with (map escape_chunk l). rewrite <- app_assoc. cbn [app].
  rewrite parse_string_runes; [|done|rewrite !length_app; pose proof (escape_length rs Hrs); lia].
  by rewrite app_nil_l, <- str_string_of_runes, of_list_str.
Qed.

(** ** Trees *)
Fixpoint readable (j : json) : Prop :=
  match j with
  | JNull | JBool _ | JNum _ => True
  | JFrac l => frac_literal l = true
  | JStr s => valid_text s
  | JArr l => foldr (λ x P, readable x ∧ P) True l
  | JObj fs => foldr (λ kv P, valid_text kv.1 ∧ readable kv.2 ∧ P) True fs
  end.

Section json_induction.
Variable P : json → Prop.
Hypothesis Hleaf : ∀ j, match j with JArr _ | JObj _ => False | _ => True end → P j.
Hypothesis Harr : ∀ l, Forall P l → P (JArr l).
Hypothesis Hobj : ∀ fs, Forall (λ kv, P kv.2) fs → P (JObj fs).
Fixpoint json_tree_ind (j : json) : P j :=
  match j with
  | JArr l => Harr l ((fix go l := match l return Forall P l with
                                   | [] => Forall_nil_2 _ | x :: l => Forall_cons_2 _ _ _ (json_tree_ind x) (go l) end) l)
  | JObj fs => Hobj fs ((fix go l := match l return Forall (λ kv, P kv.2) l with
                                     | [] => Forall_nil_2 _ | x :: l => Forall_cons_2 _ _ _ (json_tree_ind x.2) (go l) end) fs)
  | j => Hleaf j I
  end.
End json_induction.

Definition starts_value (c : ascii) : Prop := is_ws c = false ∧ (N_of_ascii c =? 93)%N = false.
Lemma digit_starts c :
  is_digit c = true ∨ c = "-"%char → is_ws c = false ∧ ∀ n, (57 < n ∨ n = 34)%N → (N_of_ascii c =? n)%N = false.
Proof.
  unfold is_ws, is_digit. intros H. assert (Hc : (45 <= N_of_ascii c <= 57)%N).
  { destruct H as [H| ->]; [|by vm_compute]. apply andb_true_iff in H as [H1 H2]. apply N.leb_le in H1, H2. lia. }
  split; [|intros n Hn; apply N.eqb_neq; lia]. rewrite !(proj2 (N.eqb_neq _ _)) by lia. done.
Qed.
Lemma parse_number_starts a j r : parse_number a = Some (j, r) → ∃ c l, a = c :: l ∧ (is_digit c = true ∨ c = "-"%char).
Proof.
  unfold parse_number. destruct a as [|c a]; [done|]. intros H. exists c, a. split; [done|].
  destruct (decide (c = "-"%char)) as [->|Hc]; [by right|left]. rewrite (bool_decide_false (c = _)) in H by done.
  simpl in H. by destruct (is_digit c).
Qed.

Lemma parse_value_number fuel a j r : parse_number a = Some (j, r) → parse_value (S fuel) a = Some (j, r).
Proof.
  intros H. destruct (parse_number_starts _ _ _ H) as (c & l & -> & Hc).
  destruct (digit_starts c Hc) as [Hws Hn]. cbn [parse_value skip_ws]. rewrite Hws. cbv zeta.
  rewrite !Hn by lia. done.
Qed.

Lemma json_text_starts j : readable j → ∃ c l, str (json_text j) = c :: l ∧ starts_value c.
Proof.
  destruct j as [|[]|n|l|s|l|fs]; intros Hj; simpl in Hj; try (eexists _, _; split; [reflexivity|by vm_compute]).
  - pose proof (parse_pretty n [] I) as H. rewrite app_nil_r in H.
    destruct (parse_number_starts _ _ _ H) as (c & l & Heq & Hc). exists c, l. split; [exact Heq|]. destruct (digit_starts c Hc) as [? Hn]. split; [done|apply Hn; lia].
  - pose proof (parse_frac l [] Hj I) as H. rewrite app_nil_r in H.
    destruct (parse_number_starts _ _ _ H) as (c & l' & Heq & Hc). exists c, l'. split; [exact Heq|]. destruct (digit_starts c Hc) as [? Hn]. split; [done|apply Hn; lia].
Qed.
Lemma str_concat_cons sep x l : l ≠ [] → str (String.concat sep (x :: l)) = str x ++ str sep ++ str (String.concat sep l).
Proof. destruct l; [done|]. intros _. cbn [String.concat]. by rewrite !str_app. Qed.

Abbreviation text j := (str (json_text j)).
(** Enough fuel for a value is twice the length of its text. *)
Definition reads (j : json) : Prop :=
  ∀ fuel rest, ends_number rest → (2 * length (text j) <= fuel)%nat → parse_value fuel (text j ++ rest) = Some (j, rest).

Lemma reads_leaf j : match j with JArr _ | JObj _ => False | _ => True end → readable j → reads j.
Proof.
  intros Hleaf Hj fuel rest Hr Hf. destruct (json_text_starts j Hj) as (c0 & l0 & Hs & _).
  assert (Hpos : (2 <= fuel)%nat) by (rewrite Hs in Hf; simpl in Hf; lia).
  destruct fuel as [|fuel]; [lia|]. destruct j as [|[]|n|l|s|l|fs]; simpl in Hj, Hleaf; try done.
  - apply parse_value_number. by apply parse_pretty.
  - apply parse_value_number. by apply parse_frac.
  - destruct (parse_quoted s rest Hj) as (l & Hl & Hp). cbn [json_text]. rewrite Hl. cbn [parse_value skip_ws].
    change (is_ws dquote) with false. change ((N_of_ascii dquote =? 34)%N) with true. cbv iota zeta. by rewrite Hp.
Qed.

Lemma reads_elements x l acc fuel rest :
  Forall reads (x :: l) → Forall readable (x :: l) →
  (2 * length (str (String.concat "," (map json_text (x :: l)))) < fuel)%nat →
  parse_elements fuel (str (String.concat "," (map json_text (x :: l))) ++ "]"%char :: rest) acc
  = Some (JArr (reverse acc ++ x :: l), rest).
Proof.
  revert x acc fuel. induction l as [|y l IH]; intros x acc fuel [Hx Hl]%Forall_cons [Hrx Hrl]%Forall_cons Hf;
    (destruct fuel as [|fuel]; [lia|]); cbn [map] in Hf |- *.
  - cbn [String.concat parse_elements] in *. rewrite (Hx fuel) by (done || lia). simpl. by rewrite reverse_cons.
  - rewrite str_concat_cons in Hf by done. rewrite str_concat_cons by done. rewrite !length_app in Hf. change (length (str ",")) with 1%nat in Hf.
    rewrite <- app_assoc. cbn [parse_elements]. rewrite (Hx fuel) by (done || lia). cbn [str String.list_ascii_of_string app].
    cbn [skip_ws]. change (is_ws ",") with false. change ((N_of_ascii "," =? 44)%N) with true. cbv iota.
    change (json_text y :: map json_text l) with (map json_text (y :: l)) in Hf |- *. rewrite IH by (done || lia).
    by rewrite reverse_cons, <- app_assoc.
Qed.

Definition member_text (kv : string * json) : string := quote kv.1 ++ ":" ++ json_text kv.2.
Lemma member_text_str kv rest :
  valid_text kv.1 →
  ∃ l, str (member_text kv) ++ rest = dquote :: l ∧
       parse_string (S (length l)) l [] = Some (kv.1, ":"%char :: text kv.2 ++ rest).
Proof.
  intros Hk. unfold member_text. rewrite !str_app, <- !app_assoc. cbn [str String.list_ascii_of_string app].
  by apply parse_quoted.
Qed.

Lemma reads_members x l acc fuel rest :
  Forall (λ kv, reads kv.2) (x :: l) → Forall (λ kv, valid_text kv.1 ∧ readable kv.2) (x :: l) →
  (2 * length (str (String.concat "," (map member_text (x :: l)))) < fuel)%nat →
  parse_members fuel (str (String.concat "," (map member_text (x :: l))) ++ "}"%char :: rest) acc
  = Some (JObj (reverse acc ++ x :: l), rest).
Proof.
  revert x acc fuel. induction l as [|y l IH]; intros x acc fuel [Hx Hl]%Forall_cons [[Hkx Hrx] Hrl]%Forall_cons Hf;
    (destruct fuel as [|fuel]; [lia|]); cbn [map] in Hf |- *.
  - cbn [String.concat] in *. destruct (member_text_str x ("}"%char :: rest) Hkx) as (t & Ht & Hp). rewrite Ht.
    cbn [parse_members skip_ws]. change (is_ws dquote) with false. change ((N_of_ascii dquote =? 34)%N) with true. cbv iota.
    cbn [negb]. rewrite Hp. cbn [skip_ws]. change (is_ws ":") with false. change ((N_of_ascii ":" =? 58)%N) with true. cbn [negb].
    unfold member_text in Hf. rewrite !str_app, !length_app in Hf. rewrite (Hx fuel) by (done || lia). simpl. by rewrite reverse_cons; destruct x.
  - rewrite str_concat_cons in Hf by done. rewrite str_concat_cons by done. rewrite !length_app in Hf. change (length (str ",")) with 1%nat in Hf. rewrite <- app_assoc.
    change (member_text y :: map member_text l) with (map member_text (y :: l)) in Hf |- *.
    set (tail := str (String.concat "," (map member_text (y :: l))) ++ "}"%char :: rest).
    rewrite <- app_assoc. fold tail. destruct (member_text_str x (str "," ++ tail) Hkx) as (t & Ht & Hp). rewrite Ht.
    cbn [parse_members skip_ws]. change (is_ws dquote) with false. change ((N_of_ascii dquote =? 34)%N) with true. cbv iota.
    cbn [negb]. rewrite Hp. cbn [skip_ws]. change (is_ws ":") with false. change ((N_of_ascii ":" =? 58)%N) with true. cbn [negb].
    unfold member_text at 1 in Hf. rewrite !str_app, !length_app in Hf.
    rewrite (Hx fuel) by (done || lia). cbn [str String.list_ascii_of_string app skip_ws].
    change (is_ws ",") with false. change ((N_of_ascii "," =? 44)%N) with true. cbv iota. unfold tail.
    rewrite IH by (done || lia). destruct x. by rewrite reverse_cons, <- app_assoc.
Qed.

Lemma foldr_Forall {A} (P : A → Prop) l : foldr (λ x Q, P x ∧ Q) True l → Forall P l.
Proof. induction l as [|x l IH]; simpl; [by constructor|]. intros [? ?]. by constructor; [|apply IH]. Qed.

Lemma Forall_mp {A} (P Q : A → Prop) l : Forall (λ x, P x → Q x) l → Forall P l → Forall Q l.
Proof. induction 1; intros H'; constructor; apply Forall_cons in H' as [? ?]; auto. Qed.

Lemma readable_reads j : readable j → reads j.
Proof.
  induction j as [j Hleaf|l IH|fs IH] using json_tree_ind; intros Hj; [by apply reads_leaf| |].
  - assert (Hl : Forall readable l) by (by apply foldr_Forall).
    assert (Hall : Forall reads l) by exact (Forall_mp _ _ _ IH Hl).
    intros fuel rest Hr. destruct l as [|x l].
    { intros Hf. destruct fuel as [|fuel]; [change (length (text (JArr []))) with 2%nat in Hf; lia|]. reflexivity. }
    change (text (JArr (x :: l))) with (str ("[" ++ String.concat "," (map json_text (x :: l)) ++ "]")).
    rewrite !str_app, !length_app. change (length (str "[")) with 1%nat. change (length (str "]")) with 1%nat. intros Hf.
    destruct fuel as [|fuel]; [lia|]. rewrite <- !app_assoc. cbn [str String.list_ascii_of_string app].
    cbn [parse_value skip_ws]. change (is_ws "[") with false. cbv iota zeta.
    apply Forall_cons in Hl as [Hx Hl']. destruct (json_text_starts x Hx) as (c & t & Ht & Hws & Hc).
    assert (Hhead : ∃ t', str (String.concat "," (map json_text (x :: l))) = c :: t').
    { destruct l as [|y l]; [by exists t|]. change (map json_text (x :: ?l)) with (json_text x :: map json_text l).
      rewrite str_concat_cons, Ht by done. by eexists. }
    destruct Hhead as (t' & Ht'). rewrite Ht'. cbn [app skip_ws]. rewrite Hws, Hc. change (c :: t' ++ ?r) with ((c :: t') ++ r).
    rewrite <- Ht'. apply (reads_elements x l []); [done|by constructor|lia].
  - assert (Hl : Forall (λ kv, valid_text kv.1 ∧ readable kv.2) fs).
    { clear IH. simpl in Hj. induction fs as [|x fs IH]; simpl in Hj; constructor; [tauto|apply IH; tauto]. }
    assert (Hall : Forall (λ kv, reads kv.2) fs)
      by (apply (Forall_mp (λ kv, readable kv.2) _ _ IH); by eapply Forall_impl; [exact Hl|intros ? [_ ?]]).
    intros fuel rest Hr. destruct fs as [|x fs].
    { intros Hf. destruct fuel as [|fuel]; [change (length (text (JObj []))) with 2%nat in Hf; lia|]. reflexivity. }
    change (text (JObj (x :: fs))) with (str ("{" ++ String.concat "," (map member_text (x :: fs)) ++ "}")).
    rewrite !str_app, !length_app. change (length (str "{")) with 1%nat. change (length (str "}")) with 1%nat. intros Hf.
    destruct fuel as [|fuel]; [lia|]. rewrite <- !app_assoc. cbn [str String.list_ascii_of_string app].
    cbn [parse_value skip_ws]. change (is_ws "{") with false. cbv iota zeta.
    assert (Hhead : ∃ t', str (String.concat "," (map member_text (x :: fs))) = dquote :: t').
    { destruct (member_text_str x [] (proj1 (proj1 (proj1 (Forall_cons _ _ _) Hl)))) as (t & Ht & _). rewrite app_nil_r in Ht.
      destruct fs as [|y fs]; [by eexists|].
      change (map member_text (x :: ?l)) with (member_text x :: map member_text l).
      rewrite str_concat_cons, Ht by done. by eexists. }
    destruct Hhead as (t' & Ht'). rewrite Ht'. cbn [app skip_ws]. change (is_ws dquote) with false.
    change ((N_of_ascii dquote =? 125)%N) with false. cbv iota. change (dquote :: t' ++ ?r) with ((dquote :: t') ++ r).
    rewrite <- Ht'. apply (reads_members x fs []); [done|done|lia].
Qed.

Theorem parse_json_text j : readable j → parse_json (json_text j) = Some j.
Proof.
  intros Hj. unfold parse_json. change (String.list_ascii_of_string (json_text j)) with (text j).
  pose proof (readable_reads j Hj (2 * length (text j) + 2)%nat [] I ltac:(lia)) as H. rewrite app_nil_r in H. by rewrite H.
Qed.

(** Printing is injective on readable trees. *)
Lemma json_text_inj j k : readable j → readable k → json_text j = json_text k → j = k.
Proof. intros Hj Hk H. apply parse_json_text in Hj, Hk. congruence. Qed.

(** Text of ASCII characters is valid. *)
Definition is_ascii (c : Ascii.ascii) : Prop := ascii_code c < 128.
Lemma ascii_text s : Forall is_ascii (str s) → valid_text s.
Proof.
  intros Hs. exists (map ascii_code (str s)). split.
  - apply Forall_map. eapply Forall_impl; [exact Hs|]. intros c Hc. unfold valid_rune, is_ascii in *.
    pose proof (ascii_code_byte c). unfold is_byte in *. lia.
  - rewrite <- (from_bytes_byte_values s) at 1. unfold string_of_runes, byte_values. f_equal.
    induction Hs as [|c l Hc _ IH]; [done|]. cbn [map concat]. unfold is_ascii in Hc. unfold encode_rune at 1.
    rewrite (proj2 (Z.ltb_lt _ _) Hc). cbn [app]. by f_equal.
Qed.
