(* ===== verification/TimeText.v ===== *)
(** * Reading RFC3339 times (time.Parse with the layout RFC3339, time.Time.UnmarshalJSON) *)
From S2P Require Import Prelude Utf8 Json.
From Stdlib Require Import Ascii.
#[local] Open Scope Z_scope.

(** Days since 0001-01-01 of a civil date. *)
Definition days_of_civil (year month day : Z) : Z :=
  let y := if month <=? 2 then year - 1 else year in
  let yoe := y mod 400 in
  let doy := (153 * (if 2 <? month then month - 3 else month + 9) + 2) / 5 + day - 1 in
  y / 400 * 146097 + yoe * 365 + yoe / 4 - yoe / 100 + doy - 306.
Definition leap (year : Z) : bool := (year mod 4 =? 0) && (negb (year mod 100 =? 0) || (year mod 400 =? 0)).
Definition days_in_month (year month : Z) : Z :=
  if month =? 2 then if leap year then 29 else 28
  else if (month =? 4) || (month =? 6) || (month =? 9) || (month =? 11) then 30 else 31.
(** Exactly [k] decimal digits. *)
Fixpoint take_digits (k : nat) (acc : Z) (l : list ascii) : option (Z * list ascii) :=
  match k, l with
  | O, _ => Some (acc, l)
  | S k, c :: l => if is_digit c then take_digits k (10 * acc + (ascii_code c - 48)) l else None
  | S _, [] => None
  end.
Definition take_char (c : ascii) (l : list ascii) : option (list ascii) :=
  match l with d :: l => if bool_decide (d = c) then Some l else None | [] => None end.
(** The fraction in nanoseconds; digits past the ninth are dropped. *)
Definition take_fraction (l : list ascii) : option (Z * list ascii) :=
  match l with
  | "."%char :: l' =>
      let (ds, rest) := span_digits l' in
      match ds with
      | [] => None
      | _ => Some (digits_value (take 9 (ds ++ replicate 9 "0"%char)), rest)
      end
  | _ => Some (0, l)
  end.
Definition take_zone (l : list ascii) : option Z :=
  match l with
  | ["Z"%char] => Some 0
  | sign :: l =>
      '(h, l) ← take_digits 2 0 l; l ← take_char ":" l; '(m, l) ← take_digits 2 0 l;
      let offset := (h * 60 + m) * 60 in
      if (h <? 24) && (m <? 60) && bool_decide (l = []) then
        if bool_decide (sign = "+"%char) then Some offset
        else if bool_decide (sign = "-"%char) then Some (- offset) else None
      else None
  | [] => None
  end.
Definition time_Parse (s : string) : option time :=
  '(year, l) ← take_digits 4 0 (str s); l ← take_char "-" l; '(month, l) ← take_digits 2 0 l; l ← take_char "-" l;
  '(day, l) ← take_digits 2 0 l; l ← take_char "T" l; '(hour, l) ← take_digits 2 0 l; l ← take_char ":" l;
  '(min, l) ← take_digits 2 0 l; l ← take_char ":" l; '(sec, l) ← take_digits 2 0 l;
  '(frac, l) ← take_fraction l; zone ← take_zone l;
  if (1 <=? month) && (month <=? 12) && (1 <=? day) && (day <=? days_in_month year month)
     && (hour <? 24) && (min <? 60) && (sec <? 60)
  then Some ((days_of_civil year month day * 86400 + hour * 3600 + min * 60 + sec - zone) * nsec + frac)
  else None.

Example time_Parse_print : 
  (λ t, time_Parse (rfc3339nano_text t)) <$> [63902345678901234567; 1709164800 * nsec; 123456789] =
  Some <$> [63902345678901234567; 1709164800 * nsec; 123456789].
Proof. vm_compute. reflexivity. Qed.
Example time_Parse_zone : time_Parse "2024-02-29T01:30:00+02:00" = time_Parse "2024-02-28T23:30:00Z".
Proof. vm_compute. reflexivity. Qed.
Example time_Parse_refuses : time_Parse <$> ["2023-02-29T00:00:00Z"; "2023-01-01T24:00:00Z"; "2023-01-01"; "2023-1-01T00:00:00Z"] = [None; None; None; None].
Proof. vm_compute. reflexivity. Qed.
