(* ===== verification/DurationText.v ===== *)
(** * Durations as text (time.ParseDuration, time.Duration.String)

    The fraction of a component goes through float64 in Go; [SpecFloat] is the
    executable IEEE arithmetic with the same rounding. *)
From S2P Require Import Prelude Utf8 Json.
From Stdlib Require Import Ascii SpecFloat.
#[local] Open Scope Z_scope.

Definition two63 : Z := 9223372036854775808.
(** ** Parsing *)
Fixpoint leadingInt (l : list ascii) (x : Z) : option (Z * list ascii) :=
  match l with
  | c :: l' =>
      if is_digit c then
        if two63 / 10 <? x then None
        else let y := x * 10 + (ascii_code c - 48) in if two63 <? y then None else leadingInt l' y
      else Some (x, l)
  | [] => Some (x, [])
  end.
(** The digits of a fraction and their number; digits past 2^63 are skipped. *)
Fixpoint leadingFraction (l : list ascii) (x : Z) (scale : Z) (overflow : bool) : Z * Z * list ascii :=
  match l with
  | c :: l' =>
      if is_digit c then
        let y := x * 10 + (ascii_code c - 48) in
        if overflow || ((two63 - 1) / 10 <? x) || (two63 <? y) then leadingFraction l' x scale true
        else leadingFraction l' y (scale * 10) false
      else (x, scale, l)
  | [] => (x, scale, [])
  end.
Definition float64 (z : Z) : spec_float := binary_normalize 53 1024 z 0 false.
Definition uint64_of_float (f : spec_float) : Z :=
  match f with
  | S754_finite false m e => if 0 <=? e then Z.pos m * 2 ^ e else Z.pos m / 2 ^ (- e)
  | _ => 0
  end.
Definition fraction_value (f scale unit : Z) : Z :=
  uint64_of_float (SFmul 53 1024 (float64 f) (SFdiv 53 1024 (float64 unit) (float64 scale))).
Fixpoint unit_span (l : list ascii) : list ascii * list ascii :=
  match l with
  | c :: l' => if is_digit c || bool_decide (c = "."%char) then ([], l) else let (u, rest) := unit_span l' in (c :: u, rest)
  | [] => ([], [])
  end.
Definition unit_value (u : string) : option Z :=
  if bool_decide (u = "ns") then Some 1
  else if bool_decide (u ∈ ["us"; code_text [194; 181; 115]; code_text [206; 188; 115]]) then Some 1000
  else if bool_decide (u = "ms") then Some 1000000
  else if bool_decide (u = "s") then Some nsec
  else if bool_decide (u = "m") then Some (60 * nsec)
  else if bool_decide (u = "h") then Some (3600 * nsec)
  else None.
(** One component: its value and what follows. *)
Definition component (l : list ascii) : option (Z * list ascii) :=
  '(v, l1) ← leadingInt l 0;
  let '(f, scale, l2) := match l1 with "."%char :: l' => leadingFraction l' 0 1 false | _ => (0, 1, l1) end in
  let digits_seen := (length l - length l1 + match l1 with "."%char :: l' => length l' - length l2 | _ => 0 end)%nat in
  if Nat.eqb digits_seen 0 then None
  else
    let (u, rest) := unit_span l2 in
    unit ← unit_value (String.string_of_list_ascii u);
    if two63 / unit <? v then None
    else
      let v := v * unit + (if 0 <? f then fraction_value f scale unit else 0) in
      if two63 <? v then None else Some (v, rest).
Fixpoint components (fuel : nat) (l : list ascii) (d : Z) : option Z :=
  match l, fuel with
  | [], _ => Some d
  | _, O => None
  | _, S fuel => '(v, rest) ← component l; if two63 <? d + v then None else components fuel rest (d + v)
  end.
Definition ParseDuration (s : string) : option Z :=
  let (neg, l) := match str s with
                  | "-"%char :: l => (true, l)
                  | "+"%char :: l => (false, l)
                  | l => (false, l)
                  end in
  match l with
  | [] => None
  | ["0"%char] => Some 0
  | _ => d ← components (length l) l 0;
         if neg then Some (- d) else if two63 - 1 <? d then None else Some d
  end.

(** ** Printing *)
(** The fraction [v mod 10^prec] without trailing zeros, and the rest. *)
Definition fraction_text (v : Z) (prec : nat) : list Z :=
  match trim_zeros (rev (digits prec v)) with [] => [] | ds => 46 :: rev ds end.
Fixpoint nat_text (fuel : nat) (n : Z) : list Z :=
  match fuel with
  | O => []
  | S fuel => if n <? 10 then [48 + n] else nat_text fuel (n / 10) ++ [48 + n mod 10]
  end.
Definition int_text (n : Z) : list Z := nat_text 20 n.
Definition Duration_String (d : Z) : string :=
  let u := Z.abs d in
  let body :=
    if u =? 0 then [48; 115]
    else if u <? 1000 then int_text u ++ [110; 115]
    else if u <? 1000000 then int_text (u / 1000) ++ fraction_text (u mod 1000) 3 ++ [194; 181; 115]
    else if u <? nsec then int_text (u / 1000000) ++ fraction_text (u mod 1000000) 6 ++ [109; 115]
    else
      let s := u / nsec in
      (if s <? 3600 then [] else int_text (s / 3600) ++ [104])
      ++ (if s <? 60 then [] else int_text (s / 60 mod 60) ++ [109])
      ++ int_text (s mod 60) ++ fraction_text (u mod nsec) 9 ++ [115] in
  code_text (if d <? 0 then 45 :: body else body).

Example ParseDuration_texts :
  ParseDuration <$> ["24h0m0s"; "30s"; "1.5h"; "-250ms"; "1m30.000000001s"; ".5s"; "1"; "s"; "1.s"; "0"; ""; "9223372036854775808ns"]
  = [Some (86400 * nsec); Some (30 * nsec); Some (5400 * nsec); Some (-250000000); Some (90 * nsec + 1); Some (nsec / 2); None; None;
     Some nsec; Some 0; None; None].
Proof. vm_compute. reflexivity. Qed.
Example Duration_texts :
  Duration_String <$> [86400 * nsec; 30 * nsec; 90 * nsec + 500000000; 1500; -250000000; 0; 7]
  = ["24h0m0s"; "30s"; "1m30.5s"; code_text [49; 46; 53; 194; 181; 115]; "-250ms"; "0s"; "7ns"].
Proof. vm_compute. reflexivity. Qed.
Example Duration_read_back :
  (λ d, ParseDuration (Duration_String d)) <$> [86400 * nsec; 1; 1500; 123456789; 3599999999999; two63 - 1; 1 - two63]
  = Some <$> [86400 * nsec; 1; 1500; 123456789; 3599999999999; two63 - 1; 1 - two63].
Proof. vm_compute. reflexivity. Qed.
