(* ===== verification/Hash.v ===== *)
(** * Digests and text encodings of Go's standard library

    crypto/sha256, crypto/hmac, encoding/hex and the unpadded URL alphabet of
    encoding/base64, as far as the source uses them: the digest of a canonical
    document, hashed audit texts, the hash of a locked-path set and the signed
    page cursors.  Bytes are integers below 256; 32-bit words are integers
    below 2^32 with the wrap-around of an addition written out. *)
From S2P Require Import Prelude Utf8 Json Redact.
From Stdlib Require Import Ascii.
#[local] Open Scope Z_scope.

(** ** SHA-256 *)
Module Sha256.
Definition wrap32 (x : Z) : Z := Z.land x 4294967295.
Definition rotr (n x : Z) : Z := Z.lor (Z.shiftr x n) (wrap32 (Z.shiftl x (32 - n))).
Definition ch (x y z : Z) : Z := Z.lxor (Z.land x y) (Z.land (Z.lxor x 4294967295) z).
Definition maj (x y z : Z) : Z := Z.lxor (Z.land x y) (Z.lxor (Z.land x z) (Z.land y z)).
Definition big0 (x : Z) : Z := Z.lxor (rotr 2 x) (Z.lxor (rotr 13 x) (rotr 22 x)).
Definition big1 (x : Z) : Z := Z.lxor (rotr 6 x) (Z.lxor (rotr 11 x) (rotr 25 x)).
Definition small0 (x : Z) : Z := Z.lxor (rotr 7 x) (Z.lxor (rotr 18 x) (Z.shiftr x 3)).
Definition small1 (x : Z) : Z := Z.lxor (rotr 17 x) (Z.lxor (rotr 19 x) (Z.shiftr x 10)).

Definition round_constants : list Z :=
  [1116352408; 1899447441; 3049323471; 3921009573; 961987163; 1508970993; 2453635748; 2870763221;
   3624381080; 310598401; 607225278; 1426881987; 1925078388; 2162078206; 2614888103; 3248222580;
   3835390401; 4022224774; 264347078; 604807628; 770255983; 1249150122; 1555081692; 1996064986;
   2554220882; 2821834349; 2952996808; 3210313671; 3336571891; 3584528711; 113926993; 338241895;
   666307205; 773529912; 1294757372; 1396182291; 1695183700; 1986661051; 2177026350; 2456956037;
   2730485921; 2820302411; 3259730800; 3345764771; 3516065817; 3600352804; 4094571909; 275423344;
   430227734; 506948616; 659060556; 883997877; 958139571; 1322822218; 1537002063; 1747873779;
   1955562222; 2024104815; 2227730452; 2361852424; 2428436474; 2756734187; 3204031479; 3329325298].
Definition initial_state : list Z :=
  [1779033703; 3144134277; 1013904242; 2773480762; 1359893119; 2600822924; 528734635; 1541459225].

(** The message schedule, newest word first. *)
Fixpoint schedule (n : nat) (w : list Z) : list Z :=
  match n with
  | O => w
  | S n =>
      let at_ i := nth i w 0 in
      schedule n (wrap32 (small1 (at_ 1%nat) + at_ 6%nat + small0 (at_ 14%nat) + at_ 15%nat) :: w)
  end.
Definition round (st : list Z) (kw : Z * Z) : list Z :=
  match st with
  | [a; b; c; d; e; f; g; h] =>
      let t1 := h + big1 e + ch e f g + kw.1 + kw.2 in
      let t2 := big0 a + maj a b c in
      [wrap32 (t1 + t2); a; b; c; wrap32 (d + t1); e; f; g]
  | _ => st
  end.
Definition compress (st block : list Z) : list Z :=
  let out := fold_left round (combine round_constants (rev (schedule 48 (rev block)))) st in
  zip_with (λ x y, wrap32 (x + y)) st out.

(** Big-endian bytes of a [8 * k]-bit integer. *)
Fixpoint be_bytes (k : nat) (x : Z) : list Z :=
  match k with O => [] | S k => be_bytes k (Z.shiftr x 8) ++ [Z.land x 255] end.
Fixpoint words (l : list Z) : list Z :=
  match l with
  | a :: b :: c :: d :: l => (a * 16777216 + b * 65536 + c * 256 + d) :: words l
  | _ => []
  end.
Definition padding (len : Z) : list Z :=
  128 :: replicate (Z.to_nat ((55 - len) mod 64)) 0 ++ be_bytes 8 (8 * len).
Fixpoint blocks (fuel : nat) (l : list Z) : list (list Z) :=
  match fuel, l with
  | O, _ | _, [] => []
  | S fuel, _ => words (take 64 l) :: blocks fuel (drop 64 l)
  end.
Definition Sum256 (data : list Z) : list Z :=
  let padded := data ++ padding (Z.of_nat (length data)) in
  concat (map (be_bytes 4) (fold_left compress (blocks (length padded) padded) initial_state)).
End Sha256.
Abbreviation Sum256 := Sha256.Sum256.

(** ** Hexadecimal, HMAC *)
Definition hex_EncodeToString (l : list Z) : string :=
  String.string_of_list_ascii
    (concat (map (λ b, [hex_digit (Z.to_N (b / 16)); hex_digit (Z.to_N (b mod 16))]) l)).
(** [hmac.New(sha256.New, key)] for a key of at most one block. *)
Definition hmac_sha256 (key message : list Z) : list Z :=
  let k := key ++ replicate (64 - length key) 0 in
  Sum256 (map (Z.lxor 92) k ++ Sum256 (map (Z.lxor 54) k ++ message)).
(** [hex.EncodeToString(sha256.Sum256([]byte(s)))] *)
Definition sha256_hex (s : string) : string := hex_EncodeToString (Sum256 (byte_values s)).

(** The digest of the empty string and of "abc", from the published test vectors. *)
Example sha256_empty : sha256_hex "" = "e3b0c44298fc1c149afbf4c8996fb92427ae41e4649b934ca495991b7852b855".
Proof. vm_compute. reflexivity. Qed.
Example sha256_abc : sha256_hex "abc" = "ba7816bf8f01cfea414140de5dae2223b00361a396177a9cb410ff61f20015ad".
Proof. vm_compute. reflexivity. Qed.
Example sha256_two_blocks :
  sha256_hex "abcdbcdecdefdefgefghfghighijhijkijkljklmklmnlmnomnopnopq"
  = "248d6a61d20638b8e5c026930c3e6039a33ce45964ff2167f6ecedd419db06c1".
Proof. vm_compute. reflexivity. Qed.
Example hmac_jefe :
  hex_EncodeToString (hmac_sha256 (byte_values "Jefe") (byte_values "what do ya want for nothing?"))
  = "5bdcc146bf60754e6a042426089575c75a003f089d2739839dec58b964ec3843".
Proof. vm_compute. reflexivity. Qed.

(** ** [base64.RawURLEncoding] *)
Definition url_alphabet : list ascii := str "ABCDEFGHIJKLMNOPQRSTUVWXYZabcdefghijklmnopqrstuvwxyz0123456789-_".
Definition b64_char (n : Z) : ascii := nth (Z.to_nat n) url_alphabet "A"%char.
Fixpoint index_of (c : ascii) (l : list ascii) : option Z :=
  match l with
  | [] => None
  | d :: l => if Ascii.eqb c d then Some 0 else (λ n, n + 1) <$> index_of c l
  end.
Definition b64_value (c : ascii) : option Z := index_of c url_alphabet.

Fixpoint b64_chars (l : list Z) : list ascii :=
  match l with
  | a :: b :: c :: l =>
      b64_char (a / 4) :: b64_char (a mod 4 * 16 + b / 16) :: b64_char (b mod 16 * 4 + c / 64)
        :: b64_char (c mod 64) :: b64_chars l
  | [a; b] => [b64_char (a / 4); b64_char (a mod 4 * 16 + b / 16); b64_char (b mod 16 * 4)]
  | [a] => [b64_char (a / 4); b64_char (a mod 4 * 16)]
  | [] => []
  end.
(** Groups of four characters; the last group may have two or three.  The
    decoder is not strict: it ignores the unused low bits. *)
Fixpoint b64_bytes (l : list ascii) : option (list Z) :=
  match l with
  | p :: q :: r :: s :: l =>
      match b64_value p, b64_value q, b64_value r, b64_value s, b64_bytes l with
      | Some p, Some q, Some r, Some s, Some l =>
          Some (p * 4 + q / 16 :: q mod 16 * 16 + r / 4 :: r mod 4 * 64 + s :: l)
      | _, _, _, _, _ => None
      end
  | [p; q; r] =>
      match b64_value p, b64_value q, b64_value r with
      | Some p, Some q, Some r => Some [p * 4 + q / 16; q mod 16 * 16 + r / 4]
      | _, _, _ => None
      end
  | [p; q] =>
      match b64_value p, b64_value q with Some p, Some q => Some [p * 4 + q / 16] | _, _ => None end
  | [_] => None
  | [] => Some []
  end.
Definition is_newline (c : ascii) : bool := (ascii_code c =? 10) || (ascii_code c =? 13).
Definition base64_EncodeToString (l : list Z) : string := String.string_of_list_ascii (b64_chars l).
(** Carriage returns and line feeds are skipped. *)
Definition base64_DecodeString (s : string) : option (list Z) :=
  b64_bytes (filter (λ c, is_newline c = false) (str s)).

Example base64_text : base64_EncodeToString (byte_values "sure.") = "c3VyZS4".
Proof. vm_compute. reflexivity. Qed.

(** ** Lemmas *)
Lemma b64_value_char n : 0 ≤ n < 64 → b64_value (b64_char n) = Some n ∧ is_newline (b64_char n) = false.
Proof.
  intros Hn. rewrite <- (Z2Nat.id n) by lia.
  assert (Hlt : (Z.to_nat n < 64)%nat) by lia. revert Hlt. generalize (Z.to_nat n). clear. intros k Hk.
  do 64 (destruct k as [|k]; [by vm_compute|]). lia.
Qed.

Ltac b64_digits :=
  repeat match goal with
  | |- context [b64_value (b64_char ?x)] => rewrite (proj1 (b64_value_char x ltac:(Z.to_euclidean_division_equations; lia)))
  end.

(** Induction in steps of three, as the encoder consumes its input. *)
Lemma list_ind3 {A} (P : list A → Prop) :
  P [] → (∀ a, P [a]) → (∀ a b, P [a; b]) → (∀ a b c l, P l → P (a :: b :: c :: l)) → ∀ l, P l.
Proof.
  intros H0 H1 H2 H3. fix IH 1. intros [|a [|b [|c l]]]; [exact H0|apply H1|apply H2|apply H3, IH].
Qed.

Lemma b64_roundtrip l : Forall is_byte l → b64_bytes (b64_chars l) = Some l.
Proof.
  unfold is_byte. induction l as [|a|a b|a b c l IH] using list_ind3; intros Hl;
    repeat match goal with H : Forall _ (_ :: _) |- _ => apply Forall_cons in H as [? H] end;
    simpl; [done|b64_digits..].
  - do 2 f_equal. Z.to_euclidean_division_equations; lia.
  - f_equal. f_equal; [|f_equal]; Z.to_euclidean_division_equations; lia.
  - rewrite IH by done. f_equal. f_equal; [|f_equal; [|f_equal]]; Z.to_euclidean_division_equations; lia.
Qed.

Lemma b64_chars_clean l : Forall is_byte l → Forall (λ c, is_newline c = false) (b64_chars l).
Proof.
  unfold is_byte. induction l as [|a|a b|a b c l IH] using list_ind3; intros Hl;
    repeat match goal with H : Forall _ (_ :: _) |- _ => apply Forall_cons in H as [? H] end;
    simpl; repeat constructor; [apply b64_value_char; Z.to_euclidean_division_equations; lia..|by apply IH].
Qed.

Lemma list_filter_all {A} (P : A → Prop) `{∀ x, Decision (P x)} l : Forall P l → filter P l = l.
Proof. induction 1 as [|x l Hx _ IH]; [done|]. by rewrite filter_cons_True, IH. Qed.

Lemma base64_roundtrip l : Forall is_byte l → base64_DecodeString (base64_EncodeToString l) = Some l.
Proof.
  intros Hl. unfold base64_DecodeString, base64_EncodeToString, str.
  rewrite String.list_ascii_of_string_of_list_ascii, list_filter_all by (by apply b64_chars_clean).
  by apply b64_roundtrip.
Qed.

Lemma be_bytes_bytes k x : Forall is_byte (Sha256.be_bytes k x).
Proof.
  revert x. induction k as [|k IH]; intros x; simpl; [constructor|]. apply Forall_app. split; [done|].
  constructor; [|done]. unfold is_byte. change 255 with (Z.ones 8). rewrite Z.land_ones by lia. apply Z.mod_pos_bound. lia.
Qed.
Lemma Sum256_bytes data : Forall is_byte (Sum256 data).
Proof.
  unfold Sha256.Sum256. induction (fold_left _ _ _) as [|x l IH]; [constructor|]. cbn [map concat]. apply Forall_app. split; [apply be_bytes_bytes|done].
Qed.
