(* ===== verification/Program.v ===== *)
(** * Services as programs of store calls

    An RPC handler makes several store calls; each is atomic, and calls of other
    requests and of other processes run in between.  [svc] is the tree of the
    calls a handler makes, [runs rely] its executions when the rest of the system
    moves by [rely] between them, and a call may also fail on its own (lost
    connection, cancelled context) without effect.  [exec_svc] is the execution
    without interference. *)
From S2P Require Import Prelude.

Inductive svc (S E A : Type) : Type :=
| Done (a : A)
| Call {B : Type} (m : M S E B) (k : res E B → svc S E A).
Arguments Done {S E A} a.
Arguments Call {S E A B} m k.

(** [x, err := m; if err != nil { f err }; k] *)
Notation "'let*' x := m 'fails' f 'in' k" :=
  (Call m (λ r, match r with Ok x => k | Err e => f e end))
  (at level 10, x name, m at level 100, f at level 100, k at level 200, only parsing) : rm_scope.

Section svc.
Context {S E : Type}.

Fixpoint svc_bind {A B} (p : svc S E A) (f : A → svc S E B) : svc S E B :=
  match p with
  | Done a => f a
  | Call m k => Call m (λ r, svc_bind (k r) f)
  end.
Fixpoint exec_svc {A} (p : svc S E A) (s : S) : A * S :=
  match p with
  | Done a => (a, s)
  | Call m k => exec_svc (k (m s).1) (m s).2
  end.

Section runs.
Context (rely : relation S) (fault : E → Prop).

Inductive runs {A} : svc S E A → S → A → S → Prop :=
| runs_done a s : runs (Done a) s a s
| runs_env p s s1 a s' : rely s s1 → runs p s1 a s' → runs p s a s'
| runs_call B (m : M S E B) k s a s' : runs (k (m s).1) (m s).2 a s' → runs (Call m k) s a s'
| runs_fault B (m : M S E B) k e s a s' : fault e → runs (k (Err e)) s a s' → runs (Call m k) s a s'.

(** What an execution of [p] from [s] is, by the shape of [p]. *)
Definition runs_from {A} (p : svc S E A) (s : S) (a : A) (s' : S) : Prop :=
  match p with
  | Done b => b = a ∧ rtc rely s s'
  | Call m k => ∃ s1, rtc rely s s1 ∧ (runs (k (m s1).1) (m s1).2 a s' ∨ ∃ e, fault e ∧ runs (k (Err e)) s1 a s')
  end.
Lemma runs_inv {A} (p : svc S E A) s a s' : runs p s a s' → runs_from p s a s'.
Proof.
  induction 1 as [a s|p s s1 a s' Hr _ IH|B m k s a s' H _|B m k e s a s' He H _]; simpl; [split; [done|apply rtc_refl]| |exists s; split; [apply rtc_refl|by left]|].
  - destruct p as [b|B m k]; simpl in *.
    + destruct IH as [-> IH]. split; [done|by eapply rtc_l].
    + destruct IH as (s2 & Hs2 & H2). exists s2. split; [by eapply rtc_l|done].
  - exists s. split; [apply rtc_refl|]. right. by exists e.
Qed.
Lemma runs_Done {A} (a b : A) s s' : runs (Done a) s b s' → a = b ∧ rtc rely s s'.
Proof. intros H. exact (runs_inv _ _ _ _ H). Qed.
(** A call runs in some state the environment has reached. *)
Lemma runs_Call {A B} (m : M S E B) k s (a : A) s' :
  runs (Call m k) s a s' →
  ∃ s1, rtc rely s s1 ∧ (runs (k (m s1).1) (m s1).2 a s' ∨ ∃ e, fault e ∧ runs (k (Err e)) s1 a s').
Proof. intros H. exact (runs_inv _ _ _ _ H). Qed.
Lemma runs_rtc {A} (p : svc S E A) s s1 a s' : rtc rely s s1 → runs p s1 a s' → runs p s a s'.
Proof. induction 1; eauto using runs_env. Qed.
Lemma runs_bind {A B} (p : svc S E A) (f : A → svc S E B) s b s' :
  runs (svc_bind p f) s b s' → ∃ a s1, runs p s a s1 ∧ runs (f a) s1 b s'.
Proof.
  revert s. induction p as [a|C m k IH]; intros s H; [by eauto using runs_done|].
  apply runs_Call in H as (s1 & Hs & [H|(e & He & H)]); apply IH in H as (a & s2 & H1 & H2);
    exists a, s2; (split; [|done]); (eapply runs_rtc; [exact Hs|]); [by apply runs_call|by eapply runs_fault].
Qed.
End runs.

(** Every call of a program satisfies [P]. *)
Fixpoint calls {A} (P : ∀ B, M S E B → Prop) (p : svc S E A) : Prop :=
  match p with
  | Done _ => True
  | Call m k => P _ m ∧ ∀ r, calls P (k r)
  end.

(** A relation kept by every call and by the environment is kept by the run. *)
Lemma runs_preserves {A} rely fault (R : relation S) `{!PreOrder R} (p : svc S E A) s a s' :
  (∀ x y, rely x y → R x y) → calls (λ _, preserves R) p → runs rely fault p s a s' → R s s'.
Proof.
  intros Hrely Hp H. induction H as [|p s s1 b s' Hr _ IH|B m k s b s' _ IH|B m k e s b s' _ _ IH].
  - reflexivity.
  - transitivity s1; [by apply Hrely|by apply IH].
  - destruct Hp as [Hm Hk]. transitivity (m s).2; [|by apply IH].
    apply (Hm s (m s).1). by destruct (m s).
  - destruct Hp as [_ Hk]. by apply IH.
Qed.
Lemma calls_bind {A B} (P : ∀ C, M S E C → Prop) (p : svc S E A) (f : A → svc S E B) :
  calls P p → (∀ a, calls P (f a)) → calls P (svc_bind p f).
Proof. induction p as [a|C m k IH]; simpl; [by auto|]. intros [Hm Hk] Hf. split; [done|]. intros r. by apply IH. Qed.

Lemma exec_bind {A B} (p : svc S E A) (f : A → svc S E B) s :
  exec_svc (svc_bind p f) s = exec_svc (f (exec_svc p s).1) (exec_svc p s).2.
Proof. revert s. induction p as [a|C m k IH]; intros s; simpl; [done|apply IH]. Qed.
(** Without interference and faults a run is the execution. *)
Lemma runs_exec {A} (p : svc S E A) s : ∀ rely fault, runs rely fault p s (exec_svc p s).1 (exec_svc p s).2.
Proof. revert s. induction p as [a|C m k IH]; intros s rely fault; simpl; [by apply runs_done|]. by apply runs_call, IH. Qed.
Lemma exec_runs {A} rely fault (p : svc S E A) s a s' : exec_svc p s = (a, s') → runs rely fault p s a s'.
Proof. intros H. assert (Hr := runs_exec p s rely fault). by rewrite H in Hr. Qed.
Lemma runs_alone {A} (p : svc S E A) s a s' : runs eq (λ _, False) p s a s' → exec_svc p s = (a, s').
Proof.
  induction 1 as [|p s s1 b s' -> _ IH|B m k s b s' _ IH|B m k e s b s' Hf]; [done|done|by simpl|done].
Qed.
End svc.

(** ** Concurrent requests

    Every request is a thread; a step of the pool runs one call of one thread, lets
    that call fail, or starts a thread.  [wp p Q s] is the rely-guarantee
    precondition of a thread in state [s]: the other threads keep [Inv] and move
    the state by [R], every call of [p] does the same, and [p] ends with [Q]. *)
Section concurrent.
Context {S E : Type} (Inv : S → Prop) (R : relation S) `{!PreOrder R} (fault : E → Prop).

Fixpoint wp {A} (p : svc S E A) (Q : A → S → Prop) (s : S) : Prop :=
  match p with
  | Done a => ∀ s1, Inv s1 → R s s1 → Q a s1
  | Call m k => ∀ s1, Inv s1 → R s s1 →
      Inv (m s1).2 ∧ R s1 (m s1).2 ∧ wp (k (m s1).1) Q (m s1).2 ∧ ∀ e, fault e → wp (k (Err e)) Q s1
  end.
Definition guarantees {A} (m : M S E A) : Prop := ∀ s, Inv s → Inv (m s).2 ∧ R s (m s).2.

Lemma wp_env {A} (p : svc S E A) Q s s' : R s s' → wp p Q s → wp p Q s'.
Proof. intros Hs. destruct p as [a|B m k]; simpl; intros H s1 Hi Hr; apply H; [done|by etransitivity|done|by etransitivity]. Qed.
Lemma wp_later {A} (p : svc S E A) Q s : (∀ s1, Inv s1 → R s s1 → wp p Q s1) → wp p Q s.
Proof. destruct p as [a|B m k]; simpl; intros H s1 Hi Hr; by apply (H s1 Hi Hr). Qed.
Lemma wp_mono {A} (p : svc S E A) (Q Q' : A → S → Prop) s :
  (∀ a s', Inv s' → R s s' → Q a s' → Q' a s') → wp p Q s → wp p Q' s.
Proof.
  revert s. induction p as [a|B m k IH]; simpl; intros s HQ H s1 Hi Hr; [by apply HQ, H|].
  destruct (H s1 Hi Hr) as (Hi' & Hr' & Hk & He). split_and!; [done|done| |].
  - apply IH; [|done]. intros a s2 Hi2 Hr2. apply HQ; [done|]. by do 2 (etransitivity; [eassumption|]).
  - intros e Hf. apply IH; [|by apply He]. intros a s2 Hi2 Hr2. apply HQ; [done|]. by etransitivity.
Qed.
Lemma wp_bind {A B} (p : svc S E A) (f : A → svc S E B) Q s : wp p (λ a, wp (f a) Q) s → wp (svc_bind p f) Q s.
Proof.
  revert s. induction p as [a|C m k IH]; simpl; intros s H; [by apply wp_later|]. intros s1 Hi Hr.
  destruct (H s1 Hi Hr) as (Hi' & Hr' & Hk & He). split_and!; [done|done|by apply IH|]. intros e Hf. by apply IH, He.
Qed.
Lemma wp_call {A B} (m : M S E B) (k : res E B → svc S E A) Q s :
  guarantees m → (∀ s1, Inv s1 → R s s1 → wp (k (m s1).1) Q (m s1).2 ∧ ∀ e, fault e → wp (k (Err e)) Q s1) → wp (Call m k) Q s.
Proof. intros Hm H s1 Hi Hr. destruct (Hm s1 Hi), (H s1 Hi Hr). by split_and!. Qed.
(** A call that only reads. *)
Lemma wp_read {A B} (m : M S E B) (k : res E B → svc S E A) Q s :
  (∀ s1, (m s1).2 = s1) → (∀ s1, Inv s1 → R s s1 → wp (k (m s1).1) Q s1 ∧ ∀ e, fault e → wp (k (Err e)) Q s1) → wp (Call m k) Q s.
Proof.
  intros Hm H s1 Hi Hr. rewrite Hm. destruct (H s1 Hi Hr) as [Hk He]. split_and!; [done|reflexivity|done|done].
Qed.
Lemma wp_Done {A} (a : A) (Q : A → S → Prop) s : (∀ s1, Inv s1 → R s s1 → Q a s1) → wp (Done a) Q s.
Proof. done. Qed.
Lemma wp_calls {A} (p : svc S E A) (Q : A → S → Prop) s :
  (∀ a s1, Inv s1 → R s s1 → Q a s1) → calls (λ _, guarantees) p → wp p Q s.
Proof.
  revert s. induction p as [a|B m k IH]; simpl; intros s HQ H; [by apply HQ|]. destruct H as [Hm Hk]. intros s1 Hi Hr.
  destruct (Hm s1 Hi) as [Hi' Hr']. split_and!; [done|done| |].
  - apply IH; [|done]. intros a s2 Hi2 Hr2. apply HQ; [done|]. by do 2 (etransitivity; [eassumption|]).
  - intros e _. apply IH; [|done]. intros a s2 Hi2 Hr2. apply HQ; [done|]. by etransitivity.
Qed.
(** Against an environment that keeps [Inv] and [R]. *)
Lemma wp_runs {A} (p : svc S E A) Q s a s' :
  runs (λ x y, Inv y ∧ R x y) fault p s a s' → Inv s → wp p Q s → Inv s' ∧ R s s' ∧ Q a s'.
Proof.
  induction 1 as [a s|p s s1 a s' [Hi Hr] _ IH|B m k s a s' _ IH|B m k e s a s' He _ IH]; intros Hs Hw.
  - split_and!; [done|reflexivity|]. apply Hw; [done|reflexivity].
  - destruct IH as (? & ? & ?); [done|by eapply wp_env|]. split_and!; [done|by etransitivity|done].
  - destruct (Hw s) as (Hi & Hr & Hk & _); [done|reflexivity|]. destruct IH as (? & ? & ?); [done|done|].
    split_and!; [done|by etransitivity|done].
  - destruct (Hw s) as (_ & _ & _ & Hf); [done|reflexivity|]. apply IH; [done|by apply Hf].
Qed.

Section pool.
Context {A : Type} (start : svc S E A → Prop).
Inductive pool_step : S * list (svc S E A) → S * list (svc S E A) → Prop :=
| pool_call s l r B (m : M S E B) k : pool_step (s, l ++ Call m k :: r) ((m s).2, l ++ k (m s).1 :: r)
| pool_fault s l r B (m : M S E B) k e : fault e → pool_step (s, l ++ Call m k :: r) (s, l ++ k (Err e) :: r)
| pool_start s l p : start p → pool_step (s, l) (s, l ++ [p]).
(** A schedule, given by the threads that take the steps, is a run of the pool. *)
Fixpoint run_schedule (threads : list nat) (c : S * list (svc S E A)) : S * list (svc S E A) :=
  match threads with
  | [] => c
  | i :: threads =>
      run_schedule threads (match c.2 !! i with Some (Call m k) => ((m c.1).2, <[i := k (m c.1).1]> c.2) | _ => c end)
  end.
Lemma schedule_reachable threads c : rtc pool_step c (run_schedule threads c).
Proof.
  revert c. induction threads as [|i threads IH]; intros [s l]; simpl; [apply rtc_refl|].
  destruct (l !! i) as [[a|B m k]|] eqn:El; [apply IH| |apply IH]. eapply rtc_l; [|apply IH].
  assert (Hi : (i < length l)%nat) by (apply lookup_lt_is_Some; by eexists).
  rewrite insert_take_drop by done. rewrite <- (take_drop_middle l i _ El) at 1. constructor.
Qed.
Context (Q : A → S → Prop) (start_ok : ∀ p s, start p → Inv s → wp p Q s).

Lemma pool_step_ok c c' :
  pool_step c c' → Inv c.1 → Forall (λ p, wp p Q c.1) c.2 → Inv c'.1 ∧ R c.1 c'.1 ∧ Forall (λ p, wp p Q c'.1) c'.2.
Proof.
  intros H Hi Hall. destruct H as [s l r B m k|s l r B m k e He|s l p Hp]; simpl in *.
  - apply Forall_app in Hall as [Hl Hr]. apply Forall_cons in Hr as [Hp Hr].
    destruct (Hp s) as (Hi' & HR & Hk & _); [done|reflexivity|]. split_and!; [done|done|].
    assert (Henv : ∀ q, wp q Q s → wp q Q (m s).2) by (intros q; by apply wp_env).
    apply Forall_app; split; [by eapply Forall_impl|]. apply Forall_cons; split; [done|by eapply Forall_impl].
  - apply Forall_app in Hall as [Hl Hr]. apply Forall_cons in Hr as [Hp Hr].
    destruct (Hp s) as (_ & _ & _ & Hf); [done|reflexivity|]. split_and!; [done|reflexivity|].
    apply Forall_app; split; [done|]. apply Forall_cons; split; [by apply Hf|done].
  - split_and!; [done|reflexivity|]. apply Forall_app; split; [done|]. apply Forall_cons; split; [by apply start_ok|by apply Forall_nil].
Qed.
Lemma pool_ok c c' :
  rtc pool_step c c' → Inv c.1 → Forall (λ p, wp p Q c.1) c.2 → Inv c'.1 ∧ R c.1 c'.1 ∧ Forall (λ p, wp p Q c'.1) c'.2.
Proof.
  induction 1 as [c|c c1 c2 H _ IH]; intros Hi Hall; [by split_and!|].
  destruct (pool_step_ok _ _ H Hi Hall) as (Hi1 & HR1 & H1). destruct (IH Hi1 H1) as (Hi2 & HR2 & H2).
  split_and!; [done|by etransitivity|done].
Qed.
(** What a finished thread promised holds, now and as long as the system runs. *)
Lemma pool_done s c' a : rtc pool_step (s, []) c' → Inv s → Done a ∈ c'.2 → Inv c'.1 ∧ R s c'.1 ∧ Q a c'.1.
Proof.
  intros H Hi Ha. apply pool_ok in H as (Hi' & HR & Hall); [|done|by apply Forall_nil]. rewrite Forall_forall in Hall.
  split_and!; [done|done|]. apply (Hall _ Ha); [done|reflexivity].
Qed.
End pool.
End concurrent.

(** A rely-guarantee proof holds against a better-behaved system. *)
Lemma wp_stronger {S E A} (Inv Inv' : S → Prop) (R R' : relation S) fault (p : svc S E A) Q s :
  (∀ x, Inv' x → Inv x) → (∀ x y, R' x y → R x y) → calls (λ B m, guarantees Inv' R' m) p →
  wp Inv R fault p Q s → wp Inv' R' fault p Q s.
Proof.
  intros Hi Hr. revert s. induction p as [a|B m k IH]; intros s Hc H; simpl; intros s1 Hs1 Hrs; [apply H; auto|].
  destruct Hc as [Hm Hk], (H s1) as (_ & _ & Ha & He); [by apply Hi|by apply Hr|]. destruct (Hm s1 Hs1). split_and!; [done|done|by apply IH|].
  intros e Hf. by apply IH, He.
Qed.

Lemma wp_and {S E A} (Inv : S → Prop) (R : relation S) fault (p : svc S E A) (Q Q' : A → S → Prop) s :
  wp Inv R fault p Q s → wp Inv R fault p Q' s → wp Inv R fault p (λ a s', Q a s' ∧ Q' a s') s.
Proof.
  revert s. induction p as [a|B m k IH]; intros s H H' s1 Hi Hr; [split; [by apply H|by apply H']|].
  destruct (H s1 Hi Hr) as (? & ? & Hk & He), (H' s1 Hi Hr) as (_ & _ & Hk' & He').
  split_and!; [done|done|by apply IH|]. intros e Hf. apply IH; [by apply He|by apply He'].
Qed.

(** A program over a part [get] of a larger state. *)
Section lift.
Context {S T E : Type} (get : T → S) (put : S → T → T).
Definition lift {A} (m : M S E A) : M T E A := λ t, let (r, s) := m (get t) in (r, put s t).
Fixpoint svc_lift {A} (p : svc S E A) : svc T E A :=
  match p with
  | Done a => Done a
  | Call m k => Call (lift m) (λ r, svc_lift (k r))
  end.
Lemma lift_eq {A} (m : M S E A) t : lift m t = ((m (get t)).1, put (m (get t)).2 t).
Proof. unfold lift. by destruct (m (get t)). Qed.
Lemma preserves_lift {A} (R : relation S) (m : M S E A) :
  (∀ s t, get (put s t) = s) → preserves R m → preserves (λ t t', R (get t) (get t')) (lift m).
Proof.
  intros Hg Hm t r t'. rewrite lift_eq. intros [= _ <-]. rewrite Hg. apply (Hm (get t) (m (get t)).1). by destruct (m (get t)).
Qed.
Lemma calls_svc_lift {A} (P : ∀ B, M S E B → Prop) (Q : ∀ B, M T E B → Prop) (p : svc S E A) :
  (∀ B (m : M S E B), P B m → Q B (lift m)) → calls P p → calls Q (svc_lift p).
Proof. intros H. induction p as [a|B m k IH]; simpl; [done|]. intros [Hm Hk]. split; [by apply H|]. intros r. by apply IH. Qed.
(** A lifted program, given what its part promises under its own rely. *)
Lemma wp_lift (Inv : T → Prop) (R : relation T) `{!PreOrder R} (R0 : relation S) fault {A} (p : svc S E A) (Q : A → S → Prop) t :
  (∀ s t, get (put s t) = s) → (∀ t t', R t t' → R0 (get t) (get t')) →
  (∀ t s', Inv t → R0 (get t) s' → Inv (put s' t) ∧ R t (put s' t)) →
  wp (λ _, True) R0 fault p Q (get t) → wp Inv R fault (svc_lift p) (λ a t', Q a (get t')) t.
Proof.
  intros Hg Hr Hp. revert t. induction p as [a|B m k IH]; intros t H; simpl; intros t1 Hi HR.
  - apply H; [done|by apply Hr].
  - destruct (H (get t1) I) as (_ & HR0 & Hk & He); [by apply Hr|]. rewrite lift_eq. simpl.
    destruct (Hp t1 (m (get t1)).2 Hi HR0) as [Hi' HR']. split_and!; [done|done| |].
    + apply IH. by rewrite Hg.
    + intros e Hf. by apply IH, He.
Qed.
Lemma exec_lift {A} (p : svc S E A) t :
  (∀ s t, get (put s t) = s) → (∀ s s' t, put s (put s' t) = put s t) → (∀ t, put (get t) t = t) →
  exec_svc (svc_lift p) t = ((exec_svc p (get t)).1, put (exec_svc p (get t)).2 t).
Proof.
  intros H1 H2 H3. revert t. induction p as [a|B m k IH]; intros t; simpl; [by rewrite H3|].
  rewrite lift_eq. simpl. by rewrite IH, H1, H2.
Qed.
End lift.

(** ** RPC errors

    A Connect error is its code, its message and its metadata. *)
Inductive code : Type :=
| CodeInvalidArgument | CodeUnauthenticated | CodePermissionDenied | CodeNotFound | CodeAlreadyExists | CodeAborted
| CodeFailedPrecondition | CodeResourceExhausted | CodeDeadlineExceeded | CodeUnavailable | CodeInternal.
#[export] Instance code_eq_dec : EqDecision code.
Proof. solve_decision. Defined.
Record connect_error := { ce_code : code; ce_message : string; ce_meta : list (string * string) }.
Definition newError (c : code) (message : string) : connect_error := {| ce_code := c; ce_message := message; ce_meta := [] |}.
Definition refuse {S E A} (c : code) (message : string) : svc S E (res connect_error A) := Done (Err (newError c message)).
