(* ===== verification/RateLimit.v ===== *)
(** * The sliding-window rate limiter (internal/auth/ratelimit.go)

    A limiter keeps, per key, the times of the attempts it let through.  Whatever
    keys are tried in whatever order, with clean-ups in between, a window of the
    configured length never holds more than [rl_max] admitted attempts of one key. *)
From S2P Require Import Prelude.

Record RateLimiter := { rl_attempts : gmap string (list time); rl_max : nat; rl_window : Z }.
Definition NewRateLimiter (maxAttempts : nat) (window : Z) : RateLimiter :=
  {| rl_attempts := ∅; rl_max := maxAttempts; rl_window := window |}.
Definition with_attempts (m : gmap string (list time)) (r : RateLimiter) : RateLimiter :=
  {| rl_attempts := m; rl_max := rl_max r; rl_window := rl_window r |}.
(** The entries that are still inside the window ([t.After(cutoff)]). *)
Definition recent (cutoff : time) (entries : list time) : list time := filter (λ t, cutoff < t) entries.
Definition entries_of (key : string) (r : RateLimiter) : list time := default [] (rl_attempts r !! key).
Definition Allow (key : string) (now : time) (r : RateLimiter) : bool * RateLimiter :=
  let valid := recent (now - rl_window r) (entries_of key r) in
  if (rl_max r <=? length valid)%nat then (false, with_attempts (<[key := valid]> (rl_attempts r)) r)
  else (true, with_attempts (<[key := valid ++ [now]]> (rl_attempts r)) r).
Definition Cleanup (now : time) (r : RateLimiter) : RateLimiter :=
  with_attempts (omap (λ entries, match recent (now - rl_window r) entries with [] => None | valid => Some valid end)
                      (rl_attempts r)) r.

(** ** What is let through *)
Inductive limiter_event : Type := Attempt (key : string) (at_ : time) | Clean (at_ : time).
Definition event_time (e : limiter_event) : time := match e with Attempt _ t | Clean t => t end.
(** The state after an event, and the attempt it admitted. *)
Definition limiter_step (r : RateLimiter) (e : limiter_event) : RateLimiter * list (string * time) :=
  match e with
  | Attempt key t => let (ok, r') := Allow key t r in (r', if ok then [(key, t)] else [])
  | Clean t => (Cleanup t r, [])
  end.
Fixpoint limiter_run (r : RateLimiter) (es : list limiter_event) : RateLimiter * list (string * time) :=
  match es with
  | [] => (r, [])
  | e :: es => let (r1, a) := limiter_step r e in let (r2, b) := limiter_run r1 es in (r2, a ++ b)
  end.
Definition admitted_of (key : string) (a : list (string * time)) : list time := (filter (λ x, x.1 = key) a).*2.
(** The clock of the process does not go back. *)
Fixpoint clocked (from : time) (es : list limiter_event) : Prop :=
  match es with [] => True | e :: es => from ≤ event_time e ∧ clocked (event_time e) es end.

Lemma recent_recent c c' l : c ≤ c' → recent c' (recent c l) = recent c' l.
Proof.
  intros H. unfold recent. rewrite list_filter_filter. apply list_filter_iff. intros t. lia.
Qed.
Lemma recent_app c l k : recent c (l ++ k) = recent c l ++ recent c k.
Proof. apply filter_app. Qed.
Lemma recent_shrinks c c' l : c ≤ c' → (length (recent c' l) ≤ length (recent c l))%nat.
Proof. intros H. rewrite <- (recent_recent c c') by done. apply length_filter. Qed.
Lemma entries_insert key k l r :
  entries_of k (with_attempts (<[key := l]> (rl_attempts r)) r) = if decide (key = k) then l else entries_of k r.
Proof.
  unfold entries_of. simpl. destruct (decide (key = k)) as [->|Hne]; by rewrite ?lookup_insert_eq, ?lookup_insert_ne.
Qed.
Lemma entries_cleanup now k r : recent (now - rl_window r) (entries_of k (Cleanup now r)) = recent (now - rl_window r) (entries_of k r).
Proof.
  unfold entries_of, Cleanup. simpl. rewrite lookup_omap. destruct (rl_attempts r !! k) as [l|]; simpl; [|done].
  destruct (recent _ l) as [|t l'] eqn:E; simpl; [done|]. by rewrite <- E, recent_recent.
Qed.

(** What the limiter remembers of a key inside the window is what it let through. *)
Record limited (from : time) (r : RateLimiter) (a : list (string * time)) : Prop := {
  lm_same k : recent (from - rl_window r) (entries_of k r) = recent (from - rl_window r) (admitted_of k a);
  lm_bound k : (length (recent (from - rl_window r) (admitted_of k a)) ≤ rl_max r)%nat;
}.
Lemma step_config r e : rl_max (limiter_step r e).1 = rl_max r ∧ rl_window (limiter_step r e).1 = rl_window r.
Proof. destruct e as [key t|t]; simpl; [|done]. unfold Allow. by destruct (rl_max r <=? _)%nat. Qed.
Lemma admitted_app k a b : admitted_of k (a ++ b) = admitted_of k a ++ admitted_of k b.
Proof. unfold admitted_of. by rewrite filter_app, fmap_app. Qed.
Lemma admitted_one k key t : admitted_of k [(key, t)] = if decide (key = k) then [t] else [].
Proof. unfold admitted_of. rewrite filter_cons, filter_nil. simpl. destruct (decide (key = k)); by simplify_eq. Qed.
Lemma limited_step from r a e :
  0 < rl_window r → from ≤ event_time e → limited from r a →
  limited (event_time e) (limiter_step r e).1 (a ++ (limiter_step r e).2).
Proof.
  intros Hw Ht [Hs Hb]. destruct (step_config r e) as [Hm Hwin]. split; intros k; rewrite Hwin, ?Hm, ?admitted_app.
  all: assert (Hs' : recent (event_time e - rl_window r) (entries_of k r) = recent (event_time e - rl_window r) (admitted_of k a))
    by (rewrite <- (recent_recent (from - rl_window r)) by lia; rewrite Hs; by rewrite recent_recent by lia).
  all: assert (Hb' : (length (recent (event_time e - rl_window r) (admitted_of k a)) ≤ rl_max r)%nat)
    by (etransitivity; [apply (recent_shrinks (from - rl_window r)); lia|done]).
  all: destruct e as [key t|t]; simpl in *; [unfold Allow in *|by rewrite ?app_nil_r, ?entries_cleanup].
  - destruct (Nat.leb_spec (rl_max r) (length (recent (t - rl_window r) (entries_of key r)))) as [Hmax|Hmax]; simpl;
      rewrite entries_insert, ?admitted_one; (destruct (decide (key = k)) as [->|Hne]);
      rewrite ?app_nil_r, ?recent_app, ?recent_recent, ?Hs' by lia; done.
  - destruct (Nat.leb_spec (rl_max r) (length (recent (t - rl_window r) (entries_of key r)))) as [Hmax|Hmax]; simpl;
      rewrite ?admitted_one, ?app_nil_r; [done|]. destruct (decide (key = k)) as [->|Hne]; [|by rewrite app_nil_r].
    rewrite recent_app, length_app, <- Hs'. unfold recent at 2. rewrite filter_cons_True by lia. simpl. lia.
Qed.
Lemma limited_run from r es a :
  0 < rl_window r → clocked from es → limited from r a →
  ∃ last, limited last (limiter_run r es).1 (a ++ (limiter_run r es).2) ∧ (∀ t, Forall (λ e, event_time e ≤ t) es → from ≤ t → last ≤ t).
Proof.
  revert from r a. induction es as [|e es IH]; intros from r a Hw Hc Hl; simpl.
  - exists from. rewrite app_nil_r. by split.
  - destruct Hc as [Hfrom Hc]. assert (H := limited_step from r a e Hw Hfrom Hl). destruct (step_config r e) as [_ Hwin].
    destruct (limiter_step r e) as [r1 b]; simpl in *. destruct (IH (event_time e) r1 (a ++ b)) as (last & Hlast & Hle); [by rewrite Hwin|done|done|].
    destruct (limiter_run r1 es) as [r2 c]; simpl in *. exists last. rewrite <- app_assoc in Hlast. split; [done|].
    intros t Hall Ht. apply Forall_cons in Hall as [? ?]. by apply Hle.
Qed.
Lemma run_config r es : rl_max (limiter_run r es).1 = rl_max r ∧ rl_window (limiter_run r es).1 = rl_window r.
Proof.
  revert r. induction es as [|e es IH]; intros r; simpl; [done|]. destruct (step_config r e) as [Hm Hw].
  destruct (limiter_step r e) as [r1 b]; simpl in *. destruct (IH r1) as [Hm' Hw']. destruct (limiter_run r1 es) as [r2 c]; simpl in *.
  split; congruence.
Qed.

(** C37: the limiter's bound.  Under attempts on any keys and clean-ups in any
    order, with a clock that does not go back, no window of the configured length
    that ends at or after the last event holds more admitted attempts of a key than
    the configured maximum. *)
Theorem Allow_bound maxAttempts window es key now :
  0 < window → clocked 0 es → Forall (λ e, event_time e ≤ now) es → 0 ≤ now →
  let admitted := (limiter_run (NewRateLimiter maxAttempts window) es).2 in
  (length (recent (now - window) (admitted_of key admitted)) ≤ maxAttempts)%nat.
Proof.
  intros Hw Hc Hall Hn a. destruct (limited_run 0 (NewRateLimiter maxAttempts window) es []) as (last & [_ Hb] & Hle); [done|done| |].
  { split; intros k; simpl; [done|lia]. }
  destruct (run_config (NewRateLimiter maxAttempts window) es) as [Hm Hwin]. specialize (Hle now Hall Hn).
  specialize (Hb key). rewrite Hm, Hwin in Hb. simpl in *. subst a. etransitivity; [|exact Hb]. apply recent_shrinks. lia.
Qed.
(** Five attempts in a window of ten: the sixth is refused, and admitted once the
    first ones have left the window. *)
Definition sample_attempts : list limiter_event :=
  (Attempt "login:a" <$> [1; 2; 3; 4; 5; 6]) ++ [Clean 7; Attempt "login:a" 12].
Lemma Allow_bound_witness :
  admitted_of "login:a" (limiter_run (NewRateLimiter 5 10) sample_attempts).2 = [1; 2; 3; 4; 5; 12] ∧
  (length (recent (12 - 10) (admitted_of "login:a" (limiter_run (NewRateLimiter 5 10) sample_attempts).2)) ≤ 5)%nat.
Proof.
  split; [vm_compute; reflexivity|]. apply (Allow_bound 5 10 sample_attempts "login:a" 12); [lia| |repeat constructor; simpl; lia|lia].
  simpl. lia.
Defined.
