(* ===== verification/Domain.v ===== *)
(** * Domain types and pure functions of internal/store/store.go

    The string enums are inductive types with the source's constants; where the
    source also handles a string outside the constants, the type has an
    [...Other] constructor for it.  Struct fields carry a short prefix.  A Go
    pointer or nullable column is an [option]. *)
From S2P Require Import Prelude Utf8 Json Redact.

(** ** Errors *)
Inductive OperationStatus : Type :=
| StatusPending | StatusPreflight | StatusQueued | StatusRunning | StatusCancelling
| StatusSucceeded | StatusFailed | StatusCancelled | StatusTimeout
| StatusOther (s : string).
#[export] Instance OperationStatus_eq_dec : EqDecision OperationStatus.
Proof. solve_decision. Defined.

Inductive ValuesStatus : Type :=
| ValuesStatusDraft | ValuesStatusPendingApproval | ValuesStatusApproved | ValuesStatusRejected
| ValuesStatusSuperseded | ValuesStatusDiscarded.
#[export] Instance ValuesStatus_eq_dec : EqDecision ValuesStatus.
Proof. solve_decision. Defined.

(** The store's sentinel and typed errors; [ErrOther] is any other error. *)
Inductive error : Type :=
| ErrNotFound | ErrOptimisticLock | ErrDuplicateKey | ErrReleaseBusy | ErrApprovalPending
| ErrIdempotencyConflict | ErrInvalidState | ErrNotAuthorized | ErrEmergencyConflict
| ErrEmergencyOperationInProgress | ErrAuthorizationStale | ErrBundleNotReady | ErrBundleRejected
| ErrConvergencePending | ErrLockNotStuck | ErrParentConflict | ErrDiscardNotAllowed
| ErrBindingRevoked | ErrPrepareTokenExpired | ErrPrepareTokenConsumed | ErrConvergenceRevisionExists
| ErrConvergenceConflict | ErrInvalidCursor | ErrUnavailable
| StateVersionConflictError (expected current : Z)
| OperationStateVersionConflictError (expected current : Z)
| InvalidValuesStateError (actual expected : ValuesStatus)
| ApprovalPendingError (definitionID : string)
| ErrPendingTokenExists | ErrTokenReplaceConflict | ErrTokenExpired | ErrOperatorStateConflict | ErrOperatorNotFound
| ErrDuplicateOperatorName | ErrCertificateConflict | ErrAuditUnavailable | ErrUniqueConstraint
| ErrSQLiteBusy
| ErrOther (msg : string).
#[export] Instance error_eq_dec : EqDecision error.
Proof. solve_decision. Defined.

(** [Unwrap]: the sentinel a typed error wraps. *)
Definition Unwrap (e : error) : option error :=
  match e with
  | StateVersionConflictError _ _ | OperationStateVersionConflictError _ _ => Some ErrOptimisticLock
  | InvalidValuesStateError _ _ => Some ErrInvalidState
  | ApprovalPendingError _ => Some ErrApprovalPending
  | _ => None
  end.
(** [errors.Is] *)
Definition errors_Is (e target : error) : bool :=
  bool_decide (e = target) || bool_decide (Unwrap e = Some target).

(** ** Operations *)
Inductive OperationType : Type :=
| OperationInstall | OperationUpgrade | OperationRollback | OperationEmergency
| OperationTypeOther (s : string).
#[export] Instance OperationType_eq_dec : EqDecision OperationType.
Proof. solve_decision. Defined.

Definition OperationType_Valid (t : OperationType) : bool :=
  match t with
  | OperationInstall | OperationUpgrade | OperationRollback | OperationEmergency => true
  | OperationTypeOther _ => false
  end.

Definition IsStandard (t : OperationType) : bool :=
  bool_decide (t = OperationInstall) || bool_decide (t = OperationUpgrade) || bool_decide (t = OperationRollback).

Definition OperationType_string (t : OperationType) : string :=
  match t with
  | OperationInstall => "INSTALL" | OperationUpgrade => "UPGRADE"
  | OperationRollback => "ROLLBACK" | OperationEmergency => "EMERGENCY"
  | OperationTypeOther s => s
  end.

Definition status_string (s : OperationStatus) : string :=
  match s with
  | StatusPending => "pending" | StatusPreflight => "preflight" | StatusQueued => "queued"
  | StatusRunning => "running" | StatusCancelling => "cancelling" | StatusSucceeded => "succeeded"
  | StatusFailed => "failed" | StatusCancelled => "cancelled" | StatusTimeout => "timeout"
  | StatusOther s => s
  end.

Definition IsTerminal (s : OperationStatus) : bool :=
  match s with
  | StatusSucceeded | StatusFailed | StatusCancelled | StatusTimeout => true
  | _ => false
  end.

Definition CanTransitionTo (s target : OperationStatus) : bool :=
  let goes t := bool_decide (target = t) in
  match s with
  | StatusPending =>
      goes StatusPreflight || goes StatusQueued || goes StatusFailed || goes StatusCancelled || goes StatusTimeout
  | StatusPreflight => goes StatusQueued || goes StatusFailed || goes StatusCancelled || goes StatusTimeout
  | StatusQueued => goes StatusRunning || goes StatusCancelled || goes StatusTimeout
  | StatusRunning => goes StatusSucceeded || goes StatusFailed || goes StatusCancelling || goes StatusTimeout
  | StatusCancelling => goes StatusCancelled || goes StatusFailed || goes StatusTimeout
  | _ => false
  end.

Record ActorContext := { ac_UserID : string; ac_Organization : string }.
#[export] Instance ActorContext_eq_dec : EqDecision ActorContext.
Proof. solve_decision. Defined.

(** The zero value [EmergencyEffectStatus("")] is [EffectEmpty]. *)
Inductive EmergencyEffectStatus : Type :=
| EffectEmpty | EmergencyEffectUnknown | EmergencyEffectApplied | EmergencyEffectNotApplied
| EmergencyEffectNotStarted.
#[export] Instance EmergencyEffectStatus_eq_dec : EqDecision EmergencyEffectStatus.
Proof. solve_decision. Defined.
Definition effect_string (e : EmergencyEffectStatus) : string :=
  match e with
  | EffectEmpty => "" | EmergencyEffectUnknown => "UNKNOWN" | EmergencyEffectApplied => "APPLIED"
  | EmergencyEffectNotApplied => "NOT_APPLIED" | EmergencyEffectNotStarted => "NOT_STARTED"
  end.

Record Operation := {
  op_ID : string; op_OperationType : OperationType; op_Status : OperationStatus;
  op_ReleaseDefinitionID : string; op_IdempotencyKey : string; op_IdempotencyScope : string;
  op_RequestHash : string; op_StateVersion : Z; op_BundleID : string; op_BundleChartRef : string;
  op_BundleChartDigest : string; op_ImageRefsJSON : option string; op_ImageDigestsJSON : option string;
  op_PolicyVersion : string; op_ValuesRevisionID : string; op_ExpectedRevision : Z; op_TargetRevision : Z;
  op_TargetOperationID : string; op_ValuesPatch : option string; op_PatchDigest : string;
  op_EffectiveValuesDigest : string; op_Reason : string; op_Actor : ActorContext; op_LastError : string;
  op_CreatedAt : time; op_UpdatedAt : time; op_Deadline : option time; op_TerminalAt : option time;
  op_EffectStatus : EmergencyEffectStatus;
}.

(** ** Creation, queueing, cancellation *)
Inductive CommandStatus : Type :=
| CommandStatusEmpty | CommandPending | CommandDelivered | CommandPersisted | CommandRunning
| CommandSucceeded | CommandFailed.
#[export] Instance CommandStatus_eq_dec : EqDecision CommandStatus.
Proof. solve_decision. Defined.

Record OutboxEntry := {
  ob_ID : string; ob_CommandID : string; ob_OperationID : string; ob_OperationType : string;
  ob_OperatorID : string; ob_Payload : option string; ob_Status : CommandStatus; ob_MaxInFlight : Z;
  ob_Sequence : Z; ob_ResultJSON : string; ob_CreatedAt : time; ob_UpdatedAt : time;
  ob_DeliveredAt : option time; ob_AckedAt : option time;
}.

Inductive OperationDeliveryStatus : Type :=
| DeliveryStatusEmpty | DeliveryUndelivered | DeliveryDelivered | DeliveryUnknown.
#[export] Instance OperationDeliveryStatus_eq_dec : EqDecision OperationDeliveryStatus.
Proof. solve_decision. Defined.

Record OperationCancelCommand := {
  cc_OperationID : string; cc_ExpectedStateVersion : Z; cc_TargetStatus : OperationStatus;
  cc_ActorUserID : string; cc_Reason : string; cc_RequestID : string; cc_IdempotencyScope : string;
  cc_IdempotencyKeyHash : string; cc_RequestHash : string; cc_DeliveryStatus : OperationDeliveryStatus;
}.
Record OperationCancelReplayQuery := {
  cq_OperationID : string; cq_ActorUserID : string; cq_IdempotencyKeyHash : string; cq_RequestHash : string;
}.
Record OperationCancelResult := { cr_Operation : Operation; cr_RequestID : string; cr_Replayed : bool }.

Record OperationQueueRequest := {
  qr_OperationID : string; qr_NextStatus : OperationStatus; qr_StateVersion : Z; qr_Dispatch : option OutboxEntry;
}.

Record UpgradeTerminalInput := {
  ui_OperationID : string; ui_ExpectedStateVersion : Z; ui_Status : OperationStatus; ui_LastError : string;
  ui_ResultPayload : string; ui_ReleaseDefinitionID : string; ui_CustomerID : string; ui_ClusterID : string;
  ui_UpdateInventory : bool; ui_Revision : Z; ui_ObservedBundleDigest : string; ui_ObservedChartDigest : string;
  ui_ObservedEffectiveValuesDigest : string; ui_ObservedManifestDigest : string; ui_LiveStatus : string;
  ui_InventoryStatus : string; ui_ResourceCount : Z;
}.

(** ** Timeline *)
Inductive OperationTimelineEntryKind : Type :=
| TimelineEntryKindEmpty | TimelineEntryStateTransition | TimelineEntryEmergencyEffectResolved
| TimelineEntryACK | TimelineEntryRolloutProgress | TimelineEntryError.
#[export] Instance OperationTimelineEntryKind_eq_dec : EqDecision OperationTimelineEntryKind.
Proof. solve_decision. Defined.

Record OperationTimelineEntry := {
  te_ID : string; te_OperationID : string; te_Sequence : Z; te_OperationStateVersion : Z;
  te_Kind : OperationTimelineEntryKind; te_Data : raw; te_CreatedAt : time;
}.

(** A field with [json:",omitempty"]. *)
Definition omitempty (key value : string) : list (string * json) :=
  if bool_decide (value = "") then [] else [(key, JStr value)].

Definition StateTransitionTimelineData (requestID : string) (from to : OperationStatus) (errorCode : string) : raw :=
  RawJson (JObj (omitempty "request_id" requestID
    ++ [("from_state", JStr (status_string from)); ("to_state", JStr (status_string to))]
    ++ omitempty "error_code" errorCode)).
Definition AckTimelineData (requestID ackStage : string) : raw :=
  RawJson (JObj (omitempty "request_id" requestID ++ [("ack_stage", JStr ackStage)])).
Definition ErrorTimelineData (errorCode errorMessage : string) : raw :=
  RawJson (JObj [("error_code", JStr errorCode); ("error_message", JStr errorMessage)]).
Definition EmergencyEffectTimelineData (requestID : string) (from to : EmergencyEffectStatus) : raw :=
  RawJson (JObj (omitempty "request_id" requestID
    ++ [("effect_from", JStr (effect_string from)); ("effect_to", JStr (effect_string to))])).

Definition known_error_codes : list string :=
  ["helm_install_failed"; "helm_upgrade_failed"; "helm_rollback_failed"; "rollout_timeout"; "cancelled"].
Definition quoted (code : string) : string := (String dquote code ++ String dquote EmptyString)%string.

(** stableErrorCode: the [code] of a JSON envelope, else a known bare or quoted
    code, else operation_failed. *)
Definition stableErrorCode (lastError : string) : string :=
  let fallback :=
    match find (λ code, bool_decide (TrimSpace lastError = code) || Contains lastError (quoted code)) known_error_codes with
    | Some code => code
    | None => "operation_failed"
    end in
  match parse_json lastError with
  | Some j =>
      match decode_struct1 "code" j with
      | Some code => if bool_decide (code = "") then fallback else code
      | None => fallback
      end
  | None => fallback
  end.

Definition ErrorTimelineEntry (operationID : string) (stateVersion : Z) (lastError : string) : OperationTimelineEntry :=
  let sanitized := Truncate (Sanitize lastError).1 500 in
  {| te_ID := ""; te_OperationID := operationID; te_Sequence := 0; te_OperationStateVersion := stateVersion;
     te_Kind := TimelineEntryError; te_Data := ErrorTimelineData (stableErrorCode lastError) sanitized;
     te_CreatedAt := 0 |}.

Record TimelineSnapshot := {
  ts_Operation : Operation; ts_SnapshotSequence : Z; ts_RetainedFromSequence : Z;
}.

Record OperationStateChangedEvent := {
  ev_ID : string; ev_OperationID : string; ev_OperationType : OperationType; ev_DefinitionID : string;
  ev_OldStatus : OperationStatus; ev_NewStatus : OperationStatus; ev_StateVersion : Z; ev_CreatedAt : time;
}.

(** ProjectEffectStatus *)
Definition ProjectEffectStatus (operationType : OperationType) (status : OperationStatus)
    (deliveryStatus : string) (effectStatus : EmergencyEffectStatus) : EmergencyEffectStatus :=
  let resolved_or_unknown :=
    if bool_decide (effectStatus = EmergencyEffectApplied) || bool_decide (effectStatus = EmergencyEffectNotApplied)
    then effectStatus else EmergencyEffectUnknown in
  if negb (bool_decide (operationType = OperationEmergency)) then EmergencyEffectNotStarted
  else if IsTerminal status then resolved_or_unknown
  else if bool_decide (deliveryStatus ∈ [""; "undelivered"; "pending"; "queued"]) then EmergencyEffectNotStarted
  else if bool_decide (deliveryStatus ∈ ["delivered"; "persisted"]) then resolved_or_unknown
  else EmergencyEffectUnknown.

(** ** Users, organizations and authorization (REQ-026, REQ-027, REQ-049) *)
Inductive Role : Type :=
| RolePlatformAdmin | RoleReleaseAdmin | RoleDeployer | RoleViewer | RoleOther (s : string).
#[export] Instance Role_eq_dec : EqDecision Role.
Proof. solve_decision. Defined.
Definition role_string (r : Role) : string :=
  match r with
  | RolePlatformAdmin => "platform_admin" | RoleReleaseAdmin => "release_admin" | RoleDeployer => "deployer"
  | RoleViewer => "viewer" | RoleOther s => s
  end.
(** The conversion [store.Role(text)]. *)
Definition role_of (s : string) : Role :=
  if bool_decide (s = "platform_admin") then RolePlatformAdmin
  else if bool_decide (s = "release_admin") then RoleReleaseAdmin
  else if bool_decide (s = "deployer") then RoleDeployer
  else if bool_decide (s = "viewer") then RoleViewer else RoleOther s.
Definition Role_Valid (r : Role) : bool := match r with RoleOther _ => false | _ => true end.
Definition CanGrant (r target : Role) : bool :=
  if bool_decide (r = RolePlatformAdmin) then true
  else if bool_decide (r = RoleReleaseAdmin) then negb (bool_decide (target = RolePlatformAdmin))
  else false.

Inductive OrganizationStatus : Type := OrgStatusEmpty | OrgActive | OrgDisabled.
#[export] Instance OrganizationStatus_eq_dec : EqDecision OrganizationStatus.
Proof. solve_decision. Defined.
Inductive BindingStatus : Type := BindingStatusEmpty | BindingActive | BindingRevoked.
#[export] Instance BindingStatus_eq_dec : EqDecision BindingStatus.
Proof. solve_decision. Defined.
Inductive CustomerStatus : Type := CustomerStatusEmpty | CustomerActive | CustomerDisabled.
#[export] Instance CustomerStatus_eq_dec : EqDecision CustomerStatus.
Proof. solve_decision. Defined.
Record Organization := {
  or_ID : string; or_Name : string; or_Status : OrganizationStatus; or_OptimisticVersion : Z;
  or_CreatedAt : time; or_UpdatedAt : time;
}.
Inductive UserStatus : Type := UserStatusEmpty | UserActive | UserPending | UserDisabled.
#[export] Instance UserStatus_eq_dec : EqDecision UserStatus.
Proof. solve_decision. Defined.
Record User := {
  us_ID : string; us_Username : string; us_PasswordHash : string; us_Provider : string; us_Subject : string;
  us_Status : UserStatus; us_CreatedAt : time; us_UpdatedAt : time;
}.
Record AuthSession := {
  ss_ID : string; ss_UserID : string; ss_TokenFamily : string; ss_RefreshTokenHash : string; ss_ExpiresAt : time;
  ss_CreatedAt : time; ss_Revoked : bool;
}.
Record OrganizationMember := {
  om_OrgID : string; om_UserID : string; om_Role : Role; om_OptimisticVersion : Z;
  om_CreatedAt : time; om_UpdatedAt : time;
}.
Record OrgCustomerBinding := {
  bi_ID : string; bi_OrgID : string; bi_CustomerID : string; bi_Status : BindingStatus;
  bi_OptimisticVersion : Z; bi_CreatedAt : time; bi_UpdatedAt : time;
}.
Record Customer := {
  cu_ID : string; cu_Name : string; cu_Slug : string; cu_Status : CustomerStatus; cu_Version : Z;
  cu_CreatedAt : time; cu_UpdatedAt : time;
}.

Inductive AuthorizationAction : Type :=
| AuthorizationExecuteEmergency | AuthorizationResolveEmergency | AuthorizationCreateValues
| AuthorizationApproveValues | AuthorizationCreateOperation | AuthorizationActionOther (s : string).
#[export] Instance AuthorizationAction_eq_dec : EqDecision AuthorizationAction.
Proof. solve_decision. Defined.
Definition AuthorizationAction_Valid (a : AuthorizationAction) : bool :=
  match a with AuthorizationActionOther _ => false | _ => true end.
Definition action_string (a : AuthorizationAction) : string :=
  match a with
  | AuthorizationExecuteEmergency => "release.emergency.execute"
  | AuthorizationResolveEmergency => "release.emergency.resolve"
  | AuthorizationCreateValues => "release.values.create"
  | AuthorizationApproveValues => "release.values.approve"
  | AuthorizationCreateOperation => "release.operation.create"
  | AuthorizationActionOther s => s
  end.
Record CapabilityGrant := {
  cg_OrganizationID : string; cg_Subject : string; cg_Action : AuthorizationAction; cg_GrantedBy : string;
  cg_Revoked : bool; cg_CreatedAt : time; cg_UpdatedAt : time;
}.
Record CasbinRule := {
  ru_PType : string; ru_V0 : string; ru_V1 : string; ru_V2 : string; ru_V3 : string; ru_V4 : string; ru_V5 : string;
}.
#[export] Instance CapabilityGrant_eq_dec : EqDecision CapabilityGrant.
Proof. solve_decision. Defined.
#[export] Instance CasbinRule_eq_dec : EqDecision CasbinRule.
Proof. solve_decision. Defined.
(** Versions are Go [uint64] counters of single steps, as [Z]. *)
Record AuthorizationCheckpoint := {
  cp_OrganizationID : string; cp_CustomerID : string; cp_SourceVersion : Z; cp_PolicyVersion : Z;
  cp_Fresh : bool; cp_UpdatedAt : time;
}.
Record AuthorizationSnapshot := {
  as_SourceVersion : Z; as_PolicyVersion : Z; as_Grants : list CapabilityGrant; as_Rules : list CasbinRule;
  as_Checkpoints : list AuthorizationCheckpoint;
}.
Inductive AuthorizationMutation : Type :=
| AuthorizationMembershipChanged | AuthorizationBindingChanged | AuthorizationGrantChanged | AuthorizationPolicyChanged.
#[export] Instance AuthorizationMutation_eq_dec : EqDecision AuthorizationMutation.
Proof. solve_decision. Defined.
(** [None] is Go's nil slice: the payload is not replaced. *)
Record AuthorizationApplyCommand := {
  aa_ExpectedSourceVersion : Z; aa_ExpectedPolicyVersion : Z; aa_Mutation : AuthorizationMutation;
  aa_Grants : option (list CapabilityGrant); aa_Rules : option (list CasbinRule);
}.
(** AuthorizationApplyCommand.Validate: [true] when it returns no error. *)
Definition Apply_Validate (c : AuthorizationApplyCommand) : bool :=
  match aa_Mutation c with
  | AuthorizationMembershipChanged | AuthorizationBindingChanged =>
      bool_decide (aa_Grants c = None) && bool_decide (aa_Rules c = None)
  | AuthorizationGrantChanged => negb (bool_decide (aa_Grants c = None)) && negb (bool_decide (aa_Rules c = None))
  | AuthorizationPolicyChanged => bool_decide (aa_Grants c = None) && negb (bool_decide (aa_Rules c = None))
  end.
Record EmergencyConfig := { ecf_Enabled : bool; ecf_OperationTimeout : Z; ecf_EffectObserveTimeout : Z }.

(** ** Release definitions and values revisions *)
Inductive DefinitionStatus : Type := DefStatusDraft | DefStatusActive | DefStatusDisabled.
#[export] Instance DefinitionStatus_eq_dec : EqDecision DefinitionStatus.
Proof. solve_decision. Defined.

Record ApprovedAnnotationKey := { aak_Key : string; aak_Scope : string; aak_PromotionValuesPath : string }.
Record PromotionMapping := {
  pm_WorkloadKind : string; pm_WorkloadName : string; pm_Container : string; pm_Field : string; pm_ValuesPath : string;
}.
Record ReleaseDefinition := {
  rd_ID : string; rd_Name : string; rd_CustomerID : string; rd_ClusterID : string; rd_Namespace : string;
  rd_ReleaseName : string; rd_ChartName : string; rd_Status : DefinitionStatus; rd_OptimisticVersion : Z;
  rd_CurrentBundleID : option string; rd_CreatedBy : string; rd_OwnerOrganizationID : option string;
  rd_ApprovedRevisionID : option string; rd_HPAManaged : bool; rd_MaxEmergencyReplicas : Z;
  rd_ApprovedAnnotationKeys : list ApprovedAnnotationKey; rd_PromotionMappings : list PromotionMapping;
  rd_CreatedAt : time; rd_UpdatedAt : time;
}.

Record SecretRef := { sr_Path : string; sr_Name : string; sr_Key : string }.
Record ValuesRevision := {
  vr_ID : string; vr_ReleaseDefinitionID : string; vr_Version : Z; vr_StateVersion : Z; vr_Status : ValuesStatus;
  vr_CanonicalDocument : raw; vr_Digest : string; vr_ParentRevisionID : string; vr_SecretRefs : list SecretRef;
  vr_CreatedByUserID : string; vr_SubmittedAt : option time; vr_DecidedAt : option time; vr_CreatedAt : time;
  vr_UpdatedAt : time; vr_ConvergenceTaskIds : list string; vr_LockedPaths : list string;
}.
Definition values_status_string (s : ValuesStatus) : string :=
  match s with
  | ValuesStatusDraft => "draft" | ValuesStatusPendingApproval => "pending_approval"
  | ValuesStatusApproved => "approved" | ValuesStatusRejected => "rejected"
  | ValuesStatusSuperseded => "superseded" | ValuesStatusDiscarded => "discarded"
  end.

Record ValuesListFilter := {
  vf_ReleaseDefinitionID : string; vf_Status : option ValuesStatus; vf_PageSize : Z; vf_Cursor : string;
}.
Record ValuesPage := { vp_Items : list ValuesRevision; vp_NextCursor : string }.

Inductive ValuesDecisionAction : Type :=
| ValuesDecisionSubmitted | ValuesDecisionApproved | ValuesDecisionRejected | ValuesDecisionDiscarded.
#[export] Instance ValuesDecisionAction_eq_dec : EqDecision ValuesDecisionAction.
Proof. solve_decision. Defined.

Record ValuesRevisionDecision := {
  vd_ID : string; vd_RevisionID : string; vd_ReleaseDefinitionID : string; vd_Action : ValuesDecisionAction;
  vd_FromState : ValuesStatus; vd_ToState : ValuesStatus; vd_ActorUserID : string; vd_ActorOrgID : string;
  vd_ActorRole : string; vd_Comment : option string; vd_Reason : string; vd_RequestID : string;
  vd_IdempotencyKeyHash : string; vd_CreatedAt : time;
}.
Record ApprovalOutboxEntry := {
  ao_ID : string; ao_EventType : string; ao_PayloadJSON : raw; ao_CreatedAt : time; ao_Delivered : bool;
  ao_DeliveredAt : option time;
}.
Record ValuesApprovalCommand := {
  vac_RevisionID : string; vac_ExpectedStateVersion : Z; vac_ExpectedAuthorizationVersion : Z;
  vac_ActorUserID : string; vac_ActorOrgID : string; vac_ActorRole : string; vac_Authorized : bool;
  vac_Comment : option string; vac_Reason : string; vac_RequestID : string; vac_IdempotencyScope : string;
  vac_IdempotencyKeyHash : string; vac_RequestHash : string;
}.
Record ValuesApprovalResult := {
  var_Revision : ValuesRevision; var_PreviousState : ValuesStatus; var_NewState : ValuesStatus;
  var_DecidedAt : time; var_SupersededRevisionIDs : list string; var_Replayed : bool;
}.
Record PrepareSession := {
  ps_TokenHash : string; ps_ActorUserID : string; ps_OrganizationID : string; ps_ReleaseDefinitionID : string;
  ps_ParentRevisionID : string; ps_ParentVersion : Z; ps_TaskIDs : list string; ps_LockedPaths : list string;
  ps_LockedPathHash : string; ps_ExpiresAt : time; ps_ConsumedAt : option time; ps_CreatedAt : time;
}.
Record CreateValuesDraftCommand := {
  cvc_Revision : option ValuesRevision; cvc_PrepareTokenHash : string; cvc_ExpectedParentVersion : Z;
  cvc_ExpectedLockedPathHash : string; cvc_ExpectedAuthorizationVersion : Z; cvc_ActorUserID : string;
  cvc_OrganizationID : string; cvc_RequestID : string; cvc_IdempotencyScope : string;
  cvc_IdempotencyKeyHash : string; cvc_RequestHash : string; cvc_IdempotencyExpiresAt : time;
}.
Record CreateValuesDraftResult := { cvr_Revision : ValuesRevision; cvr_Replayed : bool }.
Record DiscardValuesCommand := {
  dvc_RevisionID : string; dvc_ExpectedStateVersion : Z; dvc_ExpectedAuthorizationVersion : Z;
  dvc_ActorUserID : string; dvc_ActorOrgID : string; dvc_ActorRole : string; dvc_Comment : option string;
  dvc_RequestID : string; dvc_IdempotencyScope : string; dvc_IdempotencyKeyHash : string;
  dvc_RequestHash : string; dvc_IdempotencyExpiresAt : time;
}.
Record DiscardValuesResult := {
  dvr_Revision : ValuesRevision; dvr_PreviousState : option ValuesStatus; dvr_NewState : option ValuesStatus;
  dvr_DecidedAt : time; dvr_Replayed : bool;
}.

(** ** Emergency changes *)
Inductive EmergencyAction : Type :=
| EmergencySetContainerImage | EmergencySetReplicas | EmergencySetApprovedAnnotations
| EmergencyActionOther (s : string).
#[export] Instance EmergencyAction_eq_dec : EqDecision EmergencyAction.
Proof. solve_decision. Defined.
Definition EmergencyAction_Valid (a : EmergencyAction) : bool :=
  match a with
  | EmergencySetContainerImage | EmergencySetReplicas | EmergencySetApprovedAnnotations => true
  | EmergencyActionOther _ => false
  end.
Inductive EmergencyConvergence : Type := EmergencyRequirePromotion | EmergencyRevertOnNextReconcile.
#[export] Instance EmergencyConvergence_eq_dec : EqDecision EmergencyConvergence.
Proof. solve_decision. Defined.

Record EmergencyIntent := {
  ei_ID : string; ei_ReleaseDefinitionID : string; ei_OperationID : string; ei_CommandID : string;
  ei_Action : EmergencyAction; ei_WorkloadKind : string; ei_WorkloadName : string; ei_WorkloadNamespace : string;
  ei_WorkloadUID : string; ei_Container : option string; ei_ArtifactID : option string;
  ei_ImageReference : option string; ei_TargetReplicas : option Z; ei_AnnotationScope : option string;
  ei_AnnotationEntries : raw; ei_Convergence : EmergencyConvergence; ei_PromotionPaths : raw;
  ei_BeforeSnapshot : raw; ei_AfterSnapshot : raw; ei_DeliveryStatus : string;
  ei_EffectStatus : EmergencyEffectStatus; ei_LastDeliveryAt : option time; ei_LockReleasedAt : option time;
  ei_RevertStatus : string; ei_ReconciledByOperationID : string; ei_CreatedAt : time; ei_UpdatedAt : time;
}.
Record ResolveEmergencyEffectCommand := {
  rc_OperationID : string; rc_ExpectedStateVersion : Z; rc_EffectStatus : EmergencyEffectStatus;
  rc_BeforeSnapshot : raw; rc_AfterSnapshot : raw; rc_RequestID : string;
}.
Record ResolveEmergencyEffectResult := {
  rr_Operation : Operation; rr_Intent : EmergencyIntent; rr_Timeline : option OperationTimelineEntry; rr_Resolved : bool;
}.
Record EmergencyConvergeCommand := {
  vc_IntentID : string; vc_OperationID : string; vc_ExpectedStateVersion : Z; vc_Status : OperationStatus;
  vc_EffectStatus : EmergencyEffectStatus; vc_LastError : string; vc_BeforeSnapshot : raw; vc_AfterSnapshot : raw;
  vc_RequestID : string;
}.
Record EmergencyConvergeResult := { vres_Operation : Operation; vres_Intent : EmergencyIntent; vres_Resolved : bool }.
Record StuckLockFilter := { sf_DefinitionID : string; sf_CustomerIDs : list string; sf_ObserveTimeout : Z }.
Record StuckLock := { sl_Intent : EmergencyIntent; sl_TerminalAt : time; sl_LockPathSummary : string }.
Inductive EmergencyReleaseMode : Type :=
| EmergencyReleaseNotAppliedProven | EmergencyReleaseAuditedOverride | EmergencyReleaseModeOther (s : string).
#[export] Instance EmergencyReleaseMode_eq_dec : EqDecision EmergencyReleaseMode.
Proof. solve_decision. Defined.
Record ReleaseLockCommand := {
  lc_IntentID : string; lc_Mode : EmergencyReleaseMode; lc_Reason : string; lc_Evidence : string; lc_ObserveTimeout : Z;
}.
Record ReleaseLockResult := { lr_Intent : EmergencyIntent; lr_Operation : Operation }.

Inductive ConvergenceStatus : Type := ConvergenceStatusEmpty | PendingPromotion | Converged.
#[export] Instance ConvergenceStatus_eq_dec : EqDecision ConvergenceStatus.
Proof. solve_decision. Defined.
Record ConvergenceTask := {
  ct_ID : string; ct_OperationID : string; ct_ReleaseDefinitionID : string; ct_Action : EmergencyAction;
  ct_TargetSummary : string; ct_Reason : string; ct_PromotionPaths : raw; ct_Status : ConvergenceStatus;
  ct_ActiveRevisionID : option string; ct_ActiveRevisionStatus : option string;
  ct_LastRejectionReason : option string; ct_SubmittedAt : time; ct_ConvergedAt : option time; ct_CreatedAt : time;
}.

(** ** Idempotency records

    [response_ref] holds what the writer of the record stored: the bytes of an
    operation id, or the JSON of one of the typed results below. *)
Record emergencyReplayRef := { er_OperationID : string; er_IntentID : string; er_ConvergenceTaskID : string }.
Record valuesLifecycleReplayRef := {
  vl_RevisionID : string; vl_Revision : option ValuesRevision; vl_PreviousState : option ValuesStatus;
  vl_NewState : option ValuesStatus; vl_DecidedAt : time;
}.
Inductive response_ref : Type :=
| RefEmpty
| RefOperationID (id : string)
| RefCancel (result : OperationCancelResult)
| RefEmergency (ref : emergencyReplayRef)
| RefApproval (result : ValuesApprovalResult)
| RefValuesLifecycle (ref : valuesLifecycleReplayRef).

Record IdempotencyRecord := {
  id_Scope : string; id_Key : string; id_RequestHash : string; id_ResponseRef : response_ref; id_ExpiresAt : time;
}.
Record OperationCreateCommand := {
  ccr_Operation : Operation; ccr_Idempotency : option IdempotencyRecord; ccr_CheckAvailable : bool;
  ccr_ExpectedAuthorizationVersion : Z;
}.
Record OperationCreateResult := { crr_Operation : Operation; crr_Replayed : bool }.

Record EmergencyCreateCommand := {
  ec_Operation : Operation; ec_Intent : EmergencyIntent; ec_ConvergenceTask : option ConvergenceTask;
  ec_ExpectedAuthorizationVersion : Z; ec_IdempotencyScope : string; ec_IdempotencyKeyHash : string;
  ec_RequestHash : string; ec_IdempotencyExpiresAt : time;
}.
Record EmergencyCreateResult := {
  ecr_Operation : Operation; ecr_Intent : EmergencyIntent; ecr_ConvergenceTask : option ConvergenceTask;
  ecr_Replayed : bool;
}.
Record OperationCreationRequest := {
  ocr_Operation : Operation; ocr_Dispatch : option OutboxEntry; ocr_CandidateArtifactDigests : list string;
  ocr_ExpectedAuthorizationVersion : Z; ocr_Emergency : option EmergencyCreateCommand;
}.
Record OperationCreationResult := {
  ores_Operation : Operation; ores_BundleRestored : bool; ores_LinkedCandidateCount : Z;
  ores_Intent : option EmergencyIntent; ores_ConvergenceTask : option ConvergenceTask; ores_Replayed : bool;
}.

Record PreflightLifecycle := {
  pl_ID : string; pl_OperationID : option string; pl_OperationTerminalAt : option time; pl_Stages : string;
  pl_Overall : string; pl_CreatedAt : time; pl_UpdatedAt : time;
}.
Record OperationExecutionResult := {
  xr_OperationID : string; xr_ResultType : string; xr_ResultPayload : string; xr_CreatedAt : time;
}.
Record RolloutTracking := {
  rt_OperationID : string; rt_Status : string; rt_ResourceCount : Z; rt_ReadyCount : Z; rt_FailedCount : Z;
  rt_LastError : string; rt_CreatedAt : time; rt_UpdatedAt : time;
}.

(** The defaults of the emergency configuration (nanoseconds). *)
Definition DefaultEmergencyOperationTimeout : Z := 30 * nsec.
Definition DefaultEmergencyEffectObserveTimeout : Z := 24 * 3600 * nsec.

Lemma omitempty_empty k : omitempty k "" = [].
Proof. reflexivity. Qed.

(** ** Operators, their sessions and enrollment tokens (REQ-015, REQ-044) *)
Inductive ClusterStatus : Type := ClusterActive | ClusterDisabled.
#[export] Instance ClusterStatus_eq_dec : EqDecision ClusterStatus.
Proof. solve_decision. Defined.
Record Cluster := {
  kl_ID : string; kl_Name : string; kl_CustomerID : string; kl_KubeconfigRef : string; kl_Status : ClusterStatus;
  kl_CreatedAt : time; kl_UpdatedAt : time; kl_Version : Z;
}.
Inductive OperatorStatus : Type := OperatorActive | OperatorSuperseded | OperatorRevoked.
#[export] Instance OperatorStatus_eq_dec : EqDecision OperatorStatus.
Proof. solve_decision. Defined.
Record Operator := {
  o_ID : string; o_Name : string; o_CustomerID : string; o_ClusterID : string; o_CertSerial : string;
  o_CertificateExpiresAt : option time; o_Status : OperatorStatus; o_SupersededBy : string; o_SupersededAt : option time;
  o_RevokedAt : option time; o_RevokeReason : string; o_RegisteredAt : time; o_UpdatedAt : time;
}.
Inductive SessionStatus : Type := SessionOnline | SessionSuspect | SessionOffline | SessionRevoked.
#[export] Instance SessionStatus_eq_dec : EqDecision SessionStatus.
Proof. solve_decision. Defined.
Inductive SessionStatusReason : Type :=
| SessionReasonNoSession | SessionReasonHeartbeatTimeout | SessionReasonHeartbeatDelayed | SessionReasonCertRevoked
| SessionReasonOperatorSuperseded | SessionReasonSessionReplaced | SessionReasonUnknown.
#[export] Instance SessionStatusReason_eq_dec : EqDecision SessionStatusReason.
Proof. solve_decision. Defined.
Record Session := {
  sn_ID : string; sn_OperatorID : string; sn_CustomerID : string; sn_ClusterID : string; sn_Status : SessionStatus;
  sn_StatusReason : option SessionStatusReason; sn_InstanceID : string; sn_Version : string;
  sn_Capabilities : list (string * string); sn_ActiveConfigVersion : string; sn_StartedAt : time; sn_LastHeartbeat : time;
  sn_ExpiresAt : time; sn_ClosedAt : option time;
}.
Inductive EnrollmentTokenState : Type := TokenStatePending | TokenStateUsed | TokenStateExpired | TokenStateRevoked.
#[export] Instance EnrollmentTokenState_eq_dec : EqDecision EnrollmentTokenState.
Proof. solve_decision. Defined.
Record EnrollmentToken := {
  et_ID : string; et_CustomerID : string; et_ClusterID : string; et_OperatorName : string; et_TokenHash : string;
  et_State : EnrollmentTokenState; et_CreatedByDisplayName : string; et_CreatedAt : time; et_ExpiresAt : time;
  et_UsedAt : option time; et_OperatorID : string; et_RevokedAt : option time; et_ReplacedByID : string;
}.
Record CustomerEvent := { cv_ID : string; cv_CustomerID : string; cv_EventType : string; cv_CreatedAt : time }.
Record AuditEvent := {
  au_ID : string; au_ActorKind : string; au_ActorID : string; au_OrganizationID : string; au_Role : string;
  au_ResourceType : string; au_ResourceID : string; au_Action : string; au_Status : string; au_DurationMs : Z;
  au_ChangeSummary : string; au_Metadata : list (string * string); au_CreatedAt : time;
}.
