(* ===== verification/Vulnerability.v ===== *)
(** * Vulnerability gating
    (internal/vulnerability, internal/store/sqlite/vulnerability.go,
    internal/orchestrator/admission.go and vulnerability.go)

    The evaluator is written against the class [ResultStore], as the code is
    against its interface; [StoreResultStore] implements it over the two SQLite
    tables, whose rows hold JSON texts.  A [Reason] carries the data its message
    is printed from.  The environment passes the clock readings. *)
From S2P Require Import Prelude Utf8 Json JsonText Domain.
From stdpp Require Import pretty sorting.
#[local] Open Scope Z_scope.

(** ** Types (types.go, policy.go) *)
Abbreviation Severity := string (only parsing).
Definition SeverityCritical : Severity := "critical".
Definition SeverityHigh : Severity := "high".
Definition SeverityMedium : Severity := "medium".
Definition SeverityLow : Severity := "low".
Definition SeverityNone : Severity := "none".
Definition SeverityOrder_map : gmap string Z :=
  list_to_map [(SeverityCritical, 4); (SeverityHigh, 3); (SeverityMedium, 2); (SeverityLow, 1); (SeverityNone, 0)].
Definition SeverityOrder (s : Severity) : Z := default 0 (SeverityOrder_map !! s).
Record SeverityCounts := { sc_Critical : Z; sc_High : Z; sc_Medium : Z; sc_Low : Z }.
Inductive AdmissionDecision : Type := AdmissionPass | AdmissionWarn | AdmissionReject.
#[export] Instance AdmissionDecision_eq_dec : EqDecision AdmissionDecision.
Proof. solve_decision. Defined.
Record Policy := { po_PolicyVersion : string; po_MaxAge : Z; po_Thresholds : gmap string Z }.
Record Finding := { fi_ID : string; fi_Severity : Severity; fi_Summary : string }.
#[export] Instance Finding_eq_dec : EqDecision Finding.
Proof. solve_decision. Defined.
Record ScannerResult := {
  sr_ArtifactDigest : string; sr_SBOMRef : string; sr_Scanner : string; sr_ResultVersion : string;
  sr_SeverityCounts : SeverityCounts; sr_Findings : list Finding; sr_ScannedAt : time; sr_CreatedAt : time;
}.
Record Exception := {
  ex_ID : string; ex_FindingID : string; ex_ArtifactDigest : string; ex_Actor : string; ex_Reason : string;
  ex_ExpiresAt : time; ex_CreatedAt : time;
}.
Definition IsExpired (now : time) (e : Exception) : bool := negb (is_zero_time (ex_ExpiresAt e)) && (ex_ExpiresAt e <? now).
Definition MatchesFinding (findingID artifactDigest : string) (e : Exception) : bool :=
  bool_decide (ex_FindingID e = findingID)
  && (bool_decide (ex_ArtifactDigest e = "") || bool_decide (ex_ArtifactDigest e = artifactDigest)).
Definition DefaultProductionPolicy : Policy :=
  {| po_PolicyVersion := "v1"; po_MaxAge := 24 * 3600 * nsec;
     po_Thresholds := list_to_map [(SeverityCritical, 0); (SeverityHigh, 0); (SeverityMedium, 0); (SeverityLow, 0)] |}.

(** The four levels with their counts, in the order every loop uses. *)
Definition entries (c : SeverityCounts) : list (Severity * Z) :=
  [(SeverityCritical, sc_Critical c); (SeverityHigh, sc_High c); (SeverityMedium, sc_Medium c); (SeverityLow, sc_Low c)].

(** ** Scanner output is untrusted (validation.go) *)
Inductive vuln_error : Type :=
| VErrNilResult
| VErrNegativeCount (severity : Severity) (count : Z)
| VErrUntracked (index : nat) (severity : Severity)
| VErrDecodeSeverity                 (* unmarshal severity: ... *)
| VErrDecodeFindings                 (* unmarshal findings: ... *)
| VErrStore (text : string).
Definition trackedSeverities : list Severity := [SeverityCritical; SeverityHigh; SeverityMedium; SeverityLow].
Definition isTrackedSeverity (s : Severity) : bool := bool_decide (s ∈ trackedSeverities).
Definition validateSeverityCounts (counts : SeverityCounts) : option vuln_error :=
  match find (λ e, e.2 <? 0) (entries counts) with
  | Some (s, n) => Some (VErrNegativeCount s n)
  | None => None
  end.
Fixpoint first_untracked (index : nat) (findings : list Finding) : option vuln_error :=
  match findings with
  | [] => None
  | f :: findings =>
      if isTrackedSeverity (fi_Severity f) then first_untracked (S index) findings
      else Some (VErrUntracked index (fi_Severity f))
  end.
Definition validateScannerResult (result : option ScannerResult) : option vuln_error :=
  match result with
  | None => Some VErrNilResult
  | Some r =>
      match validateSeverityCounts (sr_SeverityCounts r) with
      | Some e => Some e
      | None => first_untracked 0 (sr_Findings r)
      end
  end.

(** ** The evaluator (evaluator.go) *)
Inductive Reason : Type :=
| ReasonNone
| ReasonDigestMissing | ReasonSBOMMissing | ReasonNoScan            (* sbom_missing: ... *)
| ReasonScannerUnavailable (e : vuln_error) | ReasonNoEvaluator     (* scanner_unavailable: ... *)
| ReasonScanStale
| ReasonUntrackedFinding (id : string) (severity : Severity)         (* invalid_scan_result: ... *)
| ReasonCountMismatch (found : Z) (severity : Severity) (reported threshold : Z)
| ReasonCountsExceed                                                (* vulnerability_policy_failed: ... *)
| ReasonFindingsExceed (n : nat).
Record AdmissionResult := {
  ar_Decision : AdmissionDecision; ar_PolicyVersion : string; ar_Reason : Reason;
  ar_OverThreshold : list Finding; ar_EvaluatedAt : time;
}.
(** The persistence contract. *)
Class ResultStore (St : Type) := {
  GetLatest : St → string → string → res vuln_error (option ScannerResult);
  GetExceptions : St → string → res vuln_error (list Exception);
}.
Record Evaluator (St : Type) := { ev_store : St; ev_scanner_name : string; ev_policy : Policy }.
Arguments ev_store {_} _.
Arguments ev_scanner_name {_} _.
Arguments ev_policy {_} _.

(** [now.Sub(t)] saturates at the bounds of a Duration. *)
Definition duration_sub (a b : time) : Z :=
  Z.max (-9223372036854775808) (Z.min 9223372036854775807 (a - b)).
Definition isStale (p : Policy) (scannedAt now : time) : bool :=
  is_zero_time scannedAt || (po_MaxAge p <? duration_sub now scannedAt).
Definition findingCount (s : Severity) (findings : list Finding) : Z :=
  Z.of_nat (length (filter (λ f, fi_Severity f = s) findings)).
(** The first level whose findings exceed a threshold its count does not. *)
Definition mismatch (p : Policy) (findings : list Finding) (entry : Severity * Z) : option Reason :=
  match po_Thresholds p !! entry.1 with
  | None => None
  | Some threshold =>
      if (threshold <? findingCount entry.1 findings) && (entry.2 <=? threshold)
      then Some (ReasonCountMismatch (findingCount entry.1 findings) entry.1 entry.2 threshold) else None
  end.
Definition uncertifiableReason (p : Policy) (result : ScannerResult) : option Reason :=
  match find (λ f, negb (isTrackedSeverity (fi_Severity f))) (sr_Findings result) with
  | Some f => Some (ReasonUntrackedFinding (fi_ID f) (fi_Severity f))
  | None => head (omap (mismatch p (sr_Findings result)) (entries (sr_SeverityCounts result)))
  end.
Definition isOverThreshold (p : Policy) (counts : SeverityCounts) : bool :=
  existsb (λ e, match po_Thresholds p !! e.1 with Some threshold => threshold <? e.2 | None => false end) (entries counts).
Definition filterFindingsByThreshold (p : Policy) (findings : list Finding) : list Finding :=
  filter (λ f, is_Some (po_Thresholds p !! fi_Severity f)) findings.
Definition getActiveExceptions `{ResultStore St} (st : St) (now : time) (artifactDigest : string) : res vuln_error (list Exception) :=
  match GetExceptions st artifactDigest with
  | Err e => Err e
  | Ok all => Ok (filter (λ e, IsExpired now e = false) all)
  end.
Definition filterByExceptions (findings : list Finding) (excs : list Exception) (artifactDigest : string) : list Finding :=
  filter (λ f, existsb (MatchesFinding (fi_ID f) artifactDigest) excs = false) findings.
(** [sort.Slice]: most severe first, then by id. *)
Definition summary_le (a b : Finding) : Prop :=
  SeverityOrder (fi_Severity b) < SeverityOrder (fi_Severity a)
  ∨ (SeverityOrder (fi_Severity a) = SeverityOrder (fi_Severity b) ∧ string_leb (fi_ID a) (fi_ID b) = true).
#[export] Instance summary_le_dec a b : Decision (summary_le a b).
Proof. unfold summary_le. apply _. Defined.
Definition toSummaries (findings : list Finding) : list Finding := merge_sort summary_le findings.

Definition admission (p : Policy) (now : time) (d : AdmissionDecision) (reason : Reason) (over : list Finding) : AdmissionResult :=
  {| ar_Decision := d; ar_PolicyVersion := po_PolicyVersion p; ar_Reason := reason; ar_OverThreshold := over; ar_EvaluatedAt := now |}.
(** [now] and [later] are the two readings of the clock. *)
Definition Evaluate `{ResultStore St} (e : Evaluator St) (now later : time) (artifactDigest sbomRef : string)
    : res vuln_error AdmissionResult :=
  let p := ev_policy e in
  let reject reason := Ok (admission p now AdmissionReject reason []) in
  if bool_decide (artifactDigest = "") then reject ReasonDigestMissing
  else if bool_decide (sbomRef = "") then reject ReasonSBOMMissing
  else
    match GetLatest (ev_store e) artifactDigest (ev_scanner_name e) with
    | Err err => reject (ReasonScannerUnavailable err)
    | Ok None => reject ReasonNoScan
    | Ok (Some result) =>
        if isStale p (sr_ScannedAt result) now then reject ReasonScanStale
        else
          match uncertifiableReason p result with
          | Some reason => reject reason
          | None =>
              if negb (isOverThreshold p (sr_SeverityCounts result)) then Ok (admission p now AdmissionPass ReasonNone [])
              else if bool_decide (sr_Findings result = []) then reject ReasonCountsExceed
              else
                match getActiveExceptions (ev_store e) later artifactDigest with
                | Err err => Err err
                | Ok act =>
                    let uncovered := filterByExceptions (filterFindingsByThreshold p (sr_Findings result)) act artifactDigest in
                    if bool_decide (uncovered = []) then Ok (admission p now AdmissionPass ReasonNone [])
                    else Ok (admission p now AdmissionReject (ReasonFindingsExceed (length uncovered)) (toSummaries uncovered))
                end
          end
    end.

(** ** Rows (store/sqlite/vulnerability.go, service.go)

    A column written with RFC3339 keeps whole seconds. *)
Record ScanResultRecord := {
  rr_ID : string; rr_ArtifactDigest : string; rr_SBOMRef : string; rr_Scanner : string; rr_ResultVersion : string;
  rr_SeverityJSON : string; rr_FindingsJSON : string; rr_ScannedAt : time; rr_CreatedAt : time;
}.
Record VulnDB := { vd_scan_results : list ScanResultRecord; vd_exceptions : list Exception }.
Definition scan_row_columns (created : time) (r : ScanResultRecord) : ScanResultRecord :=
  {| rr_ID := rr_ID r; rr_ArtifactDigest := rr_ArtifactDigest r; rr_SBOMRef := rr_SBOMRef r; rr_Scanner := rr_Scanner r;
     rr_ResultVersion := rr_ResultVersion r; rr_SeverityJSON := rr_SeverityJSON r; rr_FindingsJSON := rr_FindingsJSON r;
     rr_ScannedAt := rfc3339 (if is_zero_time (rr_ScannedAt r) then created else rr_ScannedAt r); rr_CreatedAt := rfc3339 created |}.
(** scanResultStore.Create *)
Definition Create_scan (now : time) (r : ScanResultRecord) (db : VulnDB) : res vuln_error VulnDB :=
  let created := if is_zero_time (rr_CreatedAt r) then now else rr_CreatedAt r in
  if existsb (λ x, bool_decide (rr_ID x = rr_ID r)) (vd_scan_results db) then Err (VErrStore "insert scan result")
  else Ok {| vd_scan_results := vd_scan_results db ++ [scan_row_columns created r]; vd_exceptions := vd_exceptions db |}.
(** scanResultStore.GetLatest; rows of one second are in the order of insertion. *)
Definition latest_le (a b : ScanResultRecord) : Prop := rr_CreatedAt b ≤ rr_CreatedAt a.
#[export] Instance latest_le_dec a b : Decision (latest_le a b).
Proof. unfold latest_le. apply _. Defined.
Definition GetLatest_scan (artifactDigest scanner : string) (db : VulnDB) : option ScanResultRecord :=
  head (merge_sort latest_le (filter (λ r, rr_ArtifactDigest r = artifactDigest ∧ rr_Scanner r = scanner) (vd_scan_results db))).
(** vulnerabilityExceptionStore *)
Definition exception_row (created : time) (e : Exception) : Exception :=
  {| ex_ID := ex_ID e; ex_FindingID := ex_FindingID e; ex_ArtifactDigest := ex_ArtifactDigest e; ex_Actor := ex_Actor e;
     ex_Reason := ex_Reason e; ex_ExpiresAt := rfc3339 (ex_ExpiresAt e); ex_CreatedAt := rfc3339 created |}.
Definition Create_exception (now : time) (e : Exception) (db : VulnDB) : res vuln_error VulnDB :=
  let created := if is_zero_time (ex_CreatedAt e) then now else ex_CreatedAt e in
  if existsb (λ x, bool_decide (ex_ID x = ex_ID e)) (vd_exceptions db) then Err (VErrStore "insert vulnerability exception")
  else Ok {| vd_scan_results := vd_scan_results db; vd_exceptions := vd_exceptions db ++ [exception_row created e] |}.
Definition exception_le (a b : Exception) : Prop := ex_CreatedAt b ≤ ex_CreatedAt a.
#[export] Instance exception_le_dec a b : Decision (exception_le a b).
Proof. unfold exception_le. apply _. Defined.
Definition ListByArtifact (artifactDigest : string) (db : VulnDB) : list Exception :=
  merge_sort exception_le (filter (λ e, ex_ArtifactDigest e = artifactDigest) (vd_exceptions db)).
Definition Get_exception (id : string) (db : VulnDB) : option Exception :=
  find (λ e, bool_decide (ex_ID e = id)) (vd_exceptions db).

(** The JSON of the two columns. *)
Definition counts_json (c : SeverityCounts) : json :=
  JObj [("critical", JNum (sc_Critical c)); ("high", JNum (sc_High c)); ("medium", JNum (sc_Medium c)); ("low", JNum (sc_Low c))].
Definition finding_json (f : Finding) : json :=
  JObj [("id", JStr (fi_ID f)); ("severity", JStr (fi_Severity f)); ("summary", JStr (fi_Summary f))].
(** A nil slice is written as null. *)
Definition findings_json (l : list Finding) : json := match l with [] => JNull | _ => JArr (finding_json <$> l) end.
(** [DisallowUnknownFields] *)
Definition decode_counts (j : json) : option SeverityCounts :=
  match j with
  | JNull => Some {| sc_Critical := 0; sc_High := 0; sc_Medium := 0; sc_Low := 0 |}
  | JObj fields =>
      if forallb (λ kv, existsb (λ s, key_matches s kv.1) trackedSeverities) fields then
        match decode_int_field "critical" fields 0, decode_int_field "high" fields 0,
              decode_int_field "medium" fields 0, decode_int_field "low" fields 0 with
        | Some c, Some h, Some m, Some l => Some {| sc_Critical := c; sc_High := h; sc_Medium := m; sc_Low := l |}
        | _, _, _, _ => None
        end
      else None
  | _ => None
  end.
(** A [json.Decoder] reads one value and ignores what follows it. *)
Definition decode_prefix (s : string) : option json :=
  let l := str s in fst <$> parse_value (2 * length l + 2) l.
Definition decodeSeverityCounts (s : string) : res vuln_error SeverityCounts :=
  if bool_decide (s = "") then Ok {| sc_Critical := 0; sc_High := 0; sc_Medium := 0; sc_Low := 0 |}
  else
    match decode_prefix s with
    | None => Err VErrDecodeSeverity
    | Some j =>
        match decode_counts j with
        | None => Err VErrDecodeSeverity
        | Some c => match validateSeverityCounts c with Some e => Err e | None => Ok c end
        end
    end.
Definition decode_finding (j : json) : option Finding :=
  match j with
  | JNull => Some {| fi_ID := ""; fi_Severity := ""; fi_Summary := "" |}
  | JObj fields =>
      match decode_string_field "id" fields "", decode_string_field "severity" fields "", decode_string_field "summary" fields "" with
      | Some i, Some s, Some t => Some {| fi_ID := i; fi_Severity := s; fi_Summary := t |}
      | _, _, _ => None
      end
  | _ => None
  end.
Definition decode_findings (s : string) : res vuln_error (list Finding) :=
  if bool_decide (s = "") then Ok []
  else
    match parse_json s with
    | Some JNull => Ok []
    | Some (JArr l) => match mapM decode_finding l with Some fs => Ok fs | None => Err VErrDecodeFindings end
    | _ => Err VErrDecodeFindings
    end.
Definition scanResultRecord (r : ScannerResult) : ScanResultRecord :=
  {| rr_ID := sr_ArtifactDigest r ++ ":" ++ sr_Scanner r ++ ":" ++ sr_ResultVersion r;
     rr_ArtifactDigest := sr_ArtifactDigest r; rr_SBOMRef := sr_SBOMRef r; rr_Scanner := sr_Scanner r;
     rr_ResultVersion := sr_ResultVersion r; rr_SeverityJSON := json_text (counts_json (sr_SeverityCounts r));
     rr_FindingsJSON := json_text (findings_json (sr_Findings r)); rr_ScannedAt := sr_ScannedAt r; rr_CreatedAt := sr_CreatedAt r |}.

(** StoreResultStore *)
Definition StoreResultStore_GetLatest (db : VulnDB) (artifactDigest scanner : string) : res vuln_error (option ScannerResult) :=
  match GetLatest_scan artifactDigest scanner db with
  | None => Ok None
  | Some rec =>
      match decodeSeverityCounts (rr_SeverityJSON rec), decode_findings (rr_FindingsJSON rec) with
      | Err e, _ => Err e
      | Ok _, Err e => Err e
      | Ok counts, Ok findings =>
          Ok (Some {| sr_ArtifactDigest := rr_ArtifactDigest rec; sr_SBOMRef := rr_SBOMRef rec; sr_Scanner := rr_Scanner rec;
                      sr_ResultVersion := rr_ResultVersion rec; sr_SeverityCounts := counts; sr_Findings := findings;
                      sr_ScannedAt := rr_ScannedAt rec; sr_CreatedAt := rr_CreatedAt rec |})
      end
  end.
Definition StoreResultStore_GetExceptions (db : VulnDB) (artifactDigest : string) : res vuln_error (list Exception) :=
  Ok (ListByArtifact artifactDigest db).
#[export] Instance StoreResultStore : ResultStore VulnDB :=
  {| GetLatest := StoreResultStore_GetLatest; GetExceptions := StoreResultStore_GetExceptions |}.
(** SaveResult and Service.SaveScanResult *)
Definition SaveResult (now : time) (result : option ScannerResult) (db : VulnDB) : res vuln_error VulnDB :=
  match validateScannerResult result, result with
  | Some e, _ => Err e
  | None, Some r => Create_scan now (scanResultRecord r) db
  | None, None => Err VErrNilResult
  end.
(** Service.CreateException *)
Definition CreateException (now later created : time) (findingID artifactDigest actor reason : string) (expiresAt : time) (db : VulnDB)
    : res vuln_error (Exception * VulnDB) :=
  let exc := {| ex_ID := "exc-" ++ findingID ++ "-" ++ pretty now; ex_FindingID := findingID; ex_ArtifactDigest := artifactDigest;
                ex_Actor := actor; ex_Reason := reason; ex_ExpiresAt := expiresAt; ex_CreatedAt := later |} in
  match Create_exception created exc db with Ok db' => Ok (exc, db') | Err e => Err e end.
(** Service.Evaluate *)
Definition Service_Evaluate `{ResultStore St} (e : option (Evaluator St)) (now later : time) (artifactDigest sbomRef : string)
    : res vuln_error AdmissionResult :=
  match e with
  | None => Ok {| ar_Decision := AdmissionReject; ar_PolicyVersion := ""; ar_Reason := ReasonNoEvaluator; ar_OverThreshold := [];
                  ar_EvaluatedAt := now |}
  | Some e => Evaluate e now later artifactDigest sbomRef
  end.

(** ** Artifact admission (orchestrator/admission.go) *)
Abbreviation AdmissionMode := string (only parsing).
Definition AdmissionOff : AdmissionMode := "off".
Definition AdmissionShadow : AdmissionMode := "shadow".
Definition AdmissionEnforce : AdmissionMode := "enforce".
Inductive admissionOutcome : Type := outcomePass | outcomeWarn | outcomeReject | outcomeUnavailable.
Definition ReasonAdmissionUnavailable : string := "vulnerability_policy_unavailable".
Definition ReasonAdmissionRejected : string := "vulnerability_policy_failed".
Record admissionVerdict := { av_allow : bool; av_reason : string; av_evidence : string }.
Definition allowed : admissionVerdict := {| av_allow := true; av_reason := ""; av_evidence := "" |}.
Definition applyAdmissionMode (mode : AdmissionMode) (outcome : admissionOutcome) : admissionVerdict :=
  if bool_decide (mode = AdmissionOff) then allowed
  else if bool_decide (mode = AdmissionEnforce) then
    match outcome with
    | outcomeReject => {| av_allow := false; av_reason := ReasonAdmissionRejected; av_evidence := "blocked" |}
    | outcomeUnavailable => {| av_allow := false; av_reason := ReasonAdmissionUnavailable; av_evidence := "blocked" |}
    | _ => allowed
    end
  else
    match outcome with
    | outcomeReject => {| av_allow := true; av_reason := ReasonAdmissionRejected; av_evidence := "would_block" |}
    | outcomeUnavailable => {| av_allow := true; av_reason := ReasonAdmissionUnavailable; av_evidence := "would_block" |}
    | _ => allowed
    end.
(** The counters are uint64. *)
Record AdmissionMetrics := { am_allowed : Z; am_wouldBlock : Z; am_blocked : Z; am_skipped : Z }.
Definition incr (n : Z) : Z := (n + 1) mod 2 ^ 64.
Definition count_allowed (m : AdmissionMetrics) : AdmissionMetrics :=
  {| am_allowed := incr (am_allowed m); am_wouldBlock := am_wouldBlock m; am_blocked := am_blocked m; am_skipped := am_skipped m |}.
Definition count_wouldBlock (m : AdmissionMetrics) : AdmissionMetrics :=
  {| am_allowed := am_allowed m; am_wouldBlock := incr (am_wouldBlock m); am_blocked := am_blocked m; am_skipped := am_skipped m |}.
Definition count_blocked (m : AdmissionMetrics) : AdmissionMetrics :=
  {| am_allowed := am_allowed m; am_wouldBlock := am_wouldBlock m; am_blocked := incr (am_blocked m); am_skipped := am_skipped m |}.
Definition count_skipped (m : AdmissionMetrics) : AdmissionMetrics :=
  {| am_allowed := am_allowed m; am_wouldBlock := am_wouldBlock m; am_blocked := am_blocked m; am_skipped := incr (am_skipped m) |}.
(** The actor of the request, as far as the audit event uses it. *)
Record AdmissionActor := { aa_UserID : string; aa_OrganizationID : string; aa_Service : string; aa_Roles : list string }.
Record AdmissionAudit := {
  ad_ActorService : bool; ad_ActorID : string; ad_OrganizationID : string; ad_Role : string; ad_ArtifactDigest : string;
  ad_SBOMRef : string; ad_Mode : string; ad_Outcome : string; ad_Reason : string; ad_PolicyVersion : string;
}.
(** The part of the Service the admission step uses. *)
Record AdmissionService (St : Type) := {
  as_mode : AdmissionMode; as_vulnEval : option (Evaluator St); as_counters : AdmissionMetrics; as_audits : list AdmissionAudit;
}.
Arguments as_mode {_} _.
Arguments as_vulnEval {_} _.
Arguments as_counters {_} _.
Arguments as_audits {_} _.
Definition record_admission {St} (m : AdmissionMetrics) (audits : list AdmissionAudit) (s : AdmissionService St) : AdmissionService St :=
  {| as_mode := as_mode s; as_vulnEval := as_vulnEval s; as_counters := m; as_audits := audits |}.
(** Why no decision was made. *)
Inductive unavailable_cause : Type := CauseNoDigest | CauseNoEvaluator | CauseEvaluation (e : vuln_error).
Definition evaluateArtifact `{ResultStore St} (s : AdmissionService St) (now later : time) (artifactDigest sbomRef : string)
    : admissionOutcome * string * option unavailable_cause :=
  if bool_decide (artifactDigest = "") then (outcomeUnavailable, "", Some CauseNoDigest)
  else
    match as_vulnEval s with
    | None => (outcomeUnavailable, "", Some CauseNoEvaluator)
    | Some e =>
        match Evaluate e now later artifactDigest sbomRef with
        | Err err => (outcomeUnavailable, "", Some (CauseEvaluation err))
        | Ok r =>
            match ar_Decision r with
            | AdmissionPass => (outcomePass, ar_PolicyVersion r, None)
            | AdmissionWarn => (outcomeWarn, ar_PolicyVersion r, None)
            | AdmissionReject => (outcomeReject, ar_PolicyVersion r, None)
            end
        end
    end.
Definition admission_audit (actor : option AdmissionActor) (artifactDigest sbomRef : string) (mode : AdmissionMode)
    (verdict : admissionVerdict) (policyVersion : string) : AdmissionAudit :=
  let service := match actor with Some a => negb (bool_decide (aa_Service a = "")) | None => false end in
  {| ad_ActorService := service;
     ad_ActorID := match actor with Some a => if service then aa_Service a else aa_UserID a | None => "" end;
     ad_OrganizationID := match actor with Some a => aa_OrganizationID a | None => "" end;
     ad_Role := match actor with Some a => default "" (head (aa_Roles a)) | None => "" end;
     ad_ArtifactDigest := artifactDigest; ad_SBOMRef := sbomRef; ad_Mode := mode; ad_Outcome := av_evidence verdict;
     ad_Reason := av_reason verdict; ad_PolicyVersion := policyVersion |}.
Inductive admission_error : Type :=
| CodeFailedPrecondition (reason : string) (cause : option unavailable_cause)
| CodeUnavailable (reason : string) (cause : option unavailable_cause).
(** [None] is the nil error: the release may proceed. *)
Definition EvaluateArtifactAdmission `{ResultStore St} (actor : option AdmissionActor) (now later : time)
    (artifactDigest sbomRef : string) (s : AdmissionService St) : option admission_error * AdmissionService St :=
  let mode := if bool_decide (as_mode s = "") then AdmissionShadow else as_mode s in
  let m := as_counters s in
  if bool_decide (mode = AdmissionOff) then (None, record_admission (count_skipped m) (as_audits s) s)
  else
    let '(outcome, policyVersion, cause) := evaluateArtifact s now later artifactDigest sbomRef in
    let verdict := applyAdmissionMode mode outcome in
    let audits := (as_audits s ++ [admission_audit actor artifactDigest sbomRef mode verdict policyVersion])%list in
    if bool_decide (av_evidence verdict = "would_block") then (None, record_admission (count_wouldBlock m) audits s)
    else if bool_decide (av_evidence verdict = "blocked") then
      (Some (if bool_decide (av_reason verdict = ReasonAdmissionUnavailable) then CodeUnavailable (av_reason verdict) cause
             else CodeFailedPrecondition (av_reason verdict) cause),
       record_admission (count_blocked m) audits s)
    else (None, record_admission (count_allowed m) (as_audits s) s).
(** The images of a bundle, in order, until one is refused (service.go); each
    comes with the clock readings of its evaluation. *)
Fixpoint admit_images `{ResultStore St} (actor : option AdmissionActor) (sbomRef : string) (images : list (string * time * time))
    (s : AdmissionService St) : option admission_error * AdmissionService St :=
  match images with
  | [] => (None, s)
  | (digest, now, later) :: images =>
      match EvaluateArtifactAdmission actor now later digest sbomRef s with
      | (None, s) => admit_images actor sbomRef images s
      | (Some e, s) => (Some e, s)
      end
  end.
(** EvaluateArtifactVulnerability, the older seam: [inl] is an error. *)
Inductive legacy_error : Type := LegacyUnavailable | LegacyEvaluation (e : vuln_error) | LegacyRejected (r : Reason).
Definition EvaluateArtifactVulnerability `{ResultStore St} (e : option (Evaluator St)) (now later : time) (artifactDigest sbomRef : string)
    : option legacy_error :=
  match e with
  | None => Some LegacyUnavailable
  | Some e =>
      match Evaluate e now later artifactDigest sbomRef with
      | Err err => Some (LegacyEvaluation err)
      | Ok r => match ar_Decision r with AdmissionReject => Some (LegacyRejected (ar_Reason r)) | _ => None end
      end
  end.

(** ** When the gate passes *)
Section evaluate.
Context `{ResultStore St} (e : Evaluator St).
Abbreviation p := (ev_policy e).

(** Every reported count is within its threshold. *)
Definition within_thresholds (p : Policy) (c : SeverityCounts) : Prop :=
  ∀ s n threshold, (s, n) ∈ entries c → po_Thresholds p !! s = Some threshold → n ≤ threshold.
(** Some exception that has not expired covers the finding. *)
Definition covered (excs : list Exception) (now : time) (artifactDigest : string) (f : Finding) : Prop :=
  ∃ x, x ∈ excs ∧ IsExpired now x = false ∧ MatchesFinding (fi_ID f) artifactDigest x = true.
(** What a passing evaluation has found. *)
Definition certified (now later : time) (artifactDigest sbomRef : string) : Prop :=
  artifactDigest ≠ "" ∧ sbomRef ≠ "" ∧
  ∃ r, GetLatest (ev_store e) artifactDigest (ev_scanner_name e) = Ok (Some r) ∧ isStale p (sr_ScannedAt r) now = false ∧
    uncertifiableReason p r = None ∧
    (within_thresholds p (sr_SeverityCounts r) ∨
     sr_Findings r ≠ [] ∧ ∃ excs, GetExceptions (ev_store e) artifactDigest = Ok excs ∧
       ∀ f, f ∈ sr_Findings r → is_Some (po_Thresholds p !! fi_Severity f) → covered excs later artifactDigest f).

Lemma isOverThreshold_false c : isOverThreshold p c = false ↔ within_thresholds p c.
Proof.
  unfold isOverThreshold, within_thresholds. rewrite existsb_false_forall, Forall_forall. split.
  - intros Hall s n t Hin Ht. specialize (Hall _ Hin). simpl in Hall. rewrite Ht in Hall. lia.
  - intros Hall [s n] Hin. simpl. destruct (po_Thresholds p !! s) as [t|] eqn:E; [|done]. specialize (Hall s n t Hin E). lia.
Qed.
Lemma uncovered_nil findings excs later d :
  filterByExceptions (filterFindingsByThreshold p findings) (filter (λ x, IsExpired later x = false) excs) d = [] ↔
  ∀ f, f ∈ findings → is_Some (po_Thresholds p !! fi_Severity f) → covered excs later d f.
Proof.
  unfold filterByExceptions, filterFindingsByThreshold. split.
  - intros Hnil f Hf Ht. destruct (existsb (MatchesFinding (fi_ID f) d) (filter (λ x, IsExpired later x = false) excs)) eqn:E.
    + apply existsb_elem in E as (x & Hx & Hm). apply list_elem_of_filter in Hx as [Hexp Hx]. by exists x.
    + exfalso. refine (filter_nil_not_elem_of _ _ f Hnil E _). by apply list_elem_of_filter.
  - intros Hall. destruct (filter _ (filter _ findings)) as [|f l] eqn:E; [done|exfalso].
    assert (Hin : f ∈ filter (λ f, existsb (MatchesFinding (fi_ID f) d) (filter (λ x, IsExpired later x = false) excs) = false)
      (filter (λ f, is_Some (po_Thresholds p !! fi_Severity f)) findings)) by (rewrite E; left).
    apply list_elem_of_filter in Hin as [Hno [Ht Hf]%list_elem_of_filter]. destruct (Hall f Hf Ht) as (x & Hx & Hexp & Hm).
    rewrite existsb_false_forall, Forall_forall in Hno. rewrite (Hno x) in Hm; [done|]. by apply list_elem_of_filter.
Qed.
Lemma Evaluate_never_warns now later d sbom r : Evaluate e now later d sbom = Ok r → ar_Decision r ≠ AdmissionWarn.
Proof.
  unfold Evaluate. case_bool_decide; [by intros [= <-]|]. case_bool_decide; [by intros [= <-]|].
  destruct (GetLatest _ _ _) as [[res|]|]; [|by intros [= <-]..]. destruct (isStale _ _ _); [by intros [= <-]|].
  destruct (uncertifiableReason _ _); [by intros [= <-]|]. destruct (negb _); [by intros [= <-]|].
  case_bool_decide; [by intros [= <-]|]. destruct (getActiveExceptions _ _ _); [|done]. case_bool_decide; by intros [= <-].
Qed.
Lemma Evaluate_pass_spec now later d sbom :
  (∃ r, Evaluate e now later d sbom = Ok r ∧ ar_Decision r = AdmissionPass) ↔ certified now later d sbom.
Proof.
  unfold Evaluate, certified. split.
  - intros (r & Hr & Hd). revert Hr. case_bool_decide; [by intros [= <-]|]. case_bool_decide; [by intros [= <-]|].
    destruct (GetLatest _ _ _) as [[res|]|]; [|by intros [= <-]..]. destruct (isStale _ _ _) eqn:Es; [by intros [= <-]|].
    destruct (uncertifiableReason _ _) eqn:Eu; [by intros [= <-]|]. intros Hr. split_and!; [done..|]. exists res. split_and!; [done..|].
    destruct (isOverThreshold _ _) eqn:Eo; simpl in Hr; [right|left; by apply isOverThreshold_false].
    case_bool_decide as Hf; [by injection Hr as <-|]. split; [done|]. unfold getActiveExceptions in Hr.
    destruct (GetExceptions _ _) as [excs|]; [|done]. exists excs. split; [done|]. apply uncovered_nil.
    case_bool_decide as Hn; [done|by injection Hr as <-].
  - intros (H1 & H2 & res & -> & -> & -> & Hw). rewrite !bool_decide_false by done.
    destruct (isOverThreshold _ _) eqn:Eo; simpl; [|by eexists]. destruct Hw as [Hw|(Hf & excs & Hx & Hall)].
    { apply isOverThreshold_false in Hw. congruence. }
    rewrite bool_decide_false by done. unfold getActiveExceptions. rewrite Hx. apply uncovered_nil in Hall as ->. by eexists.
Qed.
End evaluate.

(** ** Saved results are read back *)
Definition text_result (r : ScannerResult) : Prop :=
  Forall (λ f, valid_text (fi_ID f) ∧ valid_text (fi_Severity f) ∧ valid_text (fi_Summary f)) (sr_Findings r) ∧
  Forall (λ e, is_int64 e.2 = true) (entries (sr_SeverityCounts r)).
Lemma decode_prefix_text j : readable j → decode_prefix (json_text j) = Some j.
Proof.
  intros Hj. unfold decode_prefix. pose proof (readable_reads j Hj (2 * length (str (json_text j)) + 2)%nat [] I ltac:(lia)) as H.
  rewrite app_nil_r in H. by rewrite H.
Qed.
Lemma counts_read_back c : Forall (λ e, is_int64 e.2 = true) (entries c) → validateSeverityCounts c = None →
  decodeSeverityCounts (json_text (counts_json c)) = Ok c.
Proof.
  intros Hi Hv. unfold decodeSeverityCounts. rewrite bool_decide_false by done. rewrite decode_prefix_text.
  - unfold entries in Hi. apply Forall_cons in Hi as [H1 Hi]. apply Forall_cons in Hi as [H2 Hi]. apply Forall_cons in Hi as [H3 Hi].
    apply Forall_cons in Hi as [H4 _]. simpl in H1, H2, H3, H4. destruct c as [a b m l]. simpl in *. rewrite H1, H2, H3, H4. by rewrite Hv.
  - simpl. repeat split; apply ascii_text; repeat constructor.
Qed.
Lemma finding_read_back f : decode_finding (finding_json f) = Some f.
Proof. by destruct f. Qed.
Lemma findings_read_back l :
  Forall (λ f, valid_text (fi_ID f) ∧ valid_text (fi_Severity f) ∧ valid_text (fi_Summary f)) l →
  decode_findings (json_text (findings_json l)) = Ok l.
Proof.
  intros Hl. unfold decode_findings. destruct l as [|f l]; [done|].
  assert (Hr : readable (findings_json (f :: l))).
  { unfold findings_json. simpl. apply Forall_cons in Hl as [(H1 & H2 & H3) Hl]. split.
    - repeat split; try done; apply ascii_text; repeat constructor.
    - induction Hl as [|g k (? & ? & ?) _ IH]; simpl; [done|]. split; [|done]. repeat split; try done; apply ascii_text; repeat constructor. }
  destruct (json_text_starts _ Hr) as (c & k & Hs & _). rewrite bool_decide_false by (intros E; by rewrite E in Hs).
  rewrite parse_json_text by done. unfold findings_json.
  assert (Hm : mapM decode_finding (finding_json <$> (f :: l)) = Some (f :: l)); [|by rewrite Hm].
  generalize (f :: l). clear. induction l as [|g l IH]; [done|]. rewrite fmap_cons. cbn [mapM]. rewrite finding_read_back. simpl. by rewrite IH.
Qed.

(** The result as the columns keep it. *)
Definition stored_result (now : time) (r : ScannerResult) : ScannerResult :=
  let created := if is_zero_time (sr_CreatedAt r) then now else sr_CreatedAt r in
  {| sr_ArtifactDigest := sr_ArtifactDigest r; sr_SBOMRef := sr_SBOMRef r; sr_Scanner := sr_Scanner r;
     sr_ResultVersion := sr_ResultVersion r; sr_SeverityCounts := sr_SeverityCounts r; sr_Findings := sr_Findings r;
     sr_ScannedAt := rfc3339 (if is_zero_time (sr_ScannedAt r) then created else sr_ScannedAt r); sr_CreatedAt := rfc3339 created |}.
Lemma head_newest (rows : list ScanResultRecord) row :
  (∀ x, x ∈ rows → rr_CreatedAt x < rr_CreatedAt row) → head (merge_sort latest_le (rows ++ [row])) = Some row.
Proof.
  intros Hlt. pose proof (merge_sort_Permutation latest_le (rows ++ [row])) as Hp.
  assert (Hs : StronglySorted latest_le (merge_sort latest_le (rows ++ [row]))).
  { apply Sorted_StronglySorted; [intros a b c; unfold latest_le; lia|]. apply Sorted_merge_sort. intros a b. unfold latest_le. lia. }
  destruct (merge_sort latest_le (rows ++ [row])) as [|x l] eqn:E; [apply Permutation_nil in Hp; by destruct rows|].
  simpl. f_equal. assert (Hx : x ∈ rows ++ [row]) by (rewrite <- Hp; left).
  apply elem_of_app in Hx as [Hx| ->%list_elem_of_singleton]; [exfalso|done].
  assert (Hr : row ∈ x :: l) by (rewrite Hp; apply elem_of_app; right; left). specialize (Hlt x Hx).
  apply elem_of_cons in Hr as [->|Hr]; [lia|]. apply StronglySorted_inv in Hs as [_ Hs]. rewrite Forall_forall in Hs.
  specialize (Hs row Hr). unfold latest_le in Hs. lia.
Qed.
Lemma first_untracked_None n l : first_untracked n l = None ↔ Forall (λ f, isTrackedSeverity (fi_Severity f) = true) l.
Proof.
  revert n. induction l as [|f l IH]; intros n; simpl; [split; [constructor|done]|]. rewrite Forall_cons, <- (IH (S n)).
  destruct (isTrackedSeverity _); naive_solver.
Qed.
Lemma SaveResult_Ok now r db db' :
  SaveResult now (Some r) db = Ok db' →
  validateSeverityCounts (sr_SeverityCounts r) = None ∧ Forall (λ f, isTrackedSeverity (fi_Severity f) = true) (sr_Findings r) ∧
  Create_scan now (scanResultRecord r) db = Ok db'.
Proof.
  unfold SaveResult, validateScannerResult. destruct (validateSeverityCounts _); [done|].
  destruct (first_untracked 0 _) eqn:E; [done|]. intros H. split_and!; [done|by eapply first_untracked_None|done].
Qed.

(** A scan result that is accepted has only tracked severities and no
    negative count, and is what the evaluator then reads for its artifact and
    scanner, up to whole seconds, as long as no other result of that pair is as
    recent. *)
Theorem saved_result_read_back now r db db' :
  text_result r → SaveResult now (Some r) db = Ok db' →
  (∀ x, x ∈ vd_scan_results db → rr_ArtifactDigest x = sr_ArtifactDigest r → rr_Scanner x = sr_Scanner r →
     rr_CreatedAt x < sr_CreatedAt (stored_result now r)) →
  Forall (λ f, fi_Severity f ∈ trackedSeverities) (sr_Findings r) ∧ (∀ s n, (s, n) ∈ entries (sr_SeverityCounts r) → 0 ≤ n) ∧
  GetLatest db' (sr_ArtifactDigest r) (sr_Scanner r) = Ok (Some (stored_result now r)).
Proof.
  intros [Ht Hi] H Hnew. apply SaveResult_Ok in H as (Hv & Hf & H). split_and!.
  - eapply Forall_impl; [exact Hf|]. intros f. unfold isTrackedSeverity. apply bool_decide_eq_true.
  - intros s n Hin. unfold validateSeverityCounts in Hv. destruct (find _ _) as [[? ?]|] eqn:E; [done|].
    pose proof (find_none _ _ E (s, n) (proj1 (list_elem_of_In _ _) Hin)) as Hn. simpl in Hn. lia.
  - unfold Create_scan in H. destruct (existsb _ _); [done|]. injection H as <-. simpl. unfold StoreResultStore_GetLatest, GetLatest_scan. simpl.
    rewrite filter_app. rewrite (filter_cons_True _ (scan_row_columns _ _)) by done. rewrite filter_nil, head_newest.
    + unfold scan_row_columns, scanResultRecord. cbn -[json_text counts_json findings_json decodeSeverityCounts decode_findings].
      by rewrite counts_read_back, findings_read_back.
    + intros x [[H1 H2] Hx]%list_elem_of_filter. by apply Hnew.
Qed.

(** ** Admission *)
Section admission.
Context `{ResultStore St}.
Implicit Types (s : AdmissionService St).

Definition passes s (now later : time) (digest sbomRef : string) : Prop :=
  ∃ e, as_vulnEval s = Some e ∧ certified e now later digest sbomRef.
Lemma outcome_spec s now later d sbom :
  let o := (evaluateArtifact s now later d sbom).1.1 in
  (o = outcomePass ∧ passes s now later d sbom) ∨ ((o = outcomeReject ∨ o = outcomeUnavailable) ∧ ¬ passes s now later d sbom).
Proof.
  unfold evaluateArtifact, passes. case_bool_decide as Hd; simpl.
  { right. split; [by right|]. intros (e & _ & ? & _). done. }
  destruct (as_vulnEval s) as [e|]; [|right; split; [by right|by intros (? & ? & _)]].
  pose proof (Evaluate_pass_spec e now later d sbom) as Hp. pose proof (Evaluate_never_warns e now later d sbom) as Hw.
  destruct (Evaluate e now later d sbom) as [r|err].
  - specialize (Hw r eq_refl). destruct (ar_Decision r) eqn:Er; [left|done|right].
    + split; [done|]. exists e. split; [done|]. apply Hp. by exists r.
    + split; [by left|]. intros (? & [= <-] & Hc). apply Hp in Hc as (r' & [= <-] & ?). congruence.
  - right. split; [by right|]. intros (? & [= <-] & Hc). by apply Hp in Hc as (r' & ? & _).
Qed.
Lemma admission_cases actor now later d sbom s :
  let r := EvaluateArtifactAdmission actor now later d sbom s in
  as_mode r.2 = as_mode s ∧ as_vulnEval r.2 = as_vulnEval s ∧
  (r.1 ≠ None ↔ as_mode s = AdmissionEnforce ∧ ¬ passes s now later d sbom) ∧
  (as_mode s = AdmissionOff ∧ as_audits r.2 = as_audits s ∧ as_counters r.2 = count_skipped (as_counters s) ∨
   as_mode s ≠ AdmissionOff ∧ passes s now later d sbom ∧ as_audits r.2 = as_audits s ∧ as_counters r.2 = count_allowed (as_counters s) ∨
   as_mode s ≠ AdmissionOff ∧ ¬ passes s now later d sbom ∧ (∃ a, as_audits r.2 = as_audits s ++ [a] ∧ ad_ArtifactDigest a = d) ∧
     as_counters r.2 = (if bool_decide (as_mode s = AdmissionEnforce) then count_blocked else count_wouldBlock) (as_counters s)).
Proof.
  intros r. subst r. unfold EvaluateArtifactAdmission.
  assert (Hoff : ((if bool_decide (as_mode s = "") then AdmissionShadow else as_mode s) = AdmissionOff) ↔ as_mode s = AdmissionOff).
  { case_bool_decide as E; [rewrite E; by split|done]. }
  assert (Henf : ((if bool_decide (as_mode s = "") then AdmissionShadow else as_mode s) = AdmissionEnforce) ↔ as_mode s = AdmissionEnforce).
  { case_bool_decide as E; [rewrite E; by split|done]. }
  set (mode := if bool_decide (as_mode s = "") then AdmissionShadow else as_mode s) in *. clearbody mode.
  case_bool_decide as Ho; simpl.
  { apply Hoff in Ho. split_and!; [done|done| |by left]. rewrite Ho. split; [done|]. by intros [? _]. }
  rewrite Hoff in Ho. pose proof (outcome_spec s now later d sbom) as Hspec.
  destruct (evaluateArtifact s now later d sbom) as [[o v] cause]. simpl in Hspec. unfold applyAdmissionMode.
  rewrite (bool_decide_false (mode = AdmissionOff)) by by rewrite Hoff.
  destruct (decide (as_mode s = AdmissionEnforce)) as [He|He].
  - rewrite (bool_decide_true (mode = AdmissionEnforce)) by by apply Henf. rewrite (bool_decide_true (as_mode s = AdmissionEnforce)) by done.
    destruct Hspec as [[-> Hp]|[[-> | ->] Hp]]; simpl; (split_and!; [done|done|split; intros ?; first [done|tauto]|]); [right; left|right; right..]; split_and!; eauto.
  - rewrite (bool_decide_false (mode = AdmissionEnforce)) by by rewrite Henf. rewrite (bool_decide_false (as_mode s = AdmissionEnforce)) by done.
    destruct Hspec as [[-> Hp]|[[-> | ->] Hp]]; simpl; (split_and!; [done|done|split; intros ?; first [done|tauto]|]); [right; left|right; right..]; split_and!; eauto.
Qed.

(** The admission step blocks an artifact exactly in enforce mode when its
    evaluation did not pass; an evaluation passes exactly when it is certified
    (fresh result, no contradiction, counts within every threshold or every
    finding the policy tracks covered by a live exception); a decision that is
    not a pass is counted and audited in every mode but off, so nothing passes
    silently. *)
Theorem admission_exact actor now later d sbom s :
  let r := EvaluateArtifactAdmission actor now later d sbom s in
  (r.1 ≠ None ↔ as_mode s = AdmissionEnforce ∧ ¬ passes s now later d sbom) ∧
  (as_mode s = AdmissionOff ∧ as_audits r.2 = as_audits s ∧ as_counters r.2 = count_skipped (as_counters s) ∨
   as_mode s ≠ AdmissionOff ∧ passes s now later d sbom ∧ as_audits r.2 = as_audits s ∧ as_counters r.2 = count_allowed (as_counters s) ∨
   as_mode s ≠ AdmissionOff ∧ ¬ passes s now later d sbom ∧ (∃ a, as_audits r.2 = as_audits s ++ [a] ∧ ad_ArtifactDigest a = d) ∧
     as_counters r.2 = (if bool_decide (as_mode s = AdmissionEnforce) then count_blocked else count_wouldBlock) (as_counters s)).
Proof. apply admission_cases. Qed.

(** C28: in enforce mode a bundle's images are admitted only when an evaluator is
    configured and has certified every one of them. *)
Theorem enforced_images_certified actor sbom images s s' :
  as_mode s = AdmissionEnforce → admit_images actor sbom images s = (None, s') →
  ∀ digest now later, (digest, now, later) ∈ images → passes s now later digest sbom.
Proof.
  intros Hmode Hrun. revert s Hmode Hrun. induction images as [|[[digest now] later] images IH]; intros s Hmode Hrun d n l Hin;
    [by apply not_elem_of_nil in Hin|]. cbn [admit_images] in Hrun.
  pose proof (admission_cases actor now later digest sbom s) as (Hm & Hv & Hblock & _).
  destruct (EvaluateArtifactAdmission actor now later digest sbom s) as [[err|] s1]; [done|]. simpl in *.
  apply elem_of_cons in Hin as [[= -> -> ->]|Hin].
  - pose proof (outcome_spec s now later digest sbom) as [[_ Hp]|[_ Hp]]; [done|]. destruct Hblock as [_ Hblock]. by destruct Hblock.
  - destruct (IH s1 ltac:(congruence) Hrun d n l Hin) as (e & He & Hc). exists e. split; [congruence|done].
Qed.
End admission.

(** A result whose counts exceed every threshold passes when the findings it does
    list are covered: here three critical vulnerabilities are reported, none is
    listed, and one exception for a low finding admits the artifact. *)
Definition sample_result (counts : SeverityCounts) (findings : list Finding) : ScannerResult :=
  {| sr_ArtifactDigest := "sha256:a"; sr_SBOMRef := "sbom"; sr_Scanner := "trivy"; sr_ResultVersion := "1"; sr_SeverityCounts := counts;
     sr_Findings := findings; sr_ScannedAt := 1000 * nsec; sr_CreatedAt := 1000 * nsec |}.
Definition sample_exception : Exception :=
  {| ex_ID := "e1"; ex_FindingID := "CVE-1"; ex_ArtifactDigest := "sha256:a"; ex_Actor := "u"; ex_Reason := "accepted";
     ex_ExpiresAt := 9000 * nsec; ex_CreatedAt := nsec |}.
Definition low_finding : Finding := {| fi_ID := "CVE-1"; fi_Severity := SeverityLow; fi_Summary := "" |}.
Definition vuln_world (r : ScannerResult) : VulnDB :=
  match SaveResult nsec (Some r) {| vd_scan_results := []; vd_exceptions := [sample_exception] |} with
  | Ok db => db
  | Err _ => {| vd_scan_results := []; vd_exceptions := [] |}
  end.
Definition sample_evaluator (r : ScannerResult) : Evaluator VulnDB :=
  {| ev_store := vuln_world r; ev_scanner_name := "trivy"; ev_policy := DefaultProductionPolicy |}.
Definition sample_service (r : ScannerResult) : AdmissionService VulnDB :=
  {| as_mode := AdmissionEnforce; as_vulnEval := Some (sample_evaluator r); as_audits := [];
     as_counters := {| am_allowed := 0; am_wouldBlock := 0; am_blocked := 0; am_skipped := 0 |} |}.
Definition three_criticals : ScannerResult :=
  sample_result {| sc_Critical := 3; sc_High := 0; sc_Medium := 0; sc_Low := 1 |} [low_finding].
Lemma exceptions_launder_counts :
  ar_Decision <$> match Evaluate (sample_evaluator three_criticals) (2000 * nsec) (2000 * nsec) "sha256:a" "sbom" with
                  | Ok r => Some r | Err _ => None end = Some AdmissionPass.
Proof. vm_compute. reflexivity. Qed.

Definition empty_vuln : VulnDB := {| vd_scan_results := []; vd_exceptions := [] |}.
Lemma saved_result_read_back_witness :
  ∃ db, SaveResult nsec (Some three_criticals) empty_vuln = Ok db ∧
    GetLatest db "sha256:a" "trivy" = Ok (Some three_criticals).
Proof.
  destruct (SaveResult nsec (Some three_criticals) empty_vuln) as [db|e] eqn:E; [|vm_compute in E; discriminate E].
  destruct (saved_result_read_back nsec three_criticals empty_vuln db) as (_ & _ & H).
  - split; [|repeat constructor]. constructor; [|constructor]. repeat split; apply ascii_text; repeat constructor.
  - exact E.
  - intros x Hx. by apply not_elem_of_nil in Hx.
  - exists db. split; [reflexivity|exact H].
Defined.
Lemma enforced_images_certified_witness :
  ∃ s', admit_images None "sbom" [("sha256:a", 2000 * nsec, 2000 * nsec)] (sample_service three_criticals) = (None, s') ∧
    passes (sample_service three_criticals) (2000 * nsec) (2000 * nsec) "sha256:a" "sbom".
Proof.
  destruct (admit_images None "sbom" [("sha256:a", 2000 * nsec, 2000 * nsec)] (sample_service three_criticals)) as [[err|] s'] eqn:E;
    [vm_compute in E; discriminate E|]. exists s'. split; [reflexivity|].
  apply (enforced_images_certified None "sbom" _ (sample_service three_criticals) s' eq_refl E). left.
Defined.
