(* ===== verification/Trust.v ===== *)
(** * Artifact trust
    (internal/trust, internal/store/sqlite/trust_roots.go and verification.go)

    Trust roots and their lifecycle, verification of Ed25519 signatures over
    bundle digests, and the records of its verdicts.  Every RPC is a program
    ([prog]) of store calls: a call is one SQL statement or transaction, so it is
    atomic, and programs of concurrent requests interleave between calls.  A call
    may fail (lost connection, deadline), which the program sees as [ErrIO].
    Clock readings and new identifiers are arguments of the RPC.  PEM, X.509 and
    Ed25519 itself are parameters. *)
From S2P Require Import Prelude Utf8 Json Redact Hash Domain.
From stdpp Require Import pretty sorting.
From Stdlib Require Import Ascii.
#[local] Open Scope Z_scope.

(** ** Data (store.go, types.go) *)
Inductive RootState : Type := RootEmpty | RootPending | RootActive | RootGrace | RootRetired | RootRevoked.
#[export] Instance RootState_eq_dec : EqDecision RootState.
Proof. solve_decision. Defined.
Definition RootState_Valid (s : RootState) : bool := negb (bool_decide (s = RootEmpty)).
Record Root := {
  tr_ID : string; tr_Environment : string; tr_KeyID : string; tr_PublicKeyPEM : string; tr_Issuer : string;
  tr_SubjectPattern : string; tr_State : RootState; tr_ValidFrom : time; tr_GraceUntil : option time;
  tr_CreatedAt : time; tr_UpdatedAt : time; tr_RevokedAt : option time;
}.
Record TrustPolicyMeta := { tp_Environment : string; tp_Version : Z; tp_RevocationEpoch : Z }.
Inductive VerificationStatus : Type :=
| VerificationTrusted | VerificationRejected | VerificationSignatureMissing | VerificationUnavailable.
#[export] Instance VerificationStatus_eq_dec : EqDecision VerificationStatus.
Proof. solve_decision. Defined.
Record VerificationRecord := {
  ve_ID : string; ve_ArtifactDigest : string; ve_PolicyVersion : string; ve_SignatureIdentity : string;
  ve_Status : VerificationStatus; ve_RootID : string; ve_KeyID : string; ve_RevocationEpoch : Z;
  ve_Issuer : string; ve_Subject : string; ve_Summary : string; ve_CreatedAt : time;
}.
Record trust_audit := { ta_Action : string; ta_RootID : string; ta_Issuer : string; ta_Environment : string }.
(** Tables in insertion order; the emitted audit events. *)
Record TrustDB := {
  td_roots : list Root; td_policies : gmap string (Z * Z); td_records : list VerificationRecord;
  td_audit : list trust_audit;
}.
Definition set_roots (l : list Root) (td : TrustDB) : TrustDB :=
  {| td_roots := l; td_policies := td_policies td; td_records := td_records td; td_audit := td_audit td |}.
Definition set_policies (m : gmap string (Z * Z)) (td : TrustDB) : TrustDB :=
  {| td_roots := td_roots td; td_policies := m; td_records := td_records td; td_audit := td_audit td |}.
Definition set_records (l : list VerificationRecord) (td : TrustDB) : TrustDB :=
  {| td_roots := td_roots td; td_policies := td_policies td; td_records := l; td_audit := td_audit td |}.
Definition add_audit (e : trust_audit) (td : TrustDB) : TrustDB :=
  {| td_roots := td_roots td; td_policies := td_policies td; td_records := td_records td; td_audit := td_audit td ++ [e] |}.

Inductive trust_error : Type :=
| ErrNotFound | ErrRootNotLive | ErrLastRootRemovalForbidden | ErrConstraint | ErrRequired | ErrIO
| ErrInvalidRoot (why : string) | ErrOverlapConflict (why rootID : string) | ErrRevokedRoot | ErrState (s : RootState).
Inductive connect_code : Type := CodeInvalidArgument | CodeNotFound | CodeFailedPrecondition | CodeInternal.
Abbreviation rpc_error := (connect_code * trust_error)%type.
Abbreviation rpc A := (res rpc_error A).

(** ** The trust root store (trust_roots.go) *)
(** Times are stored with the precision of RFC3339. *)
Definition byRootID (id : string) (r : Root) : bool := bool_decide (tr_ID r = id).
Definition stored_root (r : Root) : Root :=
  {| tr_ID := tr_ID r; tr_Environment := tr_Environment r; tr_KeyID := tr_KeyID r; tr_PublicKeyPEM := tr_PublicKeyPEM r;
     tr_Issuer := tr_Issuer r; tr_SubjectPattern := tr_SubjectPattern r; tr_State := tr_State r;
     tr_ValidFrom := rfc3339 (tr_ValidFrom r); tr_GraceUntil := rfc3339 <$> tr_GraceUntil r;
     tr_CreatedAt := rfc3339 (tr_CreatedAt r); tr_UpdatedAt := rfc3339 (tr_UpdatedAt r); tr_RevokedAt := rfc3339 <$> tr_RevokedAt r |}.
Definition root_times (state : RootState) (validFrom : time) (graceUntil : option time) (created updated : time) (revoked : option time) (r : Root) : Root :=
  {| tr_ID := tr_ID r; tr_Environment := tr_Environment r; tr_KeyID := tr_KeyID r; tr_PublicKeyPEM := tr_PublicKeyPEM r;
     tr_Issuer := tr_Issuer r; tr_SubjectPattern := tr_SubjectPattern r; tr_State := state; tr_ValidFrom := validFrom;
     tr_GraceUntil := graceUntil; tr_CreatedAt := created; tr_UpdatedAt := updated; tr_RevokedAt := revoked |}.
Definition Create_root (now : time) (r : Root) (td : TrustDB) : res trust_error unit * TrustDB :=
  if bool_decide (tr_ID r = "") || bool_decide (tr_Environment r = "") then (Err ErrRequired, td)
  else
    let created := if is_zero_time (tr_CreatedAt r) then now else tr_CreatedAt r in
    let updated := if is_zero_time (tr_UpdatedAt r) then created else tr_UpdatedAt r in
    if existsb (byRootID (tr_ID r)) (td_roots td) then (Err ErrConstraint, td)
    else (Ok tt, set_roots (td_roots td ++ [stored_root (root_times (tr_State r) (tr_ValidFrom r) (tr_GraceUntil r) created updated (tr_RevokedAt r) r)]) td).
Definition Get_root (id : string) (td : TrustDB) : res trust_error Root :=
  match list_find (λ r, byRootID id r = true) (td_roots td) with Some (_, r) => Ok r | None => Err ErrNotFound end.
Definition created_le (a b : Root) : Prop := tr_CreatedAt a ≤ tr_CreatedAt b.
#[export] Instance created_le_dec a b : Decision (created_le a b).
Proof. unfold created_le. apply _. Defined.
Definition in_environment (env : string) (r : Root) : bool := bool_decide (tr_Environment r = env).
Definition ListByEnvironment (env : string) (td : TrustDB) : list Root :=
  merge_sort created_le (filter (λ r, in_environment env r = true) (td_roots td)).
Definition live_state (s : RootState) : bool := bool_decide (s = RootActive) || bool_decide (s = RootGrace).
(** The predicate of [GetActiveByEnvironment] and of the last-root guard. *)
Definition accepts (env : string) (at_ : time) (r : Root) : bool :=
  in_environment env r && live_state (tr_State r) && (tr_ValidFrom r <=? rfc3339 at_)
  && (bool_decide (tr_State r = RootActive)
      || match tr_GraceUntil r with Some g => rfc3339 at_ <? g | None => false end).
Definition GetActiveByEnvironment (env : string) (at_ : time) (td : TrustDB) : list Root :=
  merge_sort created_le (filter (λ r, accepts env at_ r = true) (td_roots td)).
Definition update_root (p : Root → bool) (f : Root → Root) (l : list Root) : list Root :=
  map (λ r, if p r then f r else r) l.
Definition Update_root (now : time) (r : Root) (td : TrustDB) : res trust_error unit * TrustDB :=
  if existsb (byRootID (tr_ID r)) (td_roots td) then
    (Ok tt, set_roots (update_root (byRootID (tr_ID r))
              (λ row, stored_root (root_times (tr_State r) (tr_ValidFrom r) (tr_GraceUntil r) (tr_CreatedAt row) now (tr_RevokedAt r) r))
              (td_roots td)) td)
  else (Err ErrNotFound, td).
Definition GetPolicy (env : string) (td : TrustDB) : TrustPolicyMeta :=
  match td_policies td !! env with
  | Some (v, e) => {| tp_Environment := env; tp_Version := v; tp_RevocationEpoch := e |}
  | None => {| tp_Environment := env; tp_Version := 1; tp_RevocationEpoch := 0 |}
  end.
Definition BumpPolicy (env : string) (td : TrustDB) : (Z * Z) * TrustDB :=
  let '(v, e) := default (0, 0) (td_policies td !! env) in
  ((v + 1, e), set_policies (<[env := (v + 1, e)]> (td_policies td)) td).
Definition transition_root (to : RootState) (now : time) (revokedAt : option time) (r : Root) : Root :=
  root_times to (tr_ValidFrom r) (tr_GraceUntil r) (tr_CreatedAt r) (rfc3339 now) (rfc3339 <$> revokedAt) r.
Definition live_with_id (id : string) (r : Root) : bool := byRootID id r && live_state (tr_State r).
Definition TransitionLiveRoot (now : time) (id env : string) (to : RootState) (revokedAt : option time)
    (bumpRevocation : bool) (td : TrustDB) : res trust_error TrustPolicyMeta * TrustDB :=
  let roots := update_root (live_with_id id) (transition_root to now revokedAt) (td_roots td) in
  if negb (existsb (live_with_id id) (td_roots td)) then
    (Err (if existsb (byRootID id) (td_roots td) then ErrRootNotLive else ErrNotFound), td)
  else if (length (filter (λ r, accepts env now r = true) roots) =? 0)%nat then (Err ErrLastRootRemovalForbidden, td)
  else
    let '(v, e) := default (0, 0) (td_policies td !! env) in
    let '(v', e') := if bumpRevocation then (v, e + 1) else (v + 1, e) in
    (Ok {| tp_Environment := env; tp_Version := v'; tp_RevocationEpoch := e' |},
     set_policies (<[env := (v', e')]> (td_policies td)) (set_roots roots td)).

(** ** The verification store (verification.go) *)
(** UNIQUE (artifact_digest, policy_version, created_at) beside the primary key. *)
Definition record_clash (a b : VerificationRecord) : bool :=
  bool_decide (ve_ID a = ve_ID b)
  || (bool_decide (ve_ArtifactDigest a = ve_ArtifactDigest b) && bool_decide (ve_PolicyVersion a = ve_PolicyVersion b)
      && (ve_CreatedAt a =? ve_CreatedAt b)).
Definition Create_record (r : VerificationRecord) (td : TrustDB) : res trust_error unit * TrustDB :=
  if existsb (record_clash r) (td_records td) then (Err ErrConstraint, td)
  else (Ok tt, set_records (td_records td ++ [r]) td).
(** ORDER BY created_at DESC, id DESC, the times as RFC3339Nano texts. *)
Definition before_record (a b : VerificationRecord) : bool :=
  text_ltb (ve_CreatedAt b) (ve_CreatedAt a)
  || ((ve_CreatedAt a =? ve_CreatedAt b) && string_ltb (ve_ID b) (ve_ID a)).
Fixpoint latest_record (l : list VerificationRecord) : option VerificationRecord :=
  match l with
  | [] => None
  | r :: l => match latest_record l with
              | Some m => if before_record m r then Some m else Some r
              | None => Some r
              end
  end.
Definition GetLatestVerdictByDigestAndPolicy (digest policyVersion : string) (td : TrustDB) : res trust_error VerificationRecord :=
  let p r := bool_decide (ve_ArtifactDigest r = digest) && bool_decide (ve_PolicyVersion r = policyVersion)
             && (bool_decide (ve_Status r = VerificationTrusted) || bool_decide (ve_Status r = VerificationRejected)) in
  match latest_record (filter (λ r, p r = true) (td_records td)) with Some r => Ok r | None => Err ErrNotFound end.
Definition GetByDigestPolicyAndSignature (digest policyVersion identity : string) (td : TrustDB) : res trust_error VerificationRecord :=
  let p r := bool_decide (ve_ArtifactDigest r = digest) && bool_decide (ve_PolicyVersion r = policyVersion)
             && bool_decide (ve_SignatureIdentity r = identity) in
  match latest_record (filter (λ r, p r = true) (td_records td)) with Some r => Ok r | None => Err ErrNotFound end.

(** ** Programs of store calls *)
Inductive prog (A : Type) : Type :=
| Return (a : A)
| DoGet (id : string) (k : res trust_error Root → prog A)
| DoList (env : string) (k : res trust_error (list Root) → prog A)
| DoActive (env : string) (at_ : time) (k : res trust_error (list Root) → prog A)
| DoPolicy (env : string) (k : res trust_error TrustPolicyMeta → prog A)
| DoFind (digest policyVersion identity : string) (k : res trust_error VerificationRecord → prog A)
| DoCreate (now : time) (r : Root) (k : res trust_error unit → prog A)
| DoUpdate (now : time) (r : Root) (k : res trust_error unit → prog A)
| DoBump (env : string) (k : res trust_error (Z * Z) → prog A)
| DoTransition (now : time) (id env : string) (to : RootState) (revokedAt : option time) (bumpRevocation : bool)
    (k : res trust_error TrustPolicyMeta → prog A)
| DoRecord (r : VerificationRecord) (k : res trust_error unit → prog A)
| DoAudit (e : trust_audit) (k : prog A).
Arguments Return {A} a.
Arguments DoGet {A} id k.
Arguments DoList {A} env k.
Arguments DoActive {A} env at_ k.
Arguments DoPolicy {A} env k.
Arguments DoFind {A} digest policyVersion identity k.
Arguments DoCreate {A} now r k.
Arguments DoUpdate {A} now r k.
Arguments DoBump {A} env k.
Arguments DoTransition {A} now id env to revokedAt bumpRevocation k.
Arguments DoRecord {A} r k.
Arguments DoAudit {A} e k.
Notation "'let@' x := c 'in' k" := (c (λ x, k)) (at level 10, x name, c at level 100, k at level 200, only parsing).

(** A call that returns a value with the new tables, or fails and changes nothing. *)
Definition served {B} (fault : bool) (r : res trust_error B * TrustDB) (td : TrustDB) : res trust_error B * TrustDB :=
  if fault then (Err ErrIO, td) else r.
Definition exec {A} (fault : bool) (p : prog A) (td : TrustDB) : prog A * TrustDB :=
  match p with
  | Return a => (Return a, td)
  | DoGet id k => let '(r, td') := served fault (Get_root id td, td) td in (k r, td')
  | DoList env k => let '(r, td') := served fault (Ok (ListByEnvironment env td), td) td in (k r, td')
  | DoActive env at_ k => let '(r, td') := served fault (Ok (GetActiveByEnvironment env at_ td), td) td in (k r, td')
  | DoPolicy env k => let '(r, td') := served fault (Ok (GetPolicy env td), td) td in (k r, td')
  | DoFind d p s k => let '(r, td') := served fault (GetByDigestPolicyAndSignature d p s td, td) td in (k r, td')
  | DoCreate now r k => let '(r, td') := served fault (Create_root now r td) td in (k r, td')
  | DoUpdate now r k => let '(r, td') := served fault (Update_root now r td) td in (k r, td')
  | DoBump env k => let '(r, td') := served fault (let '(v, td') := BumpPolicy env td in (Ok v, td')) td in (k r, td')
  | DoTransition now id env to rev bump k => let '(r, td') := served fault (TransitionLiveRoot now id env to rev bump td) td in (k r, td')
  | DoRecord r k => let '(r, td') := served fault (Create_record r td) td in (k r, td')
  | DoAudit e k => (k, add_audit e td)
  end.
(** A program alone, without failures. *)
Fixpoint run {A} (p : prog A) (td : TrustDB) : A * TrustDB :=
  match p with
  | Return a => (a, td)
  | DoGet id k => run (k (Get_root id td)) td
  | DoList env k => run (k (Ok (ListByEnvironment env td))) td
  | DoActive env at_ k => run (k (Ok (GetActiveByEnvironment env at_ td))) td
  | DoPolicy env k => run (k (Ok (GetPolicy env td))) td
  | DoFind d p s k => run (k (GetByDigestPolicyAndSignature d p s td)) td
  | DoCreate now r k => let '(r, td') := Create_root now r td in run (k r) td'
  | DoUpdate now r k => let '(r, td') := Update_root now r td in run (k r) td'
  | DoBump env k => let '(v, td') := BumpPolicy env td in run (k (Ok v)) td'
  | DoTransition now id env to rev bump k => let '(r, td') := TransitionLiveRoot now id env to rev bump td in run (k r) td'
  | DoRecord r k => let '(r, td') := Create_record r td in run (k r) td'
  | DoAudit e k => run k (add_audit e td)
  end.

(** ** The trust service (service.go, types.go) *)
Section service.
Context {key : Type}.
(** [pem.Decode]: the block's type and bytes, and what follows it. *)
Context (pem_Decode : string → option (string * string * string)).
(** [x509.ParsePKIXPublicKey]: a key, an Ed25519 one or not. *)
Context (ParsePKIXPublicKey : string → option (option key)).
Context (ed25519_Verify : key → string → list Z → bool).

Definition ParsePublicKey (publicKeyPEM : string) : option key :=
  match pem_Decode publicKeyPEM with
  | None => None
  | Some (type, der, rest) =>
      if negb (bool_decide (rest = "")) || Contains type "PRIVATE" then None
      else match ParsePKIXPublicKey der with Some k => k | None => None end
  end.
(** [Validate] sets a missing state and start of validity. *)
Definition Validate (now : time) (r : Root) : res trust_error Root :=
  if bool_decide (TrimSpace (tr_Environment r) = "") || bool_decide (TrimSpace (tr_KeyID r) = "") || bool_decide (TrimSpace (tr_Issuer r) = "")
  then Err (ErrInvalidRoot "environment, key_id, and issuer are required")
  else
    let state := if bool_decide (tr_State r = RootEmpty) then RootPending else tr_State r in
    let validFrom := if is_zero_time (tr_ValidFrom r) then now else tr_ValidFrom r in
    if negb (RootState_Valid state) then Err (ErrInvalidRoot "unsupported state")
    else if match tr_GraceUntil r with Some g => negb (validFrom <? g) | None => false end
    then Err (ErrInvalidRoot "grace_until must be after valid_from")
    else match ParsePublicKey (tr_PublicKeyPEM r) with
         | None => Err (ErrInvalidRoot "public key")
         | Some _ => Ok (root_times state validFrom (tr_GraceUntil r) (tr_CreatedAt r) (tr_UpdatedAt r) (tr_RevokedAt r) r)
         end.
Definition Accepts (at_ : time) (r : Root) : bool :=
  (tr_ValidFrom r <=? at_)
  && match tr_State r with
     | RootActive => true
     | RootGrace => match tr_GraceUntil r with Some g => at_ <? g | None => false end
     | _ => false
     end.
Definition Matches (issuer subject : string) (r : Root) : bool :=
  bool_decide (issuer = tr_Issuer r)
  && (bool_decide (tr_SubjectPattern r = "") || match strip (str (tr_SubjectPattern r)) (str subject) with Some _ => true | None => false end).

Record CreateTrustRootRequest := {
  nr_Environment : string; nr_KeyId : string; nr_PublicKeyPem : string; nr_Issuer : string; nr_SubjectPattern : string;
  nr_ValidFrom : option time;
}.
Record RotateTrustRootRequest := { or_New : CreateTrustRootRequest; or_OldRootId : string; or_GraceUntil : option time }.
Definition toDomainRoot (msg : CreateTrustRootRequest) (now : time) : Root :=
  {| tr_ID := ""; tr_Environment := nr_Environment msg; tr_KeyID := nr_KeyId msg; tr_PublicKeyPEM := nr_PublicKeyPem msg;
     tr_Issuer := nr_Issuer msg; tr_SubjectPattern := nr_SubjectPattern msg; tr_State := RootEmpty;
     tr_ValidFrom := default now (nr_ValidFrom msg); tr_GraceUntil := None; tr_CreatedAt := now; tr_UpdatedAt := now; tr_RevokedAt := None |}.
Definition activate (id : string) (r : Root) : Root :=
  {| tr_ID := id; tr_Environment := tr_Environment r; tr_KeyID := tr_KeyID r; tr_PublicKeyPEM := tr_PublicKeyPEM r;
     tr_Issuer := tr_Issuer r; tr_SubjectPattern := tr_SubjectPattern r; tr_State := RootActive; tr_ValidFrom := tr_ValidFrom r;
     tr_GraceUntil := tr_GraceUntil r; tr_CreatedAt := tr_CreatedAt r; tr_UpdatedAt := tr_UpdatedAt r; tr_RevokedAt := tr_RevokedAt r |}.
Record Policy := { po_Environment : string; po_Version : Z; po_RevocationEpoch : Z; po_Roots : list Root }.
Definition buildPolicy {A} (env : string) (version epoch : Z) (k : Policy → prog (rpc A)) : prog (rpc A) :=
  let@ r := DoList env in
  match r with
  | Err e => Return (Err (CodeInternal, e))
  | Ok roots => k {| po_Environment := env; po_Version := version; po_RevocationEpoch := epoch; po_Roots := roots |}
  end.
Fixpoint overlap (issuer keyID selfID : string) (roots : list Root) : option trust_error :=
  match roots with
  | [] => None
  | r :: roots =>
      if bool_decide (tr_ID r = selfID) || negb (live_state (tr_State r)) then overlap issuer keyID selfID roots
      else if bool_decide (tr_KeyID r = keyID) then Some (ErrOverlapConflict "key_id" (tr_ID r))
      else if bool_decide (tr_Issuer r = issuer) then Some (ErrOverlapConflict "issuer" (tr_ID r))
      else overlap issuer keyID selfID roots
  end.
Definition checkOverlap {A} (env issuer keyID selfID : string) (k : prog (rpc A)) : prog (rpc A) :=
  let@ r := DoList env in
  match r with
  | Err e => Return (Err (CodeInvalidArgument, e))
  | Ok roots => match overlap issuer keyID selfID roots with Some e => Return (Err (CodeInvalidArgument, e)) | None => k end
  end.
Definition emitTrustAudit {A} (action : string) (r : Root) (k : prog A) : prog A :=
  DoAudit {| ta_Action := action; ta_RootID := tr_ID r; ta_Issuer := tr_Issuer r; ta_Environment := tr_Environment r |} k.
(** Create and bump, the common end of creation and rotation. *)
Definition create_and_bump (clock : time) (action : string) (root : Root) {A} (k : Policy → prog (rpc A)) : prog (rpc A) :=
  let@ r := DoCreate clock root in
  match r with
  | Err e => Return (Err (CodeInternal, e))
  | Ok _ =>
      let@ r := DoBump (tr_Environment root) in
      match r with
      | Err e => Return (Err (CodeInternal, e))
      | Ok (version, epoch) => buildPolicy (tr_Environment root) version epoch (λ policy, emitTrustAudit action root (k policy))
      end
  end.
Definition CreateTrustRoot (now clock : time) (uuid : string) (msg : CreateTrustRootRequest) : prog (rpc (Policy * Root)) :=
  match Validate now (toDomainRoot msg now) with
  | Err e => Return (Err (CodeInvalidArgument, e))
  | Ok root =>
      let root := activate uuid root in
      checkOverlap (tr_Environment root) (tr_Issuer root) (tr_KeyID root) (tr_ID root)
        (create_and_bump clock "create_root" root (λ policy, Return (Ok (policy, root))))
  end.
Definition get_error (e : trust_error) : rpc_error :=
  match e with ErrNotFound => (CodeNotFound, ErrNotFound) | e => (CodeInternal, e) end.
(** The old root as it is written back: every column of the row that was read. *)
Definition to_grace (now : time) (graceUntil : option time) (old : Root) : Root :=
  root_times RootGrace (tr_ValidFrom old) (Some (default now graceUntil)) (tr_CreatedAt old) now (tr_RevokedAt old) old.
Definition RotateTrustRoot (now clock1 clock2 : time) (uuid : string) (msg : RotateTrustRootRequest) : prog (rpc (Policy * Root * Root)) :=
  let@ r := DoGet (or_OldRootId msg) in
  match r with
  | Err e => Return (Err (get_error e))
  | Ok old =>
      if negb (bool_decide (tr_State old = RootActive)) then Return (Err (CodeFailedPrecondition, ErrState (tr_State old)))
      else
        match Validate now (toDomainRoot (or_New msg) now) with
        | Err e => Return (Err (CodeInvalidArgument, e))
        | Ok newRoot =>
            checkOverlap (tr_Environment newRoot) (tr_Issuer newRoot) (tr_KeyID newRoot) ""
              (let newRoot := activate uuid newRoot in
               let old := to_grace now (or_GraceUntil msg) old in
               let@ r := DoUpdate clock1 old in
               match r with
               | Err e => Return (Err (CodeInternal, e))
               | Ok _ =>
                   let old := root_times RootGrace (tr_ValidFrom old) (tr_GraceUntil old) (tr_CreatedAt old) clock1 (tr_RevokedAt old) old in
                   create_and_bump clock2 "rotate_root" newRoot (λ policy, Return (Ok (policy, old, newRoot)))
               end)
        end
  end.
Definition transition_error (root : Root) (e : trust_error) : rpc_error :=
  match e with
  | ErrRootNotLive => (CodeFailedPrecondition, ErrState (tr_State root))
  | ErrNotFound => (CodeNotFound, ErrNotFound)
  | ErrLastRootRemovalForbidden => (CodeFailedPrecondition, ErrLastRootRemovalForbidden)
  | e => (CodeInternal, e)
  end.
(** The common body of the three removals: the guard on the state that was read,
    the transition, the answer. *)
Definition remove_root (clock : time) (rootID action : string) (guard : RootState → option trust_error) (to : RootState)
    (revokedAt : option time) (bumpRevocation : bool) : prog (rpc (Policy * Root)) :=
  let@ r := DoGet rootID in
  match r with
  | Err e => Return (Err (get_error e))
  | Ok root =>
      match guard (tr_State root) with
      | Some e => Return (Err (CodeFailedPrecondition, e))
      | None =>
          let@ r := DoTransition clock (tr_ID root) (tr_Environment root) to revokedAt bumpRevocation in
          match r with
          | Err e => Return (Err (transition_error root e))
          | Ok meta =>
              buildPolicy (tr_Environment root) (tp_Version meta) (tp_RevocationEpoch meta) (λ policy,
                let root := root_times to (tr_ValidFrom root) (tr_GraceUntil root) (tr_CreatedAt root) (tr_UpdatedAt root)
                              (match revokedAt with Some t => Some t | None => tr_RevokedAt root end) root in
                emitTrustAudit action root (Return (Ok (policy, root))))
          end
      end
  end.
Definition EndGrace (clock : time) (rootID : string) : prog (rpc (Policy * Root)) :=
  remove_root clock rootID "end_grace" (λ s, if bool_decide (s = RootGrace) then None else Some (ErrState s)) RootRetired None false.
Definition RetireTrustRoot (clock : time) (rootID : string) : prog (rpc (Policy * Root)) :=
  remove_root clock rootID "retire_root" (λ s, if live_state s then None else Some (ErrState s)) RootRetired None false.
Definition RevokeTrustRoot (now clock : time) (rootID : string) : prog (rpc (Policy * Root)) :=
  remove_root clock rootID "revoke_root" (λ s, if bool_decide (s = RootRevoked) then Some ErrRevokedRoot else None) RootRevoked (Some now) true.
Definition GetTrustPolicy (env : string) : prog (rpc Policy) :=
  let@ r := DoPolicy env in
  match r with
  | Err e => Return (Err (CodeInternal, e))
  | Ok meta => buildPolicy env (tp_Version meta) (tp_RevocationEpoch meta) (λ policy, Return (Ok policy))
  end.

(** ** The verifier (ed25519.go) *)
(** [base64.StdEncoding.DecodeString]: padded groups of four, line breaks skipped. *)
Definition std_char (c : ascii) : ascii :=
  if Ascii.eqb c "+" then "-"%char else if Ascii.eqb c "/" then "_"%char
  else if Ascii.eqb c "-" || Ascii.eqb c "_" then "!"%char else c.
Fixpoint std_groups (l : list ascii) : option (list Z) :=
  match l with
  | [] => Some []
  | p :: q :: r :: s :: l' =>
      if Ascii.eqb s "=" && bool_decide (l' = [])
      then b64_bytes (if Ascii.eqb r "=" then [p; q] else [p; q; r])
      else match b64_bytes [p; q; r; s], std_groups l' with Some a, Some b => Some (a ++ b) | _, _ => None end
  | _ => None
  end.
Definition StdEncoding_DecodeString (s : string) : option (list Z) :=
  std_groups (map std_char (filter (λ c, is_newline c = false) (str s))).

Record SignatureRef := { sg_Digest : string; sg_Signature : string; sg_Issuer : string; sg_Subject : string }.
Record Input := { in_Digest : string; in_SignatureRef : option SignatureRef; in_Environment : string }.
Record Output := {
  ou_Status : VerificationStatus; ou_Summary : string; ou_Record : option VerificationRecord; ou_RootID : string;
  ou_KeyID : string; ou_RevocationEpoch : Z;
}.
(** What is configured: the record store and the root resolver. *)
Record Ed25519Verifier := { vf_store : bool; vf_resolver : bool }.
Definition PolicyVersion (metaVersion : Z) : string := if metaVersion <=? 0 then "1" else pretty metaVersion.
Definition signatureIdentity (ref : option SignatureRef) : string :=
  match ref with
  | None => ""
  | Some ref =>
      hex_EncodeToString (Sum256 (byte_values (sg_Digest ref) ++ [0] ++ byte_values (sg_Signature ref) ++ [0]
        ++ byte_values (sg_Issuer ref) ++ [0] ++ byte_values (sg_Subject ref)))
  end.
Definition output (status : VerificationStatus) (summary : string) (epoch : Z) : Output :=
  {| ou_Status := status; ou_Summary := summary; ou_Record := None; ou_RootID := ""; ou_KeyID := ""; ou_RevocationEpoch := epoch |}.
Definition outputFromRecord (r : VerificationRecord) : Output :=
  {| ou_Status := ve_Status r; ou_Summary := ve_Summary r; ou_Record := Some r; ou_RootID := ve_RootID r; ou_KeyID := ve_KeyID r;
     ou_RevocationEpoch := ve_RevocationEpoch r |}.
Definition cachedRecord (v : Ed25519Verifier) (clock : time) (inp : Input) (policyVersion : string) (currentEpoch : Z) {A}
    (hit : VerificationRecord → prog A) (miss : prog A) : prog A :=
  if negb (vf_store v) then miss
  else
    let@ r := DoFind (in_Digest inp) policyVersion (signatureIdentity (in_SignatureRef inp)) in
    match r with
    | Err _ => miss
    | Ok record =>
        if ve_RevocationEpoch record <? currentEpoch then miss
        else
          let@ r := DoActive (in_Environment inp) clock in
          match r with
          | Err _ => miss
          | Ok live => if existsb (byRootID (ve_RootID record)) live then hit record else miss
          end
    end.
(** The summaries name the key, the issuer and the subject with Go's [%q]. *)
Context (quote_text : string → string).
Fixpoint check_roots (inp : Input) (ref : SignatureRef) (signature : list Z) (epoch : Z) (matchedIdentity : bool) (roots : list Root) : Output :=
  match roots with
  | [] =>
      if matchedIdentity then output VerificationRejected "signature_invalid: Ed25519 signature verification failed" epoch
      else output VerificationRejected ("untrusted_issuer: issuer " ++ quote_text (sg_Issuer ref) ++ " and subject "
             ++ quote_text (sg_Subject ref) ++ " do not match live trust roots") epoch
  | root :: roots =>
      if negb (Matches (sg_Issuer ref) (sg_Subject ref) root) then check_roots inp ref signature epoch matchedIdentity roots
      else match ParsePublicKey (tr_PublicKeyPEM root) with
           | None => output VerificationUnavailable "verification_unavailable: active trust root public key is invalid" epoch
           | Some publicKey =>
               if ed25519_Verify publicKey (in_Digest inp) signature then
                 {| ou_Status := VerificationTrusted; ou_Summary := "trusted: signature matched root " ++ quote_text (tr_KeyID root);
                    ou_Record := None; ou_RootID := tr_ID root; ou_KeyID := tr_KeyID root; ou_RevocationEpoch := epoch |}
               else check_roots inp ref signature epoch true roots
           end
  end.
Definition missing : string := "signature_missing: artifact has no attached signature".
Definition verifyFresh (clock : time) (inp : Input) (epoch : Z) {A} (k : Output → prog A) : prog A :=
  match in_SignatureRef inp with
  | None => k (output VerificationSignatureMissing missing epoch)
  | Some ref =>
      if negb (bool_decide (sg_Digest ref = in_Digest inp))
      then k (output VerificationRejected "digest_mismatch: artifact digest does not match signed digest" epoch)
      else if bool_decide (sg_Signature ref = "") then k (output VerificationSignatureMissing missing epoch)
      else
        let invalid := output VerificationRejected "signature_invalid: signature must be a base64 Ed25519 signature" epoch in
        match StdEncoding_DecodeString (sg_Signature ref) with
        | None => k invalid
        | Some signature =>
            if negb (length signature =? 64)%nat then k invalid
            else
              let@ r := DoActive (in_Environment inp) clock in
              match r with
              | Err _ => k (output VerificationUnavailable "verification_unavailable: cannot resolve live trust roots" epoch)
              | Ok roots => k (check_roots inp ref signature epoch false roots)
              end
        end
  end.
Definition verdict_record (uuid : string) (clock : time) (inp : Input) (policyVersion : string) (out : Output) : VerificationRecord :=
  {| ve_ID := uuid; ve_ArtifactDigest := in_Digest inp; ve_PolicyVersion := policyVersion;
     ve_SignatureIdentity := signatureIdentity (in_SignatureRef inp); ve_Status := ou_Status out; ve_RootID := ou_RootID out;
     ve_KeyID := ou_KeyID out; ve_RevocationEpoch := ou_RevocationEpoch out;
     ve_Issuer := match in_SignatureRef inp with Some r => sg_Issuer r | None => "" end;
     ve_Subject := match in_SignatureRef inp with Some r => sg_Subject r | None => "" end;
     ve_Summary := ou_Summary out; ve_CreatedAt := clock |}.
Definition persist (v : Ed25519Verifier) (uuid : string) (clock : time) (inp : Input) (policyVersion : string) (out : Output) {A}
    (k : Output → prog A) : prog A :=
  if negb (vf_store v) then k out
  else
    let record := verdict_record uuid clock inp policyVersion out in
    let@ r := DoRecord record in
    match r with
    | Err _ => k out
    | Ok _ => k {| ou_Status := ou_Status out; ou_Summary := ou_Summary out; ou_Record := Some record; ou_RootID := ou_RootID out;
                   ou_KeyID := ou_KeyID out; ou_RevocationEpoch := ou_RevocationEpoch out |}
    end.
(** The three clock readings: the liveness check of a cached verdict, the live
    roots of a fresh one, the record's time. *)
Definition Verify (v : Ed25519Verifier) (clock1 clock2 clock3 : time) (uuid : string) (inp : Input) : prog Output :=
  if negb (vf_resolver v) then Return (output VerificationUnavailable "verification_unavailable: live trust root resolver is not configured" 0)
  else
    let@ r := DoPolicy (in_Environment inp) in
    match r with
    | Err _ => Return (output VerificationUnavailable "verification_unavailable: cannot resolve trust policy metadata" 0)
    | Ok meta =>
        let policyVersion := PolicyVersion (tp_Version meta) in
        cachedRecord v clock1 inp policyVersion (tp_RevocationEpoch meta)
          (λ record, Return (outputFromRecord record))
          (verifyFresh clock2 inp (tp_RevocationEpoch meta) (λ out, persist v uuid clock3 inp policyVersion out Return))
    end.

(** ** Concurrent requests *)
Inductive request : Type :=
| ReqCreate (now clock : time) (uuid : string) (msg : CreateTrustRootRequest)
| ReqRotate (now clock1 clock2 : time) (uuid : string) (msg : RotateTrustRootRequest)
| ReqEndGrace (clock : time) (rootID : string)
| ReqRetire (clock : time) (rootID : string)
| ReqRevoke (now clock : time) (rootID : string)
| ReqGetPolicy (env : string)
| ReqVerify (v : Ed25519Verifier) (clock1 clock2 clock3 : time) (uuid : string) (inp : Input).
Inductive response : Type :=
| RespRoot (r : rpc (Policy * Root)) | RespRotate (r : rpc (Policy * Root * Root)) | RespPolicy (r : rpc Policy) | RespVerify (o : Output).
Fixpoint map_prog {A B} (f : A → B) (p : prog A) : prog B :=
  match p with
  | Return a => Return (f a)
  | DoGet id k => DoGet id (λ r, map_prog f (k r))
  | DoList env k => DoList env (λ r, map_prog f (k r))
  | DoActive env at_ k => DoActive env at_ (λ r, map_prog f (k r))
  | DoPolicy env k => DoPolicy env (λ r, map_prog f (k r))
  | DoFind d p s k => DoFind d p s (λ r, map_prog f (k r))
  | DoCreate now r k => DoCreate now r (λ r, map_prog f (k r))
  | DoUpdate now r k => DoUpdate now r (λ r, map_prog f (k r))
  | DoBump env k => DoBump env (λ r, map_prog f (k r))
  | DoTransition now id env to rev bump k => DoTransition now id env to rev bump (λ r, map_prog f (k r))
  | DoRecord r k => DoRecord r (λ r, map_prog f (k r))
  | DoAudit e k => DoAudit e (map_prog f k)
  end.
Definition serve (q : request) : prog response :=
  match q with
  | ReqCreate now clock uuid msg => map_prog RespRoot (CreateTrustRoot now clock uuid msg)
  | ReqRotate now clock1 clock2 uuid msg => map_prog RespRotate (RotateTrustRoot now clock1 clock2 uuid msg)
  | ReqEndGrace clock rootID => map_prog RespRoot (EndGrace clock rootID)
  | ReqRetire clock rootID => map_prog RespRoot (RetireTrustRoot clock rootID)
  | ReqRevoke now clock rootID => map_prog RespRoot (RevokeTrustRoot now clock rootID)
  | ReqGetPolicy env => map_prog RespPolicy (GetTrustPolicy env)
  | ReqVerify v clock1 clock2 clock3 uuid inp => map_prog RespVerify (Verify v clock1 clock2 clock3 uuid inp)
  end.
(** Requests arrive at any time; any of the running ones makes its next call. *)
Inductive trust_step (allowed : request → Prop) : TrustDB * list (prog response) → TrustDB * list (prog response) → Prop :=
| step_arrive q td pool : allowed q → trust_step allowed (td, pool) (td, pool ++ [serve q])
| step_call fault i p td pool :
    pool !! i = Some p → trust_step allowed (td, pool) ((exec fault p td).2, <[i := (exec fault p td).1]> pool).
Definition trust_reachable (allowed : request → Prop) := rtc (trust_step allowed).
End service.

(** ** Invariants *)
(** What no operation changes about a root. *)
Definition same_root (a b : Root) : Prop :=
  tr_ID a = tr_ID b ∧ tr_Environment a = tr_Environment b ∧ tr_KeyID a = tr_KeyID b
  ∧ tr_PublicKeyPEM a = tr_PublicKeyPEM b ∧ tr_Issuer a = tr_Issuer b ∧ tr_SubjectPattern a = tr_SubjectPattern b.
Lemma same_root_refl a : same_root a a.
Proof. done. Qed.
Lemma same_root_trans a b c : same_root a b → same_root b c → same_root a c.
Proof. unfold same_root. intuition congruence. Qed.
Definition known (td : TrustDB) (x : Root) : Prop := ∃ y, y ∈ td_roots td ∧ same_root x y.
Definition policy_of (td : TrustDB) (env : string) : Z * Z := default (0, 0) (td_policies td !! env).

Lemma update_root_elem p f l x : x ∈ update_root p f l ↔ ∃ y, y ∈ l ∧ x = if p y then f y else y.
Proof. unfold update_root. rewrite list_elem_of_In, in_map_iff. setoid_rewrite <- list_elem_of_In. firstorder. Qed.
Lemma update_root_ids p f l : (∀ r, r ∈ l → p r = true → tr_ID (f r) = tr_ID r) → tr_ID <$> update_root p f l = tr_ID <$> l.
Proof.
  intros H. induction l as [|r l IH]; [done|]. change (update_root p f (r :: l)) with ((if p r then f r else r) :: update_root p f l).
  rewrite !fmap_cons, IH by (intros; apply H; [by right|done]). f_equal.
  destruct (p r) eqn:E; [|done]. apply H; [by left|done].
Qed.
Lemma existsb_id id l : existsb (byRootID id) l = true ↔ id ∈ tr_ID <$> l.
Proof.
  rewrite existsb_elem, list_elem_of_fmap. unfold byRootID. split.
  - intros (r & Hr & H). apply bool_decide_eq_true in H. eauto.
  - intros (r & -> & Hr). exists r. split; [done|]. by apply bool_decide_eq_true.
Qed.
Lemma root_by_id l a b : NoDup (tr_ID <$> l) → a ∈ l → b ∈ l → tr_ID a = tr_ID b → a = b.
Proof.
  induction l as [|r l IH]; intros Hnd Ha Hb Hid; [by apply not_elem_of_nil in Ha|]. rewrite fmap_cons in Hnd.
  apply NoDup_cons in Hnd as [Hr Hnd]. apply elem_of_cons in Ha as [-> |Ha], Hb as [-> |Hb]; [done| | |by apply IH].
  - destruct Hr. rewrite Hid. by apply list_elem_of_fmap_2.
  - destruct Hr. rewrite <- Hid. by apply list_elem_of_fmap_2.
Qed.
Lemma active_elem env at_ td r : r ∈ GetActiveByEnvironment env at_ td ↔ r ∈ td_roots td ∧ accepts env at_ r = true.
Proof. unfold GetActiveByEnvironment. rewrite merge_sort_Permutation, list_elem_of_filter. tauto. Qed.
Lemma Get_root_elem id td r : Get_root id td = Ok r → r ∈ td_roots td ∧ tr_ID r = id.
Proof.
  unfold Get_root. destruct (list_find _ _) as [[i x]|] eqn:E; [|done]. intros [= <-].
  apply list_find_Some in E as (Hl & Hp & _). split; [by eapply list_elem_of_lookup_2|]. by apply bool_decide_eq_true in Hp.
Qed.
Lemma latest_elem l r : latest_record l = Some r → r ∈ l.
Proof.
  revert r. induction l as [|x l IH]; intros r; [done|]. cbn. destruct (latest_record l) as [m|]; [|intros [= <-]; by left].
  destruct (before_record m x); intros [= <-]; [right; by apply IH|by left].
Qed.
Lemma found_record d p s td r :
  GetByDigestPolicyAndSignature d p s td = Ok r →
  r ∈ td_records td ∧ ve_ArtifactDigest r = d ∧ ve_PolicyVersion r = p ∧ ve_SignatureIdentity r = s.
Proof.
  unfold GetByDigestPolicyAndSignature. destruct (latest_record _) as [x|] eqn:E; [|done]. intros [= <-].
  apply latest_elem, list_elem_of_filter in E as [E H]. rewrite !andb_true_iff, !bool_decide_eq_true in E. tauto.
Qed.

Lemma live_with_id_spec id l : existsb (live_with_id id) l = true ↔ ∃ x, x ∈ l ∧ tr_ID x = id ∧ live_state (tr_State x) = true.
Proof.
  rewrite existsb_elem. unfold live_with_id, byRootID. setoid_rewrite andb_true_iff. setoid_rewrite bool_decide_eq_true. firstorder.
Qed.
Lemma accepts_live env at_ x : accepts env at_ x = true → live_state (tr_State x) = true.
Proof. unfold accepts. rewrite !andb_true_iff. tauto. Qed.
Lemma filter_none {A} (p : A → bool) l : (length (filter (λ x, p x = true) l) =? 0)%nat = true ↔ ∀ x, x ∈ l → p x = false.
Proof.
  rewrite Nat.eqb_eq, length_zero_iff_nil. induction l as [|x l IH]; [split; [intros _ y Hy; by apply not_elem_of_nil in Hy|done]|].
  rewrite filter_cons. case_decide as Hp; split.
  - done.
  - intros H. specialize (H x ltac:(by left)). congruence.
  - intros H y [-> |Hy]%elem_of_cons; [by apply not_true_is_false|]. by apply IH.
  - intros H. apply IH. intros y Hy. apply H. by right.
Qed.

(** C33: the complete outcome of removing a live root.  It fails, changing
    nothing, exactly when the root does not exist, is not live, or is the last
    one its environment would accept signatures from; otherwise only that root
    changes, a root that still accepts signatures remains, and either the policy
    version or the revocation epoch grows by one. *)
Theorem TransitionLiveRoot_exact now id env to rev bump td r td' :
  NoDup (tr_ID <$> td_roots td) → live_state to = false →
  TransitionLiveRoot now id env to rev bump td = (r, td') →
  match r with
  | Err e =>
      td' = td ∧
      (e = ErrNotFound ∧ (∀ x, x ∈ td_roots td → tr_ID x ≠ id) ∨
       e = ErrRootNotLive ∧ (∃ x, x ∈ td_roots td ∧ tr_ID x = id ∧ live_state (tr_State x) = false) ∨
       e = ErrLastRootRemovalForbidden ∧ (∃ x, x ∈ td_roots td ∧ tr_ID x = id ∧ live_state (tr_State x) = true)
         ∧ ∀ x, x ∈ td_roots td → tr_ID x ≠ id → accepts env now x = false)
  | Ok meta =>
      (∃ x, x ∈ td_roots td ∧ tr_ID x = id ∧ live_state (tr_State x) = true) ∧
      td_roots td' = update_root (byRootID id) (transition_root to now rev) (td_roots td) ∧
      (∃ x, x ∈ td_roots td' ∧ tr_ID x ≠ id ∧ accepts env now x = true) ∧
      td_policies td' = <[env := if bump then ((policy_of td env).1, (policy_of td env).2 + 1)
                                 else ((policy_of td env).1 + 1, (policy_of td env).2)]> (td_policies td) ∧
      meta = GetPolicy env td' ∧ td_records td' = td_records td
  end.
Proof.
  intros Hnd Hto. unfold TransitionLiveRoot.
  assert (Hup : existsb (live_with_id id) (td_roots td) = true →
            update_root (live_with_id id) (transition_root to now rev) (td_roots td) = update_root (byRootID id) (transition_root to now rev) (td_roots td)).
  { intros (x & Hx & Hid & Hl)%live_with_id_spec. apply map_ext_in. intros y Hy%list_elem_of_In. unfold live_with_id.
    destruct (byRootID id y) eqn:E; [|done]. apply bool_decide_eq_true in E.
    by rewrite (root_by_id _ _ _ Hnd Hy Hx), Hl by congruence. }
  destruct (existsb (live_with_id id) (td_roots td)) eqn:Hlive; cbn [negb].
  2: { intros [= <- <-]. split; [done|]. destruct (existsb (byRootID id) (td_roots td)) eqn:E.
       - right; left. split; [done|]. apply existsb_id, list_elem_of_fmap in E as (x & Hid & Hx). exists x. split_and!; [done|done|].
         apply not_true_is_false. intros Hl. apply not_true_iff_false in Hlive. apply Hlive, live_with_id_spec. eauto.
       - left. split; [done|]. intros x Hx Hid. apply not_true_iff_false in E. apply E, existsb_id. rewrite <- Hid. by apply list_elem_of_fmap_2. }
  rewrite Hup by done. apply live_with_id_spec in Hlive.
  assert (Hother : ∀ x, x ∈ update_root (byRootID id) (transition_root to now rev) (td_roots td) → accepts env now x = true →
            x ∈ td_roots td ∧ tr_ID x ≠ id).
  { intros x (y & Hy & ->)%update_root_elem. destruct (byRootID id y) eqn:E; [|intros _; split; [done|by apply bool_decide_eq_false in E]].
    intros Ha%accepts_live. cbn in Ha. congruence. }
  destruct (length _ =? 0)%nat eqn:Hcount.
  - intros [= <- <-]. split; [done|]. right; right. split_and!; [done|done|]. rewrite filter_none in Hcount.
    intros x Hx Hid. apply Hcount, update_root_elem. exists x. split; [done|]. unfold byRootID. by rewrite bool_decide_false.
  - destruct (filter (λ r, accepts env now r = true) (update_root (byRootID id) (transition_root to now rev) (td_roots td))) as [|z l] eqn:Ef; [done|].
    assert (Hz : z ∈ z :: l) by left. rewrite <- Ef in Hz. apply list_elem_of_filter in Hz as [Ha Hz]. clear Hcount Ef.
    destruct (Hother z Hz Ha) as [_ Hzid]. unfold policy_of.
    destruct (default (0, 0) (td_policies td !! env)) as [v e]. destruct bump; intros [= <- <-]; cbn;
      (split_and!; [done|done|by exists z|done| |done]); unfold GetPolicy; cbn; by rewrite lookup_insert_eq.
Qed.

Section invariants.
Context {key : Type} (pem_Decode : string → option (string * string * string)) (ParsePKIXPublicKey : string → option (option key))
        (ed25519_Verify : key → string → list Z → bool) (quote_text : string → string).
Abbreviation ParsePublicKey := (ParsePublicKey pem_Decode ParsePKIXPublicKey).
Abbreviation serve := (serve pem_Decode ParsePKIXPublicKey ed25519_Verify quote_text).
Abbreviation trust_reachable := (trust_reachable pem_Decode ParsePKIXPublicKey ed25519_Verify quote_text).

(** The root's key verified some signature over the digest. *)
Definition signed_by (root : Root) (digest : string) : Prop :=
  ∃ k signature, ParsePublicKey (tr_PublicKeyPEM root) = Some k ∧ ed25519_Verify k digest signature = true.
Definition justifies (root : Root) (r : VerificationRecord) : Prop :=
  tr_ID root = ve_RootID r ∧ tr_KeyID root = ve_KeyID r ∧ signed_by root (ve_ArtifactDigest r).
Definition trust_inv (td : TrustDB) : Prop :=
  NoDup (tr_ID <$> td_roots td)
  ∧ ∀ r, r ∈ td_records td → ve_Status r = VerificationTrusted → ∃ root, root ∈ td_roots td ∧ justifies root r.
(** What every call preserves; without rotations a removed root stays removed. *)
Definition grows (rotations : bool) (td td' : TrustDB) : Prop :=
  (∀ x, known td x → known td' x)
  ∧ (∀ env, (policy_of td env).1 ≤ (policy_of td' env).1 ∧ (policy_of td env).2 ≤ (policy_of td' env).2)
  ∧ (∀ r, r ∈ td_records td → r ∈ td_records td')
  ∧ (rotations = false → ∀ x, x ∈ td_roots td → live_state (tr_State x) = false →
       ∃ y, y ∈ td_roots td' ∧ tr_ID y = tr_ID x ∧ tr_State y = tr_State x).
(** A program's writes are justified by the roots it has seen. *)
Fixpoint sound_prog {A} (rotations : bool) (seen : list Root) (p : prog A) : Prop :=
  match p with
  | Return _ => True
  | DoGet _ k => ∀ r, sound_prog rotations (match r with Ok x => x :: seen | Err _ => seen end) (k r)
  | DoActive _ _ k => ∀ r, sound_prog rotations (match r with Ok l => l ++ seen | Err _ => seen end) (k r)
  | DoList _ k => ∀ r, sound_prog rotations seen (k r)
  | DoPolicy _ k => ∀ r, sound_prog rotations seen (k r)
  | DoFind _ _ _ k => ∀ r, sound_prog rotations seen (k r)
  | DoCreate _ _ k => ∀ r, sound_prog rotations seen (k r)
  | DoUpdate _ r k => rotations = true ∧ (∃ old, old ∈ seen ∧ same_root old r) ∧ ∀ r, sound_prog rotations seen (k r)
  | DoBump _ k => ∀ r, sound_prog rotations seen (k r)
  | DoTransition _ _ _ _ _ _ k => ∀ r, sound_prog rotations seen (k r)
  | DoRecord r k => (ve_Status r = VerificationTrusted → ∃ root, root ∈ seen ∧ justifies root r) ∧ ∀ r, sound_prog rotations seen (k r)
  | DoAudit _ k => sound_prog rotations seen k
  end.

Lemma signed_by_same a b d : same_root a b → signed_by a d → signed_by b d.
Proof. intros (_ & _ & _ & Hp & _) (k & s & Hk & Hs). exists k, s. by rewrite <- Hp. Qed.
Lemma justifies_same a b r : same_root a b → justifies a r → justifies b r.
Proof.
  intros Hs (H1 & H2 & H3). pose proof Hs as (Hid & _ & Hk & _). repeat split; [congruence..|]. by eapply signed_by_same.
Qed.
Lemma known_inv td td' :
  NoDup (tr_ID <$> td_roots td') → (∀ x, known td x → known td' x) → td_records td' = td_records td → trust_inv td → trust_inv td'.
Proof.
  intros Hnd Hk Hr [_ Hrec]. split; [done|]. rewrite Hr. intros r Hin Hst. destruct (Hrec r Hin Hst) as (root & Hroot & Hj).
  destruct (Hk root) as (y & Hy & Hs); [by exists root|]. exists y. split; [done|]. by eapply justifies_same.
Qed.
Lemma grows_refl rot td : grows rot td td.
Proof. repeat split; try done; try lia. eauto. Qed.
Lemma grows_trans rot a b c : grows rot a b → grows rot b c → grows rot a c.
Proof.
  intros (K1 & P1 & R1 & L1) (K2 & P2 & R2 & L2). repeat split; [auto|specialize (P1 env); specialize (P2 env); lia..|auto|].
  intros Hrot x Hx Hl. destruct (L1 Hrot x Hx Hl) as (y & Hy & Hid & Hst). rewrite <- Hst in Hl.
  destruct (L2 Hrot y Hy Hl) as (z & Hz & Hid' & Hst'). exists z. split; [done|]. split; congruence.
Qed.

(** Rewriting rows in place, keeping what identifies them. *)
Lemma update_root_known td td' p f :
  td_roots td' = update_root p f (td_roots td) → (∀ r, r ∈ td_roots td → p r = true → same_root r (f r)) →
  (NoDup (tr_ID <$> td_roots td) → NoDup (tr_ID <$> td_roots td')) ∧ ∀ x, known td x → known td' x.
Proof.
  intros Heq Hf. unfold known. rewrite Heq. split.
  - rewrite update_root_ids; [done|]. intros r Hr Hp. symmetry. by apply Hf.
  - intros x (y & Hy & Hs). exists (if p y then f y else y). split; [apply update_root_elem; eauto|].
    destruct (p y) eqn:E; [|done]. eapply same_root_trans; [exact Hs|by apply Hf].
Qed.
Lemma policy_insert td td' env v :
  td_policies td' = <[env := v]> (td_policies td) → (policy_of td env).1 ≤ v.1 → (policy_of td env).2 ≤ v.2 →
  ∀ e, (policy_of td e).1 ≤ (policy_of td' e).1 ∧ (policy_of td e).2 ≤ (policy_of td' e).2.
Proof.
  intros Heq H1 H2 e. unfold policy_of in *. rewrite Heq. destruct (decide (e = env)) as [->|Hne]; [by rewrite lookup_insert_eq|].
  rewrite lookup_insert_ne by done. lia.
Qed.

Definition call_ok (rot : bool) (td td' : TrustDB) : Prop := trust_inv td' ∧ grows rot td td'.
Lemma Create_root_ok rot now r td : trust_inv td → call_ok rot td (Create_root now r td).2.
Proof.
  intros Hi. unfold Create_root. destruct (_ || _); [split; [done|apply grows_refl]|].
  destruct (existsb _ _) eqn:E; [split; [done|apply grows_refl]|]. cbn [snd].
  set (row := stored_root _). assert (Hk : ∀ x, known td x → known (set_roots (td_roots td ++ [row]) td) x)
    by (intros x (y & Hy & Hs); exists y; split; [by apply elem_of_app; left|done]).
  split.
  - eapply known_inv; [|exact Hk|done|done]. cbn. rewrite fmap_app. apply NoDup_app. split; [apply Hi|]. split; [|apply NoDup_singleton].
    intros x Hx Hin. apply list_elem_of_singleton in Hin as ->. apply existsb_id in Hx. cbn in Hx. congruence.
  - repeat split; [done|unfold policy_of; cbn; lia..|done|]. intros _ x Hx Hl. exists x. split; [by apply elem_of_app; left|done].
Qed.
Lemma Update_root_ok now r td old :
  trust_inv td → known td old → same_root old r → call_ok true td (Update_root now r td).2.
Proof.
  intros Hi (y & Hy & Hoy) Hor. unfold Update_root. destruct (existsb _ _); [|split; [done|apply grows_refl]]. cbn [snd].
  assert (Hf : ∀ x, x ∈ td_roots td → byRootID (tr_ID r) x = true →
            same_root x (stored_root (root_times (tr_State r) (tr_ValidFrom r) (tr_GraceUntil r) (tr_CreatedAt x) now (tr_RevokedAt r) r))).
  { intros x Hx Hid. apply bool_decide_eq_true in Hid. destruct Hi as [Hnd _].
    assert (x = y) as -> by (apply (root_by_id _ _ _ Hnd Hx Hy); destruct Hoy as [? _], Hor as [? _]; congruence).
    unfold same_root in *. cbn. intuition congruence. }
  match goal with |- call_ok _ _ ?td' => destruct (update_root_known td td' _ _ eq_refl Hf) as [Hnd Hk] end.
  split; [by eapply known_inv; [apply Hnd, Hi|exact Hk| |]|]. repeat split; [done|unfold policy_of; cbn; lia..|done|done].
Qed.
Lemma BumpPolicy_ok rot env td : trust_inv td → call_ok rot td (BumpPolicy env td).2.
Proof.
  intros Hi. unfold BumpPolicy. destruct (default (0, 0) (td_policies td !! env)) as [v e] eqn:E. cbn [snd].
  split; [done|]. split_and!; [done| |done|eauto].
  apply (policy_insert td _ env (v + 1, e)); [done| |]; unfold policy_of; rewrite E; cbn; lia.
Qed.
Lemma TransitionLiveRoot_ok rot now id env to rev bump td : trust_inv td → call_ok rot td (TransitionLiveRoot now id env to rev bump td).2.
Proof.
  intros Hi. unfold TransitionLiveRoot. destruct (negb _); [split; [done|apply grows_refl]|].
  destruct (_ =? 0)%nat; [split; [done|apply grows_refl]|].
  destruct (default (0, 0) (td_policies td !! env)) as [v e] eqn:E. destruct (if bump then _ else _) as [v' e'] eqn:Eb. cbn [snd].
  match goal with |- call_ok _ _ ?td' => destruct (update_root_known td td' (live_with_id id) (transition_root to now rev) eq_refl) as [Hnd Hk] end; [done|].
  split; [by eapply known_inv; [apply Hnd, Hi|exact Hk| |]|]. split_and!; [done| |done|].
  - apply (policy_insert td _ env (v', e')); [done| |]; unfold policy_of; rewrite E; destruct bump; simplify_eq/=; lia.
  - intros _ x Hx Hl. exists x. split; [|done]. apply update_root_elem. exists x. split; [done|].
    unfold live_with_id. by rewrite Hl, andb_false_r.
Qed.
Lemma Create_record_ok rot r td :
  trust_inv td → (ve_Status r = VerificationTrusted → ∃ root, known td root ∧ justifies root r) → call_ok rot td (Create_record r td).2.
Proof.
  intros Hi Hr. unfold Create_record. destruct (existsb _ _); [split; [done|apply grows_refl]|]. cbn [snd]. split.
  - split; [apply Hi|]. cbn. intros x [Hx| ->%list_elem_of_singleton]%elem_of_app Hst; [by apply Hi|].
    destruct (Hr Hst) as (root & (y & Hy & Hs) & Hj). exists y. split; [done|]. by eapply justifies_same.
  - repeat split; [done|unfold policy_of; cbn; lia..|intros; by apply elem_of_app; left|eauto].
Qed.

(** One call of a sound program. *)
Lemma exec_ok {A} rot seen fault (p : prog A) td :
  sound_prog rot seen p → Forall (known td) seen → trust_inv td →
  call_ok rot td (exec fault p td).2
  ∧ ∃ seen', sound_prog rot seen' (exec fault p td).1 ∧ Forall (known (exec fault p td).2) seen'.
Proof.
  intros Hp Hseen Hi.
  assert (Hmono : ∀ td', call_ok rot td td' → Forall (known td') seen)
    by (intros td' (_ & Hk & _); eapply Forall_impl; [exact Hseen|exact Hk]).
  assert (Hstay : call_ok rot td td) by (split; [done|apply grows_refl]).
  destruct p as [a|id k|env k|env at_ k|env k|d v s k|now r k|now r k|env k|now id env to rev bump k|r k|e k]; cbn [exec sound_prog] in *.
  - split; [done|]. by exists seen.
  - assert (Hn : ∀ r, (∀ x, r = Ok x → known td x) → ∃ seen', sound_prog rot seen' (k r) ∧ Forall (known td) seen').
    { intros r Hr. exists (match r with Ok x => x :: seen | Err _ => seen end). split; [apply Hp|].
      destruct r as [x|e]; [|done]. by constructor; [apply Hr|]. }
    unfold served. destruct fault; cbn; (split; [done|]); apply Hn; [done|]. intros x Hx. apply Get_root_elem in Hx as [Hx _].
    by exists x.
  - unfold served. destruct fault; cbn; (split; [done|]); eauto.
  - assert (Hn : ∀ r, (∀ l, r = Ok l → Forall (known td) l) → ∃ seen', sound_prog rot seen' (k r) ∧ Forall (known td) seen').
    { intros r Hr. exists (match r with Ok l => l ++ seen | Err _ => seen end). split; [apply Hp|].
      destruct r as [l|e]; [|done]. apply Forall_app. auto. }
    unfold served. destruct fault; cbn; (split; [done|]); apply Hn; [done|]. intros l [= <-]. apply Forall_forall.
    intros x [Hx _]%active_elem. by exists x.
  - unfold served. destruct fault; cbn; (split; [done|]); eauto.
  - unfold served. destruct fault; cbn; (split; [done|]); eauto.
  - pose proof (Create_root_ok rot now r td Hi) as Hc. unfold served.
    destruct fault, (Create_root now r td) as [x td']; cbn in *; (split; [done|]); eauto.
  - destruct Hp as (-> & (old & Hold & Hs) & Hk). rewrite Forall_forall in Hseen. pose proof (Update_root_ok now r td old Hi (Hseen _ Hold) Hs) as Hc.
    unfold served. destruct fault, (Update_root now r td) as [x td']; cbn in *; (split; [done|]); eauto.
  - pose proof (BumpPolicy_ok rot env td Hi) as Hc. unfold served.
    destruct fault, (BumpPolicy env td) as [x td']; cbn in *; (split; [done|]); eauto.
  - pose proof (TransitionLiveRoot_ok rot now id env to rev bump td Hi) as Hc. unfold served.
    destruct fault, (TransitionLiveRoot now id env to rev bump td) as [x td']; cbn in *; (split; [done|]); eauto.
  - destruct Hp as [Hr Hk]. rewrite Forall_forall in Hseen.
    assert (Hc : call_ok rot td (Create_record r td).2).
    { apply Create_record_ok; [done|]. intros Hst. destruct (Hr Hst) as (root & Hin & Hj). exists root. auto. }
    unfold served. destruct fault, (Create_record r td) as [x td']; cbn in *; (split; [done|]); eauto.
  - assert (Hc : call_ok rot td (add_audit e td)) by (split; [done|]; repeat split; [done|unfold policy_of; cbn; lia..|done|eauto]). split; [done|]. exists seen. auto.
Qed.

Lemma sound_map_prog {A B} (f : A → B) rot seen (p : prog A) : sound_prog rot seen p → sound_prog rot seen (map_prog f p).
Proof. revert seen. induction p; cbn; intros seen Hp; try solve [intuition eauto]; done. Qed.
Lemma sound_buildPolicy {A} rot seen env v e (k : Policy → prog (rpc A)) :
  (∀ p, sound_prog rot seen (k p)) → sound_prog rot seen (buildPolicy env v e k).
Proof. intros Hk [roots|e']; cbn; auto. Qed.
Lemma sound_checkOverlap {A} rot seen env i k s (p : prog (rpc A)) :
  sound_prog rot seen p → sound_prog rot seen (checkOverlap env i k s p).
Proof. intros Hp [roots|e]; cbn; [|done]. by destruct (overlap i k s roots). Qed.
Lemma sound_create_and_bump {A} rot seen clock a root (k : Policy → prog (rpc A)) :
  (∀ p, sound_prog rot seen (k p)) → sound_prog rot seen (create_and_bump clock a root k).
Proof. intros Hk [u|e]; cbn; [|done]. intros [[v ep]|e]; [|done]. apply sound_buildPolicy. intros p. cbn. apply Hk. Qed.
Lemma sound_remove rot clock id action guard to rev bump : sound_prog rot [] (remove_root clock id action guard to rev bump).
Proof.
  intros [root|e]; cbn; [|done]. destruct (guard (tr_State root)); [done|]. intros [meta|e]; [|done].
  apply sound_buildPolicy. by intros p.
Qed.
Lemma check_roots_trusted inp ref sig epoch m roots out :
  check_roots pem_Decode ParsePKIXPublicKey ed25519_Verify quote_text inp ref sig epoch m roots = out → ou_Status out = VerificationTrusted →
  ∃ root k, root ∈ roots ∧ Matches (sg_Issuer ref) (sg_Subject ref) root = true ∧ ParsePublicKey (tr_PublicKeyPEM root) = Some k
    ∧ ed25519_Verify k (in_Digest inp) sig = true ∧ ou_RootID out = tr_ID root ∧ ou_KeyID out = tr_KeyID root ∧ ou_RevocationEpoch out = epoch.
Proof.
  intros <-. revert m. induction roots as [|root roots IH]; intros m; cbn; [by destruct m|].
  destruct (Matches _ _ root) eqn:Hm; cbn; [|intros H; destruct (IH m H) as (r & k & Hr & ?); exists r, k; split; [by right|done]].

  destruct (ParsePublicKey (tr_PublicKeyPEM root)) as [k|] eqn:Hk; [|done].
  destruct (ed25519_Verify k (in_Digest inp) sig) eqn:Hs.
  - intros _. exists root, k. split_and!; try done. by left.
  - intros H. destruct (IH true H) as (r & k' & Hr & ?). exists r, k'. split; [by right|done].
Qed.
Lemma sound_persist rot seen v uuid clock inp pv out :
  (ou_Status out = VerificationTrusted → ∃ root, root ∈ seen ∧ justifies root (verdict_record uuid clock inp pv out)) →
  sound_prog rot seen (persist v uuid clock inp pv out Return).
Proof. intros H. unfold persist. destruct (vf_store v); cbn; [|done]. split; [done|]. by intros [|]. Qed.
Lemma sound_Verify rot v c1 c2 c3 uuid inp :
  sound_prog rot [] (Verify pem_Decode ParsePKIXPublicKey ed25519_Verify quote_text v c1 c2 c3 uuid inp).
Proof.
  unfold Verify. destruct (vf_resolver v); cbn; [|done]. intros [meta|e]; [|done].
  assert (Hfresh : ∀ seen, sound_prog rot seen (verifyFresh pem_Decode ParsePKIXPublicKey ed25519_Verify quote_text c2 inp (tp_RevocationEpoch meta)
            (λ out, persist v uuid c3 inp (PolicyVersion (tp_Version meta)) out Return))).
  { intros seen. unfold verifyFresh. destruct (in_SignatureRef inp) as [ref|] eqn:Href; [|by apply sound_persist].
    destruct (negb _); [by apply sound_persist|]. case_bool_decide; [by apply sound_persist|].
    destruct (StdEncoding_DecodeString _) as [sig|]; [|by apply sound_persist]. destruct (negb _); [by apply sound_persist|].
    cbn. intros [roots|e]; [|by apply sound_persist]. apply sound_persist. intros Hst.
    destruct (check_roots_trusted inp ref sig _ _ _ _ eq_refl Hst) as (root & k & Hr & _ & Hk & Hs & Hid & Hkey & _).
    exists root. split; [by apply elem_of_app; left|]. repeat split; [done|done|]. by exists k, sig. }
  unfold cachedRecord. destruct (vf_store v); cbn; [|done]. intros [record|e]; [|done].
  destruct (_ <? _); [done|]. intros [live|e]; [|done]. by destruct (existsb _ live).
Qed.

Definition is_rotation (q : request) : bool := match q with ReqRotate _ _ _ _ _ => true | _ => false end.
Lemma sound_serve rot q : (is_rotation q = true → rot = true) → sound_prog rot [] (serve q).
Proof.
  intros Hq. destruct q as [now clock uuid msg|now c1 c2 uuid msg|clock id|clock id|now clock id|env|v c1 c2 c3 uuid inp]; apply sound_map_prog.
  - unfold CreateTrustRoot. destruct (Validate _ _ _ _) as [root|e]; [|done]. apply sound_checkOverlap, sound_create_and_bump. done.
  - cbn. intros [old|e]; [|done]. destruct (negb _); [done|]. destruct (Validate _ _ _ _) as [root|e]; [|done].
    apply sound_checkOverlap. cbn. split; [by apply Hq|]. split; [exists old; split; [by left|done]|].
    intros [u|e]; [|done]. by apply sound_create_and_bump.
  - apply sound_remove.
  - apply sound_remove.
  - apply sound_remove.
  - intros [meta|e]; [|done]. by apply (sound_buildPolicy rot [] env (tp_Version meta) (tp_RevocationEpoch meta) (λ policy, Return (Ok policy))).
  - apply sound_Verify.
Qed.

Lemma reachable_ok rot allowed td pool td' pool' :
  (∀ q, allowed q → is_rotation q = true → rot = true) → trust_inv td →
  Forall (λ p, ∃ seen, sound_prog rot seen p ∧ Forall (known td) seen) pool →
  trust_reachable allowed (td, pool) (td', pool') → trust_inv td' ∧ grows rot td td'.
Proof.
  intros Hrot. remember (td, pool) as s eqn:Hs. remember (td', pool') as s' eqn:Hs'. intros Hi Hpool Hr. revert td pool Hs Hi Hpool.
  induction Hr as [s|s s1 s' Hstep _ IH]; intros td pool Hs Hi Hpool; subst.
  { simplify_eq. split; [done|apply grows_refl]. }
  inversion Hstep as [q td0 pool0 Hq Heq|fault i p td0 pool0 Hp Heq]; simplify_eq.
  - apply (IH eq_refl td (pool ++ [serve q]) eq_refl Hi). apply Forall_app. split; [done|]. constructor; [|constructor].
    exists []. split; [|constructor]. apply sound_serve. by apply Hrot.
  - destruct (proj1 (Forall_lookup _ _) Hpool i p Hp) as (seen & Hsound & Hseen).
    destruct (exec_ok rot seen fault p td Hsound Hseen Hi) as ([Hi' Hg] & seen' & Hsound' & Hseen').
    destruct (IH eq_refl _ _ eq_refl Hi') as [Hi'' Hg'].
    + apply Forall_lookup. intros j q Hj. destruct (decide (i = j)) as [<-|Hne].
      * rewrite list_lookup_insert_eq in Hj by (by eapply lookup_lt_Some). injection Hj as <-. eauto.
      * rewrite list_lookup_insert_ne in Hj by done. destruct (proj1 (Forall_lookup _ _) Hpool j q Hj) as (sn & ? & Hsn).
        exists sn. split; [done|]. eapply Forall_impl; [exact Hsn|]. apply Hg.
    + split; [done|]. by eapply grows_trans.
Qed.
(** C29: a trusted verdict is always justified.  Whatever requests arrive and
    however their store calls interleave and fail, every record of status
    trusted names a root of the table with its key id, and the key of that root
    has verified an Ed25519 signature over exactly the recorded digest; and no
    root ever changes its environment, key, issuer or subject pattern. *)
Theorem trusted_record_signed td td' pool :
  trust_inv td → trust_reachable (λ _, True) (td, []) (td', pool) →
  (∀ r, r ∈ td_records td' → ve_Status r = VerificationTrusted →
     ∃ root, root ∈ td_roots td' ∧ tr_ID root = ve_RootID r ∧ tr_KeyID root = ve_KeyID r ∧ signed_by root (ve_ArtifactDigest r)) ∧
  NoDup (tr_ID <$> td_roots td') ∧ (∀ x, x ∈ td_roots td → ∃ y, y ∈ td_roots td' ∧ same_root x y).
Proof.
  intros Hi Hr. destruct (reachable_ok true _ _ _ _ _ (λ _ _ _, eq_refl) Hi (Forall_nil_2 _) Hr) as [[Hnd Hrec] (Hk & _)].
  split_and!; [exact Hrec|exact Hnd|]. intros x Hx. apply Hk. by exists x.
Qed.

(** Without rotations a removed root stays removed.  In every interleaving of
    creations, removals, reads and verifications a root that is pending, retired
    or revoked keeps that state, no verdict is lost, and the policy version and
    the revocation epoch of an environment never decrease. *)
Theorem removed_roots_final td td' pool :
  trust_inv td → trust_reachable (λ q, is_rotation q = false) (td, []) (td', pool) →
  (∀ x, x ∈ td_roots td → live_state (tr_State x) = false →
     ∃ y, y ∈ td_roots td' ∧ tr_ID y = tr_ID x ∧ tr_State y = tr_State x) ∧
  (∀ r, r ∈ td_records td → r ∈ td_records td') ∧
  ∀ env, (policy_of td env).1 ≤ (policy_of td' env).1 ∧ (policy_of td env).2 ≤ (policy_of td' env).2.
Proof.
  intros Hi Hr. assert (Hrot : ∀ q, is_rotation q = false → is_rotation q = true → false = true) by (intros q -> ; done).
  destruct (reachable_ok false _ _ _ _ _ Hrot Hi (Forall_nil_2 _) Hr) as [_ (_ & Hp & Hrec & Hl)].
  split_and!; auto.
Qed.

(** What a verdict promises, with the clock readings of the cached and of the
    fresh check. *)
Definition verified_soundly (c1 c2 : time) (inp : Input) (td : TrustDB) (out : Output) (td' : TrustDB) : Prop :=
  td_roots td' = td_roots td ∧ td_policies td' = td_policies td ∧
  (ou_Status out = VerificationTrusted →
     ∃ root, root ∈ td_roots td ∧ tr_ID root = ou_RootID out ∧ signed_by root (in_Digest inp) ∧
       ((∃ record, record ∈ td_records td ∧ ve_ArtifactDigest record = in_Digest inp ∧
           ve_SignatureIdentity record = signatureIdentity (in_SignatureRef inp) ∧
           ve_PolicyVersion record = PolicyVersion (tp_Version (GetPolicy (in_Environment inp) td)) ∧
           tp_RevocationEpoch (GetPolicy (in_Environment inp) td) ≤ ve_RevocationEpoch record ∧
           accepts (in_Environment inp) c1 root = true ∧ td' = td) ∨
        (∃ ref signature k, in_SignatureRef inp = Some ref ∧ sg_Digest ref = in_Digest inp ∧
           StdEncoding_DecodeString (sg_Signature ref) = Some signature ∧ length signature = 64%nat ∧
           Matches (sg_Issuer ref) (sg_Subject ref) root = true ∧ ParsePublicKey (tr_PublicKeyPEM root) = Some k ∧
           ed25519_Verify k (in_Digest inp) signature = true ∧ accepts (in_Environment inp) c2 root = true))).

(** C30: a trusted answer means a live signature.  When [Verify] answers trusted,
    then a root that accepts signatures for the environment at the moment of the
    check has a key that verified an Ed25519 signature over the digest: either
    the presented one, from a root of the presented issuer and subject, or one
    behind a recorded verdict on the same digest, policy version and signature
    identity that no revocation has overtaken.  Nothing but one verdict record is
    written. *)
Theorem Verify_sound v c1 c2 c3 uuid inp td out td' :
  trust_inv td →
  run (Verify pem_Decode ParsePKIXPublicKey ed25519_Verify quote_text v c1 c2 c3 uuid inp) td = (out, td') →
  verified_soundly c1 c2 inp td out td'.
Proof.
  intros Hi. unfold Verify. destruct (vf_resolver v); cbn [negb run]; [|by intros [= <- <-]].
  set (meta := GetPolicy (in_Environment inp) td). set (pv := PolicyVersion (tp_Version meta)).
  assert (Hpersist : ∀ o, run (persist v uuid c3 inp pv o Return) td = (out, td') →
            td_roots td' = td_roots td ∧ td_policies td' = td_policies td ∧ ou_Status out = ou_Status o ∧ ou_RootID out = ou_RootID o).
  { intros o. unfold persist. destruct (vf_store v); cbn; [|by intros [= <- <-]]. unfold Create_record.
    destruct (existsb _ _); cbn; by intros [= <- <-]. }
  assert (Hfresh : run (verifyFresh pem_Decode ParsePKIXPublicKey ed25519_Verify quote_text c2 inp (tp_RevocationEpoch meta)
            (λ o, persist v uuid c3 inp pv o Return)) td = (out, td') →
          td_roots td' = td_roots td ∧ td_policies td' = td_policies td ∧
          (ou_Status out = VerificationTrusted → ∃ ref signature root k, in_SignatureRef inp = Some ref ∧ sg_Digest ref = in_Digest inp ∧
           StdEncoding_DecodeString (sg_Signature ref) = Some signature ∧ length signature = 64%nat ∧ root ∈ td_roots td ∧ tr_ID root = ou_RootID out ∧
           Matches (sg_Issuer ref) (sg_Subject ref) root = true ∧ ParsePublicKey (tr_PublicKeyPEM root) = Some k ∧
           ed25519_Verify k (in_Digest inp) signature = true ∧ accepts (in_Environment inp) c2 root = true)).
  { unfold verifyFresh. destruct (in_SignatureRef inp) as [ref|]; [|intros H; by destruct (Hpersist _ H) as (? & ? & -> & _)].
    case_bool_decide as Hd; cbn [negb]; [|intros H; by destruct (Hpersist _ H) as (? & ? & -> & _)].
    case_bool_decide; [intros H'; by destruct (Hpersist _ H') as (? & ? & -> & _)|].
    destruct (StdEncoding_DecodeString (sg_Signature ref)) as [sig|] eqn:Hsig; [|intros H'; by destruct (Hpersist _ H') as (? & ? & -> & _)].
    destruct (Nat.eqb_spec (length sig) 64) as [Hlen|]; cbn [negb]; [|intros H'; by destruct (Hpersist _ H') as (? & ? & -> & _)].
    cbn [run]. intros H'. destruct (Hpersist _ H') as (Hr & Hp & Hst & Hid). split_and!; [done|done|]. rewrite Hst. intros Ht.
    destruct (check_roots_trusted inp ref sig _ _ _ _ eq_refl Ht) as (root & k & Hroot & Hm & Hk & Hv & Hrid & _).
    apply active_elem in Hroot as [Hroot Ha]. exists ref, sig, root, k. split_and!; try done. congruence. }
  assert (Hmiss : ∀ o, o = (out, td') → run (verifyFresh pem_Decode ParsePKIXPublicKey ed25519_Verify quote_text c2 inp (tp_RevocationEpoch meta)
            (λ o, persist v uuid c3 inp pv o Return)) td = o → verified_soundly c1 c2 inp td out td').
  { intros o -> H. destruct (Hfresh H) as (Hr & Hp & Ht). split_and!; [done|done|]. intros Hst.
    destruct (Ht Hst) as (ref & sig & root & k & ? & ? & ? & ? & Hroot & Hid & Hm & Hk & Hv & Ha).
    exists root. split_and!; [done|done|by exists k, sig|]. right. by exists ref, sig, k. }
  unfold cachedRecord. destruct (vf_store v); cbn [negb run]; [|by eapply Hmiss].
  destruct (GetByDigestPolicyAndSignature _ _ _ td) as [record|e] eqn:Efind; [|by eapply Hmiss].
  destruct (Z.ltb_spec (ve_RevocationEpoch record) (tp_RevocationEpoch meta)) as [|Hepoch]; [by eapply Hmiss|]. cbn [run].
  destruct (existsb _ _) eqn:Elive; [|by eapply Hmiss]. cbn [run]. intros [= <- <-]. split_and!; [done|done|]. intros Hst.
  apply found_record in Efind as (Hrec & Hd & Hp & Hs). destruct (proj2 Hi record Hrec Hst) as (root & Hroot & Hid & _ & Hsig).
  apply existsb_id, list_elem_of_fmap in Elive as (x & Hx & Hlive). apply active_elem in Hlive as [Hlive Ha].
  assert (x = root) as -> by (apply (root_by_id _ _ _ (proj1 Hi) Hlive Hroot); cbn in *; congruence).
  exists root. split_and!; [done|by symmetry|by rewrite <- Hd|]. left. by exists record.
Qed.
End invariants.

(** ** Examples: toy keys that are their own PEM text *)
Definition toy_pem (s : string) : option (string * string * string) := Some ("PUBLIC KEY", s, "").
Definition toy_pkix (s : string) : option (option string) := Some (Some s).
Definition toy_verify (k digest : string) (signature : list Z) : bool := bool_decide (k = "k1").
Definition toy_quote (s : string) : string := s.
Abbreviation toy_serve := (serve toy_pem toy_pkix toy_verify toy_quote).
Abbreviation toy_reachable := (trust_reachable toy_pem toy_pkix toy_verify toy_quote).
(** Which program makes the next call. *)
Fixpoint play (schedule : list nat) (s : TrustDB * list (prog response)) : TrustDB * list (prog response) :=
  match schedule with
  | [] => s
  | i :: schedule =>
      match s.2 !! i with
      | Some p => play schedule ((exec false p s.1).2, <[i := (exec false p s.1).1]> s.2)
      | None => play schedule s
      end
  end.
Lemma play_reachable allowed schedule s : toy_reachable allowed s (play schedule s).
Proof.
  revert s. induction schedule as [|i schedule IH]; intros [td pool]; cbn; [constructor|].
  destruct (pool !! i) as [p|] eqn:E; [|apply IH]. eapply rtc_l; [by apply (step_call _ _ _ _ _ false i p)|]. apply IH.
Qed.
Lemma arrive_reachable allowed qs td : Forall allowed qs → toy_reachable allowed (td, []) (td, map toy_serve qs).
Proof.
  intros Hq. change (map toy_serve qs) with ([] ++ map toy_serve qs). generalize (@nil (prog response)).
  induction Hq as [|q qs Hq _ IH]; intros pool; [rewrite app_nil_r; constructor|].
  eapply rtc_l; [by apply (step_arrive _ _ _ _ _ q)|]. specialize (IH (pool ++ [toy_serve q])). rewrite <- app_assoc in IH. exact IH.
Qed.
Lemma played allowed qs td schedule : Forall allowed qs → toy_reachable allowed (td, []) (play schedule (td, map toy_serve qs)).
Proof. intros Hq. etrans; [by apply arrive_reachable|apply play_reachable]. Qed.

Definition no_trust : TrustDB := {| td_roots := []; td_policies := ∅; td_records := []; td_audit := [] |}.
Definition second (n : Z) : time := n * nsec.
Definition toy_root (keyID : string) : CreateTrustRootRequest :=
  {| nr_Environment := "prod"; nr_KeyId := keyID; nr_PublicKeyPem := keyID; nr_Issuer := "issuer-" ++ keyID; nr_SubjectPattern := "";
     nr_ValidFrom := None |}.
Definition toy_signature : string := String.string_of_list_ascii (repeat "A"%char 86 ++ ["="%char; "="%char]).
Definition toy_input : Input :=
  {| in_Digest := "sha256:d"; in_Environment := "prod";
     in_SignatureRef := Some {| sg_Digest := "sha256:d"; sg_Signature := toy_signature; sg_Issuer := "issuer-k1"; sg_Subject := "ci" |} |}.
Definition toy_verifier : Ed25519Verifier := {| vf_store := true; vf_resolver := true |}.
(** Two roots, one after the other. *)
Definition two_roots : TrustDB :=
  (play (repeat 0%nat 6 ++ repeat 1%nat 6)
     (no_trust, map toy_serve [ReqCreate (second 10) (second 10) "r1" (toy_root "k1"); ReqCreate (second 11) (second 11) "r2" (toy_root "k2")])).1.
Example two_roots_live : (λ r, (tr_ID r, tr_State r)) <$> GetActiveByEnvironment "prod" (second 20) two_roots = [("r1", RootActive); ("r2", RootActive)].
Proof. by vm_compute. Qed.
Definition states (td : TrustDB) : list (string * RootState) := (λ r, (tr_ID r, tr_State r)) <$> td_roots td.
Definition toy_trusted (clock : Z) (td : TrustDB) : VerificationStatus :=
  ou_Status (run (Verify toy_pem toy_pkix toy_verify toy_quote toy_verifier (second clock) (second clock) (second clock) "v" toy_input) td).1.

(** ** Findings *)
Definition rotate_k1 : request :=
  ReqRotate (second 30) (second 30) (second 30) "r3"
    {| or_New := toy_root "k3"; or_OldRootId := "r1"; or_GraceUntil := Some (second 1000) |}.
(** A rotation reads the old root, a revocation of that root commits, and the
    rotation writes the row it read back as in grace: the revoked root is live
    again, without its revocation time, and a signature of its key is trusted. *)
Lemma rotation_revives_revoked_root :
  let pool := map toy_serve [rotate_k1; ReqRevoke (second 30) (second 30) "r1"] in
  let revoked := (play ([0; 0]%nat ++ repeat 1%nat 4) (two_roots, pool)).1 in
  let after := (play ([0; 0]%nat ++ repeat 1%nat 4 ++ repeat 0%nat 5) (two_roots, pool)).1 in
  states revoked = [("r1", RootRevoked); ("r2", RootActive)] ∧ toy_trusted 40 revoked = VerificationRejected ∧
  states after = [("r1", RootGrace); ("r2", RootActive); ("r3", RootActive)] ∧
  (tr_RevokedAt <$> td_roots after) = [None; None; None] ∧ toy_trusted 40 after = VerificationTrusted.
Proof. by vm_compute. Qed.
(** A rotation may name another environment for the new root and then leaves the
    old root's environment without any live root: the last-root guard is only in
    the removals. *)
Lemma rotation_empties_environment :
  let one := (play (repeat 0%nat 6) (no_trust, [toy_serve (ReqCreate (second 10) (second 10) "r1" (toy_root "k1"))])).1 in
  let msg := {| or_New := {| nr_Environment := "staging"; nr_KeyId := "k9"; nr_PublicKeyPem := "k9"; nr_Issuer := "i9"; nr_SubjectPattern := "";
                             nr_ValidFrom := None |}; or_OldRootId := "r1"; or_GraceUntil := None |} in
  let after := (play (repeat 0%nat 8) (one, [toy_serve (ReqRotate (second 30) (second 30) (second 30) "r9" msg)])).1 in
  length (GetActiveByEnvironment "prod" (second 30) one) = 1%nat ∧ GetActiveByEnvironment "prod" (second 30) after = [].
Proof. by vm_compute. Qed.
(** Within one second the texts of the times order .12 before .1: a rejection
    recorded after a trusted verdict is not the latest verdict. *)
Lemma later_rejection_shadowed :
  let verdict id status t := {| ve_ID := id; ve_ArtifactDigest := "d"; ve_PolicyVersion := "1"; ve_SignatureIdentity := id; ve_Status := status;
                                ve_RootID := ""; ve_KeyID := ""; ve_RevocationEpoch := 0; ve_Issuer := ""; ve_Subject := ""; ve_Summary := "";
                                ve_CreatedAt := t |} in
  let trusted := verdict "a" VerificationTrusted (second 100 + 100000000) in
  let rejected := verdict "b" VerificationRejected (second 100 + 120000000) in
  let td := set_records [trusted; rejected] no_trust in
  ve_CreatedAt trusted < ve_CreatedAt rejected ∧ GetLatestVerdictByDigestAndPolicy "d" "1" td = Ok trusted.
Proof. by vm_compute. Qed.

(** ** Witnesses *)
Definition verified_pool : TrustDB * list (prog response) :=
  play (repeat 0%nat 6 ++ repeat 1%nat 5)
    (no_trust, map toy_serve [ReqCreate (second 10) (second 10) "r1" (toy_root "k1");
                              ReqVerify toy_verifier (second 20) (second 20) (second 20) "v1" toy_input]).
Lemma no_trust_inv : trust_inv toy_pem toy_pkix toy_verify no_trust.
Proof. split; [constructor|]. intros r Hr. by apply not_elem_of_nil in Hr. Defined.
Lemma trusted_record_signed_witness :
  (ve_Status <$> td_records verified_pool.1) = [VerificationTrusted] ∧
  ∀ r, r ∈ td_records verified_pool.1 → ve_Status r = VerificationTrusted →
    ∃ root, root ∈ td_roots verified_pool.1 ∧ tr_ID root = ve_RootID r ∧ tr_KeyID root = ve_KeyID r
            ∧ signed_by toy_pem toy_pkix toy_verify root (ve_ArtifactDigest r).
Proof.
  split; [by vm_compute|].
  apply (trusted_record_signed toy_pem toy_pkix toy_verify toy_quote no_trust verified_pool.1 verified_pool.2 no_trust_inv).
  rewrite <- surjective_pairing. apply played. repeat constructor.
Defined.
Lemma two_roots_inv : trust_inv toy_pem toy_pkix toy_verify two_roots.
Proof.
  split; [apply (bool_decide_unpack _); by vm_compute|]. assert (H : td_records two_roots = []) by by vm_compute. rewrite H.
  intros r Hr. exact (False_ind _ (not_elem_of_nil r Hr)).
Defined.
Lemma TransitionLiveRoot_exact_witness :
  let '(r, td') := TransitionLiveRoot (second 30) "r1" "prod" RootRevoked (Some (second 30)) true two_roots in
  (∃ meta, r = Ok meta ∧ tp_RevocationEpoch meta = 1) ∧ ∃ x, x ∈ td_roots td' ∧ tr_ID x ≠ "r1" ∧ accepts "prod" (second 30) x = true.
Proof.
  pose proof (TransitionLiveRoot_exact (second 30) "r1" "prod" RootRevoked (Some (second 30)) true two_roots _ _
                (proj1 two_roots_inv) eq_refl (surjective_pairing _)) as H.
  destruct (TransitionLiveRoot _ _ _ _ _ _ two_roots) as [r td'] eqn:E. destruct r as [meta|e].
  - split; [|apply H]. exists meta. split; [done|]. apply (f_equal fst) in E. vm_compute in E. by injection E as <-.
  - apply (f_equal fst) in E. by vm_compute in E.
Defined.
Lemma Verify_sound_witness :
  toy_trusted 40 two_roots = VerificationTrusted ∧
  verified_soundly toy_pem toy_pkix toy_verify (second 40) (second 40) toy_input two_roots
    (run (Verify toy_pem toy_pkix toy_verify toy_quote toy_verifier (second 40) (second 40) (second 40) "v" toy_input) two_roots).1
    (run (Verify toy_pem toy_pkix toy_verify toy_quote toy_verifier (second 40) (second 40) (second 40) "v" toy_input) two_roots).2.
Proof.
  split; [by vm_compute|]. eapply Verify_sound; [apply two_roots_inv|apply surjective_pairing].
Defined.
Definition removal_pool : TrustDB * list (prog response) :=
  play (repeat 0%nat 4) (two_roots, map toy_serve [ReqRevoke (second 30) (second 30) "r1"]).
Lemma removed_roots_final_witness :
  states removal_pool.1 = [("r1", RootRevoked); ("r2", RootActive)] ∧
  ∀ env, (policy_of two_roots env).1 ≤ (policy_of removal_pool.1 env).1 ∧ (policy_of two_roots env).2 ≤ (policy_of removal_pool.1 env).2.
Proof.
  split; [by vm_compute|].
  apply (removed_roots_final toy_pem toy_pkix toy_verify toy_quote two_roots removal_pool.1 removal_pool.2 two_roots_inv).
  rewrite <- surjective_pairing. apply played. repeat constructor.
Defined.
