(* ===== verification/Lifecycle.v ===== *)
(** * The operation state machine (internal/orchestrator/operation/state.go)

    [Transition] is the event-driven table; [CanTransitionTo] (Domain.v) is the
    store's own table, checked again at every compare-and-swap.  The theorems
    relate the two and bound every run of the store's table. *)
From S2P Require Import Prelude Utf8 Json Redact Domain.

Inductive Event : Type :=
| EventStartPreflight | EventPreflightPassed | EventEnqueue | EventBegin | EventComplete | EventError
| EventCancel | EventAcknowledgeCancel | EventTimeout.
#[export] Instance Event_eq_dec : EqDecision Event.
Proof. solve_decision. Defined.

Inductive lifecycle_error : Type := ErrInvalidTransition (current : OperationStatus).

(** [validTransitions[current]]: [None] when the map has no entry for the status. *)
Definition validTransitions (current : OperationStatus) : option (list (Event * OperationStatus)) :=
  match current with
  | StatusPending =>
      Some [(EventStartPreflight, StatusPreflight); (EventEnqueue, StatusQueued);
            (EventCancel, StatusCancelled); (EventTimeout, StatusTimeout)]
  | StatusPreflight =>
      Some [(EventPreflightPassed, StatusQueued); (EventError, StatusFailed);
            (EventCancel, StatusCancelled); (EventTimeout, StatusTimeout)]
  | StatusQueued =>
      Some [(EventBegin, StatusRunning); (EventCancel, StatusCancelled); (EventTimeout, StatusTimeout)]
  | StatusRunning =>
      Some [(EventComplete, StatusSucceeded); (EventError, StatusFailed);
            (EventCancel, StatusCancelling); (EventTimeout, StatusTimeout)]
  | StatusCancelling =>
      Some [(EventAcknowledgeCancel, StatusCancelled); (EventError, StatusFailed); (EventTimeout, StatusTimeout)]
  | _ => None
  end.

Definition lookup_event (event : Event) (transitions : list (Event * OperationStatus)) : option OperationStatus :=
  match find (λ p, bool_decide (p.1 = event)) transitions with Some p => Some p.2 | None => None end.

Definition Transition (current : OperationStatus) (event : Event) : res lifecycle_error OperationStatus :=
  if IsTerminal current then Err (ErrInvalidTransition current)
  else
    match validTransitions current with
    | None => Err (ErrInvalidTransition current)
    | Some transitions =>
        match lookup_event event transitions with
        | Some next => Ok next
        | None => Err (ErrInvalidTransition current)
        end
    end.

Definition ValidPathForType (opType : OperationType) : list Event :=
  if IsStandard opType
  then [EventStartPreflight; EventPreflightPassed; EventEnqueue; EventBegin; EventComplete]
  else [EventEnqueue; EventBegin; EventComplete].

Definition InitialStatus : OperationStatus := StatusPending.

Definition CanCancel (current : OperationStatus) : bool :=
  match validTransitions current with
  | None => false
  | Some transitions => bool_decide (is_Some (lookup_event EventCancel transitions))
  end.

(** Driving the machine with a list of events. *)
Fixpoint run_events (current : OperationStatus) (events : list Event) : res lifecycle_error OperationStatus :=
  match events with
  | [] => Ok current
  | e :: events' =>
      match Transition current e with
      | Ok next => run_events next events'
      | Err err => Err err
      end
  end.

(** One store-level edge, and the rank that decreases along it. *)
Definition store_edge (s t : OperationStatus) : Prop := CanTransitionTo s t = true.
Definition rank (s : OperationStatus) : nat :=
  match s with
  | StatusPending => 5 | StatusPreflight => 4 | StatusQueued => 3 | StatusRunning => 2 | StatusCancelling => 1
  | _ => 0
  end.

Lemma Transition_Ok_edge s e t : Transition s e = Ok t → CanTransitionTo s t = true.
Proof. destruct s, e; vm_compute; intros H; by simplify_eq. Qed.

Lemma CanTransitionTo_cases s t :
  CanTransitionTo s t = true →
  (s, t) ∈ [(StatusPending, StatusPreflight); (StatusPending, StatusQueued); (StatusPending, StatusFailed);
            (StatusPending, StatusCancelled); (StatusPending, StatusTimeout); (StatusPreflight, StatusQueued);
            (StatusPreflight, StatusFailed); (StatusPreflight, StatusCancelled); (StatusPreflight, StatusTimeout);
            (StatusQueued, StatusRunning); (StatusQueued, StatusCancelled); (StatusQueued, StatusTimeout);
            (StatusRunning, StatusSucceeded); (StatusRunning, StatusFailed); (StatusRunning, StatusCancelling);
            (StatusRunning, StatusTimeout); (StatusCancelling, StatusCancelled); (StatusCancelling, StatusFailed);
            (StatusCancelling, StatusTimeout)].
Proof.
  destruct s; try done; unfold CanTransitionTo; cbv zeta; rewrite ?orb_true_iff, ?bool_decide_eq_true;
    intros H; repeat destruct H as [H|H]; subst; rewrite list_elem_of_In; simpl; tauto.
Qed.

Lemma terminal_no_edge s t : IsTerminal s = true → CanTransitionTo s t = false.
Proof. by destruct s. Qed.

Lemma CanTransitionTo_not_terminal s t : CanTransitionTo s t = true → IsTerminal s = false.
Proof. by destruct s. Qed.

Lemma store_edge_rank s t : store_edge s t → (rank t < rank s)%nat.
Proof.
  unfold store_edge. intros H. apply CanTransitionTo_cases in H.
  repeat (apply elem_of_cons in H as [[= -> ->]|H]; [simpl; lia|]). by apply elem_of_nil in H.
Qed.

Lemma store_path_rank n s t : nsteps store_edge n s t → (rank t + n ≤ rank s)%nat.
Proof.
  induction 1 as [s|n s u t Hst Hrest IH]; [lia|]. apply store_edge_rank in Hst. lia.
Qed.

(** ** Properties *)

(** The event machine and the store's transition table agree: an edge is
    legal in the store exactly when some event of the state machine produces
    it, except for the single extra store edge pending -> failed. *)
Theorem event_machine_matches_store s t :
  CanTransitionTo s t = true ↔
  (∃ e, Transition s e = Ok t) ∨ (s = StatusPending ∧ t = StatusFailed).
Proof.
  split.
  - intros H. apply CanTransitionTo_cases in H.
    repeat (apply elem_of_cons in H as [[= -> ->]|H];
      [first [by right | left;
        first [by exists EventStartPreflight | by exists EventPreflightPassed | by exists EventEnqueue
              | by exists EventBegin | by exists EventComplete | by exists EventError | by exists EventCancel
              | by exists EventAcknowledgeCancel | by exists EventTimeout]]|]).
    by apply elem_of_nil in H.
  - intros [[e H]|[-> ->]]; [by eapply Transition_Ok_edge|done].
Qed.

(** The lifecycle always ends: a path of legal store edges has at most five
    steps, and from a terminal status there is no step at all. *)
Theorem lifecycle_terminates n s t :
  nsteps store_edge n s t →
  (n ≤ 5)%nat ∧ (IsTerminal s = true → n = 0%nat ∧ t = s).
Proof.
  intros H. split.
  - apply store_path_rank in H. assert (rank s ≤ 5)%nat by (destruct s; simpl; lia). lia.
  - intros Ht. destruct H as [|n s u t Hsu _]; [done|].
    unfold store_edge in Hsu. by rewrite terminal_no_edge in Hsu.
Qed.
Lemma lifecycle_terminates_witness :
  nsteps store_edge 5 StatusPending StatusCancelled ∧ (5 ≤ 5)%nat.
Proof.
  assert (H : nsteps store_edge 5 StatusPending StatusCancelled).
  { apply (nsteps_l _ _ _ StatusPreflight); [done|]. apply (nsteps_l _ _ _ StatusQueued); [done|].
    apply (nsteps_l _ _ _ StatusRunning); [done|]. apply (nsteps_l _ _ _ StatusCancelling); [done|].
    apply (nsteps_l _ _ _ StatusCancelled); [done|]. constructor. }
  split; [exact H|]. exact (proj1 (lifecycle_terminates 5 _ _ H)).
Defined.

(** [CanCancel] is exact: it holds exactly when the cancel event is accepted,
    and the event then leads to cancelled, or to cancelling from running. *)
Theorem CanCancel_exact s :
  (CanCancel s = true ↔ ∃ t, Transition s EventCancel = Ok t) ∧
  (∀ t, Transition s EventCancel = Ok t → t = if bool_decide (s = StatusRunning) then StatusCancelling else StatusCancelled).
Proof.
  destruct s; vm_compute; (split; [split; [try done; by eauto|intros [t Ht]; done]|intros t Ht; by simplify_eq]).
Qed.
Lemma CanCancel_exact_witness : CanCancel StatusQueued = true ∧ Transition StatusQueued EventCancel = Ok StatusCancelled.
Proof.
  split.
  - apply (proj2 (proj1 (CanCancel_exact StatusQueued))). exists StatusCancelled. reflexivity.
  - reflexivity.
Defined.

(** The documented event path of an operation type drives a new operation to
    succeeded exactly for the non-standard (EMERGENCY) types; for the standard
    types the machine rejects the path, because [EventEnqueue] follows
    [EventPreflightPassed], which already reached queued. *)
Theorem ValidPathForType_accepted opType :
  run_events InitialStatus (ValidPathForType opType) =
    if IsStandard opType then Err (ErrInvalidTransition StatusQueued) else Ok StatusSucceeded.
Proof. unfold ValidPathForType. destruct (IsStandard opType); reflexivity. Qed.
