(* ===== verification/Database.v ===== *)
(** * The SQLite database, statements and transactions

    One field of [DB] per table of internal/store/sqlite/db.go that the modelled
    code touches.  Tables whose rows are addressed by primary key are finite
    maps; tables whose row order or secondary keys matter are lists in rowid
    order, with the UNIQUE constraints checked at insertion.  The column
    [preflight_result_json] of [operations] is kept apart ([preflight_results]),
    so that an [Operation] row is exactly what [scanOperation] reads.  The
    [EffectStatus] of a stored row is always empty, because the source derives it
    when it reads the row ([ProjectEffectStatus]).

    [World] adds to the tables what the code reads from its environment: the
    clock (one element per [time.Now()] call), [uuid.NewString()], whether the
    next [BEGIN IMMEDIATE] finds the database locked, and whether the connection
    in use enforces foreign keys ([PRAGMA foreign_keys] is set on one connection
    of the pool only). *)
From S2P Require Import Prelude Utf8 Json Redact Domain.
From stdpp Require Import pretty.
#[local] Open Scope Z_scope.

Record InventoryRow := {
  inv_CustomerID : string; inv_ClusterID : string; inv_ReleaseDefinitionID : string; inv_Namespace : string;
  inv_ReleaseName : string; inv_Revision : Z; inv_ValuesDigest : string; inv_ObservedBundleDigest : string;
  inv_ObservedChartDigest : string; inv_ObservedEffectiveValuesDigest : string;
  inv_ObservedManifestDigest : string; inv_LiveStatus : string; inv_LastOperationID : string;
  inv_InventoryStatus : string; inv_UpdatedAt : time;
}.
Inductive BundleStatus : Type :=
| BundleReceived | BundleValidated | BundleRejected | BundleArchived | BundleStatusOther (s : string).
#[export] Instance BundleStatus_eq_dec : EqDecision BundleStatus.
Proof. solve_decision. Defined.
(** ImageValueKind is the string of the column. *)
Record BundleImage := { bm_Ref : string; bm_Digest : string; bm_ValuesPath : string; bm_ValueKind : string }.
(** The columns of release_bundles that only Create writes. *)
Record BundleContent := {
  bd_Name : string; bd_SubmittedByOrganizationID : string; bd_SubmittedByUserID : string; bd_DigestAlg : string;
  bd_DigestValue : string; bd_ChartRef : string; bd_ChartVersion : string; bd_ChartDigest : string; bd_Images : list BundleImage;
  bd_GitCommit : string; bd_PipelineID : string; bd_SignatureRef : string; bd_SBOMRef : string; bd_ProvenanceRef : string;
  bd_CreatedAt : time;
}.
Record BundleRow := {
  br_Status : BundleStatus; br_ArchivedFromStatus : BundleStatus; br_ArchivedAt : option time; br_Content : BundleContent;
}.
Record CandidateRow := { ca_ID : string; ca_Digest : string; ca_OrphanedAt : option time }.
Record BundleCandidateRow := { bc_BundleID : string; bc_ArtifactID : string; bc_LinkedAt : time }.

(** The tables of the authorization state (REQ-026, REQ-027, REQ-049), kept
    together; [authorization_source_version], which every write fence reads, is a
    field of [DB]. *)
Record BindingEvent := {
  be_ID : string; be_BindingID : string; be_OrgID : string; be_CustomerID : string; be_Status : BindingStatus;
  be_OptimisticVersion : Z; be_ChangedAt : time;
}.
Record AuthTables := {
  at_policy_version : option Z; at_grants : list CapabilityGrant; at_rules : list CasbinRule;
  at_checkpoints : gmap (string * string) AuthorizationCheckpoint; at_organizations : list Organization;
  at_members : list OrganizationMember; at_bindings : list OrgCustomerBinding;
  at_binding_events : list BindingEvent; at_users : gmap string User; at_app_settings : gmap string string;
  at_sessions : list AuthSession;
}.
Definition empty_auth : AuthTables :=
  {| at_policy_version := Some 0; at_grants := []; at_rules := []; at_checkpoints := ∅; at_organizations := [];
     at_members := []; at_bindings := []; at_binding_events := []; at_users := ∅; at_app_settings := ∅; at_sessions := [] |}.

(** The tables of the fleet (REQ-015, REQ-044), in rowid order, and the audit
    events their transactions write. *)
Record FleetTables := {
  ft_enrollment_tokens : list EnrollmentToken; ft_operators : list Operator; ft_sessions : list Session;
  ft_clusters : gmap string Cluster; ft_audit_events : list AuditEvent; ft_customer_events : list CustomerEvent;
}.
Definition empty_fleet : FleetTables :=
  {| ft_enrollment_tokens := []; ft_operators := []; ft_sessions := []; ft_clusters := ∅; ft_audit_events := [];
     ft_customer_events := [] |}.

Record DB := {
  db_operations : gmap string Operation;
  db_preflight_results : gmap string raw;
  db_operation_events : list OperationStateChangedEvent;
  db_operation_timeline : list OperationTimelineEntry;
  db_outbox : list OutboxEntry;
  db_emergency_intents : list EmergencyIntent;
  db_convergence_tasks : list ConvergenceTask;
  db_idempotency_records : gmap (string * string) IdempotencyRecord;
  db_preflight_lifecycles : list PreflightLifecycle;
  db_values_revisions : list ValuesRevision;
  db_values_revision_decisions : list ValuesRevisionDecision;
  db_audit_outbox : list ApprovalOutboxEntry;
  db_notification_outbox : list ApprovalOutboxEntry;
  db_release_definitions : gmap string ReleaseDefinition;
  db_authorization_source_version : option Z;
  db_operation_execution_results : gmap string OperationExecutionResult;
  db_release_inventory : list InventoryRow;
  db_rollout_trackings : gmap string RolloutTracking;
  db_prepare_sessions : gmap string PrepareSession;
  db_customers : gmap string Customer;
  db_release_bundles : gmap string BundleRow;
  db_candidate_artifacts : list CandidateRow;
  db_bundle_candidate_artifacts : list BundleCandidateRow;
  db_auth : AuthTables;
  db_fleet : FleetTables;
}.

Definition set_operations (v : gmap string Operation) (db : DB) : DB :=
  {| db_operations := v; db_preflight_results := db_preflight_results db;
     db_operation_events := db_operation_events db; db_operation_timeline := db_operation_timeline db;
     db_outbox := db_outbox db; db_emergency_intents := db_emergency_intents db;
     db_convergence_tasks := db_convergence_tasks db; db_idempotency_records := db_idempotency_records db;
     db_preflight_lifecycles := db_preflight_lifecycles db; db_values_revisions := db_values_revisions db;
     db_values_revision_decisions := db_values_revision_decisions db; db_audit_outbox := db_audit_outbox db;
     db_notification_outbox := db_notification_outbox db;
     db_release_definitions := db_release_definitions db;
     db_authorization_source_version := db_authorization_source_version db;
     db_operation_execution_results := db_operation_execution_results db;
     db_release_inventory := db_release_inventory db; db_rollout_trackings := db_rollout_trackings db;
     db_prepare_sessions := db_prepare_sessions db; db_customers := db_customers db;
     db_release_bundles := db_release_bundles db; db_candidate_artifacts := db_candidate_artifacts db;
     db_bundle_candidate_artifacts := db_bundle_candidate_artifacts db; db_auth := db_auth db;
     db_fleet := db_fleet db |}.
Definition set_preflight_results (v : gmap string raw) (db : DB) : DB :=
  {| db_operations := db_operations db; db_preflight_results := v;
     db_operation_events := db_operation_events db; db_operation_timeline := db_operation_timeline db;
     db_outbox := db_outbox db; db_emergency_intents := db_emergency_intents db;
     db_convergence_tasks := db_convergence_tasks db; db_idempotency_records := db_idempotency_records db;
     db_preflight_lifecycles := db_preflight_lifecycles db; db_values_revisions := db_values_revisions db;
     db_values_revision_decisions := db_values_revision_decisions db; db_audit_outbox := db_audit_outbox db;
     db_notification_outbox := db_notification_outbox db;
     db_release_definitions := db_release_definitions db;
     db_authorization_source_version := db_authorization_source_version db;
     db_operation_execution_results := db_operation_execution_results db;
     db_release_inventory := db_release_inventory db; db_rollout_trackings := db_rollout_trackings db;
     db_prepare_sessions := db_prepare_sessions db; db_customers := db_customers db;
     db_release_bundles := db_release_bundles db; db_candidate_artifacts := db_candidate_artifacts db;
     db_bundle_candidate_artifacts := db_bundle_candidate_artifacts db; db_auth := db_auth db;
     db_fleet := db_fleet db |}.
Definition set_operation_events (v : list OperationStateChangedEvent) (db : DB) : DB :=
  {| db_operations := db_operations db; db_preflight_results := db_preflight_results db;
     db_operation_events := v; db_operation_timeline := db_operation_timeline db; db_outbox := db_outbox db;
     db_emergency_intents := db_emergency_intents db; db_convergence_tasks := db_convergence_tasks db;
     db_idempotency_records := db_idempotency_records db;
     db_preflight_lifecycles := db_preflight_lifecycles db; db_values_revisions := db_values_revisions db;
     db_values_revision_decisions := db_values_revision_decisions db; db_audit_outbox := db_audit_outbox db;
     db_notification_outbox := db_notification_outbox db;
     db_release_definitions := db_release_definitions db;
     db_authorization_source_version := db_authorization_source_version db;
     db_operation_execution_results := db_operation_execution_results db;
     db_release_inventory := db_release_inventory db; db_rollout_trackings := db_rollout_trackings db;
     db_prepare_sessions := db_prepare_sessions db; db_customers := db_customers db;
     db_release_bundles := db_release_bundles db; db_candidate_artifacts := db_candidate_artifacts db;
     db_bundle_candidate_artifacts := db_bundle_candidate_artifacts db; db_auth := db_auth db;
     db_fleet := db_fleet db |}.
Definition set_operation_timeline (v : list OperationTimelineEntry) (db : DB) : DB :=
  {| db_operations := db_operations db; db_preflight_results := db_preflight_results db;
     db_operation_events := db_operation_events db; db_operation_timeline := v; db_outbox := db_outbox db;
     db_emergency_intents := db_emergency_intents db; db_convergence_tasks := db_convergence_tasks db;
     db_idempotency_records := db_idempotency_records db;
     db_preflight_lifecycles := db_preflight_lifecycles db; db_values_revisions := db_values_revisions db;
     db_values_revision_decisions := db_values_revision_decisions db; db_audit_outbox := db_audit_outbox db;
     db_notification_outbox := db_notification_outbox db;
     db_release_definitions := db_release_definitions db;
     db_authorization_source_version := db_authorization_source_version db;
     db_operation_execution_results := db_operation_execution_results db;
     db_release_inventory := db_release_inventory db; db_rollout_trackings := db_rollout_trackings db;
     db_prepare_sessions := db_prepare_sessions db; db_customers := db_customers db;
     db_release_bundles := db_release_bundles db; db_candidate_artifacts := db_candidate_artifacts db;
     db_bundle_candidate_artifacts := db_bundle_candidate_artifacts db; db_auth := db_auth db;
     db_fleet := db_fleet db |}.
Definition set_outbox (v : list OutboxEntry) (db : DB) : DB :=
  {| db_operations := db_operations db; db_preflight_results := db_preflight_results db;
     db_operation_events := db_operation_events db; db_operation_timeline := db_operation_timeline db;
     db_outbox := v; db_emergency_intents := db_emergency_intents db;
     db_convergence_tasks := db_convergence_tasks db; db_idempotency_records := db_idempotency_records db;
     db_preflight_lifecycles := db_preflight_lifecycles db; db_values_revisions := db_values_revisions db;
     db_values_revision_decisions := db_values_revision_decisions db; db_audit_outbox := db_audit_outbox db;
     db_notification_outbox := db_notification_outbox db;
     db_release_definitions := db_release_definitions db;
     db_authorization_source_version := db_authorization_source_version db;
     db_operation_execution_results := db_operation_execution_results db;
     db_release_inventory := db_release_inventory db; db_rollout_trackings := db_rollout_trackings db;
     db_prepare_sessions := db_prepare_sessions db; db_customers := db_customers db;
     db_release_bundles := db_release_bundles db; db_candidate_artifacts := db_candidate_artifacts db;
     db_bundle_candidate_artifacts := db_bundle_candidate_artifacts db; db_auth := db_auth db;
     db_fleet := db_fleet db |}.
Definition set_emergency_intents (v : list EmergencyIntent) (db : DB) : DB :=
  {| db_operations := db_operations db; db_preflight_results := db_preflight_results db;
     db_operation_events := db_operation_events db; db_operation_timeline := db_operation_timeline db;
     db_outbox := db_outbox db; db_emergency_intents := v; db_convergence_tasks := db_convergence_tasks db;
     db_idempotency_records := db_idempotency_records db;
     db_preflight_lifecycles := db_preflight_lifecycles db; db_values_revisions := db_values_revisions db;
     db_values_revision_decisions := db_values_revision_decisions db; db_audit_outbox := db_audit_outbox db;
     db_notification_outbox := db_notification_outbox db;
     db_release_definitions := db_release_definitions db;
     db_authorization_source_version := db_authorization_source_version db;
     db_operation_execution_results := db_operation_execution_results db;
     db_release_inventory := db_release_inventory db; db_rollout_trackings := db_rollout_trackings db;
     db_prepare_sessions := db_prepare_sessions db; db_customers := db_customers db;
     db_release_bundles := db_release_bundles db; db_candidate_artifacts := db_candidate_artifacts db;
     db_bundle_candidate_artifacts := db_bundle_candidate_artifacts db; db_auth := db_auth db;
     db_fleet := db_fleet db |}.
Definition set_convergence_tasks (v : list ConvergenceTask) (db : DB) : DB :=
  {| db_operations := db_operations db; db_preflight_results := db_preflight_results db;
     db_operation_events := db_operation_events db; db_operation_timeline := db_operation_timeline db;
     db_outbox := db_outbox db; db_emergency_intents := db_emergency_intents db; db_convergence_tasks := v;
     db_idempotency_records := db_idempotency_records db;
     db_preflight_lifecycles := db_preflight_lifecycles db; db_values_revisions := db_values_revisions db;
     db_values_revision_decisions := db_values_revision_decisions db; db_audit_outbox := db_audit_outbox db;
     db_notification_outbox := db_notification_outbox db;
     db_release_definitions := db_release_definitions db;
     db_authorization_source_version := db_authorization_source_version db;
     db_operation_execution_results := db_operation_execution_results db;
     db_release_inventory := db_release_inventory db; db_rollout_trackings := db_rollout_trackings db;
     db_prepare_sessions := db_prepare_sessions db; db_customers := db_customers db;
     db_release_bundles := db_release_bundles db; db_candidate_artifacts := db_candidate_artifacts db;
     db_bundle_candidate_artifacts := db_bundle_candidate_artifacts db; db_auth := db_auth db;
     db_fleet := db_fleet db |}.
Definition set_idempotency_records (v : gmap (string * string) IdempotencyRecord) (db : DB) : DB :=
  {| db_operations := db_operations db; db_preflight_results := db_preflight_results db;
     db_operation_events := db_operation_events db; db_operation_timeline := db_operation_timeline db;
     db_outbox := db_outbox db; db_emergency_intents := db_emergency_intents db;
     db_convergence_tasks := db_convergence_tasks db; db_idempotency_records := v;
     db_preflight_lifecycles := db_preflight_lifecycles db; db_values_revisions := db_values_revisions db;
     db_values_revision_decisions := db_values_revision_decisions db; db_audit_outbox := db_audit_outbox db;
     db_notification_outbox := db_notification_outbox db;
     db_release_definitions := db_release_definitions db;
     db_authorization_source_version := db_authorization_source_version db;
     db_operation_execution_results := db_operation_execution_results db;
     db_release_inventory := db_release_inventory db; db_rollout_trackings := db_rollout_trackings db;
     db_prepare_sessions := db_prepare_sessions db; db_customers := db_customers db;
     db_release_bundles := db_release_bundles db; db_candidate_artifacts := db_candidate_artifacts db;
     db_bundle_candidate_artifacts := db_bundle_candidate_artifacts db; db_auth := db_auth db;
     db_fleet := db_fleet db |}.
Definition set_preflight_lifecycles (v : list PreflightLifecycle) (db : DB) : DB :=
  {| db_operations := db_operations db; db_preflight_results := db_preflight_results db;
     db_operation_events := db_operation_events db; db_operation_timeline := db_operation_timeline db;
     db_outbox := db_outbox db; db_emergency_intents := db_emergency_intents db;
     db_convergence_tasks := db_convergence_tasks db; db_idempotency_records := db_idempotency_records db;
     db_preflight_lifecycles := v; db_values_revisions := db_values_revisions db;
     db_values_revision_decisions := db_values_revision_decisions db; db_audit_outbox := db_audit_outbox db;
     db_notification_outbox := db_notification_outbox db;
     db_release_definitions := db_release_definitions db;
     db_authorization_source_version := db_authorization_source_version db;
     db_operation_execution_results := db_operation_execution_results db;
     db_release_inventory := db_release_inventory db; db_rollout_trackings := db_rollout_trackings db;
     db_prepare_sessions := db_prepare_sessions db; db_customers := db_customers db;
     db_release_bundles := db_release_bundles db; db_candidate_artifacts := db_candidate_artifacts db;
     db_bundle_candidate_artifacts := db_bundle_candidate_artifacts db; db_auth := db_auth db;
     db_fleet := db_fleet db |}.
Definition set_values_revisions (v : list ValuesRevision) (db : DB) : DB :=
  {| db_operations := db_operations db; db_preflight_results := db_preflight_results db;
     db_operation_events := db_operation_events db; db_operation_timeline := db_operation_timeline db;
     db_outbox := db_outbox db; db_emergency_intents := db_emergency_intents db;
     db_convergence_tasks := db_convergence_tasks db; db_idempotency_records := db_idempotency_records db;
     db_preflight_lifecycles := db_preflight_lifecycles db; db_values_revisions := v;
     db_values_revision_decisions := db_values_revision_decisions db; db_audit_outbox := db_audit_outbox db;
     db_notification_outbox := db_notification_outbox db;
     db_release_definitions := db_release_definitions db;
     db_authorization_source_version := db_authorization_source_version db;
     db_operation_execution_results := db_operation_execution_results db;
     db_release_inventory := db_release_inventory db; db_rollout_trackings := db_rollout_trackings db;
     db_prepare_sessions := db_prepare_sessions db; db_customers := db_customers db;
     db_release_bundles := db_release_bundles db; db_candidate_artifacts := db_candidate_artifacts db;
     db_bundle_candidate_artifacts := db_bundle_candidate_artifacts db; db_auth := db_auth db;
     db_fleet := db_fleet db |}.
Definition set_values_revision_decisions (v : list ValuesRevisionDecision) (db : DB) : DB :=
  {| db_operations := db_operations db; db_preflight_results := db_preflight_results db;
     db_operation_events := db_operation_events db; db_operation_timeline := db_operation_timeline db;
     db_outbox := db_outbox db; db_emergency_intents := db_emergency_intents db;
     db_convergence_tasks := db_convergence_tasks db; db_idempotency_records := db_idempotency_records db;
     db_preflight_lifecycles := db_preflight_lifecycles db; db_values_revisions := db_values_revisions db;
     db_values_revision_decisions := v; db_audit_outbox := db_audit_outbox db;
     db_notification_outbox := db_notification_outbox db;
     db_release_definitions := db_release_definitions db;
     db_authorization_source_version := db_authorization_source_version db;
     db_operation_execution_results := db_operation_execution_results db;
     db_release_inventory := db_release_inventory db; db_rollout_trackings := db_rollout_trackings db;
     db_prepare_sessions := db_prepare_sessions db; db_customers := db_customers db;
     db_release_bundles := db_release_bundles db; db_candidate_artifacts := db_candidate_artifacts db;
     db_bundle_candidate_artifacts := db_bundle_candidate_artifacts db; db_auth := db_auth db;
     db_fleet := db_fleet db |}.
Definition set_audit_outbox (v : list ApprovalOutboxEntry) (db : DB) : DB :=
  {| db_operations := db_operations db; db_preflight_results := db_preflight_results db;
     db_operation_events := db_operation_events db; db_operation_timeline := db_operation_timeline db;
     db_outbox := db_outbox db; db_emergency_intents := db_emergency_intents db;
     db_convergence_tasks := db_convergence_tasks db; db_idempotency_records := db_idempotency_records db;
     db_preflight_lifecycles := db_preflight_lifecycles db; db_values_revisions := db_values_revisions db;
     db_values_revision_decisions := db_values_revision_decisions db; db_audit_outbox := v;
     db_notification_outbox := db_notification_outbox db;
     db_release_definitions := db_release_definitions db;
     db_authorization_source_version := db_authorization_source_version db;
     db_operation_execution_results := db_operation_execution_results db;
     db_release_inventory := db_release_inventory db; db_rollout_trackings := db_rollout_trackings db;
     db_prepare_sessions := db_prepare_sessions db; db_customers := db_customers db;
     db_release_bundles := db_release_bundles db; db_candidate_artifacts := db_candidate_artifacts db;
     db_bundle_candidate_artifacts := db_bundle_candidate_artifacts db; db_auth := db_auth db;
     db_fleet := db_fleet db |}.
Definition set_notification_outbox (v : list ApprovalOutboxEntry) (db : DB) : DB :=
  {| db_operations := db_operations db; db_preflight_results := db_preflight_results db;
     db_operation_events := db_operation_events db; db_operation_timeline := db_operation_timeline db;
     db_outbox := db_outbox db; db_emergency_intents := db_emergency_intents db;
     db_convergence_tasks := db_convergence_tasks db; db_idempotency_records := db_idempotency_records db;
     db_preflight_lifecycles := db_preflight_lifecycles db; db_values_revisions := db_values_revisions db;
     db_values_revision_decisions := db_values_revision_decisions db; db_audit_outbox := db_audit_outbox db;
     db_notification_outbox := v; db_release_definitions := db_release_definitions db;
     db_authorization_source_version := db_authorization_source_version db;
     db_operation_execution_results := db_operation_execution_results db;
     db_release_inventory := db_release_inventory db; db_rollout_trackings := db_rollout_trackings db;
     db_prepare_sessions := db_prepare_sessions db; db_customers := db_customers db;
     db_release_bundles := db_release_bundles db; db_candidate_artifacts := db_candidate_artifacts db;
     db_bundle_candidate_artifacts := db_bundle_candidate_artifacts db; db_auth := db_auth db;
     db_fleet := db_fleet db |}.
Definition set_release_definitions (v : gmap string ReleaseDefinition) (db : DB) : DB :=
  {| db_operations := db_operations db; db_preflight_results := db_preflight_results db;
     db_operation_events := db_operation_events db; db_operation_timeline := db_operation_timeline db;
     db_outbox := db_outbox db; db_emergency_intents := db_emergency_intents db;
     db_convergence_tasks := db_convergence_tasks db; db_idempotency_records := db_idempotency_records db;
     db_preflight_lifecycles := db_preflight_lifecycles db; db_values_revisions := db_values_revisions db;
     db_values_revision_decisions := db_values_revision_decisions db; db_audit_outbox := db_audit_outbox db;
     db_notification_outbox := db_notification_outbox db; db_release_definitions := v;
     db_authorization_source_version := db_authorization_source_version db;
     db_operation_execution_results := db_operation_execution_results db;
     db_release_inventory := db_release_inventory db; db_rollout_trackings := db_rollout_trackings db;
     db_prepare_sessions := db_prepare_sessions db; db_customers := db_customers db;
     db_release_bundles := db_release_bundles db; db_candidate_artifacts := db_candidate_artifacts db;
     db_bundle_candidate_artifacts := db_bundle_candidate_artifacts db; db_auth := db_auth db;
     db_fleet := db_fleet db |}.
Definition set_authorization_source_version (v : option Z) (db : DB) : DB :=
  {| db_operations := db_operations db; db_preflight_results := db_preflight_results db;
     db_operation_events := db_operation_events db; db_operation_timeline := db_operation_timeline db;
     db_outbox := db_outbox db; db_emergency_intents := db_emergency_intents db;
     db_convergence_tasks := db_convergence_tasks db; db_idempotency_records := db_idempotency_records db;
     db_preflight_lifecycles := db_preflight_lifecycles db; db_values_revisions := db_values_revisions db;
     db_values_revision_decisions := db_values_revision_decisions db; db_audit_outbox := db_audit_outbox db;
     db_notification_outbox := db_notification_outbox db;
     db_release_definitions := db_release_definitions db; db_authorization_source_version := v;
     db_operation_execution_results := db_operation_execution_results db;
     db_release_inventory := db_release_inventory db; db_rollout_trackings := db_rollout_trackings db;
     db_prepare_sessions := db_prepare_sessions db; db_customers := db_customers db;
     db_release_bundles := db_release_bundles db; db_candidate_artifacts := db_candidate_artifacts db;
     db_bundle_candidate_artifacts := db_bundle_candidate_artifacts db; db_auth := db_auth db;
     db_fleet := db_fleet db |}.
Definition set_operation_execution_results (v : gmap string OperationExecutionResult) (db : DB) : DB :=
  {| db_operations := db_operations db; db_preflight_results := db_preflight_results db;
     db_operation_events := db_operation_events db; db_operation_timeline := db_operation_timeline db;
     db_outbox := db_outbox db; db_emergency_intents := db_emergency_intents db;
     db_convergence_tasks := db_convergence_tasks db; db_idempotency_records := db_idempotency_records db;
     db_preflight_lifecycles := db_preflight_lifecycles db; db_values_revisions := db_values_revisions db;
     db_values_revision_decisions := db_values_revision_decisions db; db_audit_outbox := db_audit_outbox db;
     db_notification_outbox := db_notification_outbox db;
     db_release_definitions := db_release_definitions db;
     db_authorization_source_version := db_authorization_source_version db;
     db_operation_execution_results := v; db_release_inventory := db_release_inventory db;
     db_rollout_trackings := db_rollout_trackings db; db_prepare_sessions := db_prepare_sessions db;
     db_customers := db_customers db; db_release_bundles := db_release_bundles db;
     db_candidate_artifacts := db_candidate_artifacts db;
     db_bundle_candidate_artifacts := db_bundle_candidate_artifacts db; db_auth := db_auth db;
     db_fleet := db_fleet db |}.
Definition set_release_inventory (v : list InventoryRow) (db : DB) : DB :=
  {| db_operations := db_operations db; db_preflight_results := db_preflight_results db;
     db_operation_events := db_operation_events db; db_operation_timeline := db_operation_timeline db;
     db_outbox := db_outbox db; db_emergency_intents := db_emergency_intents db;
     db_convergence_tasks := db_convergence_tasks db; db_idempotency_records := db_idempotency_records db;
     db_preflight_lifecycles := db_preflight_lifecycles db; db_values_revisions := db_values_revisions db;
     db_values_revision_decisions := db_values_revision_decisions db; db_audit_outbox := db_audit_outbox db;
     db_notification_outbox := db_notification_outbox db;
     db_release_definitions := db_release_definitions db;
     db_authorization_source_version := db_authorization_source_version db;
     db_operation_execution_results := db_operation_execution_results db; db_release_inventory := v;
     db_rollout_trackings := db_rollout_trackings db; db_prepare_sessions := db_prepare_sessions db;
     db_customers := db_customers db; db_release_bundles := db_release_bundles db;
     db_candidate_artifacts := db_candidate_artifacts db;
     db_bundle_candidate_artifacts := db_bundle_candidate_artifacts db; db_auth := db_auth db;
     db_fleet := db_fleet db |}.
Definition set_rollout_trackings (v : gmap string RolloutTracking) (db : DB) : DB :=
  {| db_operations := db_operations db; db_preflight_results := db_preflight_results db;
     db_operation_events := db_operation_events db; db_operation_timeline := db_operation_timeline db;
     db_outbox := db_outbox db; db_emergency_intents := db_emergency_intents db;
     db_convergence_tasks := db_convergence_tasks db; db_idempotency_records := db_idempotency_records db;
     db_preflight_lifecycles := db_preflight_lifecycles db; db_values_revisions := db_values_revisions db;
     db_values_revision_decisions := db_values_revision_decisions db; db_audit_outbox := db_audit_outbox db;
     db_notification_outbox := db_notification_outbox db;
     db_release_definitions := db_release_definitions db;
     db_authorization_source_version := db_authorization_source_version db;
     db_operation_execution_results := db_operation_execution_results db;
     db_release_inventory := db_release_inventory db; db_rollout_trackings := v;
     db_prepare_sessions := db_prepare_sessions db; db_customers := db_customers db;
     db_release_bundles := db_release_bundles db; db_candidate_artifacts := db_candidate_artifacts db;
     db_bundle_candidate_artifacts := db_bundle_candidate_artifacts db; db_auth := db_auth db;
     db_fleet := db_fleet db |}.
Definition set_prepare_sessions (v : gmap string PrepareSession) (db : DB) : DB :=
  {| db_operations := db_operations db; db_preflight_results := db_preflight_results db;
     db_operation_events := db_operation_events db; db_operation_timeline := db_operation_timeline db;
     db_outbox := db_outbox db; db_emergency_intents := db_emergency_intents db;
     db_convergence_tasks := db_convergence_tasks db; db_idempotency_records := db_idempotency_records db;
     db_preflight_lifecycles := db_preflight_lifecycles db; db_values_revisions := db_values_revisions db;
     db_values_revision_decisions := db_values_revision_decisions db; db_audit_outbox := db_audit_outbox db;
     db_notification_outbox := db_notification_outbox db;
     db_release_definitions := db_release_definitions db;
     db_authorization_source_version := db_authorization_source_version db;
     db_operation_execution_results := db_operation_execution_results db;
     db_release_inventory := db_release_inventory db; db_rollout_trackings := db_rollout_trackings db;
     db_prepare_sessions := v; db_customers := db_customers db;
     db_release_bundles := db_release_bundles db; db_candidate_artifacts := db_candidate_artifacts db;
     db_bundle_candidate_artifacts := db_bundle_candidate_artifacts db; db_auth := db_auth db;
     db_fleet := db_fleet db |}.
Definition set_customers (v : gmap string Customer) (db : DB) : DB :=
  {| db_operations := db_operations db; db_preflight_results := db_preflight_results db;
     db_operation_events := db_operation_events db; db_operation_timeline := db_operation_timeline db;
     db_outbox := db_outbox db; db_emergency_intents := db_emergency_intents db;
     db_convergence_tasks := db_convergence_tasks db; db_idempotency_records := db_idempotency_records db;
     db_preflight_lifecycles := db_preflight_lifecycles db; db_values_revisions := db_values_revisions db;
     db_values_revision_decisions := db_values_revision_decisions db; db_audit_outbox := db_audit_outbox db;
     db_notification_outbox := db_notification_outbox db;
     db_release_definitions := db_release_definitions db;
     db_authorization_source_version := db_authorization_source_version db;
     db_operation_execution_results := db_operation_execution_results db;
     db_release_inventory := db_release_inventory db; db_rollout_trackings := db_rollout_trackings db;
     db_prepare_sessions := db_prepare_sessions db; db_customers := v;
     db_release_bundles := db_release_bundles db; db_candidate_artifacts := db_candidate_artifacts db;
     db_bundle_candidate_artifacts := db_bundle_candidate_artifacts db; db_auth := db_auth db;
     db_fleet := db_fleet db |}.
Definition set_release_bundles (v : gmap string BundleRow) (db : DB) : DB :=
  {| db_operations := db_operations db; db_preflight_results := db_preflight_results db;
     db_operation_events := db_operation_events db; db_operation_timeline := db_operation_timeline db;
     db_outbox := db_outbox db; db_emergency_intents := db_emergency_intents db;
     db_convergence_tasks := db_convergence_tasks db; db_idempotency_records := db_idempotency_records db;
     db_preflight_lifecycles := db_preflight_lifecycles db; db_values_revisions := db_values_revisions db;
     db_values_revision_decisions := db_values_revision_decisions db; db_audit_outbox := db_audit_outbox db;
     db_notification_outbox := db_notification_outbox db;
     db_release_definitions := db_release_definitions db;
     db_authorization_source_version := db_authorization_source_version db;
     db_operation_execution_results := db_operation_execution_results db;
     db_release_inventory := db_release_inventory db; db_rollout_trackings := db_rollout_trackings db;
     db_prepare_sessions := db_prepare_sessions db; db_customers := db_customers db;
     db_release_bundles := v; db_candidate_artifacts := db_candidate_artifacts db;
     db_bundle_candidate_artifacts := db_bundle_candidate_artifacts db; db_auth := db_auth db;
     db_fleet := db_fleet db |}.
Definition set_candidate_artifacts (v : list CandidateRow) (db : DB) : DB :=
  {| db_operations := db_operations db; db_preflight_results := db_preflight_results db;
     db_operation_events := db_operation_events db; db_operation_timeline := db_operation_timeline db;
     db_outbox := db_outbox db; db_emergency_intents := db_emergency_intents db;
     db_convergence_tasks := db_convergence_tasks db; db_idempotency_records := db_idempotency_records db;
     db_preflight_lifecycles := db_preflight_lifecycles db; db_values_revisions := db_values_revisions db;
     db_values_revision_decisions := db_values_revision_decisions db; db_audit_outbox := db_audit_outbox db;
     db_notification_outbox := db_notification_outbox db;
     db_release_definitions := db_release_definitions db;
     db_authorization_source_version := db_authorization_source_version db;
     db_operation_execution_results := db_operation_execution_results db;
     db_release_inventory := db_release_inventory db; db_rollout_trackings := db_rollout_trackings db;
     db_prepare_sessions := db_prepare_sessions db; db_customers := db_customers db;
     db_release_bundles := db_release_bundles db; db_candidate_artifacts := v;
     db_bundle_candidate_artifacts := db_bundle_candidate_artifacts db; db_auth := db_auth db;
     db_fleet := db_fleet db |}.
Definition set_bundle_candidate_artifacts (v : list BundleCandidateRow) (db : DB) : DB :=
  {| db_operations := db_operations db; db_preflight_results := db_preflight_results db;
     db_operation_events := db_operation_events db; db_operation_timeline := db_operation_timeline db;
     db_outbox := db_outbox db; db_emergency_intents := db_emergency_intents db;
     db_convergence_tasks := db_convergence_tasks db; db_idempotency_records := db_idempotency_records db;
     db_preflight_lifecycles := db_preflight_lifecycles db; db_values_revisions := db_values_revisions db;
     db_values_revision_decisions := db_values_revision_decisions db; db_audit_outbox := db_audit_outbox db;
     db_notification_outbox := db_notification_outbox db;
     db_release_definitions := db_release_definitions db;
     db_authorization_source_version := db_authorization_source_version db;
     db_operation_execution_results := db_operation_execution_results db;
     db_release_inventory := db_release_inventory db; db_rollout_trackings := db_rollout_trackings db;
     db_prepare_sessions := db_prepare_sessions db; db_customers := db_customers db;
     db_release_bundles := db_release_bundles db; db_candidate_artifacts := db_candidate_artifacts db;
     db_bundle_candidate_artifacts := v; db_auth := db_auth db;
     db_fleet := db_fleet db |}.
Definition set_auth (v : AuthTables) (db : DB) : DB :=
  {| db_operations := db_operations db; db_preflight_results := db_preflight_results db;
     db_operation_events := db_operation_events db; db_operation_timeline := db_operation_timeline db;
     db_outbox := db_outbox db; db_emergency_intents := db_emergency_intents db;
     db_convergence_tasks := db_convergence_tasks db; db_idempotency_records := db_idempotency_records db;
     db_preflight_lifecycles := db_preflight_lifecycles db; db_values_revisions := db_values_revisions db;
     db_values_revision_decisions := db_values_revision_decisions db; db_audit_outbox := db_audit_outbox db;
     db_notification_outbox := db_notification_outbox db;
     db_release_definitions := db_release_definitions db;
     db_authorization_source_version := db_authorization_source_version db;
     db_operation_execution_results := db_operation_execution_results db;
     db_release_inventory := db_release_inventory db; db_rollout_trackings := db_rollout_trackings db;
     db_prepare_sessions := db_prepare_sessions db; db_customers := db_customers db;
     db_release_bundles := db_release_bundles db; db_candidate_artifacts := db_candidate_artifacts db;
     db_bundle_candidate_artifacts := db_bundle_candidate_artifacts db; db_auth := v;
     db_fleet := db_fleet db |}.
Definition set_fleet (v : FleetTables) (db : DB) : DB :=
  {| db_operations := db_operations db; db_preflight_results := db_preflight_results db;
     db_operation_events := db_operation_events db; db_operation_timeline := db_operation_timeline db;
     db_outbox := db_outbox db; db_emergency_intents := db_emergency_intents db;
     db_convergence_tasks := db_convergence_tasks db; db_idempotency_records := db_idempotency_records db;
     db_preflight_lifecycles := db_preflight_lifecycles db; db_values_revisions := db_values_revisions db;
     db_values_revision_decisions := db_values_revision_decisions db; db_audit_outbox := db_audit_outbox db;
     db_notification_outbox := db_notification_outbox db;
     db_release_definitions := db_release_definitions db;
     db_authorization_source_version := db_authorization_source_version db;
     db_operation_execution_results := db_operation_execution_results db;
     db_release_inventory := db_release_inventory db; db_rollout_trackings := db_rollout_trackings db;
     db_prepare_sessions := db_prepare_sessions db; db_customers := db_customers db;
     db_release_bundles := db_release_bundles db; db_candidate_artifacts := db_candidate_artifacts db;
     db_bundle_candidate_artifacts := db_bundle_candidate_artifacts db; db_auth := db_auth db;
     db_fleet := v |}.
Definition set_enrollment_tokens (v : list EnrollmentToken) (t : FleetTables) : FleetTables :=
  {| ft_enrollment_tokens := v; ft_operators := ft_operators t; ft_sessions := ft_sessions t; ft_clusters := ft_clusters t;
     ft_audit_events := ft_audit_events t; ft_customer_events := ft_customer_events t |}.
Definition set_operators (v : list Operator) (t : FleetTables) : FleetTables :=
  {| ft_enrollment_tokens := ft_enrollment_tokens t; ft_operators := v; ft_sessions := ft_sessions t; ft_clusters := ft_clusters t;
     ft_audit_events := ft_audit_events t; ft_customer_events := ft_customer_events t |}.
Definition set_operator_sessions (v : list Session) (t : FleetTables) : FleetTables :=
  {| ft_enrollment_tokens := ft_enrollment_tokens t; ft_operators := ft_operators t; ft_sessions := v; ft_clusters := ft_clusters t;
     ft_audit_events := ft_audit_events t; ft_customer_events := ft_customer_events t |}.
Definition set_clusters (v : gmap string Cluster) (t : FleetTables) : FleetTables :=
  {| ft_enrollment_tokens := ft_enrollment_tokens t; ft_operators := ft_operators t; ft_sessions := ft_sessions t; ft_clusters := v;
     ft_audit_events := ft_audit_events t; ft_customer_events := ft_customer_events t |}.
Definition set_audit_events (v : list AuditEvent) (t : FleetTables) : FleetTables :=
  {| ft_enrollment_tokens := ft_enrollment_tokens t; ft_operators := ft_operators t; ft_sessions := ft_sessions t;
     ft_clusters := ft_clusters t; ft_audit_events := v; ft_customer_events := ft_customer_events t |}.
Definition set_customer_events (v : list CustomerEvent) (t : FleetTables) : FleetTables :=
  {| ft_enrollment_tokens := ft_enrollment_tokens t; ft_operators := ft_operators t; ft_sessions := ft_sessions t;
     ft_clusters := ft_clusters t; ft_audit_events := ft_audit_events t; ft_customer_events := v |}.
Definition on_fleet (f : FleetTables → FleetTables) (db : DB) : DB := set_fleet (f (db_fleet db)) db.
Definition set_policy_version (v : option Z) (t : AuthTables) : AuthTables :=
  {| at_policy_version := v; at_grants := at_grants t; at_rules := at_rules t;
     at_checkpoints := at_checkpoints t; at_organizations := at_organizations t;
     at_members := at_members t; at_bindings := at_bindings t; at_binding_events := at_binding_events t;
     at_users := at_users t; at_app_settings := at_app_settings t;
     at_sessions := at_sessions t |}.
Definition set_grants (v : list CapabilityGrant) (t : AuthTables) : AuthTables :=
  {| at_policy_version := at_policy_version t; at_grants := v; at_rules := at_rules t;
     at_checkpoints := at_checkpoints t; at_organizations := at_organizations t;
     at_members := at_members t; at_bindings := at_bindings t; at_binding_events := at_binding_events t;
     at_users := at_users t; at_app_settings := at_app_settings t;
     at_sessions := at_sessions t |}.
Definition set_rules (v : list CasbinRule) (t : AuthTables) : AuthTables :=
  {| at_policy_version := at_policy_version t; at_grants := at_grants t; at_rules := v;
     at_checkpoints := at_checkpoints t; at_organizations := at_organizations t;
     at_members := at_members t; at_bindings := at_bindings t; at_binding_events := at_binding_events t;
     at_users := at_users t; at_app_settings := at_app_settings t;
     at_sessions := at_sessions t |}.
Definition set_checkpoints (v : gmap (string * string) AuthorizationCheckpoint) (t : AuthTables) : AuthTables :=
  {| at_policy_version := at_policy_version t; at_grants := at_grants t; at_rules := at_rules t;
     at_checkpoints := v; at_organizations := at_organizations t; at_members := at_members t;
     at_bindings := at_bindings t; at_binding_events := at_binding_events t; at_users := at_users t;
     at_app_settings := at_app_settings t;
     at_sessions := at_sessions t |}.
Definition set_organizations (v : list Organization) (t : AuthTables) : AuthTables :=
  {| at_policy_version := at_policy_version t; at_grants := at_grants t; at_rules := at_rules t;
     at_checkpoints := at_checkpoints t; at_organizations := v; at_members := at_members t;
     at_bindings := at_bindings t; at_binding_events := at_binding_events t; at_users := at_users t;
     at_app_settings := at_app_settings t;
     at_sessions := at_sessions t |}.
Definition set_members (v : list OrganizationMember) (t : AuthTables) : AuthTables :=
  {| at_policy_version := at_policy_version t; at_grants := at_grants t; at_rules := at_rules t;
     at_checkpoints := at_checkpoints t; at_organizations := at_organizations t; at_members := v;
     at_bindings := at_bindings t; at_binding_events := at_binding_events t; at_users := at_users t;
     at_app_settings := at_app_settings t;
     at_sessions := at_sessions t |}.
Definition set_bindings (v : list OrgCustomerBinding) (t : AuthTables) : AuthTables :=
  {| at_policy_version := at_policy_version t; at_grants := at_grants t; at_rules := at_rules t;
     at_checkpoints := at_checkpoints t; at_organizations := at_organizations t;
     at_members := at_members t; at_bindings := v; at_binding_events := at_binding_events t;
     at_users := at_users t; at_app_settings := at_app_settings t;
     at_sessions := at_sessions t |}.
Definition set_binding_events (v : list BindingEvent) (t : AuthTables) : AuthTables :=
  {| at_policy_version := at_policy_version t; at_grants := at_grants t; at_rules := at_rules t;
     at_checkpoints := at_checkpoints t; at_organizations := at_organizations t;
     at_members := at_members t; at_bindings := at_bindings t; at_binding_events := v;
     at_users := at_users t; at_app_settings := at_app_settings t;
     at_sessions := at_sessions t |}.
Definition set_users (v : gmap string User) (t : AuthTables) : AuthTables :=
  {| at_policy_version := at_policy_version t; at_grants := at_grants t; at_rules := at_rules t;
     at_checkpoints := at_checkpoints t; at_organizations := at_organizations t;
     at_members := at_members t; at_bindings := at_bindings t; at_binding_events := at_binding_events t;
     at_users := v; at_app_settings := at_app_settings t;
     at_sessions := at_sessions t |}.
Definition set_app_settings (v : gmap string string) (t : AuthTables) : AuthTables :=
  {| at_policy_version := at_policy_version t; at_grants := at_grants t; at_rules := at_rules t;
     at_checkpoints := at_checkpoints t; at_organizations := at_organizations t;
     at_members := at_members t; at_bindings := at_bindings t; at_binding_events := at_binding_events t;
     at_users := at_users t; at_app_settings := v;
     at_sessions := at_sessions t |}.
Definition set_sessions (v : list AuthSession) (t : AuthTables) : AuthTables :=
  {| at_policy_version := at_policy_version t; at_grants := at_grants t; at_rules := at_rules t;
     at_checkpoints := at_checkpoints t; at_organizations := at_organizations t;
     at_members := at_members t; at_bindings := at_bindings t; at_binding_events := at_binding_events t;
     at_users := at_users t; at_app_settings := at_app_settings t; at_sessions := v |}.
(** A statement on the authorization tables. *)
Definition on_auth (f : AuthTables → AuthTables) (db : DB) : DB := set_auth (f (db_auth db)) db.

Record World := {
  w_db : DB; w_clock : nat → time; w_uuid : nat → string; w_busy : nat → bool; w_foreign_keys : bool;
}.
Definition with_db (db : DB) (w : World) : World :=
  {| w_db := db; w_clock := w_clock w; w_uuid := w_uuid w; w_busy := w_busy w; w_foreign_keys := w_foreign_keys w |}.
Definition tick (w : World) : World :=
  {| w_db := w_db w; w_clock := λ n, w_clock w (S n); w_uuid := w_uuid w; w_busy := w_busy w;
     w_foreign_keys := w_foreign_keys w |}.
Definition draw (w : World) : World :=
  {| w_db := w_db w; w_clock := w_clock w; w_uuid := λ n, w_uuid w (S n); w_busy := w_busy w;
     w_foreign_keys := w_foreign_keys w |}.
Definition attempt (w : World) : World :=
  {| w_db := w_db w; w_clock := w_clock w; w_uuid := w_uuid w; w_busy := λ n, w_busy w (S n);
     w_foreign_keys := w_foreign_keys w |}.

Abbreviation SM := (M World error).

(** [time.Now().UTC()], [nowUTC()] (db.go) and [uuid.NewString()]. *)
Definition now : SM time := λ w, (Ok (w_clock w 0), tick w).
Definition nowUTC : SM time := let! t := now in ret (rfc3339 t).
Definition new_uuid : SM string := λ w, (Ok (w_uuid w 0), draw w).

(** The defaults [if x == "" { x = uuid.NewString() }] and [if t.IsZero() { t = time.Now().UTC() }]. *)
Definition or_new_uuid (id : string) : SM string := if bool_decide (id = "") then new_uuid else ret id.
Definition or_now (t : time) : SM time := if is_zero_time t then now else ret t.

(** Reading the tables, and a statement that rewrites them. *)
Definition query {A} (f : DB → A) : SM A := gets (λ w, f (w_db w)).
Definition exec (f : DB → DB) : SM unit := modify (λ w, with_db (f (w_db w)) w).

(** [row.Scan] of an optional row: [sql.ErrNoRows] becomes ErrNotFound. *)
Definition scan_row {A} (o : option A) : SM A :=
  match o with Some a => ret a | None => throw ErrNotFound end.
Definition fail_if (b : bool) (e : error) : SM unit := if b then throw e else ret tt.

(** A foreign-key check, enforced only when the pragma is on. *)
Definition check_fk (p : DB → bool) (msg : string) : SM unit :=
  let! on := gets w_foreign_keys in
  let! ok := query p in
  fail_if (on && negb ok) (ErrOther msg).

(** ** Transactions

    The database is opened with [_txlock=immediate]: a transaction takes the
    write lock when it begins, so its statements run without interleaving.  A
    body ends in [Commit] (tx.Commit), or in [Rollback] when it returns without
    an error before the commit and the deferred [tx.Rollback] discards its
    writes. *)
Inductive outcome (A : Type) : Type :=
| Commit (a : A)
| Rollback (a : A).
Arguments Commit {A} a.
Arguments Rollback {A} a.

Definition run_tx {A} (m : SM (outcome A)) : SM A := λ w,
  if w_busy w 0 then (Err ErrSQLiteBusy, attempt w)
  else
    match m (attempt w) with
    | (Ok (Commit a), w') => (Ok a, w')
    | (Ok (Rollback a), w') => (Ok a, with_db (w_db w) w')
    | (Err e, w') => (Err e, with_db (w_db w) w')
    end.
Definition commit {A} (m : SM A) : SM (outcome A) := let! a := m in ret (Commit a).
(** A single write statement outside a transaction. *)
Definition autocommit {A} (m : SM A) : SM A := run_tx (commit m).

(** retryBusy (operations.go): at most [maxRetries + 1] attempts, only a busy
    database is retried.  The exponential sleep only advances the clock. *)
Definition maxRetries : nat := 10.
Definition isSQLiteBusy (e : error) : bool := bool_decide (e = ErrSQLiteBusy).
Fixpoint retry_loop {A} (attempts : nat) (fn : SM A) : SM A := λ w,
  match attempts with
  | O => fn w
  | S attempts' =>
      match fn w with
      | (Err e, w') => if isSQLiteBusy e then retry_loop attempts' fn w' else (Err e, w')
      | r => r
      end
  end.
Definition retryBusy {A} (fn : SM A) : SM A := retry_loop maxRetries fn.

(** ** Statements on list tables *)

(** [UPDATE t SET ... WHERE p]: the new table and RowsAffected. *)
Definition update_where {A} (p : A → bool) (f : A → A) (l : list A) : list A :=
  map (λ r, if p r then f r else r) l.
Definition rows_affected {A} (p : A → bool) (l : list A) : nat := length (filter (λ r, p r = true) l).
(** [DELETE FROM t WHERE p]. *)
Definition delete_where {A} (p : A → bool) (l : list A) : list A := filter (λ r, p r = false) l.
(** [SELECT ... WHERE p LIMIT 1] on a unique key. *)
Definition find_row {A} (p : A → bool) (l : list A) : option A := find p l.

(** ** Lemmas *)
Definition db_rel (R : relation DB) : relation World := λ w w', R (w_db w) (w_db w').
#[export] Instance db_rel_preorder R `{!PreOrder R} : PreOrder (db_rel R).
Proof.
  split; unfold db_rel; [intros w; reflexivity|].
  intros w1 w2 w3 ? ?. by transitivity (w_db w2).
Qed.

Section preserves_world.
Context (R : relation DB) `{!PreOrder R}.

Lemma preserves_now : preserves (db_rel R) now.
Proof. intros w r w' [= _ <-]. unfold db_rel. simpl. reflexivity. Qed.
Lemma preserves_new_uuid : preserves (db_rel R) new_uuid.
Proof. intros w r w' [= _ <-]. unfold db_rel. simpl. reflexivity. Qed.
Lemma preserves_nowUTC : preserves (db_rel R) nowUTC.
Proof.
  apply preserves_bind; [apply _|apply preserves_now|intros; apply preserves_ret; apply _].
Qed.
Lemma preserves_or_new_uuid id : preserves (db_rel R) (or_new_uuid id).
Proof. unfold or_new_uuid. destruct (bool_decide _); [apply preserves_new_uuid|apply preserves_ret, _]. Qed.
Lemma preserves_or_now t : preserves (db_rel R) (or_now t).
Proof. unfold or_now. destruct (is_zero_time t); [apply preserves_now|apply preserves_ret, _]. Qed.
Lemma preserves_query {A} (f : DB → A) : preserves (db_rel R) (query f).
Proof. apply preserves_gets, _. Qed.
Lemma preserves_exec f : (∀ db, R db (f db)) → preserves (db_rel R) (exec f).
Proof. intros H. apply preserves_modify. intros w. unfold db_rel. simpl. apply H. Qed.
Lemma preserves_scan_row {A} (o : option A) : preserves (db_rel R) (scan_row o).
Proof. destruct o; simpl; [apply preserves_ret|apply preserves_throw]; apply _. Qed.
Lemma preserves_fail_if b e : preserves (db_rel R) (fail_if b e).
Proof. destruct b; simpl; [apply preserves_throw|apply preserves_ret]; apply _. Qed.
Lemma preserves_check_fk p msg : preserves (db_rel R) (check_fk p msg).
Proof.
  unfold check_fk. apply preserves_bind; [apply _|apply preserves_gets, _|intros on].
  apply preserves_bind; [apply _|apply preserves_query|intros; apply preserves_fail_if].
Qed.
Lemma preserves_run_tx {A} (m : SM (outcome A)) :
  preserves (db_rel R) m → preserves (db_rel R) (run_tx m).
Proof.
  intros Hm w r w'. unfold run_tx, db_rel.
  destruct (w_busy w 0); [intros [= _ <-]; simpl; reflexivity|].
  destruct (m (attempt w)) as [[[a|a]|e] w1] eqn:E; intros [= _ <-]; simpl; try reflexivity.
  by apply (Hm _ _ _ E).
Qed.
Lemma preserves_commit {A} (m : SM A) : preserves (db_rel R) m → preserves (db_rel R) (commit m).
Proof. intros H. apply preserves_bind; [apply _|done|intros; apply preserves_ret, _]. Qed.
Lemma preserves_retry_loop {A} n (m : SM A) :
  preserves (db_rel R) m → preserves (db_rel R) (retry_loop n m).
Proof.
  intros Hm. induction n as [|n IH]; simpl; [done|]. intros w r w'.
  destruct (m w) as [[a|e] w1] eqn:E; [intros [= <- <-]; by apply (Hm _ _ _ E)|].
  destruct (isSQLiteBusy e); intros H.
  - transitivity w1; [by apply (Hm _ _ _ E)|by apply (IH _ _ _ H)].
  - injection H as <- <-. by apply (Hm _ _ _ E).
Qed.
Lemma preserves_retryBusy {A} (m : SM A) :
  preserves (db_rel R) m → preserves (db_rel R) (retryBusy m).
Proof. apply preserves_retry_loop. Qed.
Lemma preserves_autocommit {A} (m : SM A) :
  preserves (db_rel R) m → preserves (db_rel R) (autocommit m).
Proof. intros. by apply preserves_run_tx, preserves_commit. Qed.
End preserves_world.

#[export] Hint Resolve preserves_now preserves_new_uuid preserves_nowUTC preserves_or_new_uuid preserves_or_now preserves_query preserves_scan_row
  preserves_fail_if preserves_check_fk : preserve.

(** [db_preserve] is [preserve] extended with the transaction operators. *)
Ltac db_preserve_step :=
  lazymatch goal with
  | |- preserves _ (run_tx _) => apply preserves_run_tx; [apply _|]
  | |- preserves _ (commit _) => apply preserves_commit; [apply _|]
  | |- preserves _ (autocommit _) => apply preserves_autocommit; [apply _|]
  | |- preserves _ (retryBusy _) => apply preserves_retryBusy; [apply _|]
  | _ => preserve_step
  end.
Ltac db_preserve := repeat db_preserve_step.

(** A relation on one table, as a relation on databases. *)
Definition on_table {T} (f : DB → T) (R : relation T) : relation DB := λ db db', R (f db) (f db').
#[export] Instance on_table_preorder {T} (f : DB → T) R `{!PreOrder R} : PreOrder (on_table f R).
Proof. split; unfold on_table; [intros ?; reflexivity|intros x y z ? ?; by transitivity (f y)]. Qed.

(** A statement that does not touch the table. *)
Lemma preserves_exec_other {T} (f : DB → T) R `{!PreOrder R} (g : DB → DB) :
  (∀ db, f (g db) = f db) → preserves (db_rel (on_table f R)) (exec g).
Proof. intros H. apply preserves_exec. intros db. unfold on_table. rewrite H. reflexivity. Qed.
#[export] Hint Extern 1 (preserves (db_rel (on_table _ _)) (exec _)) =>
  (apply preserves_exec_other; [apply _ | intros ?; reflexivity]) : preserve.

(** A frame: a table that a method leaves alone. *)
Lemma frame {T A} (f : DB → T) (m : SM A) w r w' :
  preserves (db_rel (on_table f eq)) m → m w = (r, w') → f (w_db w') = f (w_db w).
Proof. intros H E. symmetry. exact (H _ _ _ E). Qed.

(** [use_frame f]: in the goal, trace the table [f] back through the steps
    that leave it alone. *)
Ltac use_frame f :=
  repeat match goal with
  | H : ?m ?w = (?r, ?w') |- context [f (w_db ?w')] =>
      let E := fresh "Hframe" in
      assert (E : f (w_db w') = f (w_db w)) by (apply (frame f m w r w'); [db_preserve|exact H]);
      rewrite E; clear E; simpl
  end.

(** [commits R m]: [R] holds of the runs of a transaction body that commit. *)
Definition commits {A} (R : relation DB) (m : SM (outcome A)) : Prop :=
  ∀ w a w', m w = (Ok (Commit a), w') → R (w_db w) (w_db w').
Lemma commits_run_tx {A} R `{!PreOrder R} (m : SM (outcome A)) :
  commits R m → preserves (db_rel R) (run_tx m).
Proof.
  intros H w r w'. unfold run_tx, db_rel.
  destruct (w_busy w 0); [intros [= _ <-]; simpl; reflexivity|].
  destruct (m (attempt w)) as [[[a|a]|e] w1] eqn:E; intros [= _ <-]; simpl; try reflexivity.
  by apply (H _ _ _ E).
Qed.

(** Whatever a transaction returns, its tables are either untouched or those of
    a body that committed. *)
Lemma run_tx_cases {A} (m : SM (outcome A)) w r w' :
  run_tx m w = (r, w') →
  w_db w' = w_db w ∨ ∃ a, r = Ok a ∧ m (attempt w) = (Ok (Commit a), w').
Proof.
  unfold run_tx. destruct (w_busy w 0); [intros [= <- <-]; by left|].
  destruct (m (attempt w)) as [[[a|a]|e] w1] eqn:E; intros [= <- <-]; simpl; eauto.
Qed.

Lemma run_tx_Err {A} (m : SM (outcome A)) w e w' : run_tx m w = (Err e, w') → w_db w' = w_db w.
Proof. intros H. by destruct (run_tx_cases _ _ _ _ H) as [?|(a & ? & _)]. Qed.

(** A successful transaction ran its body once. *)
Lemma run_tx_Ok {A} (m : SM (outcome A)) w a w' :
  run_tx m w = (Ok a, w') →
  w_busy w 0 = false ∧
  (m (attempt w) = (Ok (Commit a), w') ∨
   ∃ w1, m (attempt w) = (Ok (Rollback a), w1) ∧ w' = with_db (w_db w) w1).
Proof.
  unfold run_tx. destruct (w_busy w 0); [done|].
  destruct (m (attempt w)) as [[[b|b]|e] w1] eqn:E; intros [= <- <-]; eauto.
Qed.

Lemma retry_loop_Err_db {A} n (m : SM (outcome A)) w e w' :
  retry_loop n (run_tx m) w = (Err e, w') → w_db w' = w_db w.
Proof.
  revert w. induction n as [|n IH]; intros w; [apply run_tx_Err|]. simpl.
  destruct (run_tx m w) as [[a|e1] w1] eqn:E; [done|].
  apply run_tx_Err in E. destruct (isSQLiteBusy e1); [|by intros [= _ <-]].
  intros H. by rewrite (IH _ H).
Qed.


(** A retried transaction that succeeds did so in one attempt, which started
    from the same tables. *)
Lemma retry_loop_Ok {A} n (m : SM (outcome A)) w a w' :
  retry_loop n (run_tx m) w = (Ok a, w') →
  ∃ w1, w_db w1 = w_db w ∧ run_tx m w1 = (Ok a, w').
Proof.
  revert w. induction n as [|n IH]; intros w; simpl; [by eauto|].
  destruct (run_tx m w) as [[b|e1] w1] eqn:E; [intros [= -> ->]; by eauto|].
  apply run_tx_Err in E. destruct (isSQLiteBusy e1); [|done].
  intros H. destruct (IH _ H) as (w2 & Hw2 & ?). exists w2. split; [congruence|done].
Qed.

Section update_where.
Context {A : Type} (p : A → bool) (f : A → A).

Lemma update_where_elem x l : x ∈ update_where p f l ↔ ∃ y, y ∈ l ∧ x = if p y then f y else y.
Proof.
  unfold update_where. rewrite list_elem_of_fmap. split; intros (y & ? & ?); eauto.
Qed.
Lemma update_where_fmap {B} (g : A → B) l :
  (∀ x, p x = true → g (f x) = g x) → g <$> update_where p f l = g <$> l.
Proof.
  intros H. unfold update_where. induction l as [|x l IH]; [done|]. simpl in *. f_equal; [|done].
  destruct (p x) eqn:E; auto.
Qed.
Lemma rows_affected_0 l : rows_affected p l = 0%nat ↔ ∀ x, x ∈ l → p x = false.
Proof.
  unfold rows_affected. split.
  - intros H x Hx. destruct (p x) eqn:E; [|done]. apply nil_length_inv in H.
    assert (Hf : x ∈ filter (λ r, p r = true) l) by by apply list_elem_of_filter.
    rewrite H in Hf. by apply not_elem_of_nil in Hf.
  - intros H. induction l as [|x l IH]; [done|]. rewrite filter_cons.
    rewrite decide_False; [|rewrite (H x); [done|left]]. apply IH. intros y Hy. apply H. by right.
Qed.
Lemma update_where_none l : rows_affected p l = 0%nat → update_where p f l = l.
Proof.
  rewrite rows_affected_0. intros H. unfold update_where. induction l as [|x l IH]; [done|].
  simpl. rewrite (H x) by left. f_equal. apply IH. intros y Hy. apply H. by right.
Qed.
End update_where.

Lemma delete_where_elem {A} (p : A → bool) x l : x ∈ delete_where p l ↔ x ∈ l ∧ p x = false.
Proof. unfold delete_where. rewrite list_elem_of_filter. tauto. Qed.

Lemma find_row_Some {A} (p : A → bool) l x : find_row p l = Some x → x ∈ l ∧ p x = true.
Proof. unfold find_row. intros H. apply find_some in H as [H ?]. by rewrite list_elem_of_In. Qed.
Lemma find_row_None {A} (p : A → bool) l : find_row p l = None ↔ ∀ x, x ∈ l → p x = false.
Proof.
  unfold find_row. split.
  - intros H x Hx. apply (find_none _ _ H). by apply list_elem_of_In.
  - induction l as [|y l IH]; [done|]. intros H. simpl. rewrite (H y) by left.
    apply IH. intros x Hx. apply H. by right.
Qed.

(** ** Inversion of successful runs *)
Lemma query_Ok {A} (f : DB → A) (a : A) w w' : query f w = (Ok a, w') ↔ a = f (w_db w) ∧ w = w'.
Proof. unfold query. by rewrite gets_Ok. Qed.
Lemma exec_Ok f u w w' : exec f w = (Ok u, w') ↔ w' = with_db (f (w_db w)) w.
Proof. unfold exec. by rewrite modify_Ok. Qed.
Lemma scan_row_Ok {A} (o : option A) a w w' : scan_row o w = (Ok a, w') ↔ o = Some a ∧ w = w'.
Proof. destruct o; simpl; split; [by intros [= <- <-]|by intros [[= <-] <-]|done|by intros [? _]]. Qed.
Lemma fail_if_Ok b e u w w' : fail_if b e w = (Ok u, w') ↔ b = false ∧ w = w'.
Proof. destruct u, b; simpl; split; [done|by intros [? _]|by intros [= <-]|by intros [_ <-]]. Qed.
Lemma now_Ok t w w' : now w = (Ok t, w') ↔ t = w_clock w 0 ∧ w' = tick w.
Proof. unfold now. split; [by intros [= <- <-]|by intros [-> ->]]. Qed.
Lemma nowUTC_Ok t w w' : nowUTC w = (Ok t, w') ↔ t = rfc3339 (w_clock w 0) ∧ w' = tick w.
Proof. unfold nowUTC, bind, now, ret. split; [by intros [= <- <-]|by intros [-> ->]]. Qed.
Lemma new_uuid_Ok i w w' : new_uuid w = (Ok i, w') ↔ i = w_uuid w 0 ∧ w' = draw w.
Proof. unfold new_uuid. split; [by intros [= <- <-]|by intros [-> ->]]. Qed.
Lemma or_now_Ok t0 t w w' :
  or_now t0 w = (Ok t, w') →
  w_db w' = w_db w ∧ w_foreign_keys w' = w_foreign_keys w ∧ (is_zero_time t0 = false → t = t0).
Proof. unfold or_now. destruct (is_zero_time t0); [unfold now|unfold ret]; intros [= <- <-]; done. Qed.
Lemma or_new_uuid_Ok i0 i w w' :
  or_new_uuid i0 w = (Ok i, w') →
  w_db w' = w_db w ∧ w_foreign_keys w' = w_foreign_keys w ∧ (i0 ≠ "" → i = i0).
Proof. unfold or_new_uuid. case_bool_decide; [unfold new_uuid|unfold ret]; intros [= <- <-]; done. Qed.
Lemma check_fk_Ok p msg u w w' :
  check_fk p msg w = (Ok u, w') ↔ w = w' ∧ (w_foreign_keys w = true → p (w_db w) = true).
Proof.
  unfold check_fk. rewrite bind_Ok. setoid_rewrite gets_Ok. setoid_rewrite bind_Ok.
  setoid_rewrite query_Ok. setoid_rewrite fail_if_Ok. split.
  - intros (on & w1 & [-> <-] & ok & w2 & [-> <-] & Hb & <-). split; [done|].
    intros Hon. rewrite Hon in Hb. by destruct (p (w_db w)).
  - intros [<- H]. exists (w_foreign_keys w), w. split; [done|]. exists (p (w_db w)), w. split; [done|].
    split; [|done]. destruct (w_foreign_keys w); [by rewrite H|done].
Qed.

(** [dinv]: turn the successful run of a method into facts about each step. *)
Ltac dinv_step :=
  match goal with
  | H : bind _ _ _ = (Ok _, _) |- _ =>
      let a := fresh "a" in let s := fresh "w" in let H1 := fresh "Hm" in
      apply bind_Ok in H as (a & s & H1 & H)
  | H : ret _ _ = (Ok _, _) |- _ =>
      first [apply ret_Ok in H as [<- <-] | apply ret_Ok in H as [H <-]; first [injection H as <- | discriminate H]]
  | H : throw _ _ = (Ok _, _) |- _ => apply throw_Ok in H; destruct H
  | H : query _ _ = (Ok _, _) |- _ => apply query_Ok in H as [-> <-]
  | H : exec _ _ = (Ok _, _) |- _ => apply exec_Ok in H as ->
  | H : scan_row _ _ = (Ok _, _) |- _ => let E := fresh "Hrow" in apply scan_row_Ok in H as [E <-]
  | H : fail_if _ _ _ = (Ok _, _) |- _ => let E := fresh "Hguard" in apply fail_if_Ok in H as [E <-]
  | H : nowUTC _ = (Ok _, _) |- _ => apply nowUTC_Ok in H as [-> ->]
  | H : now _ = (Ok _, _) |- _ => apply now_Ok in H as [-> ->]
  | H : new_uuid _ = (Ok _, _) |- _ => apply new_uuid_Ok in H as [-> ->]
  | H : or_now _ _ = (Ok _, _) |- _ =>
      let E := fresh "Hdb" in let F := fresh "Hfk" in let G := fresh "Hval" in
      apply or_now_Ok in H as (E & F & G)
  | H : or_new_uuid _ _ = (Ok _, _) |- _ =>
      let E := fresh "Hdb" in let F := fresh "Hfk" in let G := fresh "Hval" in
      apply or_new_uuid_Ok in H as (E & F & G)
  | H : check_fk _ _ _ = (Ok _, _) |- _ => let E := fresh "Hforeign" in apply check_fk_Ok in H as [<- E]
  end.
Ltac dinv := repeat dinv_step; simpl in *.

(** ** Concrete states for the examples *)
Definition empty_db : DB :=
  {| db_operations := ∅; db_preflight_results := ∅; db_operation_events := [];
     db_operation_timeline := []; db_outbox := []; db_emergency_intents := []; db_convergence_tasks := [];
     db_idempotency_records := ∅; db_preflight_lifecycles := []; db_values_revisions := [];
     db_values_revision_decisions := []; db_audit_outbox := []; db_notification_outbox := [];
     db_release_definitions := ∅; db_authorization_source_version := Some 1;
     db_operation_execution_results := ∅; db_release_inventory := []; db_rollout_trackings := ∅;
     db_prepare_sessions := ∅; db_customers := ∅; db_release_bundles := ∅; db_candidate_artifacts := [];
     db_bundle_candidate_artifacts := []; db_auth := empty_auth;
     db_fleet := empty_fleet |}.
Definition sample_op (id definition key : string) (type : OperationType) (status : OperationStatus) (version : Z) : Operation :=
  {| op_ID := id; op_OperationType := type; op_Status := status; op_ReleaseDefinitionID := definition;
     op_IdempotencyKey := key; op_IdempotencyScope := ""; op_RequestHash := "h"; op_StateVersion := version;
     op_BundleID := "b1"; op_BundleChartRef := ""; op_BundleChartDigest := ""; op_ImageRefsJSON := None;
     op_ImageDigestsJSON := None; op_PolicyVersion := ""; op_ValuesRevisionID := ""; op_ExpectedRevision := 0;
     op_TargetRevision := 0; op_TargetOperationID := ""; op_ValuesPatch := None; op_PatchDigest := "";
     op_EffectiveValuesDigest := ""; op_Reason := ""; op_Actor := {| ac_UserID := "u"; ac_Organization := "o" |};
     op_LastError := ""; op_CreatedAt := 100 * nsec; op_UpdatedAt := 100 * nsec; op_Deadline := None;
     op_TerminalAt := None; op_EffectStatus := EffectEmpty |}.
Definition sample_definition (id : string) : ReleaseDefinition :=
  {| rd_ID := id; rd_Name := id; rd_CustomerID := "c1"; rd_ClusterID := "k1"; rd_Namespace := "ns";
     rd_ReleaseName := id; rd_ChartName := ""; rd_Status := DefStatusActive; rd_OptimisticVersion := 1;
     rd_CurrentBundleID := None; rd_CreatedBy := ""; rd_OwnerOrganizationID := None; rd_ApprovedRevisionID := None;
     rd_HPAManaged := false; rd_MaxEmergencyReplicas := 100; rd_ApprovedAnnotationKeys := [];
     rd_PromotionMappings := []; rd_CreatedAt := nsec; rd_UpdatedAt := nsec |}.
(** The clock starts at second 1000 and advances by one second per reading. *)
Definition sample_world (db : DB) : World :=
  {| w_db := db; w_clock := λ n, (1000 + Z.of_nat n) * nsec; w_uuid := λ n, ("uuid-" ++ pretty n)%string;
     w_busy := λ _, false; w_foreign_keys := true |}.
Definition db_with_ops (ops : list Operation) : DB :=
  set_release_definitions {[ "d1" := sample_definition "d1"; "d2" := sample_definition "d2" ]}
    (set_operations (list_to_map ((λ op, (op_ID op, op)) <$> ops)) empty_db).
Definition sample_intent (id operation definition delivery : string) (effect : EmergencyEffectStatus) : EmergencyIntent :=
  {| ei_ID := id; ei_ReleaseDefinitionID := definition; ei_OperationID := operation; ei_CommandID := operation;
     ei_Action := EmergencySetReplicas; ei_WorkloadKind := "Deployment"; ei_WorkloadName := "web";
     ei_WorkloadNamespace := "ns"; ei_WorkloadUID := "uid1"; ei_Container := None; ei_ArtifactID := None;
     ei_ImageReference := None; ei_TargetReplicas := Some 3; ei_AnnotationScope := None; ei_AnnotationEntries := RawEmpty;
     ei_Convergence := EmergencyRevertOnNextReconcile; ei_PromotionPaths := RawEmpty; ei_BeforeSnapshot := RawEmpty;
     ei_AfterSnapshot := RawEmpty; ei_DeliveryStatus := delivery; ei_EffectStatus := effect; ei_LastDeliveryAt := None;
     ei_LockReleasedAt := None; ei_RevertStatus := ""; ei_ReconciledByOperationID := "";
     ei_CreatedAt := 100 * nsec; ei_UpdatedAt := 100 * nsec |}.
(** The value a run returns. *)
Definition result {A} (r : res error A * World) : option A := match r.1 with Ok a => Some a | Err _ => None end.
