(* ===== verification/AuthStore.v ===== *)
(** * The authorization store
    (internal/store/sqlite: authorization.go, authorization_source.go,
    organization_members.go, organizations.go, bindings.go, customer_bindings.go,
    and the creation and lookup methods of users.go and customers.go)

    Users, organizations, memberships, organization-customer bindings, capability
    grants, the compiled policy rules and the two version counters.  Every change
    of a membership, a binding or a grant advances the source version in its own
    transaction; a write that expects a source version ([checkAuthorizationFence])
    therefore runs on exactly the memberships, bindings and grants its
    authorization was decided on ([fenced]). *)
From S2P Require Import Prelude Utf8 Json Redact Domain Database Program.
From stdpp Require Import pretty.
#[local] Open Scope Z_scope.

(** ** The source version *)
Definition bumpAuthorizationSourceVersion : SM unit :=
  let! version := query db_authorization_source_version in
  match version with
  | Some v => exec (set_authorization_source_version (Some (v + 1)))
  | None => throw (ErrOther "authorization source version guard missing")
  end.

(** ** Memberships (organization_members.go) *)
Definition is_member (orgID userID : string) (m : OrganizationMember) : bool :=
  bool_decide (om_OrgID m = orgID) && bool_decide (om_UserID m = userID).
Definition member_of (orgID userID : string) (db : DB) : option OrganizationMember :=
  find_row (is_member orgID userID) (at_members (db_auth db)).
Definition organization_of (id : string) (db : DB) : option Organization :=
  find_row (λ o, bool_decide (or_ID o = id)) (at_organizations (db_auth db)).
(** The row as SQL stores it: times are RFC3339 texts. *)
Definition member_row (m : OrganizationMember) : OrganizationMember :=
  {| om_OrgID := om_OrgID m; om_UserID := om_UserID m; om_Role := om_Role m;
     om_OptimisticVersion := om_OptimisticVersion m; om_CreatedAt := rfc3339 (om_CreatedAt m);
     om_UpdatedAt := rfc3339 (om_UpdatedAt m) |}.
Definition default_role (r : Role) : Role := if bool_decide (r = RoleOther "") then RoleViewer else r.
Definition member_defaults (m : OrganizationMember) (createdAt : time) : OrganizationMember :=
  {| om_OrgID := om_OrgID m; om_UserID := om_UserID m; om_Role := default_role (om_Role m);
     om_OptimisticVersion := om_OptimisticVersion m; om_CreatedAt := createdAt;
     om_UpdatedAt := if is_zero_time (om_UpdatedAt m) then createdAt else om_UpdatedAt m |}.
(** INSERT with the primary key (org_id, user_id); [duplicate] is the error a
    violation is reported as. *)
Definition insertMember (duplicate : error) (m : OrganizationMember) : SM unit :=
  let! existing := query (member_of (om_OrgID m) (om_UserID m)) in
  fail_if (bool_decide (is_Some existing)) duplicate ;!
  check_fk (λ db, bool_decide (is_Some (organization_of (om_OrgID m) db))) "FOREIGN KEY constraint failed" ;!
  check_fk (λ db, bool_decide (is_Some (at_users (db_auth db) !! om_UserID m))) "FOREIGN KEY constraint failed" ;!
  exec (on_auth (λ t, set_members (at_members t ++ [member_row m]) t)).
Definition Create_member (m : OrganizationMember) : SM OrganizationMember :=
  let! createdAt := or_now (om_CreatedAt m) in
  let m := member_defaults m createdAt in
  run_tx (commit (
    insertMember ErrDuplicateKey m ;!
    bumpAuthorizationSourceVersion)) ;!
  ret m.
Definition Get_member (orgID userID : string) : SM OrganizationMember :=
  let! row := query (member_of orgID userID) in scan_row row.
Definition member_created_le (a b : OrganizationMember) : Prop := om_CreatedAt a ≤ om_CreatedAt b.
#[export] Instance member_created_le_dec a b : Decision (member_created_le a b).
Proof. unfold member_created_le. apply _. Defined.
Definition members_of_org (orgID : string) (db : DB) : list OrganizationMember :=
  merge_sort member_created_le (filter (λ m, om_OrgID m = orgID) (at_members (db_auth db))).
Definition ListByOrg_members (orgID : string) : SM (list OrganizationMember) := query (members_of_org orgID).
Definition ListByUser_members (userID : string) : SM (list OrganizationMember) :=
  query (λ db, merge_sort member_created_le (filter (λ m, om_UserID m = userID) (at_members (db_auth db)))).
Definition at_version (version : Z) (m : OrganizationMember) : bool := om_OptimisticVersion m =? version.
Definition updated_member (role : Role) (now : time) (m : OrganizationMember) : OrganizationMember :=
  {| om_OrgID := om_OrgID m; om_UserID := om_UserID m; om_Role := role;
     om_OptimisticVersion := om_OptimisticVersion m + 1; om_CreatedAt := om_CreatedAt m; om_UpdatedAt := now |}.
(** The argument keeps its version; only its [UpdatedAt] is set. *)
Definition Update_member (m : OrganizationMember) : SM OrganizationMember :=
  let! t := now in
  let hit r := is_member (om_OrgID m) (om_UserID m) r && at_version (om_OptimisticVersion m) r in
  run_tx (commit (
    let! rows := query (λ db, rows_affected hit (at_members (db_auth db))) in
    fail_if (Nat.eqb rows 0) ErrOptimisticLock ;!
    exec (on_auth (λ a, set_members (update_where hit (updated_member (om_Role m) (rfc3339 t)) (at_members a)) a)) ;!
    bumpAuthorizationSourceVersion)) ;!
  ret {| om_OrgID := om_OrgID m; om_UserID := om_UserID m; om_Role := om_Role m; om_OptimisticVersion := om_OptimisticVersion m;
         om_CreatedAt := om_CreatedAt m; om_UpdatedAt := t |}.
Definition Delete_member (orgID userID : string) : SM unit :=
  run_tx (commit (
    let! rows := query (λ db, rows_affected (is_member orgID userID) (at_members (db_auth db))) in
    fail_if (Nat.eqb rows 0) ErrNotFound ;!
    exec (on_auth (λ a, set_members (delete_where (is_member orgID userID) (at_members a)) a)) ;!
    bumpAuthorizationSourceVersion)).

(** ** Users (users.go) *)
Definition user_row (u : User) : User :=
  {| us_ID := us_ID u; us_Username := us_Username u; us_PasswordHash := us_PasswordHash u; us_Provider := us_Provider u;
     us_Subject := us_Subject u; us_Status := us_Status u; us_CreatedAt := rfc3339 (us_CreatedAt u);
     us_UpdatedAt := rfc3339 (us_UpdatedAt u) |}.
Definition user_defaults (u : User) (createdAt : time) : User :=
  {| us_ID := us_ID u; us_Username := us_Username u; us_PasswordHash := us_PasswordHash u; us_Provider := us_Provider u;
     us_Subject := us_Subject u;
     us_Status := if bool_decide (us_Status u = UserStatusEmpty) then UserActive else us_Status u;
     us_CreatedAt := createdAt;
     us_UpdatedAt := if is_zero_time (us_UpdatedAt u) then createdAt else us_UpdatedAt u |}.
(** PRIMARY KEY id, UNIQUE username, and the partial unique index on (provider,
    subject) when both are set. *)
Definition user_clash (u v : User) : bool :=
  bool_decide (us_ID u = us_ID v) || bool_decide (us_Username u = us_Username v)
  || (negb (bool_decide (us_Provider u = "")) && negb (bool_decide (us_Subject u = ""))
      && bool_decide (us_Provider u = us_Provider v) && bool_decide (us_Subject u = us_Subject v)).
Definition insertUser (u : User) : SM unit :=
  let! clash := query (λ db, existsb (user_clash u) (map_to_list (at_users (db_auth db))).*2) in
  fail_if clash ErrDuplicateKey ;!
  exec (on_auth (λ t, set_users (<[us_ID u := user_row u]> (at_users t)) t)).
Definition Create_user (u : User) : SM User :=
  let! createdAt := or_now (us_CreatedAt u) in
  let u := user_defaults u createdAt in
  autocommit (insertUser u) ;! ret u.
Definition CreateWithMembership (u : User) (m : OrganizationMember) : SM unit :=
  let! createdAt := or_now (us_CreatedAt u) in
  let u := user_defaults u createdAt in
  let m := member_defaults m (if is_zero_time (om_CreatedAt m) then us_CreatedAt u else om_CreatedAt m) in
  run_tx (commit (
    insertUser u ;!
    insertMember (ErrOther "insert local user membership") m ;!
    bumpAuthorizationSourceVersion)).
Definition Get_user (id : string) : SM User :=
  let! row := query (λ db, at_users (db_auth db) !! id) in scan_row row.

(** ** Organizations (organizations.go): no change of an organization advances
    the source version. *)
Definition organization_row (o : Organization) : Organization :=
  {| or_ID := or_ID o; or_Name := or_Name o; or_Status := or_Status o; or_OptimisticVersion := or_OptimisticVersion o;
     or_CreatedAt := rfc3339 (or_CreatedAt o); or_UpdatedAt := rfc3339 (or_UpdatedAt o) |}.
Definition Create_organization (o : Organization) : SM Organization :=
  let! createdAt := or_now (or_CreatedAt o) in
  let o := {| or_ID := or_ID o; or_Name := or_Name o;
              or_Status := if bool_decide (or_Status o = OrgStatusEmpty) then OrgActive else or_Status o;
              or_OptimisticVersion := or_OptimisticVersion o; or_CreatedAt := createdAt;
              or_UpdatedAt := if is_zero_time (or_UpdatedAt o) then createdAt else or_UpdatedAt o |} in
  autocommit (
    let! existing := query (organization_of (or_ID o)) in
    fail_if (bool_decide (is_Some existing)) (ErrOther "insert organization") ;!
    exec (on_auth (λ t, set_organizations (at_organizations t ++ [organization_row o]) t))) ;!
  ret o.
Definition Get_organization (id : string) : SM Organization :=
  let! row := query (organization_of id) in scan_row row.
Definition organization_created_le (a b : Organization) : Prop := or_CreatedAt a ≤ or_CreatedAt b.
#[export] Instance organization_created_le_dec a b : Decision (organization_created_le a b).
Proof. unfold organization_created_le. apply _. Defined.
Definition List_organizations : SM (list Organization) :=
  query (λ db, merge_sort organization_created_le (at_organizations (db_auth db))).
Definition updated_organization (name : string) (status : OrganizationStatus) (now : time) (o : Organization) : Organization :=
  {| or_ID := or_ID o; or_Name := name; or_Status := status; or_OptimisticVersion := or_OptimisticVersion o + 1;
     or_CreatedAt := or_CreatedAt o; or_UpdatedAt := now |}.
Definition Update_organization (o : Organization) : SM Organization :=
  let! t := now in
  let hit r := bool_decide (or_ID r = or_ID o) && (or_OptimisticVersion r =? or_OptimisticVersion o) in
  autocommit (
    let! rows := query (λ db, rows_affected hit (at_organizations (db_auth db))) in
    fail_if (Nat.eqb rows 0) ErrOptimisticLock ;!
    exec (on_auth (λ a, set_organizations
      (update_where hit (updated_organization (or_Name o) (or_Status o) (rfc3339 t)) (at_organizations a)) a))) ;!
  ret {| or_ID := or_ID o; or_Name := or_Name o; or_Status := or_Status o; or_OptimisticVersion := or_OptimisticVersion o;
         or_CreatedAt := or_CreatedAt o; or_UpdatedAt := t |}.

(** ** Bindings (bindings.go) *)
Definition binding_of (orgID customerID : string) (db : DB) : option OrgCustomerBinding :=
  find_row (λ b, bool_decide (bi_OrgID b = orgID) && bool_decide (bi_CustomerID b = customerID)) (at_bindings (db_auth db)).
Definition binding_row (b : OrgCustomerBinding) : OrgCustomerBinding :=
  {| bi_ID := bi_ID b; bi_OrgID := bi_OrgID b; bi_CustomerID := bi_CustomerID b; bi_Status := bi_Status b;
     bi_OptimisticVersion := bi_OptimisticVersion b; bi_CreatedAt := rfc3339 (bi_CreatedAt b);
     bi_UpdatedAt := rfc3339 (bi_UpdatedAt b) |}.
Definition binding_clash (a b : OrgCustomerBinding) : bool :=
  bool_decide (bi_ID a = bi_ID b)
  || (bool_decide (bi_OrgID a = bi_OrgID b) && bool_decide (bi_CustomerID a = bi_CustomerID b)).
(** The event of a binding's new state; (binding_id, optimistic_version) is UNIQUE. *)
Definition insertBindingEvent (b : OrgCustomerBinding) : SM unit :=
  let! id := new_uuid in
  let! clash := query (λ db, existsb (λ e, bool_decide (be_ID e = id)
      || (bool_decide (be_BindingID e = bi_ID b) && (be_OptimisticVersion e =? bi_OptimisticVersion b)))
      (at_binding_events (db_auth db))) in
  fail_if clash (ErrOther "insert binding event") ;!
  exec (on_auth (λ t, set_binding_events (at_binding_events t ++
    [{| be_ID := id; be_BindingID := bi_ID b; be_OrgID := bi_OrgID b; be_CustomerID := bi_CustomerID b;
        be_Status := bi_Status b; be_OptimisticVersion := bi_OptimisticVersion b;
        be_ChangedAt := rfc3339 (bi_UpdatedAt b) |}]) t)).
Definition createBindingInTx (b : OrgCustomerBinding) : SM OrgCustomerBinding :=
  let! createdAt := or_now (bi_CreatedAt b) in
  let b := {| bi_ID := bi_ID b; bi_OrgID := bi_OrgID b; bi_CustomerID := bi_CustomerID b;
              bi_Status := if bool_decide (bi_Status b = BindingStatusEmpty) then BindingActive else bi_Status b;
              bi_OptimisticVersion := bi_OptimisticVersion b; bi_CreatedAt := createdAt;
              bi_UpdatedAt := if is_zero_time (bi_UpdatedAt b) then createdAt else bi_UpdatedAt b |} in
  let! clash := query (λ db, existsb (binding_clash b) (at_bindings (db_auth db))) in
  fail_if clash (ErrOther "insert binding") ;!
  check_fk (λ db, bool_decide (is_Some (organization_of (bi_OrgID b) db))) "FOREIGN KEY constraint failed" ;!
  exec (on_auth (λ t, set_bindings (at_bindings t ++ [binding_row b]) t)) ;!
  insertBindingEvent b ;!
  bumpAuthorizationSourceVersion ;!
  ret b.
Definition Create_binding (b : OrgCustomerBinding) : SM OrgCustomerBinding := run_tx (commit (createBindingInTx b)).
Definition binding_with_id (id : string) (db : DB) : option OrgCustomerBinding :=
  find_row (λ b, bool_decide (bi_ID b = id)) (at_bindings (db_auth db)).
Definition Get_binding (id : string) : SM OrgCustomerBinding :=
  let! row := query (binding_with_id id) in scan_row row.
Definition GetByOrgAndCustomer (orgID customerID : string) : SM OrgCustomerBinding :=
  let! row := query (binding_of orgID customerID) in scan_row row.
Definition binding_created_le (a b : OrgCustomerBinding) : Prop := bi_CreatedAt a ≤ bi_CreatedAt b.
#[export] Instance binding_created_le_dec a b : Decision (binding_created_le a b).
Proof. unfold binding_created_le. apply _. Defined.
Definition ListByOrg_bindings (orgID : string) : SM (list OrgCustomerBinding) :=
  query (λ db, merge_sort binding_created_le (filter (λ b, bi_OrgID b = orgID) (at_bindings (db_auth db)))).
Definition binding_with_status (status : BindingStatus) (now : time) (b : OrgCustomerBinding) : OrgCustomerBinding :=
  {| bi_ID := bi_ID b; bi_OrgID := bi_OrgID b; bi_CustomerID := bi_CustomerID b; bi_Status := status;
     bi_OptimisticVersion := bi_OptimisticVersion b + 1; bi_CreatedAt := bi_CreatedAt b; bi_UpdatedAt := now |}.
Definition SetStatus (id : string) (status : BindingStatus) : SM unit :=
  run_tx (commit (
    let! t := now in
    let hit b := bool_decide (bi_ID b = id) in
    let! rows := query (λ db, rows_affected hit (at_bindings (db_auth db))) in
    exec (on_auth (λ a, set_bindings (update_where hit (binding_with_status status (rfc3339 t)) (at_bindings a)) a)) ;!
    fail_if (negb (Nat.eqb rows 1)) ErrNotFound ;!
    let! row := query (binding_with_id id) in
    let! binding := scan_row row in
    insertBindingEvent binding ;!
    bumpAuthorizationSourceVersion)).
Definition RequireActive (orgID customerID : string) : SM unit :=
  let! row := query (binding_of orgID customerID) in
  let! binding := scan_row row in
  fail_if (negb (bool_decide (bi_Status binding = BindingActive))) ErrBindingRevoked.

(** ** Customers (customers.go, customer_bindings.go) *)
Definition insertCustomer (c : Customer) : SM Customer :=
  let! createdAt := or_now (cu_CreatedAt c) in
  let c := {| cu_ID := cu_ID c; cu_Name := cu_Name c; cu_Slug := cu_Slug c;
              cu_Status := if bool_decide (cu_Status c = CustomerStatusEmpty) then CustomerActive else cu_Status c;
              cu_Version := 1; cu_CreatedAt := createdAt;
              cu_UpdatedAt := if is_zero_time (cu_UpdatedAt c) then createdAt else cu_UpdatedAt c |} in
  let! clash := query (λ db, existsb (λ d, bool_decide (cu_ID d = cu_ID c) || bool_decide (cu_Slug d = cu_Slug c))
                                     (map_to_list (db_customers db)).*2) in
  fail_if clash (ErrOther "insert customer") ;!
  exec (λ db, set_customers (<[cu_ID c :=
    {| cu_ID := cu_ID c; cu_Name := cu_Name c; cu_Slug := cu_Slug c; cu_Status := cu_Status c; cu_Version := 1;
       cu_CreatedAt := rfc3339 (cu_CreatedAt c); cu_UpdatedAt := rfc3339 (cu_UpdatedAt c) |}]> (db_customers db)) db) ;!
  ret c.
Definition Get_customer (id : string) : SM Customer :=
  let! row := query (λ db, db_customers db !! id) in scan_row row.
Definition customer_slug_taken (c : Customer) (db : DB) : bool :=
  existsb (λ d, negb (bool_decide (cu_ID d = cu_ID c)) && bool_decide (cu_Slug d = cu_Slug c)) (map_to_list (db_customers db)).*2.
Definition Update_customer (c : Customer) (expectedVersion : Z) : SM Customer :=
  let! t := now in
  autocommit (
    let! row := query (λ db, db_customers db !! cu_ID c) in
    match row with
    | Some r =>
        if cu_Version r =? expectedVersion then
          let! taken := query (customer_slug_taken c) in
          fail_if taken (ErrOther "update customer") ;!
          exec (λ db, set_customers (<[cu_ID c :=
            {| cu_ID := cu_ID c; cu_Name := cu_Name c; cu_Slug := cu_Slug c; cu_Status := cu_Status c;
               cu_Version := cu_Version r + 1; cu_CreatedAt := cu_CreatedAt r; cu_UpdatedAt := rfc3339 t |}]>
            (db_customers db)) db)
        else throw ErrOptimisticLock
    | None => throw ErrOptimisticLock
    end) ;!
  ret {| cu_ID := cu_ID c; cu_Name := cu_Name c; cu_Slug := cu_Slug c; cu_Status := cu_Status c;
         cu_Version := expectedVersion + 1; cu_CreatedAt := cu_CreatedAt c; cu_UpdatedAt := t |}.
Definition CreateCustomerWithOrgBinding (customer : option Customer) (orgID bindingID : string) : SM unit :=
  match customer with
  | None => throw (ErrOther "create customer with binding: nil customer")
  | Some c =>
      fail_if (bool_decide (orgID = "") || bool_decide (bindingID = ""))
        (ErrOther "create customer with binding: org id and binding id are required") ;!
      run_tx (commit (
        let! c := insertCustomer c in
        let! _ := createBindingInTx
          {| bi_ID := bindingID; bi_OrgID := orgID; bi_CustomerID := cu_ID c; bi_Status := BindingStatusEmpty;
             bi_OptimisticVersion := 0; bi_CreatedAt := 0; bi_UpdatedAt := 0 |} in
        ret tt))
  end.

(** ** Versions, grants, rules and checkpoints (authorization.go) *)
Definition loadAuthorizationVersions : SM (Z * Z) :=
  let! source := query db_authorization_source_version in
  let! policy := query (λ db, at_policy_version (db_auth db)) in
  match source, policy with
  | Some s, Some p => ret (s, p)
  | None, _ => throw (ErrOther "load authorization source version")
  | _, None => throw (ErrOther "load policy version")
  end.
Definition lex_leb (a b : string) (rest : bool) : bool := if bool_decide (a = b) then rest else string_leb a b.
Definition grant_leb (a b : CapabilityGrant) : bool :=
  lex_leb (cg_OrganizationID a) (cg_OrganizationID b)
    (lex_leb (cg_Subject a) (cg_Subject b) (string_leb (action_string (cg_Action a)) (action_string (cg_Action b)))).
Definition checkpoint_leb (a b : AuthorizationCheckpoint) : bool :=
  lex_leb (cp_OrganizationID a) (cp_OrganizationID b) (string_leb (cp_CustomerID a) (cp_CustomerID b)).
Definition grant_le (a b : CapabilityGrant) : Prop := grant_leb a b = true.
#[export] Instance grant_le_dec a b : Decision (grant_le a b) := decide (grant_leb a b = true).
Definition checkpoint_le (a b : AuthorizationCheckpoint) : Prop := checkpoint_leb a b = true.
#[export] Instance checkpoint_le_dec a b : Decision (checkpoint_le a b) := decide (checkpoint_leb a b = true).
(** loadAuthorizationSnapshot: five statements, each on its own connection, so
    other transactions may commit in between.  The source version is read first. *)
Definition Load_failed (e : error) : svc World error (res error AuthorizationSnapshot) := Done (Err e).
Definition Load : svc World error (res error AuthorizationSnapshot) :=
  let* source := (let! v := query db_authorization_source_version in scan_row v) fails Load_failed in
  let* policy := (let! v := query (λ db, at_policy_version (db_auth db)) in scan_row v) fails Load_failed in
  let* grants := query (λ db, merge_sort grant_le (at_grants (db_auth db))) fails Load_failed in
  let* rules := query (λ db, at_rules (db_auth db)) fails Load_failed in
  let* checkpoints := query (λ db, merge_sort checkpoint_le (map_to_list (at_checkpoints (db_auth db))).*2) fails Load_failed in
  Done (Ok {| as_SourceVersion := source; as_PolicyVersion := policy; as_Grants := grants; as_Rules := rules;
              as_Checkpoints := checkpoints |}).

Definition same_grant_key (a b : CapabilityGrant) : bool :=
  bool_decide (cg_OrganizationID a = cg_OrganizationID b) && bool_decide (cg_Subject a = cg_Subject b)
  && bool_decide (cg_Action a = cg_Action b).
Definition insertCapabilityGrant (g : CapabilityGrant) : SM unit :=
  let! createdAt := or_now (cg_CreatedAt g) in
  let g := {| cg_OrganizationID := cg_OrganizationID g; cg_Subject := cg_Subject g; cg_Action := cg_Action g;
              cg_GrantedBy := cg_GrantedBy g; cg_Revoked := cg_Revoked g; cg_CreatedAt := createdAt;
              cg_UpdatedAt := if is_zero_time (cg_UpdatedAt g) then createdAt else cg_UpdatedAt g |} in
  let! clash := query (λ db, existsb (same_grant_key g) (at_grants (db_auth db))) in
  fail_if clash (ErrOther "insert capability grant") ;!
  exec (on_auth (λ t, set_grants (at_grants t ++ [g]) t)).
Fixpoint insert_grants (grants : list CapabilityGrant) : SM unit :=
  match grants with
  | [] => ret tt
  | g :: grants => insertCapabilityGrant g ;! insert_grants grants
  end.
Definition nextSourceVersion (m : AuthorizationMutation) (source : Z) : Z :=
  if bool_decide (m = AuthorizationPolicyChanged) then source else source + 1.
Definition nextPolicyVersion (c : AuthorizationApplyCommand) (policy : Z) : Z :=
  if negb (bool_decide (aa_Rules c = None)) || bool_decide (aa_Mutation c = AuthorizationPolicyChanged)
     || bool_decide (aa_Mutation c = AuthorizationGrantChanged) then policy + 1 else policy.
Definition apply_tx (c : AuthorizationApplyCommand) : SM unit :=
  let! current := loadAuthorizationVersions in
  fail_if (negb (current.1 =? aa_ExpectedSourceVersion c) || negb (current.2 =? aa_ExpectedPolicyVersion c)) ErrOptimisticLock ;!
  match aa_Grants c with
  | Some grants => exec (on_auth (set_grants [])) ;! insert_grants grants
  | None => ret tt
  end ;!
  match aa_Rules c with
  | Some rules => exec (on_auth (set_rules rules))
  | None => ret tt
  end ;!
  exec (set_authorization_source_version (Some (nextSourceVersion (aa_Mutation c) current.1))) ;!
  exec (on_auth (set_policy_version (Some (nextPolicyVersion c current.2)))).
Definition Apply_failed (e : error) : svc World error (res error AuthorizationSnapshot) := Done (Err e).
Definition Apply (c : AuthorizationApplyCommand) : svc World error (res error AuthorizationSnapshot) :=
  let* _ := retryBusy (run_tx (commit (apply_tx c))) fails Apply_failed in Load.

Definition GetCheckpoint (organizationID customerID : string) : SM AuthorizationCheckpoint :=
  let! row := query (λ db, at_checkpoints (db_auth db) !! (organizationID, customerID)) in scan_row row.
(** The guard of the UPSERT: the stored checkpoint never goes back. *)
Definition checkpoint_advances (stored new : AuthorizationCheckpoint) : bool :=
  (cp_SourceVersion stored <? cp_SourceVersion new)
  || ((cp_SourceVersion new =? cp_SourceVersion stored) && (cp_PolicyVersion stored <=? cp_PolicyVersion new)).
Definition SaveCheckpoint (c : AuthorizationCheckpoint) : SM unit :=
  let! updatedAt := or_now (cp_UpdatedAt c) in
  let c := {| cp_OrganizationID := cp_OrganizationID c; cp_CustomerID := cp_CustomerID c;
              cp_SourceVersion := cp_SourceVersion c; cp_PolicyVersion := cp_PolicyVersion c; cp_Fresh := cp_Fresh c;
              cp_UpdatedAt := updatedAt |} in
  let key := (cp_OrganizationID c, cp_CustomerID c) in
  retryBusy (autocommit (exec (on_auth (λ t, set_checkpoints (match at_checkpoints t !! key with
    | Some stored => if checkpoint_advances stored c then <[key := c]> (at_checkpoints t) else at_checkpoints t
    | None => <[key := c]> (at_checkpoints t)
    end) t)))).

(** ** What the transactions do *)
Lemma bump_Ok u w w' :
  bumpAuthorizationSourceVersion w = (Ok u, w') →
  ∃ v, db_authorization_source_version (w_db w) = Some v ∧ w_db w' = set_authorization_source_version (Some (v + 1)) (w_db w).
Proof.
  unfold bumpAuthorizationSourceVersion. intros H. dinv.
  destruct (db_authorization_source_version (w_db w)) as [v|] eqn:E; dinv. by exists v.
Qed.
Lemma loadAuthorizationVersions_Ok vs w w' :
  loadAuthorizationVersions w = (Ok vs, w') →
  w' = w ∧ db_authorization_source_version (w_db w) = Some vs.1 ∧ at_policy_version (db_auth (w_db w)) = Some vs.2.
Proof.
  unfold loadAuthorizationVersions. intros H. dinv.
  destruct (db_authorization_source_version (w_db w)), (at_policy_version (db_auth (w_db w))); dinv. done.
Qed.
(** Two grants that differ in nothing but times the store filled in. *)
Definition same_grant (g g' : CapabilityGrant) : Prop :=
  cg_OrganizationID g' = cg_OrganizationID g ∧ cg_Subject g' = cg_Subject g ∧ cg_Action g' = cg_Action g ∧
  cg_GrantedBy g' = cg_GrantedBy g ∧ cg_Revoked g' = cg_Revoked g.
(** The statements of [apply] that only touch grants. *)
Definition only_grants (db db' : DB) : Prop := ∃ l, db' = on_auth (set_grants l) db.
#[export] Instance only_grants_preorder : PreOrder only_grants.
Proof.
  split.
  - intros db. exists (at_grants (db_auth db)). by destruct db as [? ? ? ? ? ? ? ? ? ? ? ? ? ? ? ? ? ? ? ? ? ? ? []].
  - intros db1 db2 db3 [l ->] [l' ->]. by exists l'.
Qed.
Lemma insertCapabilityGrant_Ok g u w w' :
  insertCapabilityGrant g w = (Ok u, w') →
  ∃ g', same_grant g g' ∧ w_db w' = on_auth (set_grants (at_grants (db_auth (w_db w)) ++ [g'])) (w_db w) ∧
    ∀ x, x ∈ at_grants (db_auth (w_db w)) → same_grant_key g x = false.
Proof.
  unfold insertCapabilityGrant. intros H. dinv. rewrite Hdb in *. eexists. split; [|split; [done|]]; [done|].
  rewrite existsb_false_forall, Forall_forall in Hguard. exact Hguard.
Qed.
Lemma insert_grants_Ok gs u w w' :
  insert_grants gs w = (Ok u, w') →
  ∃ gs', Forall2 same_grant gs gs' ∧ at_grants (db_auth (w_db w')) = at_grants (db_auth (w_db w)) ++ gs' ∧ only_grants (w_db w) (w_db w').
Proof.
  revert w. induction gs as [|g gs IH]; intros w H; simpl in H; dinv.
  - exists []. split_and!; [constructor|by rewrite app_nil_r|reflexivity].
  - rename Hm into Hg. apply insertCapabilityGrant_Ok in Hg as (g' & Hs & Hdb & _).
    apply IH in H as (gs' & Hgs & Hg & Ho). rewrite Hdb in *. exists (g' :: gs'). split_and!.
    + by constructor.
    + rewrite Hg. simpl. by rewrite <- app_assoc.
    + etransitivity; [|exact Ho]. by eexists.
Qed.
(** The outcome of a committed [apply]. *)
Record applied (c : AuthorizationApplyCommand) (db db' : DB) : Prop := {
  ap_source : db_authorization_source_version db = Some (aa_ExpectedSourceVersion c);
  ap_policy : at_policy_version (db_auth db) = Some (aa_ExpectedPolicyVersion c);
  ap_next_source : db_authorization_source_version db' = Some (nextSourceVersion (aa_Mutation c) (aa_ExpectedSourceVersion c));
  ap_next_policy : at_policy_version (db_auth db') = Some (nextPolicyVersion c (aa_ExpectedPolicyVersion c));
  ap_rules : at_rules (db_auth db') = default (at_rules (db_auth db)) (aa_Rules c);
  ap_grants : match aa_Grants c with
              | Some gs => Forall2 same_grant gs (at_grants (db_auth db'))
              | None => at_grants (db_auth db') = at_grants (db_auth db)
              end;
  ap_rest : ∃ s p r g, db' = set_authorization_source_version s (on_auth (λ t, set_policy_version p (set_rules r (set_grants g t))) db);
}.
Lemma apply_tx_Ok c u w w' : apply_tx c w = (Ok u, w') → applied c (w_db w) (w_db w').
Proof.
  unfold apply_tx. intros H. apply bind_Ok in H as (vs & w0 & Hv & H). apply loadAuthorizationVersions_Ok in Hv as (-> & Hs & Hp).
  apply bind_Ok in H as (u0 & w1 & Hguard & H). apply fail_if_Ok in Hguard as [Hguard <-].
  apply orb_false_iff in Hguard as [H1 H2]. apply negb_false_iff, Z.eqb_eq in H1, H2.
  apply bind_Ok in H as (u1 & w2 & Hgrants & H).
  assert (Hg : (match aa_Grants c with
                | Some gs => Forall2 same_grant gs (at_grants (db_auth (w_db w2)))
                | None => at_grants (db_auth (w_db w2)) = at_grants (db_auth (w_db w))
                end) ∧ only_grants (w_db w) (w_db w2)).
  { destruct (aa_Grants c) as [gs|]; dinv; [|by split].
    apply insert_grants_Ok in Hgrants as (gs' & Hgs & Hg & Ho). simpl in *. rewrite Hg. split; [done|].
    etransitivity; [|exact Ho]. by eexists. }
  destruct Hg as [Hg [g Hdb]]. apply bind_Ok in H as (u2 & w3 & Hrules & H).
  assert (Hr : ∃ r, w_db w3 = on_auth (set_rules r) (w_db w2) ∧ r = default (at_rules (db_auth (w_db w2))) (aa_Rules c)).
  { destruct (aa_Rules c) as [r|]; dinv; eexists; (split; [|done]); [done|].
    unfold on_auth. by destruct (w_db w2) as [? ? ? ? ? ? ? ? ? ? ? ? ? ? ? ? ? ? ? ? ? ? ? []]. }
  destruct Hr as (r & Hdb3 & Hr). dinv. rewrite Hdb in *. simpl in *. rewrite H1, H2 in *.
  split; rewrite ?Hdb3; simpl; try done. by eexists _, _, _, _.
Qed.
Lemma apply_Ok c u w w' : retryBusy (run_tx (commit (apply_tx c))) w = (Ok u, w') → applied c (w_db w) (w_db w').
Proof.
  intros H. apply retry_loop_Ok in H as (w1 & <- & H). apply run_tx_Ok in H as (_ & [H|(w2 & H & _)]).
  - apply bind_Ok in H as (u' & w2 & H & Hr). dinv. by apply apply_tx_Ok in H.
  - apply bind_Ok in H as (u' & w3 & _ & Hr). dinv.
Qed.

(** ** The fence

    [fenced]: the source version never goes back, and while it stays the same so
    do the memberships, the bindings and the grants. *)
Definition source_le (a b : option Z) : Prop :=
  match a, b with Some x, Some y => x ≤ y | None, None => True | _, _ => False end.
Lemma source_le_trans a b c : source_le a b → source_le b c → source_le a c.
Proof. destruct a, b, c; simpl; (done || lia). Qed.
Lemma source_le_antisym a b : source_le a b → source_le b a → a = b.
Proof. destruct a, b; simpl; try done. intros ? ?. f_equal. lia. Qed.
Definition guarded (db : DB) : list OrganizationMember * list OrgCustomerBinding * list CapabilityGrant :=
  (at_members (db_auth db), at_bindings (db_auth db), at_grants (db_auth db)).
Definition fence_view (db : DB) := (db_authorization_source_version db, guarded db).
Definition fenced (db db' : DB) : Prop :=
  source_le (db_authorization_source_version db) (db_authorization_source_version db') ∧
  (db_authorization_source_version db' = db_authorization_source_version db → guarded db' = guarded db).
#[export] Instance fenced_preorder : PreOrder fenced.
Proof.
  split.
  - intros db. split; [by destruct (db_authorization_source_version db); simpl|done].
  - intros a b c [H1 H2] [H3 H4]. split; [by eapply source_le_trans|]. intros E.
    assert (Eb : db_authorization_source_version b = db_authorization_source_version a)
      by (symmetry; apply source_le_antisym; [done|by rewrite <- E]).
    rewrite <- H2 by done. apply H4. congruence.
Qed.
Lemma fenced_view db db' : fence_view db' = fence_view db → fenced db db'.
Proof.
  intros H. assert (Hv := f_equal fst H). assert (Hg := f_equal snd H). simpl in Hv, Hg. unfold fenced. rewrite Hv.
  split; [|by intros _]. by destruct (db_authorization_source_version db); simpl.
Qed.
Lemma fenced_bump db db' v :
  db_authorization_source_version db = Some v → db_authorization_source_version db' = Some (v + 1) → fenced db db'.
Proof. intros H H'. unfold fenced. rewrite H, H'. split; [simpl; lia|]. intros [= ?]. lia. Qed.
Lemma preserves_fence_view {A} (m : SM A) : preserves (db_rel (on_table fence_view eq)) m → preserves (db_rel fenced) m.
Proof. intros Hm w r w' H. apply fenced_view. symmetry. exact (Hm _ _ _ H). Qed.
(** A transaction that advances the source version. *)
Definition advances (db db' : DB) : Prop :=
  ∃ v, db_authorization_source_version db = Some v ∧ db_authorization_source_version db' = Some (v + 1).
Lemma preserves_advancing {A} (body : SM A) :
  (∀ w a w', body w = (Ok a, w') → advances (w_db w) (w_db w')) → preserves (db_rel fenced) (run_tx (commit body)).
Proof.
  intros H. apply commits_run_tx; [apply _|]. intros w a w' Hb. apply bind_Ok in Hb as (a' & w1 & Hb & Hr). dinv.
  apply H in Hb as (v & Hv & Hv'). by eapply fenced_bump.
Qed.
Lemma insertMember_frame {T} (f : DB → T) R `{!PreOrder R} e m :
  (∀ t db, f (set_auth t db) = f db) → preserves (db_rel (on_table f R)) (insertMember e m).
Proof. intros Hf. unfold insertMember. db_preserve. apply preserves_exec_other; [apply _|intros; apply Hf]. Qed.
Lemma insertUser_frame {T} (f : DB → T) R `{!PreOrder R} u :
  (∀ t db, f (set_auth t db) = f db) → preserves (db_rel (on_table f R)) (insertUser u).
Proof. intros Hf. unfold insertUser. db_preserve. apply preserves_exec_other; [apply _|intros; apply Hf]. Qed.
Lemma insertBindingEvent_frame {T} (f : DB → T) R `{!PreOrder R} b :
  (∀ t db, f (set_auth t db) = f db) → preserves (db_rel (on_table f R)) (insertBindingEvent b).
Proof. intros Hf. unfold insertBindingEvent. db_preserve. apply preserves_exec_other; [apply _|intros; apply Hf]. Qed.
Lemma insertCustomer_frame {T} (f : DB → T) R `{!PreOrder R} c :
  (∀ t db, f (set_customers t db) = f db) → preserves (db_rel (on_table f R)) (insertCustomer c).
Proof. intros Hf. unfold insertCustomer. db_preserve. apply preserves_exec_other; [apply _|intros; apply Hf]. Qed.
#[export] Hint Extern 1 (preserves (db_rel (on_table _ _)) (insertMember _ _)) =>
  (apply insertMember_frame; [apply _ | reflexivity]) : preserve.
#[export] Hint Extern 1 (preserves (db_rel (on_table _ _)) (insertUser _)) =>
  (apply insertUser_frame; [apply _ | reflexivity]) : preserve.
#[export] Hint Extern 1 (preserves (db_rel (on_table _ _)) (insertBindingEvent _)) =>
  (apply insertBindingEvent_frame; [apply _ | reflexivity]) : preserve.
#[export] Hint Extern 1 (preserves (db_rel (on_table _ _)) (insertCustomer _)) =>
  (apply insertCustomer_frame; [apply _ | reflexivity]) : preserve.

(** [advancing]: the version before the bump is the version at the start. *)
Ltac advancing :=
  match goal with
  | H : bumpAuthorizationSourceVersion _ = (Ok _, _) |- _ =>
      let v := fresh "v" in let Hv := fresh "Hv" in let Hdb := fresh "Hdb" in
      apply bump_Ok in H as (v & Hv & Hdb); exists v; rewrite ?Hdb; split; [|done]; rewrite <- Hv; symmetry
  end.
(** [to_tx]: walk to the transactions of a method. *)
Ltac to_tx := repeat lazymatch goal with |- preserves _ (run_tx _) => fail | _ => db_preserve_step end.
Lemma Create_member_fenced m : preserves (db_rel fenced) (Create_member m).
Proof.
  unfold Create_member. to_tx. apply preserves_advancing. intros w r w' H. dinv. advancing. by use_frame db_authorization_source_version.
Qed.
Lemma Update_member_fenced m : preserves (db_rel fenced) (Update_member m).
Proof. unfold Update_member. to_tx. apply preserves_advancing. intros w r w' H. dinv. by advancing. Qed.
Lemma Delete_member_fenced o u : preserves (db_rel fenced) (Delete_member o u).
Proof. unfold Delete_member. to_tx. apply preserves_advancing. intros w r w' H. dinv. by advancing. Qed.
Lemma CreateWithMembership_fenced u m : preserves (db_rel fenced) (CreateWithMembership u m).
Proof.
  unfold CreateWithMembership. to_tx. apply preserves_advancing. intros w r w' H. dinv. advancing. by use_frame db_authorization_source_version.
Qed.
Lemma createBindingInTx_advances b w a w' : createBindingInTx b w = (Ok a, w') → advances (w_db w) (w_db w').
Proof. unfold createBindingInTx. intros H. dinv. advancing. use_frame db_authorization_source_version. by rewrite ?Hdb. Qed.
Lemma Create_binding_fenced b : preserves (db_rel fenced) (Create_binding b).
Proof. unfold Create_binding. apply preserves_advancing. intros w a w'. apply createBindingInTx_advances. Qed.
Lemma SetStatus_fenced i s : preserves (db_rel fenced) (SetStatus i s).
Proof.
  unfold SetStatus. to_tx. apply preserves_advancing. intros w r w' H. dinv. advancing. by use_frame db_authorization_source_version.
Qed.
Lemma CreateCustomerWithOrgBinding_fenced c o b : preserves (db_rel fenced) (CreateCustomerWithOrgBinding c o b).
Proof.
  unfold CreateCustomerWithOrgBinding. destruct c as [c|]; [|apply preserves_throw; apply _]. to_tx.
  apply preserves_advancing. intros w r w' H. dinv.
  match goal with H : createBindingInTx _ _ = _ |- _ => apply createBindingInTx_advances in H as (v & Hv & Hv') end.
  exists v. split; [|done]. rewrite <- Hv. symmetry. by use_frame db_authorization_source_version.
Qed.
(** A replacement of grants must be announced as a grant change. *)
Definition apply_announced (c : AuthorizationApplyCommand) : Prop :=
  aa_Mutation c = AuthorizationPolicyChanged → aa_Grants c = None.
Lemma applied_fenced c db db' : apply_announced c → applied c db db' → fenced db db'.
Proof.
  intros Hc [Hs Hp Hs' Hp' Hr Hg (s & p & r & g & ->)]. unfold nextSourceVersion in Hs'. case_bool_decide as Hm.
  - apply fenced_view. unfold fence_view, guarded. rewrite Hs, Hs'. simpl. rewrite Hc in Hg by done. simpl in Hg. by rewrite Hg.
  - by eapply fenced_bump.
Qed.
Lemma apply_fenced c : apply_announced c → preserves (db_rel fenced) (retryBusy (run_tx (commit (apply_tx c)))).
Proof.
  intros Hc. apply preserves_retryBusy; [apply _|]. apply commits_run_tx; [apply _|]. intros w a w' H.
  apply bind_Ok in H as (u & w1 & H & Hr). dinv. apply apply_tx_Ok in H. by eapply applied_fenced.
Qed.
Lemma Create_user_fenced u : preserves (db_rel fenced) (Create_user u).
Proof. apply preserves_fence_view. unfold Create_user, insertUser. db_preserve. Qed.
Lemma Create_organization_fenced o : preserves (db_rel fenced) (Create_organization o).
Proof. apply preserves_fence_view. unfold Create_organization. db_preserve. Qed.
Lemma Update_organization_fenced o : preserves (db_rel fenced) (Update_organization o).
Proof. apply preserves_fence_view. unfold Update_organization. db_preserve. Qed.
Lemma Update_customer_fenced c v : preserves (db_rel fenced) (Update_customer c v).
Proof. apply preserves_fence_view. unfold Update_customer. db_preserve. Qed.
Lemma SaveCheckpoint_fenced c : preserves (db_rel fenced) (SaveCheckpoint c).
Proof. apply preserves_fence_view. unfold SaveCheckpoint. db_preserve. Qed.

(** ** Checkpoints *)
Definition checkpoint_le_lex (a b : AuthorizationCheckpoint) : Prop :=
  cp_SourceVersion a < cp_SourceVersion b ∨ cp_SourceVersion a = cp_SourceVersion b ∧ cp_PolicyVersion a ≤ cp_PolicyVersion b.
Definition checkpoints_advance (m m' : gmap (string * string) AuthorizationCheckpoint) : Prop :=
  ∀ k c, m !! k = Some c → ∃ c', m' !! k = Some c' ∧ checkpoint_le_lex c c'.
#[export] Instance checkpoints_advance_preorder : PreOrder checkpoints_advance.
Proof.
  split.
  - intros m k c Hc. exists c. split; [done|]. right. lia.
  - intros m1 m2 m3 H12 H23 k c Hc. destruct (H12 k c Hc) as (c' & Hc' & Hle). destruct (H23 k c' Hc') as (c'' & Hc'' & Hle').
    exists c''. split; [done|]. unfold checkpoint_le_lex in *. lia.
Qed.
(** Whatever checkpoints are saved in whatever order, a stored one never goes back. *)
Lemma SaveCheckpoint_advances c :
  preserves (db_rel (on_table (λ db, at_checkpoints (db_auth db)) checkpoints_advance)) (SaveCheckpoint c).
Proof.
  unfold SaveCheckpoint. apply preserves_bind; [apply _|db_preserve|intros t]. apply preserves_retryBusy; [apply _|].
  apply preserves_autocommit; [apply _|]. apply preserves_exec. intros db. unfold on_table. simpl.
  intros k c0 Hc0. set (key := (cp_OrganizationID c, cp_CustomerID c)).
  destruct (decide (k = key)) as [->|Hne].
  - rewrite Hc0. destruct (checkpoint_advances _ _) eqn:E; [|exists c0; split; [done|right; lia]].
    rewrite lookup_insert_eq. eexists. split; [done|]. unfold checkpoint_advances in E. unfold checkpoint_le_lex. simpl in *. lia.
  - exists c0. split; [|right; lia]. destruct (at_checkpoints (db_auth db) !! key); [destruct (checkpoint_advances _ _)|];
      rewrite ?lookup_insert_ne by done; done.
Qed.
