(* ===== verification/Policy.v ===== *)
(** * The policy projection and its enforcer (internal/auth/casbin.go and the
    role tables of internal/auth/authorization_snapshot.go)

    The rules Casbin evaluates are compiled from the memberships and the capability
    grants, persisted next to them and loaded into the process.  Casbin itself is a
    parameter: [casbin_Enforce] evaluates a list of rules under the model text of
    casbin.go, [keyMatch] is its pattern function.  The mutex [refreshMu] only
    removes interleavings of refreshes and is left out. *)
From S2P Require Import Prelude Utf8 Json Redact RateLimit Domain Database Program AuthStore.
From Stdlib Require Import Ascii.
#[local] Open Scope Z_scope.

(** ** Rules of roles and grants *)
Definition p_rule (subject domain object action : string) : CasbinRule :=
  {| ru_PType := "p"; ru_V0 := subject; ru_V1 := domain; ru_V2 := object; ru_V3 := action; ru_V4 := ""; ru_V5 := "" |}.
Definition g_rule (user role domain : string) : CasbinRule :=
  {| ru_PType := "g"; ru_V0 := user; ru_V1 := role; ru_V2 := domain; ru_V3 := ""; ru_V4 := ""; ru_V5 := "" |}.
Definition role_capabilities (role : Role) : list AuthorizationAction :=
  match role with
  | RolePlatformAdmin =>
      [AuthorizationExecuteEmergency; AuthorizationResolveEmergency; AuthorizationCreateValues; AuthorizationApproveValues]
  | RoleReleaseAdmin => [AuthorizationExecuteEmergency; AuthorizationCreateValues; AuthorizationApproveValues]
  | RoleDeployer => [AuthorizationCreateValues]
  | _ => []
  end.
Definition roleCapabilityRules (role : Role) (domain : string) : list CasbinRule :=
  (λ action, p_rule (role_string role) domain "release" (action_string action)) <$> role_capabilities role.
(** The objects and actions of each role outside the capabilities. *)
Definition role_permissions (role : Role) : list (string * string) :=
  match role with
  | RolePlatformAdmin => [("*", "*")]
  | RoleReleaseAdmin =>
      [("organization", "read"); ("organization", "write"); ("member", "read"); ("member", "write");
       ("binding", "read"); ("binding", "write"); ("release", "read"); ("release", "write"); ("bundle", "read");
       ("operator", "read"); ("operator", "enroll"); ("operator", "revoke"); ("customer", "read");
       ("trust_root", "read"); ("audit", "read"); ("audit", "write")]
  | RoleDeployer =>
      [("release", "read"); ("release", "write"); ("operator", "read"); ("customer", "read"); ("trust_root", "read");
       ("audit", "read")]
  | RoleViewer =>
      [("organization", "read"); ("member", "read"); ("release", "read"); ("operator", "read"); ("customer", "read");
       ("trust_root", "read"); ("audit", "read")]
  | RoleOther _ => []
  end.
Definition roleRules (role : Role) (domain : string) : list CasbinRule :=
  ((λ oa, p_rule (role_string role) domain oa.1 oa.2) <$> role_permissions role) ++ roleCapabilityRules role domain.
Definition grant_applies (m : OrganizationMember) (g : CapabilityGrant) : bool :=
  negb (cg_Revoked g) && bool_decide (cg_OrganizationID g = om_OrgID m) && bool_decide (cg_Subject g = om_UserID m).
Definition grant_rule (g : CapabilityGrant) : CasbinRule :=
  p_rule (cg_Subject g) (cg_OrganizationID g) "release" (action_string (cg_Action g)).
Definition capabilityRules (m : OrganizationMember) (grants : list CapabilityGrant) : list CasbinRule :=
  roleCapabilityRules (om_Role m) (om_OrgID m) ++ (grant_rule <$> filter (λ g, grant_applies m g = true) grants).

(** ** Compilation *)
Definition member_rules (grants : list CapabilityGrant) (m : OrganizationMember) : list CasbinRule :=
  g_rule (om_UserID m) (role_string (om_Role m)) (om_OrgID m)
    :: roleRules (om_Role m) (om_OrgID m)
    ++ filter (λ r, ru_V0 r ≠ role_string (om_Role m)) (capabilityRules m grants).
Definition managed_grant (grants : list CapabilityGrant) (r : CasbinRule) : bool :=
  existsb (λ g, bool_decide (cg_OrganizationID g = ru_V1 r) && bool_decide (cg_Subject g = ru_V0 r)
                && bool_decide (action_string (cg_Action g) = ru_V3 r)) grants.
(** The rules kept from the stored projection: roles of services, and rules of
    subjects that are neither roles nor managed by a grant. *)
Definition keeps_rule (grants : list CapabilityGrant) (r : CasbinRule) : bool :=
  if bool_decide (ru_PType r = "g") && String.prefix "service:" (ru_V0 r) then true
  else if negb (bool_decide (ru_PType r = "p")) || Role_Valid (role_of (ru_V0 r)) then false
  else if managed_grant grants r && bool_decide (ru_V2 r = "release") then false
  else true.
Fixpoint dedup (seen rules : list CasbinRule) : list CasbinRule :=
  match rules with
  | [] => []
  | r :: rules => if bool_decide (r ∈ seen) then dedup seen rules else r :: dedup (r :: seen) rules
  end.
Definition deduplicateRules (rules : list CasbinRule) : list CasbinRule := dedup [] rules.
Definition compiled (members : list OrganizationMember) (grants : list CapabilityGrant) (current : list CasbinRule) : list CasbinRule :=
  deduplicateRules (concat (member_rules grants <$> members) ++ filter (λ r, keeps_rule grants r = true) current).
(** compileAuthorizationRules: one statement per organization. *)
Definition compile_failed (e : error) : svc World error (res error (list CasbinRule)) := Done (Err e).
Fixpoint compile_organizations (organizations : list Organization) (members : list OrganizationMember)
    (k : list OrganizationMember → svc World error (res error (list CasbinRule))) : svc World error (res error (list CasbinRule)) :=
  match organizations with
  | [] => k members
  | o :: organizations =>
      let* more := ListByOrg_members (or_ID o) fails compile_failed in
      compile_organizations organizations (members ++ more) k
  end.
Definition compileAuthorizationRules (grants : list CapabilityGrant) (current : list CasbinRule)
    : svc World error (res error (list CasbinRule)) :=
  let* organizations := List_organizations fails compile_failed in
  compile_organizations organizations [] (λ members, Done (Ok (compiled members grants current))).

(** ** The enforcer of a process *)
Record Enforcer := { ef_policy : list CasbinRule; ef_healthy : bool; ef_version : Z; ef_closed : bool }.
Record Node := { nd_world : World; nd_enforcer : Enforcer; nd_limiter : RateLimiter }.
Definition put_world (w : World) (n : Node) : Node :=
  {| nd_world := w; nd_enforcer := nd_enforcer n; nd_limiter := nd_limiter n |}.
Definition put_enforcer (e : Enforcer) (n : Node) : Node :=
  {| nd_world := nd_world n; nd_enforcer := e; nd_limiter := nd_limiter n |}.
Definition put_limiter (r : RateLimiter) (n : Node) : Node :=
  {| nd_world := nd_world n; nd_enforcer := nd_enforcer n; nd_limiter := r |}.
Abbreviation NM := (M Node error).
Abbreviation nsvc := (svc Node error).
Definition on_world {A} (m : SM A) : NM A := lift nd_world put_world m.
Definition on_store {A} (p : svc World error A) : nsvc A := svc_lift nd_world put_world p.
Definition on_enforcer (f : Enforcer → Enforcer) : NM unit := modify (λ n, put_enforcer (f (nd_enforcer n)) n).
Definition setPolicyUnavailable (version : Z) : NM unit :=
  on_enforcer (λ e, {| ef_policy := ef_policy e; ef_healthy := false; ef_version := version; ef_closed := ef_closed e |}).
Definition PolicyVersion_of : NM Z := gets (λ n, ef_version (nd_enforcer n)).
Definition ErrEnforcerClosed : error := ErrOther "authorization enforcer is closed".

Section enforcer.
Context (casbin_Enforce : list CasbinRule → string → string → string → string → option bool).

Inductive denial : Type := PermissionDenied | PolicyUnavailable | InvalidActorContext | DomainBindingMissing.
#[export] Instance denial_eq_dec : EqDecision denial.
Proof. solve_decision. Defined.
(** Enforce: [None] is Go's nil error.  The policy and its health are read under
    one lock. *)
Definition Enforce_in (e : Enforcer) (sub dom obj act : string) : option denial :=
  if bool_decide (sub = "") || bool_decide (dom = "") || bool_decide (obj = "") || bool_decide (act = "") then Some InvalidActorContext
  else match casbin_Enforce (ef_policy e) sub dom obj act with
       | None => Some PolicyUnavailable
       | Some allowed => if negb (ef_healthy e) then Some PolicyUnavailable else if allowed then None else Some PermissionDenied
       end.
Definition Enforce (sub dom obj act : string) : NM (option denial) := gets (λ n, Enforce_in (nd_enforcer n) sub dom obj act).
Definition CheckBinding (orgID customerID : string) : NM (option denial) :=
  if bool_decide (orgID = "") || bool_decide (customerID = "") then ret (Some InvalidActorContext)
  else catch (on_world (GetByOrgAndCustomer orgID customerID)) (λ r, ret match r with
    | Ok b => if bool_decide (bi_Status b = BindingActive) then None else Some DomainBindingMissing
    | Err _ => Some DomainBindingMissing
    end).
Definition CheckBindingID (orgID bindingID : string) : NM (option denial) :=
  if bool_decide (orgID = "") || bool_decide (bindingID = "") then ret (Some InvalidActorContext)
  else catch (on_world (Get_binding bindingID)) (λ r, ret match r with
    | Ok b => if bool_decide (bi_OrgID b = orgID) && bool_decide (bi_Status b = BindingActive) then None else Some DomainBindingMissing
    | Err _ => Some DomainBindingMissing
    end).
Definition EnforceServiceActor (service domain obj act customerID : string) : nsvc (res error (option denial)) :=
  if bool_decide (service = "") || bool_decide (domain = "") then Done (Ok (Some InvalidActorContext))
  else if bool_decide (customerID = "") then Done (Ok (Some InvalidActorContext))
  else let* bound := CheckBinding domain customerID fails (λ e, Done (Err e)) in
       match bound with
       | Some d => Done (Ok (Some d))
       | None => let* r := Enforce ("service:" ++ service) domain obj act fails (λ e, Done (Err e)) in Done (Ok r)
       end.

(** reflect.DeepEqual of the compiled rules, never a nil slice, and the stored
    ones, a nil slice when there are none. *)
Definition same_rules (compiled stored : list CasbinRule) : bool :=
  bool_decide (compiled = stored) && negb (bool_decide (stored = [])).
Definition unavailable (version : Z) (e : error) : nsvc (res error unit) :=
  let* _ := setPolicyUnavailable version fails (λ _, Done (Err e)) in Done (Err e).
Definition unavailable_now (e : error) : nsvc (res error unit) :=
  let* version := PolicyVersion_of fails (λ _, Done (Err e)) in unavailable version e.
(** [e.enforcer.LoadPolicy()] reads the store once more. *)
Definition adopt (durable : AuthorizationSnapshot) : nsvc (res error unit) :=
  svc_bind (on_store Load) (λ r,
    match r with
    | Err e =>
        let* _ := on_enforcer (λ f, {| ef_policy := ef_policy f; ef_healthy := false; ef_version := ef_version f;
                                       ef_closed := ef_closed f |}) fails (λ _, Done (Err e)) in Done (Err e)
    | Ok snapshot =>
        let* _ := on_enforcer (λ f, {| ef_policy := as_Rules snapshot; ef_healthy := true;
                                       ef_version := as_PolicyVersion durable; ef_closed := ef_closed f |})
                  fails (λ e, Done (Err e)) in Done (Ok tt)
    end).
Definition load_mutation (durable : AuthorizationSnapshot) (rules : list CasbinRule) : AuthorizationMutation :=
  if (as_SourceVersion durable =? 0) && negb (bool_decide (rules = [])) then AuthorizationMembershipChanged
  else AuthorizationPolicyChanged.
Definition loadPolicies : nsvc (res error unit) :=
  svc_bind (on_store Load) (λ r,
    match r with
    | Err e => unavailable_now e
    | Ok durable =>
        svc_bind (on_store (compileAuthorizationRules (as_Grants durable) (as_Rules durable))) (λ r,
          match r with
          | Err e => unavailable (as_PolicyVersion durable) e
          | Ok rules =>
              if same_rules rules (as_Rules durable) then adopt durable
              else
                svc_bind (on_store (Apply
                  {| aa_ExpectedSourceVersion := as_SourceVersion durable; aa_ExpectedPolicyVersion := as_PolicyVersion durable;
                     aa_Mutation := load_mutation durable rules; aa_Grants := None; aa_Rules := Some rules |})) (λ r,
                  match r with
                  | Err e => unavailable (as_PolicyVersion durable) e
                  | Ok updated => adopt updated
                  end)
          end)
    end).
Definition unless_closed {A} (k : nsvc (res error A)) : nsvc (res error A) :=
  let* closed := gets (λ n, ef_closed (nd_enforcer n)) fails (λ e, Done (Err e)) in
  if (closed : bool) then Done (Err ErrEnforcerClosed) else k.
Definition LoadPolicies : nsvc (res error unit) := unless_closed loadPolicies.
Definition and_load (r : res error AuthorizationSnapshot) : nsvc (res error unit) :=
  match r with Err e => Done (Err e) | Ok _ => loadPolicies end.
Definition policy_change (durable : AuthorizationSnapshot) (rules : option (list CasbinRule)) : AuthorizationApplyCommand :=
  {| aa_ExpectedSourceVersion := as_SourceVersion durable; aa_ExpectedPolicyVersion := as_PolicyVersion durable;
     aa_Mutation := AuthorizationPolicyChanged; aa_Grants := None; aa_Rules := rules |}.
Definition RefreshPolicies : nsvc (res error unit) := unless_closed (
  svc_bind (on_store Load) (λ r,
    match r with
    | Err e => Done (Err e)
    | Ok durable =>
        svc_bind (on_store (compileAuthorizationRules (as_Grants durable) (as_Rules durable))) (λ r,
          match r with
          | Err e => Done (Err e)
          | Ok rules => svc_bind (on_store (Apply (policy_change durable (Some rules)))) and_load
          end)
    end)).
(** mutateRules: a nil slice stays nil under [filtered := rules[:0]]. *)
Definition mutateRules (change : list CasbinRule → list CasbinRule) : nsvc (res error unit) := unless_closed (
  svc_bind (on_store Load) (λ r,
    match r with
    | Err e => Done (Err e)
    | Ok durable =>
        let rules := change (as_Rules durable) in
        svc_bind (on_store (Apply (policy_change durable
          (if bool_decide (as_Rules durable = []) && bool_decide (rules = []) then None else Some rules)))) and_load
    end)).
Definition AddPolicy (sub dom obj act : string) : nsvc (res error unit) := mutateRules (λ rules, rules ++ [p_rule sub dom obj act]).
Definition AddRoleBinding (user role domain : string) : nsvc (res error unit) :=
  mutateRules (λ rules, rules ++ [g_rule user role domain]).
Definition is_role_binding (user role domain : string) (r : CasbinRule) : bool :=
  bool_decide (ru_PType r = "g") && bool_decide (ru_V0 r = user) && bool_decide (ru_V1 r = role) && bool_decide (ru_V2 r = domain).
Definition RemoveRoleBinding (user role domain : string) : nsvc (res error unit) :=
  mutateRules (filter (λ r, is_role_binding user role domain r = false)).
Definition AddServiceActorBinding (service role domain : string) : nsvc (res denial (res error unit)) :=
  if bool_decide (service = "") || bool_decide (domain = "") then Done (Err InvalidActorContext)
  else svc_bind (AddRoleBinding ("service:" ++ service) role domain) (λ r, Done (Ok r)).
Definition Close : NM unit :=
  on_enforcer (λ e, {| ef_policy := ef_policy e; ef_healthy := ef_healthy e; ef_version := ef_version e; ef_closed := true |}).
End enforcer.

(** ** What the projection allows *)
Section casbin.
(** Documented behaviour of Casbin under the model text of casbin.go:
    [(r.sub == p.sub || g(r.sub, p.sub, r.dom)) && r.dom == p.dom &&
    keyMatch(r.obj, p.obj) && keyMatch(r.act, p.act)], for rules with all the
    fields of the model.  [g] follows chains of role links, and at least direct
    ones. *)
Definition rule_ok (r : CasbinRule) : bool :=
  bool_decide (ru_V4 r = "") && bool_decide (ru_V5 r = "")
  && ((bool_decide (ru_PType r = "p") && negb (bool_decide (ru_V3 r = "")))
      || (bool_decide (ru_PType r = "g") && negb (bool_decide (ru_V2 r = "")) && bool_decide (ru_V3 r = ""))).
Definition role_link (policy : list CasbinRule) (domain user role : string) : Prop :=
  ∃ r, r ∈ policy ∧ ru_PType r = "g" ∧ ru_V0 r = user ∧ ru_V1 r = role ∧ ru_V2 r = domain.
Context (casbin_Enforce : list CasbinRule → string → string → string → string → option bool) (keyMatch : string → string → bool).
Record casbin_laws : Prop := {
  keyMatch_refl key : keyMatch key key = true;
  keyMatch_star key : keyMatch key "*" = true;
  keyMatch_exact key pattern : keyMatch key pattern = true → key = pattern ∨ "*"%char ∈ String.list_ascii_of_string pattern;
  casbin_sound policy sub dom obj act :
    Forall (λ r, rule_ok r = true) policy → casbin_Enforce policy sub dom obj act = Some true →
    ∃ r, r ∈ policy ∧ ru_PType r = "p" ∧ ru_V1 r = dom ∧ keyMatch obj (ru_V2 r) = true ∧ keyMatch act (ru_V3 r) = true ∧
      (sub = ru_V0 r ∨ tc (role_link policy dom) sub (ru_V0 r));
  casbin_complete policy sub dom obj act r :
    Forall (λ r, rule_ok r = true) policy →
    r ∈ policy → ru_PType r = "p" → ru_V1 r = dom → keyMatch obj (ru_V2 r) = true → keyMatch act (ru_V3 r) = true →
    (sub = ru_V0 r ∨ role_link policy dom sub (ru_V0 r)) → casbin_Enforce policy sub dom obj act = Some true;
}.
Context (laws : casbin_laws).

Lemma dedup_elem seen l r : r ∈ dedup seen l ↔ r ∈ l ∧ r ∉ seen.
Proof.
  revert seen. induction l as [|x l IH]; intros seen; simpl; [split; [by intros ?%not_elem_of_nil|by intros [?%not_elem_of_nil _]]|].
  case_bool_decide as Hx; rewrite ?elem_of_cons, IH, ?elem_of_cons.
  - split; [naive_solver|]. intros [[->|?] ?]; [done|by split].
  - split; [intros [->|[? ?]]; naive_solver|]. intros [[->|?] Hr]; [by left|]. destruct (decide (r = x)) as [->|]; [by left|]. naive_solver.
Qed.
Lemma deduplicateRules_elem l r : r ∈ deduplicateRules l ↔ r ∈ l.
Proof. unfold deduplicateRules. rewrite dedup_elem. split; [by intros []|]. intros ?. split; [done|by apply not_elem_of_nil]. Qed.
Lemma dedup_NoDup seen l : NoDup (dedup seen l).
Proof.
  revert seen. induction l as [|x l IH]; intros seen; simpl; [constructor|]. case_bool_decide as Hx; [apply IH|].
  constructor; [|apply IH]. rewrite dedup_elem. intros [_ H]. apply H. left.
Qed.

(** The capabilities a role gives: what the role's rules say for the object
    [release]. *)
Definition role_allows (role : Role) (action : AuthorizationAction) : bool :=
  bool_decide (role = RolePlatformAdmin) || bool_decide (action ∈ role_capabilities role).
(** A member may perform a capability by role or by an explicit grant. *)
Definition member_allows (grants : list CapabilityGrant) (m : OrganizationMember) (action : AuthorizationAction) : bool :=
  role_allows (om_Role m) action || existsb (λ g, grant_applies m g && bool_decide (cg_Action g = action)) grants.
(** Every rule stored so far was compiled: nothing was added by hand. *)
Definition managed_rules (grants : list CapabilityGrant) (current : list CasbinRule) : Prop :=
  ∀ r, r ∈ current → keeps_rule grants r = true → ru_PType r = "g" ∧ rule_ok r = true.
(** Identifiers are no role names, no service names and not empty. *)
Definition plain_id (id : string) : Prop := id ≠ "" ∧ Role_Valid (role_of id) = false ∧ String.prefix "service:" id = false.
Record members_ok (members : list OrganizationMember) (grants : list CapabilityGrant) : Prop := {
  mok_members : Forall (λ m, plain_id (om_UserID m) ∧ om_OrgID m ≠ "" ∧ Role_Valid (om_Role m) = true) members;
  mok_grants : Forall (λ g, AuthorizationAction_Valid (cg_Action g) = true) grants;
}.
Lemma role_of_string r : Role_Valid r = true → role_of (role_string r) = r.
Proof. by destruct r. Qed.
Lemma role_string_valid r : Role_Valid r = true → Role_Valid (role_of (role_string r)) = true.
Proof. intros H. by rewrite role_of_string. Qed.
Lemma role_string_service r : Role_Valid r = true → String.prefix "service:" (role_string r) = false.
Proof. by destruct r. Qed.
Lemma role_string_inj r r' : Role_Valid r = true → Role_Valid r' = true → role_string r = role_string r' → r = r'.
Proof. intros H H' E. by rewrite <- (role_of_string r), <- (role_of_string r'), E. Qed.
Lemma action_string_inj a b : AuthorizationAction_Valid a = true → AuthorizationAction_Valid b = true → action_string a = action_string b → a = b.
Proof. destruct a, b; simpl; congruence. Qed.

Section compiled.
Context (members : list OrganizationMember) (grants : list CapabilityGrant) (current : list CasbinRule).
Context (Hok : members_ok members grants) (Hmanaged : managed_rules grants current).

Lemma compiled_elem r :
  r ∈ compiled members grants current ↔
  (∃ m, m ∈ members ∧ (r = g_rule (om_UserID m) (role_string (om_Role m)) (om_OrgID m) ∨ r ∈ roleRules (om_Role m) (om_OrgID m)
     ∨ (ru_V0 r ≠ role_string (om_Role m) ∧ r ∈ capabilityRules m grants))) ∨
  r ∈ current ∧ keeps_rule grants r = true.
Proof.
  unfold compiled. rewrite deduplicateRules_elem, elem_of_app, list_elem_of_filter. f_equiv; [|tauto].
  rewrite list_elem_of_In, in_concat. setoid_rewrite <- list_elem_of_In. split.
  - intros (l & Hl & Hr). apply list_elem_of_fmap in Hl as (m & -> & Hm). exists m. split; [done|]. revert Hr.
    unfold member_rules. rewrite elem_of_cons, elem_of_app, list_elem_of_filter. tauto.
  - intros (m & Hm & Hr). exists (member_rules grants m). split; [by apply list_elem_of_fmap_2|].
    unfold member_rules. rewrite elem_of_cons, elem_of_app, list_elem_of_filter. tauto.
Qed.
Lemma member_ok m : m ∈ members → plain_id (om_UserID m) ∧ om_OrgID m ≠ "" ∧ Role_Valid (om_Role m) = true.
Proof. intros Hm. destruct Hok as [Hms _]. rewrite Forall_forall in Hms. by apply Hms. Qed.
Lemma grant_ok g : g ∈ grants → AuthorizationAction_Valid (cg_Action g) = true.
Proof. intros Hg. destruct Hok as [_ Hgs]. rewrite Forall_forall in Hgs. by apply Hgs. Qed.
Lemma plain_not_role id role : plain_id id → Role_Valid role = true → id ≠ role_string role.
Proof. intros (_ & Hp & _) Hr ->. by rewrite role_string_valid in Hp. Qed.
(** What a member contributes besides the role link: the role's rules and the
    grants that apply. *)
Lemma member_p_rule r m :
  m ∈ members → r ∈ roleRules (om_Role m) (om_OrgID m) ∨ (ru_V0 r ≠ role_string (om_Role m) ∧ r ∈ capabilityRules m grants) →
  (∃ o a, r = p_rule (role_string (om_Role m)) (om_OrgID m) o a ∧
     ((o, a) ∈ role_permissions (om_Role m) ∨ o = "release" ∧ ∃ act, act ∈ role_capabilities (om_Role m) ∧ a = action_string act)) ∨
  ∃ g, g ∈ grants ∧ grant_applies m g = true ∧ r = grant_rule g.
Proof.
  intros Hm [Hr|[Hne Hr]].
  - left. unfold roleRules in Hr. apply elem_of_app in Hr as [Hr|Hr]; apply list_elem_of_fmap in Hr as (x & -> & Hx).
    + destruct x as [o a]. exists o, a. split; [done|by left].
    + eexists _, _. split; [done|]. right. split; [done|]. by exists x.
  - unfold capabilityRules in Hr. apply elem_of_app in Hr as [Hr|Hr]; apply list_elem_of_fmap in Hr as (x & -> & Hx); [done|].
    right. apply list_elem_of_filter in Hx as [Ha Hx]. by exists x.
Qed.
Lemma grant_applies_true m g :
  grant_applies m g = true ↔ cg_Revoked g = false ∧ cg_OrganizationID g = om_OrgID m ∧ cg_Subject g = om_UserID m.
Proof.
  unfold grant_applies. rewrite !andb_true_iff, negb_true_iff, !bool_decide_eq_true. tauto.
Qed.
Lemma permissions_valid role o a : (o, a) ∈ role_permissions role → a ≠ "" ∧ Role_Valid role = true.
Proof.
  intros H. assert (Hf : Forall (λ oa, oa.2 ≠ "" ∧ Role_Valid role = true) (role_permissions role)) by (destruct role; repeat constructor; done).
  rewrite Forall_forall in Hf. exact (Hf _ H).
Qed.
Lemma capability_valid role act : act ∈ role_capabilities role → AuthorizationAction_Valid act = true ∧ Role_Valid role = true.
Proof.
  intros H. assert (Hf : Forall (λ a, AuthorizationAction_Valid a = true ∧ Role_Valid role = true) (role_capabilities role))
    by (destruct role; repeat constructor).
  rewrite Forall_forall in Hf. exact (Hf _ H).
Qed.
Lemma action_nonempty act : AuthorizationAction_Valid act = true → action_string act ≠ "".
Proof. by destruct act. Qed.
Lemma p_rule_ok s d o a : a ≠ "" → rule_ok (p_rule s d o a) = true.
Proof. intros H. unfold rule_ok. simpl. by rewrite (bool_decide_false (a = "")). Qed.
Lemma compiled_rule_ok : Forall (λ r, rule_ok r = true) (compiled members grants current).
Proof.
  rewrite Forall_forall. intros r Hr. apply compiled_elem in Hr as [(m & Hm & [->|Hr])|[Hr Hk]].
  - unfold rule_ok. simpl. destruct (member_ok m Hm) as (_ & Ho & _). by rewrite (bool_decide_false (om_OrgID m = "")).
  - destruct (member_p_rule r m Hm Hr) as [(o & a & -> & [Hp|(_ & act & Ha & ->)])|(g & Hg & _ & ->)]; apply p_rule_ok.
    + by apply permissions_valid in Hp as [? _].
    + apply action_nonempty. by apply capability_valid in Ha as [? _].
    + by apply action_nonempty, grant_ok.
  - by apply Hmanaged.
Qed.
Lemma compiled_link domain user role :
  String.prefix "service:" user = false → role_link (compiled members grants current) domain user role →
  ∃ m, m ∈ members ∧ om_UserID m = user ∧ role_string (om_Role m) = role ∧ om_OrgID m = domain.
Proof.
  intros Hp (r & Hr & Ht & H0 & H1 & H2). apply compiled_elem in Hr as [(m & Hm & [->|Hr])|[Hr Hk]].
  - by exists m.
  - by destruct (member_p_rule r m Hm Hr) as [(o & a & -> & _)|(g & _ & _ & ->)].
  - unfold keeps_rule in Hk. rewrite H0, Hp, andb_false_r, Ht in Hk. done.
Qed.
Lemma compiled_chain domain user role :
  plain_id user → tc (role_link (compiled members grants current) domain) user role →
  ∃ m, m ∈ members ∧ om_UserID m = user ∧ role_string (om_Role m) = role ∧ om_OrgID m = domain.
Proof.
  intros (_ & _ & Hp) H. destruct H as [? ? H|? y ? H H']; [by apply compiled_link|].
  apply compiled_link in H as (m & Hm & <- & <- & <-); [|done]. destruct (member_ok m Hm) as (_ & _ & Hv). exfalso.
  assert (Hno : ∀ next, ¬ role_link (compiled members grants current) (om_OrgID m) (role_string (om_Role m)) next).
  { intros next Hz. apply compiled_link in Hz as (m' & Hm' & Hu & _); [|by apply role_string_service].
    destruct (member_ok m' Hm') as (Hplain & _). by apply (plain_not_role _ _ Hplain Hv). }
  destruct H' as [? ? H'|? ? ? H' _]; by eapply Hno.
Qed.

(** A rule the projection keeps, seen as a capability. *)
Lemma permission_allows role o a act :
  AuthorizationAction_Valid act = true → (o, a) ∈ role_permissions role → keyMatch "release" o = true →
  keyMatch (action_string act) a = true → role_allows role act = true.
Proof.
  intros Hv Hin Ho Ha. unfold role_allows. destruct (decide (role = RolePlatformAdmin)) as [->|Hne]; [done|exfalso].
  assert (Hf : Forall (λ oa, ("*"%char ∉ String.list_ascii_of_string oa.2) ∧ ∀ act, AuthorizationAction_Valid act = true → action_string act ≠ oa.2)
                 (role_permissions role)).
  { destruct role; [done|..]; unfold role_permissions; repeat (apply Forall_cons; split); try apply Forall_nil; split;
      first [by intros [] ? ?; simpl in *; discriminate|
             simpl; intros H; repeat (apply elem_of_cons in H as [H|H]; [discriminate H|]); by apply not_elem_of_nil in H]. }
  rewrite Forall_forall in Hf. destruct (Hf _ Hin) as [Hs Hd]. simpl in *.
  apply (keyMatch_exact laws) in Ha as [Ha|Ha]; [by apply (Hd act)|done].
Qed.
Lemma capability_allows a act :
  AuthorizationAction_Valid act = true → AuthorizationAction_Valid a = true →
  keyMatch (action_string act) (action_string a) = true → act = a.
Proof.
  intros Hv Hva Hk. apply (keyMatch_exact laws) in Hk as [Hk|Hk]; [by apply action_string_inj|exfalso].
  destruct a; simpl in Hva; try discriminate; simpl in Hk;
    repeat (apply elem_of_cons in Hk as [Hk|Hk]; [discriminate Hk|]); by apply not_elem_of_nil in Hk.
Qed.
Lemma compiled_exact user org act :
  plain_id user → AuthorizationAction_Valid act = true →
  casbin_Enforce (compiled members grants current) user org "release" (action_string act) = Some true ↔
  ∃ m, m ∈ members ∧ om_OrgID m = org ∧ om_UserID m = user ∧ member_allows grants m act = true.
Proof.
  intros Hplain Hv. split.
  - intros H. apply (casbin_sound laws) in H as (r & Hr & Ht & Hd & Ho & Ha & Hs); [|apply compiled_rule_ok].
    apply compiled_elem in Hr as [(m & Hm & [->|Hr])|[Hr Hk]]; [done| |by destruct (Hmanaged r Hr Hk) as [? _]; congruence].
    destruct (member_ok m Hm) as (Hpm & _ & Hrole).
    destruct (member_p_rule r m Hm Hr) as [(o & a & -> & Hoa)|(g & Hg & Happ & ->)]; simpl in *.
    + destruct Hs as [->|Hs]; [by destruct (plain_not_role _ _ Hplain Hrole)|].
      apply compiled_chain in Hs as (m' & Hm' & Hu & Hr' & Hdom); [|done]. exists m'. split_and!; [done|congruence|done|].
      destruct (member_ok m' Hm') as (_ & _ & Hrole'). apply role_string_inj in Hr'; [|done|done].
      unfold member_allows. apply orb_true_iff. left. rewrite Hr'.
      destruct Hoa as [Hp|(-> & act' & Hc & ->)]; [by eapply permission_allows|].
      destruct (capability_valid _ _ Hc) as [Hva _]. rewrite (capability_allows act' act) by done.
      unfold role_allows. apply orb_true_iff. right. by apply bool_decide_eq_true.
    + destruct (proj1 (grant_applies_true m g) Happ) as (Hrev & Horg & Hsub).
      assert (user = om_UserID m) as ->.
      { destruct Hs as [->|Hs]; [done|]. apply compiled_chain in Hs as (m' & Hm' & _ & Hr' & _); [|done].
        destruct (member_ok m' Hm') as (_ & _ & Hrole'). exfalso. apply (plain_not_role _ _ Hpm Hrole'). congruence. }
      exists m. split_and!; [done|congruence|done|]. unfold member_allows. apply orb_true_iff. right.
      rewrite (capability_allows (cg_Action g) act) by (done || by apply grant_ok).
      apply existsb_elem. exists g. split; [done|]. by rewrite Happ, bool_decide_true.
  - intros (m & Hm & <- & <- & Ha). destruct (member_ok m Hm) as (Hpm & _ & Hrole).
    unfold member_allows in Ha. apply orb_true_iff in Ha as [Ha|Ha].
    + assert (Hlink : role_link (compiled members grants current) (om_OrgID m) (om_UserID m) (role_string (om_Role m))).
      { exists (g_rule (om_UserID m) (role_string (om_Role m)) (om_OrgID m)). split; [|done]. apply compiled_elem. left. exists m. split; [done|by left]. }
      assert (Hin : ∀ r, r ∈ roleRules (om_Role m) (om_OrgID m) → r ∈ compiled members grants current).
      { intros r Hr. apply compiled_elem. left. exists m. split; [done|]. right. by left. }
      unfold role_allows in Ha. apply orb_true_iff in Ha as [Ha|Ha]; apply bool_decide_eq_true in Ha.
      * apply (casbin_complete laws) with (r := p_rule (role_string (om_Role m)) (om_OrgID m) "*" "*");
          [apply compiled_rule_ok| |done|done|apply (keyMatch_star laws)|apply (keyMatch_star laws)|by right].
        apply Hin. rewrite Ha. unfold roleRules. simpl. left.
      * apply (casbin_complete laws) with (r := p_rule (role_string (om_Role m)) (om_OrgID m) "release" (action_string act));
          [apply compiled_rule_ok| |done|done|apply (keyMatch_refl laws)|apply (keyMatch_refl laws)|by right].
        apply Hin. unfold roleRules, roleCapabilityRules. apply elem_of_app. right. by apply list_elem_of_fmap_2 with (f := λ a, p_rule _ _ "release" (action_string a)).
    + apply existsb_elem in Ha as (g & Hg & Ha). apply andb_true_iff in Ha as [Happ Hact]. apply bool_decide_eq_true in Hact as <-.
      destruct (proj1 (grant_applies_true m g) Happ) as (Hrev & Horg & Hsub).
      apply (casbin_complete laws) with (r := grant_rule g);
        [apply compiled_rule_ok| |done|done|apply (keyMatch_refl laws)|apply (keyMatch_refl laws)|by left].
      apply compiled_elem. left. exists m. split; [done|]. right. right. split.
      * unfold grant_rule. simpl. rewrite Hsub. by apply plain_not_role.
      * unfold capabilityRules. apply elem_of_app. right. apply list_elem_of_fmap_2, list_elem_of_filter. by split.
Qed.
Lemma compiled_managed : managed_rules grants (compiled members grants current).
Proof.
  intros r Hr Hk. apply compiled_elem in Hr as [(m & Hm & [->|Hr])|[Hr Hk']].
  - exfalso. unfold keeps_rule in Hk. simpl in Hk. destruct (member_ok m Hm) as ((_ & _ & Hp) & _). by rewrite Hp in Hk.
  - exfalso. destruct (member_ok m Hm) as (_ & _ & Hrole).
    destruct (member_p_rule r m Hm Hr) as [(o & a & -> & _)|(g & Hg & Happ & ->)]; unfold keeps_rule in Hk; simpl in Hk.
    + by rewrite role_string_valid in Hk.
    + destruct (Role_Valid (role_of (cg_Subject g))); [done|]. simpl in Hk.
      assert (Hmg : managed_grant grants (grant_rule g) = true).
      { apply existsb_elem. exists g. split; [done|]. simpl. by rewrite !bool_decide_true. }
      by rewrite Hmg in Hk.
  - by apply Hmanaged.
Qed.
End compiled.
End casbin.

(** ** Reading and refreshing without interference *)
Definition stored_snapshot (db : DB) (source policy : Z) : AuthorizationSnapshot :=
  {| as_SourceVersion := source; as_PolicyVersion := policy; as_Grants := merge_sort grant_le (at_grants (db_auth db));
     as_Rules := at_rules (db_auth db);
     as_Checkpoints := merge_sort checkpoint_le (map_to_list (at_checkpoints (db_auth db))).*2 |}.
Lemma exec_Load w :
  exec_svc Load w =
  (match db_authorization_source_version (w_db w), at_policy_version (db_auth (w_db w)) with
   | Some source, Some policy => Ok (stored_snapshot (w_db w) source policy)
   | _, _ => Err ErrNotFound
   end, w).
Proof.
  unfold Load. simpl. unfold bind, query, gets. simpl. destruct (db_authorization_source_version (w_db w)); [|done]. simpl.
  destruct (at_policy_version (db_auth (w_db w))); done.
Qed.
Definition projected_members (db : DB) : list OrganizationMember :=
  concat ((λ o, members_of_org (or_ID o) db) <$> merge_sort organization_created_le (at_organizations (db_auth db))).
Lemma exec_compile_organizations os ms k w :
  exec_svc (compile_organizations os ms k) w =
  exec_svc (k (ms ++ concat ((λ o, members_of_org (or_ID o) (w_db w)) <$> os))) w.
Proof.
  revert ms. induction os as [|o os IH]; intros ms; simpl; [by rewrite app_nil_r|]. by rewrite IH, <- app_assoc.
Qed.
Lemma exec_compile grants current w :
  exec_svc (compileAuthorizationRules grants current) w = (Ok (compiled (projected_members (w_db w)) grants current), w).
Proof. unfold compileAuthorizationRules. simpl. by rewrite exec_compile_organizations. Qed.
Lemma projected_members_elem db m :
  m ∈ projected_members db ↔ m ∈ at_members (db_auth db) ∧ ∃ o, o ∈ at_organizations (db_auth db) ∧ or_ID o = om_OrgID m.
Proof.
  unfold projected_members. rewrite list_elem_of_In, in_concat. setoid_rewrite <- list_elem_of_In.
  setoid_rewrite list_elem_of_fmap. setoid_rewrite merge_sort_Permutation at 2. split.
  - intros (l & (o & -> & Ho) & Hm). unfold members_of_org in Hm. rewrite merge_sort_Permutation in Hm.
    apply list_elem_of_filter in Hm as [He Hm]. split; [done|]. by exists o.
  - intros (Hm & o & Ho & He). exists (members_of_org (or_ID o) db). split; [by exists o|].
    unfold members_of_org. rewrite merge_sort_Permutation. by apply list_elem_of_filter.
Qed.

(** The tables a projection reads. *)
Definition subjects (db : DB) := (at_members (db_auth db), at_organizations (db_auth db), at_grants (db_auth db)).
Lemma exec_Apply c w :
  exec_svc (Apply c) w =
  match retryBusy (run_tx (commit (apply_tx c))) w with
  | (Ok _, w') => exec_svc Load w'
  | (Err e, w') => (Err e, w')
  end.
Proof. unfold Apply. simpl. by destruct (retryBusy _ w) as [[u|e] w']. Qed.
Lemma exec_on_store {A} (p : svc World error A) n :
  exec_svc (on_store p) n = ((exec_svc p (nd_world n)).1, put_world (exec_svc p (nd_world n)).2 n).
Proof. apply exec_lift; [done|done|by intros []]. Qed.
Lemma applied_subjects c db db' : applied c db db' → aa_Grants c = None → subjects db' = subjects db.
Proof.
  intros [_ _ _ _ _ Hg (s & p & r & g & ->)] Hn. rewrite Hn in Hg. unfold subjects. simpl in *. by rewrite Hg.
Qed.
Lemma projected_subjects db db' : subjects db' = subjects db → projected_members db' = projected_members db.
Proof.
  intros H. assert (Hm := f_equal (λ x, x.1.1) H). assert (Ho := f_equal (λ x, x.1.2) H). simpl in *.
  unfold projected_members, members_of_org. by rewrite Hm, Ho.
Qed.
(** The policy of the current tables. *)
Definition projection (db : DB) : list CasbinRule :=
  compiled (projected_members db) (merge_sort grant_le (at_grants (db_auth db))) (at_rules (db_auth db)).
Lemma Load_Ok w s w' :
  exec_svc Load w = (Ok s, w') →
  w' = w ∧ ∃ source policy, db_authorization_source_version (w_db w) = Some source ∧
    at_policy_version (db_auth (w_db w)) = Some policy ∧ s = stored_snapshot (w_db w) source policy.
Proof.
  rewrite exec_Load. destruct (db_authorization_source_version (w_db w)) as [source|]; [|done].
  destruct (at_policy_version (db_auth (w_db w))) as [policy|]; [|done]. intros [= <- <-]. split; [done|]. by exists source, policy.
Qed.
(** Replacing the rules, and what is stored then. *)
Lemma Apply_rules_Ok c rules w s w' :
  aa_Grants c = None → aa_Rules c = Some rules → exec_svc (Apply c) w = (Ok s, w') →
  subjects (w_db w') = subjects (w_db w) ∧ at_rules (db_auth (w_db w')) = rules ∧
  ∃ source policy, s = stored_snapshot (w_db w') source policy.
Proof.
  intros Hg Hr. rewrite exec_Apply. destruct (retryBusy _ w) as [[u|e] w1] eqn:E; [|done].
  apply apply_Ok in E. intros H. apply Load_Ok in H as (-> & source & policy & _ & _ & ->).
  split; [by apply (applied_subjects c)|]. split; [rewrite (ap_rules _ _ _ E), Hr; done|by exists source, policy].
Qed.
Lemma exec_adopt durable n n' :
  exec_svc (adopt durable) n = (Ok tt, n') →
  ef_policy (nd_enforcer n') = at_rules (db_auth (w_db (nd_world n))) ∧ ef_healthy (nd_enforcer n') = true ∧
  ef_closed (nd_enforcer n') = ef_closed (nd_enforcer n) ∧ ef_version (nd_enforcer n') = as_PolicyVersion durable ∧
  nd_world n' = nd_world n.
Proof.
  unfold adopt. rewrite exec_bind, exec_on_store.
  destruct (exec_svc Load (nd_world n)) as [[s|e] w1] eqn:E; [|done].
  apply Load_Ok in E as (-> & source & policy & _ & _ & ->). cbn [fst snd]. intros [= <-]. by split_and!.
Qed.
Lemma loadPolicies_Ok n n' :
  exec_svc loadPolicies n = (Ok tt, n') →
  let db := w_db (nd_world n) in
  ef_policy (nd_enforcer n') = projection db ∧ at_rules (db_auth (w_db (nd_world n'))) = projection db ∧
  ef_healthy (nd_enforcer n') = true ∧ subjects (w_db (nd_world n')) = subjects db.
Proof.
  cbv zeta. unfold loadPolicies. rewrite exec_bind, exec_on_store.
  destruct (exec_svc Load (nd_world n)) as [[s|e] w1] eqn:E; [|done].
  apply Load_Ok in E as (-> & source & policy & _ & _ & ->). cbn [fst snd]. rewrite exec_bind, exec_on_store, exec_compile. cbn [fst snd nd_world put_world].
  fold (projection (w_db (nd_world n))). cbn [as_Grants as_Rules stored_snapshot].
  destruct (same_rules _ _) eqn:Esame.
  - intros H. apply exec_adopt in H as (Hp & Hh & _ & _ & Hw). rewrite Hp, Hw. cbn [nd_world put_world].
    apply andb_true_iff in Esame as [Es _]. apply bool_decide_eq_true in Es. unfold projection. by rewrite Es.
  - rewrite exec_bind, exec_on_store. destruct (exec_svc (Apply _) _) as [[s'|e] w1] eqn:Ea; [|done].
    eapply Apply_rules_Ok in Ea as (Hsub & Hrules & _); [|done|done]. cbn [fst snd]. intros H.
    apply exec_adopt in H as (Hp & Hh & _ & _ & Hw). rewrite Hp, Hw. cbn [nd_world put_world]. by rewrite Hrules.
Qed.
Lemma RefreshPolicies_Ok n n' :
  exec_svc RefreshPolicies n = (Ok tt, n') →
  let db := w_db (nd_world n) in
  ef_policy (nd_enforcer n') = compiled (projected_members db) (merge_sort grant_le (at_grants (db_auth db))) (projection db) ∧
  ef_healthy (nd_enforcer n') = true ∧ subjects (w_db (nd_world n')) = subjects db.
Proof.
  cbv zeta. unfold RefreshPolicies, unless_closed. cbn [exec_svc]. unfold gets at 1 2. cbn [fst snd].
  destruct (ef_closed (nd_enforcer n)); [done|]. rewrite exec_bind, exec_on_store.
  destruct (exec_svc Load (nd_world n)) as [[s|e] w1] eqn:E; [|done].
  apply Load_Ok in E as (-> & source & policy & _ & _ & ->). cbn [fst snd]. rewrite exec_bind, exec_on_store, exec_compile. cbn [fst snd nd_world put_world].
  rewrite exec_bind, exec_on_store. destruct (exec_svc (Apply _) _) as [[s'|e] w1] eqn:Ea; [|done].
  eapply Apply_rules_Ok in Ea as (Hsub & Hrules & _); [|done|done]. cbn [fst snd and_load]. intros H.
  apply loadPolicies_Ok in H as (Hp & _ & Hh & Hsub'). cbn [nd_world put_world] in *. rewrite Hsub', Hsub.
  split_and!; [|done|done]. rewrite Hp. unfold projection at 1. rewrite Hrules, (projected_subjects _ _ Hsub).
  assert (Hg := f_equal snd Hsub). unfold subjects in Hg. simpl in Hg. by rewrite Hg.
Qed.

Lemma existsb_same {A} (p : A → bool) l k : (∀ x, x ∈ l ↔ x ∈ k) → existsb p l = existsb p k.
Proof.
  intros H. destruct (existsb p k) eqn:E.
  - apply existsb_elem in E as (x & Hx & Hp). apply existsb_elem. exists x. by rewrite H.
  - rewrite existsb_false_forall, Forall_forall in *. intros x Hx. apply E. by apply H.
Qed.
Lemma sorted_grants_elem (l : list CapabilityGrant) g : g ∈ merge_sort grant_le l ↔ g ∈ l.
Proof. by rewrite merge_sort_Permutation. Qed.
Lemma member_allows_sorted l m act : member_allows (merge_sort grant_le l) m act = member_allows l m act.
Proof. unfold member_allows. by rewrite (existsb_same _ _ l (sorted_grants_elem l)). Qed.
Lemma managed_rules_sorted l current : managed_rules l current → managed_rules (merge_sort grant_le l) current.
Proof.
  intros H r Hr Hk. apply H; [done|]. revert Hk. unfold keeps_rule, managed_grant.
  by rewrite (existsb_same _ _ l (sorted_grants_elem l)).
Qed.
(** The tables as the services write them. *)
Record tables_ok (db : DB) : Prop := {
  tok_members : members_ok (at_members (db_auth db)) (at_grants (db_auth db));
  tok_organizations : ∀ m, m ∈ at_members (db_auth db) → ∃ o, o ∈ at_organizations (db_auth db) ∧ or_ID o = om_OrgID m;
  tok_rules : managed_rules (at_grants (db_auth db)) (at_rules (db_auth db));
}.
Lemma projected_ok db : tables_ok db → members_ok (projected_members db) (merge_sort grant_le (at_grants (db_auth db))).
Proof.
  intros [[Hm Hg] _ _]. rewrite Forall_forall in Hm. rewrite Forall_forall in Hg. split; rewrite Forall_forall.
  - intros m Hin. apply projected_members_elem in Hin as [Hin _]. by apply Hm.
  - intros g Hin. apply Hg. by apply sorted_grants_elem.
Qed.
Lemma twice_compiled casbin_Enforce keyMatch db user org act :
  casbin_laws casbin_Enforce keyMatch → tables_ok db → plain_id user → AuthorizationAction_Valid act = true →
  casbin_Enforce (compiled (projected_members db) (merge_sort grant_le (at_grants (db_auth db))) (projection db))
    user org "release" (action_string act) = Some true ↔
  ∃ m, m ∈ at_members (db_auth db) ∧ om_OrgID m = org ∧ om_UserID m = user ∧ member_allows (at_grants (db_auth db)) m act = true.
Proof.
  intros laws Hok Hp Hv. assert (Hm := projected_ok db Hok).
  rewrite (compiled_exact _ _ laws _ _ _ Hm); [| |done|done].
  - split; intros (m & Hin & ? & ? & Ha).
    + apply projected_members_elem in Hin as [Hin _]. rewrite member_allows_sorted in Ha. by exists m.
    + exists m. rewrite projected_members_elem, member_allows_sorted. split_and!; try done. by apply tok_organizations.
  - apply compiled_managed; [done|]. apply managed_rules_sorted, tok_rules, Hok.
Qed.

(** C19: a refresh makes the enforcer decide what the tables say.  After
    [RefreshPolicies] succeeded, a user may perform a capability in an
    organization exactly when the user is a member there whose role gives it or
    who has an unrevoked grant for it; nothing in the memberships, organizations
    or grants changed. *)
Theorem refresh_exact casbin_Enforce keyMatch n n' user org act :
  casbin_laws casbin_Enforce keyMatch → tables_ok (w_db (nd_world n)) →
  exec_svc RefreshPolicies n = (Ok tt, n') → plain_id user → AuthorizationAction_Valid act = true →
  let t := db_auth (w_db (nd_world n)) in
  subjects (w_db (nd_world n')) = subjects (w_db (nd_world n)) ∧
  (Enforce_in casbin_Enforce (nd_enforcer n') user org "release" (action_string act) = None ↔
   ∃ m, m ∈ at_members t ∧ om_OrgID m = org ∧ om_UserID m = user ∧ member_allows (at_grants t) m act = true).
Proof.
  intros laws Hok H Hp Hv t. subst t. apply RefreshPolicies_Ok in H as (He & Hh & Hsub). split; [done|].
  rewrite <- (twice_compiled _ _ _ _ _ _ laws Hok Hp Hv). unfold Enforce_in. rewrite He, Hh.
  rewrite (bool_decide_false (user = "")) by apply Hp.
  rewrite (bool_decide_false (action_string act = "")) by by apply action_nonempty.
  rewrite (bool_decide_false ("release" = "")) by done. rewrite orb_false_l, !orb_false_r.
  case_bool_decide as Ho; [|by destruct (casbin_Enforce _ _ _ _ _) as [[]|]]. split; [done|].
  intros H. apply (twice_compiled _ _ _ _ _ _ laws Hok Hp Hv) in H as (m & Hm & Horg & _).
  destruct (member_ok _ _ (tok_members _ Hok) m Hm) as (_ & Hne & _). congruence.
Qed.

(** A reference instance of the two parameters: direct role links, exact or
    wildcard patterns. *)
Definition reference_keyMatch (key pattern : string) : bool := bool_decide (key = pattern) || bool_decide (pattern = "*").
Definition reference_Enforce (policy : list CasbinRule) (sub dom obj act : string) : option bool :=
  Some (existsb (λ r, bool_decide (ru_PType r = "p") && bool_decide (ru_V1 r = dom) && reference_keyMatch obj (ru_V2 r)
    && reference_keyMatch act (ru_V3 r)
    && (bool_decide (sub = ru_V0 r)
        || existsb (λ g, bool_decide (ru_PType g = "g") && bool_decide (ru_V0 g = sub) && bool_decide (ru_V1 g = ru_V0 r)
                         && bool_decide (ru_V2 g = dom)) policy)) policy).
Lemma reference_link policy dom sub role :
  existsb (λ g, bool_decide (ru_PType g = "g") && bool_decide (ru_V0 g = sub) && bool_decide (ru_V1 g = role)
                && bool_decide (ru_V2 g = dom)) policy = true ↔ role_link policy dom sub role.
Proof.
  rewrite existsb_elem. unfold role_link. f_equiv. intros g. rewrite !andb_true_iff, !bool_decide_eq_true. tauto.
Qed.
Lemma reference_laws : casbin_laws reference_Enforce reference_keyMatch.
Proof.
  split.
  - intros key. unfold reference_keyMatch. by rewrite bool_decide_true.
  - intros key. unfold reference_keyMatch. by rewrite orb_true_r.
  - intros key pattern. unfold reference_keyMatch. rewrite orb_true_iff, !bool_decide_eq_true. intros [->| ->]; [by left|]. right. left.
  - intros policy sub dom obj act _. unfold reference_Enforce. intros [= H]. apply existsb_elem in H as (r & Hr & H).
    rewrite !andb_true_iff, orb_true_iff, !bool_decide_eq_true, reference_link in H. destruct H as [[[[? ?] ?] ?] [?|?]];
      exists r; split_and!; try done; [by left|right; by apply tc_once].
  - intros policy sub dom obj act r _ Hr Ht Hd Ho Ha Hs. unfold reference_Enforce. f_equal. apply existsb_elem. exists r. split; [done|].
    rewrite !andb_true_iff, orb_true_iff, !bool_decide_eq_true, reference_link. tauto.
Qed.

(** ** A sample *)
Definition sample_member (org user : string) (role : Role) (version : Z) : OrganizationMember :=
  {| om_OrgID := org; om_UserID := user; om_Role := role; om_OptimisticVersion := version; om_CreatedAt := nsec; om_UpdatedAt := nsec |}.
Definition sample_organization (id : string) (status : OrganizationStatus) : Organization :=
  {| or_ID := id; or_Name := id; or_Status := status; or_OptimisticVersion := 0; or_CreatedAt := nsec; or_UpdatedAt := nsec |}.
Definition sample_grant (org user : string) (action : AuthorizationAction) (revoked : bool) : CapabilityGrant :=
  {| cg_OrganizationID := org; cg_Subject := user; cg_Action := action; cg_GrantedBy := "u1"; cg_Revoked := revoked;
     cg_CreatedAt := nsec; cg_UpdatedAt := nsec |}.
Definition sample_binding (id org customer : string) (status : BindingStatus) : OrgCustomerBinding :=
  {| bi_ID := id; bi_OrgID := org; bi_CustomerID := customer; bi_Status := status; bi_OptimisticVersion := 0;
     bi_CreatedAt := nsec; bi_UpdatedAt := nsec |}.
Definition sample_customer (id : string) (status : CustomerStatus) : Customer :=
  {| cu_ID := id; cu_Name := id; cu_Slug := id; cu_Status := status; cu_Version := 1; cu_CreatedAt := nsec; cu_UpdatedAt := nsec |}.
Definition sample_auth : AuthTables :=
  {| at_policy_version := Some 1; at_grants := [sample_grant "o1" "u2" AuthorizationExecuteEmergency false];
     at_rules := []; at_checkpoints := ∅; at_organizations := [sample_organization "o1" OrgActive];
     at_members := [sample_member "o1" "u1" RoleReleaseAdmin 0; sample_member "o1" "u2" RoleViewer 0];
     at_bindings := [sample_binding "b1" "o1" "c1" BindingActive]; at_binding_events := []; at_users := ∅; at_app_settings := ∅;
     at_sessions := [] |}.
Definition sample_node : Node :=
  {| nd_world := sample_world (set_customers {["c1" := sample_customer "c1" CustomerActive]} (set_auth sample_auth empty_db));
     nd_enforcer := {| ef_policy := []; ef_healthy := false; ef_version := 0; ef_closed := false |};
     nd_limiter := NewRateLimiter 5 (60 * nsec) |}.
Definition refreshed_node : Node := (exec_svc RefreshPolicies sample_node).2.

Lemma refresh_exact_witness :
  casbin_laws reference_Enforce reference_keyMatch ∧ exec_svc RefreshPolicies sample_node = (Ok tt, refreshed_node) ∧
  (Enforce_in reference_Enforce (nd_enforcer refreshed_node) "u2" "o1" "release" "release.emergency.execute" = None ↔
   ∃ m, m ∈ at_members sample_auth ∧ om_OrgID m = "o1" ∧ om_UserID m = "u2" ∧
     member_allows (at_grants sample_auth) m AuthorizationExecuteEmergency = true).
Proof.
  assert (E : exec_svc RefreshPolicies sample_node = (Ok tt, refreshed_node)) by (vm_compute; reflexivity).
  split; [exact reference_laws|split; [exact E|]].
  refine (proj2 (refresh_exact reference_Enforce reference_keyMatch sample_node refreshed_node "u2" "o1"
                   AuthorizationExecuteEmergency reference_laws _ E _ _)).
  - split.
    + split; repeat (apply Forall_cons; split); try apply Forall_nil; vm_compute; repeat split; discriminate.
    + intros m Hm. exists (sample_organization "o1" OrgActive). split; [left|].
      change (m ∈ at_members sample_auth) in Hm. unfold at_members, sample_auth in Hm.
      repeat (apply elem_of_cons in Hm as [->|Hm]; [reflexivity|]). destruct (not_elem_of_nil m Hm).
    + intros r Hr. change (r ∈ at_rules sample_auth) in Hr. unfold at_rules, sample_auth in Hr. destruct (not_elem_of_nil r Hr).
  - vm_compute. repeat split; discriminate.
  - reflexivity.
Defined.
