(* ===== verification/ProcedurePolicy.v ===== *)
(** * The procedure registry (internal/auth/procedure_policy.go)

    How every Connect procedure is authenticated and authorised.  A procedure
    without a row is refused by the interceptor. *)
From S2P Require Import Prelude Domain Database Program AuthStore Policy.
#[local] Open Scope Z_scope.

Inductive authzMode : Type := modeCasbin | modeHandler | modePublic | modePrincipalScope | modeMTLS | modeServiceToken.
#[export] Instance authzMode_eq_dec : EqDecision authzMode.
Proof. solve_decision. Defined.
Record procedurePolicy := {
  pp_mode : authzMode; pp_object : string; pp_action : string; pp_adminOnly : bool; pp_targetOrg : bool;
}.
Definition row (procedure : string) (mode : authzMode) (object action : string) : string * procedurePolicy :=
  (procedure, {| pp_mode := mode; pp_object := object; pp_action := action; pp_adminOnly := false; pp_targetOrg := false |}).
Definition admin_only (procedure object action : string) : string * procedurePolicy :=
  (procedure, {| pp_mode := modeCasbin; pp_object := object; pp_action := action; pp_adminOnly := true; pp_targetOrg := false |}).
Definition target_org (procedure object action : string) : string * procedurePolicy :=
  (procedure, {| pp_mode := modeCasbin; pp_object := object; pp_action := action; pp_adminOnly := false; pp_targetOrg := true |}).
Definition procedurePolicies : list (string * procedurePolicy) :=
  [row "/audit.v1.AuditService/Emit" modePrincipalScope "" "";
   row "/audit.v1.AuditService/QueryAuditEvents" modePrincipalScope "" "";
   row "/audit.v1.AuditService/ExportAuditEvents" modePrincipalScope "" "";
   row "/auth.v1.AuthService/GetInitStatus" modePublic "" "";
   row "/auth.v1.AuthService/Initialize" modePublic "" "";
   row "/auth.v1.AuthService/Login" modePublic "" "";
   row "/auth.v1.AuthService/Logout" modeHandler "" "";
   row "/auth.v1.AuthService/RefreshToken" modePublic "" "";
   row "/auth.v1.AuthService/ValidateToken" modePublic "" "";
   target_org "/auth.v1.AuthService/SwitchOrganization" "organization" "write";
   row "/auth.v1.AuthService/ChangePassword" modeHandler "" "";
   admin_only "/auth.v1.AuthService/CreateLocalUser" "auth" "write";
   admin_only "/auth.v1.AuthService/GetLocalUser" "auth" "read";
   admin_only "/auth.v1.AuthService/ListLocalUsers" "auth" "read";
   row "/auth.v1.OrganizationService/CreateOrganization" modeCasbin "organization" "write";
   row "/auth.v1.OrganizationService/GetOrganization" modeCasbin "organization" "read";
   row "/auth.v1.OrganizationService/ListOrganizations" modeCasbin "organization" "read";
   row "/auth.v1.OrganizationService/UpdateOrganization" modeCasbin "organization" "write";
   row "/auth.v1.OrganizationService/DisableOrganization" modeCasbin "organization" "write";
   row "/auth.v1.OrganizationService/AddMember" modeCasbin "organization" "write";
   row "/auth.v1.OrganizationService/RemoveMember" modeCasbin "organization" "write";
   row "/auth.v1.OrganizationService/ListMembers" modeCasbin "organization" "read";
   row "/auth.v1.OrganizationService/UpdateMemberRole" modeCasbin "organization" "write";
   row "/auth.v1.BindingService/CreateBinding" modeCasbin "binding" "write";
   row "/auth.v1.BindingService/GetBinding" modeCasbin "binding" "read";
   row "/auth.v1.BindingService/ListBindings" modeCasbin "binding" "read";
   row "/auth.v1.BindingService/RevokeBinding" modeCasbin "binding" "write";
   row "/auth.v1.AuthorizationService/GetAuthorizationSnapshot" modeHandler "organization" "read";
   row "/auth.v1.AuthorizationService/SetCapabilityGrant" modeHandler "organization" "write";
   row "/auth.v1.AuthorizationService/AuthorizeAccess" modeHandler "audit" "read";
   row "/auth.v1.ExternalIdentityService/AuthenticateLDAP" modePublic "" "";
   row "/auth.v1.ExternalIdentityService/GetOIDCAuthURL" modePublic "" "";
   row "/auth.v1.ExternalIdentityService/GetDingTalkAuthURL" modePublic "" "";
   row "/notifier.v1.NotifierService/Send" modeServiceToken "" "";
   row "/notifier.v1.NotifierService/GetStatus" modeServiceToken "" "";
   row "/operator.v1.OperatorService/Enroll" modeMTLS "" "";
   row "/operator.v1.OperatorService/RenewCertificate" modeMTLS "" "";
   row "/operator.v1.OperatorService/CommandStream" modeMTLS "" "";
   row "/operator.v1.OperatorService/GetActiveOperatorSession" modeMTLS "" "";
   admin_only "/orchestrator.v1.CleanupService/RunCleanup" "cleanup" "write";
   admin_only "/orchestrator.v1.CleanupService/UnarchiveBundle" "cleanup" "write";
   admin_only "/orchestrator.v1.BundleService/SubmitBundle" "bundle" "write";
   admin_only "/orchestrator.v1.BundleService/RecordArtifactEvent" "bundle" "write";
   row "/orchestrator.v1.BundleService/ListBundles" modeCasbin "bundle" "read";
   row "/orchestrator.v1.BundleService/GetBundle" modeCasbin "bundle" "read";
   row "/orchestrator.v1.OrchestratorService/CreateOperation" modeCasbin "release" "write";
   row "/orchestrator.v1.OrchestratorService/PublishRelease" modeCasbin "release" "write";
   row "/orchestrator.v1.OrchestratorService/RollbackRelease" modeCasbin "release" "write";
   row "/orchestrator.v1.OrchestratorService/GetOperation" modeCasbin "release" "read";
   row "/orchestrator.v1.OrchestratorService/WatchOperation" modeCasbin "release" "read";
   row "/orchestrator.v1.OrchestratorService/CancelOperation" modeCasbin "release" "write";
   row "/orchestrator.v1.OrchestratorService/SubmitValuesRevision" modeHandler "release" "write";
   row "/orchestrator.v1.OrchestratorService/ApproveValuesRevision" modeHandler "release" "write";
   row "/orchestrator.v1.OrchestratorService/RejectValuesRevision" modeHandler "release" "write";
   row "/orchestrator.v1.OrchestratorService/CreateValuesRevision" modeCasbin "release" "write";
   row "/orchestrator.v1.OrchestratorService/GetValuesRevision" modeCasbin "release" "read";
   row "/orchestrator.v1.OrchestratorService/ListValuesRevisions" modeCasbin "release" "read";
   row "/orchestrator.v1.OrchestratorService/DiscardValuesRevision" modeCasbin "release" "write";
   row "/orchestrator.v1.OrchestratorService/CreatePrepareSession" modeCasbin "release" "write";
   row "/orchestrator.v1.OrchestratorService/GetPrepareSession" modeCasbin "release" "read";
   row "/orchestrator.v1.OrchestratorService/ListSecrets" modeCasbin "release" "read";
   row "/orchestrator.v1.OrchestratorService/CreateReleaseDefinition" modeCasbin "release" "write";
   row "/orchestrator.v1.OrchestratorService/GetReleaseDefinition" modeCasbin "release" "read";
   row "/orchestrator.v1.OrchestratorService/ListReleaseDefinitions" modeCasbin "release" "read";
   row "/orchestrator.v1.OrchestratorService/UpdateReleaseDefinition" modeCasbin "release" "write";
   row "/orchestrator.v1.OrchestratorService/DisableReleaseDefinition" modeCasbin "release" "write";
   row "/orchestrator.v1.OrchestratorService/CreateCustomer" modeCasbin "release" "write";
   row "/orchestrator.v1.OrchestratorService/GetCustomer" modeCasbin "release" "read";
   row "/orchestrator.v1.OrchestratorService/ListCustomers" modeCasbin "release" "read";
   row "/orchestrator.v1.OrchestratorService/UpdateCustomer" modeCasbin "release" "write";
   row "/orchestrator.v1.OrchestratorService/DisableCustomer" modeCasbin "release" "write";
   row "/orchestrator.v1.OrchestratorService/ListCustomerEvents" modeCasbin "release" "read";
   row "/orchestrator.v1.OrchestratorService/CreateCluster" modeCasbin "release" "write";
   row "/orchestrator.v1.OrchestratorService/UpdateCluster" modeCasbin "release" "write";
   row "/orchestrator.v1.OrchestratorService/GetCluster" modeCasbin "release" "read";
   row "/orchestrator.v1.OrchestratorService/ListClusters" modeCasbin "release" "read";
   row "/orchestrator.v1.OrchestratorService/DisableCluster" modeCasbin "release" "write";
   row "/orchestrator.v1.OrchestratorService/ListOperators" modeCasbin "operator" "read";
   row "/orchestrator.v1.OrchestratorService/GetOperator" modeCasbin "operator" "read";
   row "/orchestrator.v1.OrchestratorService/RevokeOperator" modeCasbin "operator" "revoke";
   row "/orchestrator.v1.OrchestratorService/CreateEnrollmentToken" modeCasbin "operator" "enroll";
   row "/orchestrator.v1.OrchestratorService/GetEnrollmentTokenStatus" modeCasbin "operator" "enroll";
   row "/orchestrator.v1.OrchestratorService/RevokePendingEnrollmentToken" modeCasbin "operator" "enroll";
   row "/orchestrator.v1.OrchestratorService/ExecuteEmergencyChange" modeCasbin "release" "write";
   row "/orchestrator.v1.OrchestratorService/ListEmergencyTargets" modeCasbin "release" "read";
   row "/orchestrator.v1.OrchestratorService/CheckEmergencyConflict" modeCasbin "release" "read";
   row "/orchestrator.v1.OrchestratorService/ListCandidateArtifacts" modeCasbin "release" "read";
   row "/orchestrator.v1.OrchestratorService/ListConvergenceTasks" modeCasbin "release" "read";
   row "/orchestrator.v1.OrchestratorService/ListStuckLocks" modeCasbin "release" "read";
   row "/orchestrator.v1.OrchestratorService/ReleaseEmergencyLock" modeCasbin "release" "write";
   row "/orchestrator.v1.OrchestratorService/ConfigureClusterRoute" modeCasbin "release" "write";
   row "/orchestrator.v1.OrchestratorService/GetClusterRoutes" modeCasbin "release" "read";
   row "/orchestrator.v1.OrchestratorService/DeleteClusterRoute" modeCasbin "release" "write";
   row "/orchestrator.v1.OrchestratorService/ListReleases" modeCasbin "release" "read";
   row "/orchestrator.v1.OrchestratorService/ListReleaseInventory" modeCasbin "release" "read";
   row "/orchestrator.v1.OrchestratorService/ListOperations" modeCasbin "release" "read";
   row "/orchestrator.v1.OrchestratorService/ListNonTerminalOperations" modeCasbin "release" "read";
   row "/orchestrator.v1.OrchestratorService/TriggerInventorySync" modeCasbin "release" "write";
   row "/orchestrator.v1.OrchestratorService/SyncInventory" modeCasbin "release" "write";
   admin_only "/trust.v1.TrustService/CreateTrustRoot" "trust_root" "write";
   admin_only "/trust.v1.TrustService/RotateTrustRoot" "trust_root" "write";
   admin_only "/trust.v1.TrustService/EndGrace" "trust_root" "write";
   admin_only "/trust.v1.TrustService/RetireTrustRoot" "trust_root" "write";
   admin_only "/trust.v1.TrustService/RevokeTrustRoot" "trust_root" "write";
   row "/trust.v1.TrustService/GetTrustPolicy" modeCasbin "trust_root" "read";
   row "/webhook.v1.WebhookService/SubmitReleaseBundle" modeServiceToken "" ""].
Definition lookupProcedure (procedure : string) : option procedurePolicy :=
  snd <$> find_row (λ r, bool_decide (r.1 = procedure)) procedurePolicies.
Definition mapProcedure (procedure : string) : string * string :=
  match lookupProcedure procedure with Some p => (pp_object p, pp_action p) | None => ("", "") end.
Definition usesHandlerAuthorization (procedure : string) : bool :=
  match lookupProcedure procedure with Some p => bool_decide (pp_mode p = modeHandler) | None => false end.

(** What the default role matrix says of an object and an action, by exact names. *)
Definition role_may (role : Role) (object action : string) : bool :=
  existsb (λ oa, bool_decide (oa.1 = object) && bool_decide (oa.2 = action)) (role_permissions role).
Definition ordinary_roles : list Role := [RoleReleaseAdmin; RoleDeployer; RoleViewer].
Definition row_consistent (p : procedurePolicy) : bool :=
  negb (bool_decide (pp_mode p = modeCasbin))
  || (negb (bool_decide (pp_object p = "")) && negb (bool_decide (pp_action p = ""))
      && Bool.eqb (pp_adminOnly p) (negb (existsb (λ role, role_may role (pp_object p) (pp_action p)) ordinary_roles))).

Lemma registry_keys : NoDup procedurePolicies.*1.
Proof. apply (bool_decide_unpack _). vm_compute. exact I. Qed.
Lemma registry_rows : Forall (λ r, row_consistent r.2 = true) procedurePolicies.
Proof. apply (bool_decide_unpack _). vm_compute. exact I. Qed.
Lemma lookupProcedure_row procedure p : lookupProcedure procedure = Some p → (procedure, p) ∈ procedurePolicies.
Proof.
  unfold lookupProcedure. intros H. apply fmap_Some in H as ([q p'] & H & ->). apply find_row_Some in H as [Hin Hq].
  apply bool_decide_eq_true in Hq as <-. done.
Qed.
(** The registry is sound with respect to the role matrix.  A procedure has at
    most one row, and a procedure whose decision is left to Casbin names an object
    and an action; it is marked [adminOnly] exactly when no role except
    platform_admin holds that pair, so no procedure is unreachable for everybody
    below platform_admin by oversight. *)
Theorem registry_sound procedure p role :
  lookupProcedure procedure = Some p → pp_mode p = modeCasbin → role ∈ ordinary_roles →
  (∀ q, (procedure, q) ∈ procedurePolicies → q = p) ∧ pp_object p ≠ "" ∧ pp_action p ≠ "" ∧
  (pp_adminOnly p = true → role_may role (pp_object p) (pp_action p) = false) ∧
  (pp_adminOnly p = false → ∃ r, r ∈ ordinary_roles ∧ role_may r (pp_object p) (pp_action p) = true).
Proof.
  intros H Hm Hrole. apply lookupProcedure_row in H. assert (Hrow := registry_rows). rewrite Forall_forall in Hrow.
  specialize (Hrow _ H). simpl in Hrow. unfold row_consistent in Hrow. rewrite Hm, (bool_decide_true (modeCasbin = _)), orb_false_l, !andb_true_iff in Hrow by done.
  destruct Hrow as [[Ho Ha] He]. apply Bool.eqb_prop in He. split_and!.
  - intros q Hq. assert (Hk := registry_keys). apply list_elem_of_lookup in H as [i Hi]. apply list_elem_of_lookup in Hq as [j Hj].
    assert (i = j) as <- by (eapply NoDup_lookup; [exact Hk|by rewrite list_lookup_fmap, Hi|by rewrite list_lookup_fmap, Hj]). congruence.
  - intros E. by rewrite E in Ho.
  - intros E. by rewrite E in Ha.
  - intros E. rewrite E in He. symmetry in He. apply negb_true_iff in He. rewrite existsb_false_forall, Forall_forall in He. by apply He.
  - intros E. rewrite E in He. symmetry in He. apply negb_false_iff, existsb_elem in He as (r & Hr & Hmay). by exists r.
Qed.
Lemma registry_sound_witness :
  lookupProcedure "/auth.v1.OrganizationService/AddMember" = Some (row "" modeCasbin "organization" "write").2 ∧
  (∃ r, r ∈ ordinary_roles ∧ role_may r "organization" "write" = true).
Proof.
  split; [vm_compute; reflexivity|].
  refine (proj2 (proj2 (proj2 (proj2 (registry_sound "/auth.v1.OrganizationService/AddMember"
    (row "" modeCasbin "organization" "write").2 RoleViewer _ _ _)))) _); [vm_compute; reflexivity|reflexivity| |reflexivity].
  right. right. left.
Defined.
