(* ===== verification/Sessions.v ===== *)
(** * Session stores
    (internal/store/sqlite/auth_sessions.go, internal/store/redis/adapter.go)

    A refresh token is stored by its hash in a row of [auth_sessions]; rotating a
    token revokes the rows of its family.  [SessionStore] is the interface the
    authentication service uses (store.AuthSessionStore); the SQLite rows and the
    Redis adapter around them implement it.  [SessionStoreLaws] is what both
    promise while other requests run: no method un-revokes a row, and a token
    whose rows are all revoked is never reported as live.  Redis is a third-party
    server whose answers are arbitrary here; the promise does not depend on them. *)
From S2P Require Import Prelude Utf8 Json TimeText RateLimit Domain Database Program AuthStore Policy.
#[local] Open Scope Z_scope.

(** ** Rows (auth_sessions.go) *)
Definition session_row (s : AuthSession) : AuthSession :=
  {| ss_ID := ss_ID s; ss_UserID := ss_UserID s; ss_TokenFamily := ss_TokenFamily s;
     ss_RefreshTokenHash := ss_RefreshTokenHash s; ss_ExpiresAt := rfc3339 (ss_ExpiresAt s);
     ss_CreatedAt := rfc3339 (ss_CreatedAt s); ss_Revoked := ss_Revoked s |}.
Definition session_created (s : AuthSession) (t : time) : AuthSession :=
  {| ss_ID := ss_ID s; ss_UserID := ss_UserID s; ss_TokenFamily := ss_TokenFamily s;
     ss_RefreshTokenHash := ss_RefreshTokenHash s; ss_ExpiresAt := ss_ExpiresAt s;
     ss_CreatedAt := t; ss_Revoked := ss_Revoked s |}.
Definition revoke (s : AuthSession) : AuthSession :=
  {| ss_ID := ss_ID s; ss_UserID := ss_UserID s; ss_TokenFamily := ss_TokenFamily s;
     ss_RefreshTokenHash := ss_RefreshTokenHash s; ss_ExpiresAt := ss_ExpiresAt s;
     ss_CreatedAt := ss_CreatedAt s; ss_Revoked := true |}.
Definition sessions_of (db : DB) : list AuthSession := at_sessions (db_auth db).
Definition has_hash (hash : string) (s : AuthSession) : bool := bool_decide (ss_RefreshTokenHash s = hash).
Definition in_family (family : string) (s : AuthSession) : bool := bool_decide (ss_TokenFamily s = family).
Definition of_user (userID : string) (s : AuthSession) : bool := bool_decide (ss_UserID s = userID).
(** The caller's object gets its creation time filled in. *)
Definition Create_session (s : AuthSession) : SM AuthSession :=
  let! createdAt := or_now (ss_CreatedAt s) in
  let s := session_created s createdAt in
  autocommit (
    let! clash := query (λ db, existsb (λ r, bool_decide (ss_ID r = ss_ID s)) (sessions_of db)) in
    fail_if clash (ErrOther "insert auth session") ;!
    check_fk (λ db, bool_decide (is_Some (at_users (db_auth db) !! ss_UserID s))) "FOREIGN KEY constraint failed" ;!
    exec (on_auth (λ t, set_sessions (at_sessions t ++ [session_row s]) t))) ;!
  ret s.
Definition Get_session (id : string) : SM AuthSession :=
  let! row := query (λ db, find_row (λ s, bool_decide (ss_ID s = id)) (sessions_of db)) in scan_row row.
Definition session_of_hash (hash : string) (db : DB) : option AuthSession := find_row (has_hash hash) (sessions_of db).
Definition GetByRefreshHash_session (hash : string) : SM AuthSession :=
  let! row := query (session_of_hash hash) in scan_row row.
Definition GetByTokenFamily_session (family : string) : SM (list AuthSession) :=
  query (λ db, filter (λ s, in_family family s = true) (sessions_of db)).
Definition revoke_where (hit : AuthSession → bool) : SM unit :=
  autocommit (exec (on_auth (λ t, set_sessions (update_where hit revoke (at_sessions t)) t))).
Definition RevokeFamily_session (family : string) : SM unit := revoke_where (in_family family).
Definition RevokeByUserID_session (userID : string) : SM unit := revoke_where (of_user userID).
(** Expiry is compared as text of whole seconds. *)
Definition live_at (now : time) (s : AuthSession) : bool := negb (ss_Revoked s) && (rfc3339 now <? ss_ExpiresAt s).
Definition HasActiveByUserID_session (userID : string) : SM bool :=
  let! t := now in
  query (λ db, existsb (λ s, of_user userID s && live_at t s) (sessions_of db)).
Definition DeleteExpired_session : SM Z :=
  let! t := now in
  let expired s := ss_ExpiresAt s <? rfc3339 t in
  autocommit (
    let! n := query (λ db, rows_affected expired (sessions_of db)) in
    exec (on_auth (λ a, set_sessions (delete_where expired (at_sessions a)) a)) ;!
    ret (Z.of_nat n)).

(** ** The interface (store.AuthSessionStore) *)
(** A process state that contains the authentication node. *)
Class Host (T : Type) := {
  node_of : T → Node; set_node : Node → T → T;
  node_of_set n t : node_of (set_node n t) = n;
}.
#[export] Instance node_host : Host Node := {| node_of n := n; set_node n _ := n; node_of_set _ _ := eq_refl |}.
Definition at_node {T} `{Host T} {A} (m : NM A) : M T error A := lift node_of set_node m.
Definition here {T} `{Host T} {A} (m : SM A) : M T error A := at_node (on_world m).
Definition failed {S A} (e : error) : svc S error (res error A) := Done (Err e).
Definition once {S A} (m : M S error A) : svc S error (res error A) := Call m Done.
Class SessionStore (T : Type) `{Host T} := {
  Create : AuthSession → svc T error (res error AuthSession);
  GetByRefreshHash : string → svc T error (res error AuthSession);
  GetByTokenFamily : string → svc T error (res error (list AuthSession));
  RevokeFamily : string → svc T error (res error unit);
  RevokeByUserID : string → svc T error (res error unit);
  HasActiveByUserID : string → svc T error (res error bool);
  DeleteExpired : svc T error (res error Z);
}.
#[export] Instance sqlite_sessions : SessionStore Node := {
  Create s := once (here (Create_session s));
  GetByRefreshHash h := once (here (GetByRefreshHash_session h));
  GetByTokenFamily f := once (here (GetByTokenFamily_session f));
  RevokeFamily f := once (here (RevokeFamily_session f));
  RevokeByUserID u := once (here (RevokeByUserID_session u));
  HasActiveByUserID u := once (here (HasActiveByUserID_session u));
  DeleteExpired := once (here DeleteExpired_session);
}.

(** ** The Redis adapter (adapter.go) *)
Inductive redis_command : Type :=
| RSet (key payload : string) (ttl : Z) | RDel (key : string)
| RSAdd (key member : string) | RSRem (key member : string)
| RExpireNX (key : string) (ttl : Z) | RExpireGT (key : string) (ttl : Z).
(** A Redis client; [None] is [redis.Nil]. *)
Record Redis (X : Type) := {
  redis_Get : string → M X error (option string);
  redis_SMembers : string → M X error (list string);
  redis_TxPipelined : list redis_command → M X error unit;
}.
Arguments redis_Get {X}. Arguments redis_SMembers {X}. Arguments redis_TxPipelined {X}.
Definition sessionKey (hash : string) : string := "auth:sess:" ++ hash.
Definition blacklistKey (hash : string) : string := "auth:blacklist:" ++ hash.
Definition userKey (userID : string) : string := "auth:user:" ++ userID.
Definition encodeSession (s : AuthSession) : string := json_text (JObj
  [("id", JStr (ss_ID s)); ("user_id", JStr (ss_UserID s)); ("token_family", JStr (ss_TokenFamily s));
   ("refresh_token_hash", JStr (ss_RefreshTokenHash s)); ("expires_at", JStr (rfc3339nano_text (ss_ExpiresAt s)));
   ("created_at", JStr (rfc3339nano_text (ss_CreatedAt s))); ("revoked", JBool (ss_Revoked s))]).
Fixpoint decode_bool_field (name : string) (fields : list (string * json)) (acc : bool) : option bool :=
  match fields with
  | [] => Some acc
  | (key, v) :: fields =>
      if key_matches name key then
        match v with JBool b => decode_bool_field name fields b | JNull => decode_bool_field name fields acc | _ => None end
      else decode_bool_field name fields acc
  end.
Fixpoint decode_time_field (name : string) (fields : list (string * json)) (acc : time) : option time :=
  match fields with
  | [] => Some acc
  | (key, v) :: fields =>
      if key_matches name key then
        match v with
        | JStr s => t ← time_Parse s; decode_time_field name fields t
        | JNull => decode_time_field name fields acc
        | _ => None
        end
      else decode_time_field name fields acc
  end.
Definition json_fields (payload : string) : option (list (string * json)) :=
  match parse_json payload with Some (JObj fields) => Some fields | Some JNull => Some [] | _ => None end.
Definition decodeSession (payload : string) : option AuthSession :=
  fields ← json_fields payload;
  id ← decode_string_field "id" fields ""; user ← decode_string_field "user_id" fields "";
  family ← decode_string_field "token_family" fields ""; hash ← decode_string_field "refresh_token_hash" fields "";
  expires ← decode_time_field "expires_at" fields 0; created ← decode_time_field "created_at" fields 0;
  revoked ← decode_bool_field "revoked" fields false;
  Some {| ss_ID := id; ss_UserID := user; ss_TokenFamily := family; ss_RefreshTokenHash := hash; ss_ExpiresAt := expires;
          ss_CreatedAt := created; ss_Revoked := revoked |}.
Definition encodeBlacklisted (s : AuthSession) : string :=
  json_text (JObj [("user_id", JStr (ss_UserID s)); ("token_family", JStr (ss_TokenFamily s))]).
Definition decodeBlacklisted (payload : string) : option (string * string) :=
  fields ← json_fields payload; user ← decode_string_field "user_id" fields "";
  family ← decode_string_field "token_family" fields ""; Some (user, family).
Definition sameCachedSession (cached authoritative : AuthSession) : bool :=
  bool_decide (ss_ID cached = ss_ID authoritative) && bool_decide (ss_UserID cached = ss_UserID authoritative)
  && bool_decide (ss_TokenFamily cached = ss_TokenFamily authoritative)
  && bool_decide (ss_RefreshTokenHash cached = ss_RefreshTokenHash authoritative)
  && (ss_ExpiresAt cached =? ss_ExpiresAt authoritative) && Bool.eqb (ss_Revoked cached) (ss_Revoked authoritative).

Section adapter.
Context {X : Type} (redis : Redis X).
Abbreviation T := (Node * X)%type.
#[export] Instance cached_host : Host T := {| node_of := fst; set_node n t := (n, t.2); node_of_set _ _ := eq_refl |}.
Definition on_redis {A} (m : M X error A) : M T error A := lift snd (λ x t, (t.1, x)) m.
Definition unavailable_redis {A} (_ : error) : svc T error (res error A) := Done (Err ErrUnavailable).
Definition cacheSession (s : AuthSession) : svc T error (res error unit) :=
  let* t := here now fails failed in
  let ttl := ss_ExpiresAt s - t in
  if ttl <=? 0 then Done (Ok tt)
  else
    let* _ := on_redis (redis_TxPipelined redis
      [RSet (sessionKey (ss_RefreshTokenHash s)) (encodeSession s) ttl;
       RSAdd (userKey (ss_UserID s)) (ss_RefreshTokenHash s);
       RExpireNX (userKey (ss_UserID s)) ttl; RExpireGT (userKey (ss_UserID s)) ttl]) fails unavailable_redis in
    Done (Ok tt).
(** The commands of one pipeline; the clock is read for every session. *)
Fixpoint blacklist_commands (sessions : list AuthSession) (cmds : list redis_command) : svc T error (res error unit) :=
  match sessions with
  | [] => let* _ := on_redis (redis_TxPipelined redis cmds) fails unavailable_redis in Done (Ok tt)
  | s :: sessions =>
      let* t := here now fails failed in
      let ttl := ss_ExpiresAt s - t in
      blacklist_commands sessions (cmds
        ++ (if 0 <? ttl then [RSet (blacklistKey (ss_RefreshTokenHash s)) (encodeBlacklisted s) ttl] else [])
        ++ [RDel (sessionKey (ss_RefreshTokenHash s)); RSRem (userKey (ss_UserID s)) (ss_RefreshTokenHash s)])
  end.
Definition blacklistSessions (sessions : list AuthSession) : svc T error (res error unit) :=
  match sessions with [] => Done (Ok tt) | _ => blacklist_commands sessions [] end.
(** [if err := p; err != nil { return err }; k] *)
Definition then_ {A B} (p : svc T error (res error A)) (k : A → svc T error (res error B)) : svc T error (res error B) :=
  svc_bind p (λ r, match r with Ok a => k a | Err e => failed e end).
Definition Create_cached (s : AuthSession) : svc T error (res error AuthSession) :=
  let* s := here (Create_session s) fails failed in
  svc_bind (if ss_Revoked s then blacklistSessions [s] else cacheSession s) (λ published,
    match published with
    | Ok _ => Done (Ok s)
    | Err e => let* _ := here (RevokeFamily_session (ss_TokenFamily s)) fails (λ _, failed e) in failed e
    end).
(** The session a cached entry leads to; [None] on a cache miss. *)
Definition readCachedSession (hash : string) : svc T error (res error (option AuthSession)) :=
  let* payload := on_redis (redis_Get redis (sessionKey hash)) fails unavailable_redis in
  match payload with
  | None => Done (Ok None)
  | Some payload =>
      match decodeSession payload with
      | None => failed ErrUnavailable
      | Some cached =>
          let* s := here (GetByRefreshHash_session hash) fails failed in
          if ss_Revoked s then then_ (blacklistSessions [s]) (λ _, Done (Ok (Some s)))
          else if sameCachedSession cached s then Done (Ok (Some s))
          else then_ (cacheSession s) (λ _, Done (Ok (Some s)))
      end
  end.
Definition GetByRefreshHash_cached (hash : string) : svc T error (res error AuthSession) :=
  let* payload := on_redis (redis_Get redis (blacklistKey hash)) fails unavailable_redis in
  match payload with
  | Some payload =>
      match decodeBlacklisted payload with
      | None => failed ErrUnavailable
      | Some (user, family) =>
          Done (Ok {| ss_ID := ""; ss_UserID := user; ss_TokenFamily := family; ss_RefreshTokenHash := hash;
                      ss_ExpiresAt := 0; ss_CreatedAt := 0; ss_Revoked := true |})
      end
  | None =>
      then_ (readCachedSession hash) (λ found,
        match found with
        | Some s => Done (Ok s)
        | None =>
            let* s := here (GetByRefreshHash_session hash) fails failed in
            if ss_Revoked s then then_ (blacklistSessions [s]) (λ _, Done (Ok s))
            else then_ (cacheSession s) (λ _, Done (Ok s))
        end)
  end.
Definition RevokeFamily_cached (family : string) : svc T error (res error unit) :=
  let* sessions := here (GetByTokenFamily_session family) fails failed in
  let* _ := here (RevokeFamily_session family) fails failed in
  blacklistSessions sessions.
Fixpoint blacklist_hashes (hashes : list string) (sessions : list AuthSession) : svc T error (res error unit) :=
  match hashes with
  | [] => blacklistSessions sessions
  | h :: hashes =>
      let* s := here (let! row := query (session_of_hash h) in ret row) fails failed in
      match s with
      | None => blacklist_hashes hashes sessions
      | Some s => blacklist_hashes hashes (sessions ++ [s])
      end
  end.
Definition RevokeByUserID_cached (userID : string) : svc T error (res error unit) :=
  let* _ := here (RevokeByUserID_session userID) fails failed in
  let* hashes := on_redis (redis_SMembers redis (userKey userID)) fails unavailable_redis in
  blacklist_hashes hashes [].
#[export] Instance redis_sessions : SessionStore T := {
  Create := Create_cached;
  GetByRefreshHash := GetByRefreshHash_cached;
  GetByTokenFamily f := once (here (GetByTokenFamily_session f));
  RevokeFamily := RevokeFamily_cached;
  RevokeByUserID := RevokeByUserID_cached;
  HasActiveByUserID u := once (here (HasActiveByUserID_session u));
  DeleteExpired := once (here DeleteExpired_session);
}.
End adapter.

(** ** What both stores promise

    [older]: the same session at a later time.  [ages new]: the table moved on, the
    added rows being described by [new] (hash, family, user). *)
Definition older (s s' : AuthSession) : Prop :=
  ss_ID s' = ss_ID s ∧ ss_UserID s' = ss_UserID s ∧ ss_TokenFamily s' = ss_TokenFamily s ∧
  ss_RefreshTokenHash s' = ss_RefreshTokenHash s ∧ ss_ExpiresAt s' = ss_ExpiresAt s ∧
  (ss_Revoked s = true → ss_Revoked s' = true).
#[export] Instance older_preorder : PreOrder older.
Proof. split; [done|]. intros a b c (? & ? & ? & ? & ? & ?) (? & ? & ? & ? & ? & ?). split_and!; try congruence. tauto. Qed.
Definition described (new : string → string → string → Prop) (s : AuthSession) : Prop :=
  new (ss_RefreshTokenHash s) (ss_TokenFamily s) (ss_UserID s).
Definition ages (new : string → string → string → Prop) (l l' : list AuthSession) : Prop :=
  ∀ s', s' ∈ l' → ∃ s, (s ∈ l ∨ described new s) ∧ older s s'.
#[export] Instance ages_preorder new : PreOrder (ages new).
Proof.
  split.
  - intros l s Hs. exists s. split; [by left|reflexivity].
  - intros l1 l2 l3 H12 H23 s3 H3. destruct (H23 s3 H3) as (s2 & [H2|H2] & Ho); [|exists s2; split; [by right|done]].
    destruct (H12 s2 H2) as (s1 & H1 & Ho'). exists s1. split; [done|by etransitivity].
Qed.
(** All rows with a property are revoked. *)
Definition doomed (p : AuthSession → Prop) (l : list AuthSession) : Prop := ∀ s, s ∈ l → p s → ss_Revoked s = true.
Definition lasting (p : AuthSession → Prop) : Prop := ∀ s s', older s s' → p s' → p s.
Lemma doomed_ages p new l l' : lasting p → (∀ s, described new s → ¬ p s) → ages new l l' → doomed p l → doomed p l'.
Proof.
  intros Hp Hn Ha Hd s' Hs' Hps. destruct (Ha s' Hs') as (s & Hs & Ho). assert (p s) by by eapply Hp.
  destruct Ho as (_ & _ & _ & _ & _ & Hr). apply Hr. destruct Hs as [Hs|Hs]; [by apply Hd|]. exfalso. by eapply Hn.
Qed.
Definition with_hash (h : string) (s : AuthSession) : Prop := ss_RefreshTokenHash s = h.
Definition with_family (f : string) (s : AuthSession) : Prop := ss_TokenFamily s = f.
Definition with_user (u : string) (s : AuthSession) : Prop := ss_UserID s = u.
Lemma lasting_hash h : lasting (with_hash h). Proof. unfold lasting, with_hash. by intros s s' (_ & _ & _ & -> & _). Qed.
Lemma lasting_family f : lasting (with_family f). Proof. unfold lasting, with_family. by intros s s' (_ & _ & -> & _). Qed.
Lemma lasting_user u : lasting (with_user u). Proof. unfold lasting, with_user. by intros s s' (_ & -> & _). Qed.
Create HintDb sessions.
#[export] Hint Resolve lasting_hash lasting_family lasting_user : sessions.

Definition sessions_at {T} `{Host T} (t : T) : list AuthSession := sessions_of (w_db (nd_world (node_of t))).
Definition session_rely {T} `{Host T} (new : string → string → string → Prop) (t t' : T) : Prop :=
  ages new (sessions_at t) (sessions_at t').
#[export] Instance session_rely_preorder {T} `{Host T} new : PreOrder (session_rely (T:=T) new).
Proof. split; [intros t; unfold session_rely; reflexivity|]. intros a b c ? ?. unfold session_rely in *. by etransitivity. Qed.
Definition users_of (db : DB) : gmap string User := at_users (db_auth db).
Definition users_at {T} `{Host T} (t : T) : gmap string User := users_of (w_db (nd_world (node_of t))).
(** A call that leaves the user rows alone. *)
Definition keeps_users {T} `{Host T} B (m : M T error B) : Prop := ∀ t, users_at (m t).2 = users_at t.
(** A call that moves the sessions by [ages new]. *)
Definition tame {T} `{Host T} new B (m : M T error B) : Prop := guarantees (λ _, True) (session_rely new) m.
Abbreviation swp new fault := (wp (λ _, True) (session_rely new) fault).
Class SessionStoreLaws (T : Type) `{SessionStore T} : Prop := {
  create_calls new s : described new s → calls (tame new) (Create s);
  get_calls new h : calls (tame new) (GetByRefreshHash h);
  family_calls new f : calls (tame new) (RevokeFamily f);
  user_calls new u : calls (tame new) (RevokeByUserID u);
  active_calls new u : calls (tame new) (HasActiveByUserID u);
  expire_calls new : calls (tame new) DeleteExpired;
  get_doomed new fault h t : (∀ s, described new s → ¬ with_hash h s) → doomed (with_hash h) (sessions_at t) →
    swp new fault (GetByRefreshHash h) (λ r _, ∀ s, r = Ok s → ss_Revoked s = true) t;
  family_doomed new fault f t : (∀ s, described new s → ¬ with_family f s) →
    swp new fault (RevokeFamily f) (λ r t', r = Ok tt → doomed (with_family f) (sessions_at t')) t;
  user_doomed new fault u t : (∀ s, described new s → ¬ with_user u s) →
    swp new fault (RevokeByUserID u) (λ r t', r = Ok tt → doomed (with_user u) (sessions_at t')) t;
  active_doomed new fault u t : (∀ s, described new s → ¬ with_user u s) → doomed (with_user u) (sessions_at t) →
    swp new fault (HasActiveByUserID u) (λ r _, ∀ b, r = Ok b → b = false) t;
  get_user_doomed new fault h u t : (∀ s, described new s → ¬ with_user u s) → doomed (with_user u) (sessions_at t) →
    swp new fault (GetByRefreshHash h) (λ r _, ∀ s, r = Ok s → with_user u s → ss_Revoked s = true) t;
  create_users s : calls keeps_users (Create s);
  get_users h : calls keeps_users (GetByRefreshHash h);
  family_users f : calls keeps_users (RevokeFamily f);
  user_users u : calls keeps_users (RevokeByUserID u);
  active_users u : calls keeps_users (HasActiveByUserID u);
}.

(** ** The SQLite rows keep them *)
Lemma older_revoke s : older s (revoke s).
Proof. done. Qed.
Definition session_step new : World → World → Prop := db_rel (on_table sessions_of (ages new)).
Lemma ages_revoke new hit l : ages new l (update_where hit revoke l).
Proof.
  intros s' Hs'. apply update_where_elem in Hs' as (s & Hs & ->). exists s. split; [by left|].
  destruct (hit s); [apply older_revoke|reflexivity].
Qed.
Lemma ages_filter new (hit : AuthSession → bool) l : ages new l (delete_where hit l).
Proof.
  intros s Hs. exists s. split; [left|reflexivity]. unfold delete_where in Hs. by apply list_elem_of_filter in Hs as [_ Hs].
Qed.
Lemma Create_session_ages new s : described new s → preserves (session_step new) (Create_session s).
Proof.
  intros Hn. unfold Create_session, session_step. db_preserve. apply preserves_exec. intros db. unfold on_table, sessions_of. simpl.
  intros s' Hs'. apply elem_of_app in Hs' as [Hs'|Hs']; [exists s'; split; [by left|reflexivity]|].
  apply list_elem_of_singleton in Hs' as ->. eexists (session_row (session_created s _)). split; [by right|reflexivity].
Qed.
Lemma revoke_where_ages new hit : preserves (session_step new) (revoke_where hit).
Proof.
  unfold revoke_where, session_step. db_preserve. apply preserves_exec. intros db. unfold on_table, sessions_of. simpl. apply ages_revoke.
Qed.
Lemma DeleteExpired_ages new : preserves (session_step new) DeleteExpired_session.
Proof.
  unfold DeleteExpired_session, session_step. db_preserve. apply preserves_exec. intros db. unfold on_table, sessions_of. simpl. apply ages_filter.
Qed.
Section here.
Context {T} `{Host T}.
Lemma here_eq {A} (m : SM A) t :
  here m t = ((m (nd_world (node_of t))).1, set_node (put_world (m (nd_world (node_of t))).2 (node_of t)) t).
Proof. unfold here, at_node, on_world. rewrite lift_eq. by rewrite lift_eq. Qed.
Lemma here_sessions {A} (m : SM A) t : sessions_at (here m t).2 = sessions_of (w_db (m (nd_world (node_of t))).2).
Proof. unfold sessions_at. rewrite here_eq. simpl. by rewrite node_of_set. Qed.
Lemma here_tame new {A} (m : SM A) : preserves (session_step new) m → tame (T:=T) new A (here m).
Proof.
  intros Hm t _. split; [done|]. unfold session_rely. rewrite here_sessions. unfold sessions_at.
  apply (Hm _ (m (nd_world (node_of t))).1). by destruct (m _).
Qed.
Lemma once_tame new {A} (m : SM A) : preserves (session_step new) m → calls (tame new) (once (here (T:=T) m)).
Proof. intros Hm. split; [by apply here_tame|done]. Qed.
Lemma here_reads {A} (m : SM A) new : (∀ w, w_db (m w).2 = w_db w) → tame (T:=T) new A (here m).
Proof. intros Hm. apply here_tame. intros w r w' E. unfold session_step, db_rel, on_table. specialize (Hm w). rewrite E in Hm. simpl in Hm. by rewrite Hm. Qed.
Lemma here_users {A} (m : SM A) : preserves (db_rel (on_table users_of eq)) m → keeps_users A (here (T:=T) m).
Proof.
  intros Hm t. unfold users_at. rewrite here_eq. simpl. rewrite node_of_set. simpl. destruct (m _) as [r w'] eqn:E. by apply (frame _ _ _ _ _ Hm E).
Qed.
Lemma once_users {A} (m : SM A) : preserves (db_rel (on_table users_of eq)) m → calls keeps_users (once (here (T:=T) m)).
Proof. intros Hm. split; [by apply here_users|done]. Qed.
Lemma here_reads_users {A} (m : SM A) : (∀ w, w_db (m w).2 = w_db w) → keeps_users A (here (T:=T) m).
Proof. intros Hm t. unfold users_at. rewrite here_eq. simpl. rewrite node_of_set. simpl. by rewrite Hm. Qed.
(** A program whose last call establishes its postcondition. *)
Lemma once_wp new fault {A} (m : SM A) (Q : res error A → T → Prop) t :
  preserves (session_step new) m →
  (∀ t1, session_rely new t t1 → Q (here m t1).1 (here m t1).2) →
  (∀ r t1 t2, session_rely new t1 t2 → Q r t1 → Q r t2) →
  (∀ e t1, session_rely new t t1 → Q (Err e) t1) →
  swp new fault (once (here m)) Q t.
Proof.
  intros Hm HQ Hst He. apply wp_call; [by apply here_tame|]. intros t1 _ Hr. split.
  - apply wp_Done. intros t2 _ Hr2. eapply Hst; [done|by apply HQ].
  - intros e _. apply wp_Done. intros t2 _ Hr2. apply He. by etransitivity.
Qed.
End here.

Lemma doomed_update hit p l : (∀ s, p s → hit s = true) → lasting p → doomed p (update_where hit revoke l).
Proof.
  intros Hh Hl s Hs Hp. apply update_where_elem in Hs as (y & Hy & ->).
  destruct (hit y) eqn:E; [done|]. specialize (Hh y). rewrite E in Hh. by apply Hh in Hp.
Qed.
Lemma autocommit_Ok {A} (m : SM A) a w w' : autocommit m w = (Ok a, w') → m (attempt w) = (Ok a, w').
Proof.
  intros H. apply run_tx_Ok in H as [_ [H|(w1 & H & _)]]; apply bind_Ok in H as (b & w2 & Hm & H); apply ret_Ok in H as [H E];
    [injection H as <-; by subst|discriminate].
Qed.
Lemma revoke_where_Ok hit u w w' : revoke_where hit w = (Ok u, w') → sessions_of (w_db w') = update_where hit revoke (sessions_of (w_db w)).
Proof. unfold revoke_where. intros H. apply autocommit_Ok in H. by dinv. Qed.
(** The statements of the session rows leave the user rows alone. *)
Lemma revoke_where_users hit : preserves (db_rel (on_table users_of eq)) (revoke_where hit).
Proof. unfold revoke_where. db_preserve. Qed.
Lemma Create_session_users s : preserves (db_rel (on_table users_of eq)) (Create_session s).
Proof. unfold Create_session. db_preserve. Qed.
Lemma lookup_same h (w : World) : w_db (GetByRefreshHash_session h w).2 = w_db w.
Proof. unfold GetByRefreshHash_session, query, bind, gets. simpl. by destruct (session_of_hash h _). Qed.
Section doomed.
Context {T} `{Host T}.
Lemma rely_doomed new p (t t' : T) :
  lasting p → (∀ s, described new s → ¬ p s) → session_rely new t t' → doomed p (sessions_at t) → doomed p (sessions_at t').
Proof. intros Hl Hn Hr. by apply (doomed_ages p new). Qed.
Lemma revoked_after new fault hit p (Q : res error unit → T → Prop) t :
  (∀ s, p s → hit s = true) → lasting p → (∀ s, described new s → ¬ p s) →
  swp new fault (once (here (T:=T) (revoke_where hit))) (λ r t', r = Ok tt → doomed p (sessions_at t')) t.
Proof.
  intros Hh Hl Hn. apply once_wp; [apply revoke_where_ages| | |done].
  - intros t1 _ E. rewrite here_sessions. rewrite here_eq in E. simpl in E.
    destruct (revoke_where hit _) as [r w'] eqn:Er. simpl in *. subst r. apply revoke_where_Ok in Er. rewrite Er. by apply doomed_update.
  - intros r t1 t2 Hr HQ E. eapply rely_doomed; [done|done|exact Hr|by apply HQ].
Qed.
(** What a lookup finds, and what it means for a doomed token. *)
Lemma find_hash_doomed h db s : doomed (with_hash h) (sessions_of db) → session_of_hash h db = Some s → ss_Revoked s = true.
Proof.
  intros Hd Hf. unfold session_of_hash in Hf. apply find_row_Some in Hf as [Hin Hh]. apply Hd; [done|].
  unfold with_hash. unfold has_hash in Hh. by apply bool_decide_eq_true in Hh.
Qed.
Lemma lookup_user_doomed h u (t : T) s :
  doomed (with_user u) (sessions_at t) → (here (GetByRefreshHash_session h) t).1 = Ok s → with_user u s → ss_Revoked s = true.
Proof.
  intros Hd. rewrite here_eq. unfold GetByRefreshHash_session, query, bind, gets. simpl.
  destruct (session_of_hash h _) as [r|] eqn:E; simpl; [|done]. intros [= <-]. apply find_row_Some in E as [Hin _]. by apply Hd.
Qed.
Lemma lookup_doomed h (t : T) s :
  doomed (with_hash h) (sessions_at t) → (here (GetByRefreshHash_session h) t).1 = Ok s → ss_Revoked s = true.
Proof.
  intros Hd. rewrite here_eq. unfold GetByRefreshHash_session, query, bind, gets. simpl.
  destruct (session_of_hash h _) as [r|] eqn:E; simpl; [|done]. intros [= <-]. by eapply find_hash_doomed.
Qed.
Lemma inactive_doomed u (t : T) b :
  doomed (with_user u) (sessions_at t) → (here (HasActiveByUserID_session u) t).1 = Ok b → b = false.
Proof.
  intros Hd. rewrite here_eq. unfold HasActiveByUserID_session, bind, query, gets, now. simpl. intros [= <-].
  apply existsb_false_forall, Forall_forall. intros s Hs. unfold of_user. case_bool_decide as Hu; [|done].
  unfold live_at. by rewrite (Hd s Hs Hu).
Qed.
Lemma lookup_reads h (t : T) : sessions_at (here (GetByRefreshHash_session h) t).2 = sessions_at t.
Proof.
  rewrite here_sessions. unfold GetByRefreshHash_session, query, bind, gets. simpl. by destruct (session_of_hash _ _).
Qed.
End doomed.

#[export] Instance sqlite_session_laws : SessionStoreLaws Node.
Proof.
  assert (Hreads : ∀ new h, preserves (session_step new) (GetByRefreshHash_session h)).
  { intros new h. unfold GetByRefreshHash_session, session_step. db_preserve. }
  split.
  - intros new s Hs. apply once_tame. by apply Create_session_ages.
  - intros new h. by apply once_tame.
  - intros new f. apply once_tame, revoke_where_ages.
  - intros new u. apply once_tame, revoke_where_ages.
  - intros new u. apply once_tame. unfold HasActiveByUserID_session, session_step. db_preserve.
  - intros new. apply once_tame, DeleteExpired_ages.
  - intros new fault h t Hn Hd. apply once_wp; [done| |done|done].
    intros t1 Hr s. apply lookup_doomed. by eapply rely_doomed; [apply lasting_hash| | |].
  - intros new fault f t Hn. apply (revoked_after new fault (in_family f) (with_family f) (λ _ _, True)); [|apply lasting_family|done].
    intros s Hs. by apply bool_decide_eq_true.
  - intros new fault u t Hn. apply (revoked_after new fault (of_user u) (with_user u) (λ _ _, True)); [|apply lasting_user|done].
    intros s Hs. by apply bool_decide_eq_true.
  - intros new fault u t Hn Hd. apply once_wp; [unfold HasActiveByUserID_session, session_step; db_preserve| |done|done].
    intros t1 Hr b. apply inactive_doomed. by eapply rely_doomed; [apply lasting_user| | |].
  - intros new fault h u t Hn Hd. apply once_wp; [done| |done|done].
    intros t1 Hr s. apply lookup_user_doomed. by eapply rely_doomed; [apply lasting_user| | |].
  - intros s. apply once_users, Create_session_users.
  - intros h. apply once_users. unfold GetByRefreshHash_session. db_preserve.
  - intros f. apply once_users, revoke_where_users.
  - intros u. apply once_users, revoke_where_users.
  - intros u. apply once_users. unfold HasActiveByUserID_session. db_preserve.
Qed.

(** ** The Redis adapter keeps them, whatever Redis answers *)
(** [ends]: a program that is over, with an answer its postcondition says nothing about. *)
Ltac ends := solve [apply wp_Done; intros ? _ _; cbv beta; intros; simplify_eq; done].
Section redis_laws.
Context {X : Type} (redis : Redis X).
Abbreviation T := (Node * X)%type.
(** Every call of the adapter goes to Redis, reads, or is a statement of the rows. *)
Section adapter_calls.
Variable P : ∀ B, M T error B → Prop.
Hypothesis P_redis : ∀ A (m : M X error A), P A (on_redis m).
Hypothesis P_reads : ∀ A (m : SM A), (∀ w, w_db (m w).2 = w_db w) → P A (here m).
Hypothesis P_revoke : ∀ hit, P unit (here (revoke_where hit)).
Lemma cacheSession_calls s : calls P (cacheSession redis s).
Proof.
  split; [by apply P_reads|]. intros [t|e]; [|done]. cbn beta match zeta. destruct (_ <=? 0); [done|]. split; [apply P_redis|]. by intros [].
Qed.
Lemma blacklist_commands_calls ss cmds : calls P (blacklist_commands redis ss cmds).
Proof.
  revert cmds. induction ss as [|s ss IH]; intros cmds; simpl; (split; [apply P_redis || by apply P_reads|]); intros [t|e]; done.
Qed.
Lemma blacklistSessions_calls ss : calls P (blacklistSessions redis ss).
Proof. destruct ss; [done|apply blacklist_commands_calls]. Qed.
Lemma then_calls {A B} (p : svc T error (res error A)) (k : A → svc T error (res error B)) :
  calls P p → (∀ a, calls P (k a)) → calls P (then_ p k).
Proof. intros Hp Hk. apply calls_bind; [done|]. intros [a|e]; [apply Hk|done]. Qed.
Lemma lookup_call h : P AuthSession (here (GetByRefreshHash_session h)).
Proof. apply P_reads, lookup_same. Qed.
Lemma readCachedSession_calls h : calls P (readCachedSession redis h).
Proof.
  split; [apply P_redis|]. intros [[payload|]|e]; [|done|done]. cbn beta match zeta. destruct (decodeSession payload) as [cached|]; [|done].
  split; [apply lookup_call|]. intros [s|e]; [|done]. cbn beta match zeta.
  destruct (ss_Revoked s); [|destruct (sameCachedSession _ _); [done|]]; (apply then_calls; [|done]).
  - exact (blacklistSessions_calls [s]).
  - apply cacheSession_calls.
Qed.
Lemma GetByRefreshHash_calls h : calls P (GetByRefreshHash_cached redis h).
Proof.
  split; [apply P_redis|]. intros [[payload|]|e]; [| |done]; cbn beta match zeta.
  - by destruct (decodeBlacklisted payload) as [[]|].
  - apply then_calls; [apply readCachedSession_calls|]. intros [s|]; [done|]. split; [apply lookup_call|]. intros [s|e]; [|done]. cbn beta match zeta.
    destruct (ss_Revoked s); (apply then_calls; [|done]); [exact (blacklistSessions_calls [s])|apply cacheSession_calls].
Qed.
Lemma RevokeFamily_calls f : calls P (RevokeFamily_cached redis f).
Proof.
  split; [by apply P_reads|]. intros [ss|e]; [|done]. split; [apply P_revoke|]. intros [u|e]; [|done]. apply blacklistSessions_calls.
Qed.
Lemma blacklist_hashes_calls hs ss : calls P (blacklist_hashes redis hs ss).
Proof.
  revert ss. induction hs as [|h hs IH]; intros ss; simpl; [apply blacklistSessions_calls|]. split; [by apply P_reads|].
  intros [[s|]|e]; [apply IH|apply IH|done].
Qed.
Lemma RevokeByUserID_calls u : calls P (RevokeByUserID_cached redis u).
Proof.
  split; [apply P_revoke|]. intros [[]|e]; [|done]. split; [apply P_redis|]. intros [hs|e]; [|done]. apply blacklist_hashes_calls.
Qed.
Lemma Create_cached_calls s : P AuthSession (here (Create_session s)) → calls P (Create_cached redis s).
Proof.
  intros Hs. split; [done|]. intros [s'|e]; [|done]. cbn beta match zeta. apply calls_bind.
  - destruct (ss_Revoked s'); [exact (blacklistSessions_calls [s'])|apply cacheSession_calls].
  - intros [u|e]; [done|]. split; [apply P_revoke|]. by intros [].
Qed.
End adapter_calls.
Lemma on_redis_tame new {A} (m : M X error A) : tame (T:=T) new A (on_redis m).
Proof. intros t _. split; [done|]. unfold session_rely, sessions_at, on_redis. rewrite lift_eq. simpl. reflexivity. Qed.
Lemma on_redis_users {A} (m : M X error A) : keeps_users (T:=T) A (on_redis m).
Proof. intros t. unfold users_at, on_redis. by rewrite lift_eq. Qed.
Lemma reads_tame new {A} (m : SM A) : (∀ w, w_db (m w).2 = w_db w) → tame (T:=T) new A (here m).
Proof. intros Hm. by apply here_reads. Qed.
Lemma lookup_tame new h : tame (T:=T) new AuthSession (here (GetByRefreshHash_session h)).
Proof. apply reads_tame, lookup_same. Qed.
Lemma revoke_tame new hit : tame (T:=T) new unit (here (revoke_where hit)).
Proof. apply here_tame, revoke_where_ages. Qed.
Lemma revoke_users hit : keeps_users (T:=T) unit (here (revoke_where hit)).
Proof. apply here_users, revoke_where_users. Qed.
#[local] Hint Resolve on_redis_tame on_redis_users reads_tame here_reads_users revoke_tame revoke_users : sessions.
Lemma swp_read new fault {A} {B} (m : M T error B) (k : res error B → svc T error A) Q t :
  tame new B m → (∀ t1, session_rely new t t1 → swp new fault (k (m t1).1) Q (m t1).2 ∧ ∀ e, swp new fault (k (Err e)) Q t1) →
  swp new fault (Call m k) Q t.
Proof. intros Hm H. apply wp_call; [done|]. intros t1 _ Hr. destruct (H t1 Hr). by split. Qed.
(** After a lookup that is already revoked, the rest cannot change the answer. *)
Lemma swp_any new fault {A} (p : svc T error A) (Q : A → T → Prop) t : calls (tame new) p → (∀ a t1, Q a t1) → swp new fault p Q t.
Proof. intros Hp HQ. apply wp_calls; [apply _| |done]. by intros. Qed.
Lemma then_wp new fault {A B} (p : svc T error (res error A)) (k : A → svc T error (res error B)) (Q : res error B → T → Prop) t :
  swp new fault p (λ r t1, match r with Ok a => swp new fault (k a) Q t1 | Err e => ∀ t2, Q (Err e) t2 end) t →
  swp new fault (then_ p k) Q t.
Proof. intros H. apply wp_bind; [apply _|]. eapply wp_mono; [apply _| |exact H]. intros [a|e] t1 _ _; [done|]. intros HQ. apply wp_Done. intros t2 _ _. apply HQ. Qed.
Lemma then_final new fault {A} (p : svc T error (res error unit)) (a : A) (Q : res error A → T → Prop) t :
  calls (tame new) p → (∀ t1, Q (Ok a) t1) → (∀ e t1, Q (Err e) t1) → swp new fault (then_ p (λ _, Done (Ok a))) Q t.
Proof. intros Hp Ha He. apply then_wp, swp_any; [done|]. intros [u|e] t1; [apply wp_Done; intros t2 _ _; apply Ha|apply He]. Qed.
(** Rows with the property [p] are all revoked; [suspect] sessions are to be refused. *)
Section refused.
Context (new : string → string → string → Prop) (fault : error → Prop) (h : string) (p suspect : AuthSession → Prop).
Context (Hlasting : lasting p) (Hnew : ∀ s, described new s → ¬ p s).
Context (Hlookup : ∀ (t : T) s, doomed p (sessions_at t) → (here (GetByRefreshHash_session h) t).1 = Ok s → suspect s → ss_Revoked s = true).
Abbreviation answer := (λ (r : res error AuthSession) (_ : T), ∀ s, r = Ok s → suspect s → ss_Revoked s = true).
Lemma found_refused t :
  doomed p (sessions_at t) → swp new fault (readCachedSession redis h) (λ r _, ∀ s, r = Ok (Some s) → suspect s → ss_Revoked s = true) t.
Proof using Hlasting Hnew Hlookup.
  intros Hd. apply swp_read; [apply on_redis_tame|]. intros t1 Hr1. split; [|by intros e; ends].
  destruct (on_redis _ t1).1 as [[payload|]|e]; [|ends|ends].
  cbn beta match zeta. destruct (decodeSession payload) as [cached|]; [|ends].
  apply swp_read; [apply lookup_tame|]. intros t2 Hr2. split; [|by intros e; ends].
  assert (Hd2 : doomed p (sessions_at t2)).
  { eapply rely_doomed; [exact Hlasting|exact Hnew| |exact Hd].
    etransitivity; [exact Hr1|]. etransitivity; [|exact Hr2]. by apply on_redis_tame. }
  destruct (here (GetByRefreshHash_session h) t2).1 as [s|e] eqn:E; [|ends].
  assert (Hs := Hlookup t2 s Hd2 E). cbn beta match zeta. destruct (ss_Revoked s) eqn:Er; [|destruct (sameCachedSession _ _)].
  - apply then_final; [apply (blacklistSessions_calls _) with (ss := [s]); auto with sessions| |done]. by intros _ s' [= <-].
  - apply wp_Done. by intros _ _ _ s' [= <-] ?%Hs.
  - apply then_final; [apply cacheSession_calls; auto with sessions| |done]. by intros _ s' [= <-] ?%Hs.
Qed.
Lemma GetByRefreshHash_refused t : doomed p (sessions_at t) → swp new fault (GetByRefreshHash_cached redis h) answer t.
Proof using Hlasting Hnew Hlookup.
  intros Hd. apply swp_read; [apply on_redis_tame|]. intros t1 Hr1. split; [|by intros e; ends].
  assert (Hd1 : ∀ t2, session_rely new (on_redis (redis_Get redis (blacklistKey h)) t1).2 t2 → doomed p (sessions_at t2)).
  { intros t2 Hr2. eapply rely_doomed; [exact Hlasting|exact Hnew| |exact Hd]. etransitivity; [exact Hr1|].
    etransitivity; [|exact Hr2]. by apply on_redis_tame. }
  destruct (on_redis _ t1).1 as [[payload|]|e]; cbn beta match zeta; [| |ends].
  - destruct (decodeBlacklisted payload) as [[user family]|]; apply wp_Done; [|done]. by intros _ _ _ s [= <-].
  - apply then_wp. eapply wp_mono; [apply _| |apply found_refused; by apply Hd1]. intros [[s|]|e] t2 _ Hr2 Hs; [| |done].
    + apply wp_Done. intros _ _ _ s' [= <-]. by apply Hs.
    + apply swp_read; [apply lookup_tame|]. intros t3 Hr3. split; [|by intros e; ends].
      assert (Hd3 : doomed p (sessions_at t3)) by (apply Hd1; by etransitivity).
      destruct (here (GetByRefreshHash_session h) t3).1 as [s|e] eqn:E; [|ends].
      assert (Hrs := Hlookup t3 s Hd3 E). cbn beta match zeta. destruct (ss_Revoked s) eqn:Er.
      * apply then_final; [apply (blacklistSessions_calls _) with (ss := [s]); auto with sessions| |done]. by intros _ s' [= <-].
      * apply then_final; [apply cacheSession_calls; auto with sessions| |done]. by intros _ s' [= <-] ?%Hrs.
Qed.
End refused.
Lemma revoking_wp new fault hit p (k : res error unit → svc T error (res error unit)) t :
  (∀ s, p s → hit s = true) → lasting p → (∀ s, described new s → ¬ p s) →
  (∀ e, ∃ e', k (Err e) = Done (Err e')) → calls (tame new) (k (Ok tt)) →
  swp new fault (Call (here (revoke_where hit)) k) (λ r t', r = Ok tt → doomed p (sessions_at t')) t.
Proof.
  intros Hh Hl Hn Hke Hk. apply swp_read; [apply revoke_tame|]. intros t1 Hr1.
  assert (Hk' : ∀ e t2, swp new fault (k (Err e)) (λ r t', r = Ok tt → doomed p (sessions_at t')) t2).
  { intros e t2. destruct (Hke e) as [e' ->]. ends. }
  split; [|intros e; apply Hk'].
  destruct (here (revoke_where hit) t1).1 as [[]|e] eqn:E; [|apply Hk'].
  assert (Hd : doomed p (sessions_at (here (revoke_where hit) t1).2)).
  { rewrite here_sessions. rewrite here_eq in E. simpl in E. destruct (revoke_where hit _) as [r w'] eqn:Er. simpl in *. subst r.
    apply revoke_where_Ok in Er. rewrite Er. by apply doomed_update. }
  apply wp_calls; [apply _| |done]. intros r t2 _ Hr2 _. by eapply rely_doomed.
Qed.
#[export] Instance redis_session_laws : @SessionStoreLaws T cached_host (redis_sessions redis).
Proof.
  split.
  - intros new s Hs. apply Create_cached_calls; auto with sessions. by apply here_tame, Create_session_ages.
  - intros new h. apply GetByRefreshHash_calls; auto with sessions.
  - intros new f. apply RevokeFamily_calls; auto with sessions.
  - intros new u. apply RevokeByUserID_calls; auto with sessions.
  - intros new u. apply once_tame. unfold HasActiveByUserID_session, session_step. db_preserve.
  - intros new. apply once_tame, DeleteExpired_ages.
  - intros new fault h t Hn Hd. eapply wp_mono; [apply _| |apply (GetByRefreshHash_refused _ _ _ (with_hash h) (λ _, True))]; [|apply lasting_hash|done| |done].
    + intros r t1 _ _ Hr s E. by apply Hr.
    + intros t1 s Hd1 E _. by eapply lookup_doomed.
  - intros new fault f t Hn. apply swp_read; [by apply here_reads|]. intros t1 Hr1. split; [|by intros e; ends].
    destruct (here (GetByTokenFamily_session f) t1).1 as [ss|e]; [|ends].
    apply revoking_wp; [|apply lasting_family|done|by eexists|apply blacklistSessions_calls; auto with sessions].
    intros s Hs. by apply bool_decide_eq_true.
  - intros new fault u t Hn. apply revoking_wp; [|apply lasting_user|done|by eexists|].
    + intros s Hs. by apply bool_decide_eq_true.
    + split; [apply on_redis_tame|]. intros [hs|e]; [apply blacklist_hashes_calls; auto with sessions|done].
  - intros new fault u t Hn Hd. apply once_wp; [unfold HasActiveByUserID_session, session_step; db_preserve| |done|done].
    intros t1 Hr b. apply inactive_doomed. by eapply rely_doomed; [apply lasting_user| | |].
  - intros new fault h u t Hn Hd. apply (GetByRefreshHash_refused _ _ _ (with_user u) (with_user u)); [apply lasting_user|done| |done].
    intros t1 s. apply lookup_user_doomed.
  - intros s. apply Create_cached_calls; auto with sessions. apply here_users, Create_session_users.
  - intros h. apply GetByRefreshHash_calls; auto with sessions.
  - intros f. apply RevokeFamily_calls; auto with sessions.
  - intros u. apply RevokeByUserID_calls; auto with sessions.
  - intros u. apply once_users. unfold HasActiveByUserID_session. db_preserve.
Qed.
End redis_laws.
