(* ===== verification/Authn.v ===== *)
(** * Authentication
    (internal/auth: interceptor.go, jwt.go, service.go, browser_session.go,
    local_users.go, password.go, session_cleanup.go and store/sqlite/users.go)

    The interceptor every RPC passes, and the service that issues, rotates and
    revokes sessions, as programs of store calls over any session store that keeps
    [SessionStoreLaws].  The JWT library and bcrypt are parameters; random texts
    (refresh tokens, identifiers, salts) are drawn from the identifier stream. *)
From stdpp Require Import pretty.
From S2P Require Import Prelude Utf8 Json Hash RateLimit Domain Database Program AuthStore Policy ProcedurePolicy Sessions.
#[local] Open Scope Z_scope.

(** ** Requests *)
Record Header := {
  hd_Authorization : string; hd_cookies : list (string * string); hd_csrf : string; hd_Origin : string;
  hd_SecFetchMode : string; hd_IdempotencyKey : string;
}.
Definition AccessCookieName : string := "rm_access".
Definition RefreshCookieName : string := "rm_refresh".
Definition CSRFCookieName : string := "rm_csrf".
(** The first cookie of that name. *)
Definition cookieValue (h : Header) (name : string) : string :=
  match find_row (λ c, bool_decide (c.1 = name)) (hd_cookies h) with Some c => c.2 | None => "" end.
Definition extractToken (authHeader : string) : string :=
  if String.prefix "Bearer " authHeader then String.substring 7 (String.length authHeader - 7) authHeader else "".
(** The credential and whether it came from the cookie. *)
Definition resolveRequestToken (h : Header) : string * bool :=
  if negb (bool_decide (extractToken (hd_Authorization h) = "")) then (extractToken (hd_Authorization h), false)
  else if negb (bool_decide (cookieValue h AccessCookieName = "")) then (cookieValue h AccessCookieName, true)
  else ("", false).
Definition csrf_ok (h : Header) : bool :=
  negb (bool_decide (cookieValue h CSRFCookieName = "")) && negb (bool_decide (hd_csrf h = ""))
  && bool_decide (cookieValue h CSRFCookieName = hd_csrf h).
(** The string fields of the request message the interceptor looks at; an absent
    field is [""]. *)
Record Request := {
  rq_procedure : string; rq_header : Header; rq_org_id : string; rq_customer_id : string; rq_binding_id : string;
}.
(** authctx.Actor *)
Record authctx_Actor := { ax_UserID : string; ax_OrganizationID : string; ax_Roles : list string; ax_Service : string }.

Definition denial_reason (d : denial) : string :=
  match d with
  | PermissionDenied => "permission_denied" | PolicyUnavailable => "policy_unavailable"
  | DomainBindingMissing => "domain_binding_missing" | InvalidActorContext => "invalid_actor_context"
  end.
Definition authorizationConnectError (d : denial) (policyVersion : Z) : connect_error :=
  {| ce_code := match d with PolicyUnavailable => CodeUnavailable | _ => CodePermissionDenied end;
     ce_message := denial_reason d;
     ce_meta := [("X-Reason-Code", denial_reason d); ("X-Policy-Version", pretty policyVersion)] |}.
Definition resolveDomain (requestOrgID tokenOrgID : string) (targetOrg : bool) : res denial string :=
  if negb (bool_decide (requestOrgID = "")) then
    if negb (bool_decide (tokenOrgID = "")) && negb (bool_decide (tokenOrgID = requestOrgID)) && negb targetOrg
    then Err PermissionDenied else Ok requestOrgID
  else if bool_decide (tokenOrgID = "") then Err InvalidActorContext else Ok tokenOrgID.
Definition contains_text (needle s : string) : bool :=
  existsb (λ n, String.prefix needle (String.substring n (String.length s - n) s)) (seq 0 (S (String.length s))).
Definition has_suffix (suffix s : string) : bool :=
  (String.length suffix <=? String.length s)%nat
  && bool_decide (String.substring (String.length s - String.length suffix) (String.length suffix) s = suffix).

(** ** Tokens (jwt.go) *)
Record Claims := { cl_UserID : string; cl_Roles : list string; cl_OrgID : string; cl_ID : string; cl_IssuedAt : time; cl_ExpiresAt : time }.
Record JWT := {
  ValidateAccessToken_at : string → time → option Claims;   (* the library, at a clock reading *)
  SignedString : Claims → string;
}.
Record AuthConfig := {
  af_privateKey : bool; af_accessTTL : Z; af_refreshTTL : Z; af_browserEnabled : bool;
}.
Definition hashToken (raw : string) : string := base64_EncodeToString (Sum256 (byte_values raw)).
Definition newID : SM string := new_uuid.
Definition random_text : SM string := new_uuid.

Section service.
Context {T : Type} `{SessionStore T}.
Context (jwt : JWT) (cfg : AuthConfig) (bcrypt_hash : string → string → option string) (VerifyPassword : string → string → bool).
Context (casbin_Enforce : list CasbinRule → string → string → string → string → option bool).
Abbreviation tsvc := (svc T error).
Abbreviation rpc A := (tsvc (res connect_error A)).
(** [p] of the node's programs, run in the larger state. *)
Definition in_node {A} (p : nsvc A) : tsvc A := svc_lift node_of set_node p.
Definition internal {A} (message : string) (_ : error) : rpc A := refuse CodeInternal message.
Definition mapStoreError {A} (fallback : string) (e : error) : rpc A :=
  if bool_decide (e = ErrUnavailable) then refuse CodeUnavailable "verification_unavailable" else refuse CodeInternal fallback.
(** [v, err := p; if err != nil { f err }; k] for a call that is itself a program. *)
Definition try {A B} (p : tsvc (res error A)) (f : error → rpc B) (k : A → rpc B) : rpc B :=
  svc_bind p (λ r, match r with Ok a => k a | Err e => f e end).
Definition and_then {A B} (p : rpc A) (k : A → rpc B) : rpc B :=
  svc_bind p (λ r, match r with Ok a => k a | Err e => Done (Err e) end).
Definition ValidateAccessToken (token : string) : SM (option Claims) :=
  let! t := now in ret (ValidateAccessToken_at jwt token t).
Definition GenerateAccessToken (userID orgID : string) (roles : list string) : SM (string * time) :=
  if negb (af_privateKey cfg) then throw (ErrOther "no Ed25519 private key configured")
  else
    let! t := now in
    let! jti := newID in
    ret (SignedString jwt {| cl_UserID := userID; cl_Roles := roles; cl_OrgID := orgID; cl_ID := jti; cl_IssuedAt := rfc3339 t;
                             cl_ExpiresAt := rfc3339 (t + af_accessTTL cfg) |}, t + af_accessTTL cfg).
Definition generateRefreshToken : SM (string * string) := let! raw := random_text in ret (raw, hashToken raw).
Definition GenerateRefreshToken : SM (string * string * string) :=
  let! token := generateRefreshToken in let! family := newID in ret (token.1, family, token.2).

(** ** The interceptor *)
Definition deny {A} (d : denial) : rpc A :=
  let* version := at_node PolicyVersion_of fails internal "policy version" in Done (Err (authorizationConnectError d version)).
Definition enforceRequestBinding (rq : Request) (domain : string) : T → res error (option denial) * T :=
  if contains_text "BindingService" (rq_procedure rq) && has_suffix "/CreateBinding" (rq_procedure rq) then ret None
  else if negb (bool_decide (rq_customer_id rq = "")) then at_node (CheckBinding domain (rq_customer_id rq))
  else if negb (bool_decide (rq_binding_id rq = "")) then at_node (CheckBindingID domain (rq_binding_id rq))
  else ret None.
Definition session_check (claims : Claims) (domain : string) : rpc authctx_Actor :=
  let* user := here (Get_user (cl_UserID claims)) fails (λ _, refuse CodeUnauthenticated "session revoked") in
  if negb (bool_decide (us_Status user = UserActive)) then refuse CodeUnauthenticated "session revoked"
  else
    try (HasActiveByUserID (cl_UserID claims)) (internal "session validation failed") (λ active,
      if negb active then refuse CodeUnauthenticated "session revoked"
      else Done (Ok {| ax_UserID := cl_UserID claims; ax_OrganizationID := domain; ax_Roles := cl_Roles claims; ax_Service := "" |})).
(** NewAuthInterceptor: [None] for a public procedure, else the actor of the request. *)
Definition intercept (publicMethods : list string) (rq : Request) : rpc (option (authctx_Actor * string)) :=
  if bool_decide (rq_procedure rq ∈ publicMethods) then Done (Ok None)
  else
    let (token, fromCookie) := resolveRequestToken (rq_header rq) in
    if bool_decide (token = "") then refuse CodeUnauthenticated "missing authentication credentials"
    else
      let* claims := here (ValidateAccessToken token) fails (λ _, refuse CodeUnauthenticated "invalid token") in
      match claims with
      | None => refuse CodeUnauthenticated "invalid token"
      | Some claims =>
          let policy := lookupProcedure (rq_procedure rq) in
          match resolveDomain (rq_org_id rq) (cl_OrgID claims) (match policy with Some p => pp_targetOrg p | None => false end) with
          | Err d => deny d
          | Ok domain =>
              match policy with
              | None => deny InvalidActorContext
              | Some p =>
                  if fromCookie && negb (bool_decide (pp_action p = "read")) && negb (csrf_ok (rq_header rq))
                  then refuse CodePermissionDenied "csrf token mismatch"
                  else
                    let* bound := enforceRequestBinding rq domain fails internal "binding" in
                    match bound with
                    | Some d => deny d
                    | None =>
                        let checked := and_then (session_check claims domain) (λ actor, Done (Ok (Some (actor, token)))) in
                        if bool_decide (pp_mode p = modeCasbin) then
                          let* d := at_node (Enforce casbin_Enforce (cl_UserID claims) domain (pp_object p) (pp_action p))
                          fails internal "enforce" in
                          match d with Some d => deny d | None => checked end
                        else checked
                    end
              end
          end
      end.

(** ** Users (store/sqlite/users.go) *)
Definition find_user (p : User → bool) (db : DB) : option User := find_row p (map_to_list (at_users (db_auth db))).*2.
Definition GetByUsername (username : string) : SM User :=
  let! row := query (find_user (λ u, bool_decide (us_Username u = username))) in scan_row row.
Definition GetByProviderSubject (provider subject : string) : SM User :=
  let! row := query (find_user (λ u, bool_decide (us_Provider u = provider) && bool_decide (us_Subject u = subject))) in scan_row row.
Definition updated_user (u : User) (now : time) (r : User) : User :=
  {| us_ID := us_ID r; us_Username := us_Username r; us_PasswordHash := us_PasswordHash u; us_Provider := us_Provider r;
     us_Subject := us_Subject r; us_Status := us_Status u; us_CreatedAt := us_CreatedAt r; us_UpdatedAt := now |}.
(** Disabling a user revokes the user's sessions in the same transaction. *)
Definition Update_user (u : User) : SM unit :=
  let! t := now in
  run_tx (commit (
    exec (on_auth (λ a, set_users (alter (updated_user u (rfc3339 t)) (us_ID u) (at_users a)) a)) ;!
    when (bool_decide (us_Status u = UserDisabled))
      (exec (on_auth (λ a, set_sessions (update_where (of_user (us_ID u)) revoke (at_sessions a)) a))))).
(** Count("") *)
Definition Count_users : SM Z := query (λ db, Z.of_nat (size (at_users (db_auth db)))).

(** ** Sessions (service.go, browser_session.go) *)
Record SessionUser := { su_ID : string; su_Username : string; su_Roles : list string; su_ActiveOrgID : string }.
Abbreviation OrgView := (string * string * OrganizationStatus)%type.
Record SessionResponse := {
  sr_User : option SessionUser; sr_Organizations : list OrgView; sr_AccessToken : string; sr_RefreshToken : string;
  sr_ExpiresAt : Z; sr_TokenType : string; sr_cookies : list (string * string * time);
}.
Definition bearer_response (access refresh : string) (expires : time) : SessionResponse :=
  {| sr_User := None; sr_Organizations := []; sr_AccessToken := access; sr_RefreshToken := refresh;
     sr_ExpiresAt := seconds expires; sr_TokenType := "Bearer"; sr_cookies := [] |}.
Definition org_view (o : Organization) : OrgView := (or_ID o, or_Name o, or_Status o).
Definition limit (key : string) : T → res error bool * T :=
  at_node (let! t := on_world now in λ n, let (ok, r) := Allow key t (nd_limiter n) in (Ok ok, put_limiter r n)).
Fixpoint unique (seen l : list string) : list string :=
  match l with [] => [] | x :: l => if bool_decide (x ∈ seen) then unique seen l else x :: unique (x :: seen) l end.
Definition membershipProjection (members : list OrganizationMember) : string * list string :=
  match members with
  | [] => ("", [])
  | m :: _ => (om_OrgID m, unique [] ((λ m, role_string (om_Role m)) <$> members))
  end.
(** userAuthorizationContext swallows a read error. *)
Definition userAuthorizationContext {A} (userID : string) (k : string → list string → rpc A) : rpc A :=
  let* members := here (ListByUser_members userID) fails (λ _, k "" []) in
  let (orgID, roles) := membershipProjection members in k orgID roles.
Definition new_session (userID family hash : string) : SM AuthSession :=
  let! id := newID in
  let! t := now in
  ret {| ss_ID := id; ss_UserID := userID; ss_TokenFamily := family; ss_RefreshTokenHash := hash;
         ss_ExpiresAt := t + af_refreshTTL cfg; ss_CreatedAt := 0; ss_Revoked := false |}.
(** The end of Login and of Initialize: a new family. *)
Definition issue_tokens (userID orgID : string) (roles : list string) (k : string → string → time → rpc SessionResponse)
    : rpc SessionResponse :=
  let* access := here (GenerateAccessToken userID orgID roles) fails internal "token generation failed" in
  let* refresh := here GenerateRefreshToken fails internal "token generation failed" in
  let* s := here (new_session userID refresh.1.2 refresh.2) fails internal "clock" in
  try (Create s) (mapStoreError "session creation failed") (λ _, k access.1 refresh.1.1 access.2).

Fixpoint collect_organizations (organizationID : string) (memberships : list OrganizationMember) (roles : list string)
    (orgs : list OrgView) (found : bool) (k : list string → list OrgView → bool → rpc (SessionUser * list OrgView))
    : rpc (SessionUser * list OrgView) :=
  match memberships with
  | [] => k roles orgs found
  | m :: memberships =>
      let here_ := bool_decide (om_OrgID m = organizationID) in
      let roles := if here_ then roles ++ [role_string (om_Role m)] else roles in
      let* o := here (Get_organization (om_OrgID m))
      fails (λ _, collect_organizations organizationID memberships roles orgs (found || here_) k) in
      collect_organizations organizationID memberships roles
        (if bool_decide (or_Status o = OrgActive) then orgs ++ [org_view o] else orgs) (found || here_) k
  end.
Definition sessionPrincipal (user : User) (organizationID : string) : rpc (SessionUser * list OrgView) :=
  let* memberships := here (ListByUser_members (us_ID user)) fails internal "list memberships" in
  collect_organizations organizationID memberships [] [] (bool_decide (organizationID = "")) (λ roles orgs found,
    if negb found then refuse CodePermissionDenied "organization membership is required"
    else Done (Ok ({| su_ID := us_ID user; su_Username := us_Username user; su_Roles := roles; su_ActiveOrgID := organizationID |}, orgs))).
Definition primaryOrganization (userID : string) : rpc string :=
  let* memberships := here (ListByUser_members userID) fails internal "list memberships" in
  match memberships with
  | [] => refuse CodeFailedPrecondition "user has no organization membership"
  | m :: _ => Done (Ok (om_OrgID m))
  end.
Definition browserCaller (h : Header) : bool := negb (bool_decide (hd_Origin h = "")) || negb (bool_decide (hd_SecFetchMode h = "")).
(** issueBrowserSession and the response the browser handlers build from it: a
    browser gets the tokens in cookies only. *)
Definition issueBrowserSession (h : Header) (user : User) (organizationID : string) : rpc SessionResponse :=
  and_then (sessionPrincipal user organizationID) (λ principal,
    let* access := here (GenerateAccessToken (us_ID user) organizationID (su_Roles principal.1)) fails internal "token generation failed" in
    let* refresh := here GenerateRefreshToken fails internal "token generation failed" in
    let* s := here (let! t := now in let! id := newID in
                    ret {| ss_ID := id; ss_UserID := us_ID user; ss_TokenFamily := refresh.1.2; ss_RefreshTokenHash := refresh.2;
                           ss_ExpiresAt := t + af_refreshTTL cfg; ss_CreatedAt := 0; ss_Revoked := false |}) fails internal "clock" in
    try (Create s) (mapStoreError "session creation failed") (λ _,
      let* csrf := here random_text fails internal "session creation failed" in
      Done (Ok {| sr_User := Some principal.1; sr_Organizations := principal.2;
                  sr_AccessToken := if browserCaller h then "" else access.1;
                  sr_RefreshToken := if browserCaller h then "" else refresh.1.1;
                  sr_ExpiresAt := seconds access.2; sr_TokenType := if browserCaller h then "" else "Bearer";
                  sr_cookies := [(AccessCookieName, access.1, access.2); (RefreshCookieName, refresh.1.1, ss_ExpiresAt s);
                                 (CSRFCookieName, csrf, ss_ExpiresAt s)] |}))).
Definition active (u : User) : bool := bool_decide (us_Status u = UserActive).
Definition bad_credentials : rpc SessionResponse := refuse CodeUnauthenticated "invalid credentials".
Definition loginBrowserSession (h : Header) (username password : string) : rpc SessionResponse :=
  let* allowed := limit ("login:" ++ username) fails internal "limiter" in
  if negb allowed then refuse CodeResourceExhausted "too many login attempts"
  else
    let* user := here (GetByUsername username) fails (λ _, bad_credentials) in
    if negb (active user) || negb (VerifyPassword (us_PasswordHash user) password) then bad_credentials
    else and_then (primaryOrganization (us_ID user)) (issueBrowserSession h user).
Definition Login (h : Header) (username password : string) : rpc SessionResponse :=
  if af_browserEnabled cfg then loginBrowserSession h username password
  else
    let* allowed := limit ("login:" ++ username) fails internal "limiter" in
    if negb allowed then refuse CodeResourceExhausted "too many login attempts"
    else
      let* user := here (GetByUsername username) fails (λ _, bad_credentials) in
      if negb (active user) then bad_credentials
      else if negb (VerifyPassword (us_PasswordHash user) password) then bad_credentials
      else userAuthorizationContext (us_ID user) (λ orgID roles,
        issue_tokens (us_ID user) orgID roles (λ access refresh expires, Done (Ok (bearer_response access refresh expires)))).

(** The family is revoked on replay, on expiry and for a user that is not active. *)
Definition revoke_refused (family message : string) : rpc AuthSession :=
  svc_bind (RevokeFamily family) (λ r,
    match r with
    | Err ErrUnavailable => refuse CodeUnavailable "verification_unavailable"
    | _ => refuse CodeUnauthenticated message
    end).
Definition refresh_lookup_error (message : string) {A} (e : error) : rpc A :=
  if bool_decide (e = ErrUnavailable) then mapStoreError message e else refuse CodeUnauthenticated message.
Definition refreshSessionForRotation (refreshHash : string) : rpc AuthSession :=
  try (GetByRefreshHash refreshHash) (refresh_lookup_error "invalid refresh token") (λ s,
    if ss_Revoked s then revoke_refused (ss_TokenFamily s) "refresh token has been revoked"
    else
      let* t := here now fails internal "clock" in
      if ss_ExpiresAt s <=? t then revoke_refused (ss_TokenFamily s) "refresh token has expired"
      else
        let* user := here (Get_user (ss_UserID s)) fails (λ _, revoke_refused (ss_TokenFamily s) "invalid refresh token") in
        if active user then Done (Ok s) else revoke_refused (ss_TokenFamily s) "invalid refresh token").
Definition rotate (s : AuthSession) : rpc SessionResponse :=
  try (RevokeFamily (ss_TokenFamily s)) (mapStoreError "token rotation failed") (λ _,
    userAuthorizationContext (ss_UserID s) (λ orgID roles,
      let* access := here (GenerateAccessToken (ss_UserID s) orgID roles) fails internal "token generation failed" in
      let* refresh := here generateRefreshToken fails internal "token generation failed" in
      let* s' := here (new_session (ss_UserID s) (ss_TokenFamily s) refresh.2) fails internal "clock" in
      try (Create s') (mapStoreError "session creation failed") (λ _,
        Done (Ok (bearer_response access.1 refresh.1 access.2))))).
Definition refreshBrowserSession (h : Header) : rpc SessionResponse :=
  if negb (csrf_ok h) then refuse CodePermissionDenied "csrf token mismatch"
  else
    let refreshToken := cookieValue h RefreshCookieName in
    if bool_decide (refreshToken = "") then refuse CodeUnauthenticated "missing refresh cookie"
    else
      try (GetByRefreshHash (hashToken refreshToken)) (refresh_lookup_error "invalid refresh session") (λ s,
        let* t := here now fails internal "clock" in
        if ss_Revoked s || (ss_ExpiresAt s <=? t) then refuse CodeUnauthenticated "invalid refresh session"
        else try (RevokeFamily (ss_TokenFamily s)) (mapStoreError "token rotation failed") (λ _,
          let* user := here (Get_user (ss_UserID s)) fails (λ _, refuse CodeUnauthenticated "user is unavailable") in
          if negb (active user) then refuse CodeUnauthenticated "user is unavailable"
          else and_then (primaryOrganization (us_ID user)) (issueBrowserSession h user))).
Definition RefreshToken (h : Header) (refreshToken : string) : rpc SessionResponse :=
  if af_browserEnabled cfg && negb (bool_decide (cookieValue h RefreshCookieName = "")) then refreshBrowserSession h
  else and_then (refreshSessionForRotation (hashToken refreshToken)) rotate.

(** The message of the request's context: the authenticated user, or [""]. *)
Definition revokeRefreshCookie (h : Header) (k : rpc (list (string * string * time))) : rpc (list (string * string * time)) :=
  let refreshToken := cookieValue h RefreshCookieName in
  if bool_decide (refreshToken = "") then k
  else svc_bind (GetByRefreshHash (hashToken refreshToken)) (λ r,
    match r with
    | Err ErrNotFound => k
    | Err e => mapStoreError "logout failed" e
    | Ok s => try (RevokeFamily (ss_TokenFamily s)) (mapStoreError "logout failed") (λ _, k)
    end).
Definition cleared_cookies : list (string * string * time) :=
  (λ name, (name, "", nsec)) <$> [AccessCookieName; RefreshCookieName; CSRFCookieName].
Definition Logout (h : Header) (userID refreshToken : string) : rpc (list (string * string * time)) :=
  if af_browserEnabled cfg && negb (bool_decide (cookieValue h AccessCookieName = "")) then
    if negb (csrf_ok h) then refuse CodePermissionDenied "csrf token mismatch"
    else revokeRefreshCookie h (Done (Ok cleared_cookies))
  else if negb (bool_decide (refreshToken = "")) then
    svc_bind (GetByRefreshHash (hashToken refreshToken)) (λ r,
      match r with
      | Err ErrNotFound => Done (Ok [])
      | Err e => mapStoreError "logout failed" e
      | Ok s => try (RevokeFamily (ss_TokenFamily s)) (mapStoreError "logout failed") (λ _, Done (Ok []))
      end)
  else if bool_decide (userID = "") then refuse CodeUnauthenticated "user not authenticated"
  else try (RevokeByUserID userID) (mapStoreError "logout failed") (λ _, Done (Ok [])).

Record ValidateTokenResponse := {
  vt_UserID : string; vt_Roles : list string; vt_OrgID : string; vt_User : option SessionUser; vt_ExpiresAt : Z;
}.
Definition validateAccessCookie (h : Header) : rpc Claims :=
  let token := cookieValue h AccessCookieName in
  if bool_decide (token = "") then refuse CodeUnauthenticated "missing access cookie"
  else
    let* claims := here (ValidateAccessToken token) fails internal "clock" in
    match claims with None => refuse CodeUnauthenticated "invalid session" | Some c => Done (Ok c) end.
Definition cookie_user {A} (h : Header) (k : Claims → User → rpc A) : rpc A :=
  and_then (validateAccessCookie h) (λ claims,
    let* user := here (Get_user (cl_UserID claims)) fails (λ _, refuse CodeUnauthenticated "user is unavailable") in
    if negb (active user) then refuse CodeUnauthenticated "user is unavailable" else k claims user).
Definition ValidateToken (h : Header) (token : string) : rpc ValidateTokenResponse :=
  if af_browserEnabled cfg && negb (bool_decide (cookieValue h AccessCookieName = "")) then
    cookie_user h (λ claims user,
      and_then (sessionPrincipal user (cl_OrgID claims)) (λ principal,
        Done (Ok {| vt_UserID := ""; vt_Roles := []; vt_OrgID := ""; vt_User := Some principal.1;
                    vt_ExpiresAt := seconds (cl_ExpiresAt claims) |})))
  else
    let* claims := here (ValidateAccessToken token) fails internal "clock" in
    match claims with
    | None => refuse CodeUnauthenticated "invalid token"
    | Some c => Done (Ok {| vt_UserID := cl_UserID c; vt_Roles := cl_Roles c; vt_OrgID := cl_OrgID c; vt_User := None; vt_ExpiresAt := 0 |})
    end.
Definition SwitchOrganization (h : Header) (userID targetOrgID : string) : rpc SessionResponse :=
  if af_browserEnabled cfg && negb (bool_decide (cookieValue h AccessCookieName = "")) then
    if negb (csrf_ok h) then refuse CodePermissionDenied "csrf token mismatch"
    else cookie_user h (λ _ user, issueBrowserSession h user targetOrgID)
  else if bool_decide (userID = "") then refuse CodeUnauthenticated "user not authenticated"
  else
    let* members := here (ListByUser_members userID) fails internal "failed to list memberships" in
    let roles := unique [] ((λ m, role_string (om_Role m)) <$> members) in
    if negb (existsb (λ m, bool_decide (om_OrgID m = targetOrgID)) members)
    then refuse CodePermissionDenied "not a member of the organization"
    else
      let* user := here (Get_user userID) fails internal "user not found" in
      let* access := here (GenerateAccessToken userID targetOrgID roles) fails internal "token generation failed" in
      let* orgs := here List_organizations fails internal "failed to list organizations" in
      Done (Ok {| sr_User := Some {| su_ID := userID; su_Username := us_Username user; su_Roles := roles; su_ActiveOrgID := targetOrgID |};
                  sr_Organizations := org_view <$> orgs; sr_AccessToken := access.1; sr_RefreshToken := "";
                  sr_ExpiresAt := seconds access.2; sr_TokenType := "Bearer"; sr_cookies := [] |}).
Definition HashPassword (plain : string) : SM string :=
  let! salt := random_text in
  match bcrypt_hash salt plain with Some h => ret h | None => throw (ErrOther "hash password") end.
Definition ChangePassword (userID oldPassword newPassword : string) : rpc unit :=
  if bool_decide (userID = "") then refuse CodeUnauthenticated "user not authenticated"
  else
    let* user := here (Get_user userID) fails internal "user not found" in
    if negb (VerifyPassword (us_PasswordHash user) oldPassword) then refuse CodeUnauthenticated "invalid old password"
    else
      let* newHash := here (HashPassword newPassword) fails internal "password hashing failed" in
      let* _ := here (Update_user {| us_ID := us_ID user; us_Username := us_Username user; us_PasswordHash := newHash;
                                     us_Provider := us_Provider user; us_Subject := us_Subject user; us_Status := us_Status user;
                                     us_CreatedAt := us_CreatedAt user; us_UpdatedAt := us_UpdatedAt user |})
      fails internal "update password failed" in
      try (RevokeByUserID userID) (mapStoreError "revoke sessions failed") (λ _, Done (Ok tt)).

(** ** Bootstrap and local users *)
Definition refreshPolicies {A} (k : rpc A) : rpc A :=
  svc_bind (in_node RefreshPolicies) (λ r,
    match r with Ok _ => k | Err _ => refuse CodeUnavailable "refresh authorization policy" end).
Definition GetInitStatus : rpc bool :=
  let* count := here Count_users fails internal "failed to check init status" in Done (Ok (0 <? count)).
Definition bare_organization (id name : string) (status : OrganizationStatus) : Organization :=
  {| or_ID := id; or_Name := name; or_Status := status; or_OptimisticVersion := 0; or_CreatedAt := 0; or_UpdatedAt := 0 |}.
Definition bare_member (orgID userID : string) (role : Role) : OrganizationMember :=
  {| om_OrgID := orgID; om_UserID := userID; om_Role := role; om_OptimisticVersion := 0; om_CreatedAt := 0; om_UpdatedAt := 0 |}.
Definition bare_user (id username hash provider subject : string) (status : UserStatus) : User :=
  {| us_ID := id; us_Username := username; us_PasswordHash := hash; us_Provider := provider; us_Subject := subject;
     us_Status := status; us_CreatedAt := 0; us_UpdatedAt := 0 |}.
Definition Initialize (h : Header) (organizationName username password : string) : rpc SessionResponse :=
  let* count := here Count_users fails internal "failed to check init status" in
  if 0 <? count then refuse CodeAlreadyExists "system already initialized"
  else
    let* orgID := here newID fails internal "id" in
    let* _ := here (Create_organization (bare_organization orgID organizationName OrgActive)) fails internal "failed to create organization" in
    let* hash := here (HashPassword password) fails internal "failed to hash password" in
    let* userID := here newID fails internal "id" in
    let* user := here (Create_user (bare_user userID username hash "" "" UserActive)) fails internal "failed to create user" in
    let* _ := here (Create_member (bare_member orgID userID RolePlatformAdmin)) fails internal "failed to add member" in
    refreshPolicies (
      if af_browserEnabled cfg then issueBrowserSession h user orgID
      else userAuthorizationContext userID (λ orgID roles,
        issue_tokens userID orgID roles (λ access refresh expires,
          let* orgs := here List_organizations fails internal "failed to list organizations" in
          Done (Ok {| sr_User := Some {| su_ID := userID; su_Username := username; su_Roles := roles; su_ActiveOrgID := orgID |};
                      sr_Organizations := org_view <$> orgs; sr_AccessToken := access; sr_RefreshToken := refresh;
                      sr_ExpiresAt := seconds expires; sr_TokenType := "Bearer"; sr_cookies := [] |})))).

Record LocalUser := { lu_ID : string; lu_Username : string; lu_Roles : list string; lu_OrgID : string; lu_Status : UserStatus }.
Definition localUserProto (u : User) : rpc LocalUser :=
  let* members := here (ListByUser_members (us_ID u)) fails internal "aggregate roles" in
  let (orgID, roles) := membershipProjection members in
  Done (Ok {| lu_ID := us_ID u; lu_Username := us_Username u; lu_Roles := roles; lu_OrgID := orgID; lu_Status := us_Status u |}).
Definition resolveTargetRole (roles : list string) : res connect_error Role :=
  match roles with
  | [] => Ok RoleViewer
  | [r] =>
      if negb (Role_Valid (role_of r)) then Err (newError CodeInvalidArgument "invalid role")
      else if bool_decide (role_of r = RolePlatformAdmin) then Err (newError CodeInvalidArgument "platform_admin is created via Initialize")
      else Ok (role_of r)
  | _ => Err (newError CodeInvalidArgument "at most one role may be assigned")
  end.
Definition admin_in (orgID : string) (role : Role) : rpc (string * Role) :=
  if bool_decide (role = RolePlatformAdmin) then Done (Ok (orgID, role)) else refuse CodePermissionDenied "requires role platform_admin".
Definition resolveTargetOrgAndRole (actor : option authctx_Actor) (callerID orgID : string) : rpc (string * Role) :=
  let* members := here (ListByUser_members callerID) fails internal "list caller memberships" in
  match members with
  | [] => refuse CodePermissionDenied "not a member of any organization"
  | first :: _ =>
      let target := if negb (bool_decide (orgID = "")) then orgID
                    else match actor with Some a => ax_OrganizationID a | None => "" end in
      if bool_decide (target = "") then admin_in (om_OrgID first) (om_Role first)
      else
        svc_bind (once (here (Get_organization target))) (λ r,
          match r with
          | Err ErrNotFound => refuse CodeNotFound "organization not found"
          | Err _ => refuse CodeInternal "get organization"
          | Ok org =>
              if bool_decide (or_Status org = OrgDisabled) then refuse CodeFailedPrecondition "organization is disabled"
              else match find_row (λ m, bool_decide (om_OrgID m = target)) members with
                   | None => refuse CodePermissionDenied "not a member of the organization"
                   | Some m => if bool_decide (om_Role m = RoleOther "") then refuse CodePermissionDenied "not a member of the organization"
                               else admin_in target (om_Role m)
                   end
          end)
  end.
Definition CreateLocalUser (h : Header) (actor : option authctx_Actor) (callerID username password orgID : string) (roles : list string)
    : rpc LocalUser :=
  if bool_decide (callerID = "") then refuse CodeUnauthenticated "user not authenticated"
  else if bool_decide (username = "") then refuse CodeInvalidArgument "username is required"
  else if (64 <? String.length (hd_IdempotencyKey h))%nat then refuse CodeInvalidArgument "Idempotency-Key must be at most 64 characters"
  else match resolveTargetRole roles with
  | Err e => Done (Err e)
  | Ok targetRole =>
      and_then (resolveTargetOrgAndRole actor callerID orgID) (λ target,
        if negb (CanGrant target.2 targetRole) then refuse CodePermissionDenied "role cannot grant role"
        else svc_bind (once (here (GetByUsername username))) (λ existing,
          match existing with
          | Ok u => refreshPolicies (localUserProto u)
          | Err ErrNotFound =>
              let* hash := here (HashPassword password) fails internal "hash password" in
              let* userID := here newID fails internal "id" in
              let u := bare_user userID username hash "" "" UserActive in
              svc_bind (once (here (CreateWithMembership u (bare_member target.1 userID targetRole)))) (λ created,
                match created with
                | Ok _ => refreshPolicies (localUserProto u)
                | Err ErrDuplicateKey =>
                    let* winner := here (GetByUsername username) fails internal "read back user" in
                    refreshPolicies (localUserProto winner)
                | Err _ => refuse CodeInternal "create local user"
                end)
          | Err _ => refuse CodeInternal "lookup user"
          end))
  end.
Definition GetLocalUser (username : string) : rpc LocalUser :=
  svc_bind (once (here (GetByUsername username))) (λ r,
    match r with
    | Ok u => localUserProto u
    | Err ErrNotFound => refuse CodeNotFound "user not found"
    | Err _ => refuse CodeInternal "get user"
    end).
End service.

(** ** Revoked credentials stay unusable

    In this section the rest of the system is any environment under which session
    rows only age ([session_rely new]), [new] describing the sessions that others
    may create. *)
Section revoked.
Context {T : Type} `{SessionStoreLaws T}.
Context (jwt : JWT) (cfg : AuthConfig) (bcrypt_hash : string → string → option string) (VerifyPassword : string → string → bool).
Context (casbin_Enforce : list CasbinRule → string → string → string → string → option bool).
Context (new : string → string → string → Prop) (fault : error → Prop).
Abbreviation twp := (swp new fault).
Abbreviation tsvc := (svc T error).
Abbreviation rpc A := (tsvc (res connect_error A)).

Lemma wp_reads {A B} (m : SM B) (k : res error B → tsvc A) Q t :
  (∀ w, w_db (m w).2 = w_db w) → (∀ r t1, session_rely new t t1 → twp (k r) Q t1) → twp (Call (here m) k) Q t.
Proof.
  intros Hm Hk. apply wp_call; [by apply here_reads|]. intros t1 _ Hr. split.
  - apply Hk. etransitivity; [exact Hr|]. by apply here_reads.
  - intros e _. by apply Hk.
Qed.
Lemma wp_quiet {A B} (m : NM B) (k : res error B → tsvc A) Q t :
  (∀ n, sessions_at (m n).2 = sessions_at n) → (∀ r t1, session_rely new t t1 → twp (k r) Q t1) → twp (Call (at_node m) k) Q t.
Proof.
  intros Hm Hk.
  assert (Ht : tame (T:=T) new B (at_node m)).
  { intros t1 _. split; [done|]. unfold session_rely, sessions_at, at_node. rewrite lift_eq. simpl. rewrite node_of_set.
    specialize (Hm (node_of t1)). unfold sessions_at in Hm. simpl in Hm. rewrite Hm. reflexivity. }
  apply wp_call; [done|]. intros t1 _ Hr. split.
  - apply Hk. etransitivity; [exact Hr|]. by apply Ht.
  - intros e _. by apply Hk.
Qed.
Lemma wp_try {A B} (p : tsvc (res error A)) f (k : A → rpc B) Q t :
  twp p (λ r t1, twp (match r with Ok a => k a | Err e => f e end) Q t1) t → twp (try p f k) Q t.
Proof. apply wp_bind, _. Qed.
Lemma wp_and_then {A B} (p : rpc A) (k : A → rpc B) Q t :
  twp p (λ r t1, twp (match r with Ok a => k a | Err e => Done (Err e) end) Q t1) t → twp (and_then p k) Q t.
Proof. apply wp_bind, _. Qed.
Lemma wp_total {A} (p : tsvc A) (Q : A → T → Prop) t : calls (tame new) p → (∀ a t1, Q a t1) → twp p Q t.
Proof. intros Hp HQ. apply wp_calls; [apply _| |done]. by intros. Qed.
Lemma wp_conseq {A} (p : tsvc A) (Q Q' : A → T → Prop) t :
  twp p Q t → (∀ a t1, session_rely new t t1 → Q a t1 → Q' a t1) → twp p Q' t.
Proof. intros Hp HQ. eapply wp_mono; [apply _| |exact Hp]. intros a t1 _. apply HQ. Qed.
Definition is_err {A} (r : res connect_error A) (_ : T) : Prop := ∀ a, r ≠ Ok a.
Lemma refuse_err {A} c m (t : T) : twp (refuse (A:=A) c m) is_err t.
Proof. apply wp_Done. by intros t1 _ _ a. Qed.
Lemma revoke_refused_err f m t : twp (revoke_refused f m) is_err t.
Proof.
  apply wp_bind; [apply _|]. apply wp_total; [apply family_calls|]. intros [[]|[]] t1; apply refuse_err.
Qed.
Lemma lookup_error_err {A} m e t : twp (refresh_lookup_error (A:=A) m e) is_err t.
Proof. unfold refresh_lookup_error, mapStoreError. repeat case_bool_decide; apply refuse_err. Qed.

(** A token whose rows are all revoked cannot be rotated, in either mode. *)
Lemma refresh_refused h t :
  (∀ s, described new s → ¬ with_hash h s) → doomed (with_hash h) (sessions_at t) → twp (refreshSessionForRotation h) is_err t.
Proof.
  intros Hn Hd. unfold refreshSessionForRotation. apply wp_try.
  eapply wp_conseq; [by apply get_doomed|]. intros [s|e] t1 _ Hs; [|apply lookup_error_err].
  rewrite (Hs s eq_refl). apply revoke_refused_err.
Qed.
Lemma refresh_browser_refused h t :
  (∀ s, described new s → ¬ with_hash (hashToken (cookieValue h RefreshCookieName)) s) →
  doomed (with_hash (hashToken (cookieValue h RefreshCookieName))) (sessions_at t) →
  twp (refreshBrowserSession jwt cfg h) is_err t.
Proof.
  intros Hn Hd. unfold refreshBrowserSession. destruct (csrf_ok h); [|apply refuse_err]. simpl.
  case_bool_decide; [apply refuse_err|]. apply wp_try.
  eapply wp_conseq; [by apply get_doomed|]. intros [s|e] t1 _ Hs; [|apply lookup_error_err]. rewrite (Hs s eq_refl).
  apply wp_reads; [done|]. intros [u|e] t2 _; apply refuse_err.
Qed.
(** The token a refresh request is about. *)
Definition refresh_credential (h : Header) (refreshToken : string) : string :=
  if af_browserEnabled cfg && negb (bool_decide (cookieValue h RefreshCookieName = "")) then cookieValue h RefreshCookieName
  else refreshToken.
Lemma RefreshToken_refused h raw t :
  let hash := hashToken (refresh_credential h raw) in
  (∀ s, described new s → ¬ with_hash hash s) → doomed (with_hash hash) (sessions_at t) →
  twp (RefreshToken jwt cfg h raw) is_err t.
Proof.
  intros hash Hn Hd. subst hash. unfold RefreshToken, refresh_credential in *. destruct (af_browserEnabled cfg && _).
  - by apply refresh_browser_refused.
  - apply wp_and_then. eapply wp_conseq; [by apply refresh_refused|]. intros [s|e] t1 _ Hs; [by destruct (Hs s)|].
    apply wp_Done. by intros t2 _ _ a.
Qed.

(** A user without a live session passes the interceptor nowhere. *)
Definition not_user {A} (u : string) (r : res connect_error (option (authctx_Actor * A))) (_ : T) : Prop :=
  ∀ actor x, r = Ok (Some (actor, x)) → ax_UserID actor ≠ u.
Lemma err_not_user {A} u (p : rpc (option (authctx_Actor * A))) t : twp p is_err t → twp p (not_user u) t.
Proof. intros Hp. eapply wp_conseq; [exact Hp|]. intros r t1 _ Hr actor x ->. by destruct (Hr (Some (actor, x))). Qed.
Lemma deny_err {A} d (t : T) : twp (deny (A:=A) d) is_err t.
Proof. apply wp_quiet; [done|]. intros [v|e] t1 _; [apply wp_Done; by intros t2 _ _ a|apply refuse_err]. Qed.
Lemma session_check_refused claims domain t :
  (∀ s, described new s → ¬ with_user (cl_UserID claims) s) → doomed (with_user (cl_UserID claims)) (sessions_at t) →
  twp (session_check claims domain) is_err t.
Proof.
  intros Hn Hd. apply wp_reads; [intros w; unfold Get_user, query, bind, gets; simpl; by destruct (at_users _ !! _)|].
  intros [user|e] t1 Hr1; [|apply refuse_err]. destruct (bool_decide _); [|apply refuse_err]. simpl. apply wp_try.
  eapply wp_conseq; [apply active_doomed; [done|]|].
  - eapply rely_doomed; [apply lasting_user|done|exact Hr1|done].
  - intros [b|e] t2 _ Hb; [|apply refuse_err]. rewrite (Hb b eq_refl). apply refuse_err.
Qed.
Lemma CheckBinding_quiet d c n : sessions_at (CheckBinding d c n).2 = sessions_at n.
Proof.
  unfold CheckBinding. destruct (_ || _); [done|]. unfold catch, on_world, sessions_at. rewrite lift_eq. simpl.
  unfold GetByOrgAndCustomer, query, bind, gets. simpl. by destruct (binding_of _ _ _).
Qed.
Lemma CheckBindingID_quiet d b n : sessions_at (CheckBindingID d b n).2 = sessions_at n.
Proof.
  unfold CheckBindingID. destruct (_ || _); [done|]. unfold catch, on_world, sessions_at. rewrite lift_eq. simpl.
  unfold Get_binding, query, bind, gets. simpl. by destruct (binding_with_id _ _).
Qed.
Lemma wp_binding {A} rq domain (k : res error (option denial) → tsvc A) Q t :
  (∀ r t1, session_rely new t t1 → twp (k r) Q t1) → twp (Call (enforceRequestBinding rq domain) k) Q t.
Proof.
  intros Hk. unfold enforceRequestBinding.
  assert (Hret : twp (Call (ret None) k) Q t).
  { apply wp_read; [apply _|done|]. intros t1 _ Hr. split; [by apply Hk|]. intros e _. by apply Hk. }
  destruct (_ && _); [done|]. destruct (negb _); [apply wp_quiet; [apply CheckBinding_quiet|done]|].
  destruct (negb _); [apply wp_quiet; [apply CheckBindingID_quiet|done]|done].
Qed.
Lemma intercept_refused publicMethods rq u t :
  (∀ s, described new s → ¬ with_user u s) → doomed (with_user u) (sessions_at t) →
  twp (intercept jwt casbin_Enforce publicMethods rq) (not_user u) t.
Proof.
  intros Hn Hd. unfold intercept. case_bool_decide; [apply wp_Done; by intros t1 _ _ actor x|].
  destruct (resolveRequestToken _) as [token fromCookie]. case_bool_decide; [apply err_not_user, refuse_err|].
  apply wp_reads; [done|]. intros [[claims|]|e] t1 Hr1; [|apply err_not_user, refuse_err..].
  assert (Hd1 : doomed (with_user u) (sessions_at t1)) by (eapply rely_doomed; [apply lasting_user|exact Hn|exact Hr1|done]).
  destruct (resolveDomain _ _ _) as [domain|d]; [|apply err_not_user, deny_err].
  destruct (lookupProcedure _) as [p|]; [|apply err_not_user, deny_err]. destruct (_ && _); [apply err_not_user, refuse_err|].
  apply wp_binding. intros [[d|]|e] t2 Hr2; [apply err_not_user, deny_err| |apply err_not_user, refuse_err].
  assert (Hd2 : doomed (with_user u) (sessions_at t2)) by (eapply rely_doomed; [apply lasting_user|exact Hn|exact Hr2|done]).
  assert (Hchecked : ∀ t3, session_rely new t2 t3 →
    twp (and_then (session_check claims domain) (λ actor, Done (Ok (Some (actor, token))))) (not_user u) t3).
  { intros t3 Hr3. assert (Hd3 : doomed (with_user u) (sessions_at t3)) by (eapply rely_doomed; [apply lasting_user|exact Hn|exact Hr3|done]).
    apply wp_and_then. destruct (decide (cl_UserID claims = u)) as [<-|Hne].
    - eapply wp_conseq; [by apply session_check_refused|]. intros [actor|e] t4 _ He; [by destruct (He actor)|].
      apply err_not_user, wp_Done. by intros t5 _ _ a.
    - apply (wp_conseq _ (λ r _, ∀ actor, r = Ok actor → ax_UserID actor ≠ u)).
      + apply wp_reads; [intros w; unfold Get_user, query, bind, gets; simpl; by destruct (at_users _ !! _)|].
        intros [user|e] t4 _; [|ends]. destruct (negb _); [ends|]. apply wp_try.
        apply wp_total; [apply active_calls|]. intros [[]|e] t5; cbn [negb]; ends.
      + intros [actor|e] t4 _ Ha; [|apply err_not_user, wp_Done; by intros t5 _ _ a].
        apply wp_Done. intros t5 _ _ a x [= <- _]. by apply Ha. }
  destruct (bool_decide _); [|by apply Hchecked].
  apply wp_quiet; [done|]. intros [[d|]|e] t3 Hr3; [apply err_not_user, deny_err|by apply Hchecked|apply err_not_user, refuse_err].
Qed.
End revoked.

Definition session_env {T} `{Host T} (new : string → string → string → Prop) (t t' : T) : Prop := True ∧ session_rely new t t'.

(** C18: a refresh token works once.  When every row of a token is revoked - as
    rotating it leaves them - presenting it again never yields a session, under any
    interleaving that does not create a session with the same token hash; for the
    bearer and the browser flow, the SQLite store and the Redis adapter. *)
Theorem refresh_replay_refused {T} `{SessionStoreLaws T} jwt cfg new fault h raw (t t' : T) r :
  let hash := hashToken (refresh_credential cfg h raw) in
  (∀ s, described new s → ss_RefreshTokenHash s ≠ hash) → doomed (with_hash hash) (sessions_at t) →
  runs (session_env new) fault (RefreshToken jwt cfg h raw) t r t' →
  ∃ e, r = Err e.
Proof.
  intros hash Hn Hd Hr. subst hash.
  destruct (wp_runs _ _ _ _ _ _ _ _ Hr I (RefreshToken_refused jwt cfg _ fault h raw t Hn Hd)) as (_ & _ & He).
  destruct r as [a|e]; [by destruct (He a)|by exists e].
Qed.

(** ** Without interference, on the SQLite rows *)
Lemma here_node {A} (m : SM A) (n : Node) : here m n = ((m (nd_world n)).1, put_world (m (nd_world n)).2 n).
Proof. exact (here_eq m n). Qed.
Lemma at_node_node {A} (m : NM A) n : at_node (T:=Node) m n = m n.
Proof. unfold at_node. rewrite lift_eq. simpl. by destruct (m n). Qed.
Definition never_ok {A} (p : nsvc (res connect_error A)) : Prop := ∀ n b n', exec_svc p n ≠ (Ok b, n').
Lemma refuse_never {A} c m : never_ok (A:=A) (refuse c m).
Proof. by intros n b n'. Qed.
Lemma internal_never {A} m e : never_ok (A:=A) (internal (T:=Node) m e).
Proof. by intros n b n'. Qed.
Lemma store_error_never {A} m e : never_ok (A:=A) (mapStoreError (T:=Node) m e).
Proof. unfold mapStoreError. case_bool_decide; apply refuse_never. Qed.
Lemma lookup_error_never {A} m e : never_ok (A:=A) (refresh_lookup_error (T:=Node) m e).
Proof. unfold refresh_lookup_error. case_bool_decide; [apply store_error_never|apply refuse_never]. Qed.
Lemma revoke_refused_never f m : never_ok (revoke_refused (T:=Node) f m).
Proof. intros n b n'. unfold revoke_refused. rewrite exec_bind. by destruct (exec_svc _ n).1 as [[]|[]]. Qed.
Lemma deny_never {A} d : never_ok (A:=A) (deny (T:=Node) d).
Proof. by intros n b n'. Qed.
#[local] Hint Resolve refuse_never internal_never store_error_never lookup_error_never revoke_refused_never deny_never : sessions.
(** [x, err := call; if err != nil { fails }; k], when [fails] refuses. *)
Lemma exec_call_Ok {A B} (m : SM A) (f : error → nsvc (res connect_error B)) k n b n' :
  (∀ e, never_ok (f e)) →
  exec_svc (Call (here m) (λ r, match r with Ok x => k x | Err e => f e end)) n = (Ok b, n') →
  ∃ a w1, m (nd_world n) = (Ok a, w1) ∧ exec_svc (k a) (put_world w1 n) = (Ok b, n').
Proof.
  intros Hf. cbn [exec_svc]. rewrite here_node. cbn [fst snd]. destruct (m (nd_world n)) as [[a|e] w1]; simpl.
  - intros Hx. by exists a, w1.
  - intros Hx. by apply Hf in Hx.
Qed.
Lemma exec_try_Ok {A B} (m : SM A) (f : error → nsvc (res connect_error B)) k n b n' :
  (∀ e, never_ok (f e)) → exec_svc (try (once (here m)) f k) n = (Ok b, n') →
  ∃ a w1, m (nd_world n) = (Ok a, w1) ∧ exec_svc (k a) (put_world w1 n) = (Ok b, n').
Proof. intros Hf. unfold try, once. apply (exec_call_Ok m f k n b n' Hf). Qed.
Lemma exec_and_then_Ok {A B} (p : nsvc (res connect_error A)) (k : A → nsvc (res connect_error B)) n b n' :
  exec_svc (and_then p k) n = (Ok b, n') → ∃ a n1, exec_svc p n = (Ok a, n1) ∧ exec_svc (k a) n1 = (Ok b, n').
Proof.
  unfold and_then. rewrite exec_bind. destruct (exec_svc p n) as [[a|e] n1]; simpl; [|done]. intros Hx. by exists a, n1.
Qed.
Lemma userAuthorizationContext_Ok {A} userID (k : string → list string → nsvc (res connect_error A)) n b n' :
  exec_svc (userAuthorizationContext userID k) n = (Ok b, n') → ∃ orgID roles, exec_svc (k orgID roles) n = (Ok b, n').
Proof.
  unfold userAuthorizationContext. cbn [exec_svc]. rewrite here_node. unfold ListByUser_members, query, gets. cbn [fst snd].
  destruct (membershipProjection _) as [orgID roles]. replace (put_world (nd_world n) n) with n by by destruct n. by exists orgID, roles.
Qed.
Lemma GetByRefreshHash_Ok h s w w1 : GetByRefreshHash_session h w = (Ok s, w1) → session_of_hash h (w_db w) = Some s ∧ w1 = w.
Proof. unfold GetByRefreshHash_session. intros Hx. by dinv. Qed.
Lemma Get_user_Ok id u w w1 : Get_user id w = (Ok u, w1) → at_users (db_auth (w_db w)) !! id = Some u ∧ w1 = w.
Proof. unfold Get_user. intros Hx. by dinv. Qed.
Lemma same_world n : put_world (nd_world n) n = n.
Proof. by destruct n. Qed.
Lemma Create_session_Ok s s' w w1 :
  Create_session s w = (Ok s', w1) →
  ∃ t, s' = session_created s t ∧ sessions_of (w_db w1) = sessions_of (w_db w) ++ [session_row s'].
Proof.
  unfold Create_session. intros Hx. apply bind_Ok in Hx as (t & w2 & Ht & Hx). apply bind_Ok in Hx as ([] & w3 & Ha & Hx). dinv.
  apply autocommit_Ok in Ha. dinv. exists t. split; [done|]. by rewrite Hdb.
Qed.

(** What a session may be rotated on. *)
Record rotatable (db : DB) (now : time) (hash : string) (s : AuthSession) : Prop := {
  rot_found : session_of_hash hash db = Some s;
  rot_live : ss_Revoked s = false;
  rot_fresh : now < ss_ExpiresAt s;
  rot_user : ∃ u, at_users (db_auth db) !! ss_UserID s = Some u ∧ us_Status u = UserActive;
}.
Lemma refreshSession_Ok hash n s n1 :
  exec_svc (refreshSessionForRotation (T:=Node) hash) n = (Ok s, n1) →
  rotatable (w_db (nd_world n)) (w_clock (nd_world n) 0) hash s ∧ w_db (nd_world n1) = w_db (nd_world n).
Proof.
  unfold refreshSessionForRotation. intros Hx.
  apply exec_try_Ok in Hx as (s1 & w1 & Hget & Hx); [|by auto with sessions]. apply GetByRefreshHash_Ok in Hget as [Hs ->]. rewrite same_world in Hx.
  destruct (ss_Revoked s1) eqn:Hrev; [by apply revoke_refused_never in Hx|].
  apply exec_call_Ok in Hx as (t & w2 & Ht & Hx); [|by auto with sessions]. apply now_Ok in Ht as [-> ->].
  destruct (Z.leb_spec (ss_ExpiresAt s1) (w_clock (nd_world n) 0)) as [|Hfresh]; [by apply revoke_refused_never in Hx|].
  apply exec_call_Ok in Hx as (u & w3 & Hu & Hx); [|by auto with sessions]. apply Get_user_Ok in Hu as [Hu ->].
  unfold active in Hx. case_bool_decide as Ha; [|by apply revoke_refused_never in Hx]. injection Hx as <- <-. simpl in *.
  split; [|done]. split; [done|done|done|]. by exists u.
Qed.
(** C21: rotation.  Without interference a bearer refresh succeeds only for a token
    whose session is stored, not revoked, not expired and whose user is active; it
    revokes every session of the family and adds exactly one, live, with the hash of
    the returned token, for the same user and family.  So the presented token is
    spent: if its hash was unique and the new token is another text, all its rows
    are revoked. *)
Theorem rotation_exact jwt cfg h raw n resp n' :
  af_browserEnabled cfg = false → exec_svc (RefreshToken (T:=Node) jwt cfg h raw) n = (Ok resp, n') →
  ∃ s s', rotatable (w_db (nd_world n)) (w_clock (nd_world n) 0) (hashToken raw) s ∧
    sessions_at n' = update_where (in_family (ss_TokenFamily s)) revoke (sessions_at n) ++ [s'] ∧
    ss_RefreshTokenHash s' = hashToken (sr_RefreshToken resp) ∧ ss_TokenFamily s' = ss_TokenFamily s ∧
    ss_UserID s' = ss_UserID s ∧ ss_Revoked s' = false ∧
    ((∀ x, x ∈ sessions_at n → ss_RefreshTokenHash x = hashToken raw → ss_TokenFamily x = ss_TokenFamily s) →
     hashToken (sr_RefreshToken resp) ≠ hashToken raw → doomed (with_hash (hashToken raw)) (sessions_at n')).
Proof.
  intros Hcfg Hx. unfold RefreshToken in Hx. rewrite Hcfg in Hx. simpl in Hx.
  apply exec_and_then_Ok in Hx as (s & n1 & Hs & Hx). apply refreshSession_Ok in Hs as [Hs Hdb1].
  unfold rotate in Hx. apply exec_try_Ok in Hx as (u & w1 & Hr & Hx); [|by auto with sessions]. apply revoke_where_Ok in Hr.
  apply userAuthorizationContext_Ok in Hx as (orgID & roles & Hx).
  apply exec_call_Ok in Hx as (access & w2 & Hacc & Hx); [|by auto with sessions].
  apply exec_call_Ok in Hx as (refresh & w3 & Href & Hx); [|by auto with sessions].
  apply exec_call_Ok in Hx as (s1 & w4 & Hs1 & Hx); [|by auto with sessions].
  apply exec_try_Ok in Hx as (s2 & w5 & Hc & Hx); [|by auto with sessions]. injection Hx as <- <-.
  apply Create_session_Ok in Hc as (t & -> & Hc). simpl in *.
  assert (Hdb : w_db w4 = w_db w1 ∧ refresh.2 = hashToken refresh.1 ∧ ss_RefreshTokenHash s1 = refresh.2 ∧
    ss_TokenFamily s1 = ss_TokenFamily s ∧ ss_UserID s1 = ss_UserID s ∧ ss_Revoked s1 = false).
  { unfold GenerateAccessToken, newID in Hacc. destruct (af_privateKey cfg); simpl in Hacc; dinv.
    unfold generateRefreshToken, random_text in Href. unfold new_session, newID in Hs1. by dinv. }
  destruct Hdb as (Hdb4 & Hraw & Hh1 & Hf1 & Hu1 & Hr1). unfold sessions_at. simpl. rewrite Hc, Hdb4, Hr. rewrite Hdb1.
  exists s. eexists. split; [done|]. split; [done|]. simpl. split_and!; try congruence.
  intros Huniq Hne x Hx Hh. apply elem_of_app in Hx as [Hx|Hx].
  - apply update_where_elem in Hx as (y & Hy & ->). destruct (in_family _ y) eqn:E; [done|].
    unfold in_family in E. apply bool_decide_eq_false in E. destruct E. by apply Huniq.
  - apply list_elem_of_singleton in Hx as ->. unfold with_hash in Hh. simpl in Hh. congruence.
Qed.

(** The domain of a request: the organization it names, which is the token's unless
    the procedure targets another one, or else the token's. *)
Definition in_domain (rq : Request) (tokenOrgID : string) (targetOrg : bool) (domain : string) : Prop :=
  domain ≠ "" ∧
  ((rq_org_id rq = domain ∧ (tokenOrgID = "" ∨ tokenOrgID = domain ∨ targetOrg = true)) ∨ (rq_org_id rq = "" ∧ tokenOrgID = domain)).
(** What the interceptor has checked of a request it lets through as [actor]. *)
Record admitted (jwt : JWT) casbin_Enforce (rq : Request) (n : Node) (actor : authctx_Actor) (token : string) : Prop := {
  ad_token : token = (resolveRequestToken (rq_header rq)).1 ∧ token ≠ "";
  ad_row : ∃ p claims domain, lookupProcedure (rq_procedure rq) = Some p ∧
    ValidateAccessToken_at jwt token (w_clock (nd_world n) 0) = Some claims ∧
    in_domain rq (cl_OrgID claims) (pp_targetOrg p) domain ∧
    actor = {| ax_UserID := cl_UserID claims; ax_OrganizationID := domain; ax_Roles := cl_Roles claims; ax_Service := "" |} ∧
    (pp_mode p = modeCasbin →
     ef_healthy (nd_enforcer n) = true ∧
     casbin_Enforce (ef_policy (nd_enforcer n)) (cl_UserID claims) domain (pp_object p) (pp_action p) = Some true) ∧
    (extractToken (hd_Authorization (rq_header rq)) = "" → pp_action p = "read" ∨
     (hd_csrf (rq_header rq) ≠ "" ∧ cookieValue (rq_header rq) CSRFCookieName = hd_csrf (rq_header rq)));
  ad_user : ∃ u, at_users (db_auth (w_db (nd_world n))) !! ax_UserID actor = Some u ∧ us_Status u = UserActive;
  ad_session : ∃ s k, s ∈ sessions_at n ∧ ss_UserID s = ax_UserID actor ∧ ss_Revoked s = false ∧
    rfc3339 (w_clock (nd_world n) k) < ss_ExpiresAt s;
  ad_binding : (contains_text "BindingService" (rq_procedure rq) && has_suffix "/CreateBinding" (rq_procedure rq)) = false →
    rq_customer_id rq ≠ "" → ∃ b, binding_of (ax_OrganizationID actor) (rq_customer_id rq) (w_db (nd_world n)) = Some b ∧ bi_Status b = BindingActive;
}.
Lemma resolveDomain_Ok rq tokenOrgID targetOrg domain :
  resolveDomain (rq_org_id rq) tokenOrgID targetOrg = Ok domain → in_domain rq tokenOrgID targetOrg domain.
Proof.
  unfold resolveDomain, in_domain. destruct (decide (rq_org_id rq = "")) as [->|Hr]; simpl.
  - case_bool_decide; [done|]. intros [= <-]. auto.
  - rewrite (bool_decide_false (rq_org_id rq = "")) by done. simpl. intros Hd. split; [|left].
    + by destruct (_ && _ && _); simplify_eq.
    + destruct (decide (tokenOrgID = "")) as [->|Ht]; [simpl in Hd; simplify_eq; auto|]. rewrite bool_decide_false in Hd by done.
      destruct (decide (tokenOrgID = rq_org_id rq)); [rewrite bool_decide_true in Hd by done|rewrite bool_decide_false in Hd by done];
        destruct targetOrg; simpl in Hd; simplify_eq; auto 10.
Qed.
Lemma Enforce_in_None casbin_Enforce e sub dom obj act :
  Enforce_in casbin_Enforce e sub dom obj act = None → ef_healthy e = true ∧ casbin_Enforce (ef_policy e) sub dom obj act = Some true.
Proof. unfold Enforce_in. destruct (_ || _ || _ || _); [done|]. by destruct (casbin_Enforce _ _ _ _ _) as [[]|], (ef_healthy e). Qed.
Lemma csrf_ok_spec h : csrf_ok h = true → hd_csrf h ≠ "" ∧ cookieValue h CSRFCookieName = hd_csrf h.
Proof.
  unfold csrf_ok. intros (H1 & ->%bool_decide_eq_true)%andb_true_iff. apply andb_true_iff in H1 as [_ H].
  split; [|done]. by apply negb_true_iff, bool_decide_eq_false in H.
Qed.
Lemma resolved_from_cookie h : (resolveRequestToken h).1 ≠ "" → extractToken (hd_Authorization h) = "" → (resolveRequestToken h).2 = true.
Proof.
  unfold resolveRequestToken. intros Hne E. rewrite E, (bool_decide_true ("" = "")) in * by done. cbn [negb] in *.
  by destruct (negb (bool_decide (cookieValue h AccessCookieName = ""))).
Qed.
Lemma CheckBinding_Ok orgID customerID n n' :
  CheckBinding orgID customerID n = (Ok None, n') →
  ∃ b, binding_of orgID customerID (w_db (nd_world n)) = Some b ∧ bi_Status b = BindingActive.
Proof.
  unfold CheckBinding. destruct (_ || _); [done|]. unfold catch, on_world. rewrite lift_eq. unfold GetByOrgAndCustomer, query, bind, gets. simpl.
  destruct (binding_of _ _ _) as [b|]; simpl; [|done]. case_bool_decide; [|done]. intros _. by exists b.
Qed.
(** The binding check leaves the tables and the policy. *)
Lemma binding_check_quiet rq domain n :
  w_db (nd_world (enforceRequestBinding rq domain n).2) = w_db (nd_world n) ∧
  w_clock (nd_world (enforceRequestBinding rq domain n).2) = w_clock (nd_world n) ∧
  nd_enforcer (enforceRequestBinding (T:=Node) rq domain n).2 = nd_enforcer n.
Proof.
  unfold enforceRequestBinding. destruct (_ && _); [done|]. destruct (negb _); [|destruct (negb _); [|done]]; rewrite at_node_node.
  - unfold CheckBinding. destruct (_ || _); [done|]. unfold catch, on_world. rewrite lift_eq. unfold GetByOrgAndCustomer, query, bind, gets. simpl.
    by destruct (binding_of _ _ _).
  - unfold CheckBindingID. destruct (_ || _); [done|]. unfold catch, on_world. rewrite lift_eq. unfold Get_binding, query, bind, gets. simpl.
    by destruct (binding_with_id _ _).
Qed.
Lemma session_check_Ok claims domain n actor n' :
  exec_svc (session_check (T:=Node) claims domain) n = (Ok actor, n') →
  actor = {| ax_UserID := cl_UserID claims; ax_OrganizationID := domain; ax_Roles := cl_Roles claims; ax_Service := "" |} ∧
  (∃ u, at_users (db_auth (w_db (nd_world n))) !! cl_UserID claims = Some u ∧ us_Status u = UserActive) ∧
  ∃ s, s ∈ sessions_at n ∧ ss_UserID s = cl_UserID claims ∧ live_at (w_clock (nd_world n) 0) s = true.
Proof.
  unfold session_check. intros Hx. apply exec_call_Ok in Hx as (u & w1 & Hu & Hx); [|by auto with sessions]. apply Get_user_Ok in Hu as [Hu ->].
  rewrite same_world in Hx. destruct (bool_decide (us_Status u = UserActive)) eqn:Ha; [|done]. apply bool_decide_eq_true in Ha. cbn [negb] in Hx.
  apply exec_try_Ok in Hx as (act & w2 & Hact & Hx); [|by auto with sessions]. unfold HasActiveByUserID_session in Hact. dinv.
  destruct (existsb _ _) eqn:E; simpl in Hx; [|done]. injection Hx as <- _. split; [done|]. split; [by exists u|].
  apply existsb_elem in E as (s & Hs & E). apply andb_true_iff in E as [E1 E2]. exists s. split; [exact Hs|].
  split; [by apply bool_decide_eq_true in E1|exact E2].
Qed.
(** C16: what passes the interceptor.  A request for a procedure that is not public
    and is let through was authenticated and authorised: its token is the bearer
    token or the cookie and validates, the procedure is registered, the actor is the
    token's user in the domain the request may name, a cookie request that is not a
    read carries the CSRF token, the organization is actively bound to the customer
    the request names, Casbin's healthy policy allows the pair of the procedure, the
    user is active and has a session that is neither revoked nor expired. *)
Theorem intercept_admits jwt casbin_Enforce publicMethods rq n actor token n' :
  rq_procedure rq ∉ publicMethods →
  exec_svc (intercept (T:=Node) jwt casbin_Enforce publicMethods rq) n = (Ok (Some (actor, token)), n') →
  admitted jwt casbin_Enforce rq n actor token.
Proof.
  intros Hpub. unfold intercept. rewrite bool_decide_false by done. destruct (resolveRequestToken (rq_header rq)) as [tok fromCookie] eqn:Etok.
  case_bool_decide as Hne; [done|]. intros Hx. apply exec_call_Ok in Hx as (claims & w1 & Hv & Hx); [|by auto with sessions].
  unfold ValidateAccessToken in Hv. dinv. destruct (ValidateAccessToken_at jwt tok (w_clock (nd_world n) 0)) as [claims|] eqn:Ev; [|done].
  destruct (resolveDomain _ _ _) as [domain|d] eqn:Ed; [|by apply deny_never in Hx].
  destruct (lookupProcedure (rq_procedure rq)) as [p|] eqn:Ep; [|by apply deny_never in Hx]. destruct (_ && _ && _) eqn:Ecsrf; [done|].
  set (n0 := put_world (tick (nd_world n)) n) in *. assert (Hq := binding_check_quiet rq domain n0).
  cbn [exec_svc] in Hx. destruct (enforceRequestBinding rq domain n0) as [bound n1] eqn:Eb. cbn [fst snd] in *. destruct Hq as (Hdb & Hck & Henf).
  destruct bound as [[d|]|e]; [by apply deny_never in Hx| |done].
  assert (Hmode : ∃ n2, w_db (nd_world n2) = w_db (nd_world n1) ∧ w_clock (nd_world n2) = w_clock (nd_world n1) ∧
    exec_svc (and_then (session_check claims domain) (λ actor, Done (Ok (Some (actor, tok))))) n2 = (Ok (Some (actor, token)), n') ∧
    (pp_mode p = modeCasbin → Enforce_in casbin_Enforce (nd_enforcer n) (cl_UserID claims) domain (pp_object p) (pp_action p) = None)).
  { case_bool_decide as Hm; [|exists n1; by split_and!]. cbn [exec_svc] in Hx. rewrite at_node_node in Hx. unfold Enforce, gets in Hx. cbn [fst snd] in Hx.
    rewrite Henf in Hx. destruct (Enforce_in _ (nd_enforcer n0) _ _ _ _) eqn:Een; [by apply deny_never in Hx|]. exists n1. split_and!; [done|done|exact Hx|done]. }
  destruct Hmode as (n2 & Hdb2 & Hck2 & Hx2 & Hm). apply exec_and_then_Ok in Hx2 as (actor' & n3 & Hs & Hx2). injection Hx2 as -> -> _.
  apply session_check_Ok in Hs as (-> & Hu & Hs). unfold sessions_at in Hs. simpl in Hs. rewrite Hdb2, Hdb in Hu, Hs. split; simpl.
  - by rewrite Etok.
  - exists p, claims, domain. split_and!; try done; [by apply resolveDomain_Ok in Ed|intros Hc; by apply Enforce_in_None, Hm|].
    intros Hno. assert (Hck' := resolved_from_cookie (rq_header rq)). rewrite Etok in Hck'. simpl in Hck'. rewrite Hck' in Ecsrf by done.
    rewrite andb_true_l in Ecsrf.
    apply andb_false_iff in Ecsrf as [E|E]; apply negb_false_iff in E; [left; by apply bool_decide_eq_true in E|right; by apply csrf_ok_spec].
  - exact Hu.
  - destruct Hs as (s & Hs & Hsu & Hl). unfold live_at in Hl. apply andb_true_iff in Hl as [Hr Hl]. exists s, 1%nat. split_and!; [exact Hs|exact Hsu| |].
    + by apply negb_true_iff in Hr.
    + rewrite Hck2, Hck in Hl. simpl in Hl. by apply Z.ltb_lt in Hl.
  - intros Hcb Hc. unfold enforceRequestBinding in Eb. rewrite Hcb, (bool_decide_false (rq_customer_id rq = "")) in Eb by done. simpl in Eb.
    rewrite at_node_node in Eb. by apply CheckBinding_Ok in Eb.
Qed.

(** ** Samples *)
Definition sample_jwt : JWT :=
  {| ValidateAccessToken_at token _ :=
       if bool_decide (token = "signed-u1")
       then Some {| cl_UserID := "u1"; cl_Roles := ["release_admin"]; cl_OrgID := "o1"; cl_ID := "j1"; cl_IssuedAt := 0; cl_ExpiresAt := 2000 * nsec |}
       else None;
     SignedString c := ("signed-" ++ cl_UserID c)%string |}.
Definition sample_config (browser : bool) : AuthConfig :=
  {| af_privateKey := true; af_accessTTL := 900 * nsec; af_refreshTTL := 7000 * nsec; af_browserEnabled := browser |}.
Definition sample_bcrypt (salt plain : string) : option string := Some ("hash-" ++ plain)%string.
Definition sample_verify (hash plain : string) : bool := bool_decide (hash = "hash-" ++ plain)%string.
Definition sample_session (id user family raw : string) : AuthSession :=
  {| ss_ID := id; ss_UserID := user; ss_TokenFamily := family; ss_RefreshTokenHash := hashToken raw; ss_ExpiresAt := 5000 * nsec;
     ss_CreatedAt := 900 * nsec; ss_Revoked := false |}.
Definition session_db : DB :=
  on_auth (λ a, set_sessions [sample_session "s1" "u1" "f1" "r1"] (set_users {["u1" := bare_user "u1" "ann" "hash-old" "" "" UserActive]} a))
    (w_db (nd_world sample_node)).
Definition session_node : Node :=
  {| nd_world := sample_world session_db;
     nd_enforcer := {| ef_policy := [g_rule "u1" "release_admin" "o1"; p_rule "release_admin" "o1" "organization" "read"];
                       ef_healthy := true; ef_version := 1; ef_closed := false |};
     nd_limiter := NewRateLimiter 5 (60 * nsec) |}.
Definition plain_header (authorization : string) : Header :=
  {| hd_Authorization := authorization; hd_cookies := []; hd_csrf := ""; hd_Origin := ""; hd_SecFetchMode := ""; hd_IdempotencyKey := "" |}.
Definition sample_refresh : nsvc (res connect_error SessionResponse) := RefreshToken sample_jwt (sample_config false) (plain_header "") "r1".
Definition rotated_node : Node := (exec_svc sample_refresh session_node).2.
Definition rotated_response : SessionResponse :=
  match (exec_svc sample_refresh session_node).1 with Ok r => r | Err _ => bearer_response "" "" 0 end.
Lemma rotation_runs : exec_svc sample_refresh session_node = (Ok rotated_response, rotated_node).
Proof. vm_compute. reflexivity. Qed.
Lemma rotation_exact_witness :
  af_browserEnabled (sample_config false) = false ∧ exec_svc sample_refresh session_node = (Ok rotated_response, rotated_node) ∧
  ∃ s s', rotatable session_db (1000 * nsec) (hashToken "r1") s ∧
    sessions_at rotated_node = update_where (in_family (ss_TokenFamily s)) revoke (sessions_at session_node) ++ [s'].
Proof.
  split; [reflexivity|]. split; [exact rotation_runs|].
  destruct (rotation_exact sample_jwt (sample_config false) (plain_header "") "r1" session_node rotated_response rotated_node
              eq_refl rotation_runs) as (s & s' & Hs & Hsess & _).
  exists s, s'. split; [exact Hs|exact Hsess].
Defined.
Definition doomed_hashb (h : string) (l : list AuthSession) : bool := forallb (λ s, negb (has_hash h s) || ss_Revoked s) l.
Lemma doomed_hash_true h l : doomed_hashb h l = true → doomed (with_hash h) l.
Proof.
  intros Hb s Hs Hh. unfold doomed_hashb in Hb. rewrite forallb_forall in Hb. apply list_elem_of_In in Hs. apply Hb in Hs.
  unfold has_hash in Hs. by rewrite bool_decide_true in Hs.
Qed.
(** Replaying the rotated token. *)
Lemma refresh_replay_refused_witness :
  doomed (with_hash (hashToken "r1")) (sessions_at rotated_node) ∧ ∃ e, (exec_svc sample_refresh rotated_node).1 = Err e.
Proof.
  assert (Hd : doomed (with_hash (hashToken "r1")) (sessions_at rotated_node)) by (apply doomed_hash_true; vm_compute; reflexivity).
  split; [exact Hd|].
  refine (refresh_replay_refused sample_jwt (sample_config false) (λ _ _ _, False) (λ _, True) (plain_header "") "r1" rotated_node _ _ _ _
            (runs_exec sample_refresh rotated_node _ _)); [by intros s []|exact Hd].
Defined.
Definition sample_request (procedure : string) : Request :=
  {| rq_procedure := procedure; rq_header := plain_header "Bearer signed-u1"; rq_org_id := "o1"; rq_customer_id := ""; rq_binding_id := "" |}.
Definition sample_intercept : nsvc (res connect_error (option (authctx_Actor * string))) :=
  intercept sample_jwt reference_Enforce [] (sample_request "/auth.v1.OrganizationService/GetOrganization").
Definition sample_actor : authctx_Actor :=
  {| ax_UserID := "u1"; ax_OrganizationID := "o1"; ax_Roles := ["release_admin"]; ax_Service := "" |}.
Lemma intercept_admits_witness :
  (exec_svc sample_intercept session_node).1 = Ok (Some (sample_actor, "signed-u1")) ∧
  admitted sample_jwt reference_Enforce (sample_request "/auth.v1.OrganizationService/GetOrganization") session_node sample_actor "signed-u1".
Proof.
  assert (E : exec_svc sample_intercept session_node = (Ok (Some (sample_actor, "signed-u1")), (exec_svc sample_intercept session_node).2))
    by (vm_compute; reflexivity).
  split; [by rewrite E|].
  exact (intercept_admits sample_jwt reference_Enforce [] _ session_node sample_actor "signed-u1" _ (not_elem_of_nil _) E).
Defined.
(** Rotation is a check followed by separate writes: two requests that present the
    same token at once both succeed, and leave two live sessions in the family. *)
Definition refresh_race : Node * list (nsvc (res connect_error SessionResponse)) :=
  run_schedule ([0; 1; 0; 1; 0; 1; 0; 1] ++ replicate 5 0 ++ replicate 5 1)%nat (session_node, [sample_refresh; sample_refresh]).
Definition answered {A} (p : nsvc (res connect_error A)) : bool := match p with Done (Ok _) => true | _ => false end.
Lemma concurrent_refresh_doubles fault start :
  rtc (pool_step fault start) (session_node, [sample_refresh; sample_refresh]) refresh_race ∧
  map answered refresh_race.2 = [true; true] ∧
  length (filter (λ s, in_family "f1" s && negb (ss_Revoked s) = true) (sessions_at refresh_race.1)) = 2%nat.
Proof. split; [apply schedule_reachable|]. split; vm_compute; reflexivity. Qed.
