(* ===== verification/Lockout.v ===== *)
(** * What a password change locks out
    (internal/auth/service.go, browser_session.go, interceptor.go)

    Changing a password writes the new hash and then revokes the sessions of the
    user.  From then on the requests of the authentication service - refresh, sign-in
    with a password that does not verify, organization switch, logout, password
    changes, and every request behind the interceptor - run concurrently without any
    of them being served as that user.  Requests that were admitted before the
    revocation are another matter: a refresh in flight creates a live session. *)
From S2P Require Import Prelude Domain Database Program RateLimit AuthStore Policy ProcedurePolicy Sessions Authn.
#[local] Open Scope Z_scope.

(** ** Rows that stay out of reach *)
Section lockout.
Context {T : Type} `{SessionStoreLaws T}.
Context (jwt : JWT) (cfg : AuthConfig) (bcrypt_hash : string → string → option string) (VerifyPassword : string → string → bool).
Context (casbin_Enforce : list CasbinRule → string → string → string → string → option bool) (publicMethods : list string).
Context (u : string) (guess : string → Prop) (fault : error → Prop).
Abbreviation tsvc := (svc T error).
Abbreviation rpc A := (tsvc (res connect_error A)).

(** The sessions of other users. *)
Definition others : string → string → string → Prop := λ _ _ user, user ≠ u.
(** The rows are found under their id, and no guess verifies against the user's. *)
Definition keyed (m : gmap string User) : Prop := ∀ k row, m !! k = Some row → us_ID row = k.
Definition secure (m : gmap string User) : Prop :=
  ∀ row, m !! u = Some row → ∀ g, guess g → VerifyPassword (us_PasswordHash row) g = false.
Definition users_rely (m m' : gmap string User) : Prop := keyed m → keyed m' ∧ (secure m → secure m').
(** What the rest of the system may do: sessions age, new ones are not the user's,
    and the user's password does not become one of the guesses. *)
Definition settles (t t' : T) : Prop := session_rely others t t' ∧ users_rely (users_at t) (users_at t').
#[export] Instance users_rely_preorder : PreOrder users_rely.
Proof using Type. split; [by intros m Hm|]. intros a b c Hab Hbc Ha. destruct (Hab Ha) as [Hb Hab'], (Hbc Hb) as [Hc Hbc']. split; [exact Hc|]. intros Hs. exact (Hbc' (Hab' Hs)). Qed.
#[export] Instance settles_preorder : PreOrder settles.
Proof using Type. split; [intros t; split; reflexivity|]. intros a b c [] []. split; by etransitivity. Qed.
Definition evicted (t : T) : Prop :=
  keyed (users_at t) ∧ secure (users_at t) ∧ doomed (with_user u) (sessions_at t).
Lemma others_not_user s : described others s → ¬ with_user u s.
Proof. done. Qed.
#[local] Hint Resolve others_not_user lasting_user : core.
Lemma evicted_settles t t' : settles t t' → evicted t → evicted t'.
Proof.
  intros [Hs Hu] (Hk & Hsec & Hd). destruct (Hu Hk) as [Hk' Hsec']. split_and!; [done|by apply Hsec'|].
  by eapply rely_doomed; [| |exact Hs|].
Qed.
Definition settling B (m : M T error B) : Prop := ∀ t, settles t (m t).2.
Lemma tame_settling B (m : M T error B) : tame others B m → keeps_users B m → settling B m.
Proof. intros Hm Hu t. split; [by apply Hm|]. rewrite Hu. reflexivity. Qed.
Lemma reads_settling {B} (m : SM B) : (∀ w, w_db (m w).2 = w_db w) → settling B (here m).
Proof. intros Hm. apply tame_settling; [by apply here_reads|by apply here_reads_users]. Qed.
Lemma node_settling {B} (m : NM B) : (∀ n, w_db (nd_world (m n).2) = w_db (nd_world n)) → settling B (at_node m).
Proof.
  intros Hm t. unfold settles, session_rely, users_at, sessions_at, at_node. rewrite lift_eq. simpl. rewrite node_of_set, Hm.
  split; reflexivity.
Qed.
Lemma calls_settling {A} (p : tsvc A) : calls (tame others) p → calls keeps_users p → calls settling p.
Proof.
  induction p as [a|B m k IH]; simpl; [done|]. intros [Hm Hk] [Hm' Hk']. split; [by apply tame_settling|].
  intros r. by apply IH.
Qed.
Lemma create_settling s : ss_UserID s ≠ u → calls settling (Create s).
Proof. intros Hs. apply calls_settling; [by apply create_calls|apply create_users]. Qed.
Lemma get_settling h : calls settling (GetByRefreshHash h).
Proof. apply calls_settling; [apply get_calls|apply get_users]. Qed.
Lemma family_settling f : calls settling (RevokeFamily f).
Proof. apply calls_settling; [apply family_calls|apply family_users]. Qed.
Lemma user_settling id : calls settling (RevokeByUserID id).
Proof. apply calls_settling; [apply user_calls|apply user_users]. Qed.
Lemma active_settling id : calls settling (HasActiveByUserID id).
Proof. apply calls_settling; [apply active_calls|apply active_users]. Qed.

(** *** Programs that only read, or revoke *)
Lemma row_db {A} (f : DB → option A) w : w_db ((let! row := query f in scan_row row) w).2 = w_db w.
Proof. unfold query, bind, gets, scan_row. simpl. by destruct (f (w_db w)). Qed.
Lemma row_Ok {A} (f : DB → option A) w a : ((let! row := query f in scan_row row) w).1 = Ok a → f (w_db w) = Some a.
Proof. unfold query, bind, gets, scan_row. simpl. destruct (f (w_db w)); [by intros [= ->]|done]. Qed.
Lemma CheckBinding_db d c n : w_db (nd_world (CheckBinding d c n).2) = w_db (nd_world n).
Proof.
  unfold CheckBinding. destruct (_ || _); [done|]. unfold catch, on_world. rewrite lift_eq. simpl.
  unfold GetByOrgAndCustomer, query, bind, gets. simpl. by destruct (binding_of _ _ _).
Qed.
Lemma CheckBindingID_db d b n : w_db (nd_world (CheckBindingID d b n).2) = w_db (nd_world n).
Proof.
  unfold CheckBindingID. destruct (_ || _); [done|]. unfold catch, on_world. rewrite lift_eq. simpl.
  unfold Get_binding, query, bind, gets. simpl. by destruct (binding_with_id _ _).
Qed.
Lemma access_db user org roles w : w_db (GenerateAccessToken jwt cfg user org roles w).2 = w_db w.
Proof. unfold GenerateAccessToken. by destruct (negb _). Qed.
Lemma hash_db p w : w_db (HashPassword bcrypt_hash p w).2 = w_db w.
Proof. unfold HashPassword, random_text, new_uuid, bind. simpl. by destruct (bcrypt_hash _ _). Qed.
Lemma limit_db key n : w_db (nd_world ((let! t := on_world now in λ n, let (ok, r) := Allow key t (nd_limiter n) in (Ok ok, put_limiter r n)) n).2) = w_db (nd_world n).
Proof. unfold bind, on_world. rewrite lift_eq. simpl. by destruct (Allow _ _ _). Qed.
Lemma limit_settling key : settling bool (limit key).
Proof. apply node_settling, limit_db. Qed.
Lemma then_settling {A B} (p : rpc A) (k : A → rpc B) : calls settling p → (∀ a, calls settling (k a)) → calls settling (and_then p k).
Proof. intros Hp Hk. apply calls_bind; [done|]. intros [a|e]; [apply Hk|done]. Qed.
Lemma try_settling {A B} (p : tsvc (res error A)) (f : error → rpc B) (k : A → rpc B) :
  calls settling p → (∀ e, calls settling (f e)) → (∀ a, calls settling (k a)) → calls settling (try p f k).
Proof. intros Hp Hf Hk. apply calls_bind; [done|]. by intros [a|e]. Qed.
Lemma store_error_settling {A} m e : calls settling (mapStoreError (A:=A) m e).
Proof. unfold mapStoreError. by case_bool_decide. Qed.
Lemma lookup_error_settling {A} m e : calls settling (refresh_lookup_error (A:=A) m e).
Proof. unfold refresh_lookup_error. case_bool_decide; [apply store_error_settling|done]. Qed.
Lemma revoke_refused_settling f m : calls settling (revoke_refused f m).
Proof. apply calls_bind; [apply family_settling|]. by intros [[]|[]]. Qed.
Lemma deny_settling {A} d : calls settling (deny (A:=A) d).
Proof. split; [by apply node_settling|]. by intros [v|e]. Qed.
Lemma binding_call_settling rq domain : settling _ (enforceRequestBinding rq domain).
Proof.
  assert (Hret : settling (option denial) (ret None)) by by intros t.
  unfold enforceRequestBinding. destruct (_ && _); [done|].
  destruct (negb _); [apply node_settling; intros n; apply CheckBinding_db|].
  destruct (negb _); [apply node_settling; intros n; apply CheckBindingID_db|done].
Qed.
Ltac settle_call :=
  first [ apply limit_settling | apply binding_call_settling | by apply node_settling
        | apply reads_settling; first [done|intros ?; apply row_db|apply access_db|apply hash_db] ].
Ltac settle :=
  repeat lazymatch goal with
  | |- ∀ _, _ => intros ?
  | |- calls _ (and_then _ _) => apply then_settling
  | |- calls _ (try _ _ _) => apply try_settling
  | |- calls _ (mapStoreError _ _) => apply store_error_settling
  | |- calls _ (refresh_lookup_error _ _) => apply lookup_error_settling
  | |- calls _ (revoke_refused _ _) => apply revoke_refused_settling
  | |- calls _ (deny _) => apply deny_settling
  | |- calls _ (RevokeFamily _) => apply family_settling
  | |- calls _ (RevokeByUserID _) => apply user_settling
  | |- calls _ (GetByRefreshHash _) => apply get_settling
  | |- calls _ (HasActiveByUserID _) => apply active_settling
  | |- calls _ (svc_bind _ _) => apply calls_bind
  | |- calls _ (Call _ _) => split; [settle_call|]
  | |- calls _ (match ?x with _ => _ end) => destruct x
  | |- calls _ _ => done
  end.
Lemma context_settling {A} id (k : string → list string → rpc A) : (∀ org roles, calls settling (k org roles)) → calls settling (userAuthorizationContext id k).
Proof. intros Hk. unfold userAuthorizationContext. settle; apply Hk. Qed.
Lemma collect_settling id members roles orgs found k :
  (∀ roles orgs found, calls settling (k roles orgs found)) → calls settling (collect_organizations id members roles orgs found k).
Proof.
  intros Hk. revert roles orgs found. induction members as [|m members IH]; intros roles orgs found; [apply Hk|].
  cbn [collect_organizations]. split; [settle_call|]. intros [o|e]; apply IH.
Qed.
Lemma principal_settling user org : calls settling (sessionPrincipal user org).
Proof. unfold sessionPrincipal. settle. apply collect_settling. settle. Qed.
Lemma primary_settling id : calls settling (primaryOrganization id).
Proof. unfold primaryOrganization. settle. Qed.
Lemma cookie_settling h : calls settling (validateAccessCookie jwt h).
Proof. unfold validateAccessCookie. settle. Qed.
Lemma session_check_settling claims domain : calls settling (session_check claims domain).
Proof. unfold session_check. settle. Qed.
Lemma Logout_settling h id raw : calls settling (Logout cfg h id raw).
Proof. unfold Logout, revokeRefreshCookie. settle. Qed.
Lemma ValidateToken_settling h token : calls settling (ValidateToken jwt cfg h token).
Proof. unfold ValidateToken, cookie_user. settle; first [apply cookie_settling|apply principal_settling]. Qed.
Lemma intercept_settling rq : calls settling (intercept jwt casbin_Enforce publicMethods rq).
Proof. unfold intercept. settle; apply session_check_settling. Qed.

(** *** Requests among others *)
Section requests.
Context (Inv : T → Prop) (Inv_settles : ∀ t t', settles t t' → Inv t → Inv t').
Abbreviation lwp := (wp Inv settles fault).
Definition anything {A} (_ : A) (_ : T) : Prop := True.
Abbreviation safe p t := (lwp p anything t).
Lemma settling_ok B (m : M T error B) : settling B m → guarantees Inv settles m.
Proof. intros Hm t Hi. split; [eapply Inv_settles; [apply Hm|done]|apply Hm]. Qed.
Lemma settling_calls {A} (p : tsvc A) : calls settling p → calls (λ B m, guarantees Inv settles m) p.
Proof. induction p as [a|B m k IH]; simpl; [done|]. intros [Hm Hk]. split; [by apply settling_ok|]. intros r. by apply IH. Qed.
Lemma lwp_law {A} (p : tsvc A) Q t : calls settling p → swp others fault p Q t → lwp p Q t.
Proof. intros Hp Hw. apply (wp_stronger (λ _, True) Inv (session_rely others) settles); [done|by intros x y []|by apply settling_calls|exact Hw]. Qed.
Lemma lwp_calls {A} (p : tsvc A) (Q : A → T → Prop) t : calls settling p → (∀ a t1, Inv t1 → settles t t1 → Q a t1) → lwp p Q t.
Proof. intros Hp HQ. apply wp_calls; [apply _|done|by apply settling_calls]. Qed.
Lemma safe_calls {A} (p : tsvc A) t : calls settling p → safe p t.
Proof. intros Hp. by apply lwp_calls. Qed.
Lemma lwp_try {A B} (p : tsvc (res error A)) f (k : A → rpc B) Q t :
  lwp p (λ r t1, lwp (match r with Ok a => k a | Err e => f e end) Q t1) t → lwp (try p f k) Q t.
Proof. apply wp_bind, _. Qed.
Lemma lwp_then {A B} (p : rpc A) (k : A → rpc B) Q t :
  lwp p (λ r t1, lwp (match r with Ok a => k a | Err e => Done (Err e) end) Q t1) t → lwp (and_then p k) Q t.
Proof. apply wp_bind, _. Qed.
(** A call that reads, with what its answer says of the rows. *)
Lemma lwp_reads {A B} (F : DB → B → Prop) (m : SM B) (k : res error B → tsvc A) Q t :
  (∀ w, w_db (m w).2 = w_db w) → (∀ w b, (m w).1 = Ok b → F (w_db w) b) →
  (∀ b t1, Inv t1 → settles t t1 → F (w_db (nd_world (node_of t1))) b → lwp (k (Ok b)) Q t1) →
  (∀ e t1, Inv t1 → settles t t1 → lwp (k (Err e)) Q t1) → lwp (Call (here m) k) Q t.
Proof.
  intros Hm HF Hok Herr. apply wp_call; [by apply settling_ok, reads_settling|]. intros t1 Hi Hr. split; [|intros e _; by apply Herr].
  destruct (settling_ok _ _ (reads_settling m Hm) t1 Hi) as [Hi2 Hr2].
  assert (Hr' : settles t (here m t1).2) by (by etransitivity).
  assert (Hdb : w_db (nd_world (node_of (here m t1).2)) = w_db (nd_world (node_of t1))) by (rewrite here_eq; simpl; rewrite node_of_set; apply Hm).
  destruct (here m t1).1 as [b|e] eqn:E; [|by apply Herr]. apply Hok; [done|done|]. rewrite Hdb. apply HF. by rewrite here_eq in E.
Qed.
Lemma lwp_call {A B} (m : M T error B) (k : res error B → tsvc A) Q t :
  settling B m → (∀ r t1, Inv t1 → settles t t1 → lwp (k r) Q t1) → lwp (Call m k) Q t.
Proof.
  intros Hm Hk. apply wp_call; [by apply settling_ok|]. intros t1 Hi Hr. split; [|by auto].
  destruct (settling_ok _ _ Hm t1 Hi). apply Hk; [done|]. by etransitivity.
Qed.
Lemma safe_create {A} s f (k : AuthSession → rpc A) t :
  ss_UserID s ≠ u → (∀ e, calls settling (f e)) → (∀ a, calls settling (k a)) → safe (try (Create s) f k) t.
Proof. intros Hs Hf Hk. apply safe_calls, try_settling; [by apply create_settling|done|done]. Qed.
(** Tokens issued for another user. *)
Lemma issue_safe id org roles t :
  id ≠ u → safe (issue_tokens jwt cfg id org roles (λ access refresh expires, Done (Ok (bearer_response access refresh expires)))) t.
Proof.
  intros Hid. unfold issue_tokens. apply lwp_call; [settle_call|]. intros [access|e] t1 _ _; [|by apply safe_calls].
  apply lwp_call; [settle_call|]. intros [refresh|e] t2 _ _; [|by apply safe_calls].
  apply (lwp_reads (λ _ s, ss_UserID s = id)); [done|by intros w s [= <-]| |intros e t3 _ _; by apply safe_calls].
  intros s t3 _ _ Hs. apply safe_create; [by rewrite Hs|intros e; settle|done].
Qed.
Lemma browser_issue_safe h user org t : us_ID user ≠ u → safe (issueBrowserSession jwt cfg h user org) t.
Proof.
  intros Hid. unfold issueBrowserSession. apply lwp_then, lwp_calls; [apply principal_settling|].
  intros [principal|e] t1 _ _; [|by apply safe_calls].
  apply lwp_call; [settle_call|]. intros [access|e] t2 _ _; [|by apply safe_calls].
  apply lwp_call; [settle_call|]. intros [refresh|e] t3 _ _; [|by apply safe_calls].
  apply (lwp_reads (λ _ s, ss_UserID s = us_ID user)); [done|by intros w s [= <-]| |intros e t4 _ _; by apply safe_calls].
  intros s t4 _ _ Hs. apply safe_create; [by rewrite Hs|intros e; settle|]. intros a. settle.
Qed.
Lemma rotate_safe s t : ss_UserID s ≠ u → safe (rotate jwt cfg s) t.
Proof.
  intros Hs. unfold rotate. apply lwp_try, lwp_calls; [apply family_settling|]. intros [_|e] t1 _ _; [|apply safe_calls; settle].
  assert (Hk : ∀ org roles t2, safe (let* access := here (GenerateAccessToken jwt cfg (ss_UserID s) org roles) fails internal "token generation failed" in
      let* refresh := here generateRefreshToken fails internal "token generation failed" in
      let* s' := here (new_session cfg (ss_UserID s) (ss_TokenFamily s) refresh.2) fails internal "clock" in
      try (Create s') (mapStoreError "session creation failed") (λ _, Done (Ok (bearer_response access.1 refresh.1 access.2)))) t2).
  { intros org roles t2. apply lwp_call; [settle_call|]. intros [access|e] t3 _ _; [|by apply safe_calls].
    apply lwp_call; [settle_call|]. intros [refresh|e] t4 _ _; [|by apply safe_calls].
    apply (lwp_reads (λ _ s', ss_UserID s' = ss_UserID s)); [done|by intros w s' [= <-]| |intros e t5 _ _; by apply safe_calls].
    intros s' t5 _ _ Hs'. apply safe_create; [by rewrite Hs'|intros e; settle|done]. }
  unfold userAuthorizationContext. apply lwp_call; [settle_call|]. intros [members|e] t2 _ _; [|apply Hk].
  destruct (membershipProjection members). apply Hk.
Qed.
End requests.

(** *** After the eviction *)
Abbreviation ewp := (wp evicted settles fault).
Abbreviation esafe p t := (ewp p anything t).
Lemma esafe_calls {A} (p : tsvc A) t : calls settling p → esafe p t.
Proof. apply safe_calls, evicted_settles. Qed.
Lemma ewp_err {A} (p : rpc A) Q t : calls settling p → swp others fault p is_err t → (∀ e t1, Q (Err e) t1) → ewp p Q t.
Proof.
  intros Hp Hw HQ. eapply wp_mono; [apply _| |by apply (lwp_law _ evicted_settles)]. intros [a|e] t1 _ _ Ha; [by destruct (Ha a)|apply HQ].
Qed.
(** A lookup never reports a session of the user as live. *)
Lemma lookup_evicted {A} h f (k : AuthSession → rpc A) Q t :
  (∀ e t1, ewp (f e) Q t1) → (∀ s t1, (ss_Revoked s = false → ss_UserID s ≠ u) → ewp (k s) Q t1) →
  ewp (try (GetByRefreshHash h) f k) Q t.
Proof.
  intros Hf Hk. apply lwp_try. apply wp_later; [apply _|]. intros t1 (Hkey & Hsec & Hd) _.
  eapply wp_mono; [apply _| |apply (lwp_law _ evicted_settles); [apply get_settling|by apply (get_user_doomed others _ h u)]].
  intros [s|e] t2 _ _ Hs; [|apply Hf]. apply Hk. intros Hlive Hu. by rewrite (Hs s eq_refl Hu) in Hlive.
Qed.
Lemma rotation_evicted h t : ewp (refreshSessionForRotation h) (λ r _, ∀ s, r = Ok s → ss_UserID s ≠ u) t.
Proof.
  assert (Hrefuse : ∀ f m t1, ewp (revoke_refused f m) (λ r _, ∀ s, r = Ok s → ss_UserID s ≠ u) t1).
  { intros f m t1. apply ewp_err; [apply revoke_refused_settling|apply revoke_refused_err|done]. }
  unfold refreshSessionForRotation. apply lookup_evicted.
  - intros e t1. apply ewp_err; [apply lookup_error_settling|apply lookup_error_err|done].
  - intros s t1 Hs. destruct (ss_Revoked s); [apply Hrefuse|].
    apply (lwp_call _ evicted_settles); [settle_call|]. intros [now|e] t2 _ _; [|by apply wp_Done].
    destruct (_ <=? now); [apply Hrefuse|]. apply (lwp_call _ evicted_settles); [settle_call|].
    intros [user|e] t3 _ _; [|apply Hrefuse]. destruct (active user); [|apply Hrefuse].
    apply wp_Done. intros t4 _ _ s' [= <-]. by apply Hs.
Qed.
(** The row a request finds under an id other than the user's is another user's. *)
Lemma user_row id {A} (k : res error User → rpc A) t :
  id ≠ u → (∀ user t1, us_ID user ≠ u → esafe (k (Ok user)) t1) → (∀ e t1, esafe (k (Err e)) t1) → esafe (Call (here (Get_user id)) k) t.
Proof.
  intros Hid Hok Herr. apply (lwp_reads _ evicted_settles (λ db user, users_of db !! id = Some user));
    [intros w; apply row_db|intros w user; apply row_Ok| |by auto].
  intros user t1 (Hkey & _) _ Hrow. apply Hok. by rewrite (Hkey _ _ Hrow).
Qed.
Lemma browser_session_evicted h user t :
  us_ID user ≠ u → esafe (and_then (primaryOrganization (us_ID user)) (issueBrowserSession jwt cfg h user)) t.
Proof.
  intros Hid. apply lwp_then, (lwp_calls _ evicted_settles); [apply primary_settling|].
  intros [org|e] t1 _ _; [by apply (browser_issue_safe _ evicted_settles)|by apply esafe_calls].
Qed.
Lemma RefreshToken_evicted h raw t : esafe (RefreshToken jwt cfg h raw) t.
Proof.
  unfold RefreshToken. destruct (_ && _).
  - unfold refreshBrowserSession. destruct (csrf_ok h); [|by apply esafe_calls]. cbn [negb]. case_bool_decide; [by apply esafe_calls|].
    apply lookup_evicted; [intros e t1; apply esafe_calls; settle|]. intros s t1 Hs.
    apply (lwp_call _ evicted_settles); [settle_call|]. intros [now|e] t2 _ _; [|by apply esafe_calls].
    destruct (ss_Revoked s); cbn [orb]; [by apply esafe_calls|]. destruct (_ <=? now); [by apply esafe_calls|].
    apply lwp_try, (lwp_calls _ evicted_settles); [apply family_settling|]. intros [_|e] t3 _ _; [|apply esafe_calls; settle].
    apply user_row; [by apply Hs| |intros e t4; by apply esafe_calls]. intros user t4 Hu.
    destruct (active user); [|by apply esafe_calls]. by apply browser_session_evicted.
  - apply lwp_then. eapply wp_mono; [apply _| |apply rotation_evicted]. intros [s|e] t1 _ _ Hs; [|by apply esafe_calls].
    apply (rotate_safe _ evicted_settles). by apply Hs.
Qed.
(** A guessed password signs nobody in as the user. *)
Lemma signed_in name (k : res error User → rpc SessionResponse) t :
  (∀ user t1, (us_ID user = u → ∀ g, guess g → VerifyPassword (us_PasswordHash user) g = false) → esafe (k (Ok user)) t1) →
  (∀ e t1, esafe (k (Err e)) t1) → esafe (Call (here (GetByUsername name)) k) t.
Proof.
  intros Hok Herr.
  apply (lwp_reads _ evicted_settles (λ db user, ∃ id, users_of db !! id = Some user)); [intros w; apply row_db| | |by auto].
  - intros w user Hrow%row_Ok. apply find_row_Some in Hrow as [Hin _]. apply list_elem_of_fmap in Hin as ([id v] & -> & Hv).
    exists id. by apply elem_of_map_to_list in Hv.
  - intros user t1 (Hkey & Hsec & _) _ [id Hrow]. apply Hok. intros Hu g Hg. apply Hsec; [|done]. by rewrite <- Hu, (Hkey _ _ Hrow).
Qed.
Lemma Login_evicted h name password t : guess password → esafe (Login jwt cfg VerifyPassword h name password) t.
Proof.
  intros Hg. unfold Login, loginBrowserSession. destruct (af_browserEnabled cfg).
  all: apply (lwp_call _ evicted_settles); [settle_call|]; intros [ok|e] t1 _ _; [|by apply esafe_calls].
  all: destruct ok; [|by apply esafe_calls]; apply signed_in; [|intros e t2; by apply esafe_calls]; intros user t2 Hu.
  all: assert (Hu' : VerifyPassword (us_PasswordHash user) password = true → us_ID user ≠ u) by (intros E Hid; by rewrite (Hu Hid _ Hg) in E).
  - destruct (active user); [|by apply esafe_calls]. destruct (VerifyPassword _ _); [|by apply esafe_calls]. by apply browser_session_evicted, Hu'.
  - destruct (active user); [|by apply esafe_calls]. destruct (VerifyPassword _ _); [|by apply esafe_calls].
    unfold userAuthorizationContext. apply (lwp_call _ evicted_settles); [settle_call|].
    intros [members|e] t3 _ _; [destruct (membershipProjection members)|]; by apply (issue_safe _ evicted_settles), Hu'.
Qed.
(** The tokens of a cookie name the user they were issued to. *)
Lemma SwitchOrganization_evicted h id org t :
  (∀ now c, ValidateAccessToken_at jwt (cookieValue h AccessCookieName) now = Some c →
     af_browserEnabled cfg = true → cookieValue h AccessCookieName ≠ "" → cl_UserID c ≠ u) →
  esafe (SwitchOrganization jwt cfg h id org) t.
Proof.
  intros Hcookie. unfold SwitchOrganization. destruct (af_browserEnabled cfg) eqn:Eb; cbn [andb]; [case_bool_decide as Hc; cbn [negb]|].
  1,3: apply esafe_calls; settle.
  destruct (csrf_ok h); [|by apply esafe_calls]. unfold cookie_user, validateAccessCookie. rewrite (bool_decide_false _ Hc). apply lwp_then.
  apply (lwp_reads _ evicted_settles (λ _ c, ∀ x, c = Some x → cl_UserID x ≠ u)); [done| | |intros e t1 _ _; apply wp_Done; intros t2 _ _; by apply esafe_calls].
  - intros w c [= <-] x E. by eapply Hcookie.
  - intros [c|] t1 _ _ Hx; apply wp_Done; intros t2 _ _; [|by apply esafe_calls].
    apply user_row; [by apply Hx| |intros e t3; by apply esafe_calls]. intros user t3 Hu.
    destruct (active user); [|by apply esafe_calls]. by apply (browser_issue_safe _ evicted_settles).
Qed.

(** *** Password changes *)
Lemma alter_keyed f k (m : gmap string User) : (∀ r, us_ID (f r) = us_ID r) → keyed m → keyed (alter f k m).
Proof. intros Hf Hm k' row. rewrite lookup_alter_Some. intros [(-> & r & Hr & ->)|[_ Hr]]; [rewrite Hf|]; by apply Hm. Qed.
Definition unguessable (hash : string) : Prop := ∀ g, guess g → VerifyPassword hash g = false.
Lemma alter_secure v now (m : gmap string User) :
  (us_ID v = u → unguessable (us_PasswordHash v)) → secure m → secure (alter (updated_user v now) (us_ID v) m).
Proof. intros Hv Hm row. rewrite lookup_alter_Some. intros [(Hid & r & _ & ->)|[_ Hr]]; [by apply Hv|by apply Hm]. Qed.
Lemma alter_secured v now (m : gmap string User) :
  us_ID v = u → unguessable (us_PasswordHash v) → secure (alter (updated_user v now) (us_ID v) m).
Proof. intros Hid Hv row. rewrite lookup_alter_Some. intros [(_ & r & _ & ->)|[Hne _]]; [by apply Hv|by rewrite Hid in Hne]. Qed.
Lemma Update_user_settling v : (us_ID v = u → unguessable (us_PasswordHash v)) → settling unit (here (Update_user v)).
Proof.
  intros Hv t. assert (Hp : preserves (db_rel (on_table users_of users_rely)) (Update_user v)).
  { unfold Update_user. db_preserve. apply preserves_exec. intros db. unfold on_table, users_of. simpl. intros Hk.
    split; [by apply alter_keyed|by apply alter_secure]. }
  split.
  - apply (here_tame others); [|done]. unfold Update_user, session_step. db_preserve. apply preserves_exec. intros db.
    unfold on_table, sessions_of. simpl. apply ages_revoke.
  - unfold users_at. rewrite here_eq. simpl. rewrite node_of_set. simpl. destruct (Update_user v _) as [r w'] eqn:E. exact (Hp _ _ _ E).
Qed.
Lemma Update_user_secures v t :
  us_ID v = u → unguessable (us_PasswordHash v) → (here (Update_user v) t).1 = Ok tt → secure (users_at (here (Update_user v) t).2).
Proof.
  intros Hid Hv. unfold users_at. rewrite here_eq. simpl. rewrite node_of_set. simpl. destruct (Update_user v _) as [r w'] eqn:E. simpl. intros ->.
  unfold Update_user in E. dinv. apply run_tx_Ok in E as [_ E].
  assert (Hm : ∀ a w1, commit (exec (on_auth (λ a, set_users (alter (updated_user v (rfc3339 (w_clock (nd_world (node_of t)) 0))) (us_ID v) (at_users a)) a)) ;!
      when (bool_decide (us_Status v = UserDisabled)) (exec (on_auth (λ a, set_sessions (update_where (of_user (us_ID v)) revoke (at_sessions a)) a))))
      (attempt (tick (nd_world (node_of t)))) = (Ok a, w1) → a = Commit tt ∧ secure (users_of (w_db w1))).
  { intros a w1 (b & w2 & Hb & Hr)%bind_Ok. apply ret_Ok in Hr as [<- <-]. destruct b. split; [done|].
    clear E; destruct (bool_decide _); do 2 dinv; try (apply ret_Ok in Hb as [_ <-]; simpl); by apply alter_secured. }
  destruct E as [E|(w1 & E & _)]; [by apply Hm in E as [_ E]|by apply Hm in E as [E _]].
Qed.
(** Another user's change. *)
Lemma ChangePassword_evicted id old new t : id ≠ u → esafe (ChangePassword bcrypt_hash VerifyPassword id old new) t.
Proof.
  intros Hid. unfold ChangePassword. case_bool_decide; [by apply esafe_calls|].
  apply user_row; [done| |intros e t1; by apply esafe_calls]. intros user t1 Hu. destruct (VerifyPassword _ _); [|by apply esafe_calls].
  apply (lwp_call _ evicted_settles); [settle_call|]. intros [hash|e] t2 _ _; [|by apply esafe_calls].
  apply esafe_calls. split; [by apply Update_user_settling|]. intros [[]|e]; settle.
Qed.
(** The user's own change: while it runs the table stays keyed. *)
Definition keyed_at (t : T) : Prop := keyed (users_at t).
Lemma keyed_settles t t' : settles t t' → keyed_at t → keyed_at t'.
Proof. intros [_ Hu] Hk. by destruct (Hu Hk). Qed.
Lemma ChangePassword_evicts old new t :
  (∀ salt hash, bcrypt_hash salt new = Some hash → unguessable hash) →
  wp keyed_at settles fault (ChangePassword bcrypt_hash VerifyPassword u old new) (λ r t', r = Ok tt → evicted t') t.
Proof.
  intros Hnew. set (Q := λ (r : res connect_error unit) t', r = Ok tt → evicted t').
  assert (Hend : ∀ (p : rpc unit) t1, calls settling p → swp others fault p is_err t1 → wp keyed_at settles fault p Q t1).
  { intros p t1 Hp Hw. eapply wp_mono; [apply _| |by apply (lwp_law _ keyed_settles)]. intros r t2 _ _ He ->. by destruct (He tt). }
  assert (Hrefuse : ∀ c m t1, wp keyed_at settles fault (refuse c m) Q t1) by (intros c m t1; apply Hend; [done|apply refuse_err]).
  unfold ChangePassword. case_bool_decide; [apply Hrefuse|].
  apply (lwp_reads _ keyed_settles (λ db user, users_of db !! u = Some user));
    [intros w; apply row_db|intros w user; apply row_Ok| |intros e t1 _ _; apply Hrefuse].
  intros user t1 Hkey1 _ Hrow. assert (Hid : us_ID user = u) by by apply Hkey1. destruct (VerifyPassword _ _); [|apply Hrefuse].
  apply (lwp_reads _ keyed_settles (λ _ hash, unguessable hash)); [apply hash_db| | |intros e t2 _ _; apply Hrefuse].
  { intros w hash. unfold HashPassword, random_text, new_uuid, bind. simpl. destruct (bcrypt_hash _ _) eqn:E; [|done].
    intros [= <-]. by eapply Hnew. }
  intros hash t2 _ _ Hhash. set (v := {| us_ID := us_ID user |}).
  assert (Hv : settling unit (here (Update_user v))) by (by apply Update_user_settling).
  apply wp_call; [by apply (settling_ok _ keyed_settles)|]. intros t3 Hkey3 _. split; [|intros e _; apply Hrefuse].
  destruct (here (Update_user v) t3).1 as [[]|e] eqn:Eu; [|apply Hrefuse].
  assert (Hsec := Update_user_secures v t3 Hid Hhash Eu). assert (Hkey := keyed_settles _ _ (Hv t3) Hkey3).
  apply lwp_try. eapply wp_mono; [apply _| |apply (lwp_law _ keyed_settles); [apply user_settling|by apply (user_doomed others)]].
  intros [[]|e] t4 Hkey4 [_ Hu4] Hd.
  - apply wp_Done. intros t5 _ Hr5 _. eapply evicted_settles; [exact Hr5|]. destruct (Hu4 Hkey) as [_ Hsec4].
    split_and!; [done|by apply Hsec4|by apply Hd].
  - unfold mapStoreError. case_bool_decide; apply Hrefuse.
Qed.

(** *** Requests behind the interceptor *)
Abbreviation intercepted rq := (intercept (T:=T) jwt casbin_Enforce publicMethods rq).
(** The actor of a request is the user of its token. *)
Definition from_token (rq : Request) (r : res connect_error (option (authctx_Actor * string))) (_ : T) : Prop :=
  ∀ actor token, r = Ok (Some (actor, token)) →
    token = (resolveRequestToken (rq_header rq)).1 ∧
    ∃ now c, ValidateAccessToken_at jwt token now = Some c ∧ ax_UserID actor = cl_UserID c.
Lemma session_actor claims domain t :
  ewp (session_check claims domain) (λ r _, ∀ actor, r = Ok actor → ax_UserID actor = cl_UserID claims) t.
Proof.
  unfold session_check. apply (lwp_call _ evicted_settles); [settle_call|]. intros [user|e] t1 _ _; [|by apply wp_Done].
  destruct (negb _); [by apply wp_Done|]. apply lwp_try, (lwp_calls _ evicted_settles); [apply active_settling|].
  intros [[]|e] t2 _ _; cbn [negb]; [|by apply wp_Done..]. by apply wp_Done; intros t3 _ _ actor [= <-].
Qed.
Lemma intercept_token rq t : ewp (intercepted rq) (from_token rq) t.
Proof.
  assert (Hdeny : ∀ d t1, ewp (deny d) (from_token rq) t1) by (intros d t1; apply ewp_err; [apply deny_settling|apply deny_err|done]).
  unfold intercept. case_bool_decide; [by apply wp_Done|]. destruct (resolveRequestToken (rq_header rq)) as [token fromCookie] eqn:Et.
  case_bool_decide; [by apply wp_Done|].
  apply (lwp_reads _ evicted_settles (λ _ c, ∃ now, ValidateAccessToken_at jwt token now = c));
    [done|by intros w c [= <-]; eexists| |by intros e t1 _ _; apply wp_Done].
  intros [claims|] t1 _ _ [now Hnow]; [|by apply wp_Done]. destruct (resolveDomain _ _ _) as [domain|d]; [|apply Hdeny].
  destruct (lookupProcedure _) as [policy|]; [|apply Hdeny]. destruct (_ && _); [by apply wp_Done|].
  apply (lwp_call _ evicted_settles); [settle_call|]. intros [[d|]|e] t2 _ _; [apply Hdeny| |by apply wp_Done].
  assert (Hchecked : ∀ t3, ewp (and_then (session_check claims domain) (λ actor, Done (Ok (Some (actor, token))))) (from_token rq) t3).
  { intros t3. apply lwp_then. eapply wp_mono; [apply _| |apply session_actor]. intros [actor|e] t4 _ _ Ha; [|by apply wp_Done].
    apply wp_Done. intros t5 _ _ a x [= <- <-]. rewrite Et. split; [done|]. exists now, claims. split; [done|by apply Ha]. }
  destruct (bool_decide _); [|apply Hchecked]. apply (lwp_call _ evicted_settles); [settle_call|].
  intros [[d|]|e] t3 _ _; [apply Hdeny|apply Hchecked|by apply wp_Done].
Qed.
Lemma intercept_evicted rq t : ewp (intercepted rq) (λ r t', not_user u r t' ∧ from_token rq r t') t.
Proof.
  apply wp_and; [|apply intercept_token]. apply wp_later; [apply _|]. intros t1 (_ & _ & Hd) _.
  apply (lwp_law _ evicted_settles); [apply intercept_settling|]. by apply intercept_refused.
Qed.

(** *** The pool *)
(** A handler behind the interceptor, and the actor it was run for. *)
Definition behind {A} (rq : Request) (handler : authctx_Actor → tsvc A) : tsvc (option authctx_Actor) :=
  svc_bind (intercepted rq) (λ r,
    match r with Ok (Some (actor, _)) => svc_bind (handler actor) (λ _, Done (Some actor)) | _ => Done None end).
Definition open {A} (p : tsvc A) : tsvc (option authctx_Actor) := svc_bind p (λ _, Done None).
(** A request carries one credential: no bearer token beside an access cookie. *)
Definition one_credential (h : Header) : Prop :=
  af_browserEnabled cfg = true → cookieValue h AccessCookieName ≠ "" → extractToken (hd_Authorization h) = "".
Inductive thread : tsvc (option authctx_Actor) → Prop :=
| thread_request rq : thread (behind rq (λ _, Done tt))
| thread_switch rq org : one_credential (rq_header rq) →
    thread (behind rq (λ actor, SwitchOrganization jwt cfg (rq_header rq) (ax_UserID actor) org))
| thread_change rq old new : thread (behind rq (λ actor, ChangePassword bcrypt_hash VerifyPassword (ax_UserID actor) old new))
| thread_login h name password : guess password → thread (open (Login jwt cfg VerifyPassword h name password))
| thread_refresh h raw : thread (open (RefreshToken jwt cfg h raw))
| thread_logout h id raw : thread (open (Logout cfg h id raw))
| thread_validate h token : thread (open (ValidateToken jwt cfg h token))
| thread_other A (p : tsvc A) : calls settling p → thread (open p).
Definition not_the_user (a : option authctx_Actor) (_ : T) : Prop := ∀ actor, a = Some actor → ax_UserID actor ≠ u.
Lemma open_request {A} (p : tsvc A) t : esafe p t → ewp (open p) not_the_user t.
Proof. intros Hp. apply wp_bind; [apply _|]. eapply wp_mono; [apply _| |exact Hp]. intros a t1 _ _ _. by apply wp_Done. Qed.
Lemma behind_safe {A} rq (handler : authctx_Actor → tsvc A) t :
  (∀ actor now c t1, ax_UserID actor ≠ u → ValidateAccessToken_at jwt (resolveRequestToken (rq_header rq)).1 now = Some c →
     ax_UserID actor = cl_UserID c → esafe (handler actor) t1) →
  ewp (behind rq handler) not_the_user t.
Proof.
  intros Hh. apply wp_bind; [apply _|]. eapply wp_mono; [apply _| |apply intercept_evicted].
  intros [[[actor token]|]|e] t1 _ _ [Hu Htok]; [|by apply wp_Done..].
  specialize (Hu _ _ eq_refl). destruct (Htok _ _ eq_refl) as (-> & now & c & Hc & Ha).
  apply wp_bind; [apply _|]. eapply wp_mono; [apply _| |by eapply Hh]. intros x t2 _ _ _. apply wp_Done. by intros t3 _ _ a [= <-].
Qed.
Lemma cookie_token h :
  one_credential h → af_browserEnabled cfg = true → cookieValue h AccessCookieName ≠ "" →
  (resolveRequestToken h).1 = cookieValue h AccessCookieName.
Proof. intros Hone Hb Hc. unfold resolveRequestToken. by rewrite (Hone Hb Hc), (bool_decide_false _ Hc). Qed.
(** A token names the same user whenever it is read. *)
Definition stable_claims : Prop :=
  ∀ token now now' c c', ValidateAccessToken_at jwt token now = Some c → ValidateAccessToken_at jwt token now' = Some c' → cl_UserID c = cl_UserID c'.
Lemma request_ok p t : stable_claims → thread p → evicted t → ewp p not_the_user t.
Proof.
  intros Hstable Hp _. destruct Hp as [rq|rq org Hone|rq old new|h name password Hg|h raw|h id raw|h token|A p Hp].
  - apply behind_safe. intros. by apply esafe_calls.
  - apply behind_safe. intros actor now c t1 Hu Hc Ha. apply SwitchOrganization_evicted. intros now' c' Hc' Hb Hne.
    rewrite (cookie_token _ Hone Hb Hne) in Hc. by rewrite (Hstable _ _ _ _ _ Hc' Hc), <- Ha.
  - apply behind_safe. intros actor now c t1 Hu _ _. by apply ChangePassword_evicted.
  - by apply open_request, Login_evicted.
  - apply open_request, RefreshToken_evicted.
  - apply open_request, esafe_calls, Logout_settling.
  - apply open_request, esafe_calls, ValidateToken_settling.
  - by apply open_request, esafe_calls.
Qed.
Definition meanwhile (t t' : T) : Prop := keyed_at t' ∧ settles t t'.
End lockout.

(** C11: a password change locks out whoever does not know the new password.  Let
    the user's change succeed, the user rows being stored under their ids and nothing
    else creating a session of the user or setting the user's password while it runs.
    From then on let any number of requests run concurrently, with calls failing at
    any point: calls behind the interceptor with any token, refreshes with any
    refresh token or cookie, organization switches that carry one credential, logouts,
    token validations, password changes behind the interceptor, sign-ins under any
    name with a password that is one of the [guess]es, none of which bcrypt takes for
    the new password, and any other program whose calls neither create a session of
    the user nor set the user's password.  Then no session of the user is live and no
    request is served as the user.  A refresh or switch admitted before the change
    revoked the sessions is not covered: see [refresh_in_flight_survives]. *)
Theorem password_change_locks_out {T} `{SessionStoreLaws T} jwt cfg bcrypt_hash VerifyPassword casbin_Enforce publicMethods
    userID (guess : string → Prop) fault old new_password (t t1 t2 : T) threads :
  stable_claims jwt → keyed (users_at t) →
  (∀ salt hash g, bcrypt_hash salt new_password = Some hash → guess g → VerifyPassword hash g = false) →
  runs (meanwhile VerifyPassword userID guess) fault (ChangePassword bcrypt_hash VerifyPassword userID old new_password) t (Ok tt) t1 →
  rtc (pool_step fault (thread jwt cfg bcrypt_hash VerifyPassword casbin_Enforce publicMethods userID guess)) (t1, []) (t2, threads) →
  doomed (with_user userID) (sessions_at t2) ∧ ∀ actor, Done (Some actor) ∈ threads → ax_UserID actor ≠ userID.
Proof.
  intros Hstable Hkey Hbcrypt Hchange Hpool.
  destruct (wp_runs _ _ _ _ _ _ _ _ Hchange Hkey (ChangePassword_evicts _ _ userID guess fault old new_password t
    (λ salt hash E g, Hbcrypt salt hash g E))) as (_ & _ & Hevicted). specialize (Hevicted eq_refl).
  assert (Hok := λ p s, request_ok jwt cfg bcrypt_hash VerifyPassword casbin_Enforce publicMethods userID guess fault p s Hstable).
  split; [|intros actor Ha; by eapply (pool_done _ _ _ _ (not_the_user userID) Hok _ _ _ Hpool Hevicted Ha)].
  by destruct (pool_ok _ _ _ _ (not_the_user userID) Hok _ _ Hpool Hevicted (Forall_nil_2 _)) as ((_ & _ & Hd) & _).
Qed.

(** ** Two users, one of whom changes the password *)
Definition duo_jwt : JWT :=
  {| ValidateAccessToken_at token _ :=
       if bool_decide (token ∈ ["signed-u1"; "signed-u2"])
       then Some {| cl_UserID := String.substring 7 2 token; cl_Roles := []; cl_OrgID := "o1"; cl_ID := "j"; cl_IssuedAt := 0; cl_ExpiresAt := 2000 * nsec |}
       else None;
     SignedString c := ("signed-" ++ cl_UserID c)%string |}.
Definition duo_users : gmap string User :=
  {["u1" := bare_user "u1" "ann" "hash-old" "" "" UserActive; "u2" := bare_user "u2" "bob" "hash-bob" "" "" UserActive]}.
Definition duo_db : DB :=
  on_auth (λ a, set_sessions [sample_session "s1" "u1" "f1" "r1"; sample_session "s2" "u2" "f2" "r2"] (set_users duo_users a))
    (w_db (nd_world Policy.sample_node)).
Definition duo_node : Node :=
  {| nd_world := sample_world duo_db;
     nd_enforcer := {| ef_policy := [g_rule "u1" "release_admin" "o1"; g_rule "u2" "release_admin" "o1"; p_rule "release_admin" "o1" "organization" "read";
                                     p_rule "release_admin" "o1" "organization" "write"];
                       ef_healthy := true; ef_version := 1; ef_closed := false |};
     nd_limiter := NewRateLimiter 5 (60 * nsec) |}.
Definition duo_request (procedure : string) (h : Header) : Request :=
  {| rq_procedure := procedure; rq_header := h; rq_org_id := "o1"; rq_customer_id := ""; rq_binding_id := "" |}.
Definition duo_read (token : string) : nsvc (option authctx_Actor) :=
  behind duo_jwt reference_Enforce [] (duo_request "/auth.v1.OrganizationService/GetOrganization" (plain_header ("Bearer " ++ token))) (λ _, Done tt).
Definition duo_refresh : nsvc (option authctx_Actor) := open (RefreshToken duo_jwt (sample_config true) (plain_header "") "r1").
Definition duo_change : nsvc (res connect_error unit) := ChangePassword sample_bcrypt sample_verify "u1" "old" "new".
Definition changed_node : Node := (exec_svc duo_change duo_node).2.
Definition duo_guess (g : string) : Prop := g ≠ "new".
Definition duo_thread : nsvc (option authctx_Actor) → Prop :=
  thread duo_jwt (sample_config true) sample_bcrypt sample_verify reference_Enforce [] "u1" duo_guess.
Definition actor_in (user : string) : authctx_Actor :=
  {| ax_UserID := user; ax_OrganizationID := "o1"; ax_Roles := []; ax_Service := "" |}.
Definition finished {A} (p : nsvc A) : option A := match p with Done a => Some a | Call _ _ => None end.

(** The old access token, refresh token and password are tried while another user works. *)
Definition attempts : list (nsvc (option authctx_Actor)) :=
  [duo_read "signed-u1"; duo_read "signed-u2"; duo_refresh;
   open (Login duo_jwt (sample_config true) sample_verify (plain_header "") "ann" "old")].
Definition attempted : Node * list (nsvc (option authctx_Actor)) :=
  run_schedule (concat (replicate 12 [0; 1; 2; 3]))%nat (changed_node, attempts).
Lemma sample_verify_other g : g ≠ "new" → sample_verify "hash-new" g = false.
Proof. intros Hg. apply bool_decide_eq_false. intros E. simpl in E. injection E as E. by apply Hg. Defined.
Lemma duo_keyed : keyed (users_at duo_node).
Proof.
  intros k row Hrow. change (duo_users !! k = Some row) in Hrow. unfold duo_users in Hrow.
  apply lookup_insert_Some in Hrow as [[<- <-]|[_ Hrow]]; [done|]. by apply lookup_singleton_Some in Hrow as [<- <-].
Defined.
Lemma password_change_locks_out_witness :
  (exec_svc duo_change duo_node).1 = Ok tt ∧ map finished attempted.2 = [Some None; Some (Some (actor_in "u2")); Some None; Some None] ∧
  doomed (with_user "u1") (sessions_at attempted.1) ∧ ∀ actor, Done (Some actor) ∈ attempted.2 → ax_UserID actor ≠ "u1".
Proof.
  assert (E : (exec_svc duo_change duo_node).1 = Ok tt) by (vm_compute; reflexivity).
  split; [exact E|]. split; [vm_compute; reflexivity|].
  assert (Hrun := runs_exec duo_change duo_node (meanwhile sample_verify "u1" duo_guess) (λ _, False)). rewrite E in Hrun.
  refine (password_change_locks_out duo_jwt (sample_config true) sample_bcrypt sample_verify reference_Enforce [] "u1" duo_guess
    (λ _, False) "old" "new" duo_node changed_node attempted.1 attempted.2 _ duo_keyed _ Hrun _).
  - intros token now now' c c' Hc Hc'. simpl in *. by rewrite Hc in Hc'; injection Hc' as ->.
  - intros salt hash g [= <-] Hg. by apply sample_verify_other.
  - rewrite <- surjective_pairing. do 2 (eapply rtc_l; [apply pool_start; apply thread_request|]).
    eapply rtc_l; [apply pool_start; apply (thread_refresh _ _ _ _ _ _ _ _ (plain_header "") "r1")|].
    eapply rtc_l; [apply pool_start; by apply (thread_login _ _ _ _ _ _ _ _ (plain_header "") "ann" "old")|].
    apply (schedule_reachable _ _ (concat (replicate 12 [0; 1; 2; 3]))%nat (changed_node, attempts)).
Defined.

(** ** What the change does not lock out

    A refresh looks the session up, revokes its family and then inserts a new
    row: one admitted before the change leaves a live session after it, and the old
    access token is served again. *)
Definition answered {A} (p : nsvc (res connect_error A)) : nsvc bool := svc_bind p (λ r, Done (match r with Ok _ => true | Err _ => false end)).
Definition refresh_race : Node * list (nsvc bool) :=
  run_schedule ([0; 0; 0] ++ replicate 4 1 ++ replicate 8 0)%nat
    (duo_node, [answered (RefreshToken duo_jwt (sample_config true) (plain_header "") "r1"); answered duo_change]).
Theorem refresh_in_flight_survives fault start :
  rtc (pool_step fault start) (duo_node, [answered (RefreshToken duo_jwt (sample_config true) (plain_header "") "r1"); answered duo_change]) refresh_race ∧
  map finished refresh_race.2 = [Some true; Some true] ∧
  existsb (λ s, of_user "u1" s && negb (ss_Revoked s)) (sessions_at refresh_race.1) = true ∧
  (exec_svc (duo_read "signed-u1") refresh_race.1).1 = Some (actor_in "u1").
Proof. split; [apply schedule_reachable|]. split_and!; vm_compute; reflexivity. Qed.

(** The interceptor authenticates the bearer token, the browser switch the access
    cookie, whose user needs no live session: with both, another user's request
    issues a session for the user whose sessions were revoked. *)
Definition two_credentials : Header :=
  {| hd_Authorization := "Bearer signed-u2"; hd_cookies := [(AccessCookieName, "signed-u1"); (CSRFCookieName, "x")]; hd_csrf := "x";
     hd_Origin := ""; hd_SecFetchMode := ""; hd_IdempotencyKey := "" |}.
Definition revived : option authctx_Actor * Node :=
  exec_svc (behind duo_jwt reference_Enforce [] (duo_request "/auth.v1.AuthService/SwitchOrganization" two_credentials)
    (λ actor, SwitchOrganization duo_jwt (sample_config true) two_credentials (ax_UserID actor) "o1")) changed_node.
Theorem switch_revives_revoked_user :
  (exec_svc (duo_read "signed-u1") changed_node).1 = None ∧
  revived.1 = Some (actor_in "u2") ∧
  existsb (λ s, of_user "u1" s && negb (ss_Revoked s)) (sessions_at revived.2) = true ∧
  (exec_svc (duo_read "signed-u1") revived.2).1 = Some (actor_in "u1").
Proof. split_and!; vm_compute; reflexivity. Qed.
