(* ===== verification/ValuesRows.v ===== *)
(** * Values revisions: rows, pages and convergence paths
    (internal/store/sqlite/values.go, internal/store/values_convergence.go)

    A [values_revisions] row is exactly the [ValuesRevision] that [scanValues]
    reads back: the JSON columns hold the lists they encode, an empty parent id
    is the NULL parent, and RFC3339Nano columns hold their instant.  A page
    cursor is the base64 of a signed JSON object. *)
From S2P Require Import Prelude Utf8 Json JsonText Redact Hash Domain Database.
From stdpp Require Import pretty.
#[local] Open Scope Z_scope.

Definition byID (id : string) (r : ValuesRevision) : bool := bool_decide (vr_ID r = id).
Definition ofDefinition (id : string) (r : ValuesRevision) : bool := bool_decide (vr_ReleaseDefinitionID r = id).
Definition inStatus (s : ValuesStatus) (r : ValuesRevision) : bool := bool_decide (vr_Status r = s).

(** The partial unique indexes [ux_vr_one_approved_per_def] and
    [ux_vr_one_pending_per_def]. *)
Definition exclusive_status (s : ValuesStatus) : bool :=
  bool_decide (s = ValuesStatusApproved) || bool_decide (s = ValuesStatusPendingApproval).
(** Two rows that the unique indexes forbid together. *)
Definition rows_clash (a b : ValuesRevision) : bool :=
  byID (vr_ID a) b
  || (ofDefinition (vr_ReleaseDefinitionID a) b
      && (bool_decide (vr_Version a = vr_Version b) || (exclusive_status (vr_Status a) && inStatus (vr_Status a) b))).

(** [INSERT INTO values_revisions]: NOT NULL and CHECK, then the unique indexes
    (reported as [duplicate]), then the foreign keys. *)
Definition insert_values_row (row : ValuesRevision) (duplicate : error) (msg : string) : SM unit :=
  fail_if (raw_is_empty (vr_CanonicalDocument row)) (ErrOther msg) ;!
  fail_if (bool_decide (vr_ParentRevisionID row = "") && negb (vr_Version row =? 1)) (ErrOther msg) ;!
  let! clash := query (λ db, existsb (rows_clash row) (db_values_revisions db)) in
  fail_if clash duplicate ;!
  check_fk (λ db, bool_decide (is_Some (db_release_definitions db !! vr_ReleaseDefinitionID row))
                  && (bool_decide (vr_ParentRevisionID row = "")
                      || existsb (byID (vr_ParentRevisionID row)) (db_values_revisions db))) msg ;!
  exec (λ db, set_values_revisions (db_values_revisions db ++ [row]) db).

Definition with_insert_defaults (r : ValuesRevision) (stateVersion : Z) (created updated : time) : ValuesRevision :=
  {| vr_ID := vr_ID r; vr_ReleaseDefinitionID := vr_ReleaseDefinitionID r; vr_Version := vr_Version r;
     vr_StateVersion := stateVersion; vr_Status := vr_Status r; vr_CanonicalDocument := vr_CanonicalDocument r;
     vr_Digest := vr_Digest r; vr_ParentRevisionID := vr_ParentRevisionID r; vr_SecretRefs := vr_SecretRefs r;
     vr_CreatedByUserID := vr_CreatedByUserID r; vr_SubmittedAt := vr_SubmittedAt r; vr_DecidedAt := vr_DecidedAt r;
     vr_CreatedAt := created; vr_UpdatedAt := updated; vr_ConvergenceTaskIds := vr_ConvergenceTaskIds r;
     vr_LockedPaths := vr_LockedPaths r |}.
(** valuesStore.Create *)
Definition Create_values (revision : ValuesRevision) : SM ValuesRevision :=
  let stateVersion := if vr_StateVersion revision =? 0 then 1 else vr_StateVersion revision in
  let! created := or_now (vr_CreatedAt revision) in
  let updated := if is_zero_time (vr_UpdatedAt revision) then created else vr_UpdatedAt revision in
  let revision := with_insert_defaults revision stateVersion created updated in
  autocommit (insert_values_row revision ErrDuplicateKey "insert values revision") ;!
  ret revision.

(** getValues *)
Definition getValues (id : string) : SM ValuesRevision :=
  let! row := query (λ db, find_row (byID id) (db_values_revisions db)) in scan_row row.

(** [ORDER BY version DESC, id DESC] *)
Definition key_ltb (v1 : Z) (id1 : string) (v2 : Z) (id2 : string) : bool :=
  (v1 <? v2) || ((v1 =? v2) && string_ltb id1 id2).
Definition newer (a b : ValuesRevision) : Prop := key_ltb (vr_Version a) (vr_ID a) (vr_Version b) (vr_ID b) = false.
#[export] Instance newer_dec a b : Decision (newer a b).
Proof. unfold newer. apply _. Defined.

Definition GetLatest (definitionID : string) : SM ValuesRevision :=
  let! row := query (λ db, head (merge_sort newer (filter (λ r, ofDefinition definitionID r = true) (db_values_revisions db)))) in
  scan_row row.

(** ** Cursors *)
Record valuesCursor := { cu_QueryHash : string; cu_Version : Z; cu_ID : string; cu_Signature : string }.

Definition defaultValuesPageSize : Z := 50.
Definition valuesCursorSecret : string := "release-manager-values-pagination-v1".
Definition status_text (s : option ValuesStatus) : string :=
  match s with Some s => values_status_string s | None => "" end.
Definition newline : string := String (Ascii.ascii_of_N 10) EmptyString.
Definition nul : string := String (Ascii.ascii_of_N 0) EmptyString.
Definition valuesQueryHash (filter : ValuesListFilter) : string :=
  sha256_hex (vf_ReleaseDefinitionID filter ++ newline ++ status_text (vf_Status filter)).
Definition valuesCursorSignature (queryHash : string) (version : Z) (id : string) : string :=
  hex_EncodeToString (hmac_sha256 (byte_values valuesCursorSecret)
    (byte_values (queryHash ++ nul ++ pretty version ++ nul ++ id))).
(** The JSON object a cursor is marshalled to. *)
Definition cursor_json (c : valuesCursor) : json :=
  JObj [("query_hash", JStr (cu_QueryHash c)); ("version", JNum (cu_Version c)); ("id", JStr (cu_ID c));
        ("signature", JStr (cu_Signature c))].
Definition encodeValuesCursor (cursor : valuesCursor) : string :=
  let signed := {| cu_QueryHash := cu_QueryHash cursor; cu_Version := cu_Version cursor; cu_ID := cu_ID cursor;
                   cu_Signature := valuesCursorSignature (cu_QueryHash cursor) (cu_Version cursor) (cu_ID cursor) |} in
  base64_EncodeToString (byte_values (json_text (cursor_json signed))).
(** [json.Unmarshal] into a valuesCursor. *)
Definition decode_cursor_json (j : json) : option valuesCursor :=
  match j with
  | JObj fields =>
      match decode_string_field "query_hash" fields "", decode_int_field "version" fields 0,
            decode_string_field "id" fields "", decode_string_field "signature" fields "" with
      | Some q, Some v, Some i, Some s => Some {| cu_QueryHash := q; cu_Version := v; cu_ID := i; cu_Signature := s |}
      | _, _, _, _ => None
      end
  | JNull => Some {| cu_QueryHash := ""; cu_Version := 0; cu_ID := ""; cu_Signature := "" |}
  | _ => None
  end.
Definition decodeValuesCursor (encoded expectedQueryHash : string) : option valuesCursor :=
  match base64_DecodeString encoded with
  | None => None
  | Some payload =>
      match parse_json (from_bytes payload) with
      | None => None
      | Some j =>
          match decode_cursor_json j with
          | None => None
          | Some c =>
              if bool_decide (cu_ID c = "") || (cu_Version c <? 1) then None
              else if negb (bool_decide (cu_QueryHash c = expectedQueryHash))
                      || negb (bool_decide (cu_Signature c = valuesCursorSignature (cu_QueryHash c) (cu_Version c) (cu_ID c)))
              then None else Some c
          end
      end
  end.

(** ** ListPage *)
Definition clamp_page_size (n : Z) : Z :=
  let n := if n <=? 0 then defaultValuesPageSize else n in if 100 <? n then 100 else n.
Definition matches_filter (filter : ValuesListFilter) (r : ValuesRevision) : bool :=
  ofDefinition (vf_ReleaseDefinitionID filter) r
  && match vf_Status filter with None => true | Some s => inStatus s r end.
Definition after_cursor (c : option valuesCursor) (r : ValuesRevision) : bool :=
  match c with None => true | Some c => key_ltb (vr_Version r) (vr_ID r) (cu_Version c) (cu_ID c) end.
Definition page_rows (filter_ : ValuesListFilter) (c : option valuesCursor) (db : DB) : list ValuesRevision :=
  merge_sort newer (filter (λ r, matches_filter filter_ r && after_cursor c r = true) (db_values_revisions db)).
Definition ListPage (filter_ : ValuesListFilter) : SM ValuesPage :=
  let pageSize := Z.to_nat (clamp_page_size (vf_PageSize filter_)) in
  let queryHash := valuesQueryHash filter_ in
  let! cursor := (if bool_decide (vf_Cursor filter_ = "") then ret None
                  else match decodeValuesCursor (vf_Cursor filter_) queryHash with
                       | Some c => ret (Some c)
                       | None => throw ErrInvalidCursor
                       end) in
  let! items := query (λ db, take (S pageSize) (page_rows filter_ cursor db)) in
  if (pageSize <? length items)%nat then
    let items := take pageSize items in
    match last items with
    | Some r => ret {| vp_Items := items;
                       vp_NextCursor := encodeValuesCursor {| cu_QueryHash := queryHash; cu_Version := vr_Version r;
                                                              cu_ID := vr_ID r; cu_Signature := "" |} |}
    | None => throw (ErrOther "index out of range")
    end
  else ret {| vp_Items := items; vp_NextCursor := "" |}.

(** ** Lemmas: the page order *)
Lemma key_ltb_irrefl v i : key_ltb v i v i = false.
Proof. unfold key_ltb. rewrite Z.ltb_irrefl, string_ltb_leb, string_leb_refl. by rewrite andb_false_r. Qed.
Lemma key_ltb_spec v1 i1 v2 i2 :
  key_ltb v1 i1 v2 i2 = true ↔ v1 < v2 ∨ (v1 = v2 ∧ string_leb i2 i1 = false).
Proof. unfold key_ltb. rewrite orb_true_iff, andb_true_iff, Z.ltb_lt, Z.eqb_eq, string_ltb_leb, negb_true_iff. done. Qed.
Lemma newer_spec a b :
  newer a b ↔ vr_Version b < vr_Version a ∨ (vr_Version a = vr_Version b ∧ string_leb (vr_ID b) (vr_ID a) = true).
Proof.
  unfold newer. rewrite <- not_true_iff_false, key_ltb_spec. destruct (string_leb _ _) eqn:E; split; intros H.
  - destruct (Z.lt_total (vr_Version b) (vr_Version a)) as [|[|]]; [by left|by right|]. exfalso; apply H; by left.
  - intros [?|[_ ?]]; [lia|done].
  - destruct (Z.lt_total (vr_Version b) (vr_Version a)) as [|[|]]; [by left|exfalso; apply H; by right|exfalso; apply H; by left].
  - intros [?|[? _]]; destruct H as [?|[_ ?]]; done || lia.
Qed.
#[export] Instance newer_trans : Transitive newer.
Proof.
  intros a b c. rewrite !newer_spec. intros [?|[? ?]] [?|[? ?]]; [left; lia..|right]. split; [lia|]. by eapply string_leb_trans.
Qed.
#[export] Instance newer_total : Total newer.
Proof.
  intros a b. rewrite !newer_spec. destruct (Z.lt_total (vr_Version a) (vr_Version b)) as [?|[?|?]]; [right; by left| |left; by left].
  destruct (string_leb_total (vr_ID a) (vr_ID b)); [right|left]; by right.
Qed.
Lemma newer_key a b : newer a b → newer b a → vr_Version a = vr_Version b ∧ vr_ID a = vr_ID b.
Proof.
  rewrite !newer_spec. intros [?|[? ?]] [?|[? ?]]; try lia. split; [done|]. by apply string_leb_antisym.
Qed.

(** Primary keys: a row is known by its id. *)
Definition ids_unique (l : list ValuesRevision) : Prop := NoDup (vr_ID <$> l).
Lemma ids_unique_eq l a b : ids_unique l → a ∈ l → b ∈ l → vr_ID a = vr_ID b → a = b.
Proof.
  intros Hl Ha Hb Hid. apply list_elem_of_lookup in Ha as [i Hi]. apply list_elem_of_lookup in Hb as [j Hj].
  assert (i = j) as ->; [|congruence].
  apply (NoDup_lookup _ _ _ _ Hl (list_lookup_fmap_Some_2 _ _ _ _ Hi)). rewrite Hid. by apply list_lookup_fmap_Some_2.
Qed.

Lemma page_rows_sorted f c db : StronglySorted newer (page_rows f c db).
Proof. apply Sorted_StronglySorted; [apply _|]. apply Sorted_merge_sort, _. Qed.
Lemma page_rows_elem f c db r :
  r ∈ page_rows f c db ↔ r ∈ db_values_revisions db ∧ matches_filter f r = true ∧ after_cursor c r = true.
Proof. unfold page_rows. rewrite merge_sort_Permutation, list_elem_of_filter, andb_true_iff. tauto. Qed.

Definition key_cursor (q : string) (r : ValuesRevision) : valuesCursor :=
  {| cu_QueryHash := q; cu_Version := vr_Version r; cu_ID := vr_ID r; cu_Signature := "" |}.

Lemma filter_all_none {A} (P : A → Prop) `{∀ x, Decision (P x)} l : Forall (λ x, ¬ P x) l → filter P l = [].
Proof. induction 1 as [|x l Hx _ IH]; [done|]. by rewrite filter_cons_False. Qed.

(** The page after the row [r] of the order is what follows [r] in it. *)
Lemma page_rows_after f c db l1 r l2 :
  ids_unique (db_values_revisions db) → page_rows f None db = l1 ++ r :: l2 →
  cu_Version c = vr_Version r → cu_ID c = vr_ID r → page_rows f (Some c) db = l2.
Proof.
  intros Hu Hl Hv Hi. pose proof (page_rows_sorted f None db) as Hs. rewrite Hl in Hs.
  assert (Hmem : ∀ x, x ∈ l1 ++ r :: l2 → x ∈ db_values_revisions db ∧ matches_filter f x = true)
    by (intros x; rewrite <- Hl, page_rows_elem; tauto).
  assert (Heq : ∀ x y, x ∈ l1 ++ r :: l2 → y ∈ l1 ++ r :: l2 → newer x y → newer y x → x = y).
  { intros x y Hx Hy H1 H2. apply (ids_unique_eq _ x y Hu); [by apply Hmem..|]. by apply newer_key. }
  assert (Hafter : ∀ x, after_cursor (Some c) x = true ↔ ¬ newer x r).
  { intros x. unfold newer, after_cursor. rewrite Hv, Hi. by rewrite not_false_iff_true. }
  assert (Hfilter : filter (λ x, after_cursor (Some c) x = true) (l1 ++ r :: l2) = l2).
  { apply StronglySorted_app in Hs as (Hall & _ & Hs2). apply StronglySorted_inv in Hs2 as [_ Hr].
    rewrite filter_app, (filter_all_none _ l1), filter_cons_False; [rewrite app_nil_l| |].
    - apply list_filter_all, Forall_forall. intros x Hx. rewrite Hafter. intros Hn.
      assert (Hxr : newer r x) by (by apply (proj1 (Forall_forall _ _) Hr)).
      assert (x = r) as -> by (apply Heq; [apply elem_of_app; right; by right|apply elem_of_app; right; by left|done|done]).
      pose proof (NoDup_fmap_1 _ _ Hu) as Hnd.
      assert (Hnd' : NoDup (l1 ++ r :: l2)).
      { rewrite <- Hl. unfold page_rows. rewrite merge_sort_Permutation. by apply NoDup_filter. }
      apply NoDup_app in Hnd' as (_ & _ & Hnd'). by apply NoDup_cons in Hnd' as [? _].
    - rewrite Hafter. intros Hn. apply Hn. unfold newer. apply key_ltb_irrefl.
    - apply Forall_forall. intros x Hx. rewrite Hafter. intros Hn. apply Hn. apply Hall; [done|]. by left. }
  apply (StronglySorted_unique_strong newer).
  - intros x y Hx Hy. apply Heq; [rewrite <- Hl|apply elem_of_app; right; by right].
    apply page_rows_elem in Hx as (? & ? & _). by apply page_rows_elem.
  - apply page_rows_sorted.
  - apply StronglySorted_app in Hs as (_ & _ & Hs2). by apply StronglySorted_inv in Hs2 as [? _].
  - rewrite <- Hfilter, <- Hl. unfold page_rows. rewrite !merge_sort_Permutation, list_filter_filter.
    apply Permutation_refl', list_filter_iff. intros x. rewrite !andb_true_iff. tauto.
Qed.

(** ** Lemmas: cursors *)
Lemma hex_digit_ascii n : (n < 16)%N → is_ascii (hex_digit n).
Proof.
  intros Hn. unfold is_ascii, hex_digit, ascii_code. destruct (N.ltb_spec n 10); rewrite Ascii.N_ascii_embedding; lia.
Qed.
Lemma hex_text l : Forall is_byte l → valid_text (hex_EncodeToString l).
Proof.
  intros Hl. apply ascii_text. unfold hex_EncodeToString. rewrite str_of_list. induction Hl as [|b l Hb _ IH]; [constructor|].
  unfold is_byte in Hb. cbn [map concat app]. constructor; [|constructor; [|done]]; apply hex_digit_ascii.
  - Z.to_euclidean_division_equations; lia.
  - pose proof (Z.mod_pos_bound b 16). lia.
Qed.

Definition signed_cursor (c : valuesCursor) : valuesCursor :=
  {| cu_QueryHash := cu_QueryHash c; cu_Version := cu_Version c; cu_ID := cu_ID c;
     cu_Signature := valuesCursorSignature (cu_QueryHash c) (cu_Version c) (cu_ID c) |}.

Lemma decode_cursor_fields c : is_int64 (cu_Version c) = true → decode_cursor_json (cursor_json c) = Some c.
Proof.
  intros Hv. unfold decode_cursor_json, cursor_json. cbn [decode_string_field decode_int_field].
  repeat match goal with |- context [key_matches ?a ?b] =>
    let v := eval vm_compute in (key_matches a b) in change (key_matches a b) with v end.
  cbv iota. rewrite Hv. by destruct c.
Qed.

Lemma signature_text q v i : valid_text (valuesCursorSignature q v i).
Proof. apply hex_text, Sum256_bytes. Qed.

(** C39: page cursors are tamper-evident and lossless: the cursor the server
    hands out decodes, for the same query, to the position it was made for,
    whatever the revision's id (any non-empty UTF-8 text); for another query it
    is refused. *)
Theorem cursor_roundtrip c q :
  1 ≤ cu_Version c → is_int64 (cu_Version c) = true → cu_ID c ≠ "" → valid_text (cu_ID c) → valid_text (cu_QueryHash c) →
  decodeValuesCursor (encodeValuesCursor c) q = if bool_decide (cu_QueryHash c = q) then Some (signed_cursor c) else None.
Proof.
  intros Hv Hint Hid Htid Htq. unfold decodeValuesCursor, encodeValuesCursor. fold (signed_cursor c).
  rewrite base64_roundtrip by apply byte_values_bytes. rewrite from_bytes_byte_values, parse_json_text.
  - rewrite decode_cursor_fields by done. cbn [signed_cursor cu_ID cu_Version cu_QueryHash cu_Signature].
    rewrite (bool_decide_false _ Hid), (proj2 (Z.ltb_ge _ _)) by lia. cbn [orb].
    rewrite (bool_decide_true (_ = valuesCursorSignature _ _ _)) by done. rewrite orb_false_r. by case_bool_decide.
  - repeat split; first [done | apply signature_text | by (apply ascii_text; repeat constructor)].
Qed.

Lemma cursor_roundtrip_witness :
  decodeValuesCursor (encodeValuesCursor {| cu_QueryHash := "q"; cu_Version := 3; cu_ID := "rev-é"; cu_Signature := "" |}) "other" = None.
Proof.
  rewrite (cursor_roundtrip _ "other"); [vm_compute; reflexivity|vm_compute; discriminate|reflexivity|discriminate| |].
  - exists [114; 101; 118; 45; 233]. split; [repeat constructor; unfold valid_rune; lia|reflexivity].
  - exists [113]. split; [repeat constructor; unfold valid_rune; lia|reflexivity].
Defined.

(** ** Lemmas: paging *)
Definition with_cursor (f : ValuesListFilter) (cursor : string) : ValuesListFilter :=
  {| vf_ReleaseDefinitionID := vf_ReleaseDefinitionID f; vf_Status := vf_Status f; vf_PageSize := vf_PageSize f; vf_Cursor := cursor |}.
(** A client that follows [next_cursor] until it is empty. *)
Fixpoint all_pages (fuel : nat) (f : ValuesListFilter) : SM (list ValuesRevision) :=
  match fuel with
  | O => throw (ErrOther "out of fuel")
  | S fuel =>
      let! page := ListPage f in
      if bool_decide (vp_NextCursor page = "") then ret (vp_Items page)
      else let! rest := all_pages fuel (with_cursor f (vp_NextCursor page)) in ret (vp_Items page ++ rest)
  end.

(** A row whose key fits a cursor. *)
Definition row_ok (r : ValuesRevision) : Prop :=
  1 ≤ vr_Version r ∧ is_int64 (vr_Version r) = true ∧ vr_ID r ≠ "" ∧ valid_text (vr_ID r).

Lemma clamp_positive n : 0 < clamp_page_size n ≤ 100.
Proof. unfold clamp_page_size, defaultValuesPageSize. destruct (Z.leb_spec n 0); [done|]. destruct (Z.ltb_spec 100 n); lia. Qed.
Lemma encode_nonempty c : encodeValuesCursor c ≠ "".
Proof.
  unfold encodeValuesCursor. intros H. pose proof (base64_roundtrip _ (byte_values_bytes (json_text (cursor_json (signed_cursor c))))) as Hr.
  fold (signed_cursor c) in H. rewrite H in Hr. by injection Hr.
Qed.

(** One page: the first rows after the cursor, and a cursor iff more follow. *)
Definition page_of (q : string) (n : nat) (l : list ValuesRevision) : ValuesPage :=
  match last (take n l) with
  | Some r => {| vp_Items := take n l;
                 vp_NextCursor := if (n <? length l)%nat then encodeValuesCursor (key_cursor q r) else "" |}
  | None => {| vp_Items := []; vp_NextCursor := "" |}
  end.
Definition page_size (f : ValuesListFilter) : nat := Z.to_nat (clamp_page_size (vf_PageSize f)).
Definition cursor_at (f : ValuesListFilter) (c : option valuesCursor) : Prop :=
  if bool_decide (vf_Cursor f = "") then c = None else decodeValuesCursor (vf_Cursor f) (valuesQueryHash f) = c ∧ c ≠ None.

Lemma ListPage_rows f c w :
  cursor_at f c → ListPage f w = (Ok (page_of (valuesQueryHash f) (page_size f) (page_rows f c (w_db w))), w).
Proof.
  intros Hc. unfold ListPage. unfold bind at 1.
  assert (Hcur : (if bool_decide (vf_Cursor f = "") then ret None
    else match decodeValuesCursor (vf_Cursor f) (valuesQueryHash f) with Some c => ret (Some c) | None => throw ErrInvalidCursor end) w
    = (Ok c, w)).
  { unfold cursor_at in Hc. destruct (bool_decide _); [by subst|]. destruct Hc as [-> ?]. by destruct c. }
  rewrite Hcur. clear Hcur. unfold bind, query, gets. fold (page_size f). pose proof (clamp_positive (vf_PageSize f)) as Hn.
  assert (Hsize : (0 < page_size f)%nat) by (unfold page_size; lia). generalize dependent (page_size f). intros n Hsize.
  generalize (page_rows f c (w_db w)). intros l. unfold page_of. rewrite take_take, Nat.min_l, length_take by lia.
  assert (Hlast : last (take n l) = None → l = []).
  { intros H%last_None. destruct l as [|x l]; [done|]. by destruct n; [lia|]. }
  destruct (Nat.ltb_spec n (length l)).
  - rewrite (proj2 (Nat.ltb_lt _ _)) by lia. destruct (last (take n l)); [done|].
    rewrite (Hlast eq_refl) in *. simpl in *. lia.
  - rewrite (proj2 (Nat.ltb_ge _ _)), !take_ge by lia. rewrite take_ge in Hlast by lia.
    destruct (last l); [done|]. by rewrite Hlast.
Qed.

Section paging.
Context (w : World) (Hids : ids_unique (db_values_revisions (w_db w))) (Hrows : Forall row_ok (db_values_revisions (w_db w))).

Lemma cursor_after f r :
  r ∈ db_values_revisions (w_db w) →
  cursor_at (with_cursor f (encodeValuesCursor (key_cursor (valuesQueryHash f) r)))
    (Some (signed_cursor (key_cursor (valuesQueryHash f) r))).
Proof.
  intros Hr. unfold cursor_at. cbn [with_cursor vf_Cursor]. rewrite bool_decide_false by apply encode_nonempty.
  split; [|done]. destruct (proj1 (Forall_forall _ _) Hrows r Hr) as (? & ? & ? & ?).
  change (valuesQueryHash (with_cursor f _)) with (valuesQueryHash f).
  rewrite cursor_roundtrip; [by rewrite bool_decide_true|done..|]. apply hex_text, Sum256_bytes.
Qed.

Lemma all_pages_from fuel : ∀ f c l1 l2,
  cursor_at f c → page_rows f c (w_db w) = l2 → page_rows f None (w_db w) = l1 ++ l2 → (length l2 < fuel)%nat →
  all_pages fuel f w = (Ok l2, w).
Proof.
  induction fuel as [|fuel IH]; intros f c l1 l2 Hc Hl2 Hl Hf; [lia|].
  cbn [all_pages]. unfold bind. rewrite (ListPage_rows f c w Hc), Hl2.
  assert (Hn : (0 < page_size f)%nat) by (pose proof (clamp_positive (vf_PageSize f)); unfold page_size; lia).
  revert Hn. generalize (page_size f). intros n Hn. unfold page_of.
  destruct (last (take n l2)) as [r|] eqn:E; cbn [vp_NextCursor vp_Items].
  - destruct (Nat.ltb_spec n (length l2)) as [Hlt|Hge]; [|by rewrite bool_decide_true, take_ge].
    rewrite bool_decide_false by apply encode_nonempty.
    apply last_Some in E as [l' E]. pose proof (take_drop n l2) as Htd.
    assert (Hsplit : page_rows f None (w_db w) = (l1 ++ l') ++ r :: drop n l2)
      by (rewrite Hl; rewrite <- Htd at 1; rewrite E, <- !app_assoc; done).
    assert (Hr : r ∈ db_values_revisions (w_db w)).
    { apply (proj1 (page_rows_elem f None (w_db w) r)). rewrite Hsplit. apply elem_of_app. right. by left. }
    rewrite (IH _ (Some (signed_cursor (key_cursor (valuesQueryHash f) r))) ((l1 ++ l') ++ [r]) (drop n l2)).
    + unfold ret. by rewrite take_drop.
    + by apply cursor_after.
    + exact (page_rows_after f (signed_cursor (key_cursor (valuesQueryHash f) r)) _ (l1 ++ l') r _ Hids Hsplit eq_refl eq_refl).
    + etrans; [exact Hsplit|]. by rewrite <- !app_assoc.
    + rewrite length_drop. lia.
  - rewrite bool_decide_true by done. apply last_None in E. destruct l2 as [|x l2]; [done|]. by destruct n; [lia|].
Qed.
End paging.

(** C38: paging is complete: following [next_cursor] from the first page ends
    after at most one page per stored revision and returns every revision of the
    definition (with the requested status) exactly once, newest version first,
    for every page size; reading changes nothing. *)
Theorem ListPage_complete f w fuel :
  ids_unique (db_values_revisions (w_db w)) → Forall row_ok (db_values_revisions (w_db w)) → vf_Cursor f = "" →
  (length (db_values_revisions (w_db w)) < fuel)%nat →
  ∃ items, all_pages fuel f w = (Ok items, w) ∧
    items ≡ₚ filter (λ r, matches_filter f r = true) (db_values_revisions (w_db w)) ∧ StronglySorted newer items.
Proof.
  intros Hids Hrows Hc Hf. exists (page_rows f None (w_db w)).
  assert (Hperm : page_rows f None (w_db w) ≡ₚ filter (λ r, matches_filter f r = true) (db_values_revisions (w_db w))).
  { unfold page_rows. rewrite merge_sort_Permutation. apply Permutation_refl', list_filter_iff. intros x.
    rewrite andb_true_iff. simpl. tauto. }
  split; [|split; [done|apply page_rows_sorted]].
  apply (all_pages_from w Hids Hrows fuel f None []); [|done|done|].
  - unfold cursor_at. by rewrite Hc.
  - rewrite Hperm. eapply Nat.le_lt_trans; [apply length_filter|done].
Qed.

Definition sample_revision (id : string) (version : Z) (status : ValuesStatus) : ValuesRevision :=
  {| vr_ID := id; vr_ReleaseDefinitionID := "d1"; vr_Version := version; vr_StateVersion := 1; vr_Status := status;
     vr_CanonicalDocument := RawJson (JObj []); vr_Digest := "dg"; vr_ParentRevisionID := if version =? 1 then "" else "r1";
     vr_SecretRefs := []; vr_CreatedByUserID := "u"; vr_SubmittedAt := None; vr_DecidedAt := None;
     vr_CreatedAt := 100 * nsec; vr_UpdatedAt := 100 * nsec; vr_ConvergenceTaskIds := []; vr_LockedPaths := [] |}.
Lemma ListPage_complete_witness :
  let rows := [sample_revision "r1" 1 ValuesStatusSuperseded; sample_revision "r2" 2 ValuesStatusApproved; sample_revision "r3" 3 ValuesStatusDraft] in
  let f := {| vf_ReleaseDefinitionID := "d1"; vf_Status := None; vf_PageSize := 2; vf_Cursor := "" |} in
  ∃ items, all_pages 4 f (sample_world (set_values_revisions rows empty_db)) = (Ok items, sample_world (set_values_revisions rows empty_db)) ∧
    length items = 3%nat.
Proof.
  intros rows f. destruct (ListPage_complete f (sample_world (set_values_revisions rows empty_db)) 4) as (items & Hrun & Hperm & _).
  - unfold ids_unique. apply (bool_decide_unpack _). vm_compute. exact I.
  - repeat (apply Forall_cons; split; [split; [vm_compute; discriminate|split; [reflexivity|split; [discriminate|
      apply ascii_text; repeat constructor]]]|]). constructor.
  - reflexivity.
  - cbn. lia.
  - exists items. split; [exact Hrun|]. rewrite Hperm. reflexivity.
Defined.
