(* ===== verification/Timeline.v ===== *)
(** * Timeline, events and outbox rows (operation_timeline.go, operation_events.go,
    the insert of values_approval.go, notification_outbox.go, preflight_lifecycle.go)

    The append-only evidence tables that every state change writes in its own
    transaction.  The main invariant: the timeline of an operation is gapless,
    its sequences are 1..n in insertion order. *)
From S2P Require Import Prelude Utf8 Json Redact Domain Database.
From stdpp Require Import pretty.
#[local] Open Scope Z_scope.

(** ** Timeline *)
Definition timeline_of (operationID : string) (db : DB) : list OperationTimelineEntry :=
  filter (λ e, te_OperationID e = operationID) (db_operation_timeline db).
(** [COALESCE(MAX(sequence), 0)] *)
Definition max_sequence (l : list OperationTimelineEntry) : Z :=
  match te_Sequence <$> l with [] => 0 | x :: xs => foldr Z.max x xs end.
(** [MIN(sequence)] of a non-empty selection *)
Definition min_sequence (l : list OperationTimelineEntry) : option Z :=
  match te_Sequence <$> l with [] => None | x :: xs => Some (foldr Z.min x xs) end.

(** The copy of the entry with the defaults the store fills in. *)
Definition timeline_row (id : string) (sequence : Z) (data : raw) (createdAt : time)
    (entry : OperationTimelineEntry) : OperationTimelineEntry :=
  {| te_ID := id; te_OperationID := te_OperationID entry; te_Sequence := sequence;
     te_OperationStateVersion := te_OperationStateVersion entry; te_Kind := te_Kind entry;
     te_Data := data; te_CreatedAt := createdAt |}.

Definition appendTimelineEntry (entry : OperationTimelineEntry) : SM OperationTimelineEntry :=
  let! id := or_new_uuid (te_ID entry) in
  let! createdAt := or_now (te_CreatedAt entry) in
  let data := if raw_is_empty (te_Data entry) then RawJson (JObj []) else te_Data entry in
  fail_if (negb (json_Valid data)) (ErrOther "append operation timeline: invalid data") ;!
  fail_if (negb (te_Sequence entry =? 0)) (ErrOther "append operation timeline: sequence is allocated by the store") ;!
  let! parent := query (λ db, db_operations db !! te_OperationID entry) in
  let! _ := scan_row parent in
  let! sequence := query (λ db, max_sequence (timeline_of (te_OperationID entry) db) + 1) in
  let appended := timeline_row id sequence data createdAt entry in
  let! duplicate := query (λ db, existsb (λ e,
      bool_decide (te_ID e = id)
      || (bool_decide (te_OperationID e = te_OperationID entry) && (te_Sequence e =? sequence)))
    (db_operation_timeline db)) in
  fail_if duplicate ErrDuplicateKey ;!
  exec (λ db, set_operation_timeline (db_operation_timeline db ++ [appended]) db) ;!
  ret appended.

(** timelineStore.Append *)
Definition Append (entry : option OperationTimelineEntry) : SM OperationTimelineEntry :=
  match entry with
  | None => throw (ErrOther "append operation timeline: invalid entry")
  | Some entry =>
      if bool_decide (te_OperationID entry = "") || bool_decide (te_Kind entry = TimelineEntryKindEmpty)
         || negb (te_Sequence entry =? 0)
      then throw (ErrOther "append operation timeline: invalid entry")
      else retryBusy (run_tx (commit (appendTimelineEntry entry)))
  end.

(** [ORDER BY sequence ASC] *)
Definition seq_le (a b : OperationTimelineEntry) : Prop := te_Sequence a ≤ te_Sequence b.
#[export] Instance seq_le_dec a b : Decision (seq_le a b) := decide (te_Sequence a ≤ te_Sequence b).

Definition List_entries (operationID : string) (afterSequence throughSequence : Z) (db : DB) : list OperationTimelineEntry :=
  merge_sort seq_le
    (filter (λ e, afterSequence < te_Sequence e ∧ (0 < throughSequence → te_Sequence e ≤ throughSequence))
       (timeline_of operationID db)).
(** timelineStore.List, LatestSequence, Snapshot *)
Definition List_timeline (operationID : string) (afterSequence throughSequence : Z) : SM (list OperationTimelineEntry) :=
  query (List_entries operationID afterSequence throughSequence).
Definition LatestSequence (operationID : string) : SM Z :=
  query (λ db, max_sequence (timeline_of operationID db)).

(** ** Operation events *)
Definition insertOperationEvent (ev : OperationStateChangedEvent) : SM unit :=
  let! createdAt := or_now (ev_CreatedAt ev) in
  let row := {| ev_ID := ev_ID ev; ev_OperationID := ev_OperationID ev; ev_OperationType := ev_OperationType ev;
                ev_DefinitionID := ev_DefinitionID ev; ev_OldStatus := ev_OldStatus ev;
                ev_NewStatus := ev_NewStatus ev; ev_StateVersion := ev_StateVersion ev;
                ev_CreatedAt := rfc3339 createdAt |} in
  let! duplicate := query (λ db, existsb (λ e, bool_decide (ev_ID e = ev_ID ev)) (db_operation_events db)) in
  fail_if duplicate (ErrOther "insert operation event") ;!
  check_fk (λ db, bool_decide (is_Some (db_operations db !! ev_OperationID ev))) "insert operation event" ;!
  exec (λ db, set_operation_events (db_operation_events db ++ [row]) db).

(** ** Approval outboxes *)
Inductive outbox_table : Type := AuditOutbox | NotificationOutbox.
Definition outbox_rows (t : outbox_table) (db : DB) : list ApprovalOutboxEntry :=
  match t with AuditOutbox => db_audit_outbox db | NotificationOutbox => db_notification_outbox db end.
Definition set_outbox_rows (t : outbox_table) (rows : list ApprovalOutboxEntry) (db : DB) : DB :=
  match t with AuditOutbox => set_audit_outbox rows db | NotificationOutbox => set_notification_outbox rows db end.

Definition insertApprovalOutbox (table : outbox_table) (entry : ApprovalOutboxEntry) : SM unit :=
  let! duplicate := query (λ db, existsb (λ e, bool_decide (ao_ID e = ao_ID entry)) (outbox_rows table db)) in
  fail_if duplicate (ErrOther "insert outbox") ;!
  exec (λ db, set_outbox_rows table (outbox_rows table db ++ [entry]) db).

(** [ORDER BY created_at, id]: RFC3339Nano text, then id. *)
Definition ao_le (a b : ApprovalOutboxEntry) : Prop :=
  text_ltb (ao_CreatedAt a) (ao_CreatedAt b) = true
  ∨ (text_ltb (ao_CreatedAt b) (ao_CreatedAt a) = false ∧ string_leb (ao_ID a) (ao_ID b) = true).
#[export] Instance ao_le_dec a b : Decision (ao_le a b).
Proof. unfold ao_le. apply _. Defined.

Definition ListUndelivered (table : outbox_table) (limit : Z) : SM (list ApprovalOutboxEntry) :=
  let limit := if limit <=? 0 then 50 else limit in
  query (λ db, take (Z.to_nat limit)
    (merge_sort ao_le (filter (λ e, ao_Delivered e = false) (outbox_rows table db)))).

Definition MarkDelivered (table : outbox_table) (id : string) (at_ : time) : SM unit :=
  let p e := bool_decide (ao_ID e = id) in
  let! rows := autocommit (
    let! rows := query (λ db, rows_affected p (outbox_rows table db)) in
    exec (λ db, set_outbox_rows table
      (update_where p (λ e, {| ao_ID := ao_ID e; ao_EventType := ao_EventType e; ao_PayloadJSON := ao_PayloadJSON e;
                               ao_CreatedAt := ao_CreatedAt e; ao_Delivered := true; ao_DeliveredAt := Some at_ |})
         (outbox_rows table db)) db) ;!
    ret rows) in
  fail_if (Nat.eqb rows 0) ErrNotFound.

(** ** Preflight lifecycles *)

(** [UPDATE preflight_lifecycles SET operation_terminal_at = now WHERE
    operation_id = id AND operation_terminal_at IS NULL], part of every terminal
    transition. *)
Definition stamp_preflight (id : string) (now : time) (pl : PreflightLifecycle) : PreflightLifecycle :=
  {| pl_ID := pl_ID pl; pl_OperationID := pl_OperationID pl; pl_OperationTerminalAt := Some now;
     pl_Stages := pl_Stages pl; pl_Overall := pl_Overall pl; pl_CreatedAt := pl_CreatedAt pl;
     pl_UpdatedAt := pl_UpdatedAt pl |}.
Definition set_preflight_terminal (id : string) (now : time) : SM unit :=
  exec (λ db, set_preflight_lifecycles
    (update_where (λ pl, bool_decide (pl_OperationID pl = Some id) && bool_decide (pl_OperationTerminalAt pl = None))
       (stamp_preflight id now) (db_preflight_lifecycles db)) db).

Definition GetByOperationID_preflight (operationID : string) : SM PreflightLifecycle :=
  let! row := query (λ db, find_row (λ pl, bool_decide (pl_OperationID pl = Some operationID)) (db_preflight_lifecycles db)) in
  scan_row row.

(** preflightLifecycleStore.CreateOrReset: insert, or on conflict reset the row
    and keep a terminal time that is already there. *)
Definition CreateOrReset (operationID : string) : SM PreflightLifecycle :=
  let! t := now in
  let n := rfc3339 t in
  let! id := new_uuid in
  let is_row pl := bool_decide (pl_OperationID pl = Some operationID) in
  autocommit (
    let! terminal := query (λ db, match db_operations db !! operationID with Some op => op_TerminalAt op | None => None end) in
    let! existing := query (λ db, find_row is_row (db_preflight_lifecycles db)) in
    match existing with
    | Some _ =>
        exec (λ db, set_preflight_lifecycles (update_where is_row (λ pl,
          {| pl_ID := pl_ID pl; pl_OperationID := pl_OperationID pl;
             pl_OperationTerminalAt := match pl_OperationTerminalAt pl with Some t => Some t | None => terminal end;
             pl_Stages := ""; pl_Overall := "running"; pl_CreatedAt := pl_CreatedAt pl; pl_UpdatedAt := n |})
          (db_preflight_lifecycles db)) db)
    | None =>
        let! duplicate := query (λ db, existsb (λ pl, bool_decide (pl_ID pl = id)) (db_preflight_lifecycles db)) in
        fail_if duplicate (ErrOther "create or reset preflight lifecycle") ;!
        exec (λ db, set_preflight_lifecycles (db_preflight_lifecycles db ++
          [{| pl_ID := id; pl_OperationID := Some operationID; pl_OperationTerminalAt := terminal; pl_Stages := "";
              pl_Overall := "running"; pl_CreatedAt := n; pl_UpdatedAt := n |}]) db)
    end) ;!
  GetByOperationID_preflight operationID.

Definition valid_overall (overall : string) : bool :=
  bool_decide (overall ∈ ["running"; "passed"; "failed"; "cancelled"]).
Definition UpdateResult (operationID overall stages : string) : SM unit :=
  let! t := now in
  let n := rfc3339 t in
  let is_row pl := bool_decide (pl_OperationID pl = Some operationID) in
  let! rows := autocommit (
    let! rows := query (λ db, rows_affected is_row (db_preflight_lifecycles db)) in
    (* the CHECK constraint on [overall] *)
    fail_if (negb (valid_overall overall) && negb (Nat.eqb rows 0)) (ErrOther "update preflight lifecycle result") ;!
    exec (λ db, set_preflight_lifecycles (update_where is_row (λ pl,
      {| pl_ID := pl_ID pl; pl_OperationID := pl_OperationID pl; pl_OperationTerminalAt := pl_OperationTerminalAt pl;
         pl_Stages := stages; pl_Overall := overall; pl_CreatedAt := pl_CreatedAt pl; pl_UpdatedAt := n |})
      (db_preflight_lifecycles db)) db) ;!
    ret rows) in
  fail_if (Nat.eqb rows 0) ErrNotFound.

(** The rows preflightLifecycleStore.DeleteExpired may delete. *)
Definition preflight_expired (db : DB) (ttlCutoff orphanCutoff : time) (pl : PreflightLifecycle) : bool :=
  match pl_OperationID pl, pl_OperationTerminalAt pl with
  | None, None => pl_CreatedAt pl <? orphanCutoff
  | None, Some t => (pl_CreatedAt pl <? orphanCutoff) || (t <? ttlCutoff)
  | Some _, Some t => t <? ttlCutoff
  | Some id, None =>
      match db_operations db !! id with
      | Some op => IsTerminal (op_Status op)
                   && match op_TerminalAt op with Some t => t <? ttlCutoff | None => false end
      | None => false
      end
  end.
Definition pl_le (a b : PreflightLifecycle) : Prop :=
  pl_CreatedAt a < pl_CreatedAt b ∨ (pl_CreatedAt a = pl_CreatedAt b ∧ string_leb (pl_ID a) (pl_ID b) = true).
#[export] Instance pl_le_dec a b : Decision (pl_le a b).
Proof. unfold pl_le. apply _. Defined.
(** At most [limit] rows, oldest first; the result is the number deleted.  All
    stored times are RFC3339 text, so the comparisons are chronological. *)
Definition DeleteExpired_preflight (ttl orphanTTL : Z) (limits : list Z) : SM Z :=
  let limit := match limits with l :: _ => if (0 <? l) && (l <? 100) then l else 100 | [] => 100 end in
  let! t := now in
  let ttlCutoff := rfc3339 (t - ttl) in
  let orphanCutoff := rfc3339 (t - orphanTTL) in
  autocommit (
    let! victims := query (λ db, pl_ID <$> take (Z.to_nat limit)
      (merge_sort pl_le (filter (λ pl, preflight_expired db ttlCutoff orphanCutoff pl = true) (db_preflight_lifecycles db)))) in
    let! rows := query (λ db, rows_affected (λ pl, bool_decide (pl_ID pl ∈ victims)) (db_preflight_lifecycles db)) in
    exec (λ db, set_preflight_lifecycles
      (delete_where (λ pl, bool_decide (pl_ID pl ∈ victims)) (db_preflight_lifecycles db)) db) ;!
    ret (Z.of_nat rows)).

(** ** The timeline invariant *)
Definition entries_of (id : string) (l : list OperationTimelineEntry) : list OperationTimelineEntry :=
  filter (λ e, te_OperationID e = id) l.
Definition gapless (l : list OperationTimelineEntry) : Prop :=
  ∀ id, te_Sequence <$> entries_of id l = seqZ 1 (Z.of_nat (length (entries_of id l))).

(** How the timeline table evolves: it is append-only and stays gapless. *)
Definition timeline_grows (l l' : list OperationTimelineEntry) : Prop :=
  l `prefix_of` l' ∧ (gapless l → gapless l').
#[export] Instance timeline_grows_preorder : PreOrder timeline_grows.
Proof.
  split; [intros l; by split|]. intros l1 l2 l3 [H1 G1] [H2 G2].
  split; [by transitivity l2|auto].
Qed.
Lemma foldr_max_seqZ (k : nat) x y :
  y ≤ x → foldr Z.max y (seqZ (x + 1) (Z.of_nat k)) = if Nat.eqb k 0 then y else x + Z.of_nat k.
Proof.
  revert x y. induction k as [|k IH]; intros x y Hy; [done|].
  rewrite Nat2Z.inj_succ, seqZ_cons by lia. rewrite Z.pred_succ. simpl foldr.
  rewrite <- Z.add_1_r. rewrite (IH (x + 1) y) by lia. simpl Nat.eqb.
  destruct (Nat.eqb_spec k 0); lia.
Qed.

Lemma gapless_max l id : gapless l → max_sequence (entries_of id l) = Z.of_nat (length (entries_of id l)).
Proof.
  intros H. unfold max_sequence. rewrite (H id).
  destruct (length (entries_of id l)) as [|n]; [done|].
  rewrite Nat2Z.inj_succ. rewrite seqZ_cons by lia.
  rewrite Z.pred_succ. change (Z.succ 1) with (1 + 1). rewrite (foldr_max_seqZ n 1 1) by lia.
  destruct (Nat.eqb_spec n 0); lia.
Qed.

Lemma entries_of_app id l k : entries_of id (l ++ k) = entries_of id l ++ entries_of id k.
Proof. apply filter_app. Qed.
Lemma entries_of_one id e :
  entries_of id [e] = if decide (te_OperationID e = id) then [e] else [].
Proof. unfold entries_of. rewrite filter_cons, filter_nil. done. Qed.

Lemma gapless_append l e :
  te_Sequence e = max_sequence (entries_of (te_OperationID e) l) + 1 → gapless l → gapless (l ++ [e]).
Proof.
  intros He H id. rewrite entries_of_app, entries_of_one. case_decide as Hid; [|by rewrite app_nil_r].
  subst id. rewrite fmap_app, length_app, (H _). simpl. rewrite Nat2Z.inj_add. simpl.
  rewrite seqZ_app by lia. f_equal. rewrite seqZ_cons, seqZ_nil by lia.
  f_equal. rewrite He, gapless_max by done. lia.
Qed.

(** The run of [appendTimelineEntry]: what it returns, what it writes. *)
Lemma appendTimelineEntry_inv entry w e w' :
  appendTimelineEntry entry w = (Ok e, w') →
  is_Some (db_operations (w_db w) !! te_OperationID entry) ∧
  w_db w' = set_operation_timeline (db_operation_timeline (w_db w) ++ [e]) (w_db w) ∧
  te_OperationID e = te_OperationID entry ∧ te_Kind e = te_Kind entry ∧
  te_OperationStateVersion e = te_OperationStateVersion entry ∧
  te_Sequence e = max_sequence (timeline_of (te_OperationID entry) (w_db w)) + 1 ∧
  (raw_is_empty (te_Data entry) = false → te_Data e = te_Data entry).
Proof.
  intros H. unfold appendTimelineEntry in H. cbv zeta in H. dinv.
  repeat match goal with H : w_db _ = w_db _ |- _ => rewrite H in * end.
  split; [by eexists|]. split; [done|]. repeat split; try done. simpl. by intros ->.
Qed.

Abbreviation grows := (on_table db_operation_timeline timeline_grows).

Lemma appendTimelineEntry_grows entry : preserves (db_rel grows) (appendTimelineEntry entry).
Proof.
  intros w [e|err] w' H.
  - apply appendTimelineEntry_inv in H as (_ & Hdb & Hid & _ & _ & Hseq & _).
    unfold db_rel, on_table. rewrite Hdb. simpl. split; [by eexists|].
    apply gapless_append. rewrite Hid. exact Hseq.
  - revert H. unfold appendTimelineEntry, bind, query, gets, or_new_uuid, or_now, fail_if, scan_row, exec, modify, ret, throw, new_uuid, now.
    unfold db_rel, on_table.
    repeat case_match; simplify_eq; simpl in *; try done; intros [= _ <-]; reflexivity.
Qed.
#[export] Hint Resolve appendTimelineEntry_grows : preserve.

(** The timeline table is written by [appendTimelineEntry] only, so a method
    built from it and from statements on other tables grows the timeline. *)
Lemma insertOperationEvent_frame {T} (f : DB → T) R `{!PreOrder R} ev :
  (∀ v db, f (set_operation_events v db) = f db) →
  preserves (db_rel (on_table f R)) (insertOperationEvent ev).
Proof.
  intros Hf. unfold insertOperationEvent. db_preserve. by apply preserves_exec_other.
Qed.
Lemma insertApprovalOutbox_frame {T} (f : DB → T) R `{!PreOrder R} t entry :
  (∀ v db, f (set_audit_outbox v db) = f db) → (∀ v db, f (set_notification_outbox v db) = f db) →
  preserves (db_rel (on_table f R)) (insertApprovalOutbox t entry).
Proof.
  intros H1 H2. unfold insertApprovalOutbox. db_preserve. apply preserves_exec_other; [done|].
  intros db. destruct t; simpl; auto.
Qed.
Lemma set_preflight_terminal_frame {T} (f : DB → T) R `{!PreOrder R} id n :
  (∀ v db, f (set_preflight_lifecycles v db) = f db) →
  preserves (db_rel (on_table f R)) (set_preflight_terminal id n).
Proof. intros Hf. by apply preserves_exec_other. Qed.
#[export] Hint Extern 1 (preserves (db_rel (on_table _ _)) (insertOperationEvent _)) =>
  (apply insertOperationEvent_frame; [apply _ | reflexivity]) : preserve.
#[export] Hint Extern 1 (preserves (db_rel (on_table _ _)) (insertApprovalOutbox _ _)) =>
  (apply insertApprovalOutbox_frame; [apply _ | reflexivity | reflexivity]) : preserve.
#[export] Hint Extern 1 (preserves (db_rel (on_table _ _)) (set_preflight_terminal _ _)) =>
  (apply set_preflight_terminal_frame; [apply _ | reflexivity]) : preserve.

Lemma appendTimelineEntry_frame {T} (f : DB → T) R `{!PreOrder R} entry :
  (∀ v db, f (set_operation_timeline v db) = f db) →
  preserves (db_rel (on_table f R)) (appendTimelineEntry entry).
Proof. intros Hf. unfold appendTimelineEntry. db_preserve. by apply preserves_exec_other. Qed.
#[export] Hint Extern 1 (preserves (db_rel (on_table _ _)) (appendTimelineEntry _)) =>
  (apply appendTimelineEntry_frame; [apply _ | reflexivity]) : preserve.

Lemma CreateOrReset_grows id : preserves (db_rel grows) (CreateOrReset id).
Proof. unfold CreateOrReset, GetByOperationID_preflight. db_preserve. Qed.

(** The row an event becomes. *)
Definition event_row (ev : OperationStateChangedEvent) (createdAt : time) : OperationStateChangedEvent :=
  {| ev_ID := ev_ID ev; ev_OperationID := ev_OperationID ev; ev_OperationType := ev_OperationType ev;
     ev_DefinitionID := ev_DefinitionID ev; ev_OldStatus := ev_OldStatus ev; ev_NewStatus := ev_NewStatus ev;
     ev_StateVersion := ev_StateVersion ev; ev_CreatedAt := createdAt |}.
Lemma insertOperationEvent_inv ev w u w' :
  insertOperationEvent ev w = (Ok u, w') →
  ∃ t, w_db w' = set_operation_events (db_operation_events (w_db w) ++ [event_row ev t]) (w_db w).
Proof.
  unfold insertOperationEvent. intros H. dinv. rewrite Hdb. eexists. done.
Qed.
Lemma insertApprovalOutbox_inv t entry w u w' :
  insertApprovalOutbox t entry w = (Ok u, w') →
  w_db w' = set_outbox_rows t (outbox_rows t (w_db w) ++ [entry]) (w_db w).
Proof. unfold insertApprovalOutbox. intros H. by dinv. Qed.

(** ** Progress: when the evidence inserts succeed

    [env_ok]: the clock is past the zero time, the identifiers still to be drawn
    are distinct and unused, and the timelines are gapless. *)
Record env_ok (w : World) : Prop := {
  env_clock : ∀ n, nsec ≤ w_clock w n;
  env_inj : ∀ m n, w_uuid w m = w_uuid w n → m = n;
  env_nonempty : ∀ n, w_uuid w n ≠ "";
  env_events : ∀ n e, e ∈ db_operation_events (w_db w) → ev_ID e ≠ w_uuid w n;
  env_timeline : ∀ n e, e ∈ db_operation_timeline (w_db w) → te_ID e ≠ w_uuid w n;
  env_outbox : ∀ t n e, e ∈ outbox_rows t (w_db w) → ao_ID e ≠ w_uuid w n;
  env_gapless : gapless (db_operation_timeline (w_db w));
}.
Record fresh_id (i : string) (w : World) : Prop := {
  fresh_nonempty : i ≠ "";
  fresh_later : ∀ n, w_uuid w n ≠ i;
  fresh_events : ∀ e, e ∈ db_operation_events (w_db w) → ev_ID e ≠ i;
  fresh_timeline : ∀ e, e ∈ db_operation_timeline (w_db w) → te_ID e ≠ i;
  fresh_outbox : ∀ t e, e ∈ outbox_rows t (w_db w) → ao_ID e ≠ i;
}.
Lemma env_tick w : env_ok w → env_ok (tick w).
Proof. intros []. split; simpl; try assumption. intros n. apply env_clock0. Qed.
Lemma env_attempt w : env_ok w → env_ok (attempt w).
Proof. intros []. by split. Qed.
Lemma env_draw w : env_ok w → env_ok (draw w) ∧ fresh_id (w_uuid w 0) (draw w).
Proof.
  intros [Hc Hi Hn He Ht Ho Hg]. split.
  - split; simpl; [exact Hc|intros m n H; apply Hi in H; by injection H|exact (λ n, Hn (S n))
      |exact (λ n, He (S n))|exact (λ n, Ht (S n))|exact (λ t n, Ho t (S n))|exact Hg].
  - split; simpl; [exact (Hn 0%nat)|intros n H; by apply Hi in H|exact (He 0%nat)|exact (Ht 0%nat)
      |exact (λ t, Ho t 0%nat)].
Qed.
(** A statement on another table keeps the environment. *)
Lemma env_other f w :
  env_ok w → (∀ db, db_operation_events (f db) = db_operation_events db) →
  (∀ db, db_operation_timeline (f db) = db_operation_timeline db) →
  (∀ t db, outbox_rows t (f db) = outbox_rows t db) → env_ok (with_db (f (w_db w)) w).
Proof.
  intros [Hc Hi Hn He Ht Ho Hg] H1 H2 H3.
  split; simpl; rewrite ?H1, ?H2; try assumption. intros t. rewrite H3. apply Ho.
Qed.
Lemma existsb_fresh {A} (key : A → string) (i : string) l :
  (∀ e, e ∈ l → key e ≠ i) → existsb (λ e, bool_decide (key e = i)) l = false.
Proof.
  intros H. apply existsb_false_forall, Forall_forall. intros e He.
  apply bool_decide_eq_false. by apply H.
Qed.
Lemma seconds_positive t : nsec ≤ t → is_zero_time (rfc3339 t) = false ∧ is_zero_time t = false.
Proof.
  unfold is_zero_time, rfc3339, seconds, nsec. intros H.
  split; apply Z.eqb_neq; Z.to_euclidean_division_equations; lia.
Qed.

Lemma insertOperationEvent_ok ev w :
  env_ok w → fresh_id (ev_ID ev) w → is_zero_time (ev_CreatedAt ev) = false →
  is_Some (db_operations (w_db w) !! ev_OperationID ev) →
  ∃ w', insertOperationEvent ev w = (Ok tt, w') ∧ env_ok w' ∧ db_operations (w_db w') = db_operations (w_db w) ∧
        w_clock w' = w_clock w.
Proof.
  intros Henv Hf Hc Hp. unfold insertOperationEvent, or_now, check_fk. rewrite Hc.
  unfold bind, ret, query, gets, exec, modify, fail_if.
  rewrite (existsb_fresh ev_ID) by apply Hf. unfold ret. rewrite bool_decide_true by done. rewrite andb_false_r.
  eexists. split; [done|]. split_and!; [|done|done].
  destruct Henv as [? ? ? He ? ? ?]. split; simpl; try assumption.
  intros n e [H| ->%list_elem_of_singleton]%elem_of_app; [by apply He|]. intros Heq. by apply (fresh_later _ _ Hf n).
Qed.
Lemma insertApprovalOutbox_ok t entry w :
  env_ok w → fresh_id (ao_ID entry) w →
  ∃ w', insertApprovalOutbox t entry w = (Ok tt, w') ∧ env_ok w' ∧ db_operations (w_db w') = db_operations (w_db w) ∧
        w_clock w' = w_clock w.
Proof.
  intros Henv Hf. unfold insertApprovalOutbox, bind, query, gets, exec, modify, fail_if, ret.
  rewrite (existsb_fresh ao_ID) by apply Hf.
  eexists. split; [done|]. destruct Henv as [? ? ? ? ? Ho ?].
  assert (Hout : ∀ t' n e, e ∈ outbox_rows t' (set_outbox_rows t (outbox_rows t (w_db w) ++ [entry]) (w_db w)) →
                           ao_ID e ≠ w_uuid w n).
  { intros t' n e He. destruct t, t'; simpl in He; try by apply (Ho AuditOutbox n). all: try by apply (Ho NotificationOutbox n).
    all: apply elem_of_app in He as [He| ->%list_elem_of_singleton];
      [first [by apply (Ho AuditOutbox n)|by apply (Ho NotificationOutbox n)]|intros Heq; by apply (fresh_later _ _ Hf n)]. }
  split_and!; [|by destruct t|done].
  destruct t; split; simpl in *; try assumption; intros t'; specialize (Hout t'); destruct t'; simpl in *; assumption.
Qed.
Lemma gapless_next_unused l id e :
  gapless l → e ∈ l → te_OperationID e = id → te_Sequence e ≠ max_sequence (entries_of id l) + 1.
Proof.
  intros Hg He Hid. rewrite gapless_max by done.
  assert (Hs : te_Sequence e ∈ te_Sequence <$> entries_of id l).
  { apply list_elem_of_fmap_2. by apply list_elem_of_filter. }
  rewrite (Hg id) in Hs. apply elem_of_seqZ in Hs. lia.
Qed.
Lemma appendTimelineEntry_ok entry w :
  env_ok w → te_ID entry = "" → is_zero_time (te_CreatedAt entry) = false → te_Sequence entry = 0 →
  json_Valid (te_Data entry) = true → is_Some (db_operations (w_db w) !! te_OperationID entry) →
  ∃ e w', appendTimelineEntry entry w = (Ok e, w') ∧ env_ok w' ∧
          db_operations (w_db w') = db_operations (w_db w) ∧ w_clock w' = w_clock w.
Proof.
  intros Henv Hid Hc Hs Hd [op Hop]. destruct (env_draw _ Henv) as [Henv' Hf].
  unfold appendTimelineEntry, or_new_uuid, or_now. rewrite Hid, Hc. rewrite bool_decide_true by done.
  unfold bind, new_uuid, ret, query, gets, exec, modify, fail_if, scan_row.
  destruct (te_Data entry) as [| |j] eqn:Ej; [done|done|]. simpl. rewrite Hs. simpl. rewrite Hop. simpl.
  set (x := existsb _ _). assert (x = false) as ->.
  { apply existsb_false_forall, Forall_forall. intros e He. apply orb_false_iff. split.
    - apply bool_decide_eq_false. by apply (fresh_timeline _ _ Hf).
    - case_bool_decide as Heq; [|done]. simpl. apply Z.eqb_neq.
      by apply (gapless_next_unused _ _ _ (env_gapless _ Henv)). }
  eexists _, _. split; [done|]. split_and!; [|done|done].
  destruct Henv as [? ? ? ? Ht ? Hg]. destruct Henv' as [? ? ? ? Ht' ? ?]. split; simpl in *; try assumption.
  - intros n e [H| ->%list_elem_of_singleton]%elem_of_app; [by apply Ht|]. simpl.
    intros Heq. by apply (fresh_later _ _ Hf n).
  - by apply gapless_append.
Qed.

Lemma sample_env db :
  db_operation_events db = [] → db_operation_timeline db = [] → (∀ t, outbox_rows t db = []) → env_ok (sample_world db).
Proof.
  intros H1 H2 H3. split; simpl; rewrite ?H1, ?H2.
  - intros n. unfold nsec. lia.
  - intros m n H. injection H as H. exact (pretty_nat_inj m n H).
  - done.
  - intros n e He. by apply elem_of_nil in He.
  - intros n e He. by apply elem_of_nil in He.
  - intros t n e He. rewrite H3 in He. by apply elem_of_nil in He.
  - done.
Qed.

(** ** Reading a gapless timeline *)
Lemma merge_sort_key {A} (key : A → Z) (R : relation A) `{!RelDecision R} (l : list A) :
  (∀ a b, R a b ↔ key a ≤ key b) → NoDup (key <$> l) → StronglySorted Z.le (key <$> l) →
  merge_sort R l = l.
Proof.
  intros HR Hnd Hs.
  assert (Htot : Total R) by (intros a b; rewrite !HR; lia).
  assert (Htr : Transitive R) by (intros a b c; rewrite !HR; lia).
  assert (Hp : merge_sort R l ≡ₚ l) by apply merge_sort_Permutation.
  assert (Hk : key <$> merge_sort R l = key <$> l).
  { apply (StronglySorted_unique Z.le).
    - assert (H : StronglySorted R (merge_sort R l)) by (apply StronglySorted_merge_sort; apply _).
      clear Hp. induction H as [|a l' _ IH HF]; simpl; constructor; [done|].
      rewrite Forall_fmap. eapply Forall_impl; [exact HF|]. intros b Hb. by apply HR.
    - done.
    - by rewrite Hp. }
  revert Hp Hk Hnd. generalize (merge_sort R l). clear -l. induction l as [|x l IH]; intros k Hp Hk Hnd.
  - by apply Permutation_nil_r in Hp.
  - destruct k as [|y k]; [done|]. simpl in *. injection Hk as Hxy Hk.
    apply NoDup_cons in Hnd as [Hx Hnd].
    assert (y = x) as ->.
    { assert (Hin : y ∈ x :: l) by (rewrite <- Hp; left).
      apply elem_of_cons in Hin as [->|Hin]; [done|]. exfalso. apply Hx.
      rewrite <- Hxy. by apply list_elem_of_fmap_2. }
    f_equal. apply IH; [by apply Permutation_cons_inv in Hp|done|done].
Qed.

Lemma seqZ_le_sorted m n : StronglySorted Z.le (seqZ m n).
Proof.
  destruct (Z_le_gt_dec n 0); [rewrite seqZ_nil by lia; constructor|].
  rewrite <- (Z2Nat.id n) by lia. generalize (Z.to_nat n) as k. clear g n. intros k. revert m.
  induction k as [|k IH]; intros m; [constructor|].
  rewrite Nat2Z.inj_succ, seqZ_cons by lia. rewrite Z.pred_succ. constructor; [apply IH|].
  apply Forall_forall. intros x Hx%elem_of_seqZ. lia.
Qed.

Lemma StronglySorted_filter_key {A} (key : A → Z) (P : A → Prop) `{!∀ x, Decision (P x)} (l : list A) :
  StronglySorted Z.le (key <$> l) → StronglySorted Z.le (key <$> filter P l).
Proof.
  induction l as [|x l IH]; simpl; [done|]. intros HS. apply StronglySorted_inv in HS as [Hs HF].
  rewrite filter_cons. case_decide as HPx; [|auto]. simpl. constructor; [auto|].
  rewrite Forall_fmap in *. rewrite Forall_forall in *. intros y Hy. apply HF.
  by apply list_elem_of_filter in Hy as [_ ?].
Qed.
Lemma NoDup_filter_key {A B} (key : A → B) (P : A → Prop) `{!∀ x, Decision (P x)} (l : list A) :
  NoDup (key <$> l) → NoDup (key <$> filter P l).
Proof.
  induction l as [|x l IH]; simpl; [done|]. intros [Hx Hnd]%NoDup_cons.
  rewrite filter_cons. case_decide; [|auto]. simpl. apply NoDup_cons. split; [|auto].
  intros (y & Hxy & Hy%list_elem_of_filter)%list_elem_of_fmap. apply Hx.
  rewrite Hxy. apply list_elem_of_fmap_2, Hy.
Qed.

Lemma List_entries_gapless id a b db :
  gapless (db_operation_timeline db) →
  List_entries id a b db =
    filter (λ e, a < te_Sequence e ∧ (0 < b → te_Sequence e ≤ b)) (timeline_of id db).
Proof.
  intros H. unfold List_entries. apply (merge_sort_key te_Sequence); [done| |].
  - apply NoDup_filter_key. change (timeline_of id db) with (entries_of id (db_operation_timeline db)).
    rewrite (H id). apply NoDup_seqZ.
  - apply StronglySorted_filter_key. change (timeline_of id db) with (entries_of id (db_operation_timeline db)).
    rewrite (H id). apply seqZ_le_sorted.
Qed.

Lemma filter_split_sorted {A} (key : A → Z) (P Q R : A → Prop)
    `{!∀ x, Decision (P x), !∀ x, Decision (Q x), !∀ x, Decision (R x)} (b : Z) (l : list A) :
  StronglySorted Z.le (key <$> l) →
  (∀ x, P x ↔ R x ∧ key x ≤ b) → (∀ x, Q x ↔ R x ∧ b < key x) →
  filter P l ++ filter Q l = filter R l.
Proof.
  intros Hs HP HQ. induction l as [|x l IH]; [done|]. simpl in Hs. apply StronglySorted_inv in Hs as [Hs HF].
  specialize (IH Hs). rewrite !filter_cons. destruct (Z_le_gt_dec (key x) b) as [Hb|Hb].
  - rewrite (decide_False (P := Q x)) by (rewrite HQ; lia).
    destruct (decide (R x)) as [Hr|Hr].
    + rewrite decide_True by (by apply HP). simpl. by rewrite IH.
    + rewrite decide_False by (rewrite HP; tauto). done.
  - assert (Hnil : filter P l = []).
    { destruct (filter P l) as [|y k] eqn:E; [done|]. exfalso.
      assert (Hy : y ∈ filter P l) by (rewrite E; left).
      apply list_elem_of_filter in Hy as [HPy Hy]. apply HP in HPy as [_ Hle].
      rewrite Forall_fmap, Forall_forall in HF. specialize (HF y Hy). simpl in HF. lia. }
    rewrite Hnil in *. rewrite decide_False by (rewrite HP; lia). simpl in *.
    destruct (decide (R x)) as [Hr|Hr].
    + rewrite decide_True by (apply HQ; split; [done|lia]). by rewrite IH.
    + rewrite decide_False by (rewrite HQ; tauto). done.
Qed.

(** ** Properties *)

(** Appending to the timeline of an operation: on a database whose timelines
    are gapless the new entry gets the next sequence number (one more than the
    entries there), the operation's list is extended by exactly that entry, every
    other operation's list is unchanged, and the timelines stay gapless. *)
Theorem append_next_sequence entry w e w' :
  gapless (db_operation_timeline (w_db w)) →
  appendTimelineEntry entry w = (Ok e, w') →
  let l := timeline_of (te_OperationID entry) (w_db w) in
  te_Sequence e = Z.of_nat (length l) + 1 ∧
  timeline_of (te_OperationID entry) (w_db w') = l ++ [e] ∧
  (∀ id, id ≠ te_OperationID entry → timeline_of id (w_db w') = timeline_of id (w_db w)) ∧
  gapless (db_operation_timeline (w_db w')).
Proof.
  intros Hg H. apply appendTimelineEntry_inv in H as (_ & Hdb & Hid & _ & _ & Hseq & _). cbv zeta.
  assert (Hl : ∀ id, timeline_of id (w_db w') = timeline_of id (w_db w) ++ entries_of id [e]).
  { intros id. rewrite Hdb. apply entries_of_app. }
  split; [rewrite Hseq; f_equal; exact (gapless_max _ _ Hg)|]. split; [|split].
  - rewrite Hl, entries_of_one, decide_True by done. done.
  - intros id Hne. rewrite Hl, entries_of_one, decide_False by congruence. apply app_nil_r.
  - rewrite Hdb. apply gapless_append; [|done]. by rewrite Hid.
Qed.

Definition sample_entry (id : string) (sequence : Z) : OperationTimelineEntry :=
  {| te_ID := (id ++ "-" ++ pretty sequence)%string; te_OperationID := id; te_Sequence := sequence;
     te_OperationStateVersion := 1; te_Kind := TimelineEntryACK; te_Data := RawJson (JObj []); te_CreatedAt := nsec |}.
Definition sample_timeline_world : World :=
  sample_world (set_operation_timeline [sample_entry "op1" 1; sample_entry "op2" 1; sample_entry "op1" 2]
    (db_with_ops [sample_op "op1" "d1" "k1" OperationInstall StatusRunning 3])).
Lemma sample_timeline_gapless : gapless (db_operation_timeline (w_db sample_timeline_world)).
Proof.
  intros id. simpl. unfold entries_of. rewrite !filter_cons, filter_nil. simpl.
  destruct (decide ("op1" = id)); destruct (decide ("op2" = id)); subst; done.
Qed.
Lemma append_next_sequence_witness :
  ∃ e w', appendTimelineEntry (timeline_row "" 0 RawEmpty 0 (sample_entry "op1" 0)) sample_timeline_world = (Ok e, w')
          ∧ te_Sequence e = 3 ∧ gapless (db_operation_timeline (w_db w')).
Proof.
  destruct (appendTimelineEntry (timeline_row "" 0 RawEmpty 0 (sample_entry "op1" 0)) sample_timeline_world)
    as [[e|err] w'] eqn:E; [|vm_compute in E; discriminate E].
  exists e, w'. split; [reflexivity|].
  destruct (append_next_sequence _ _ _ _ sample_timeline_gapless E) as (H1 & _ & _ & H4).
  split; [rewrite H1; vm_compute; reflexivity|exact H4].
Defined.

(** Resuming a watch loses and duplicates nothing: on a gapless timeline,
    listing after [a] through [b] and then after [b] gives the same entries in
    the same order as one listing after [a], for every 0 <= a <= b with b > 0
    (a [through] of 0 means no upper bound), and [LatestSequence] is the number
    of entries. *)
Theorem list_resume id a b t w :
  gapless (db_operation_timeline (w_db w)) → 0 ≤ a ≤ b → 0 < b → (0 < t → b ≤ t) →
  List_entries id a b (w_db w) ++ List_entries id b t (w_db w) = List_entries id a t (w_db w) ∧
  LatestSequence id w = (Ok (Z.of_nat (length (timeline_of id (w_db w)))), w).
Proof.
  intros Hg Ha Hb Ht. split.
  - rewrite !List_entries_gapless by done. apply (filter_split_sorted te_Sequence _ _ _ b).
    + change (timeline_of id (w_db w)) with (entries_of id (db_operation_timeline (w_db w))).
      rewrite (Hg id). apply seqZ_le_sorted.
    + intros x. lia.
    + intros x. lia.
  - unfold LatestSequence, query, gets. f_equal. f_equal. by apply gapless_max.
Qed.
Lemma list_resume_witness :
  te_Sequence <$> (List_entries "op1" 0 1 (w_db sample_timeline_world) ++ List_entries "op1" 1 0 (w_db sample_timeline_world))
  = [1; 2].
Proof.
  rewrite (proj1 (list_resume "op1" 0 1 0 sample_timeline_world sample_timeline_gapless ltac:(lia) ltac:(lia) ltac:(lia))).
  vm_compute. reflexivity.
Defined.
