(* ===== verification/Idempotency.v ===== *)
(** * Scoped idempotency records (internal/store/sqlite/idempotency.go)

    A record is keyed by (scope, key) and carries the request hash and a
    reference to the response.  [createOrGetIdempotencyRecord] inserts it, takes
    over an expired one, replays an equal request and refuses a different one.
    The SQL compares [expires_at] as RFC3339Nano text; the Go code compares
    instants. *)
From S2P Require Import Prelude Utf8 Json Redact Domain Database.

Definition idempotency_key (scope key : string) : string * string := (scope, key).

(** validateIdempotencyRecord: the record with its defaults. *)
Definition day : Z := 24 * 3600 * nsec.
Definition validateIdempotencyRecord (record : IdempotencyRecord) : SM IdempotencyRecord :=
  fail_if (bool_decide (id_Scope record = "") || bool_decide (id_Key record = "") || bool_decide (id_RequestHash record = ""))
    (ErrOther "create idempotency record: invalid record") ;!
  let! expiresAt := (if is_zero_time (id_ExpiresAt record)
                     then let! t := now in ret (t + day) else ret (id_ExpiresAt record)) in
  ret {| id_Scope := id_Scope record; id_Key := id_Key record; id_RequestHash := id_RequestHash record;
         id_ResponseRef := id_ResponseRef record; id_ExpiresAt := expiresAt |}.

(** insertIdempotencyRecord with ON CONFLICT DO NOTHING: whether a row was inserted. *)
Definition insertIdempotencyRecord (record : IdempotencyRecord) : SM (bool * IdempotencyRecord) :=
  let! record := validateIdempotencyRecord record in
  let k := idempotency_key (id_Scope record) (id_Key record) in
  let! existing := query (λ db, db_idempotency_records db !! k) in
  match existing with
  | Some _ => ret (false, record)
  | None =>
      exec (λ db, set_idempotency_records (<[k := record]> (db_idempotency_records db)) db) ;!
      ret (true, record)
  end.

Definition loadIdempotencyRecord (scope key : string) : SM IdempotencyRecord :=
  let! row := query (λ db, db_idempotency_records db !! idempotency_key scope key) in
  scan_row row.

(** [... AND expires_at > ?] on the RFC3339Nano texts. *)
Definition active_record (db : DB) (scope key : string) (now : time) : option IdempotencyRecord :=
  match db_idempotency_records db !! idempotency_key scope key with
  | Some r => if text_ltb now (id_ExpiresAt r) then Some r else None
  | None => None
  end.
Definition loadActiveIdempotencyRecord (scope key : string) (now : time) : SM IdempotencyRecord :=
  let! row := query (λ db, active_record db scope key now) in
  scan_row row.

(** [DELETE ... WHERE scope AND text_key AND expires_at <= ?]: RowsAffected. *)
Definition deleteExpiredRecord (scope key : string) (now : time) : SM Z :=
  let k := idempotency_key scope key in
  let! row := query (λ db, db_idempotency_records db !! k) in
  match row with
  | Some r =>
      if text_leb (id_ExpiresAt r) now then
        exec (λ db, set_idempotency_records (delete k (db_idempotency_records db)) db) ;! ret 1
      else ret 0
  | None => ret 0
  end.

(** The [for] loop; running out of [fuel] is an error of its own, and
    [createOrGet_two_rounds] shows that two rounds are always enough. *)
Definition ErrFuel : error := ErrOther "out of fuel".
Fixpoint createOrGet_loop (fuel : nat) (record : IdempotencyRecord) (now : time) : SM (IdempotencyRecord * bool) :=
  match fuel with
  | O => throw ErrFuel
  | S fuel =>
      let! inserted := insertIdempotencyRecord record in
      if inserted.1 then ret (inserted.2, true) else
      let! existing := loadIdempotencyRecord (id_Scope record) (id_Key record) in
      let finish (existing : IdempotencyRecord) : SM (IdempotencyRecord * bool) :=
        if negb (bool_decide (id_RequestHash existing = id_RequestHash record)) then throw ErrIdempotencyConflict
        else ret (existing, false) in
      if negb (now <? id_ExpiresAt existing) then
        let! deleted := deleteExpiredRecord (id_Scope record) (id_Key record) now in
        if deleted =? 1 then createOrGet_loop fuel record now
        else
          let! existing := loadIdempotencyRecord (id_Scope record) (id_Key record) in
          finish existing
      else finish existing
  end.
Definition createOrGetIdempotencyRecord (record : IdempotencyRecord) (now : time) : SM (IdempotencyRecord * bool) :=
  let! record := validateIdempotencyRecord record in
  createOrGet_loop 2 record now.

(** idempotencyStore.DeleteExpired: at most [limit] rows in text order of expiry. *)
Definition rec_le (a b : (string * string) * IdempotencyRecord) : Prop :=
  text_ltb (id_ExpiresAt b.2) (id_ExpiresAt a.2) = false.
#[export] Instance rec_le_dec a b : Decision (rec_le a b).
Proof. unfold rec_le. apply _. Defined.
Definition DeleteExpired (before : time) (limits : list Z) : SM Z :=
  let limit := match limits with l :: _ => if (0 <? l) && (l <? 100) then l else 100 | [] => 100 end in
  autocommit (
    let! victims := query (λ db, fst <$> take (Z.to_nat limit)
      (merge_sort rec_le (filter (λ kr, text_ltb (id_ExpiresAt kr.2) before = true)
        (map_to_list (db_idempotency_records db))))) in
    exec (λ db, set_idempotency_records (filter (λ kr, kr.1 ∉ victims) (db_idempotency_records db)) db) ;!
    ret (Z.of_nat (length victims))).

(** ** Lemmas *)
Definition valid_record (r : IdempotencyRecord) : Prop :=
  id_Scope r ≠ "" ∧ id_Key r ≠ "" ∧ id_RequestHash r ≠ "" ∧ id_ExpiresAt r ≠ 0.

Lemma validate_valid r w : valid_record r → validateIdempotencyRecord r w = (Ok r, w).
Proof.
  intros (H1 & H2 & H3 & H4). unfold validateIdempotencyRecord, bind, fail_if, ret, is_zero_time.
  rewrite !bool_decide_false by done. simpl. rewrite (proj2 (Z.eqb_neq _ _) H4). by destruct r.
Qed.

Lemma insert_record_valid r w :
  valid_record r →
  insertIdempotencyRecord r w =
    match db_idempotency_records (w_db w) !! idempotency_key (id_Scope r) (id_Key r) with
    | Some _ => (Ok (false, r), w)
    | None => (Ok (true, r),
        with_db (set_idempotency_records
          (<[idempotency_key (id_Scope r) (id_Key r) := r]> (db_idempotency_records (w_db w))) (w_db w)) w)
    end.
Proof.
  intros H. unfold insertIdempotencyRecord, bind. rewrite validate_valid by done.
  unfold query, gets. by destruct (_ !! _).
Qed.

(** What the loop returns, as one function of the record it finds. *)
Definition createOrGet_spec (record : IdempotencyRecord) (now : time) (w : World) : res error (IdempotencyRecord * bool) * World :=
  let k := idempotency_key (id_Scope record) (id_Key record) in
  let inserted := with_db (set_idempotency_records (<[k := record]> (db_idempotency_records (w_db w))) (w_db w)) w in
  match db_idempotency_records (w_db w) !! k with
  | None => (Ok (record, true), inserted)
  | Some existing =>
      if negb (now <? id_ExpiresAt existing) && text_leb (id_ExpiresAt existing) now
      then (Ok (record, true), inserted)
      else if bool_decide (id_RequestHash existing = id_RequestHash record)
      then (Ok (existing, false), w)
      else (Err ErrIdempotencyConflict, w)
  end.

Lemma createOrGet_loop_spec n record now w :
  valid_record record → (2 ≤ n)%nat → createOrGet_loop n record now w = createOrGet_spec record now w.
Proof.
  intros Hv Hn. destruct n as [|[|n]]; [lia|lia|]. unfold createOrGet_spec.
  set (k := idempotency_key (id_Scope record) (id_Key record)).
  cbn [createOrGet_loop]. unfold bind at 1. rewrite insert_record_valid by done. fold k.
  destruct (db_idempotency_records (w_db w) !! k) as [existing|] eqn:Hk; [|done]. cbn [fst snd].
  unfold loadIdempotencyRecord, deleteExpiredRecord, bind, query, gets. fold k. rewrite Hk. simpl.
  destruct (negb (now <? id_ExpiresAt existing)) eqn:Hexp; simpl.
  - destruct (text_leb (id_ExpiresAt existing) now) eqn:Ht; simpl.
    + rewrite Hk, Ht. simpl. rewrite insert_record_valid by done. simpl. fold k. rewrite lookup_delete_eq. simpl.
      unfold ret. f_equal. unfold with_db. simpl. f_equal. unfold set_idempotency_records. simpl.
      f_equal. by rewrite insert_delete_eq.
    + rewrite Hk, Ht. simpl. rewrite Hk. simpl. by destruct (bool_decide _).
  - by destruct (bool_decide _).
Qed.

(** How a method may touch the records: by these three statements only. *)
Definition is_idempotency_frame {T} (f : DB → T) : Prop := ∀ v db, f (set_idempotency_records v db) = f db.

Section frame.
Context {T : Type} (f : DB → T) (R : relation T) `{!PreOrder R}.
Context (Hf : is_idempotency_frame f).

Lemma validate_frame r : preserves (db_rel (on_table f R)) (validateIdempotencyRecord r).
Proof. unfold validateIdempotencyRecord. db_preserve. Qed.
Lemma insert_record_frame r : preserves (db_rel (on_table f R)) (insertIdempotencyRecord r).
Proof.
  unfold insertIdempotencyRecord. apply preserves_bind; [apply _|apply validate_frame|intros ?].
  db_preserve. apply preserves_exec_other; [apply _|intros; apply Hf].
Qed.
Lemma deleteExpiredRecord_frame s k t : preserves (db_rel (on_table f R)) (deleteExpiredRecord s k t).
Proof.
  unfold deleteExpiredRecord. db_preserve. apply preserves_exec_other; [apply _|intros; apply Hf].
Qed.
Lemma createOrGet_loop_frame n r t : preserves (db_rel (on_table f R)) (createOrGet_loop n r t).
Proof.
  induction n as [|n IH]; simpl; [apply preserves_throw, _|].
  apply preserves_bind; [apply _|apply insert_record_frame|intros [b r']]. simpl.
  destruct b; [apply preserves_ret, _|]. unfold loadIdempotencyRecord.
  pose proof deleteExpiredRecord_frame. db_preserve.
Qed.
Lemma createOrGet_frame r t : preserves (db_rel (on_table f R)) (createOrGetIdempotencyRecord r t).
Proof.
  apply preserves_bind; [apply _|apply validate_frame|intros; apply createOrGet_loop_frame].
Qed.
Lemma loadActive_frame s k t : preserves (db_rel (on_table f R)) (loadActiveIdempotencyRecord s k t).
Proof. unfold loadActiveIdempotencyRecord. db_preserve. Qed.
End frame.
#[export] Hint Extern 1 (preserves (db_rel (on_table _ _)) (createOrGetIdempotencyRecord _ _)) =>
  (apply createOrGet_frame; [apply _ | intros ??; reflexivity]) : preserve.
#[export] Hint Extern 1 (preserves (db_rel (on_table _ _)) (loadActiveIdempotencyRecord _ _ _)) =>
  (apply loadActive_frame; apply _) : preserve.

Lemma createOrGet_valid record now w :
  valid_record record → createOrGetIdempotencyRecord record now w = createOrGet_spec record now w.
Proof.
  intros Hv. unfold createOrGetIdempotencyRecord, bind. rewrite validate_valid by done.
  by apply createOrGet_loop_spec.
Qed.

Lemma createOrGet_created record now x w w' :
  valid_record record → createOrGetIdempotencyRecord record now w = (Ok (x, true), w') →
  x = record ∧
  w' = with_db (set_idempotency_records
         (<[idempotency_key (id_Scope record) (id_Key record) := record]> (db_idempotency_records (w_db w))) (w_db w)) w.
Proof.
  intros Hv. rewrite createOrGet_valid by done. unfold createOrGet_spec.
  destruct (_ !! _); [|by intros [= <- <-]].
  destruct (negb _ && _); [by intros [= <- <-]|]. by destruct (bool_decide _).
Qed.

(** ** Properties *)

(** The retry loop of [createOrGetIdempotencyRecord] terminates within two
    rounds: any larger bound on the number of rounds gives the same result, and
    that result is never the out-of-fuel error. *)
Theorem createOrGet_two_rounds n record now w :
  valid_record record → (2 ≤ n)%nat →
  createOrGet_loop n record now w = createOrGetIdempotencyRecord record now w ∧
  ∀ w', createOrGetIdempotencyRecord record now w ≠ (Err ErrFuel, w').
Proof.
  intros Hv Hn. rewrite createOrGet_valid, createOrGet_loop_spec by done. split; [done|].
  intros w'. unfold createOrGet_spec. repeat case_match; discriminate.
Qed.

(** One idempotency key answers one request: on success the record stored
    under the key has the caller's request hash and is the one returned, all
    other keys are untouched, and a replay changes nothing; the only failure is
    the conflict with an unexpired record of a different request, which also
    changes nothing. *)
Theorem createOrGet_functional record now w :
  valid_record record →
  let k := idempotency_key (id_Scope record) (id_Key record) in
  match createOrGetIdempotencyRecord record now w with
  | (Ok (r, created), w') =>
      db_idempotency_records (w_db w') !! k = Some r ∧ id_RequestHash r = id_RequestHash record ∧
      (∀ k', k' ≠ k → db_idempotency_records (w_db w') !! k' = db_idempotency_records (w_db w) !! k') ∧
      (if created then r = record else w' = w)
  | (Err e, w') =>
      e = ErrIdempotencyConflict ∧ w' = w ∧
      ∃ existing, db_idempotency_records (w_db w) !! k = Some existing ∧
                  id_RequestHash existing ≠ id_RequestHash record
  end.
Proof.
  intros Hv k. rewrite createOrGet_valid by done. unfold createOrGet_spec. fold k.
  destruct (db_idempotency_records (w_db w) !! k) as [existing|] eqn:Hk.
  - destruct (negb _ && _).
    + simpl. rewrite lookup_insert_eq. repeat split; intros; by rewrite lookup_insert_ne.
    + case_bool_decide; [done|]. eauto.
  - simpl. rewrite lookup_insert_eq. repeat split; intros; by rewrite lookup_insert_ne.
Qed.

(** The lookup of an active record is exact whenever the clock and the
    expiry lie in different seconds: it finds the record iff it has not expired,
    although the SQL compares the texts of the two instants. *)
Theorem active_record_exact db scope key now r :
  db_idempotency_records db !! idempotency_key scope key = Some r → seconds now ≠ seconds (id_ExpiresAt r) →
  active_record db scope key now = (if now <? id_ExpiresAt r then Some r else None).
Proof. intros Hr H. unfold active_record. by rewrite Hr, text_ltb_chronological. Qed.

(** Within one second it is not: 1.10s is printed ".1Z" and sorts after
    1.12s (".12Z"), so an unexpired record is not found by the lookup, while
    [createOrGetIdempotencyRecord] (which compares instants) still replays it. *)
Lemma unexpired_record_not_active :
  let r := {| id_Scope := "s"; id_Key := "k"; id_RequestHash := "h"; id_ResponseRef := RefOperationID "op1";
              id_ExpiresAt := 1120000000 |} in
  let db := set_idempotency_records {[ ("s", "k") := r ]} empty_db in
  1100000000 < id_ExpiresAt r ∧ active_record db "s" "k" 1100000000 = None ∧
  (createOrGetIdempotencyRecord r 1100000000 (sample_world db)).1 = Ok (r, false).
Proof. vm_compute. auto. Qed.

Definition sample_record (hash : string) (expires : time) : IdempotencyRecord :=
  {| id_Scope := "s"; id_Key := "k"; id_RequestHash := hash; id_ResponseRef := RefOperationID "op1"; id_ExpiresAt := expires |}.
Lemma sample_record_valid hash : hash ≠ "" → valid_record (sample_record hash (1000 * nsec)).
Proof. intros. repeat split; done. Qed.
Lemma createOrGet_two_rounds_witness :
  result (createOrGet_loop 7 (sample_record "h2" (1000 * nsec)) (500 * nsec)
    (sample_world (set_idempotency_records {[ ("s", "k") := sample_record "h1" (400 * nsec) ]} empty_db)))
  = Some (sample_record "h2" (1000 * nsec), true).
Proof.
  rewrite (proj1 (createOrGet_two_rounds 7 _ (500 * nsec) _ (sample_record_valid "h2" ltac:(done)) ltac:(lia))).
  vm_compute. reflexivity.
Defined.
Lemma createOrGet_functional_witness :
  let w := sample_world (set_idempotency_records {[ ("s", "k") := sample_record "h1" (900 * nsec) ]} empty_db) in
  createOrGetIdempotencyRecord (sample_record "h2" (1000 * nsec)) (500 * nsec) w = (Err ErrIdempotencyConflict, w).
Proof.
  intros w. pose proof (createOrGet_functional (sample_record "h2" (1000 * nsec)) (500 * nsec) w
    (sample_record_valid "h2" ltac:(done))) as H.
  destruct (createOrGetIdempotencyRecord _ _ w) as [[[r b]|e] w'] eqn:E.
  - vm_compute in E. discriminate E.
  - destruct H as (-> & -> & _). reflexivity.
Defined.
Lemma active_record_exact_witness :
  active_record (set_idempotency_records {[ ("s", "k") := sample_record "h1" (400 * nsec) ]} empty_db) "s" "k" (300 * nsec)
  = Some (sample_record "h1" (400 * nsec)).
Proof.
  rewrite (active_record_exact _ "s" "k" (300 * nsec) (sample_record "h1" (400 * nsec))); [reflexivity|reflexivity|].
  vm_compute. discriminate.
Defined.
