(* ===== verification/Outbox.v ===== *)
(** * The command outbox (internal/store/sqlite/commands.go, createOutbox of operations.go)

    Commands for operators, delivered in the order of a global sequence number.
    [persistAckTx] is the acknowledgement transaction shared by the outbox and
    the emergency intents; it is parameterised by the table it updates. *)
From S2P Require Import Prelude Utf8 Json Redact Domain Database Timeline.

(** normalizeOutboxEntry *)
Definition normalizeOutboxEntry (e : OutboxEntry) : SM OutboxEntry :=
  let! createdAt := or_now (ob_CreatedAt e) in
  ret {| ob_ID := ob_ID e;
         ob_CommandID := if bool_decide (ob_CommandID e = "") then ob_ID e else ob_CommandID e;
         ob_OperationID := ob_OperationID e; ob_OperationType := ob_OperationType e; ob_OperatorID := ob_OperatorID e;
         ob_Payload := match ob_Payload e with None => Some "" | p => p end;
         ob_Status := if bool_decide (ob_Status e = CommandStatusEmpty) then CommandPending else ob_Status e;
         ob_MaxInFlight := ob_MaxInFlight e; ob_Sequence := ob_Sequence e; ob_ResultJSON := ob_ResultJSON e;
         ob_CreatedAt := createdAt;
         ob_UpdatedAt := if is_zero_time (ob_UpdatedAt e) then createdAt else ob_UpdatedAt e;
         ob_DeliveredAt := ob_DeliveredAt e; ob_AckedAt := ob_AckedAt e |}.

(** The row INSERT writes: RFC3339 times, no delivered_at or acked_at. *)
Definition outbox_row (e : OutboxEntry) : OutboxEntry :=
  {| ob_ID := ob_ID e; ob_CommandID := ob_CommandID e; ob_OperationID := ob_OperationID e;
     ob_OperationType := ob_OperationType e; ob_OperatorID := ob_OperatorID e; ob_Payload := ob_Payload e;
     ob_Status := ob_Status e; ob_MaxInFlight := ob_MaxInFlight e; ob_Sequence := ob_Sequence e;
     ob_ResultJSON := ob_ResultJSON e; ob_CreatedAt := rfc3339 (ob_CreatedAt e);
     ob_UpdatedAt := rfc3339 (ob_UpdatedAt e); ob_DeliveredAt := None; ob_AckedAt := None |}.
Definition createOutboxEntry (e : OutboxEntry) : SM unit :=
  let! duplicate := query (λ db, existsb (λ r, bool_decide (ob_ID r = ob_ID e)) (db_outbox db)) in
  fail_if (duplicate || bool_decide (ob_Payload e = None)) (ErrOther "insert outbox entry") ;!
  exec (λ db, set_outbox (db_outbox db ++ [outbox_row e]) db).
Definition Create_outbox (e : OutboxEntry) : SM OutboxEntry :=
  let! e := normalizeOutboxEntry e in
  autocommit (createOutboxEntry e) ;! ret e.

(** createOutbox (operations.go) applies the same defaults and the same insert. *)
Definition createOutbox (entry : OutboxEntry) : SM OutboxEntry :=
  let! entry := normalizeOutboxEntry entry in
  createOutboxEntry entry ;! ret entry.

Definition Get_outbox (id : string) : SM OutboxEntry :=
  let! row := query (λ db, find_row (λ e, bool_decide (ob_ID e = id)) (db_outbox db)) in scan_row row.

(** [ORDER BY created_at DESC LIMIT 1] over the rows that satisfy [p]. *)
Definition created_ge (a b : OutboxEntry) : Prop := ob_CreatedAt b ≤ ob_CreatedAt a.
#[export] Instance created_ge_dec a b : Decision (created_ge a b) := decide (ob_CreatedAt b ≤ ob_CreatedAt a).
Definition latest_outbox (p : OutboxEntry → bool) (db : DB) : option OutboxEntry :=
  head (merge_sort created_ge (filter (λ e, p e = true) (db_outbox db))).
Definition GetByCommandID_outbox (commandID : string) : SM OutboxEntry :=
  let! row := query (latest_outbox (λ e, bool_decide (ob_CommandID e = commandID))) in scan_row row.
Definition GetByOperationID_outbox (operationID : string) : SM OutboxEntry :=
  let! row := query (latest_outbox (λ e, bool_decide (ob_OperationID e = operationID))) in scan_row row.

(** [ORDER BY sequence ASC] *)
Definition ob_seq_le (a b : OutboxEntry) : Prop := ob_Sequence a ≤ ob_Sequence b.
#[export] Instance ob_seq_le_dec a b : Decision (ob_seq_le a b) := decide (ob_Sequence a ≤ ob_Sequence b).
Definition outbox_in_order (p : OutboxEntry → bool) (db : DB) : list OutboxEntry :=
  merge_sort ob_seq_le (filter (λ e, p e = true) (db_outbox db)).

Definition is_inflight (s : CommandStatus) : bool :=
  bool_decide (s ∈ [CommandDelivered; CommandPersisted; CommandRunning]).
Definition GetDeliveredNotAcked (operatorID : string) : SM (list OutboxEntry) :=
  query (outbox_in_order (λ e, bool_decide (ob_OperatorID e = operatorID) && is_inflight (ob_Status e)
                               && bool_decide (ob_AckedAt e = None))).
Definition GetInflightForOperator (operatorID : string) : SM OutboxEntry :=
  let! rows := query (outbox_in_order (λ e, bool_decide (ob_OperatorID e = operatorID) && is_inflight (ob_Status e))) in
  scan_row (head rows).
Definition is_pending_for (operatorID : string) (e : OutboxEntry) : bool :=
  bool_decide (ob_OperatorID e = operatorID) && bool_decide (ob_Status e = CommandPending).
Definition GetNextPending (operatorID : string) : SM OutboxEntry :=
  let! rows := query (outbox_in_order (is_pending_for operatorID)) in
  scan_row (head rows).

(** [MAX(sequence) + 1], or 1 on an empty outbox. *)
Definition next_sequence (db : DB) : Z :=
  match ob_Sequence <$> db_outbox db with [] => 1 | x :: xs => foldr Z.max x xs + 1 end.
Definition GetNextSequence : SM Z := query next_sequence.

Definition set_outbox_status (status : CommandStatus) (resultJSON : string) (now : time) (e : OutboxEntry) : OutboxEntry :=
  {| ob_ID := ob_ID e; ob_CommandID := ob_CommandID e; ob_OperationID := ob_OperationID e;
     ob_OperationType := ob_OperationType e; ob_OperatorID := ob_OperatorID e; ob_Payload := ob_Payload e;
     ob_Status := status; ob_MaxInFlight := ob_MaxInFlight e; ob_Sequence := ob_Sequence e; ob_ResultJSON := resultJSON;
     ob_CreatedAt := ob_CreatedAt e; ob_UpdatedAt := now;
     ob_DeliveredAt := if bool_decide (status = CommandDelivered) then Some now else ob_DeliveredAt e;
     ob_AckedAt := if bool_decide (status = CommandPersisted) then Some now else ob_AckedAt e |}.
(** outboxStore.UpdateStatus: an unknown id is not an error. *)
Definition UpdateStatus_outbox (id : string) (status : CommandStatus) (resultJSON : string) : SM unit :=
  let! n := nowUTC in
  autocommit (exec (λ db, set_outbox
    (update_where (λ e, bool_decide (ob_ID e = id)) (set_outbox_status status resultJSON n) (db_outbox db)) db)).

(** ** Acknowledgement *)

(** What persistAckTx needs from a table: the row's operation, command and
    "already persisted" flag, and the conditional UPDATE with its RowsAffected. *)
Record AckTable := {
  ack_load : string → DB → option (string * string * bool);
  ack_rows : string → DB → nat;
  ack_persist : string → time → DB → DB;
}.
Definition persistAckTx (table : AckTable) (id : string) (now : time) : SM (outcome (option OperationTimelineEntry)) :=
  let! row := query (ack_load table id) in
  let! row := scan_row row in
  let '(operationID, commandID, persisted) := row in
  if persisted : bool then ret (Rollback None)
  else
    let! rows := query (ack_rows table id) in
    exec (ack_persist table id now) ;!
    if Nat.eqb rows 0 then ret (Rollback None) else
    let! entry := appendTimelineEntry
      {| te_ID := ""; te_OperationID := operationID; te_Sequence := 0; te_OperationStateVersion := 0;
         te_Kind := TimelineEntryACK; te_Data := AckTimelineData commandID "persisted"; te_CreatedAt := 0 |} in
    ret (Commit (Some entry)).

Definition ack_outbox_row (now : time) (e : OutboxEntry) : OutboxEntry :=
  {| ob_ID := ob_ID e; ob_CommandID := ob_CommandID e; ob_OperationID := ob_OperationID e;
     ob_OperationType := ob_OperationType e; ob_OperatorID := ob_OperatorID e; ob_Payload := ob_Payload e;
     ob_Status := CommandPersisted; ob_MaxInFlight := ob_MaxInFlight e; ob_Sequence := ob_Sequence e;
     ob_ResultJSON := ob_ResultJSON e; ob_CreatedAt := ob_CreatedAt e; ob_UpdatedAt := now;
     ob_DeliveredAt := ob_DeliveredAt e; ob_AckedAt := Some now |}.
Definition awaits_ack (id : string) (e : OutboxEntry) : bool :=
  bool_decide (ob_ID e = id) && negb (bool_decide (ob_Status e = CommandPersisted)).
Definition outbox_ack_table : AckTable := {|
  ack_load id db :=
    match find_row (λ e, bool_decide (ob_ID e = id)) (db_outbox db) with
    | Some e => Some (ob_OperationID e, ob_CommandID e, bool_decide (ob_Status e = CommandPersisted))
    | None => None
    end;
  ack_rows id db := rows_affected (awaits_ack id) (db_outbox db);
  ack_persist id now db := set_outbox (update_where (awaits_ack id) (ack_outbox_row now) (db_outbox db)) db;
|}.
(** The transaction around it, which stamps the row with [format now], and
    outboxStore.PersistAck. *)
Definition persist_ack (table : AckTable) (format : time → time) (id : string) : SM (option OperationTimelineEntry) :=
  run_tx (let! t := now in persistAckTx table id (format t)).
Definition PersistAck (id : string) : SM (option OperationTimelineEntry) := persist_ack outbox_ack_table rfc3339 id.

(** The contract of such a table: persisting marks the row and nothing else
    that the acknowledgement reads. *)
Class AckTableLaws (table : AckTable) : Prop := {
  ack_persist_load id now db o c p :
    ack_load table id db = Some (o, c, p) → ack_load table id (ack_persist table id now db) = Some (o, c, true);
  ack_rows_pending id db o c : ack_load table id db = Some (o, c, false) → ack_rows table id db ≠ 0%nat;
  ack_persist_timeline id now db : db_operation_timeline (ack_persist table id now db) = db_operation_timeline db;
  ack_load_timeline id v db : ack_load table id (set_operation_timeline v db) = ack_load table id db;
}.

(** ** Lemmas *)
Lemma normalizeOutboxEntry_frame {T} (f : DB → T) R `{!PreOrder R} e :
  preserves (db_rel (on_table f R)) (normalizeOutboxEntry e).
Proof. unfold normalizeOutboxEntry. db_preserve. Qed.
Lemma createOutboxEntry_frame {T} (f : DB → T) R `{!PreOrder R} e :
  (∀ v db, f (set_outbox v db) = f db) → preserves (db_rel (on_table f R)) (createOutboxEntry e).
Proof. intros Hf. unfold createOutboxEntry. db_preserve. by apply preserves_exec_other. Qed.
#[export] Hint Extern 1 (preserves (db_rel (on_table _ _)) (normalizeOutboxEntry _)) =>
  (apply normalizeOutboxEntry_frame; apply _) : preserve.
#[export] Hint Extern 1 (preserves (db_rel (on_table _ _)) (createOutboxEntry _)) =>
  (apply createOutboxEntry_frame; [apply _ | reflexivity]) : preserve.
Lemma createOutbox_frame {T} (f : DB → T) R `{!PreOrder R} e :
  (∀ v db, f (set_outbox v db) = f db) → preserves (db_rel (on_table f R)) (createOutbox e).
Proof. intros Hf. unfold createOutbox. db_preserve. by apply createOutboxEntry_frame. Qed.
#[export] Hint Extern 1 (preserves (db_rel (on_table _ _)) (createOutbox _)) =>
  (apply createOutbox_frame; [apply _ | reflexivity]) : preserve.

Lemma foldr_max_ge (l : list Z) x y : y ∈ x :: l → y ≤ foldr Z.max x l.
Proof.
  induction l as [|z l IH]; simpl; [by intros ->%list_elem_of_singleton|].
  intros [->|[->|H]%elem_of_cons]%elem_of_cons; [|lia|].
  - etransitivity; [apply IH; by left|lia].
  - etransitivity; [apply IH; by right|lia].
Qed.

Lemma merge_sort_head_min {A} (key : A → Z) (R : relation A) `{!RelDecision R} (l : list A) x :
  (∀ a b, R a b ↔ key a ≤ key b) → head (merge_sort R l) = Some x →
  x ∈ l ∧ ∀ y, y ∈ l → key x ≤ key y.
Proof.
  intros HR H.
  assert (Htot : Total R) by (intros a b; rewrite !HR; lia).
  assert (Htr : Transitive R) by (intros a b c; rewrite !HR; lia).
  assert (Hs : StronglySorted R (merge_sort R l)) by (apply StronglySorted_merge_sort; apply _).
  assert (Hp : merge_sort R l ≡ₚ l) by apply merge_sort_Permutation.
  destruct (merge_sort R l) as [|x' l'] eqn:E; [done|]. injection H as ->.
  split; [rewrite <- Hp; left|]. intros y Hy. rewrite <- Hp in Hy.
  apply elem_of_cons in Hy as [->|Hy]; [lia|]. apply StronglySorted_inv in Hs as [_ HF].
  rewrite Forall_forall in HF. apply HR. by apply HF.
Qed.
Lemma head_merge_sort_None {A} (R : relation A) `{!RelDecision R} (l : list A) :
  head (merge_sort R l) = None ↔ l = [].
Proof.
  assert (Hp : merge_sort R l ≡ₚ l) by apply merge_sort_Permutation.
  destruct (merge_sort R l) as [|x l'] eqn:E; simpl.
  - split; [|done]. intros _. by apply Permutation_nil_l in Hp.
  - split; [done|]. intros ->. by apply Permutation_nil_r in Hp.
Qed.

Lemma find_row_update {A} (p q : A → bool) (f : A → A) l :
  (∀ x, p (f x) = p x) →
  find_row p (update_where q f l) = (λ x, if q x then f x else x) <$> find_row p l.
Proof.
  intros Hp. unfold find_row, update_where. induction l as [|x l IH]; [done|]. simpl.
  destruct (q x) eqn:Hq; [rewrite Hp|]; destruct (p x) eqn:E; simpl; by rewrite ?Hq.
Qed.
#[export] Instance outbox_ack_laws : AckTableLaws outbox_ack_table.
Proof.
  split; [| |done|done].
  - intros id n db o c p. simpl.
    rewrite find_row_update by done. destruct (find_row _ _) as [e|] eqn:E; simpl; [|done].
    apply find_row_Some in E as [_ Hid]. unfold awaits_ack. rewrite Hid. simpl. intros [= <- <- <-].
    by destruct (bool_decide (ob_Status e = CommandPersisted)) eqn:Hp; simpl; rewrite ?Hp.
  - intros id db o c. simpl. destruct (find_row _ _) as [e|] eqn:E; [|done]. intros [= _ _ Hp] H0.
    apply find_row_Some in E as [He Hid]. rewrite rows_affected_0 in H0. specialize (H0 _ He).
    unfold awaits_ack in H0. by rewrite Hid, Hp in H0.
Qed.

(** ** Properties *)

(** An acknowledgement is recorded exactly once.  Acknowledging a row that
    is not persisted yet marks it and appends one ACK entry, with the next
    sequence number, to its operation's timeline; acknowledging it again, now
    or later, succeeds and changes nothing. *)
Theorem persist_ack_once (table : AckTable) `{!AckTableLaws table} format id w r w' :
  persist_ack table format id w = (Ok r, w') →
  ∃ o c p, ack_load table id (w_db w) = Some (o, c, p) ∧ ack_load table id (w_db w') = Some (o, c, true) ∧
    (if p : bool then r = None ∧ w_db w' = w_db w
     else ∃ e, r = Some e ∧ db_operation_timeline (w_db w') = db_operation_timeline (w_db w) ++ [e] ∧
            te_OperationID e = o ∧ te_Kind e = TimelineEntryACK ∧ te_Data e = AckTimelineData c "persisted" ∧
            te_Sequence e = max_sequence (timeline_of o (w_db w)) + 1) ∧
    ∀ w2, ack_load table id (w_db w2) = ack_load table id (w_db w') → w_busy w2 0%nat = false →
      ∃ w3, persist_ack table format id w2 = (Ok None, w3) ∧ w_db w3 = w_db w2.
Proof.
  intros H.
  assert (Hagain : ∀ o c w2, ack_load table id (w_db w2) = Some (o, c, true) → w_busy w2 0%nat = false →
    ∃ w3, persist_ack table format id w2 = (Ok None, w3) ∧ w_db w3 = w_db w2).
  { intros o c w2 Hl Hb. unfold persist_ack, run_tx, persistAckTx, now, bind, ret, query, gets. rewrite Hb. simpl.
    rewrite Hl. simpl. eexists. split; [reflexivity|done]. }
  unfold persist_ack in H. apply run_tx_Ok in H as [_ H]. unfold persistAckTx in H.
  destruct H as [H|(w1 & H & ->)]; dinv; destruct (ack_load table id (w_db w)) as [[[o c] p]|] eqn:Hl; simplify_eq;
    destruct p; dinv; try (match type of H with (if ?b then _ else _) _ = _ => destruct b eqn:Hrows end; dinv).
  - match goal with H : appendTimelineEntry _ _ = _ |- _ =>
      apply appendTimelineEntry_inv in H as (_ & Hdb & Hid & Hk & _ & Hs & Hd) end. simpl in *.
    exists o, c, false. rewrite Hdb, ack_load_timeline. pose proof (ack_persist_load id (format (w_clock w 0)) _ _ _ _ Hl) as Hl'.
    split; [done|]. split; [done|]. split.
    + eexists. split; [done|]. simpl. rewrite ack_persist_timeline. split; [done|]. split; [done|]. split; [done|].
      split; [by apply Hd|]. rewrite Hs. unfold timeline_of. by rewrite ack_persist_timeline.
    + intros w2 Hw2. rewrite Hl' in Hw2. by eapply Hagain.
  - exists o, c, true. split_and!; [done|done|done|done|]. intros w2 Hw2. by eapply Hagain.
  - apply Nat.eqb_eq in Hrows. by apply ack_rows_pending in Hl.
Qed.

(** The next pending command of an operator is one of its pending rows with
    the least sequence number, and there is none exactly when the operator has
    no pending row; the store is only read. *)
Theorem GetNextPending_least operatorID w :
  match GetNextPending operatorID w with
  | (Ok e, w') => w' = w ∧ e ∈ db_outbox (w_db w) ∧ is_pending_for operatorID e = true ∧
      ∀ e', e' ∈ db_outbox (w_db w) → is_pending_for operatorID e' = true → ob_Sequence e ≤ ob_Sequence e'
  | (Err err, w') => w' = w ∧ err = ErrNotFound ∧
      ∀ e, e ∈ db_outbox (w_db w) → is_pending_for operatorID e = false
  end.
Proof.
  unfold GetNextPending, bind, query, gets, outbox_in_order. simpl.
  destruct (head _) as [e|] eqn:E; simpl; (split; [done|]).
  - apply (merge_sort_head_min ob_Sequence) in E as [He Hmin]; [|done].
    apply list_elem_of_filter in He as [Hp He]. split_and!; [done..|]. intros e' He' Hp'.
    apply Hmin. by apply list_elem_of_filter.
  - split; [done|]. apply head_merge_sort_None in E. intros e He.
    destruct (is_pending_for operatorID e) eqn:Hp; [|done].
    assert (Hin : e ∈ filter (λ e, is_pending_for operatorID e = true) (db_outbox (w_db w))) by by apply list_elem_of_filter.
    rewrite E in Hin. by apply not_elem_of_nil in Hin.
Qed.

(** The number handed out is above every number in use. *)
Lemma next_sequence_fresh db e : e ∈ db_outbox db → ob_Sequence e < next_sequence db.
Proof.
  intros He. unfold next_sequence. assert (Hin : ob_Sequence e ∈ ob_Sequence <$> db_outbox db) by by apply list_elem_of_fmap_2.
  destruct (ob_Sequence <$> db_outbox db) as [|x xs]; [by apply not_elem_of_nil in Hin|].
  apply foldr_max_ge in Hin. lia.
Qed.

Definition sample_entry (id operation : string) (status : CommandStatus) (sequence : Z) : OutboxEntry :=
  {| ob_ID := id; ob_CommandID := id; ob_OperationID := operation; ob_OperationType := "INSTALL"; ob_OperatorID := "o1";
     ob_Payload := Some "{}"; ob_Status := status; ob_MaxInFlight := 1; ob_Sequence := sequence; ob_ResultJSON := "";
     ob_CreatedAt := nsec; ob_UpdatedAt := nsec; ob_DeliveredAt := None; ob_AckedAt := None |}.
Lemma persist_ack_once_witness :
  let w := sample_world (set_outbox [sample_entry "x1" "op1" CommandDelivered 0]
             (db_with_ops [sample_op "op1" "d1" "k1" OperationInstall StatusRunning 3])) in
  ∃ e w', PersistAck "x1" w = (Ok (Some e), w') ∧ te_Sequence e = 1 ∧
          ∃ w3, PersistAck "x1" w' = (Ok None, w3) ∧ w_db w3 = w_db w'.
Proof.
  intros w. destruct (PersistAck "x1" w) as [[r|e] w'] eqn:E; [|vm_compute in E; discriminate E].
  assert (Hb : w_busy w' 0%nat = false) by (vm_compute in E; injection E as _ <-; reflexivity).
  destruct (persist_ack_once outbox_ack_table rfc3339 "x1" w r w' E) as (o & c & p & Hl & _ & Hr & Hagain).
  vm_compute in Hl. injection Hl as <- <- <-. destruct Hr as (e & -> & _ & _ & _ & _ & Hs).
  exists e, w'. split; [reflexivity|]. split; [rewrite Hs; reflexivity|]. exact (Hagain w' eq_refl Hb).
Defined.
