(* ===== verification/OperationStore.v ===== *)
(** * The operation store (internal/store/sqlite/operations.go, QueueOperation of uow.go)

    An operation row is created once and then moved by compare-and-swap
    transitions on [state_version].  Every transition writes, in the same
    transaction, the state-change event, the timeline entries, the preflight
    terminal stamp and (for most paths) the terminal notification. *)
From S2P Require Import Prelude Utf8 Json Redact Domain Lifecycle Database Timeline Idempotency Outbox.
From stdpp Require Import pretty.
#[local] Open Scope Z_scope.

(** ** Reading operations *)

(** A row with the columns an UPDATE can change, everything else kept. *)
Definition op_update (op : Operation) (status : OperationStatus) (stateVersion : Z) (lastError : string)
    (updatedAt : time) (terminalAt : option time) (effect : EmergencyEffectStatus) : Operation :=
  {| op_ID := op_ID op; op_OperationType := op_OperationType op; op_Status := status;
     op_ReleaseDefinitionID := op_ReleaseDefinitionID op; op_IdempotencyKey := op_IdempotencyKey op;
     op_IdempotencyScope := op_IdempotencyScope op; op_RequestHash := op_RequestHash op;
     op_StateVersion := stateVersion; op_BundleID := op_BundleID op; op_BundleChartRef := op_BundleChartRef op;
     op_BundleChartDigest := op_BundleChartDigest op; op_ImageRefsJSON := op_ImageRefsJSON op;
     op_ImageDigestsJSON := op_ImageDigestsJSON op; op_PolicyVersion := op_PolicyVersion op;
     op_ValuesRevisionID := op_ValuesRevisionID op; op_ExpectedRevision := op_ExpectedRevision op;
     op_TargetRevision := op_TargetRevision op; op_TargetOperationID := op_TargetOperationID op;
     op_ValuesPatch := op_ValuesPatch op; op_PatchDigest := op_PatchDigest op;
     op_EffectiveValuesDigest := op_EffectiveValuesDigest op; op_Reason := op_Reason op; op_Actor := op_Actor op;
     op_LastError := lastError; op_CreatedAt := op_CreatedAt op; op_UpdatedAt := updatedAt;
     op_Deadline := op_Deadline op; op_TerminalAt := terminalAt; op_EffectStatus := effect |}.
Definition op_with_effect (op : Operation) (effect : EmergencyEffectStatus) : Operation :=
  op_update op (op_Status op) (op_StateVersion op) (op_LastError op) (op_UpdatedAt op) (op_TerminalAt op) effect.

Definition intent_of_operation (id : string) (db : DB) : option EmergencyIntent :=
  find_row (λ i, bool_decide (ei_OperationID i = id)) (db_emergency_intents db).
(** buildOperation over the LEFT JOIN with emergency_intents *)
Definition buildOperation (db : DB) (op : Operation) : Operation :=
  let '(delivery, effect) :=
    match intent_of_operation (op_ID op) db with
    | Some i => (ei_DeliveryStatus i, ei_EffectStatus i)
    | None => ("", EffectEmpty)
    end in
  op_with_effect op (ProjectEffectStatus (op_OperationType op) (op_Status op) delivery effect).
Definition lookup_operation (id : string) (db : DB) : option Operation := buildOperation db <$> (db_operations db !! id).
Definition getOperation (id : string) : SM Operation :=
  let! row := query (lookup_operation id) in scan_row row.
(** operationStore.Get, GetByIdempotencyScopeAndKey *)
Definition Get_operation (id : string) : SM Operation := getOperation id.
Definition all_operations (db : DB) : list Operation := buildOperation db <$> (map_to_list (db_operations db)).*2.
Definition GetByIdempotencyScopeAndKey (scope key : string) : SM Operation :=
  let! row := query (λ db, find_row (λ op, bool_decide (op_IdempotencyScope op = scope) && bool_decide (op_IdempotencyKey op = key))
                             (all_operations db)) in
  scan_row row.

(** [status NOT IN ('succeeded','failed','cancelled','timeout')] *)
Definition non_terminal (op : Operation) : bool :=
  negb (bool_decide (op_Status op ∈ [StatusSucceeded; StatusFailed; StatusCancelled; StatusTimeout])).
(** [COUNT] of the rows of a table that satisfy [p], as a list. *)
Definition count_operations (p : Operation → bool) (db : DB) : nat :=
  length (filter (λ op, p op = true) (map_to_list (db_operations db)).*2).
Definition active_for (definitionID : string) (op : Operation) : bool :=
  bool_decide (op_ReleaseDefinitionID op = definitionID) && non_terminal op.
Definition is_emergency (op : Operation) : bool := bool_decide (op_OperationType op = OperationEmergency).

Definition HasActiveForDefinition (definitionID : string) : SM bool :=
  let! count := query (count_operations (λ op, active_for definitionID op && negb (is_emergency op))) in
  ret (negb (Nat.eqb count 0)).
Definition HasActiveEmergencyForDefinition (definitionID : string) : SM bool :=
  let! count := query (count_operations (λ op, active_for definitionID op && is_emergency op)) in
  ret (negb (Nat.eqb count 0)).

(** [ORDER BY created_at DESC] and [ASC] (RFC3339 columns) *)
Definition op_created_ge (a b : Operation) : Prop := op_CreatedAt b ≤ op_CreatedAt a.
#[export] Instance op_created_ge_dec a b : Decision (op_created_ge a b) := decide (op_CreatedAt b ≤ op_CreatedAt a).
Definition op_created_le (a b : Operation) : Prop := op_CreatedAt a ≤ op_CreatedAt b.
#[export] Instance op_created_le_dec a b : Decision (op_created_le a b) := decide (op_CreatedAt a ≤ op_CreatedAt b).
Definition GetActiveForDefinition (definitionID : string) : SM Operation :=
  let! rows := query (λ db, merge_sort op_created_ge (filter (λ op, active_for definitionID op = true) (all_operations db))) in
  scan_row (head rows).
Definition List_operations (definitionID : string) : SM (list Operation) :=
  query (λ db, merge_sort op_created_ge (filter (λ op, op_ReleaseDefinitionID op = definitionID) (all_operations db))).
Definition non_terminal_list (db : DB) : list Operation :=
  merge_sort op_created_le (filter (λ op, non_terminal op = true) (all_operations db)).
Definition ListNonTerminal : SM (list Operation) := query non_terminal_list.

(** timelineStore.Snapshot: a read-only transaction. *)
Definition Snapshot (operationID : string) : SM TimelineSnapshot :=
  run_tx (
    let! op := getOperation operationID in
    let! l := query (timeline_of operationID) in
    ret (Rollback {| ts_Operation := op; ts_SnapshotSequence := max_sequence l;
                     ts_RetainedFromSequence := match min_sequence l with Some n => n | None => 0 end |})).

(** ** Creating operations *)

(** The in-memory operation with its defaults, and the row INSERT writes. *)
Definition with_create_defaults (op : Operation) (createdAt : time) : Operation :=
  {| op_ID := op_ID op; op_OperationType := op_OperationType op; op_Status := op_Status op;
     op_ReleaseDefinitionID := op_ReleaseDefinitionID op; op_IdempotencyKey := op_IdempotencyKey op;
     op_IdempotencyScope := op_IdempotencyScope op; op_RequestHash := op_RequestHash op;
     op_StateVersion := if op_StateVersion op =? 0 then 1 else op_StateVersion op;
     op_BundleID := op_BundleID op; op_BundleChartRef := op_BundleChartRef op;
     op_BundleChartDigest := op_BundleChartDigest op; op_ImageRefsJSON := op_ImageRefsJSON op;
     op_ImageDigestsJSON := op_ImageDigestsJSON op; op_PolicyVersion := op_PolicyVersion op;
     op_ValuesRevisionID := op_ValuesRevisionID op; op_ExpectedRevision := op_ExpectedRevision op;
     op_TargetRevision := op_TargetRevision op; op_TargetOperationID := op_TargetOperationID op;
     op_ValuesPatch := op_ValuesPatch op; op_PatchDigest := op_PatchDigest op;
     op_EffectiveValuesDigest := op_EffectiveValuesDigest op; op_Reason := op_Reason op; op_Actor := op_Actor op;
     op_LastError := op_LastError op; op_CreatedAt := createdAt;
     op_UpdatedAt := if is_zero_time (op_UpdatedAt op) then createdAt else op_UpdatedAt op;
     op_Deadline := op_Deadline op; op_TerminalAt := op_TerminalAt op; op_EffectStatus := op_EffectStatus op |}.
Definition or_empty_array (o : option string) : option string := match o with None => Some "[]" | o => o end.
Definition operation_row (op : Operation) : Operation :=
  {| op_ID := op_ID op; op_OperationType := op_OperationType op; op_Status := op_Status op;
     op_ReleaseDefinitionID := op_ReleaseDefinitionID op; op_IdempotencyKey := op_IdempotencyKey op;
     op_IdempotencyScope := op_IdempotencyScope op; op_RequestHash := op_RequestHash op;
     op_StateVersion := op_StateVersion op; op_BundleID := op_BundleID op; op_BundleChartRef := op_BundleChartRef op;
     op_BundleChartDigest := op_BundleChartDigest op; op_ImageRefsJSON := or_empty_array (op_ImageRefsJSON op);
     op_ImageDigestsJSON := or_empty_array (op_ImageDigestsJSON op); op_PolicyVersion := op_PolicyVersion op;
     op_ValuesRevisionID := op_ValuesRevisionID op; op_ExpectedRevision := op_ExpectedRevision op;
     op_TargetRevision := op_TargetRevision op; op_TargetOperationID := op_TargetOperationID op;
     op_ValuesPatch := op_ValuesPatch op; op_PatchDigest := op_PatchDigest op;
     op_EffectiveValuesDigest := op_EffectiveValuesDigest op; op_Reason := op_Reason op; op_Actor := op_Actor op;
     op_LastError := op_LastError op; op_CreatedAt := rfc3339 (op_CreatedAt op);
     op_UpdatedAt := rfc3339 (op_UpdatedAt op); op_Deadline := rfc3339 <$> op_Deadline op;
     op_TerminalAt := rfc3339 <$> op_TerminalAt op; op_EffectStatus := EffectEmpty |}.

(** UNIQUE(id) and UNIQUE(idempotency_key); the latter is global, not per scope. *)
Definition violates_unique (op : Operation) (db : DB) : bool :=
  bool_decide (is_Some (db_operations db !! op_ID op))
  || existsb (λ o, bool_decide (op_IdempotencyKey o = op_IdempotencyKey op)) (map_to_list (db_operations db)).*2.
Definition createOperation (op : Operation) : SM Operation :=
  let! createdAt := or_now (op_CreatedAt op) in
  let op := with_create_defaults op createdAt in
  let! duplicate := query (violates_unique op) in
  fail_if duplicate ErrDuplicateKey ;!
  check_fk (λ db, bool_decide (is_Some (db_release_definitions db !! op_ReleaseDefinitionID op))) "insert operation" ;!
  exec (λ db, set_operations (<[op_ID op := operation_row op]> (db_operations db)) db) ;!
  ret op.
Definition Create_operation (op : Operation) : SM Operation := autocommit (createOperation op).

(** checkAuthorizationFence (emergency_intents.go): 0 means no expectation. *)
Definition checkAuthorizationFence (expected : Z) : SM unit :=
  if expected =? 0 then ret tt
  else
    let! version := query db_authorization_source_version in
    fail_if (negb (bool_decide (version = Some expected))) ErrAuthorizationStale.

Definition decodeOperationCreateReplay (record : IdempotencyRecord) : SM OperationCreateResult :=
  let! id := match id_ResponseRef record with
             | RefOperationID id => ret id
             | RefEmpty => ret ""
             | _ => throw (ErrOther "load idempotent operation")
             end in
  let! operation := getOperation id in
  ret {| crr_Operation := operation; crr_Replayed := true |}.

(** [if errors.Is(err, store.ErrNotFound) { none }] around a lookup. *)
Definition not_found_is_none {A} (m : SM A) : SM (option A) := λ w,
  match m w with
  | (Ok a, w') => (Ok (Some a), w')
  | (Err e, w') => if errors_Is e ErrNotFound then (Ok None, w') else (Err e, w')
  end.

(** Whether another operation occupies the definition; an EMERGENCY operation
    looks at the standard ones only. *)
Definition conflicting_operations (op : Operation) (db : DB) : nat :=
  count_operations (λ o, active_for (op_ReleaseDefinitionID op) o
                         && (negb (is_emergency op) || negb (is_emergency o))) db.
(** ensureOperationAvailable (uow.go), and the CheckAvailable block of CreateIdempotent *)
Definition ensureOperationAvailable (op : Operation) : SM unit :=
  let! count := query (conflicting_operations op) in
  fail_if (negb (Nat.eqb count 0)) ErrReleaseBusy.

Definition has_key (i : option IdempotencyRecord) : option IdempotencyRecord :=
  match i with Some r => if bool_decide (id_Key r = "") then None else Some r | None => None end.
Definition with_response (r : IdempotencyRecord) (ref : response_ref) : IdempotencyRecord :=
  {| id_Scope := id_Scope r; id_Key := id_Key r; id_RequestHash := id_RequestHash r; id_ResponseRef := ref;
     id_ExpiresAt := id_ExpiresAt r |}.

Definition createIdempotentOperation (command : OperationCreateCommand) : SM (outcome OperationCreateResult) :=
  checkAuthorizationFence (ccr_ExpectedAuthorizationVersion command) ;!
  let idempotent := has_key (ccr_Idempotency command) in
  let! replay := match idempotent with
                 | Some r => let! t := now in not_found_is_none (loadActiveIdempotencyRecord (id_Scope r) (id_Key r) t)
                 | None => ret None
                 end in
  match idempotent, replay with
  | Some r, Some replay =>
      if negb (bool_decide (id_RequestHash replay = id_RequestHash r)) then throw ErrIdempotencyConflict
      else let! res := decodeOperationCreateReplay replay in ret (Rollback res)
  | _, _ =>
      when (ccr_CheckAvailable command) (ensureOperationAvailable (ccr_Operation command)) ;!
      let create : SM (outcome OperationCreateResult) :=
        let! op := createOperation (ccr_Operation command) in
        ret (Commit {| crr_Operation := op; crr_Replayed := false |}) in
      match idempotent with
      | Some r =>
          let! t := now in
          let! existing := createOrGetIdempotencyRecord (with_response r (RefOperationID (op_ID (ccr_Operation command)))) t in
          if existing.2 then create
          else let! res := decodeOperationCreateReplay existing.1 in ret (Rollback res)
      | None => create
      end
  end.
(** operationStore.CreateIdempotent *)
Definition CreateIdempotent (command : OperationCreateCommand) : SM OperationCreateResult :=
  retryBusy (run_tx (createIdempotentOperation command)).

(** ** Transitions *)

(** [UPDATE operations SET ... WHERE id = ? AND state_version = ?]: RowsAffected. *)
Definition cas_operation (id : string) (stateVersion : Z) (f : Operation → Operation) : SM nat :=
  let! row := query (λ db, db_operations db !! id) in
  match row with
  | Some op =>
      if op_StateVersion op =? stateVersion
      then exec (λ db, set_operations (<[id := f op]> (db_operations db)) db) ;! ret 1%nat
      else ret 0%nat
  | None => ret 0%nat
  end.
(** [status, state_version + 1, last_error, updated_at, CASE WHEN terminal THEN now ELSE terminal_at END] *)
Definition transition_row (status : OperationStatus) (lastError : string) (now : time) (terminal : bool)
    (op : Operation) : Operation :=
  op_update op status (op_StateVersion op + 1) lastError now (if terminal then Some now else op_TerminalAt op)
    (op_EffectStatus op).

(** insertOperationTerminalOutbox *)
Definition terminal_payload (op : Operation) : raw :=
  RawJson (JObj [("event_type", JStr "OperationTerminal"); ("operation_id", JStr (op_ID op));
                 ("operation_type", JStr (OperationType_string (op_OperationType op)));
                 ("release_definition_id", JStr (op_ReleaseDefinitionID op));
                 ("terminal_status", JStr (status_string (op_Status op)))]).
Definition insertOperationTerminalOutbox (op : Operation) : SM unit :=
  let! id := new_uuid in
  insertApprovalOutbox NotificationOutbox
    {| ao_ID := id; ao_EventType := "OperationTerminal"; ao_PayloadJSON := terminal_payload op;
       ao_CreatedAt := op_UpdatedAt op; ao_Delivered := false; ao_DeliveredAt := None |}.

Definition applyOperationTransition (current : Operation) (status : OperationStatus) (stateVersion : Z)
    (lastError : string) (now : time) : SM Operation :=
  let! rows := cas_operation (op_ID current) stateVersion (transition_row status lastError now (IsTerminal status)) in
  fail_if (Nat.eqb rows 0) ErrOptimisticLock ;!
  let updated := transition_row status lastError now (IsTerminal status) current in
  when (IsTerminal status && negb (bool_decide (op_Status current = status))) (insertOperationTerminalOutbox updated) ;!
  ret updated.

Definition state_change_event (id : string) (current updated : Operation) : OperationStateChangedEvent :=
  {| ev_ID := id; ev_OperationID := op_ID updated; ev_OperationType := op_OperationType updated;
     ev_DefinitionID := op_ReleaseDefinitionID updated; ev_OldStatus := op_Status current;
     ev_NewStatus := op_Status updated; ev_StateVersion := op_StateVersion updated; ev_CreatedAt := op_UpdatedAt updated |}.
Definition timeline_entry (updated : Operation) (kind : OperationTimelineEntryKind) (data : raw) : OperationTimelineEntry :=
  {| te_ID := ""; te_OperationID := op_ID updated; te_Sequence := 0; te_OperationStateVersion := op_StateVersion updated;
     te_Kind := kind; te_Data := data; te_CreatedAt := op_UpdatedAt updated |}.
(** [errorEntry.CreatedAt = updated.UpdatedAt] *)
Definition error_entry (updated : Operation) (lastError : string) : OperationTimelineEntry :=
  let e := ErrorTimelineEntry (op_ID updated) (op_StateVersion updated) lastError in
  {| te_ID := te_ID e; te_OperationID := te_OperationID e; te_Sequence := te_Sequence e;
     te_OperationStateVersion := te_OperationStateVersion e; te_Kind := te_Kind e; te_Data := te_Data e;
     te_CreatedAt := op_UpdatedAt updated |}.
Definition needs_error_entry (status : OperationStatus) (lastError : string) : bool :=
  (bool_decide (status = StatusFailed) || bool_decide (status = StatusTimeout)) && negb (bool_decide (lastError = "")).

Definition recordOperationStateChange (current updated : Operation) (lastError : string) : SM unit :=
  let! id := new_uuid in
  insertOperationEvent (state_change_event id current updated) ;!
  let! _ := appendTimelineEntry (timeline_entry updated TimelineEntryStateTransition
              (StateTransitionTimelineData "" (op_Status current) (op_Status updated) lastError)) in
  when (needs_error_entry (op_Status updated) lastError)
    (let! _ := appendTimelineEntry (error_entry updated lastError) in ret tt).
Definition recordOperationTransition (current updated : Operation) (lastError : string) (now : time) : SM unit :=
  when (IsTerminal (op_Status updated)) (set_preflight_terminal (op_ID updated) now) ;!
  recordOperationStateChange current updated lastError.

Definition transitionInTx (id : string) (status : OperationStatus) (stateVersion : Z) (lastError : string) : SM Operation :=
  let! current := getOperation id in
  fail_if (negb (op_StateVersion current =? stateVersion)) ErrOptimisticLock ;!
  fail_if (negb (CanTransitionTo (op_Status current) status)) ErrInvalidState ;!
  let! n := nowUTC in
  let! updated := applyOperationTransition current status stateVersion lastError n in
  recordOperationTransition current updated lastError n ;!
  ret updated.
(** operationStore.transition; Transition and UpdateStatus are it. *)
Definition transition (id : string) (status : OperationStatus) (stateVersion : Z) (lastError : string) : SM Operation :=
  run_tx (commit (transitionInTx id status stateVersion lastError)).
Definition Transition_operation := transition.
Definition UpdateStatus_operation := transition.

(** operationStore.QueueOperation (uow.go) *)
Definition QueueOperation (req : OperationQueueRequest) : SM unit :=
  retryBusy (run_tx (
    let! _ := transitionInTx (qr_OperationID req) (qr_NextStatus req) (qr_StateVersion req) "" in
    match qr_Dispatch req with
    | Some dispatch => let! e := normalizeOutboxEntry dispatch in createOutboxEntry e
    | None => ret tt
    end ;!
    ret (Commit tt))).

(** ** Cancellation *)
Definition operationCancelIdempotencyTTL : Z := day.
Definition operationCancelIdempotencyScope (operationID actorUserID : string) : string :=
  (operationID ++ ":" ++ actorUserID)%string.

(** A cancel result after its JSON round trip: [effect_status] and [replayed]
    are not serialised, empty byte slices come back nil. *)
Definition json_bytes (o : option string) : option string := match o with Some s => if bool_decide (s = "") then None else Some s | None => None end.
Definition operation_json (op : Operation) : Operation :=
  {| op_ID := op_ID op; op_OperationType := op_OperationType op; op_Status := op_Status op;
     op_ReleaseDefinitionID := op_ReleaseDefinitionID op; op_IdempotencyKey := op_IdempotencyKey op;
     op_IdempotencyScope := op_IdempotencyScope op; op_RequestHash := op_RequestHash op;
     op_StateVersion := op_StateVersion op; op_BundleID := op_BundleID op; op_BundleChartRef := op_BundleChartRef op;
     op_BundleChartDigest := op_BundleChartDigest op; op_ImageRefsJSON := json_bytes (op_ImageRefsJSON op);
     op_ImageDigestsJSON := json_bytes (op_ImageDigestsJSON op); op_PolicyVersion := op_PolicyVersion op;
     op_ValuesRevisionID := op_ValuesRevisionID op; op_ExpectedRevision := op_ExpectedRevision op;
     op_TargetRevision := op_TargetRevision op; op_TargetOperationID := op_TargetOperationID op;
     op_ValuesPatch := json_bytes (op_ValuesPatch op); op_PatchDigest := op_PatchDigest op;
     op_EffectiveValuesDigest := op_EffectiveValuesDigest op; op_Reason := op_Reason op; op_Actor := op_Actor op;
     op_LastError := op_LastError op; op_CreatedAt := op_CreatedAt op; op_UpdatedAt := op_UpdatedAt op;
     op_Deadline := op_Deadline op; op_TerminalAt := op_TerminalAt op; op_EffectStatus := EffectEmpty |}.
Definition decode_cancel (ref : response_ref) (replayed : bool) : SM OperationCancelResult :=
  match ref with
  | RefCancel r => ret {| cr_Operation := operation_json (cr_Operation r); cr_RequestID := cr_RequestID r; cr_Replayed := replayed |}
  | _ => throw (ErrOther "decode operation cancel replay")
  end.

(** operationStore.GetCancelReplay *)
Definition GetCancelReplay (q : OperationCancelReplayQuery) : SM OperationCancelResult :=
  if bool_decide (cq_IdempotencyKeyHash q = "") then throw ErrNotFound else
  let! t := now in
  let! record := loadActiveIdempotencyRecord
                   (operationCancelIdempotencyScope (cq_OperationID q) (cq_ActorUserID q)) (cq_IdempotencyKeyHash q) t in
  fail_if (negb (bool_decide (id_RequestHash record = cq_RequestHash q))) ErrIdempotencyConflict ;!
  decode_cancel (id_ResponseRef record) true.

Definition lookupOperationCancelIdempotency (command : OperationCancelCommand) : SM (option OperationCancelResult) :=
  if bool_decide (cc_IdempotencyKeyHash command = "") then ret None else
  let! t := now in
  let! record := not_found_is_none (loadActiveIdempotencyRecord (cc_IdempotencyScope command) (cc_IdempotencyKeyHash command) t) in
  match record with
  | None => ret None
  | Some record =>
      fail_if (negb (bool_decide (id_RequestHash record = cc_RequestHash command))) ErrIdempotencyConflict ;!
      let! r := decode_cancel (id_ResponseRef record) true in ret (Some r)
  end.
Definition insertOperationCancelIdempotency (command : OperationCancelCommand) (result : OperationCancelResult)
    (expiresAt : time) : SM (option OperationCancelResult) :=
  if bool_decide (cc_IdempotencyKeyHash command = "") then ret None else
  let! t := now in
  let! existing := createOrGetIdempotencyRecord
    {| id_Scope := cc_IdempotencyScope command; id_Key := cc_IdempotencyKeyHash command;
       id_RequestHash := cc_RequestHash command; id_ResponseRef := RefCancel result; id_ExpiresAt := expiresAt |} t in
  if existing.2 then ret None
  else let! r := decode_cancel (id_ResponseRef existing.1) true in ret (Some r).

(** Setting the effect of an intent row. *)
Definition intent_update (i : EmergencyIntent) (before after : raw) (delivery : string) (effect : EmergencyEffectStatus)
    (lastDelivery lockReleased : option time) (revert reconciledBy : string) (updatedAt : time) : EmergencyIntent :=
  {| ei_ID := ei_ID i; ei_ReleaseDefinitionID := ei_ReleaseDefinitionID i; ei_OperationID := ei_OperationID i;
     ei_CommandID := ei_CommandID i; ei_Action := ei_Action i; ei_WorkloadKind := ei_WorkloadKind i;
     ei_WorkloadName := ei_WorkloadName i; ei_WorkloadNamespace := ei_WorkloadNamespace i;
     ei_WorkloadUID := ei_WorkloadUID i; ei_Container := ei_Container i; ei_ArtifactID := ei_ArtifactID i;
     ei_ImageReference := ei_ImageReference i; ei_TargetReplicas := ei_TargetReplicas i;
     ei_AnnotationScope := ei_AnnotationScope i; ei_AnnotationEntries := ei_AnnotationEntries i;
     ei_Convergence := ei_Convergence i; ei_PromotionPaths := ei_PromotionPaths i; ei_BeforeSnapshot := before;
     ei_AfterSnapshot := after; ei_DeliveryStatus := delivery; ei_EffectStatus := effect;
     ei_LastDeliveryAt := lastDelivery; ei_LockReleasedAt := lockReleased; ei_RevertStatus := revert;
     ei_ReconciledByOperationID := reconciledBy; ei_CreatedAt := ei_CreatedAt i; ei_UpdatedAt := updatedAt |}.
Definition intent_with_effect (effect : EmergencyEffectStatus) (now : time) (i : EmergencyIntent) : EmergencyIntent :=
  intent_update i (ei_BeforeSnapshot i) (ei_AfterSnapshot i) (ei_DeliveryStatus i) effect (ei_LastDeliveryAt i)
    (ei_LockReleasedAt i) (ei_RevertStatus i) (ei_ReconciledByOperationID i) now.
(** [UPDATE emergency_intents SET ... WHERE p]: RowsAffected. *)
Definition update_intents (p : EmergencyIntent → bool) (f : EmergencyIntent → EmergencyIntent) : SM nat :=
  let! rows := query (λ db, rows_affected p (db_emergency_intents db)) in
  exec (λ db, set_emergency_intents (update_where p f (db_emergency_intents db)) db) ;!
  ret rows.

Definition cancelInTx (command : OperationCancelCommand) : SM (outcome OperationCancelResult) :=
  let! replay := lookupOperationCancelIdempotency command in
  match replay with
  | Some replay => ret (Rollback replay)
  | None =>
      let! current := getOperation (cc_OperationID command) in
      fail_if (negb (op_StateVersion current =? cc_ExpectedStateVersion command))
        (OperationStateVersionConflictError (cc_ExpectedStateVersion command) (op_StateVersion current)) ;!
      fail_if (IsTerminal (op_Status current)) ErrInvalidState ;!
      fail_if (negb (CanTransitionTo (op_Status current) (cc_TargetStatus command))) ErrInvalidState ;!
      fail_if (is_emergency current && bool_decide (op_Status current = StatusRunning)) ErrInvalidState ;!
      let! n := nowUTC in
      let terminal := IsTerminal (cc_TargetStatus command) in
      let step := transition_row (cc_TargetStatus command) (cc_Reason command) n terminal in
      let! rows := cas_operation (cc_OperationID command) (cc_ExpectedStateVersion command) step in
      fail_if (Nat.eqb rows 0) ErrOptimisticLock ;!
      let updated := step current in
      let! eid := new_uuid in
      insertOperationEvent (state_change_event eid current updated) ;!
      let! updated :=
        (if is_emergency current && terminal then
           let effect := if bool_decide (cc_DeliveryStatus command = DeliveryUndelivered)
                         then EmergencyEffectNotApplied else EmergencyEffectUnknown in
           let! rows := update_intents (λ i, bool_decide (ei_OperationID i = cc_OperationID command))
                          (intent_with_effect effect n) in
           fail_if (negb (Nat.eqb rows 1)) ErrNotFound ;!
           ret (op_with_effect updated (ProjectEffectStatus (op_OperationType updated) (op_Status updated) "" effect))
         else ret updated) in
      let! _ := appendTimelineEntry (timeline_entry updated TimelineEntryStateTransition
                  (StateTransitionTimelineData (cc_RequestID command) (op_Status current) (op_Status updated) "")) in
      when terminal (set_preflight_terminal (cc_OperationID command) n) ;!
      let result := {| cr_Operation := updated; cr_RequestID := cc_RequestID command; cr_Replayed := false |} in
      let! t := now in
      let! replay := insertOperationCancelIdempotency command result (t + operationCancelIdempotencyTTL) in
      match replay with
      | Some replay => ret (Rollback replay)
      | None => ret (Commit result)
      end
  end.
Definition Cancel (command : OperationCancelCommand) : SM OperationCancelResult := run_tx (cancelInTx command).

(** ** FinalizeUpgrade *)
Definition finalize_row (input : UpgradeTerminalInput) (now : time) (op : Operation) : Operation :=
  op_update op (ui_Status input) (op_StateVersion op + 1) (ui_LastError input) now (Some now) (op_EffectStatus op).
Definition inventory_matches (input : UpgradeTerminalInput) (r : InventoryRow) : bool :=
  bool_decide (inv_ReleaseDefinitionID r = ui_ReleaseDefinitionID input)
  && bool_decide (inv_CustomerID r = ui_CustomerID input) && bool_decide (inv_ClusterID r = ui_ClusterID input).
Definition inventory_update (input : UpgradeTerminalInput) (now : time) (r : InventoryRow) : InventoryRow :=
  {| inv_CustomerID := inv_CustomerID r; inv_ClusterID := inv_ClusterID r;
     inv_ReleaseDefinitionID := inv_ReleaseDefinitionID r; inv_Namespace := inv_Namespace r;
     inv_ReleaseName := inv_ReleaseName r; inv_Revision := ui_Revision input;
     inv_ValuesDigest := ui_ObservedEffectiveValuesDigest input;
     inv_ObservedBundleDigest := ui_ObservedBundleDigest input; inv_ObservedChartDigest := ui_ObservedChartDigest input;
     inv_ObservedEffectiveValuesDigest := ui_ObservedEffectiveValuesDigest input;
     inv_ObservedManifestDigest := ui_ObservedManifestDigest input; inv_LiveStatus := ui_LiveStatus input;
     inv_LastOperationID := ui_OperationID input; inv_InventoryStatus := ui_InventoryStatus input; inv_UpdatedAt := now |}.

Definition finalizeUpgradeTx (input : UpgradeTerminalInput) : SM (outcome unit) :=
  let id := ui_OperationID input in
  let! existing := query (λ db, db_operation_execution_results db !! id) in
  match existing with
  | Some _ => ret (Rollback tt)
  | None =>
      let! current := getOperation id in
      let! n := nowUTC in
      exec (λ db, set_operation_execution_results
        (<[id := {| xr_OperationID := id; xr_ResultType := "upgrade"; xr_ResultPayload := ui_ResultPayload input; xr_CreatedAt := n |}]>
           (db_operation_execution_results db)) db) ;!
      let! rows := cas_operation id (ui_ExpectedStateVersion input) (finalize_row input n) in
      fail_if (Nat.eqb rows 0) ErrOptimisticLock ;!
      when (ui_UpdateInventory input) (
        let! rows := query (λ db, rows_affected (inventory_matches input) (db_release_inventory db)) in
        fail_if (Nat.eqb rows 0) ErrNotFound ;!
        exec (λ db, set_release_inventory
          (update_where (inventory_matches input) (inventory_update input n) (db_release_inventory db)) db)) ;!
      when (bool_decide (ui_Status input = StatusSucceeded)) (
        let! existing := query (λ db, db_rollout_trackings db !! id) in
        match existing with
        | Some _ => ret tt
        | None => exec (λ db, set_rollout_trackings
            (<[id := {| rt_OperationID := id; rt_Status := "pending"; rt_ResourceCount := ui_ResourceCount input;
                        rt_ReadyCount := 0; rt_FailedCount := 0; rt_LastError := ""; rt_CreatedAt := n; rt_UpdatedAt := n |}]>
               (db_rollout_trackings db)) db)
        end) ;!
      let! eid := new_uuid in
      insertOperationEvent
        {| ev_ID := eid; ev_OperationID := id; ev_OperationType := OperationUpgrade;
           ev_DefinitionID := ui_ReleaseDefinitionID input; ev_OldStatus := op_Status current;
           ev_NewStatus := ui_Status input; ev_StateVersion := ui_ExpectedStateVersion input + 1; ev_CreatedAt := n |} ;!
      let! _ := appendTimelineEntry
        {| te_ID := ""; te_OperationID := id; te_Sequence := 0;
           te_OperationStateVersion := ui_ExpectedStateVersion input + 1; te_Kind := TimelineEntryStateTransition;
           te_Data := StateTransitionTimelineData "" (op_Status current) (ui_Status input) (ui_LastError input);
           te_CreatedAt := n |} in
      when (needs_error_entry (ui_Status input) (ui_LastError input)) (
        let e := ErrorTimelineEntry id (ui_ExpectedStateVersion input + 1) (ui_LastError input) in
        let! _ := appendTimelineEntry
          {| te_ID := te_ID e; te_OperationID := te_OperationID e; te_Sequence := te_Sequence e;
             te_OperationStateVersion := te_OperationStateVersion e; te_Kind := te_Kind e; te_Data := te_Data e;
             te_CreatedAt := n |} in
        ret tt) ;!
      ret (Commit tt)
  end.
Definition FinalizeUpgrade (input : UpgradeTerminalInput) : SM unit := run_tx (finalizeUpgradeTx input).

(** ** Preflight results *)
Definition SavePreflightResult (operationID : string) (result : raw) : SM unit :=
  let payload := if raw_is_empty result then RawJson (JObj []) else result in
  let! found := autocommit (
    let! row := query (λ db, db_operations db !! operationID) in
    match row with
    | Some _ => exec (λ db, set_preflight_results (<[operationID := payload]> (db_preflight_results db)) db) ;! ret true
    | None => ret false
    end) in
  fail_if (negb found) ErrNotFound.
(** [None] is the nil result of an operation whose preflight left nothing. *)
Definition GetPreflightResult (operationID : string) : SM (option raw) :=
  let! row := query (λ db, db_operations db !! operationID) in
  let! _ := scan_row row in
  let! stored := query (λ db, db_preflight_results db !! operationID) in
  ret match stored with
      | None | Some RawEmpty | Some (RawJson (JObj [])) => None
      | Some r => Some r
      end.

(** ** The cross-release feed of non-terminal operations *)
Record NonTerminalOperationQuery := {
  nq_CustomerIDs : list string; nq_PageSize : Z; nq_HasCursor : bool; nq_CursorTime : time; nq_CursorID : string;
}.
Record NonTerminalOperationRow := {
  nr_Operation : Operation; nr_DefinitionName : string; nr_CustomerID : string; nr_CustomerName : string; nr_ClusterID : string;
}.
Record NonTerminalOperationPage := { np_Rows : list NonTerminalOperationRow; np_HasMore : bool }.
(** The keyset order [(created_at, id)]; [created_at] is RFC3339 text. *)
Definition feed_key_ltb (t1 : time) (id1 : string) (t2 : time) (id2 : string) : bool :=
  text_ltb t1 t2 || (negb (text_ltb t2 t1) && string_ltb id1 id2).
Definition feed_le (a b : NonTerminalOperationRow) : Prop :=
  feed_key_ltb (op_CreatedAt (nr_Operation b)) (op_ID (nr_Operation b)) (op_CreatedAt (nr_Operation a)) (op_ID (nr_Operation a)) = false.
#[export] Instance feed_le_dec a b : Decision (feed_le a b).
Proof. unfold feed_le. apply _. Defined.
(** JOIN release_definitions, LEFT JOIN customers *)
Definition feed_row (db : DB) (op : Operation) : option NonTerminalOperationRow :=
  match db_release_definitions db !! op_ReleaseDefinitionID op with
  | Some d => Some {| nr_Operation := op; nr_DefinitionName := rd_Name d; nr_CustomerID := rd_CustomerID d;
                      nr_CustomerName := default "" (cu_Name <$> db_customers db !! rd_CustomerID d); nr_ClusterID := rd_ClusterID d |}
  | None => None
  end.
Definition in_scope (q : NonTerminalOperationQuery) (r : NonTerminalOperationRow) : bool :=
  bool_decide (nr_CustomerID r ∈ nq_CustomerIDs q)
  && (negb (nq_HasCursor q)
      || feed_key_ltb (nq_CursorTime q) (nq_CursorID q) (op_CreatedAt (nr_Operation r)) (op_ID (nr_Operation r))).
Definition feed_rows (q : NonTerminalOperationQuery) (db : DB) : list NonTerminalOperationRow :=
  merge_sort feed_le
    (filter (λ r, in_scope q r = true) (omap (feed_row db) (filter (λ op, non_terminal op = true) (all_operations db)))).
Definition ListNonTerminalScoped (q : NonTerminalOperationQuery) : SM NonTerminalOperationPage :=
  if bool_decide (nq_CustomerIDs q = []) then ret {| np_Rows := []; np_HasMore := false |} else
  query (λ db, let rows := take (Z.to_nat (nq_PageSize q + 1)) (feed_rows q db) in
    {| np_Rows := take (Z.to_nat (nq_PageSize q)) rows;
       np_HasMore := bool_decide (Z.to_nat (nq_PageSize q) < length rows)%nat |}).

(** ** Lemmas: runs of the building blocks *)
Lemma getOperation_Ok id op w w' :
  getOperation id w = (Ok op, w') →
  w' = w ∧ ∃ o, db_operations (w_db w) !! id = Some o ∧ op = buildOperation (w_db w) o.
Proof.
  unfold getOperation, lookup_operation. intros H. dinv.
  destruct (db_operations (w_db w) !! id) as [o|]; [|done]. injection Hrow as <-. eauto.
Qed.
Lemma cas_operation_Ok id v f n w w' :
  cas_operation id v f w = (Ok n, w') →
  Nat.eqb n 0 = false →
  ∃ o, db_operations (w_db w) !! id = Some o ∧ op_StateVersion o = v ∧
       w' = with_db (set_operations (<[id := f o]> (db_operations (w_db w))) (w_db w)) w.
Proof.
  unfold cas_operation. intros H Hn. dinv.
  destruct (db_operations (w_db w) !! id) as [o|]; [|by dinv].
  destruct (Z.eqb_spec (op_StateVersion o) v); dinv; [|done]. eauto.
Qed.
Lemma update_intents_Ok p f n w w' :
  update_intents p f w = (Ok n, w') →
  n = rows_affected p (db_emergency_intents (w_db w)) ∧
  w' = with_db (set_emergency_intents (update_where p f (db_emergency_intents (w_db w))) (w_db w)) w.
Proof. unfold update_intents. intros H. dinv. done. Qed.

(** [op_immutable]: the columns no UPDATE changes. *)
Definition op_immutable (op : Operation) : Operation := op_update op StatusPending 0 "" 0 None EffectEmpty.
Lemma op_update_immutable o s v e u t x : op_immutable (op_update o s v e u t x) = op_immutable o.
Proof. reflexivity. Qed.
Lemma op_immutable_ID o o' : op_immutable o' = op_immutable o → op_ID o' = op_ID o.
Proof. intros H. exact (f_equal op_ID H). Qed.
Lemma buildOperation_fields db o :
  op_ID (buildOperation db o) = op_ID o ∧ op_Status (buildOperation db o) = op_Status o ∧
  op_StateVersion (buildOperation db o) = op_StateVersion o ∧
  op_OperationType (buildOperation db o) = op_OperationType o ∧
  op_TerminalAt (buildOperation db o) = op_TerminalAt o ∧
  op_immutable (buildOperation db o) = op_immutable o.
Proof. unfold buildOperation. by destruct (intent_of_operation _ _). Qed.

Section op_frames.
Context {T : Type} (f : DB → T) (R : relation T) `{!PreOrder R}.
Context (Hev : ∀ v db, f (set_operation_events v db) = f db)
        (Htl : ∀ v db, f (set_operation_timeline v db) = f db).

Lemma recordOperationStateChange_frame c u e :
  preserves (db_rel (on_table f R)) (recordOperationStateChange c u e).
Proof.
  unfold recordOperationStateChange. db_preserve;
    first [by apply insertOperationEvent_frame|by apply appendTimelineEntry_frame].
Qed.
Lemma recordOperationTransition_frame c u e n :
  (∀ v db, f (set_preflight_lifecycles v db) = f db) →
  preserves (db_rel (on_table f R)) (recordOperationTransition c u e n).
Proof.
  intros Hpf. unfold recordOperationTransition. db_preserve;
    first [by apply set_preflight_terminal_frame|by apply recordOperationStateChange_frame].
Qed.
End op_frames.
#[export] Hint Extern 1 (preserves (db_rel (on_table _ _)) (recordOperationStateChange _ _ _)) =>
  (apply recordOperationStateChange_frame; [apply _ | reflexivity | reflexivity]) : preserve.
#[export] Hint Extern 1 (preserves (db_rel (on_table _ _)) (recordOperationTransition _ _ _ _)) =>
  (apply recordOperationTransition_frame; [apply _ | reflexivity | reflexivity | reflexivity]) : preserve.

Lemma insertOperationTerminalOutbox_frame {T} (f : DB → T) R `{!PreOrder R} op :
  (∀ v db, f (set_notification_outbox v db) = f db) → (∀ v db, f (set_audit_outbox v db) = f db) →
  preserves (db_rel (on_table f R)) (insertOperationTerminalOutbox op).
Proof. intros. unfold insertOperationTerminalOutbox. db_preserve. by apply insertApprovalOutbox_frame. Qed.
#[export] Hint Extern 1 (preserves (db_rel (on_table _ _)) (insertOperationTerminalOutbox _)) =>
  (apply insertOperationTerminalOutbox_frame; [apply _ | reflexivity | reflexivity]) : preserve.

Lemma cas_operation_frame {T} (f : DB → T) R `{!PreOrder R} id v g :
  (∀ v db, f (set_operations v db) = f db) → preserves (db_rel (on_table f R)) (cas_operation id v g).
Proof. intros Hf. unfold cas_operation. db_preserve. by apply preserves_exec_other. Qed.
#[export] Hint Extern 1 (preserves (db_rel (on_table _ _)) (cas_operation _ _ _)) =>
  (apply cas_operation_frame; [apply _ | reflexivity]) : preserve.
Lemma update_intents_frame {T} (f : DB → T) R `{!PreOrder R} p g :
  (∀ v db, f (set_emergency_intents v db) = f db) → preserves (db_rel (on_table f R)) (update_intents p g).
Proof. intros Hf. unfold update_intents. db_preserve. by apply preserves_exec_other. Qed.
#[export] Hint Extern 1 (preserves (db_rel (on_table _ _)) (update_intents _ _)) =>
  (apply update_intents_frame; [apply _ | reflexivity]) : preserve.
Lemma applyOperationTransition_frame {T} (f : DB → T) R `{!PreOrder R} c s v e n :
  (∀ v db, f (set_operations v db) = f db) → (∀ v db, f (set_notification_outbox v db) = f db) →
  (∀ v db, f (set_audit_outbox v db) = f db) →
  preserves (db_rel (on_table f R)) (applyOperationTransition c s v e n).
Proof.
  intros H1 H2 H3. unfold applyOperationTransition.
  db_preserve; first [by apply cas_operation_frame|by apply insertOperationTerminalOutbox_frame].
Qed.
#[export] Hint Extern 1 (preserves (db_rel (on_table _ _)) (applyOperationTransition _ _ _ _ _)) =>
  (apply applyOperationTransition_frame; [apply _ | reflexivity | reflexivity | reflexivity]) : preserve.
Lemma getOperation_frame R `{!PreOrder R} id : preserves (db_rel R) (getOperation id).
Proof. unfold getOperation. db_preserve. Qed.
#[export] Hint Resolve getOperation_frame : preserve.
Lemma not_found_is_none_frame {A} R (m : SM A) :
  preserves (db_rel R) m → preserves (db_rel R) (not_found_is_none m).
Proof.
  intros H w r w' E. unfold not_found_is_none in E.
  destruct (m w) as [[a|e] w1] eqn:Em; [|destruct (errors_Is e ErrNotFound)]; injection E as _ <-; by apply (H _ _ _ Em).
Qed.
#[export] Hint Extern 1 (preserves (db_rel _) (not_found_is_none _)) =>
  (apply not_found_is_none_frame; db_preserve) : preserve.
Lemma checkAuthorizationFence_frame R `{!PreOrder R} v : preserves (db_rel R) (checkAuthorizationFence v).
Proof. unfold checkAuthorizationFence. db_preserve. Qed.
Lemma ensureOperationAvailable_frame R `{!PreOrder R} op : preserves (db_rel R) (ensureOperationAvailable op).
Proof. unfold ensureOperationAvailable. db_preserve. Qed.
#[export] Hint Resolve checkAuthorizationFence_frame ensureOperationAvailable_frame : preserve.

(** ** Well-formed operation tables and the run of a transition *)
Definition ops_wf (m : gmap string Operation) : Prop := ∀ id o, m !! id = Some o → op_ID o = id.

Lemma transition_row_build db o s e n t :
  transition_row s e n t (buildOperation db o) =
  op_with_effect (transition_row s e n t o) (op_EffectStatus (buildOperation db o)).
Proof. unfold transition_row, buildOperation. by destruct (intent_of_operation _ _). Qed.

Lemma applyOperationTransition_inv current status v err n w u w' :
  applyOperationTransition current status v err n w = (Ok u, w') →
  ∃ o, db_operations (w_db w) !! op_ID current = Some o ∧ op_StateVersion o = v ∧
       u = transition_row status err n (IsTerminal status) current ∧
       db_operations (w_db w') =
         <[op_ID current := transition_row status err n (IsTerminal status) o]> (db_operations (w_db w)).
Proof.
  unfold applyOperationTransition. intros H. dinv.
  apply cas_operation_Ok in Hm as (o & Ho & Hv & ->); [|done].
  exists o. split_and!; try done. by use_frame db_operations.
Qed.

Lemma transitionInTx_inv id status v err w u w' :
  ops_wf (db_operations (w_db w)) →
  transitionInTx id status v err w = (Ok u, w') →
  ∃ o n, db_operations (w_db w) !! id = Some o ∧ op_StateVersion o = v ∧
       CanTransitionTo (op_Status o) status = true ∧ n = rfc3339 (w_clock w 0) ∧
       u = transition_row status err n (IsTerminal status) (buildOperation (w_db w) o) ∧
       db_operations (w_db w') =
         <[id := transition_row status err n (IsTerminal status) o]> (db_operations (w_db w)).
Proof.
  unfold transitionInTx. intros Hwf H. dinv.
  apply getOperation_Ok in Hm as (-> & o & Ho & ->). destruct_bools.
  destruct (buildOperation_fields (w_db w) o) as (Hid & Hst & Hver & _).
  rewrite Hst in *. rewrite Hver in *.
  match goal with H : applyOperationTransition _ _ _ _ _ _ = _ |- _ =>
    apply applyOperationTransition_inv in H as (o' & Ho' & Hv' & -> & Hdb) end.
  rewrite Hid, (Hwf _ _ Ho) in *. simpl in *. simplify_eq.
  eexists _, (rfc3339 (w_clock w 0)). split_and!; try done. by use_frame db_operations.
Qed.

(** The timeline entries of a state change: the transition, then the error of a
    failed or timed-out operation.  [(version, kind, data)] of each. *)
Definition entry_facts (e : OperationTimelineEntry) : Z * OperationTimelineEntryKind * raw :=
  (te_OperationStateVersion e, te_Kind e, te_Data e).
Definition state_change_facts (from to : OperationStatus) (version : Z) (requestID code lastError : string) :
    list (Z * OperationTimelineEntryKind * raw) :=
  (version, TimelineEntryStateTransition, StateTransitionTimelineData requestID from to code)
  :: (if needs_error_entry to lastError
      then [(version, TimelineEntryError, ErrorTimelineData (stableErrorCode lastError) (Truncate (Sanitize lastError).1 500))]
      else []).
(** [db'] extends the evidence tables of operation [id] by one event and the given entries. *)
Definition evidence_added (id : string) (from to : OperationStatus) (version : Z)
    (facts : list (Z * OperationTimelineEntryKind * raw)) (db db' : DB) : Prop :=
  (∃ ev, db_operation_events db' = db_operation_events db ++ [ev] ∧ ev_OperationID ev = id ∧
         ev_OldStatus ev = from ∧ ev_NewStatus ev = to ∧ ev_StateVersion ev = version) ∧
  (∃ es, db_operation_timeline db' = db_operation_timeline db ++ es ∧ entry_facts <$> es = facts ∧
         Forall (λ e, te_OperationID e = id) es).

Lemma recordOperationStateChange_inv current updated lastError w u w' :
  recordOperationStateChange current updated lastError w = (Ok u, w') →
  evidence_added (op_ID updated) (op_Status current) (op_Status updated) (op_StateVersion updated)
    (state_change_facts (op_Status current) (op_Status updated) (op_StateVersion updated) "" lastError lastError)
    (w_db w) (w_db w').
Proof.
  unfold recordOperationStateChange. intros H. dinv.
  match goal with H : insertOperationEvent _ _ = _ |- _ => apply insertOperationEvent_inv in H as [t Hev] end.
  match goal with H : appendTimelineEntry _ _ = _ |- _ =>
    apply appendTimelineEntry_inv in H as (_ & Hdb1 & Hid1 & Hk1 & Hv1 & _ & Hd1) end. simpl in *.
  specialize (Hd1 eq_refl). unfold state_change_facts.
  unfold when in H. destruct (needs_error_entry _ _); dinv.
  - match goal with H : appendTimelineEntry _ _ = _ |- _ =>
      apply appendTimelineEntry_inv in H as (_ & Hdb2 & Hid2 & Hk2 & Hv2 & _ & Hd2) end. simpl in *.
    specialize (Hd2 eq_refl). rewrite Hdb2, Hdb1, Hev. split.
    + eexists. by split_and!.
    + eexists [_; _]. simpl. rewrite <- app_assoc. split; [done|]. unfold entry_facts.
      rewrite Hv1, Hk1, Hd1, Hv2, Hk2, Hd2. split; [done|]. by repeat constructor.
  - rewrite Hdb1, Hev. split.
    + eexists. by split_and!.
    + eexists [_]. simpl. split; [done|]. unfold entry_facts. rewrite Hv1, Hk1, Hd1. split; [done|].
      by repeat constructor.
Qed.

(** The terminal notification of an operation. *)
Definition terminal_notification (op : Operation) (e : ApprovalOutboxEntry) : Prop :=
  ao_EventType e = "OperationTerminal" ∧ ao_PayloadJSON e = terminal_payload op ∧
  ao_CreatedAt e = op_UpdatedAt op ∧ ao_Delivered e = false.
Definition notified (op : Operation) (db db' : DB) : Prop :=
  ∃ e, db_notification_outbox db' = db_notification_outbox db ++ [e] ∧ terminal_notification op e.

Lemma applyOperationTransition_notified current status v err n w u w' :
  applyOperationTransition current status v err n w = (Ok u, w') →
  op_Status current ≠ status →
  (if IsTerminal status then notified u (w_db w) (w_db w')
   else db_notification_outbox (w_db w') = db_notification_outbox (w_db w)).
Proof.
  unfold applyOperationTransition. intros H Hne. dinv.
  apply cas_operation_Ok in Hm as (o & Ho & Hv & ->); [|done].
  rewrite bool_decide_false, andb_true_r in * by done.
  destruct (IsTerminal status); simpl in *; dinv; [|done].
  match goal with H : insertOperationTerminalOutbox _ _ = _ |- _ => unfold insertOperationTerminalOutbox in H end.
  dinv.
  match goal with H : insertApprovalOutbox _ _ _ = _ |- _ => apply insertApprovalOutbox_inv in H as -> end.
  eexists. simpl. by split_and!.
Qed.

(** ** Progress *)
Lemma recordOperationStateChange_ok current updated lastError w :
  env_ok w → is_zero_time (op_UpdatedAt updated) = false →
  is_Some (db_operations (w_db w) !! op_ID updated) →
  ∃ w', recordOperationStateChange current updated lastError w = (Ok tt, w') ∧ env_ok w' ∧
        db_operations (w_db w') = db_operations (w_db w).
Proof.
  intros Henv Ht Hop. destruct (env_draw _ Henv) as [Henv1 Hf1].
  unfold recordOperationStateChange, bind at 1, new_uuid at 1.
  destruct (insertOperationEvent_ok (state_change_event (w_uuid w 0) current updated) _ Henv1 Hf1 Ht Hop)
    as (w2 & E2 & Henv2 & Hops2 & _).
  unfold bind at 1. rewrite E2. simpl in Hops2. rewrite <- Hops2 in Hop.
  destruct (appendTimelineEntry_ok (timeline_entry updated TimelineEntryStateTransition
    (StateTransitionTimelineData "" (op_Status current) (op_Status updated) lastError)) w2)
    as (e3 & w3 & E3 & Henv3 & Hops3 & _); try done.
  unfold bind at 1. rewrite E3. rewrite <- Hops3 in Hop. unfold when.
  destruct (needs_error_entry _ _).
  - destruct (appendTimelineEntry_ok (error_entry updated lastError) w3) as (e4 & w4 & E4 & Henv4 & Hops4 & _); try done.
    unfold bind. rewrite E4. eexists. split; [done|]. split; [done|congruence].
  - eexists. split; [done|]. split; [done|congruence].
Qed.

Lemma cas_operation_hit id v f o w :
  db_operations (w_db w) !! id = Some o → op_StateVersion o = v →
  cas_operation id v f w = (Ok 1%nat, with_db (set_operations (<[id := f o]> (db_operations (w_db w))) (w_db w)) w).
Proof.
  intros Ho Hv. unfold cas_operation, bind, query, gets, exec, modify, ret. by rewrite Ho, Hv, Z.eqb_refl.
Qed.
Lemma applyOperationTransition_ok current status v err n w o :
  env_ok w → db_operations (w_db w) !! op_ID current = Some o → op_StateVersion o = v →
  ∃ w', applyOperationTransition current status v err n w =
          (Ok (transition_row status err n (IsTerminal status) current), w') ∧ env_ok w' ∧
        is_Some (db_operations (w_db w') !! op_ID current).
Proof.
  intros Henv Ho Hv. unfold applyOperationTransition, bind at 1.
  rewrite (cas_operation_hit _ _ _ _ _ Ho Hv).
  set (w1 := with_db _ w). assert (Henv1 : env_ok w1) by by apply (env_other _ w).
  assert (Hop1 : is_Some (db_operations (w_db w1) !! op_ID current)) by (simpl; rewrite lookup_insert_eq; by eexists).
  unfold fail_if, bind at 1, ret at 1. simpl. unfold when. destruct (IsTerminal status && _).
  - destruct (env_draw _ Henv1) as [Henv2 Hf2].
    unfold insertOperationTerminalOutbox. unfold bind at 1 2. unfold new_uuid at 1.
    match goal with |- context [insertApprovalOutbox ?t ?e ?w'] =>
      destruct (insertApprovalOutbox_ok t e w' Henv2 Hf2) as (w2 & E2 & ? & Hops & _) end.
    rewrite E2. eexists. split; [done|]. split; [done|]. by rewrite Hops.
  - eexists. split; [done|]. by split.
Qed.

Lemma transitionInTx_ok id status v err w o :
  env_ok w → ops_wf (db_operations (w_db w)) →
  db_operations (w_db w) !! id = Some o → op_StateVersion o = v → CanTransitionTo (op_Status o) status = true →
  ∃ u w', transitionInTx id status v err w = (Ok u, w') ∧ env_ok w'.
Proof.
  intros Henv Hwf Ho Hv Hcan.
  destruct (buildOperation_fields (w_db w) o) as (Hbid & Hbst & Hbver & _).
  unfold transitionInTx, bind at 1, getOperation, lookup_operation, bind at 1, query, gets.
  rewrite Ho. simpl. unfold ret at 1. rewrite Hbst, Hbver, Hv, Z.eqb_refl, Hcan. unfold fail_if, bind at 1 2, ret at 1 2.
  simpl. unfold bind at 1, nowUTC, bind at 1, now, ret at 1.
  set (cur := buildOperation (w_db w) o) in *.
  destruct (seconds_positive _ (env_clock _ Henv 0%nat)) as [Hn _]. set (n := rfc3339 (w_clock w 0)) in *.
  assert (Hocur : db_operations (w_db (tick w)) !! op_ID cur = Some o) by (by rewrite Hbid, (Hwf _ _ Ho)).
  destruct (applyOperationTransition_ok cur status v err n (tick w) o (env_tick _ Henv) Hocur Hv) as (w2 & E2 & Henv2 & Hop2).
  unfold bind at 1. rewrite E2. set (upd := transition_row status err n (IsTerminal status) cur).
  unfold recordOperationTransition, bind at 1 2, when.
  set (w3 := if IsTerminal (op_Status upd) then with_db (set_preflight_lifecycles
      (update_where (λ pl, bool_decide (pl_OperationID pl = Some (op_ID upd)) && bool_decide (pl_OperationTerminalAt pl = None))
       (stamp_preflight (op_ID upd) n) (db_preflight_lifecycles (w_db w2))) (w_db w2)) w2 else w2).
  assert (E3 : (if IsTerminal (op_Status upd) then set_preflight_terminal (op_ID upd) n else ret tt) w2 = (Ok tt, w3))
    by (unfold w3; by destruct (IsTerminal _)).
  rewrite E3.
  assert (Henv3 : env_ok w3) by (unfold w3; destruct (IsTerminal _); [by apply (env_other _ w2)|done]).
  assert (Hop3 : is_Some (db_operations (w_db w3) !! op_ID upd)) by (unfold w3; by destruct (IsTerminal _)).
  destruct (recordOperationStateChange_ok cur upd err w3 Henv3 Hn Hop3) as (w4 & E4 & Henv4 & _).
  rewrite E4. unfold ret. eauto.
Qed.

(** ** How operations evolve

    [ops_evolve]: no operation disappears, its inputs never change, its state
    version never decreases and two rows with the same version are equal.
    [ops_legal]: its status moves along legal edges only. *)
Definition op_evolves (o o' : Operation) : Prop :=
  op_immutable o' = op_immutable o ∧ op_StateVersion o ≤ op_StateVersion o' ∧
  (op_StateVersion o' = op_StateVersion o → o' = o).
Definition op_legal (o o' : Operation) : Prop := rtc store_edge (op_Status o) (op_Status o').
Definition ops_rel (P : relation Operation) (m m' : gmap string Operation) : Prop :=
  ops_wf m → ops_wf m' ∧ ∀ id o, m !! id = Some o → ∃ o', m' !! id = Some o' ∧ P o o'.
Abbreviation ops_evolve := (ops_rel op_evolves).
Abbreviation ops_legal := (ops_rel op_legal).

#[export] Instance op_evolves_preorder : PreOrder op_evolves.
Proof.
  split; [intros o; split_and!; [done|lia|done]|].
  intros a b c (H1 & H2 & H3) (H4 & H5 & H6). split_and!; [congruence|lia|].
  intros H. rewrite H6 by lia. apply H3. rewrite <- H6 by lia. done.
Qed.
#[export] Instance op_legal_preorder : PreOrder op_legal.
Proof. split; unfold op_legal; [intros o; reflexivity|]. intros a b c ??. by etransitivity. Qed.
#[export] Instance ops_rel_preorder P `{!PreOrder P} : PreOrder (ops_rel P).
Proof.
  split.
  - intros m Hwf. split; [done|]. intros id o Ho. exists o. by split.
  - intros m1 m2 m3 H12 H23 Hwf. destruct (H12 Hwf) as [Hwf2 H12']. destruct (H23 Hwf2) as [Hwf3 H23'].
    split; [done|]. intros id o Ho. destruct (H12' _ _ Ho) as (o' & Ho' & HP).
    destruct (H23' _ _ Ho') as (o'' & Ho'' & HP'). exists o''. split; [done|by transitivity o'].
Qed.

Lemma ops_rel_insert (P : relation Operation) `{!PreOrder P} id o o' m :
  m !! id = Some o → P o o' → op_ID o' = op_ID o → ops_rel P m (<[id := o']> m).
Proof.
  intros Ho HP Hid Hwf. split.
  - intros k x Hk. apply lookup_insert_Some in Hk as [[<- <-]|[? Hk]]; [|by apply Hwf].
    rewrite Hid. by apply Hwf.
  - intros k x Hk. destruct (decide (id = k)) as [->|Hne].
    + rewrite lookup_insert_eq. simplify_eq. eauto.
    + rewrite lookup_insert_ne by done. exists x. by split.
Qed.
Lemma ops_rel_new (P : relation Operation) `{!PreOrder P} id o' m :
  m !! id = None → op_ID o' = id → ops_rel P m (<[id := o']> m).
Proof.
  intros Hn Hid Hwf. split.
  - intros k x Hk. apply lookup_insert_Some in Hk as [[<- <-]|[? Hk]]; [done|by apply Hwf].
  - intros k x Hk. exists x. split; [|done]. rewrite lookup_insert_ne; [done|]. intros ->. congruence.
Qed.

Abbreviation evolves := (on_table db_operations ops_evolve).
Abbreviation legal := (on_table db_operations ops_legal).

(** A compare-and-swap that bumps the version and keeps the inputs evolves. *)
Lemma cas_operation_evolves id v f :
  (∀ o, op_immutable (f o) = op_immutable o ∧ op_StateVersion (f o) = op_StateVersion o + 1) →
  preserves (db_rel evolves) (cas_operation id v f).
Proof.
  intros Hf w r w' H. unfold cas_operation, bind, query, gets in H.
  destruct (db_operations (w_db w) !! id) as [o|] eqn:Ho; [|by injection H as _ <-].
  destruct (_ =? _); [|by injection H as _ <-]. injection H as _ <-.
  unfold db_rel, on_table. simpl. destruct (Hf o) as [Him Hv].
  apply (ops_rel_insert op_evolves id o); [done| |by apply op_immutable_ID].
  split_and!; [done|lia|lia].
Qed.
(** ... and one that keeps the status is legal. *)
Lemma cas_operation_same_status id v f :
  (∀ o, op_ID (f o) = op_ID o ∧ op_Status (f o) = op_Status o) → preserves (db_rel legal) (cas_operation id v f).
Proof.
  intros Hf w r w' H. unfold cas_operation, bind, query, gets in H.
  destruct (db_operations (w_db w) !! id) as [o|] eqn:Ho; [|by injection H as _ <-].
  destruct (_ =? _); [|by injection H as _ <-]. injection H as _ <-.
  unfold db_rel, on_table. simpl. destruct (Hf o) as [Him Hv].
  apply (ops_rel_insert op_legal id o); [done| |done]. unfold op_legal. by rewrite Hv.
Qed.
Lemma transition_row_evolves s e n t o :
  op_immutable (transition_row s e n t o) = op_immutable o ∧
  op_StateVersion (transition_row s e n t o) = op_StateVersion o + 1.
Proof. done. Qed.
#[export] Hint Extern 1 (preserves (db_rel evolves) (cas_operation _ _ _)) =>
  (apply cas_operation_evolves; intros ?; split; reflexivity) : preserve.
#[export] Hint Extern 1 (preserves (db_rel legal) (cas_operation _ _ _)) =>
  (apply cas_operation_same_status; intros ?; split; reflexivity) : preserve.

(** Inserting a new operation evolves. *)
Lemma createOperation_rel (P : relation Operation) `{!PreOrder P} op :
  preserves (db_rel (on_table db_operations (ops_rel P))) (createOperation op).
Proof.
  intros w r w' H. destruct r as [op'|e].
  - unfold createOperation in H. cbv zeta in H. dinv.
    match goal with H : violates_unique _ _ = false |- _ => unfold violates_unique in H; apply orb_false_iff in H as [Hnew _] end.
    apply bool_decide_eq_false in Hnew. rewrite eq_None_not_Some in Hnew || apply eq_None_not_Some in Hnew.
    unfold db_rel, on_table. simpl. rewrite <- Hdb. by apply (ops_rel_new P).
  - revert H. unfold createOperation, check_fk, or_now, bind, query, gets, fail_if, exec, modify, ret, throw, now.
    unfold db_rel, on_table. repeat case_match; simplify_eq; simpl in *; intros [= _ <-]; reflexivity.
Qed.
#[export] Hint Extern 1 (preserves (db_rel evolves) (createOperation _)) => (apply (createOperation_rel op_evolves)) : preserve.
#[export] Hint Extern 1 (preserves (db_rel legal) (createOperation _)) => (apply (createOperation_rel op_legal)) : preserve.

Lemma decode_cancel_frame R `{!PreOrder R} ref b : preserves (db_rel R) (decode_cancel ref b).
Proof. unfold decode_cancel. db_preserve. Qed.
#[export] Hint Resolve decode_cancel_frame : preserve.
Lemma lookupOperationCancelIdempotency_frame {T} (f : DB → T) R `{!PreOrder R} command :
  preserves (db_rel (on_table f R)) (lookupOperationCancelIdempotency command).
Proof.
  unfold lookupOperationCancelIdempotency. db_preserve.
Qed.
#[export] Hint Extern 1 (preserves (db_rel (on_table _ _)) (lookupOperationCancelIdempotency _)) =>
  (apply lookupOperationCancelIdempotency_frame; apply _) : preserve.
Lemma insertOperationCancelIdempotency_frame {T} (f : DB → T) R `{!PreOrder R} command result t :
  is_idempotency_frame f → preserves (db_rel (on_table f R)) (insertOperationCancelIdempotency command result t).
Proof. intros Hf. unfold insertOperationCancelIdempotency. db_preserve. by apply createOrGet_frame. Qed.
#[export] Hint Extern 1 (preserves (db_rel (on_table _ _)) (insertOperationCancelIdempotency _ _ _)) =>
  (apply insertOperationCancelIdempotency_frame; [apply _ | intros ??; reflexivity]) : preserve.

(** What a committed cancellation did to the operation row. *)
Lemma cancelInTx_inv command w result w' :
  ops_wf (db_operations (w_db w)) →
  cancelInTx command w = (Ok (Commit result), w') →
  ∃ o n, db_operations (w_db w) !! cc_OperationID command = Some o ∧
    op_StateVersion o = cc_ExpectedStateVersion command ∧
    CanTransitionTo (op_Status o) (cc_TargetStatus command) = true ∧
    (op_OperationType o = OperationEmergency → op_Status o ≠ StatusRunning) ∧
    db_operations (w_db w') =
      <[cc_OperationID command :=
          transition_row (cc_TargetStatus command) (cc_Reason command) n (IsTerminal (cc_TargetStatus command)) o]>
        (db_operations (w_db w)).
Proof.
  intros Hwf H. unfold cancelInTx in H. cbv zeta in H. dinv.
  match goal with H : lookupOperationCancelIdempotency _ _ = (_, ?w1) |- _ =>
    assert (Hops : db_operations (w_db w1) = db_operations (w_db w)) by (eapply (frame db_operations); [|exact H]; db_preserve) end.
  match type of H with (match ?x with _ => _ end) _ = _ => destruct x end; dinv.
  match goal with H : getOperation _ _ = _ |- _ => apply getOperation_Ok in H as (-> & o & Ho & ->) end.
  rewrite Hops in Ho.
  match type of Hops with db_operations (w_db ?w1) = _ => destruct (buildOperation_fields (w_db w1) o) as (Hid & Hst & Hver & Hty & _) end.
  match goal with H : cas_operation _ _ _ _ = _ |- _ => apply cas_operation_Ok in H as (o' & Ho' & Hv' & ->); [|done] end.
  simpl in Ho'. rewrite Hops in Ho'. assert (o' = o) as -> by congruence.
  exists o. eexists. split_and!; [done|done| | |].
  - match goal with H : negb (CanTransitionTo _ _) = false |- _ => apply negb_false_iff in H; by rewrite <- Hst end.
  - intros Hem Hrun. match goal with H : is_emergency _ && _ = false |- _ =>
      unfold is_emergency in H; rewrite Hty, Hst, Hem, Hrun in H; by rewrite !bool_decide_true in H by done end.
  - match type of H with (match ?x with _ => _ end) _ = _ => destruct x end; dinv.
    use_frame db_operations. done.
Qed.

(** [transitionInTx] as a step of either relation. *)
Lemma transitionInTx_rel (P : relation Operation) `{!PreOrder P} id status v err w u w' :
  (∀ o n t, CanTransitionTo (op_Status o) status = true → P o (transition_row status err n t o)) →
  transitionInTx id status v err w = (Ok u, w') →
  ops_rel P (db_operations (w_db w)) (db_operations (w_db w')).
Proof.
  intros HP H Hwf. destruct (transitionInTx_inv _ _ _ _ _ _ _ Hwf H) as (o & n & Ho & _ & Hcan & _ & _ & Hdb).
  rewrite Hdb. revert Hwf. apply (ops_rel_insert P _ o); [done| |done]. by apply HP.
Qed.
Lemma transition_row_op_evolves s e n t o : op_evolves o (transition_row s e n t o).
Proof. split_and!; [done|simpl; lia|simpl; lia]. Qed.
Lemma transition_row_op_legal s e n t o : CanTransitionTo (op_Status o) s = true → op_legal o (transition_row s e n t o).
Proof. intros H. apply rtc_once. exact H. Qed.

Section rel_methods.
Context (P : relation Operation) `{!PreOrder P}.
Context (HP : ∀ o status err n t, CanTransitionTo (op_Status o) status = true → P o (transition_row status err n t o)).
Abbreviation R := (on_table db_operations (ops_rel P)).

Lemma transition_rel id status v err : preserves (db_rel R) (transition id status v err).
Proof.
  apply commits_run_tx; [apply _|]. intros w u w' H. unfold commit in H. dinv.
  match goal with H : transitionInTx _ _ _ _ _ = _ |- _ => apply (transitionInTx_rel P) in H; [|intros; by apply HP] end.
  done.
Qed.
Lemma QueueOperation_rel req : preserves (db_rel R) (QueueOperation req).
Proof.
  apply preserves_retryBusy; [apply _|]. apply commits_run_tx; [apply _|]. intros w u w' H. dinv.
  match goal with H : transitionInTx _ _ _ _ _ = _ |- _ => apply (transitionInTx_rel P) in H; [|intros; by apply HP] end.
  unfold on_table. destruct (qr_Dispatch req); dinv; [|done]. use_frame db_operations. done.
Qed.
Lemma Cancel_rel command : preserves (db_rel R) (Cancel command).
Proof.
  apply commits_run_tx; [apply _|]. intros w result w' H Hwf.
  destruct (cancelInTx_inv _ _ _ _ Hwf H) as (o & n & Ho & _ & Hcan & _ & Hdb).
  rewrite Hdb. revert Hwf. apply (ops_rel_insert P _ o); [done| |done]. by apply HP.
Qed.
Lemma Create_operation_rel op : preserves (db_rel R) (Create_operation op).
Proof. unfold Create_operation. db_preserve. by apply (createOperation_rel P). Qed.
Lemma CreateIdempotent_rel command : preserves (db_rel R) (CreateIdempotent command).
Proof.
  unfold CreateIdempotent, createIdempotentOperation, checkAuthorizationFence, ensureOperationAvailable,
    decodeOperationCreateReplay.
  db_preserve; try by apply (createOperation_rel P).
Qed.
End rel_methods.

Lemma FinalizeUpgrade_evolves input : preserves (db_rel evolves) (FinalizeUpgrade input).
Proof. unfold FinalizeUpgrade, finalizeUpgradeTx. db_preserve. Qed.

Lemma commit_Ok {A} (m : SM A) w a w' : commit m w = (Ok (Commit a), w') ↔ m w = (Ok a, w').
Proof.
  unfold commit. rewrite bind_Ok. split.
  - intros (b & w1 & H & Hr). apply ret_Ok in Hr as [Hr <-]. by injection Hr as ->.
  - intros H. exists a, w'. by split.
Qed.
Lemma commit_no_Rollback {A} (m : SM A) w a w' : commit m w ≠ (Ok (Rollback a), w').
Proof. unfold commit, bind, ret. destruct (m w) as [[b|e] w1]; intros H; discriminate H. Qed.
Lemma run_commit_Ok {A} (m : SM A) w a w' :
  run_tx (commit m) w = (Ok a, w') → w_busy w 0%nat = false ∧ m (attempt w) = (Ok a, w').
Proof.
  intros H. apply run_tx_Ok in H as [Hb [H|(w1 & H & _)]]; [|by apply commit_no_Rollback in H].
  split; [done|by apply commit_Ok].
Qed.

(** ** Properties of transitions *)

(** C26: the complete result of a transition, when the database is free and the
    identifiers to be drawn are fresh: an unknown operation is not found, a stale
    version is an optimistic-lock conflict, an illegal edge is an invalid state,
    each without any effect on the tables, and every legal transition commits,
    bumping the version of exactly that row and stamping its terminal time. *)
Theorem transition_result id status v err w :
  env_ok w → ops_wf (db_operations (w_db w)) → w_busy w 0%nat = false →
  let refuses e := ∃ w', transition id status v err w = (Err e, w') ∧ w_db w' = w_db w in
  match db_operations (w_db w) !! id with
  | None => refuses ErrNotFound
  | Some o =>
      if negb (op_StateVersion o =? v) then refuses ErrOptimisticLock
      else if negb (CanTransitionTo (op_Status o) status) then refuses ErrInvalidState
      else ∃ w', let row := transition_row status err (rfc3339 (w_clock w 0)) (IsTerminal status) in
           transition id status v err w = (Ok (row (buildOperation (w_db w) o)), w') ∧
           db_operations (w_db w') = <[id := row o]> (db_operations (w_db w))
  end.
Proof.
  intros Henv Hwf Hbusy refuses. unfold refuses, transition.
  destruct (db_operations (w_db w) !! id) as [o|] eqn:Ho.
  - destruct (buildOperation_fields (w_db w) o) as (_ & Hbst & Hbver & _).
    destruct (negb (op_StateVersion o =? v)) eqn:Hv; [|destruct (negb (CanTransitionTo _ _)) eqn:Hcan].
    + unfold run_tx, commit, transitionInTx, getOperation, lookup_operation, bind, query, gets. rewrite Hbusy. simpl.
      rewrite Ho. simpl. rewrite Hbver, Hv. simpl. eexists. by split.
    + unfold run_tx, commit, transitionInTx, getOperation, lookup_operation, bind, query, gets. rewrite Hbusy. simpl.
      rewrite Ho. simpl. rewrite Hbver, Hv, Hbst, Hcan. simpl. eexists. by split.
    + destruct_bools.
      destruct (transitionInTx_ok id status v err (attempt w) o (env_attempt _ Henv) Hwf Ho Hv Hcan) as (u & w' & E & _).
      destruct (transitionInTx_inv _ _ _ _ (attempt w) _ _ Hwf E) as (o' & n & Ho' & _ & _ & -> & -> & Hdb). simpl in *.
      exists w'. rewrite Ho in Ho'. injection Ho' as <-. unfold run_tx, commit, bind. rewrite Hbusy, E. by split.
  - unfold run_tx, commit, transitionInTx, getOperation, lookup_operation, bind, query, gets. rewrite Hbusy. simpl.
    rewrite Ho. simpl. eexists. by split.
Qed.

(** What a committed transition leaves behind, in the same transaction: one
    state-change event, the transition entry of the timeline (and the sanitised
    error entry of a failed or timed-out operation), the terminal stamp of the
    operation's preflight rows, and exactly one OperationTerminal notification
    when the new status is terminal, none otherwise. *)
Theorem transition_evidence id status v err w u w' :
  ops_wf (db_operations (w_db w)) →
  transition id status v err w = (Ok u, w') →
  ∃ o, db_operations (w_db w) !! id = Some o ∧
    evidence_added id (op_Status o) status (v + 1)
      (state_change_facts (op_Status o) status (v + 1) "" err err) (w_db w) (w_db w') ∧
    (if IsTerminal status then notified u (w_db w) (w_db w')
     else db_notification_outbox (w_db w') = db_notification_outbox (w_db w)) ∧
    db_preflight_lifecycles (w_db w') =
      (if IsTerminal status then
         update_where (λ pl, bool_decide (pl_OperationID pl = Some id) && bool_decide (pl_OperationTerminalAt pl = None))
           (stamp_preflight id (op_UpdatedAt u)) (db_preflight_lifecycles (w_db w))
       else db_preflight_lifecycles (w_db w)).
Proof.
  intros Hwf H. apply run_commit_Ok in H as [_ H].
  match goal with H : transitionInTx _ _ _ _ _ = _ |- _ =>
    pose proof (transitionInTx_inv _ _ _ _ (attempt w) _ _ Hwf H) as (o & n & Ho & Hv & Hcan & -> & Hu & _);
    unfold transitionInTx in H; dinv end.
  match goal with H : getOperation _ _ = _ |- _ => apply getOperation_Ok in H as (-> & o' & Ho' & ->) end.
  simpl in *. assert (o' = o) as -> by congruence.
  destruct (buildOperation_fields (w_db w) o) as (Hid & Hst & Hver & _).
  exists o. split; [done|].
  match goal with H : applyOperationTransition _ _ _ _ _ _ = (Ok ?x, _) |- _ =>
    assert (Hx : x = transition_row status err (rfc3339 (w_clock w 0)) (IsTerminal status) (buildOperation (w_db w) o))
      by (by apply applyOperationTransition_inv in H as (? & _ & _ & -> & _));
    pose proof (applyOperationTransition_notified _ _ _ _ _ _ _ _ H) as Hnot
  end.
  match goal with H : recordOperationTransition _ _ _ _ _ = _ |- _ => unfold recordOperationTransition in H; dinv end.
  match goal with H : recordOperationStateChange _ _ _ _ = _ |- _ =>
    pose proof (recordOperationStateChange_inv _ _ _ _ _ _ H) as Hrec end.
  subst. simpl in *. rewrite Hid, Hst, Hver, (Hwf _ _ Ho) in *.
  split_and!.
  - destruct Hrec as [(ev & Hev & ?) (es & Hes & ?)]. split.
    + exists ev. split; [|done]. rewrite Hev. f_equal. by use_frame db_operation_events.
    + exists es. split; [|done]. rewrite Hes. f_equal. by use_frame db_operation_timeline.
  - assert (Hne : op_Status o ≠ status) by (intros <-; by destruct (op_Status o)).
    specialize (Hnot Hne). destruct (IsTerminal status).
    + destruct Hnot as (e & He & ?). exists e. split; [|done]. rewrite <- He. by use_frame db_notification_outbox.
    + rewrite <- Hnot. by use_frame db_notification_outbox.
  - destruct (IsTerminal status); simpl in *.
    + match goal with H : set_preflight_terminal _ _ _ = _ |- _ => unfold set_preflight_terminal in H; dinv end.
      use_frame db_preflight_lifecycles. done.
    + dinv. by use_frame db_preflight_lifecycles.
Qed.

Lemma sample_ops_wf op : ops_wf (db_operations (db_with_ops [op])).
Proof.
  intros id o H. simpl in H. apply lookup_insert_Some in H as [[<- <-]|[_ H]]; [done|].
  by rewrite lookup_empty in H.
Qed.
Definition running_op : Operation := sample_op "op1" "d1" "k1" OperationInstall StatusRunning 3.
Definition running_world : World := sample_world (db_with_ops [running_op]).
Lemma running_env : env_ok running_world.
Proof. apply sample_env; [done..|by intros []]. Qed.
Lemma transition_result_witness :
  ∃ u w', transition "op1" StatusFailed 3 "boom" running_world = (Ok u, w') ∧ op_StateVersion u = 4 ∧
          op_TerminalAt u = Some (1000 * nsec).
Proof.
  pose proof (transition_result "op1" StatusFailed 3 "boom" running_world running_env (sample_ops_wf running_op) eq_refl) as H.
  simpl in H. destruct H as (w' & H & _). eexists _, w'. split; [exact H|]. vm_compute. auto.
Defined.
Lemma transition_evidence_witness :
  ∃ u w', transition "op1" StatusFailed 3 "boom" running_world = (Ok u, w') ∧
          length (db_notification_outbox (w_db w')) = 1%nat ∧ length (db_operation_timeline (w_db w')) = 2%nat.
Proof.
  destruct (transition "op1" StatusFailed 3 "boom" running_world) as [[u|e] w'] eqn:E; [|vm_compute in E; discriminate E].
  exists u, w'. split; [reflexivity|].
  destruct (transition_evidence "op1" StatusFailed 3 "boom" running_world _ _ (sample_ops_wf running_op) E) as (o & Ho & [_ (es & Hes & Hf & _)] & Hn & _).
  vm_compute in Ho. injection Ho as <-.
  split.
  - destruct Hn as (e & He & _). rewrite He. reflexivity.
  - rewrite Hes. simpl. rewrite <- (length_fmap entry_facts es), Hf. vm_compute. reflexivity.
Defined.

(** Compare-and-swap excludes: once a transition from version [v] has
    committed, no later transition that expects version [v] can succeed, in
    any state the store evolves into; it is refused and changes nothing. *)
Theorem cas_exclusive id s1 s2 v e1 e2 w u w' w2 r w3 :
  ops_wf (db_operations (w_db w)) →
  transition id s1 v e1 w = (Ok u, w') →
  ops_evolve (db_operations (w_db w')) (db_operations (w_db w2)) →
  transition id s2 v e2 w2 = (r, w3) →
  (r = Err ErrOptimisticLock ∨ r = Err ErrSQLiteBusy) ∧ w_db w3 = w_db w2.
Proof.
  intros Hwf H1 Hev H2.
  apply run_commit_Ok in H1 as [_ H1].
  destruct (transitionInTx_inv _ _ _ _ (attempt w) _ _ Hwf H1) as (o & n & Ho & Hv & _ & _ & _ & Hdb).
  assert (Hwf' : ops_wf (db_operations (w_db w'))).
  { rewrite Hdb. revert Hwf. apply (ops_rel_insert op_evolves _ o); [done|apply transition_row_op_evolves|done]. }
  destruct (Hev Hwf') as [Hwf2 Hstep].
  destruct (Hstep id (transition_row s1 e1 n (IsTerminal s1) o)) as (o2 & Ho2 & _ & Hle & _).
  { rewrite Hdb. apply lookup_insert_eq. }
  simpl in Hle. destruct (buildOperation_fields (w_db w2) o2) as (_ & _ & Hver2 & _).
  unfold transition, run_tx in H2. destruct (w_busy w2 0); [injection H2 as <- <-; by split; [right|]|].
  revert H2. unfold commit, transitionInTx, getOperation, lookup_operation, bind, query, gets. simpl.
  rewrite Ho2. simpl. rewrite Hver2, (proj2 (Z.eqb_neq _ _)) by lia. simpl.
  intros [= <- <-]. by split; [left|].
Qed.
Lemma cas_exclusive_witness :
  let w' := (transition "op1" StatusSucceeded 3 "" running_world).2 in
  ∃ e w3, transition "op1" StatusFailed 3 "late" w' = (Err e, w3) ∧ w_db w3 = w_db w'.
Proof.
  intros w'. destruct (transition "op1" StatusSucceeded 3 "" running_world) as [[u|e] w1] eqn:E;
    [|vm_compute in E; discriminate E]. subst w'. simpl.
  destruct (transition "op1" StatusFailed 3 "late" w1) as [r w3] eqn:E2.
  destruct (cas_exclusive "op1" _ _ 3 _ _ running_world _ w1 w1 _ _ (sample_ops_wf running_op) E ltac:(reflexivity) E2) as [[-> | ->] H].
  - exists ErrOptimisticLock, w3. split; [reflexivity|exact H].
  - exists ErrSQLiteBusy, w3. split; [reflexivity|exact H].
Defined.

(** Queueing is atomic: either the transition to the next status and the
    dispatch row are both there (the row pending when no other status was given,
    addressed to the same operator), or nothing changed at all. *)
Theorem QueueOperation_atomic req w r w' :
  ops_wf (db_operations (w_db w)) →
  QueueOperation req w = (r, w') →
  match r with
  | Err _ => w_db w' = w_db w
  | Ok _ =>
      (∃ o n, db_operations (w_db w) !! qr_OperationID req = Some o ∧ op_StateVersion o = qr_StateVersion req ∧
         CanTransitionTo (op_Status o) (qr_NextStatus req) = true ∧
         db_operations (w_db w') =
           <[qr_OperationID req := transition_row (qr_NextStatus req) "" n (IsTerminal (qr_NextStatus req)) o]>
             (db_operations (w_db w))) ∧
      match qr_Dispatch req with
      | None => db_outbox (w_db w') = db_outbox (w_db w)
      | Some d => ∃ e, db_outbox (w_db w') = db_outbox (w_db w) ++ [e] ∧ ob_ID e = ob_ID d ∧
          ob_OperatorID e = ob_OperatorID d ∧ ob_OperationID e = ob_OperationID d ∧
          ob_CommandID e = (if bool_decide (ob_CommandID d = "") then ob_ID d else ob_CommandID d) ∧
          ob_Status e = (if bool_decide (ob_Status d = CommandStatusEmpty) then CommandPending else ob_Status d)
      end
  end.
Proof.
  intros Hwf H. unfold QueueOperation, retryBusy in H.
  destruct r as [u|e]; [|by apply retry_loop_Err_db in H].
  apply retry_loop_Ok in H as (w1 & Hdb1 & H). rewrite <- Hdb1 in *. clear Hdb1 w.
  apply run_tx_Ok in H as [_ [H|(w2 & H & _)]]; dinv.
  match goal with H : transitionInTx _ _ _ _ _ = (_, ?w2) |- _ =>
    destruct (transitionInTx_inv _ _ _ _ (attempt w1) _ _ Hwf H) as (o & n & Ho & Hv & Hcan & _ & _ & Hdb);
    assert (Hob : db_outbox (w_db w2) = db_outbox (w_db w1))
      by (unfold transitionInTx in H; dinv; by use_frame db_outbox); clear H end.
  destruct (qr_Dispatch req) as [d|]; dinv.
  - split.
    + exists o, n. split_and!; [done|done|done|]. rewrite <- Hdb. by use_frame db_operations.
    + match goal with H : normalizeOutboxEntry _ _ = _ |- _ => unfold normalizeOutboxEntry in H; dinv end.
      match goal with H : createOutboxEntry _ _ = _ |- _ => unfold createOutboxEntry in H; dinv end.
      eexists. split; [rewrite <- Hob, <- Hdb0; done|]. by split_and!.
  - split; [|done]. exists o, n. by split_and!.
Qed.

(** ** Properties of cancellation *)

Lemma decode_cancel_replayed ref w r w' : decode_cancel ref true w = (Ok r, w') → cr_Replayed r = true.
Proof. unfold decode_cancel. destruct ref; intros H; dinv; done. Qed.
Lemma lookup_cancel_replayed command w r w' :
  lookupOperationCancelIdempotency command w = (Ok (Some r), w') → cr_Replayed r = true.
Proof.
  unfold lookupOperationCancelIdempotency. destruct (bool_decide _); intros H; dinv.
  match type of H with (match ?x with _ => _ end) _ = _ => destruct x end; dinv.
  by eapply decode_cancel_replayed.
Qed.
Lemma insert_cancel_replayed command result t w r w' :
  insertOperationCancelIdempotency command result t w = (Ok (Some r), w') → cr_Replayed r = true.
Proof.
  unfold insertOperationCancelIdempotency. destruct (bool_decide _); intros H; dinv.
  match type of H with (if ?x then _ else _) _ = _ => destruct x end; dinv.
  by eapply decode_cancel_replayed.
Qed.
Lemma cancelInTx_rollback command w r w' :
  cancelInTx command w = (Ok (Rollback r), w') → cr_Replayed r = true.
Proof.
  intros H. unfold cancelInTx in H. cbv zeta in H. dinv.
  match type of H with (match ?x with _ => _ end) _ = _ => destruct x as [r'|] end; dinv.
  - match goal with H : lookupOperationCancelIdempotency _ _ = _ |- _ => by apply lookup_cancel_replayed in H end.
  - match type of H with (match ?x with _ => _ end) _ = _ => destruct x as [r'|] end; dinv.
    match goal with H : insertOperationCancelIdempotency _ _ _ _ = _ |- _ => by apply insert_cancel_replayed in H end.
Qed.

Definition undelivered_effect (command : OperationCancelCommand) : EmergencyEffectStatus :=
  if bool_decide (cc_DeliveryStatus command = DeliveryUndelivered) then EmergencyEffectNotApplied else EmergencyEffectUnknown.
Definition set_effect_of (id : string) (effect : EmergencyEffectStatus) (n : time) (l : list EmergencyIntent) : list EmergencyIntent :=
  update_where (λ i, bool_decide (ei_OperationID i = id)) (intent_with_effect effect n) l.
Lemma intent_of_operation_set id effect n db :
  intent_of_operation id (set_emergency_intents (set_effect_of id effect n (db_emergency_intents db)) db) =
  intent_with_effect effect n <$> intent_of_operation id db.
Proof.
  unfold intent_of_operation, find_row, set_effect_of, update_where. simpl.
  induction (db_emergency_intents db) as [|i l IH]; [done|]. simpl.
  by destruct (bool_decide (ei_OperationID i = id)) eqn:E; simpl; rewrite E; simpl.
Qed.


(** Moving an operation between live statuses keeps its projected effect. *)
Lemma buildOperation_live db o s e n t :
  IsTerminal (op_Status o) = false → IsTerminal s = false →
  buildOperation db (transition_row s e n t o) = transition_row s e n t (buildOperation db o).
Proof.
  intros Ho Hs. rewrite transition_row_build. unfold buildOperation, op_with_effect. simpl.
  destruct (intent_of_operation _ _); simpl; unfold ProjectEffectStatus; by rewrite Ho, Hs.
Qed.
Lemma buildOperation_standard db db' o s e n t :
  is_emergency o = false →
  buildOperation db' (transition_row s e n t o) = transition_row s e n t (buildOperation db o).
Proof.
  unfold is_emergency. intros H. rewrite transition_row_build. unfold buildOperation, op_with_effect, ProjectEffectStatus. simpl.
  destruct (intent_of_operation _ _), (intent_of_operation _ _); simpl; by rewrite H.
Qed.
Lemma buildOperation_intents db db' o :
  db_emergency_intents db' = db_emergency_intents db → buildOperation db' o = buildOperation db o.
Proof. intros H. unfold buildOperation, intent_of_operation. by rewrite H. Qed.

Lemma cancelInTx_effect command w result w' :
  ops_wf (db_operations (w_db w)) →
  cancelInTx command w = (Ok (Commit result), w') →
  ∃ o n, db_operations (w_db w) !! cc_OperationID command = Some o ∧ IsTerminal (op_Status o) = false ∧
    let terminal := IsTerminal (cc_TargetStatus command) in
    let row := transition_row (cc_TargetStatus command) (cc_Reason command) n terminal in
    let id := cc_OperationID command in
    db_operations (w_db w') = <[id := row o]> (db_operations (w_db w)) ∧
    (if is_emergency o && terminal then
       is_Some (intent_of_operation id (w_db w)) ∧
       db_emergency_intents (w_db w') = set_effect_of id (undelivered_effect command) n (db_emergency_intents (w_db w)) ∧
       cr_Operation result = op_with_effect (row (buildOperation (w_db w) o))
         (ProjectEffectStatus (op_OperationType o) (cc_TargetStatus command) "" (undelivered_effect command))
     else db_emergency_intents (w_db w') = db_emergency_intents (w_db w) ∧
          cr_Operation result = row (buildOperation (w_db w) o)).
Proof.
  intros Hwf H. unfold cancelInTx in H. cbv zeta in H. dinv.
  match goal with H : lookupOperationCancelIdempotency _ _ = (_, ?w1) |- _ =>
    assert (Hops : db_operations (w_db w1) = db_operations (w_db w)) by (eapply (frame db_operations); [|exact H]; db_preserve);
    assert (Hei : db_emergency_intents (w_db w1) = db_emergency_intents (w_db w))
      by (eapply (frame db_emergency_intents); [|exact H]; db_preserve) end.
  match type of H with (match ?x with _ => _ end) _ = _ => destruct x end; dinv.
  match goal with H : getOperation _ _ = _ |- _ => apply getOperation_Ok in H as (-> & o & Ho & ->) end.
  rewrite (buildOperation_intents (w_db w) _ o Hei) in *. rewrite Hops in Ho.
  destruct (buildOperation_fields (w_db w) o) as (Hid & Hst & Hver & Hty & _).
  match goal with H : cas_operation _ _ _ _ = _ |- _ => apply cas_operation_Ok in H as (o' & Ho' & _ & ->); [|done] end.
  simpl in Ho'. rewrite Hops in Ho'. assert (o' = o) as -> by congruence.
  exists o. eexists. split; [done|]. rewrite <- Hst. split; [done|]. cbv zeta.
  replace (is_emergency o) with (is_emergency (buildOperation (w_db w) o)) by (unfold is_emergency; by rewrite Hty).
  match type of H with (match ?x with _ => _ end) _ = _ => destruct x end; dinv. split.
  - by use_frame db_operations.
  - destruct (is_emergency _ && IsTerminal (cc_TargetStatus command)); dinv.
    + match goal with H : update_intents _ _ _ = _ |- _ => apply update_intents_Ok in H as [-> ->] end. destruct_bools.
      split_and!.
      * match goal with H : (rows_affected _ _ =? 1)%nat = true |- _ => apply Nat.eqb_eq in H as Hrows end.
        unfold intent_of_operation. destruct (find_row _ _) eqn:E; [by eexists|exfalso].
        rewrite find_row_None in E. revert Hrows. use_frame db_emergency_intents.
        apply rows_affected_0 in E. by rewrite E.
      * by use_frame db_emergency_intents.
      * by rewrite Hty.
    + split; [|done]. by use_frame db_emergency_intents.
Qed.

(** A cancellation that is not a replay moves the operation along a legal
    edge from the expected version; a running EMERGENCY operation is never
    cancelled; a cancelled EMERGENCY operation has the effect NOT_APPLIED when its
    command was not delivered and UNKNOWN otherwise; and the operation in the
    result is exactly what a read after the commit returns. *)
Theorem Cancel_effect command w result w' :
  ops_wf (db_operations (w_db w)) →
  Cancel command w = (Ok result, w') → cr_Replayed result = false →
  let id := cc_OperationID command in
  ∃ o, db_operations (w_db w) !! id = Some o ∧ op_StateVersion o = cc_ExpectedStateVersion command ∧
    CanTransitionTo (op_Status o) (cc_TargetStatus command) = true ∧
    (op_OperationType o = OperationEmergency → op_Status o ≠ StatusRunning) ∧
    (if is_emergency o && IsTerminal (cc_TargetStatus command) then
       op_EffectStatus (cr_Operation result) = undelivered_effect command ∧
       ∃ n, db_emergency_intents (w_db w') =
              set_effect_of id (undelivered_effect command) n (db_emergency_intents (w_db w))
     else db_emergency_intents (w_db w') = db_emergency_intents (w_db w)) ∧
    lookup_operation id (w_db w') = Some (cr_Operation result).
Proof.
  intros Hwf H Hnr id. unfold Cancel in H. apply run_tx_Ok in H as [_ [H|(w1 & H & _)]];
    [|apply cancelInTx_rollback in H; congruence].
  destruct (cancelInTx_inv command (attempt w) result w' Hwf H) as (o & n & Ho & Hv & Hcan & Hnrun & _).
  destruct (cancelInTx_effect command (attempt w) result w' Hwf H) as (o' & n' & Ho' & Hlive & Hdb & Heff).
  simpl in *. assert (o' = o) as -> by congruence. clear Ho'.
  exists o. split_and!; [done|done|done|done| |].
  - destruct (is_emergency o) eqn:He, (IsTerminal (cc_TargetStatus command)) eqn:Ht; simpl in *; try tauto.
    destruct Heff as (_ & Hei & ->). split; [|by exists n'].
    unfold is_emergency in He. destruct_bools. simpl. rewrite He. unfold ProjectEffectStatus. simpl. rewrite Ht.
    unfold undelivered_effect. by destruct (bool_decide (cc_DeliveryStatus command = DeliveryUndelivered)).
  - unfold lookup_operation, id. rewrite Hdb, lookup_insert_eq. simpl. f_equal.
    destruct (is_emergency o) eqn:He, (IsTerminal (cc_TargetStatus command)) eqn:Ht; simpl in *;
      try (destruct Heff as [_ ->]; by apply buildOperation_standard);
      [|by destruct Heff as [Hei ->]; rewrite (buildOperation_intents (w_db w)) by done; apply buildOperation_live].
    destruct Heff as ([i Hi] & Hei & ->).
    rewrite transition_row_build. unfold buildOperation at 1.
    assert (Hdbi : intent_of_operation id (w_db w') = Some (intent_with_effect (undelivered_effect command) n' i)).
    { pose proof (intent_of_operation_set id (undelivered_effect command) n' (w_db w)) as E.
      unfold id in E. rewrite <- Hei in E. unfold id. rewrite Hi in E. exact E. }
    simpl. rewrite (Hwf _ _ Ho). fold id. rewrite Hdbi. unfold op_with_effect. simpl. f_equal.
    unfold ProjectEffectStatus. by rewrite Ht.
Qed.

Lemma QueueOperation_atomic_witness :
  let w := sample_world (db_with_ops [sample_op "op1" "d1" "k1" OperationInstall StatusPreflight 2]) in
  ∃ w' e, QueueOperation {| qr_OperationID := "op1"; qr_NextStatus := StatusQueued; qr_StateVersion := 2;
                            qr_Dispatch := Some (sample_entry "op1:execute" "op1" CommandStatusEmpty 0) |} w = (Ok tt, w') ∧
          db_outbox (w_db w') = [e] ∧ ob_Status e = CommandPending.
Proof.
  intros w. match goal with |- ∃ _ _, QueueOperation ?r _ = _ ∧ _ => set (req := r) end.
  destruct (QueueOperation req w) as [[[]|e] w'] eqn:E; [|vm_compute in E; discriminate E].
  destruct (QueueOperation_atomic req w _ w' (sample_ops_wf _) E) as [_ (e & He & _ & _ & _ & _ & Hst)].
  exists w', e. split; [reflexivity|]. split; [exact He|]. rewrite Hst. reflexivity.
Defined.
Definition sample_cancel (delivery : OperationDeliveryStatus) : OperationCancelCommand :=
  {| cc_OperationID := "op1"; cc_ExpectedStateVersion := 2; cc_TargetStatus := StatusCancelled; cc_ActorUserID := "u";
     cc_Reason := "stop"; cc_RequestID := "r1"; cc_IdempotencyScope := "op1:u"; cc_IdempotencyKeyHash := "kh";
     cc_RequestHash := "rh"; cc_DeliveryStatus := delivery |}.
Definition emergency_db : DB :=
  set_emergency_intents [sample_intent "i1" "op1" "d1" "delivered" EmergencyEffectUnknown]
    (db_with_ops [sample_op "op1" "d1" "k1" OperationEmergency StatusQueued 2]).
Lemma Cancel_effect_witness :
  ∃ result w', Cancel (sample_cancel DeliveryUndelivered) (sample_world emergency_db) = (Ok result, w') ∧
    op_EffectStatus (cr_Operation result) = EmergencyEffectNotApplied ∧
    lookup_operation "op1" (w_db w') = Some (cr_Operation result).
Proof.
  destruct (Cancel (sample_cancel DeliveryUndelivered) (sample_world emergency_db)) as [[r|e] w'] eqn:E;
    [|vm_compute in E; discriminate E].
  assert (Hr : cr_Replayed r = false) by (vm_compute in E; injection E as <- _; reflexivity).
  destruct (Cancel_effect _ (sample_world emergency_db) _ _ (sample_ops_wf _) E Hr) as (o & Ho & _ & _ & _ & Heff & Hl).
  vm_compute in Ho. injection Ho as <-. destruct Heff as [Heff _].
  exists r, w'. split; [reflexivity|]. split; [exact Heff|exact Hl].
Defined.

(** ** Properties of the upgrade finalisation *)

(** What one finalisation writes, apart from the timeline. *)
Definition finalized (input : UpgradeTerminalInput) (o : Operation) (n : time) (db db' : DB) : Prop :=
  let id := ui_OperationID input in
  db_operations db' = <[id := finalize_row input n o]> (db_operations db) ∧
  db_operation_execution_results db' =
    <[id := {| xr_OperationID := id; xr_ResultType := "upgrade"; xr_ResultPayload := ui_ResultPayload input; xr_CreatedAt := n |}]>
      (db_operation_execution_results db) ∧
  (if ui_UpdateInventory input then
     rows_affected (inventory_matches input) (db_release_inventory db) ≠ 0%nat ∧
     db_release_inventory db' = update_where (inventory_matches input) (inventory_update input n) (db_release_inventory db)
   else db_release_inventory db' = db_release_inventory db) ∧
  (if bool_decide (ui_Status input = StatusSucceeded) then is_Some (db_rollout_trackings db' !! id)
   else db_rollout_trackings db' = db_rollout_trackings db).

Lemma finalizeUpgradeTx_replay input w :
  is_Some (db_operation_execution_results (w_db w) !! ui_OperationID input) → w_busy w 0%nat = false →
  FinalizeUpgrade input w = (Ok tt, with_db (w_db w) (attempt w)).
Proof.
  intros [x Hx] Hb. unfold FinalizeUpgrade, run_tx, finalizeUpgradeTx, bind, query, gets. rewrite Hb. simpl. by rewrite Hx.
Qed.

Lemma finalizeUpgradeTx_inv input w w' :
  finalizeUpgradeTx input w = (Ok (Commit tt), w') →
  db_operation_execution_results (w_db w) !! ui_OperationID input = None ∧
  ∃ o n, db_operations (w_db w) !! ui_OperationID input = Some o ∧ op_StateVersion o = ui_ExpectedStateVersion input ∧
    finalized input o n (w_db w) (w_db w').
Proof.
  intros H. unfold finalizeUpgradeTx in H. cbv zeta in H. dinv.
  destruct (db_operation_execution_results (w_db w) !! ui_OperationID input) as [x|] eqn:Hx; dinv. split; [done|].
  match goal with H : getOperation _ _ = _ |- _ => apply getOperation_Ok in H as (-> & o & Ho & ->) end.
  match goal with H : cas_operation _ _ _ _ = _ |- _ => apply cas_operation_Ok in H as (o' & Ho' & Hv & ->); [|done] end.
  simpl in *. assert (o' = o) as -> by congruence. exists o, (rfc3339 (w_clock w 0)). split; [done|]. split; [done|].
  unfold finalized. split_and!.
  - by use_frame db_operations.
  - by use_frame db_operation_execution_results.
  - destruct (ui_UpdateInventory input); unfold when in *; dinv; [|by use_frame db_release_inventory].
    split; [intros H0; by rewrite H0 in *|]. by use_frame db_release_inventory.
  - destruct (bool_decide (ui_Status input = StatusSucceeded)); unfold when in *; dinv; [|by use_frame db_rollout_trackings].
    match goal with H : (match ?x with Some _ => _ | None => _ end) ?w1 = (_, ?w2) |- _ =>
      assert (Hr : is_Some (db_rollout_trackings (w_db w2) !! ui_OperationID input))
        by (destruct x eqn:Ht; dinv; [by eexists|rewrite lookup_insert_eq; by eexists]); clear H end.
    by use_frame db_rollout_trackings.
Qed.

(** Finalising an upgrade happens once.  A finalisation that is not a replay
    takes the operation from the expected version to the terminal row, stores the
    execution result, updates every matching inventory row when asked to (at
    least one) and starts rollout tracking exactly when the upgrade succeeded;
    whatever the outcome of the call, an error changes nothing; and once it has
    succeeded every further call for the operation succeeds without any effect. *)
Theorem FinalizeUpgrade_once input w r w' :
  FinalizeUpgrade input w = (r, w') →
  match r with
  | Err _ => w_db w' = w_db w
  | Ok _ =>
      ((is_Some (db_operation_execution_results (w_db w) !! ui_OperationID input) ∧ w_db w' = w_db w) ∨
       (db_operation_execution_results (w_db w) !! ui_OperationID input = None ∧
        ∃ o n, db_operations (w_db w) !! ui_OperationID input = Some o ∧
          op_StateVersion o = ui_ExpectedStateVersion input ∧ finalized input o n (w_db w) (w_db w'))) ∧
      ∀ input2 w2, ui_OperationID input2 = ui_OperationID input →
        db_operation_execution_results (w_db w2) = db_operation_execution_results (w_db w') → w_busy w2 0%nat = false →
        FinalizeUpgrade input2 w2 = (Ok tt, with_db (w_db w2) (attempt w2))
  end.
Proof.
  intros H. destruct r as [[]|e]; [|by apply run_tx_Err in H].
  apply run_tx_Ok in H as [_ [H|(w1 & H & ->)]].
  - apply finalizeUpgradeTx_inv in H as (Hx & o & n & Ho & Hv & Hfin). split; [right; eauto 10|].
    intros input2 w2 Hid Hres Hb. apply finalizeUpgradeTx_replay; [|done].
    destruct Hfin as (_ & Hxr & _). rewrite Hid, Hres, Hxr, lookup_insert_eq. by eexists.
  - unfold finalizeUpgradeTx in H. cbv zeta in H. dinv.
    destruct (db_operation_execution_results (w_db w) !! ui_OperationID input) as [x|] eqn:Hx; dinv.
    split; [left; split; [by eexists|done]|].
    intros input2 w2 Hid Hres Hb. apply finalizeUpgradeTx_replay; [|done]. rewrite Hid, Hres, Hx. by eexists.
Qed.
Definition sample_terminal (status : OperationStatus) (version : Z) : UpgradeTerminalInput :=
  {| ui_OperationID := "op1"; ui_ExpectedStateVersion := version; ui_Status := status; ui_LastError := "";
     ui_ResultPayload := "{}"; ui_ReleaseDefinitionID := "d1"; ui_CustomerID := "c1"; ui_ClusterID := "k1";
     ui_UpdateInventory := false; ui_Revision := 2; ui_ObservedBundleDigest := ""; ui_ObservedChartDigest := "";
     ui_ObservedEffectiveValuesDigest := ""; ui_ObservedManifestDigest := ""; ui_LiveStatus := "deployed";
     ui_InventoryStatus := "healthy"; ui_ResourceCount := 4 |}.
Lemma FinalizeUpgrade_once_witness :
  ∃ w' o, FinalizeUpgrade (sample_terminal StatusSucceeded 3) running_world = (Ok tt, w') ∧
    db_operations (w_db w') !! "op1" = Some o ∧ op_Status o = StatusSucceeded ∧
    ∃ w3, FinalizeUpgrade (sample_terminal StatusFailed 4) w' = (Ok tt, w3) ∧ w_db w3 = w_db w'.
Proof.
  destruct (FinalizeUpgrade (sample_terminal StatusSucceeded 3) running_world) as [[[]|e] w'] eqn:E; [|vm_compute in E; discriminate E].
  assert (Hb : w_busy w' 0%nat = false) by (vm_compute in E; injection E as <-; reflexivity).
  destruct (FinalizeUpgrade_once _ _ _ _ E) as [[[Hx _]|(_ & o & n & Ho & _ & Hops & _)] Hagain].
  - exfalso. vm_compute in Hx. destruct Hx as [x Hx]. discriminate Hx.
  - eexists w', _. split; [reflexivity|]. split; [rewrite Hops; apply lookup_insert_eq|]. split; [reflexivity|].
    eexists. split; [by apply Hagain|reflexivity].
Defined.

(** The compare-and-swap of the finalisation does not consult the state machine:
    a pending upgrade can be finalised as succeeded. *)
Lemma FinalizeUpgrade_skips_state_machine :
  CanTransitionTo StatusPending StatusSucceeded = false ∧
  (op_Status <$> db_operations (w_db (FinalizeUpgrade (sample_terminal StatusSucceeded 1)
     (sample_world (db_with_ops [sample_op "op1" "d1" "k1" OperationUpgrade StatusPending 1]))).2) !! "op1") = Some StatusSucceeded.
Proof. split; reflexivity. Qed.

(** Only the plain transition queues an OperationTerminal notification:
    cancelling an operation and finalising an upgrade, which also make
    operations terminal, leave the notification outbox as it was. *)
Theorem terminal_notification_gap command input w :
  db_notification_outbox (w_db (Cancel command w).2) = db_notification_outbox (w_db w) ∧
  db_notification_outbox (w_db (FinalizeUpgrade input w).2) = db_notification_outbox (w_db w).
Proof.
  split; symmetry.
  - assert (H : preserves (db_rel (on_table db_notification_outbox eq)) (Cancel command)).
    { unfold Cancel, cancelInTx. db_preserve. }
    destruct (Cancel command w) as [r w'] eqn:E. exact (H _ _ _ E).
  - assert (H : preserves (db_rel (on_table db_notification_outbox eq)) (FinalizeUpgrade input)).
    { unfold FinalizeUpgrade, finalizeUpgradeTx. db_preserve. }
    destruct (FinalizeUpgrade input w) as [r w'] eqn:E. exact (H _ _ _ E).
Qed.

(** ** Properties of idempotent creation *)

(** A transaction whose first attempt is not turned away as busy is not retried. *)
Lemma retryBusy_first {A} (m : SM A) w r w' :
  m w = (r, w') → (∀ e, r = Err e → isSQLiteBusy e = false) → retryBusy m w = (r, w').
Proof.
  intros H Hr. unfold retryBusy, maxRetries. cbn [retry_loop]. rewrite H. destruct r as [a|e]; [done|].
  by rewrite (Hr e).
Qed.

Lemma createOperation_inv op w op' w' :
  createOperation op w = (Ok op', w') →
  db_operations (w_db w) !! op_ID op = None ∧ op_ID op' = op_ID op ∧
  op_ReleaseDefinitionID op' = op_ReleaseDefinitionID op ∧ op_OperationType op' = op_OperationType op ∧
  op_Status op' = op_Status op ∧
  w_db w' = set_operations (<[op_ID op := operation_row op']> (db_operations (w_db w))) (w_db w).
Proof.
  intros H. unfold createOperation in H. cbv zeta in H. dinv.
  match goal with H : violates_unique _ _ = false |- _ => unfold violates_unique in H; apply orb_false_iff in H as [H _] end.
  repeat match goal with H : w_db _ = w_db _ |- _ => rewrite H in * end. destruct_bools.
  split; [by apply eq_None_not_Some|]. done.
Qed.

(** The row a creation stores under its idempotency key, and what later calls
    with the key get. *)
Lemma createIdempotent_replay command2 record2 stored op w2 :
  ccr_ExpectedAuthorizationVersion command2 = 0 → has_key (ccr_Idempotency command2) = Some record2 →
  db_idempotency_records (w_db w2) !! idempotency_key (id_Scope record2) (id_Key record2) = Some stored →
  id_ResponseRef stored = RefOperationID (op_ID op) → text_ltb (w_clock w2 0%nat) (id_ExpiresAt stored) = true →
  db_operations (w_db w2) !! op_ID op = Some op → w_busy w2 0%nat = false →
  ∃ w3, w_db w3 = w_db w2 ∧
    CreateIdempotent command2 w2 =
      (if bool_decide (id_RequestHash stored = id_RequestHash record2)
       then Ok {| crr_Operation := buildOperation (w_db w2) op; crr_Replayed := true |}
       else Err ErrIdempotencyConflict, w3).
Proof.
  intros Hfence Hkey Hrec Href Hlive Hop Hb.
  assert (H : ∃ w3, w_db w3 = w_db w2 ∧ run_tx (createIdempotentOperation command2) w2 =
      (if bool_decide (id_RequestHash stored = id_RequestHash record2)
       then Ok {| crr_Operation := buildOperation (w_db w2) op; crr_Replayed := true |}
       else Err ErrIdempotencyConflict, w3)).
  { unfold run_tx, createIdempotentOperation, checkAuthorizationFence. rewrite Hb, Hfence, Hkey. simpl.
    unfold bind, ret, now, not_found_is_none, loadActiveIdempotencyRecord, bind, query, gets, active_record. simpl.
    rewrite Hrec. simpl. rewrite Hlive. simpl. case_bool_decide; simpl; [|eexists; split; [|reflexivity]; reflexivity].
    unfold decodeOperationCreateReplay, getOperation, lookup_operation, bind, query, gets, ret. rewrite Href. simpl.
    rewrite Hop. simpl. eexists. split; [|reflexivity]. reflexivity. }
  destruct H as (w3 & Hdb & H). exists w3. split; [done|]. apply retryBusy_first; [done|].
  intros e. destruct (bool_decide _); intros [= <-]; reflexivity.
Qed.

Lemma decodeOperationCreateReplay_replayed r w res w' :
  decodeOperationCreateReplay r w = (Ok res, w') → crr_Replayed res = true.
Proof. unfold decodeOperationCreateReplay. intros H. dinv. done. Qed.
Lemma createIdempotent_rollback command w res w' :
  createIdempotentOperation command w = (Ok (Rollback res), w') → crr_Replayed res = true.
Proof.
  intros H. unfold createIdempotentOperation in H. dinv.
  repeat match type of H with
  | (match ?x with _ => _ end) _ = _ => destruct x; dinv
  end;
  by match goal with H : decodeOperationCreateReplay _ _ = _ |- _ => apply decodeOperationCreateReplay_replayed in H end.
Qed.
Lemma createIdempotent_commit command record w res w' :
  has_key (ccr_Idempotency command) = Some record → valid_record record →
  createIdempotentOperation command w = (Ok (Commit res), w') →
  let op := ccr_Operation command in
  let stored := with_response record (RefOperationID (op_ID op)) in
  ∃ row, db_operations (w_db w) !! op_ID op = None ∧ op_ID row = op_ID op ∧
    db_operations (w_db w') = <[op_ID op := row]> (db_operations (w_db w)) ∧
    db_idempotency_records (w_db w') =
      <[idempotency_key (id_Scope record) (id_Key record) := stored]> (db_idempotency_records (w_db w)).
Proof.
  intros Hkey Hvalid H op stored. unfold createIdempotentOperation in H. rewrite Hkey in H. dinv.
  match type of H with (match ?x with _ => _ end) _ = _ => destruct x as [r|]; dinv end.
  { match type of H with (if ?x then _ else _) _ = _ => destruct x; dinv end. }
  match goal with H : createOrGetIdempotencyRecord _ _ _ = (Ok ?x, ?w4) |- _ =>
    destruct x as [x []]; simpl in *; [|exfalso; by dinv];
    pose proof H as Hrec; apply createOrGet_created in Hrec as [-> Hw4]; [|exact Hvalid];
    assert (Hops : db_operations (w_db w4) = db_operations (w_db w)) by (by use_frame db_operations);
    assert (Hids : db_idempotency_records (w_db w4) =
      <[idempotency_key (id_Scope record) (id_Key record) := stored]> (db_idempotency_records (w_db w)))
      by (rewrite Hw4; simpl; by use_frame db_idempotency_records); clear H Hw4 end.
  dinv. match goal with H : createOperation _ _ = _ |- _ => apply createOperation_inv in H as (Hfresh & Hid & _ & _ & _ & Hdb) end.
  rewrite Hops in *.
  match type of Hdb with _ = set_operations (<[_ := ?r]> _) _ => exists r end.
  split_and!; [done|exact Hid|by rewrite Hdb|by rewrite Hdb].
Qed.

(** One idempotency key creates one operation.  A creation that is not a
    replay inserts a row under a fresh operation id; until the record expires
    every later call with the same scope and key returns that operation when the
    request is the same and a conflict when it is not, and changes nothing. *)
Theorem CreateIdempotent_once command record res w w' :
  CreateIdempotent command w = (Ok res, w') →
  crr_Replayed res = false →
  has_key (ccr_Idempotency command) = Some record → valid_record record →
  let op := ccr_Operation command in
  ∃ row, db_operations (w_db w) !! op_ID op = None ∧ op_ID row = op_ID op ∧
    db_operations (w_db w') = <[op_ID op := row]> (db_operations (w_db w)) ∧
    ∀ command2 record2 w2,
      ccr_ExpectedAuthorizationVersion command2 = 0 → has_key (ccr_Idempotency command2) = Some record2 →
      id_Scope record2 = id_Scope record → id_Key record2 = id_Key record →
      w_db w2 = w_db w' → w_busy w2 0%nat = false → text_ltb (w_clock w2 0%nat) (id_ExpiresAt record) = true →
      ∃ w3, w_db w3 = w_db w2 ∧
        CreateIdempotent command2 w2 =
          (if bool_decide (id_RequestHash record = id_RequestHash record2)
           then Ok {| crr_Operation := buildOperation (w_db w') row; crr_Replayed := true |}
           else Err ErrIdempotencyConflict, w3).
Proof.
  intros H Hnew Hkey Hvalid op. unfold CreateIdempotent in H.
  apply retry_loop_Ok in H as (w0 & Hw0 & H). rewrite <- Hw0. clear Hw0 w.
  assert (Hvalid' : valid_record (with_response record (RefOperationID (op_ID op)))) by exact Hvalid.
  apply run_tx_Ok in H as [_ [H|(w1 & H & _)]]; [|apply createIdempotent_rollback in H; congruence].
  destruct (createIdempotent_commit _ _ _ _ _ Hkey Hvalid H) as (row & Hfresh & Hid & Hops & Hids).
  exists row. simpl in *. split_and!; [done..|].
  intros command2 record2 w2 Hfence Hkey2 Hs Hk Hw2 Hb Hlive. rewrite <- Hw2.
  rewrite <- Hw2 in Hops, Hids. fold op in Hid.
  refine (createIdempotent_replay command2 record2 (with_response record (RefOperationID (op_ID op))) row w2 Hfence Hkey2 _ _ _ _ Hb);
    simpl; [|by rewrite Hid|done|].
  - rewrite Hids, Hs, Hk. apply lookup_insert_eq.
  - rewrite Hops, Hid. apply lookup_insert_eq.
Qed.
Definition sample_create (id key hash : string) : OperationCreateCommand :=
  {| ccr_Operation := sample_op id "d1" key OperationInstall StatusPending 0;
     ccr_Idempotency := Some {| id_Scope := "s"; id_Key := key; id_RequestHash := hash; id_ResponseRef := RefEmpty;
                                id_ExpiresAt := 5000 * nsec |};
     ccr_CheckAvailable := true; ccr_ExpectedAuthorizationVersion := 0 |}.
Lemma CreateIdempotent_once_witness :
  ∃ res w', CreateIdempotent (sample_create "op1" "k1" "h1") (sample_world (db_with_ops [])) = (Ok res, w') ∧
    (∃ res2 w2, CreateIdempotent (sample_create "op2" "k1" "h1") w' = (Ok res2, w2) ∧
       crr_Replayed res2 = true ∧ op_ID (crr_Operation res2) = "op1" ∧ w_db w2 = w_db w') ∧
    (∃ w3, CreateIdempotent (sample_create "op2" "k1" "h2") w' = (Err ErrIdempotencyConflict, w3) ∧ w_db w3 = w_db w').
Proof.
  destruct (CreateIdempotent (sample_create "op1" "k1" "h1") (sample_world (db_with_ops []))) as [[res|e] w'] eqn:E;
    [|vm_compute in E; discriminate E].
  assert (H : crr_Replayed res = false ∧ w_busy w' 0%nat = false ∧ text_ltb (w_clock w' 0%nat) (5000 * nsec) = true)
    by (vm_compute in E; injection E as <- <-; auto).
  destruct H as (Hr & Hb & Hlive).
  destruct (CreateIdempotent_once _ _ _ _ _ E Hr eq_refl ltac:(by repeat split)) as (row & _ & Hid & _ & Hagain).
  exists res, w'. split; [reflexivity|]. split.
  - destruct (Hagain (sample_create "op2" "k1" "h1") _ w' eq_refl eq_refl eq_refl eq_refl eq_refl Hb Hlive) as (w3 & Hdb & H).
    eexists _, w3. split; [exact H|]. split; [reflexivity|]. split; [|exact Hdb]. simpl.
    rewrite (proj1 (buildOperation_fields _ _)). exact Hid.
  - destruct (Hagain (sample_create "op2" "k1" "h2") _ w' eq_refl eq_refl eq_refl eq_refl eq_refl Hb Hlive) as (w3 & Hdb & H).
    exists w3. split; [exact H|exact Hdb].
Defined.
