(* ===== verification/EmergencyStore.v ===== *)
(** * The emergency store (internal/store/sqlite/emergency_intents.go,
    emergency_converge.go, convergence_tasks.go)

    An EMERGENCY operation carries one intent (what to change on which workload)
    and, when the change must be promoted, one convergence task.  The intent is
    a lock on its target until its effect is known or the lock is released. *)
From stdpp Require Import pretty.
From S2P Require Import Prelude Utf8 Json Redact Domain Lifecycle Database Timeline Idempotency Outbox OperationStore.
#[local] Open Scope Z_scope.

(** ** Convergence tasks *)
Definition with_task_defaults (task : ConvergenceTask) (submittedAt : time) : ConvergenceTask :=
  {| ct_ID := ct_ID task; ct_OperationID := ct_OperationID task; ct_ReleaseDefinitionID := ct_ReleaseDefinitionID task;
     ct_Action := ct_Action task; ct_TargetSummary := ct_TargetSummary task; ct_Reason := ct_Reason task;
     ct_PromotionPaths := ct_PromotionPaths task;
     ct_Status := if bool_decide (ct_Status task = ConvergenceStatusEmpty) then PendingPromotion else ct_Status task;
     ct_ActiveRevisionID := ct_ActiveRevisionID task; ct_ActiveRevisionStatus := ct_ActiveRevisionStatus task;
     ct_LastRejectionReason := ct_LastRejectionReason task; ct_SubmittedAt := submittedAt;
     ct_ConvergedAt := ct_ConvergedAt task;
     ct_CreatedAt := if is_zero_time (ct_CreatedAt task) then submittedAt else ct_CreatedAt task |}.
Definition definition_exists (id : string) (db : DB) : bool := bool_decide (is_Some (db_release_definitions db !! id)).
Definition operation_exists (id : string) (db : DB) : bool := bool_decide (is_Some (db_operations db !! id)).
Definition insertConvergenceTask (task : ConvergenceTask) : SM ConvergenceTask :=
  let! submittedAt := or_now (ct_SubmittedAt task) in
  let task := with_task_defaults task submittedAt in
  fail_if (raw_is_empty (ct_PromotionPaths task)) (ErrOther "insert convergence task") ;!
  let! duplicate := query (λ db, existsb (λ t, bool_decide (ct_ID t = ct_ID task)
                                 || bool_decide (ct_OperationID t = ct_OperationID task)) (db_convergence_tasks db)) in
  fail_if duplicate ErrDuplicateKey ;!
  check_fk (λ db, definition_exists (ct_ReleaseDefinitionID task) db && operation_exists (ct_OperationID task) db)
    "insert convergence task" ;!
  exec (λ db, set_convergence_tasks (db_convergence_tasks db ++ [task]) db) ;!
  ret task.
Definition Create_task (task : ConvergenceTask) : SM ConvergenceTask := autocommit (insertConvergenceTask task).
Definition Get_task (id : string) : SM ConvergenceTask :=
  let! row := query (λ db, find_row (λ t, bool_decide (ct_ID t = id)) (db_convergence_tasks db)) in scan_row row.
Definition task_of_operation (operationID : string) (db : DB) : option ConvergenceTask :=
  find_row (λ t, bool_decide (ct_OperationID t = operationID)) (db_convergence_tasks db).
Definition getConvergenceTaskByOperation (operationID : string) : SM ConvergenceTask :=
  let! row := query (task_of_operation operationID) in scan_row row.
(** [ORDER BY submitted_at DESC]; the columns are RFC3339Nano text. *)
Definition submitted_ge (a b : ConvergenceTask) : Prop := text_ltb (ct_SubmittedAt a) (ct_SubmittedAt b) = false.
#[export] Instance submitted_ge_dec a b : Decision (submitted_ge a b).
Proof. unfold submitted_ge. apply _. Defined.
(** [statusFilter = ""] is [ConvergenceStatusEmpty]. *)
Definition ListByDefinition (definitionID : string) (statusFilter : ConvergenceStatus) : SM (list ConvergenceTask) :=
  query (λ db, merge_sort submitted_ge (filter (λ t,
    (bool_decide (ct_ReleaseDefinitionID t = definitionID)
     && (bool_decide (statusFilter = ConvergenceStatusEmpty) || bool_decide (ct_Status t = statusFilter))) = true)
    (db_convergence_tasks db))).
Definition pending_for (definitionID : string) (t : ConvergenceTask) : bool :=
  bool_decide (ct_ReleaseDefinitionID t = definitionID) && bool_decide (ct_Status t = PendingPromotion).
(** HasPendingPromotionPath stops at the first row that shares a path; a row it
    reaches whose paths do not decode is an error. *)
Fixpoint pending_path_loop (wanted : list string) (rows : list raw) : SM bool :=
  match rows with
  | [] => ret false
  | encoded :: rows =>
      match decode_strings encoded with
      | None => throw (ErrOther "decode pending promotion paths")
      | Some existing => if existsb (λ p, bool_decide (p ∈ wanted)) existing then ret true else pending_path_loop wanted rows
      end
  end.
Definition HasPendingPromotionPath (definitionID : string) (promotionPaths : list string) : SM bool :=
  if bool_decide (promotionPaths = []) then ret false else
  let! rows := query (λ db, ct_PromotionPaths <$> filter (λ t, pending_for definitionID t = true) (db_convergence_tasks db)) in
  pending_path_loop promotionPaths rows.

(** ** Emergency intents *)
Definition validEmergencyEffectStatus (status : EmergencyEffectStatus) : bool :=
  match status with EmergencyEffectUnknown | EmergencyEffectApplied | EmergencyEffectNotApplied => true | _ => false end.
(** scanEmergencyIntent *)
Definition scanEmergencyIntent (row : option EmergencyIntent) : SM EmergencyIntent :=
  let! intent := scan_row row in
  fail_if (negb (validEmergencyEffectStatus (ei_EffectStatus intent))) (ErrOther "scan emergency intent: invalid effect status") ;!
  ret intent.
Definition getEmergencyIntentByOperation (operationID : string) : SM EmergencyIntent :=
  let! row := query (intent_of_operation operationID) in scanEmergencyIntent row.
Definition getEmergencyIntentByID (id : string) : SM EmergencyIntent :=
  let! row := query (λ db, find_row (λ i, bool_decide (ei_ID i = id)) (db_emergency_intents db)) in
  scanEmergencyIntent row.
Definition GetByCommandID_intent (commandID : string) : SM EmergencyIntent :=
  let! row := query (λ db, find_row (λ i, bool_decide (ei_CommandID i = commandID)) (db_emergency_intents db)) in
  scanEmergencyIntent row.

(** Replays of emergency creations. *)
Definition decodeEmergencyReplay (record : IdempotencyRecord) : SM EmergencyCreateResult :=
  match id_ResponseRef record with
  | RefEmergency reference =>
      let! op := getOperation (er_OperationID reference) in
      let! intent := getEmergencyIntentByOperation (er_OperationID reference) in
      let! task := (if bool_decide (er_ConvergenceTaskID reference = "") then ret None
                    else let! t := getConvergenceTaskByOperation (er_OperationID reference) in ret (Some t)) in
      ret {| ecr_Operation := op; ecr_Intent := intent; ecr_ConvergenceTask := task; ecr_Replayed := true |}
  | _ => throw (ErrOther "decode emergency replay reference")
  end.
Definition lookupEmergencyReplay (scope keyHash requestHash : string) : SM (option EmergencyCreateResult) :=
  let! t := now in
  let! record := not_found_is_none (loadActiveIdempotencyRecord scope keyHash t) in
  match record with
  | None => ret None
  | Some record =>
      fail_if (negb (bool_decide (id_RequestHash record = requestHash))) ErrIdempotencyConflict ;!
      let! r := decodeEmergencyReplay record in ret (Some r)
  end.
Definition GetReplay_emergency (scope keyHash requestHash : string) : SM EmergencyCreateResult :=
  let! result := lookupEmergencyReplay scope keyHash requestHash in
  scan_row result.

(** nullableJSON *)
Definition nullableJSON (value : raw) : raw := if raw_is_empty value then RawEmpty else value.
Definition valid_delivery (status : string) : bool := bool_decide (status ∈ ["pending"; "queued"; "delivered"; "persisted"]).
(** The intent with the defaults, and the row INSERT writes (no release columns). *)
Definition with_intent_defaults (i : EmergencyIntent) (createdAt : time) : EmergencyIntent :=
  {| ei_ID := ei_ID i; ei_ReleaseDefinitionID := ei_ReleaseDefinitionID i; ei_OperationID := ei_OperationID i;
     ei_CommandID := ei_CommandID i; ei_Action := ei_Action i; ei_WorkloadKind := ei_WorkloadKind i;
     ei_WorkloadName := ei_WorkloadName i; ei_WorkloadNamespace := ei_WorkloadNamespace i;
     ei_WorkloadUID := ei_WorkloadUID i; ei_Container := ei_Container i; ei_ArtifactID := ei_ArtifactID i;
     ei_ImageReference := ei_ImageReference i; ei_TargetReplicas := ei_TargetReplicas i;
     ei_AnnotationScope := ei_AnnotationScope i; ei_AnnotationEntries := ei_AnnotationEntries i;
     ei_Convergence := ei_Convergence i; ei_PromotionPaths := ei_PromotionPaths i;
     ei_BeforeSnapshot := ei_BeforeSnapshot i; ei_AfterSnapshot := ei_AfterSnapshot i;
     ei_DeliveryStatus := if bool_decide (ei_DeliveryStatus i = "") then "pending" else ei_DeliveryStatus i;
     ei_EffectStatus := if bool_decide (ei_EffectStatus i = EffectEmpty) then EmergencyEffectUnknown else ei_EffectStatus i;
     ei_LastDeliveryAt := ei_LastDeliveryAt i; ei_LockReleasedAt := ei_LockReleasedAt i;
     ei_RevertStatus := ei_RevertStatus i; ei_ReconciledByOperationID := ei_ReconciledByOperationID i;
     ei_CreatedAt := createdAt; ei_UpdatedAt := if is_zero_time (ei_UpdatedAt i) then createdAt else ei_UpdatedAt i |}.
Definition intent_row (i : EmergencyIntent) : EmergencyIntent :=
  {| ei_ID := ei_ID i; ei_ReleaseDefinitionID := ei_ReleaseDefinitionID i; ei_OperationID := ei_OperationID i;
     ei_CommandID := ei_CommandID i; ei_Action := ei_Action i; ei_WorkloadKind := ei_WorkloadKind i;
     ei_WorkloadName := ei_WorkloadName i; ei_WorkloadNamespace := ei_WorkloadNamespace i;
     ei_WorkloadUID := ei_WorkloadUID i; ei_Container := ei_Container i; ei_ArtifactID := ei_ArtifactID i;
     ei_ImageReference := ei_ImageReference i; ei_TargetReplicas := ei_TargetReplicas i;
     ei_AnnotationScope := ei_AnnotationScope i; ei_AnnotationEntries := nullableJSON (ei_AnnotationEntries i);
     ei_Convergence := ei_Convergence i; ei_PromotionPaths := nullableJSON (ei_PromotionPaths i);
     ei_BeforeSnapshot := nullableJSON (ei_BeforeSnapshot i); ei_AfterSnapshot := nullableJSON (ei_AfterSnapshot i);
     ei_DeliveryStatus := ei_DeliveryStatus i; ei_EffectStatus := ei_EffectStatus i;
     ei_LastDeliveryAt := ei_LastDeliveryAt i; ei_LockReleasedAt := None; ei_RevertStatus := "";
     ei_ReconciledByOperationID := ""; ei_CreatedAt := ei_CreatedAt i; ei_UpdatedAt := ei_UpdatedAt i |}.
(** What an operator is asked to do, and for which operation. *)
Definition change_of (i : EmergencyIntent) :=
  (ei_CommandID i, ei_OperationID i, (ei_Action i, ei_WorkloadKind i, ei_WorkloadName i, ei_WorkloadNamespace i, ei_WorkloadUID i),
   (ei_Container i, ei_ImageReference i, ei_TargetReplicas i, ei_AnnotationScope i, ei_AnnotationEntries i)).
Definition insertEmergencyIntent (intent : EmergencyIntent) : SM EmergencyIntent :=
  let! createdAt := or_now (ei_CreatedAt intent) in
  let intent := with_intent_defaults intent createdAt in
  fail_if (negb (validEmergencyEffectStatus (ei_EffectStatus intent))) (ErrOther "insert emergency intent: invalid effect status") ;!
  fail_if (negb (EmergencyAction_Valid (ei_Action intent)) || negb (valid_delivery (ei_DeliveryStatus intent)))
    (ErrOther "insert emergency intent") ;!
  let! duplicate := query (λ db, existsb (λ i, bool_decide (ei_ID i = ei_ID intent)
      || bool_decide (ei_OperationID i = ei_OperationID intent) || bool_decide (ei_CommandID i = ei_CommandID intent))
    (db_emergency_intents db)) in
  fail_if duplicate ErrDuplicateKey ;!
  check_fk (λ db, definition_exists (ei_ReleaseDefinitionID intent) db && operation_exists (ei_OperationID intent) db)
    "insert emergency intent" ;!
  exec (λ db, set_emergency_intents (db_emergency_intents db ++ [intent_row intent]) db) ;!
  ret intent.

(** ** Locks: which intents are active and which conflict *)

(** The join with operations. *)
Definition intent_operation (db : DB) (i : EmergencyIntent) : option Operation := db_operations db !! ei_OperationID i.
Definition is_active_intent (definitionID : string) (db : DB) (i : EmergencyIntent) : bool :=
  match intent_operation db i with
  | Some op =>
      bool_decide (ei_ReleaseDefinitionID i = definitionID)
      && (non_terminal op || bool_decide (ei_EffectStatus i = EmergencyEffectUnknown))
      && bool_decide (ei_LockReleasedAt i = None)
  | None => false
  end.
Definition intent_created_le (a b : EmergencyIntent) : Prop := text_ltb (ei_CreatedAt b) (ei_CreatedAt a) = false.
#[export] Instance intent_created_le_dec a b : Decision (intent_created_le a b).
Proof. unfold intent_created_le. apply _. Defined.
Definition listActiveEmergencyIntents (definitionID : string) : SM (list EmergencyIntent) :=
  query (λ db, merge_sort intent_created_le (filter (λ i, is_active_intent definitionID db i = true) (db_emergency_intents db))).
Definition is_unresolved (definitionID : string) (db : DB) (i : EmergencyIntent) : bool :=
  match intent_operation db i with
  | Some op =>
      bool_decide (ei_ReleaseDefinitionID i = definitionID) && bool_decide (ei_EffectStatus i = EmergencyEffectUnknown)
      && bool_decide (ei_LockReleasedAt i = None) && bool_decide (is_Some (op_TerminalAt op))
  | None => false
  end.
Definition HasUnresolvedForDefinition (definitionID : string) : SM (bool * list string) :=
  let! ids := query (λ db, merge_sort string_leb
    (ei_OperationID <$> filter (λ i, is_unresolved definitionID db i = true) (db_emergency_intents db))) in
  ret (negb (bool_decide (ids = [])), ids).

Definition annotation_keys : raw → option (list string) := decode_slice (decode_struct1 "key").
Definition emergencyIntentsConflict (left right : EmergencyIntent) : bool :=
  if negb (bool_decide (ei_WorkloadKind left = ei_WorkloadKind right))
     || negb (bool_decide (ei_WorkloadName left = ei_WorkloadName right)) then false
  else if bool_decide (ei_Action left = EmergencySetReplicas) && bool_decide (ei_Action right = EmergencySetReplicas) then true
  else if bool_decide (ei_Action left = EmergencySetContainerImage) && bool_decide (ei_Action right = EmergencySetContainerImage) then
    match ei_Container left, ei_Container right with
    | Some l, Some r => bool_decide (l = r)
    | _, _ => false
    end
  else if negb (bool_decide (ei_Action left = EmergencySetApprovedAnnotations))
          || negb (bool_decide (ei_Action right = EmergencySetApprovedAnnotations)) then false
  else
    match annotation_keys (ei_AnnotationEntries left), annotation_keys (ei_AnnotationEntries right) with
    | Some leftEntries, Some rightEntries => existsb (λ k, bool_decide (k ∈ leftEntries)) rightEntries
    | _, _ => true
    end.

(** ** Updates of one intent *)
Definition UpdateDeliveryStatus (id status : string) : SM unit :=
  let! t1 := now in
  let! t2 := now in
  autocommit (
    let! rows := query (λ db, rows_affected (λ i, bool_decide (ei_ID i = id)) (db_emergency_intents db)) in
    fail_if (negb (Nat.eqb rows 0) && negb (valid_delivery status)) (ErrOther "update emergency delivery status") ;!
    let! rows := update_intents (λ i, bool_decide (ei_ID i = id))
      (λ i, intent_update i (ei_BeforeSnapshot i) (ei_AfterSnapshot i) status (ei_EffectStatus i) (Some t1)
              (ei_LockReleasedAt i) (ei_RevertStatus i) (ei_ReconciledByOperationID i) t2) in
    fail_if (Nat.eqb rows 0) ErrNotFound).
Definition SaveRevertReconciliation (intentID revertStatus reconciledByOperationID : string) : SM unit :=
  let! t := now in
  autocommit (
    let! rows := update_intents (λ i, bool_decide (ei_ID i = intentID))
      (λ i, intent_update i (ei_BeforeSnapshot i) (ei_AfterSnapshot i) (ei_DeliveryStatus i) (ei_EffectStatus i)
              (ei_LastDeliveryAt i) (ei_LockReleasedAt i) revertStatus reconciledByOperationID t) in
    fail_if (Nat.eqb rows 0) ErrNotFound).

(** PersistAck: the shared acknowledgement transaction on this table. *)
Definition awaits_emergency_ack (id : string) (i : EmergencyIntent) : bool :=
  bool_decide (ei_ID i = id) && negb (bool_decide (ei_DeliveryStatus i = "persisted")).
Definition ack_intent_row (now : time) (i : EmergencyIntent) : EmergencyIntent :=
  intent_update i (ei_BeforeSnapshot i) (ei_AfterSnapshot i) "persisted" (ei_EffectStatus i) (Some now)
    (ei_LockReleasedAt i) (ei_RevertStatus i) (ei_ReconciledByOperationID i) now.
Definition emergency_ack_table : AckTable := {|
  ack_load id db :=
    match find_row (λ i, bool_decide (ei_ID i = id)) (db_emergency_intents db) with
    | Some i => Some (ei_OperationID i, ei_CommandID i, bool_decide (ei_DeliveryStatus i = "persisted"))
    | None => None
    end;
  ack_rows id db := rows_affected (awaits_emergency_ack id) (db_emergency_intents db);
  ack_persist id now db :=
    set_emergency_intents (update_where (awaits_emergency_ack id) (ack_intent_row now) (db_emergency_intents db)) db;
|}.
Definition PersistAck_emergency (id : string) : SM (option OperationTimelineEntry) := persist_ack emergency_ack_table (λ t, t) id.

(** The effect of an intent with its snapshots. *)
Definition intent_with_result (before after : raw) (effect : EmergencyEffectStatus) (now : time) (i : EmergencyIntent) : EmergencyIntent :=
  intent_update i (nullableJSON before) (nullableJSON after) (ei_DeliveryStatus i) effect (ei_LastDeliveryAt i)
    (ei_LockReleasedAt i) (ei_RevertStatus i) (ei_ReconciledByOperationID i) now.

(** ** Finish *)
Definition normalizeEmergencyEffectStatus (status : EmergencyEffectStatus) : SM EmergencyEffectStatus :=
  if bool_decide (status = EffectEmpty) then ret EmergencyEffectUnknown
  else
    fail_if (negb (validEmergencyEffectStatus status)) (ErrOther "finish emergency: invalid effect status") ;!
    ret status.
Definition finishEmergencySnapshotsTx (intentID operationID : string) (effectStatus : EmergencyEffectStatus)
    (beforeSnapshot afterSnapshot : raw) (now : time) : SM unit :=
  let! rows := update_intents (λ i, bool_decide (ei_ID i = intentID) && bool_decide (ei_OperationID i = operationID))
                 (intent_with_result beforeSnapshot afterSnapshot effectStatus now) in
  fail_if (Nat.eqb rows 0) ErrNotFound.
Definition finishTx (intentID operationID : string) (expectedStateVersion : Z) (status : OperationStatus)
    (effectStatus : EmergencyEffectStatus) (lastError : string) (beforeSnapshot afterSnapshot : raw) : SM Operation :=
  let! current := getOperation operationID in
  fail_if (negb (op_StateVersion current =? expectedStateVersion)) ErrOptimisticLock ;!
  fail_if (negb (CanTransitionTo (op_Status current) status)) ErrInvalidState ;!
  let! effectStatus := normalizeEmergencyEffectStatus effectStatus in
  let! n := nowUTC in
  let! updated := applyOperationTransition current status expectedStateVersion lastError n in
  finishEmergencySnapshotsTx intentID operationID effectStatus beforeSnapshot afterSnapshot n ;!
  recordOperationStateChange current updated lastError ;!
  ret updated.
Definition Finish (intentID operationID : string) (expectedStateVersion : Z) (status : OperationStatus)
    (effectStatus : EmergencyEffectStatus) (lastError : string) (beforeSnapshot afterSnapshot : raw) : SM Operation :=
  run_tx (commit (finishTx intentID operationID expectedStateVersion status effectStatus lastError beforeSnapshot afterSnapshot)).

(** ** Resolving an unknown effect *)

(** [UPDATE operations SET state_version = state_version + 1, updated_at = ?] *)
Definition bump_row (now : time) (op : Operation) : Operation :=
  op_update op (op_Status op) (op_StateVersion op + 1) (op_LastError op) now (op_TerminalAt op) (op_EffectStatus op).
Definition validateResolveEmergencyCommand (c : ResolveEmergencyEffectCommand) : SM unit :=
  fail_if (bool_decide (rc_OperationID c = "") || (rc_ExpectedStateVersion c <? 1)
           || (negb (bool_decide (rc_EffectStatus c = EmergencyEffectApplied))
               && negb (bool_decide (rc_EffectStatus c = EmergencyEffectNotApplied))))
    (ErrOther "resolve emergency effect: invalid command").
Definition validateEmergencyResolveTarget (current : Operation) : SM unit :=
  fail_if (negb (is_emergency current)
           || (negb (bool_decide (op_Status current = StatusFailed)) && negb (bool_decide (op_Status current = StatusCancelled))
               && negb (bool_decide (op_Status current = StatusTimeout)))) ErrInvalidState.
Definition effect_entry (updated : Operation) (requestID : string) (effect : EmergencyEffectStatus) : OperationTimelineEntry :=
  timeline_entry updated TimelineEntryEmergencyEffectResolved
    (EmergencyEffectTimelineData requestID EmergencyEffectUnknown effect).
Definition resolveEmergencyEffectTx (current : Operation) (intent : EmergencyIntent) (c : ResolveEmergencyEffectCommand)
    (now : time) : SM ResolveEmergencyEffectResult :=
  let! rows := cas_operation (op_ID current) (rc_ExpectedStateVersion c) (bump_row now) in
  fail_if (Nat.eqb rows 0) ErrOptimisticLock ;!
  let! rows := update_intents
    (λ i, bool_decide (ei_OperationID i = op_ID current) && bool_decide (ei_EffectStatus i = EmergencyEffectUnknown))
    (intent_with_result (rc_BeforeSnapshot c) (rc_AfterSnapshot c) (rc_EffectStatus c) now) in
  fail_if (Nat.eqb rows 0) ErrOptimisticLock ;!
  let updatedOperation := bump_row now current in
  let updatedIntent := intent_with_result (rc_BeforeSnapshot c) (rc_AfterSnapshot c) (rc_EffectStatus c) now intent in
  let! timeline := appendTimelineEntry (effect_entry updatedOperation (rc_RequestID c) (rc_EffectStatus c)) in
  ret {| rr_Operation := updatedOperation; rr_Intent := updatedIntent; rr_Timeline := Some timeline; rr_Resolved := true |}.
Definition resolveTx (c : ResolveEmergencyEffectCommand) : SM (outcome ResolveEmergencyEffectResult) :=
  let! current := getOperation (rc_OperationID c) in
  validateEmergencyResolveTarget current ;!
  let! intent := getEmergencyIntentByOperation (rc_OperationID c) in
  if negb (bool_decide (ei_EffectStatus intent = EmergencyEffectUnknown)) then
    ret (Rollback {| rr_Operation := current; rr_Intent := intent; rr_Timeline := None; rr_Resolved := false |})
  else
    fail_if (negb (op_StateVersion current =? rc_ExpectedStateVersion c)) ErrOptimisticLock ;!
    let! t := now in
    let! r := resolveEmergencyEffectTx current intent c t in
    ret (Commit r).
Definition ResolveEmergencyEffect (c : ResolveEmergencyEffectCommand) : SM ResolveEmergencyEffectResult :=
  validateResolveEmergencyCommand c ;!
  retryBusy (run_tx (resolveTx c)).

(** ** Converging an authoritative result *)
Definition nextEmergencyHop (status : OperationStatus) : option OperationStatus :=
  match status with
  | StatusPending | StatusPreflight => Some StatusQueued
  | StatusQueued => Some StatusRunning
  | _ => None
  end.
Definition writeEmergencyIntentEffect (operationID : string) (effectStatus : EmergencyEffectStatus)
    (beforeSnapshot afterSnapshot : raw) (now : time) : SM unit :=
  let! rows := update_intents (λ i, bool_decide (ei_OperationID i = operationID))
                 (intent_with_result beforeSnapshot afterSnapshot effectStatus now) in
  fail_if (Nat.eqb rows 0) ErrNotFound.
(** The terminal hop also projects the effect of the returned operation. *)
Definition hop_result (target : OperationStatus) (lastError : string) (now : time) (terminal : bool)
    (effectStatus : EmergencyEffectStatus) (current : Operation) : Operation :=
  let updated := transition_row target lastError now terminal current in
  if terminal then op_with_effect updated (ProjectEffectStatus (op_OperationType updated) (op_Status updated) "" effectStatus)
  else updated.
Definition emergencyHopTx (current : Operation) (target : OperationStatus) (expectedStateVersion : Z) (terminal : bool)
    (effectStatus : EmergencyEffectStatus) (beforeSnapshot afterSnapshot : raw) (lastError : string) : SM Operation :=
  let! n := nowUTC in
  let! rows := cas_operation (op_ID current) expectedStateVersion (transition_row target lastError n terminal) in
  fail_if (Nat.eqb rows 0) ErrOptimisticLock ;!
  let updated := hop_result target lastError n terminal effectStatus current in
  let! id := new_uuid in
  insertOperationEvent (state_change_event id current updated) ;!
  let! _ := appendTimelineEntry (timeline_entry updated TimelineEntryStateTransition
              (StateTransitionTimelineData "" (op_Status current) (op_Status updated) lastError)) in
  when terminal (
    writeEmergencyIntentEffect (op_ID updated) effectStatus beforeSnapshot afterSnapshot n ;!
    when (needs_error_entry (op_Status updated) lastError)
      (let! _ := appendTimelineEntry (error_entry updated lastError) in ret tt)) ;!
  ret updated.
(** The advance loop [for step.Status != running]; [advance_enough] shows that
    two hops always suffice. *)
Fixpoint advance (fuel : nat) (step : Operation) (version : Z) : SM (Operation * Z) :=
  if bool_decide (op_Status step = StatusRunning) then ret (step, version)
  else
    match fuel with
    | O => throw ErrFuel
    | S fuel =>
        match nextEmergencyHop (op_Status step) with
        | None => throw ErrInvalidState
        | Some target =>
            fail_if (negb (CanTransitionTo (op_Status step) target)) ErrInvalidState ;!
            let! advanced := emergencyHopTx step target version false EffectEmpty RawEmpty RawEmpty "" in
            advance fuel advanced (op_StateVersion advanced)
        end
    end.
Definition advance_fuel : nat := 2.
Arguments advance : simpl never.
Definition abandonConvergenceTaskTx (operationID : string) : SM unit :=
  exec (λ db, set_convergence_tasks
    (delete_where (λ t, bool_decide (ct_OperationID t = operationID) && bool_decide (ct_Status t = PendingPromotion))
       (db_convergence_tasks db)) db).
Definition resolveUnknownEffectTx (current : Operation) (intent : EmergencyIntent) (c : EmergencyConvergeCommand)
    : SM (Operation * EmergencyIntent) :=
  let! n := now in
  let! rows := cas_operation (op_ID current) (vc_ExpectedStateVersion c) (bump_row n) in
  fail_if (Nat.eqb rows 0) ErrOptimisticLock ;!
  writeEmergencyIntentEffect (op_ID current) (vc_EffectStatus c) (vc_BeforeSnapshot c) (vc_AfterSnapshot c) n ;!
  when (bool_decide (vc_EffectStatus c = EmergencyEffectNotApplied)) (abandonConvergenceTaskTx (op_ID current)) ;!
  let bumped := bump_row n current in
  let updatedOperation := op_with_effect bumped (ProjectEffectStatus (op_OperationType bumped) (op_Status bumped) "" (vc_EffectStatus c)) in
  let updatedIntent := intent_with_result (vc_BeforeSnapshot c) (vc_AfterSnapshot c) (vc_EffectStatus c) n intent in
  let! _ := appendTimelineEntry (effect_entry updatedOperation (vc_RequestID c) (vc_EffectStatus c)) in
  ret (updatedOperation, updatedIntent).
Definition validateConvergeCommand (c : EmergencyConvergeCommand) : SM unit :=
  fail_if (bool_decide (vc_OperationID c = "") || bool_decide (vc_IntentID c = "")) (ErrOther "converge emergency result: operation_id and intent_id are required") ;!
  fail_if (negb (IsTerminal (vc_Status c))) (ErrOther "converge emergency result: status is not terminal") ;!
  fail_if (negb (bool_decide (vc_EffectStatus c = EmergencyEffectApplied)) && negb (bool_decide (vc_EffectStatus c = EmergencyEffectNotApplied)))
    (ErrOther "converge emergency result: invalid effect status") ;!
  fail_if (vc_ExpectedStateVersion c <? 1) (ErrOther "converge emergency result: invalid expected state version").
Definition convergeTx (c : EmergencyConvergeCommand) : SM (outcome EmergencyConvergeResult) :=
  let! current := getOperation (vc_OperationID c) in
  fail_if (negb (is_emergency current)) ErrInvalidState ;!
  let! intent := getEmergencyIntentByOperation (vc_OperationID c) in
  if IsTerminal (op_Status current) then
    if bool_decide (ei_EffectStatus intent = vc_EffectStatus c) then
      ret (Rollback {| vres_Operation := current; vres_Intent := intent; vres_Resolved := false |})
    else
      fail_if (negb (bool_decide (ei_EffectStatus intent = EmergencyEffectUnknown))) ErrInvalidState ;!
      fail_if (negb (op_StateVersion current =? vc_ExpectedStateVersion c)) ErrOptimisticLock ;!
      let! updated := resolveUnknownEffectTx current intent c in
      ret (Commit {| vres_Operation := updated.1; vres_Intent := updated.2; vres_Resolved := true |})
  else
    fail_if (negb (op_StateVersion current =? vc_ExpectedStateVersion c)) ErrOptimisticLock ;!
    let! running := advance advance_fuel current (vc_ExpectedStateVersion c) in
    let! finished := emergencyHopTx running.1 (vc_Status c) running.2 true (vc_EffectStatus c)
                       (vc_BeforeSnapshot c) (vc_AfterSnapshot c) (vc_LastError c) in
    when (bool_decide (vc_EffectStatus c = EmergencyEffectNotApplied)) (abandonConvergenceTaskTx (vc_OperationID c)) ;!
    let! updatedIntent := getEmergencyIntentByOperation (vc_OperationID c) in
    ret (Commit {| vres_Operation := finished; vres_Intent := updatedIntent; vres_Resolved := true |}).
Definition ConvergeEmergencyResult (c : EmergencyConvergeCommand) : SM EmergencyConvergeResult :=
  validateConvergeCommand c ;!
  retryBusy (run_tx (convergeTx c)).

(** ** Stuck locks *)
Definition emergencyLockPathSummary (i : EmergencyIntent) : string :=
  let summary := (ei_WorkloadKind i ++ "/" ++ ei_WorkloadName i)%string in
  match ei_Container i with
  | Some c =>
      if negb (bool_decide (c = "")) then (summary ++ ", container=" ++ c)%string
      else match ei_TargetReplicas i with Some n => (summary ++ ", replicas=" ++ pretty n)%string | None => summary end
  | None => match ei_TargetReplicas i with Some n => (summary ++ ", replicas=" ++ pretty n)%string | None => summary end
  end.
Definition observe_timeout (timeout : Z) : Z := if timeout <=? 0 then DefaultEmergencyEffectObserveTimeout else timeout.
(** A stuck intent and its operation's terminal time; both times of the
    comparison are RFC3339 text of whole seconds. *)
Definition stuck_lock (filter : StuckLockFilter) (cutoff : time) (db : DB) (i : EmergencyIntent) : option StuckLock :=
  match intent_operation db i with
  | None => None
  | Some op =>
      match op_TerminalAt op with
      | None => None
      | Some terminalAt =>
          if bool_decide (ei_EffectStatus i = EmergencyEffectUnknown) && bool_decide (ei_LockReleasedAt i = None)
             && IsTerminal (op_Status op) && (terminalAt <? rfc3339 cutoff)
             && (bool_decide (sf_DefinitionID filter = "") || bool_decide (ei_ReleaseDefinitionID i = sf_DefinitionID filter))
             && (bool_decide (sf_CustomerIDs filter = [])
                 || match db_release_definitions db !! ei_ReleaseDefinitionID i with
                    | Some d => bool_decide (rd_CustomerID d ∈ sf_CustomerIDs filter)
                    | None => false
                    end)
          then Some {| sl_Intent := i; sl_TerminalAt := terminalAt; sl_LockPathSummary := emergencyLockPathSummary i |}
          else None
      end
  end.
Definition terminal_le (a b : StuckLock) : Prop := sl_TerminalAt a ≤ sl_TerminalAt b.
#[export] Instance terminal_le_dec a b : Decision (terminal_le a b) := decide (sl_TerminalAt a ≤ sl_TerminalAt b).
Definition ListStuckLocks (filter : StuckLockFilter) : SM (list StuckLock) :=
  let! t := now in
  query (λ db, merge_sort terminal_le
    (omap (stuck_lock filter (t - observe_timeout (sf_ObserveTimeout filter)) db) (db_emergency_intents db))).

Definition releaseEffectStatus (mode : EmergencyReleaseMode) : EmergencyEffectStatus :=
  if bool_decide (mode = EmergencyReleaseNotAppliedProven) then EmergencyEffectNotApplied else EmergencyEffectUnknown.
Definition release_intent (mode : EmergencyReleaseMode) (now : time) (i : EmergencyIntent) : EmergencyIntent :=
  intent_update i (ei_BeforeSnapshot i) (ei_AfterSnapshot i) (ei_DeliveryStatus i) (releaseEffectStatus mode)
    (ei_LastDeliveryAt i) (Some now) (ei_RevertStatus i) (ei_ReconciledByOperationID i) now.
Definition releaseLockTx (c : ReleaseLockCommand) (timeout : Z) : SM ReleaseLockResult :=
  let! intent := getEmergencyIntentByID (lc_IntentID c) in
  let! current := getOperation (ei_OperationID intent) in
  fail_if (negb (IsTerminal (op_Status current))) ErrInvalidState ;!
  fail_if (negb (bool_decide (ei_EffectStatus intent = EmergencyEffectUnknown))) ErrLockNotStuck ;!
  fail_if (bool_decide (is_Some (ei_LockReleasedAt intent))) ErrLockNotStuck ;!
  match op_TerminalAt current with
  | None => throw ErrLockNotStuck
  | Some terminalAt => let! t := now in fail_if (t - terminalAt <=? timeout) ErrLockNotStuck
  end ;!
  let! task := query (task_of_operation (ei_OperationID intent)) in
  fail_if (match task with Some task => bool_decide (ct_Status task = PendingPromotion) | None => false end) ErrConvergencePending ;!
  let! n := now in
  let proven := bool_decide (lc_Mode c = EmergencyReleaseNotAppliedProven) in
  when proven (
    let! rows := cas_operation (op_ID current) (op_StateVersion current) (bump_row n) in
    fail_if (Nat.eqb rows 0) ErrOptimisticLock ;!
    let! _ := appendTimelineEntry
      {| te_ID := ""; te_OperationID := op_ID current; te_Sequence := 0;
         te_OperationStateVersion := op_StateVersion current + 1; te_Kind := TimelineEntryEmergencyEffectResolved;
         te_Data := EmergencyEffectTimelineData "" EmergencyEffectUnknown EmergencyEffectNotApplied; te_CreatedAt := n |} in
    ret tt) ;!
  let! rows := update_intents (λ i, bool_decide (ei_ID i = lc_IntentID c)) (release_intent (lc_Mode c) n) in
  fail_if (Nat.eqb rows 0) ErrLockNotStuck ;!
  ret {| lr_Intent := release_intent (lc_Mode c) n intent;
         lr_Operation := if proven then
             op_update current (op_Status current) (op_StateVersion current + 1) (op_LastError current)
               (op_UpdatedAt current) (op_TerminalAt current)
               (ProjectEffectStatus (op_OperationType current) (op_Status current) "" EmergencyEffectNotApplied)
           else current |}.
Definition mode_is_empty (m : EmergencyReleaseMode) : bool := bool_decide (m = EmergencyReleaseModeOther "").
Definition ReleaseLock (c : ReleaseLockCommand) : SM ReleaseLockResult :=
  fail_if (bool_decide (lc_IntentID c = "") || mode_is_empty (lc_Mode c) || bool_decide (TrimSpace (lc_Reason c) = ""))
    (ErrOther "release emergency lock: intent_id, mode and reason are required") ;!
  fail_if (negb (bool_decide (lc_Mode c = EmergencyReleaseNotAppliedProven)) && negb (bool_decide (lc_Mode c = EmergencyReleaseAuditedOverride)))
    (ErrOther "release emergency lock: invalid mode") ;!
  retryBusy (run_tx (commit (releaseLockTx c (observe_timeout (lc_ObserveTimeout c))))).

(** ** Frames *)
Lemma scanEmergencyIntent_frame R `{!PreOrder R} row : preserves (db_rel R) (scanEmergencyIntent row).
Proof. unfold scanEmergencyIntent. db_preserve. Qed.
#[export] Hint Resolve scanEmergencyIntent_frame : preserve.
Lemma getEmergencyIntentByOperation_frame R `{!PreOrder R} id : preserves (db_rel R) (getEmergencyIntentByOperation id).
Proof. unfold getEmergencyIntentByOperation. db_preserve. Qed.
Lemma getEmergencyIntentByID_frame R `{!PreOrder R} id : preserves (db_rel R) (getEmergencyIntentByID id).
Proof. unfold getEmergencyIntentByID. db_preserve. Qed.
Lemma getConvergenceTaskByOperation_frame R `{!PreOrder R} id : preserves (db_rel R) (getConvergenceTaskByOperation id).
Proof. unfold getConvergenceTaskByOperation. db_preserve. Qed.
#[export] Hint Resolve getEmergencyIntentByOperation_frame getEmergencyIntentByID_frame getConvergenceTaskByOperation_frame : preserve.
Lemma decodeEmergencyReplay_frame R `{!PreOrder R} r : preserves (db_rel R) (decodeEmergencyReplay r).
Proof. unfold decodeEmergencyReplay. db_preserve. Qed.
#[export] Hint Resolve decodeEmergencyReplay_frame : preserve.
Lemma lookupEmergencyReplay_frame {T} (f : DB → T) R `{!PreOrder R} s k h :
  preserves (db_rel (on_table f R)) (lookupEmergencyReplay s k h).
Proof. unfold lookupEmergencyReplay. db_preserve. Qed.
#[export] Hint Extern 1 (preserves (db_rel (on_table _ _)) (lookupEmergencyReplay _ _ _)) =>
  (apply lookupEmergencyReplay_frame; apply _) : preserve.
Lemma writeEmergencyIntentEffect_frame {T} (f : DB → T) R `{!PreOrder R} id e b a n :
  (∀ v db, f (set_emergency_intents v db) = f db) →
  preserves (db_rel (on_table f R)) (writeEmergencyIntentEffect id e b a n).
Proof. intros Hf. unfold writeEmergencyIntentEffect. db_preserve. by apply update_intents_frame. Qed.
#[export] Hint Extern 1 (preserves (db_rel (on_table _ _)) (writeEmergencyIntentEffect _ _ _ _ _)) =>
  (apply writeEmergencyIntentEffect_frame; [apply _ | reflexivity]) : preserve.
Lemma abandonConvergenceTaskTx_frame {T} (f : DB → T) R `{!PreOrder R} id :
  (∀ v db, f (set_convergence_tasks v db) = f db) → preserves (db_rel (on_table f R)) (abandonConvergenceTaskTx id).
Proof. intros Hf. unfold abandonConvergenceTaskTx. by apply preserves_exec_other. Qed.
#[export] Hint Extern 1 (preserves (db_rel (on_table _ _)) (abandonConvergenceTaskTx _)) =>
  (apply abandonConvergenceTaskTx_frame; [apply _ | reflexivity]) : preserve.

Lemma scanEmergencyIntent_Ok row i w w' :
  scanEmergencyIntent row w = (Ok i, w') → row = Some i ∧ validEmergencyEffectStatus (ei_EffectStatus i) = true ∧ w' = w.
Proof. unfold scanEmergencyIntent. intros H. dinv. destruct_bools. done. Qed.
Lemma getEmergencyIntentByOperation_Ok id i w w' :
  getEmergencyIntentByOperation id w = (Ok i, w') →
  intent_of_operation id (w_db w) = Some i ∧ validEmergencyEffectStatus (ei_EffectStatus i) = true ∧ w' = w.
Proof. unfold getEmergencyIntentByOperation. intros H. dinv. by apply scanEmergencyIntent_Ok in H. Qed.

Lemma writeEmergencyIntentEffect_Ok id effect before after n w u w' :
  writeEmergencyIntentEffect id effect before after n w = (Ok u, w') →
  is_Some (intent_of_operation id (w_db w)) ∧
  db_emergency_intents (w_db w') =
    update_where (λ i, bool_decide (ei_OperationID i = id)) (intent_with_result before after effect n)
      (db_emergency_intents (w_db w)).
Proof.
  unfold writeEmergencyIntentEffect. intros H. dinv.
  match goal with H : update_intents _ _ _ = _ |- _ => apply update_intents_Ok in H as [-> ->] end. split; [|done].
  unfold intent_of_operation. destruct (find_row _ _) eqn:E; [by eexists|exfalso].
  rewrite find_row_None in E. apply rows_affected_0 in E. by rewrite E in Hguard.
Qed.

(** ** Hops *)
Definition status_change (e : OperationStateChangedEvent) : OperationStatus * OperationStatus := (ev_OldStatus e, ev_NewStatus e).
(** The legal chain from a live EMERGENCY status to running. *)
Definition emergency_chain (s : OperationStatus) : list (OperationStatus * OperationStatus) :=
  match s with
  | StatusPending => [(StatusPending, StatusQueued); (StatusQueued, StatusRunning)]
  | StatusPreflight => [(StatusPreflight, StatusQueued); (StatusQueued, StatusRunning)]
  | StatusQueued => [(StatusQueued, StatusRunning)]
  | _ => []
  end.

Lemma emergencyHopTx_inv o x target v terminal effect before after err w u w' :
  emergencyHopTx (op_with_effect o x) target v terminal effect before after err w = (Ok u, w') →
  ∃ o0 n, db_operations (w_db w) !! op_ID o = Some o0 ∧ op_StateVersion o0 = v ∧
    u = hop_result target err n terminal effect (op_with_effect o x) ∧
    db_operations (w_db w') = <[op_ID o := transition_row target err n terminal o0]> (db_operations (w_db w)) ∧
    (∃ ev, db_operation_events (w_db w') = db_operation_events (w_db w) ++ [ev] ∧ status_change ev = (op_Status o, target)) ∧
    db_convergence_tasks (w_db w') = db_convergence_tasks (w_db w) ∧
    (if terminal then
       is_Some (intent_of_operation (op_ID o) (w_db w)) ∧
       db_emergency_intents (w_db w') =
         update_where (λ i, bool_decide (ei_OperationID i = op_ID o)) (intent_with_result before after effect n)
           (db_emergency_intents (w_db w))
     else db_emergency_intents (w_db w') = db_emergency_intents (w_db w)).
Proof.
  intros H. unfold emergencyHopTx in H. cbv zeta in H. dinv.
  match goal with H : cas_operation _ _ _ _ = _ |- _ => apply cas_operation_Ok in H as (o0 & Ho & Hv & ->); [|done] end.
  simpl in *. exists o0. eexists. split; [done|]. split; [done|]. split; [done|]. split; [|split; [|split]].
  - by use_frame db_operations.
  - match goal with H : insertOperationEvent _ _ = _ |- _ => apply insertOperationEvent_inv in H as [t Hev] end. simpl in Hev.
    eexists. split; [use_frame db_operation_events; rewrite Hev; reflexivity|]. unfold hop_result. by destruct terminal.
  - by use_frame db_convergence_tasks.
  - destruct terminal; unfold when in *; dinv; [|by use_frame db_emergency_intents].
    match goal with H : writeEmergencyIntentEffect _ _ _ _ _ _ = _ |- _ =>
      apply writeEmergencyIntentEffect_Ok in H as [Hi Hei] end. simpl in *. split.
    + revert Hi. unfold intent_of_operation. by use_frame db_emergency_intents.
    + use_frame db_emergency_intents. rewrite Hei. by use_frame db_emergency_intents.
Qed.

Lemma transition_row_with_effect s e n t o x :
  transition_row s e n t (op_with_effect o x) = op_with_effect (transition_row s e n t o) x.
Proof. reflexivity. Qed.
Lemma hop_result_intermediate s e n o x :
  hop_result s e n false EffectEmpty (op_with_effect o x) = op_with_effect (transition_row s e n false o) x.
Proof. reflexivity. Qed.

(** A successful advance: from the row [o] to a running row, one event per hop,
    nothing else of the operation, its intent or its task changed. *)
Definition advanced (o o' : Operation) (db db' : DB) : Prop :=
  db_operations db' = <[op_ID o := o']> (db_operations db) ∧ op_immutable o' = op_immutable o ∧
  op_Status o' = StatusRunning ∧
  op_StateVersion o' = op_StateVersion o + Z.of_nat (length (emergency_chain (op_Status o))) ∧
  (∃ evs, db_operation_events db' = db_operation_events db ++ evs ∧ status_change <$> evs = emergency_chain (op_Status o)) ∧
  db_emergency_intents db' = db_emergency_intents db ∧ db_convergence_tasks db' = db_convergence_tasks db.

Lemma advanced_trans o o1 o2 s db db1 db2 :
  op_ID o1 = op_ID o → op_immutable o1 = op_immutable o → op_StateVersion o1 = op_StateVersion o + 1 →
  emergency_chain (op_Status o) = (op_Status o, s) :: emergency_chain s → op_Status o1 = s →
  db_operations db1 = <[op_ID o := o1]> (db_operations db) →
  (∃ ev, db_operation_events db1 = db_operation_events db ++ [ev] ∧ status_change ev = (op_Status o, s)) →
  db_convergence_tasks db1 = db_convergence_tasks db → db_emergency_intents db1 = db_emergency_intents db →
  advanced o1 o2 db1 db2 → advanced o o2 db db2.
Proof.
  intros Hid Him Hv Hchain Hs Hops (ev & Hev & Hch) Ht Hi (A1 & A2 & A3 & A4 & (evs & A5 & A6) & A7 & A8).
  split_and!; try congruence.
  - rewrite A1, Hops, Hid. by rewrite insert_insert_eq.
  - rewrite A4, Hv, Hchain, Hs. simpl. lia.
  - exists (ev :: evs). rewrite A5, Hev, <- app_assoc. split; [done|]. rewrite fmap_cons, A6, Hch, Hchain, Hs. done.
Qed.

Lemma advance_inv fuel o x w step' v' w' :
  db_operations (w_db w) !! op_ID o = Some o →
  advance fuel (op_with_effect o x) (op_StateVersion o) w = (Ok (step', v'), w') →
  ∃ o', step' = op_with_effect o' x ∧ v' = op_StateVersion o' ∧ advanced o o' (w_db w) (w_db w').
Proof.
  revert o w. induction fuel as [|fuel IH]; intros o w Ho H; unfold advance in H; fold advance in H; simpl in H;
    destruct (bool_decide (op_Status o = StatusRunning)) eqn:Hrun.
  1, 3: destruct_bools; dinv; exists o; split_and!; [done|done|]; split_and!; try done;
    [by rewrite insert_id|rewrite Hrun; simpl; lia|exists []; by rewrite Hrun, app_nil_r].
  { by dinv. }
  destruct (nextEmergencyHop (op_Status o)) as [target|] eqn:Hhop; dinv.
  match goal with H : emergencyHopTx _ _ _ _ _ _ _ _ _ = (Ok ?u, ?w1) |- _ =>
    apply emergencyHopTx_inv in H as (o0 & n & Ho0 & _ & Hu & Hops & Hev & Htask & Hint) end.
  assert (o0 = o) as -> by congruence. rewrite hop_result_intermediate in Hu. rewrite Hu in H.
  set (o1 := transition_row target "" n false o) in *.
  destruct (IH o1 _ ltac:(rewrite Hops; apply lookup_insert_eq) H) as (o' & -> & -> & Hadv).
  exists o'. split; [done|]. split; [done|].
  eapply (advanced_trans o o1 o' target); [..|exact Hadv]; try done.
  clear -Hhop. destruct (op_Status o); simpl in Hhop; by simplify_eq.
Qed.

(** ** Converging *)

(** A row whose effect column has the projected effect of a database. *)
Lemma buildOperation_with_effect db o : buildOperation db o = op_with_effect o (op_EffectStatus (buildOperation db o)).
Proof. unfold buildOperation. by destruct (intent_of_operation _ _). Qed.

(** No task of the operation is left to promote. *)
Definition no_pending_task (id : string) (db : DB) : Prop :=
  ∀ t, t ∈ db_convergence_tasks db → ct_OperationID t = id → ct_Status t ≠ PendingPromotion.

Lemma abandon_no_pending id w u w' :
  abandonConvergenceTaskTx id w = (Ok u, w') → no_pending_task id (w_db w').
Proof.
  unfold abandonConvergenceTaskTx. intros H. dinv. intros t Ht Hid Hp. simpl in Ht.
  apply delete_where_elem in Ht as [_ Ht]. by rewrite !bool_decide_true in Ht.
Qed.

Lemma intent_of_operation_result id before after effect n db db' :
  db_emergency_intents db' =
    update_where (λ i, bool_decide (ei_OperationID i = id)) (intent_with_result before after effect n) (db_emergency_intents db) →
  intent_of_operation id db' = intent_with_result before after effect n <$> intent_of_operation id db.
Proof.
  intros H. unfold intent_of_operation. rewrite H, find_row_update by done.
  destruct (find_row _ _) as [i|] eqn:E; [|done]. apply find_row_Some in E as [_ Hi]. simpl. by rewrite Hi.
Qed.

Lemma buildOperation_terminal db o i :
  intent_of_operation (op_ID o) db = Some i → IsTerminal (op_Status o) = true →
  buildOperation db o = op_with_effect o (ProjectEffectStatus (op_OperationType o) (op_Status o) "" (ei_EffectStatus i)).
Proof. intros Hi Ht. unfold buildOperation. rewrite Hi. unfold ProjectEffectStatus. by rewrite Ht. Qed.

(** What a converged live operation looks like. *)
Definition converged (c : EmergencyConvergeCommand) (o : Operation) (res : EmergencyConvergeResult) (db db' : DB) : Prop :=
  let id := vc_OperationID c in
  (∃ o', db_operations db' = <[id := o']> (db_operations db) ∧ op_immutable o' = op_immutable o ∧
     op_Status o' = vc_Status c ∧ is_Some (op_TerminalAt o') ∧
     op_StateVersion o' = op_StateVersion o + Z.of_nat (length (emergency_chain (op_Status o))) + 1) ∧
  (∃ evs, db_operation_events db' = db_operation_events db ++ evs ∧
     status_change <$> evs = emergency_chain (op_Status o) ++ [(StatusRunning, vc_Status c)]) ∧
  (∃ i n, intent_of_operation id db = Some i ∧
     db_emergency_intents db' = update_where (λ i, bool_decide (ei_OperationID i = id))
       (intent_with_result (vc_BeforeSnapshot c) (vc_AfterSnapshot c) (vc_EffectStatus c) n) (db_emergency_intents db) ∧
     vres_Intent res = intent_with_result (vc_BeforeSnapshot c) (vc_AfterSnapshot c) (vc_EffectStatus c) n i) ∧
  lookup_operation id db' = Some (vres_Operation res) ∧ intent_of_operation id db' = Some (vres_Intent res) ∧
  (vc_EffectStatus c = EmergencyEffectNotApplied → no_pending_task id db') ∧
  (vc_EffectStatus c ≠ EmergencyEffectNotApplied → db_convergence_tasks db' = db_convergence_tasks db).

Lemma convergeTx_live c w res w' o :
  ops_wf (db_operations (w_db w)) → IsTerminal (vc_Status c) = true →
  vc_EffectStatus c = EmergencyEffectApplied ∨ vc_EffectStatus c = EmergencyEffectNotApplied →
  db_operations (w_db w) !! vc_OperationID c = Some o → IsTerminal (op_Status o) = false →
  convergeTx c w = (Ok (Commit res), w') →
  op_StateVersion o = vc_ExpectedStateVersion c ∧ is_emergency o = true ∧ vres_Resolved res = true ∧ converged c o res (w_db w) (w_db w').
Proof.
  intros Hwf Hterm Heff Ho Hlive H. unfold convergeTx in H. dinv.
  match goal with H : getOperation _ _ = _ |- _ => apply getOperation_Ok in H as (-> & o0 & Ho0 & ->) end.
  assert (o0 = o) as -> by congruence. clear Ho0.
  destruct (buildOperation_fields (w_db w) o) as (Hid & Hst & Hver & Hty & _).
  match goal with H : getEmergencyIntentByOperation _ _ = (Ok ?i, _) |- _ =>
    apply getEmergencyIntentByOperation_Ok in H as (Hi & _ & ->) end.
  rewrite Hst, Hlive in H. dinv.
  match goal with H : getEmergencyIntentByOperation _ _ = (Ok ?i, _) |- _ =>
    apply getEmergencyIntentByOperation_Ok in H as (Hi' & _ & ->) end.
  unfold is_emergency in *. rewrite Hty in *. destruct_bools. rewrite Hver in *.
  match goal with H : _ = vc_ExpectedStateVersion c |- _ => rewrite <- H in * end.
  split; [done|]. split; [by apply bool_decide_eq_true_2|]. split; [done|].
  rewrite buildOperation_with_effect in *. set (x := op_EffectStatus (buildOperation (w_db w) o)) in *.
  match goal with H : advance _ _ _ _ = (Ok ?r, _) |- _ => destruct r as [step v'];
    apply advance_inv in H as (o1 & -> & -> & A1 & A2 & A3 & A4 & (evs & A5 & A6) & A7 & A8); [|by rewrite (Hwf _ _ Ho)] end.
  simpl in *. assert (Hid1 : op_ID o1 = vc_OperationID c) by (rewrite (op_immutable_ID o o1) by done; by apply Hwf).
  rewrite (Hwf _ _ Ho) in A1.
  match goal with H : emergencyHopTx _ _ _ _ _ _ _ _ _ = _ |- _ =>
    apply emergencyHopTx_inv in H as (o2 & n & Ho2 & _ & Hu & Hops & (ev & Hev & Hch) & Htask & Hsome & Hint) end.
  rewrite Hid1 in *. rewrite A1, lookup_insert_eq in Ho2. injection Ho2 as <-. rewrite A1, insert_insert_eq in Hops.
  assert (Hops3 : db_operations (w_db w3) = db_operations (w_db w2)) by (by use_frame db_operations).
  assert (Hev3 : db_operation_events (w_db w3) = db_operation_events (w_db w2)) by (by use_frame db_operation_events).
  assert (Hint3 : db_emergency_intents (w_db w3) = db_emergency_intents (w_db w2)) by (by use_frame db_emergency_intents).
  rewrite Hint, A7 in Hint3. pose proof (intent_of_operation_result _ _ _ _ _ _ _ Hint3) as Ha5.
  rewrite Hi, Hi' in Ha5. injection Ha5 as Ha5.
  split_and!.
  - eexists. rewrite Hops3, Hops. split; [done|]. split; [exact A2|]. split; [done|]. split; [by eexists|]. simpl. lia.
  - exists (evs ++ [ev]). rewrite Hev3, Hev, A5, app_assoc. split; [done|]. by rewrite fmap_app, A6, <- A3, <- Hch.
  - exists a1, n. by split.
  - unfold lookup_operation. rewrite Hops3, Hops, lookup_insert_eq. simpl.
    rewrite (buildOperation_terminal _ _ a5); [|by simpl; rewrite Hid1|done]. rewrite Hu, Ha5. done.
  - done.
  - intros E. rewrite bool_decide_true in Hm2 by done. by eapply abandon_no_pending.
  - intros E. rewrite bool_decide_false in Hm2 by done. simpl in Hm2. dinv. congruence.
Qed.

(** Terminal operations: the effect is replayed, refused or resolved. *)
Lemma convergeTx_terminal c o i w :
  db_operations (w_db w) !! vc_OperationID c = Some o → is_emergency o = true → IsTerminal (op_Status o) = true →
  intent_of_operation (vc_OperationID c) (w_db w) = Some i → ei_EffectStatus i ≠ EmergencyEffectUnknown →
  validEmergencyEffectStatus (ei_EffectStatus i) = true →
  convergeTx c w =
    (if bool_decide (ei_EffectStatus i = vc_EffectStatus c)
     then Ok (Rollback {| vres_Operation := buildOperation (w_db w) o; vres_Intent := i; vres_Resolved := false |})
     else Err ErrInvalidState, w).
Proof.
  intros Ho Hem Hterm Hi Hunk Hvalid. unfold convergeTx, getOperation, lookup_operation, bind, query, gets. rewrite Ho. simpl.
  destruct (buildOperation_fields (w_db w) o) as (_ & Hst & _ & Hty & _).
  unfold is_emergency in *. rewrite Hty, Hem. simpl. unfold ret at 1.
  unfold getEmergencyIntentByOperation, scanEmergencyIntent, bind, query, gets. rewrite Hi. simpl. rewrite Hvalid. simpl.
  rewrite Hst, Hterm. destruct (bool_decide (ei_EffectStatus i = _)); [done|]. by rewrite bool_decide_false by done.
Qed.

Lemma bump_row_with_effect n o x : bump_row n (op_with_effect o x) = op_with_effect (bump_row n o) x.
Proof. reflexivity. Qed.

(** The effect of an operation is decided: it is terminal and its intent has
    the given definite effect. *)
Definition effect_decided (id : string) (effect : EmergencyEffectStatus) (db : DB) : Prop :=
  ∃ o i, db_operations db !! id = Some o ∧ is_emergency o = true ∧ IsTerminal (op_Status o) = true ∧
         intent_of_operation id db = Some i ∧ ei_EffectStatus i = effect.
Definition definite (effect : EmergencyEffectStatus) : Prop :=
  effect = EmergencyEffectApplied ∨ effect = EmergencyEffectNotApplied.
Lemma definite_valid e : definite e → validEmergencyEffectStatus e = true ∧ e ≠ EmergencyEffectUnknown.
Proof. by intros [-> | ->]. Qed.

Lemma validateConvergeCommand_Ok c u w w' :
  validateConvergeCommand c w = (Ok u, w') → w' = w ∧ IsTerminal (vc_Status c) = true ∧ definite (vc_EffectStatus c).
Proof.
  unfold validateConvergeCommand. intros H. dinv. split; [done|]. destruct_bools. split; [done|].
  match goal with H : _ && _ = false |- _ => apply andb_false_iff in H as [H|H] end; destruct_bools; first [by left|by right].
Qed.

Lemma resolveUnknownEffectTx_inv o i c w r w' :
  resolveUnknownEffectTx o i c w = (Ok r, w') →
  ∃ o0 n, db_operations (w_db w) !! op_ID o = Some o0 ∧ op_StateVersion o0 = vc_ExpectedStateVersion c ∧
    db_operations (w_db w') = <[op_ID o := bump_row n o0]> (db_operations (w_db w)) ∧
    db_emergency_intents (w_db w') =
      update_where (λ i, bool_decide (ei_OperationID i = op_ID o))
        (intent_with_result (vc_BeforeSnapshot c) (vc_AfterSnapshot c) (vc_EffectStatus c) n) (db_emergency_intents (w_db w)) ∧
    (vc_EffectStatus c = EmergencyEffectNotApplied → no_pending_task (op_ID o) (w_db w')).
Proof.
  intros H. unfold resolveUnknownEffectTx in H. cbv zeta in H. dinv.
  match goal with H : cas_operation _ _ _ _ = _ |- _ => apply cas_operation_Ok in H as (o0 & Ho & Hv & ->); [|done] end.
  simpl in *. exists o0, (w_clock w 0%nat). split; [done|]. split; [done|].
  match goal with H : writeEmergencyIntentEffect _ _ _ _ _ _ = (_, ?w2) |- _ =>
    pose proof H as Hw; apply writeEmergencyIntentEffect_Ok in Hw as [_ Hei] end. simpl in Hei.
  split; [by use_frame db_operations|]. split.
  - use_frame db_emergency_intents. by rewrite Hei.
  - intros E. rewrite bool_decide_true in * by done. simpl in *.
    match goal with H : abandonConvergenceTaskTx _ _ = _ |- _ => apply abandon_no_pending in H end.
    intros t Ht. match goal with H : no_pending_task _ _ |- _ => apply H end.
    revert Ht. by use_frame db_convergence_tasks.
Qed.

Lemma convergeTx_commit_terminal c o w res w' :
  ops_wf (db_operations (w_db w)) → definite (vc_EffectStatus c) →
  db_operations (w_db w) !! vc_OperationID c = Some o → IsTerminal (op_Status o) = true →
  convergeTx c w = (Ok (Commit res), w') →
  op_StateVersion o = vc_ExpectedStateVersion c ∧ effect_decided (vc_OperationID c) EmergencyEffectUnknown (w_db w) ∧
  (∃ n, db_operations (w_db w') = <[vc_OperationID c := bump_row n o]> (db_operations (w_db w)) ∧
     db_emergency_intents (w_db w') = update_where (λ i, bool_decide (ei_OperationID i = vc_OperationID c))
       (intent_with_result (vc_BeforeSnapshot c) (vc_AfterSnapshot c) (vc_EffectStatus c) n) (db_emergency_intents (w_db w))) ∧
  effect_decided (vc_OperationID c) (vc_EffectStatus c) (w_db w') ∧
  (vc_EffectStatus c = EmergencyEffectNotApplied → no_pending_task (vc_OperationID c) (w_db w')).
Proof.
  intros Hwf Heff Ho Hterm H. unfold convergeTx in H. dinv.
  match goal with H : getOperation _ _ = _ |- _ => apply getOperation_Ok in H as (-> & o0 & Ho0 & ->) end.
  assert (o0 = o) as -> by congruence. clear Ho0.
  destruct (buildOperation_fields (w_db w) o) as (Hid & Hst & Hver & Hty & _).
  match goal with H : getEmergencyIntentByOperation _ _ = (Ok ?i, _) |- _ =>
    apply getEmergencyIntentByOperation_Ok in H as (Hi & _ & ->) end.
  rewrite Hst, Hterm in H. destruct (bool_decide (ei_EffectStatus _ = _)); dinv.
  unfold is_emergency in *. rewrite Hty, Hver in *. destruct_bools.
  match goal with H : resolveUnknownEffectTx _ _ _ _ = _ |- _ =>
    apply resolveUnknownEffectTx_inv in H as (o0 & n & Ho0 & Hv & Hops & Hint & Htask) end.
  rewrite Hid, (Hwf _ _ Ho) in *. assert (o0 = o) as -> by congruence.
  assert (Hem : is_emergency o = true) by by apply bool_decide_eq_true_2.
  split; [done|]. split; [|split; [|split; [|done]]].
  - eexists _, _. by split_and!.
  - exists n. by split.
  - apply intent_of_operation_result in Hint. rewrite Hi in Hint. eexists _, _. rewrite Hops. split; [apply lookup_insert_eq|]. by split_and!.
Qed.

(** Every success decides the effect. *)
Lemma convergeTx_decides c w o res w' :
  ops_wf (db_operations (w_db w)) → IsTerminal (vc_Status c) = true → definite (vc_EffectStatus c) →
  o = Commit res ∨ o = Rollback res → convergeTx c w = (Ok o, w') →
  match o with Commit _ => effect_decided (vc_OperationID c) (vc_EffectStatus c) (w_db w')
             | Rollback _ => w_db w' = w_db w ∧ vres_Resolved res = false ∧ effect_decided (vc_OperationID c) (vc_EffectStatus c) (w_db w) end.
Proof.
  intros Hwf Hterm Heff Hor H.
  assert (Ho : ∃ op, db_operations (w_db w) !! vc_OperationID c = Some op).
  { unfold convergeTx in H. dinv. match goal with H : getOperation _ _ = _ |- _ => apply getOperation_Ok in H as (_ & op & Ho & _) end. eauto. }
  destruct Ho as [op Ho]. destruct (IsTerminal (op_Status op)) eqn:Hop.
  - destruct Hor as [-> | ->]; [by eapply convergeTx_commit_terminal|].
    unfold convergeTx in H. dinv.
    match goal with H : getOperation _ _ = _ |- _ => apply getOperation_Ok in H as (-> & o0 & Ho0 & ->) end.
    assert (o0 = op) as -> by congruence. destruct (buildOperation_fields (w_db w) op) as (_ & Hst & _ & Hty & _).
    match goal with H : getEmergencyIntentByOperation _ _ = (Ok ?i, _) |- _ =>
      apply getEmergencyIntentByOperation_Ok in H as (Hi & _ & ->) end.
    rewrite Hst, Hop in H. unfold is_emergency in *. rewrite Hty in *.
    destruct (bool_decide (ei_EffectStatus _ = _)) eqn:E; dinv. destruct_bools. split; [done|]. split; [done|].
    eexists _, _. split_and!; try done. by apply bool_decide_eq_true_2.
  - destruct Hor as [-> | ->].
    + destruct (convergeTx_live _ _ _ _ _ Hwf Hterm Heff Ho Hop H) as (_ & Hem & _ & Hconv).
      destruct Hconv as ((o' & Hops & Him & Hst & _) & _ & (i & n & _ & _ & Hi) & _ & Hi' & _).
      eexists o', _. rewrite Hops, lookup_insert_eq, Hi', Hst, Hi. split_and!; try done.
      unfold is_emergency in *. by rewrite (f_equal op_OperationType Him : op_OperationType o' = op_OperationType op).
    + exfalso. unfold convergeTx in H. dinv.
      match goal with H : getOperation _ _ = _ |- _ => apply getOperation_Ok in H as (-> & o0 & Ho0 & ->) end.
      assert (o0 = op) as -> by congruence. destruct (buildOperation_fields (w_db w) op) as (_ & Hst & _).
      match goal with H : getEmergencyIntentByOperation _ _ = (Ok ?i, _) |- _ =>
        apply getEmergencyIntentByOperation_Ok in H as (Hi & _ & ->) end.
      rewrite Hst, Hop in H. by dinv.
Qed.

Lemma retryBusy_tx_Ok {A} (m : SM (outcome A)) w a w' :
  retryBusy (run_tx m) w = (Ok a, w') →
  ∃ w0, w_db w0 = w_db w ∧
    (m w0 = (Ok (Commit a), w') ∨ ∃ w1, m w0 = (Ok (Rollback a), w1) ∧ w_db w' = w_db w).
Proof.
  intros H. apply retry_loop_Ok in H as (w0 & Hw0 & H). apply run_tx_Ok in H as [_ [H|(w1 & H & ->)]];
    exists (attempt w0); (split; [done|]); [by left|right; exists w1; by split].
Qed.
(** A validated method whose transaction is tried once and answers. *)
Lemma retryBusy_tx_first {A} (m : SM (outcome A)) w r w1 :
  w_busy w 0%nat = false → m (attempt w) = (r, w1) → (∀ e, r = Err e → isSQLiteBusy e = false) →
  ∃ w', retryBusy (run_tx m) w =
    (match r with Ok (Commit a) | Ok (Rollback a) => Ok a | Err e => Err e end, w') ∧
    w_db w' = match r with Ok (Commit _) => w_db w1 | _ => w_db w end.
Proof.
  intros Hb H Hr. unfold retryBusy, maxRetries. cbn [retry_loop]. unfold run_tx at 1. rewrite Hb, H.
  destruct r as [[a|a]|e]; [by eexists|by eexists|]. rewrite (Hr e) by done. by eexists.
Qed.

Lemma ConvergeEmergencyResult_Ok c w res w' :
  ConvergeEmergencyResult c w = (Ok res, w') →
  IsTerminal (vc_Status c) = true ∧ definite (vc_EffectStatus c) ∧
  ∃ w0, w_db w0 = w_db w ∧
    (convergeTx c w0 = (Ok (Commit res), w') ∨ ∃ w1, convergeTx c w0 = (Ok (Rollback res), w1) ∧ w_db w' = w_db w).
Proof.
  unfold ConvergeEmergencyResult. intros H. apply bind_Ok in H as (u & w1 & Hv & H).
  apply validateConvergeCommand_Ok in Hv as (-> & ? & ?). split; [done|]. split; [done|]. by apply retryBusy_tx_Ok.
Qed.

(** A failed convergence changes nothing. *)
Lemma ConvergeEmergencyResult_db c w e w' : ConvergeEmergencyResult c w = (Err e, w') → w_db w' = w_db w.
Proof.
  unfold ConvergeEmergencyResult. intros H. apply bind_Err in H as [H|(u & w1 & Hv & H)].
  - unfold validateConvergeCommand, bind, fail_if, ret, throw in H. repeat case_match; by simplify_eq.
  - apply validateConvergeCommand_Ok in Hv as (-> & _). by apply retry_loop_Err_db in H.
Qed.
Lemma convergeTx_operation c w r w' : convergeTx c w = (Ok r, w') → ∃ o, db_operations (w_db w) !! vc_OperationID c = Some o.
Proof.
  unfold convergeTx. intros H. dinv. match goal with H : getOperation _ _ = _ |- _ => apply getOperation_Ok in H as (_ & o & Ho & _) end. eauto.
Qed.

(** ** Properties of convergence *)

(** C35: converging a live EMERGENCY operation: from the expected version it
    walks the legal chain to running and then to the reported status, one event
    per hop, all in one transaction; the intent carries the reported effect and
    snapshots; a pending convergence task survives exactly when the change was
    applied; and the result is what later reads return. *)
Theorem converge_live c w res w' o :
  ops_wf (db_operations (w_db w)) →
  ConvergeEmergencyResult c w = (Ok res, w') →
  db_operations (w_db w) !! vc_OperationID c = Some o → IsTerminal (op_Status o) = false →
  op_StateVersion o = vc_ExpectedStateVersion c ∧ op_OperationType o = OperationEmergency ∧
  vres_Resolved res = true ∧ converged c o res (w_db w) (w_db w').
Proof.
  intros Hwf H Ho Hlive. apply ConvergeEmergencyResult_Ok in H as (Hterm & Heff & w0 & Hw0 & H).
  rewrite <- Hw0 in *. destruct H as [H|(w1 & H & _)].
  - destruct (convergeTx_live _ _ _ _ _ Hwf Hterm Heff Ho Hlive H) as (? & Hem & ?).
    unfold is_emergency in Hem. destruct_bools. by split.
  - exfalso. destruct (convergeTx_decides _ _ _ _ _ Hwf Hterm Heff (or_intror eq_refl) H) as (_ & _ & o' & i & Ho' & _ & Ht & _).
    simplify_eq. congruence.
Qed.

(** The effect of an EMERGENCY operation is decided once.  After any
    successful convergence, a later report of the same effect succeeds without
    effect, and a report of the other effect is refused, also without effect. *)
Theorem converge_once c w res w' :
  ops_wf (db_operations (w_db w)) →
  ConvergeEmergencyResult c w = (Ok res, w') →
  ∀ c2 w2, vc_OperationID c2 = vc_OperationID c → vc_IntentID c2 ≠ "" → IsTerminal (vc_Status c2) = true →
    definite (vc_EffectStatus c2) → 1 ≤ vc_ExpectedStateVersion c2 → vc_OperationID c ≠ "" →
    w_db w2 = w_db w' → w_busy w2 0%nat = false →
    ∃ w3, w_db w3 = w_db w2 ∧
      match ConvergeEmergencyResult c2 w2 with
      | (Ok res2, w4) => w4 = w3 ∧ vc_EffectStatus c2 = vc_EffectStatus c ∧ vres_Resolved res2 = false
      | (Err e, w4) => w4 = w3 ∧ vc_EffectStatus c2 ≠ vc_EffectStatus c ∧ e = ErrInvalidState
      end.
Proof.
  intros Hwf H c2 w2 Hid Hint Hterm2 Heff2 Hver2 Hne Hw2 Hb.
  apply ConvergeEmergencyResult_Ok in H as (Hterm & Heff & w0 & Hw0 & H). rewrite <- Hw0 in Hwf.
  assert (Hdec : effect_decided (vc_OperationID c) (vc_EffectStatus c) (w_db w2)).
  { rewrite Hw2. destruct H as [H|(w1 & H & ->)].
    - exact (convergeTx_decides _ _ _ _ _ Hwf Hterm Heff (or_introl eq_refl) H).
    - rewrite <- Hw0. by destruct (convergeTx_decides _ _ _ _ _ Hwf Hterm Heff (or_intror eq_refl) H) as (_ & _ & ?). }
  destruct Hdec as (o & i & Ho & Hem & Hto & Hi & He). destruct (definite_valid _ Heff) as [Hval Hunk].
  pose proof (convergeTx_terminal c2 o i (attempt w2)) as Hrun. rewrite Hid in Hrun. simpl in Hrun.
  specialize (Hrun Ho Hem Hto Hi ltac:(by rewrite He) ltac:(by rewrite He)).
  unfold ConvergeEmergencyResult, validateConvergeCommand, bind, fail_if.
  rewrite !bool_decide_false by (try rewrite Hid; done). simpl. rewrite Hterm2. simpl.
  destruct (definite_valid _ Heff2) as [_ _].
  replace (negb (bool_decide (vc_EffectStatus c2 = EmergencyEffectApplied)) && _) with false
    by (symmetry; by destruct Heff2 as [-> | ->]).
  rewrite (proj2 (Z.ltb_ge _ _)) by done. unfold ret. cbv beta iota.
  apply (retryBusy_tx_first (convergeTx c2) w2 _ _ Hb) in Hrun as (w3 & Hrun & Hdb).
  - rewrite Hrun. exists w3. rewrite He in *. case_bool_decide as E; simpl in *; by split_and!.
  - intros e. case_bool_decide; intros E; [discriminate E|]. injection E as <-. reflexivity.
Qed.

Lemma emergencyHopTx_status current target v e b a err w u w' :
  emergencyHopTx current target v false e b a err w = (Ok u, w') → op_Status u = target.
Proof. intros H. unfold emergencyHopTx in H. cbv zeta in H. by dinv. Qed.
Lemma advance_running n step v w : op_Status step = StatusRunning → advance n step v w = (Ok (step, v), w).
Proof. intros H. destruct n; unfold advance; fold advance; by rewrite bool_decide_true. Qed.
Lemma advance_S n step v :
  advance (S n) step v =
    if bool_decide (op_Status step = StatusRunning) then ret (step, v)
    else match nextEmergencyHop (op_Status step) with
         | None => throw ErrInvalidState
         | Some target =>
             fail_if (negb (CanTransitionTo (op_Status step) target)) ErrInvalidState ;!
             let! advanced := emergencyHopTx step target v false EffectEmpty RawEmpty RawEmpty "" in
             advance n advanced (op_StateVersion advanced)
         end.
Proof. reflexivity. Qed.
Lemma advance_queued n k step v w :
  op_Status step = StatusQueued → advance (S n) step v w = advance (S k) step v w.
Proof.
  intros H. rewrite !advance_S, H. simpl.
  apply bind_ext. intros [] w1 _. apply bind_ext. intros u w2 Hu. apply emergencyHopTx_status in Hu.
  by rewrite !advance_running.
Qed.

(** Two hops always suffice to reach running: with any larger bound the
    advance loop gives the same result, whatever the status it starts from. *)
Theorem advance_enough n step v w :
  (2 ≤ n)%nat → advance n step v w = advance advance_fuel step v w.
Proof.
  intros Hn. destruct n as [|[|n]]; [lia|lia|]. unfold advance_fuel.
  destruct (decide (op_Status step = StatusRunning)) as [Hr|Hr]; [by rewrite !advance_running|].
  rewrite (advance_S (S n)), (advance_S 1), bool_decide_false by done.
  destruct (nextEmergencyHop (op_Status step)) as [target|] eqn:Hhop; [|done].
  apply bind_ext. intros [] w1 _. apply bind_ext. intros u w2 Hu. apply emergencyHopTx_status in Hu.
  destruct (op_Status step); simplify_eq/=; first [by apply advance_queued|by rewrite !advance_running].
Qed.
Definition emergency_op (status : OperationStatus) (version : Z) : Operation :=
  sample_op "op1" "d1" "k1" OperationEmergency status version.
Definition sample_task : ConvergenceTask :=
  {| ct_ID := "t1"; ct_OperationID := "op1"; ct_ReleaseDefinitionID := "d1"; ct_Action := EmergencySetReplicas;
     ct_TargetSummary := "web"; ct_Reason := ""; ct_PromotionPaths := RawJson (JArr [JStr "/replicas"]);
     ct_Status := PendingPromotion; ct_ActiveRevisionID := None; ct_ActiveRevisionStatus := None;
     ct_LastRejectionReason := None; ct_SubmittedAt := nsec; ct_ConvergedAt := None; ct_CreatedAt := nsec |}.
Definition emergency_world (status : OperationStatus) : World :=
  sample_world (set_convergence_tasks [sample_task]
    (set_emergency_intents [sample_intent "i1" "op1" "d1" "queued" EmergencyEffectUnknown]
      (db_with_ops [emergency_op status 2]))).
Definition sample_converge (effect : EmergencyEffectStatus) : EmergencyConvergeCommand :=
  {| vc_IntentID := "i1"; vc_OperationID := "op1"; vc_ExpectedStateVersion := 2; vc_Status := StatusFailed;
     vc_EffectStatus := effect; vc_LastError := "boom"; vc_BeforeSnapshot := RawEmpty; vc_AfterSnapshot := RawEmpty;
     vc_RequestID := "r1" |}.
Lemma advance_enough_witness :
  ∃ o w', advance 7 (emergency_op StatusPending 2) 2 (emergency_world StatusPending) = (Ok (o, 4), w') ∧ op_Status o = StatusRunning.
Proof.
  rewrite (advance_enough 7 (emergency_op StatusPending 2) 2 (emergency_world StatusPending)) by lia.
  destruct (advance advance_fuel _ _ _) as [[[o v]|e] w'] eqn:E; vm_compute in E; [|discriminate E].
  injection E as <- <- <-. eexists _, _. split; reflexivity.
Defined.
Lemma converge_live_witness :
  ∃ res w', ConvergeEmergencyResult (sample_converge EmergencyEffectNotApplied) (emergency_world StatusPending) = (Ok res, w') ∧
    op_StateVersion (vres_Operation res) = 5 ∧ no_pending_task "op1" (w_db w') ∧
    lookup_operation "op1" (w_db w') = Some (vres_Operation res).
Proof.
  destruct (ConvergeEmergencyResult (sample_converge EmergencyEffectNotApplied) (emergency_world StatusPending)) as [[res|e] w'] eqn:E;
    [|vm_compute in E; discriminate E].
  destruct (converge_live _ (emergency_world StatusPending) _ _ (emergency_op StatusPending 2) (sample_ops_wf _) E eq_refl eq_refl)
    as (_ & _ & _ & (o' & Hops & Him & Hst & _ & Hv) & _ & _ & Hl & _ & Hnp & _).
  exists res, w'. split; [reflexivity|]. split; [|split; [by apply Hnp|exact Hl]].
  unfold lookup_operation in Hl. rewrite Hops in Hl. cbn [vc_OperationID sample_converge] in Hl. rewrite lookup_insert_eq in Hl.
  simpl in Hl. injection Hl as <-. destruct (buildOperation_fields (w_db w') o') as (_ & _ & -> & _). exact Hv.
Defined.
Lemma converge_once_witness :
  ∃ res w', ConvergeEmergencyResult (sample_converge EmergencyEffectApplied) (emergency_world StatusQueued) = (Ok res, w') ∧
    ∃ w3, w_db w3 = w_db w' ∧ ConvergeEmergencyResult (sample_converge EmergencyEffectNotApplied) w' = (Err ErrInvalidState, w3).
Proof.
  destruct (ConvergeEmergencyResult (sample_converge EmergencyEffectApplied) (emergency_world StatusQueued)) as [[res|e] w'] eqn:E;
    [|vm_compute in E; discriminate E].
  assert (Hb : w_busy w' 0%nat = false) by (vm_compute in E; injection E as _ <-; reflexivity).
  destruct (converge_once _ (emergency_world StatusQueued) _ _ (sample_ops_wf _) E (sample_converge EmergencyEffectNotApplied) w' eq_refl
    ltac:(discriminate) eq_refl ltac:(by right) ltac:(done) ltac:(discriminate) eq_refl Hb) as (w3 & Hdb & H).
  exists res, w'. split; [reflexivity|]. exists w3. split; [exact Hdb|].
  destruct (ConvergeEmergencyResult (sample_converge EmergencyEffectNotApplied) w') as [[r|e] w4] eqn:E2.
  - destruct H as (_ & H & _). discriminate H.
  - destruct H as (-> & _ & ->). reflexivity.
Defined.

(** ** Properties of lock release *)
Lemma getEmergencyIntentByID_Ok id i w w' :
  getEmergencyIntentByID id w = (Ok i, w') →
  find_row (λ i, bool_decide (ei_ID i = id)) (db_emergency_intents (w_db w)) = Some i ∧ w' = w.
Proof. unfold getEmergencyIntentByID. intros H. dinv. by apply scanEmergencyIntent_Ok in H as (? & _ & ?). Qed.

(** An intent may be released: its operation ended longer ago than the observe
    window, its effect is unknown, its lock is held and nothing is to be promoted. *)
Definition releasable (id : string) (now timeout : Z) (i : EmergencyIntent) (o : Operation) (db : DB) : Prop :=
  find_row (λ i, bool_decide (ei_ID i = id)) (db_emergency_intents db) = Some i ∧
  db_operations db !! ei_OperationID i = Some o ∧ IsTerminal (op_Status o) = true ∧
  ei_EffectStatus i = EmergencyEffectUnknown ∧ ei_LockReleasedAt i = None ∧
  (∃ t, op_TerminalAt o = Some t ∧ timeout < now - t) ∧
  (∀ task, task_of_operation (ei_OperationID i) db = Some task → ct_Status task ≠ PendingPromotion).

Lemma releaseLockTx_inv c timeout w res w' :
  ops_wf (db_operations (w_db w)) →
  releaseLockTx c timeout w = (Ok res, w') →
  ∃ i o n, releasable (lc_IntentID c) (w_clock w 0%nat) timeout i o (w_db w) ∧
    db_emergency_intents (w_db w') =
      update_where (λ i, bool_decide (ei_ID i = lc_IntentID c)) (release_intent (lc_Mode c) n) (db_emergency_intents (w_db w)) ∧
    db_operations (w_db w') =
      (if bool_decide (lc_Mode c = EmergencyReleaseNotAppliedProven)
       then <[ei_OperationID i := bump_row n o]> (db_operations (w_db w)) else db_operations (w_db w)) ∧
    db_convergence_tasks (w_db w') = db_convergence_tasks (w_db w).
Proof.
  intros Hwf H. unfold releaseLockTx in H. cbv zeta in H. dinv.
  match goal with H : getEmergencyIntentByID _ _ = _ |- _ => apply getEmergencyIntentByID_Ok in H as (Hi & ->) end.
  match goal with H : getOperation _ _ = _ |- _ => apply getOperation_Ok in H as (-> & o & Ho & ->) end.
  destruct (buildOperation_fields (w_db w) o) as (Hid & Hst & Hver & _ & Htat & _).
  rewrite Hid, Hst, Hver, Htat, (Hwf _ _ Ho) in *.
  destruct (op_TerminalAt o) as [t|] eqn:Ht; dinv.
  match goal with H : update_intents _ _ _ = _ |- _ => apply update_intents_Ok in H as [-> ->] end.
  destruct_bools. simpl in *.
  match goal with H : context [task_of_operation _ _] |- _ => rename H into Htask end.
  exists a, o, (w_clock w 1%nat). split; [|split; [|split]].
  - split_and!; try done.
    + destruct (ei_LockReleasedAt a); [by destruct Hguard1|done].
    + by eexists.
    + intros task E. rewrite E in Htask. by destruct_bools.
  - by use_frame db_emergency_intents.
  - destruct (bool_decide _); unfold when in *; dinv; [|done].
    match goal with H : cas_operation _ _ _ _ = _ |- _ => apply cas_operation_Ok in H as (o' & Ho' & _ & ->); [|done] end.
    simpl in Ho'. assert (o' = o) as -> by congruence. by use_frame db_operations.
  - by use_frame db_convergence_tasks.
Qed.

Lemma ReleaseLock_Ok c w res w' :
  ReleaseLock c w = (Ok res, w') →
  ∃ w0, w_db w0 = w_db w ∧ releaseLockTx c (observe_timeout (lc_ObserveTimeout c)) w0 = (Ok res, w').
Proof.
  unfold ReleaseLock. intros H. dinv. apply retry_loop_Ok in H as (w0 & Hw0 & H).
  apply run_commit_Ok in H as [_ H]. by exists (attempt w0).
Qed.
Lemma ReleaseLock_Err c w e w' : ReleaseLock c w = (Err e, w') → w_db w' = w_db w.
Proof.
  unfold ReleaseLock, bind, fail_if. destruct (_ || _); [by intros [= _ <-]|]. simpl.
  destruct (_ && _); [by intros [= _ <-]|]. simpl. apply retry_loop_Err_db.
Qed.

(** A lock is released only when its operation ended longer ago than the
    observe window with an unknown effect and nothing left to promote; the
    release stamps the intent and, when the change is proven not applied, records
    that effect and bumps the operation; and a lock is released at most once:
    a later release of the same intent always fails and changes nothing. *)
Theorem ReleaseLock_guarded c w res w' :
  ops_wf (db_operations (w_db w)) →
  ReleaseLock c w = (Ok res, w') →
  (∃ i o now n, releasable (lc_IntentID c) now (observe_timeout (lc_ObserveTimeout c)) i o (w_db w) ∧
     db_emergency_intents (w_db w') =
       update_where (λ i, bool_decide (ei_ID i = lc_IntentID c)) (release_intent (lc_Mode c) n) (db_emergency_intents (w_db w)) ∧
     db_operations (w_db w') =
       (if bool_decide (lc_Mode c = EmergencyReleaseNotAppliedProven)
        then <[ei_OperationID i := bump_row n o]> (db_operations (w_db w)) else db_operations (w_db w)) ∧
     db_convergence_tasks (w_db w') = db_convergence_tasks (w_db w)) ∧
  ∀ c2 w2 r w3, lc_IntentID c2 = lc_IntentID c → w_db w2 = w_db w' → ReleaseLock c2 w2 = (r, w3) →
    (∃ e, r = Err e) ∧ w_db w3 = w_db w2.
Proof.
  intros Hwf H. apply ReleaseLock_Ok in H as (w0 & Hw0 & H). rewrite <- Hw0 in *.
  destruct (releaseLockTx_inv _ _ _ _ _ Hwf H) as (i & o & n & Hrel & Hints & Hops & Htask). split; [eauto 10|].
  intros c2 w2 r w3 Hid Hw2 H2. destruct r as [res2|e]; [exfalso|split; [by eexists|by apply ReleaseLock_Err in H2]].
  apply ReleaseLock_Ok in H2 as (w4 & Hw4 & H2).
  assert (Hwf2 : ops_wf (db_operations (w_db w4))).
  { rewrite Hw4, Hw2, Hops. destruct (bool_decide _); [|done].
    destruct Hrel as (_ & Ho & _). revert Hwf. apply (ops_rel_insert op_legal _ o); [done|by apply rtc_refl|done]. }
  destruct (releaseLockTx_inv _ _ _ _ _ Hwf2 H2) as (i2 & o2 & n2 & Hrel2 & _).
  destruct Hrel as (Hi & _), Hrel2 as (Hi2 & _ & _ & _ & Hnone & _).
  rewrite Hw4, Hw2, Hints, Hid, find_row_update, Hi in Hi2 by done. apply find_row_Some in Hi as [_ Hi].
  simpl in Hi2. rewrite Hi in Hi2. by injection Hi2 as <-.
Qed.
Definition release_command (mode : EmergencyReleaseMode) : ReleaseLockCommand :=
  {| lc_IntentID := "i1"; lc_Mode := mode; lc_Reason := "checked"; lc_Evidence := ""; lc_ObserveTimeout := 60 * nsec |}.
Definition stuck_world : World :=
  sample_world (set_emergency_intents [sample_intent "i1" "op1" "d1" "delivered" EmergencyEffectUnknown]
    (db_with_ops [op_update (emergency_op StatusTimeout 4) StatusTimeout 4 "" (200 * nsec) (Some (200 * nsec)) EffectEmpty])).
Lemma ReleaseLock_guarded_witness :
  ∃ res w', ReleaseLock (release_command EmergencyReleaseAuditedOverride) stuck_world = (Ok res, w') ∧
    ei_EffectStatus (lr_Intent res) = EmergencyEffectUnknown ∧
    ∃ e, (ReleaseLock (release_command EmergencyReleaseAuditedOverride) w').1 = Err e.
Proof.
  destruct (ReleaseLock (release_command EmergencyReleaseAuditedOverride) stuck_world) as [[res|e] w'] eqn:E;
    [|vm_compute in E; discriminate E].
  destruct (ReleaseLock_guarded _ stuck_world _ _ (sample_ops_wf _) E) as [_ Hagain].
  exists res, w'. split; [reflexivity|]. split; [vm_compute in E; injection E as <- _; reflexivity|].
  destruct (ReleaseLock (release_command EmergencyReleaseAuditedOverride) w') as [r w3] eqn:E2.
  exact (proj1 (Hagain _ _ _ _ eq_refl eq_refl E2)).
Defined.

(** ** The convergence task of a change that was not applied *)
Abbreviation keeps_tasks m := (preserves (db_rel (on_table db_convergence_tasks eq)) m).
Lemma normalizeEmergencyEffectStatus_frame R `{!PreOrder R} e : preserves (db_rel R) (normalizeEmergencyEffectStatus e).
Proof. unfold normalizeEmergencyEffectStatus. db_preserve. Qed.
#[export] Hint Resolve normalizeEmergencyEffectStatus_frame : preserve.
Lemma Finish_keeps_tasks i o v s e l b a : keeps_tasks (Finish i o v s e l b a).
Proof. unfold Finish, finishTx, finishEmergencySnapshotsTx. db_preserve. Qed.
Lemma Resolve_keeps_tasks c : keeps_tasks (ResolveEmergencyEffect c).
Proof.
  unfold ResolveEmergencyEffect, resolveTx, resolveEmergencyEffectTx, validateResolveEmergencyCommand, validateEmergencyResolveTarget.
  db_preserve.
Qed.
Lemma Cancel_keeps_tasks c : keeps_tasks (Cancel c).
Proof. unfold Cancel, cancelInTx. db_preserve. Qed.
Lemma ReleaseLock_keeps_tasks c : keeps_tasks (ReleaseLock c).
Proof. unfold ReleaseLock, releaseLockTx. db_preserve. Qed.
Lemma converge_decided_keeps_db c w effect :
  effect_decided (vc_OperationID c) effect (w_db w) → definite effect → w_db (ConvergeEmergencyResult c w).2 = w_db w.
Proof.
  intros (o & i & Ho & Hem & Hto & Hi & He) Hdef.
  destruct (ConvergeEmergencyResult c w) as [[res|e] w'] eqn:E; simpl.
  - apply ConvergeEmergencyResult_Ok in E as (_ & _ & w0 & Hw0 & E).
    destruct (definite_valid _ Hdef) as [Hval Hunk].
    rewrite (convergeTx_terminal c o i w0) in E by (rewrite ?Hw0, ?He; done).
    destruct E as [E|(w1 & _ & E)]; [|done]. by destruct (bool_decide _).
  - by apply ConvergeEmergencyResult_db in E.
Qed.

(** Only a convergence that decides the effect removes a convergence task.
    Finishing (also with NOT_APPLIED), resolving, cancelling and releasing the
    lock leave every task in place, and once the effect of the operation is
    decided a convergence leaves them too: the pending task of a change that was
    finished as not applied can then never be removed by this store. *)
Theorem not_applied_task_survives w :
  (∀ i o v s e l b a, db_convergence_tasks (w_db (Finish i o v s e l b a w).2) = db_convergence_tasks (w_db w)) ∧
  (∀ c, db_convergence_tasks (w_db (ResolveEmergencyEffect c w).2) = db_convergence_tasks (w_db w)) ∧
  (∀ c, db_convergence_tasks (w_db (Cancel c w).2) = db_convergence_tasks (w_db w)) ∧
  (∀ c, db_convergence_tasks (w_db (ReleaseLock c w).2) = db_convergence_tasks (w_db w)) ∧
  (∀ c effect, effect_decided (vc_OperationID c) effect (w_db w) → definite effect →
     db_convergence_tasks (w_db (ConvergeEmergencyResult c w).2) = db_convergence_tasks (w_db w)).
Proof.
  assert (Hkeep : ∀ A (m : SM A), keeps_tasks m → db_convergence_tasks (w_db (m w).2) = db_convergence_tasks (w_db w)).
  { intros A m H. destruct (m w) as [r w'] eqn:E. symmetry. exact (H _ _ _ E). }
  split_and!; intros.
  - apply Hkeep, Finish_keeps_tasks.
  - apply Hkeep, Resolve_keeps_tasks.
  - apply Hkeep, Cancel_keeps_tasks.
  - apply Hkeep, ReleaseLock_keeps_tasks.
  - by rewrite (converge_decided_keeps_db c w effect).
Qed.
(** A running change finished as NOT_APPLIED: its path stays blocked, and the
    authoritative report that follows does not unblock it. *)
Definition finished_world : World :=
  (Finish "i1" "op1" 2 StatusFailed EmergencyEffectNotApplied "boom" RawEmpty RawEmpty (emergency_world StatusRunning)).2.
Lemma not_applied_task_survives_witness :
  effect_decided "op1" EmergencyEffectNotApplied (w_db finished_world) ∧
  result (HasPendingPromotionPath "d1" ["/replicas"] finished_world) = Some true ∧
  db_convergence_tasks (w_db (ConvergeEmergencyResult (sample_converge EmergencyEffectNotApplied) finished_world).2) = [sample_task].
Proof.
  assert (Hdec : effect_decided "op1" EmergencyEffectNotApplied (w_db finished_world)).
  { eexists _, _. split; [vm_compute; reflexivity|]. split; [reflexivity|]. split; [reflexivity|].
    split; [vm_compute; reflexivity|reflexivity]. }
  split; [exact Hdec|]. split; [vm_compute; reflexivity|].
  destruct (not_applied_task_survives finished_world) as (_ & _ & _ & _ & H).
  rewrite (H (sample_converge EmergencyEffectNotApplied) EmergencyEffectNotApplied Hdec) by (by right).
  destruct (not_applied_task_survives (emergency_world StatusRunning)) as (H2 & _).
  unfold finished_world. rewrite H2. reflexivity.
Defined.

(** ** The acknowledgement contract, and the conflict relation *)
#[export] Instance emergency_ack_laws : AckTableLaws emergency_ack_table.
Proof.
  split; [| |done|done].
  - intros id n db o c p. simpl.
    rewrite find_row_update by done. destruct (find_row _ _) as [i|] eqn:E; simpl; [|done].
    apply find_row_Some in E as [_ Hid]. unfold awaits_emergency_ack. rewrite Hid. simpl. intros [= <- <- <-].
    by destruct (bool_decide (ei_DeliveryStatus i = "persisted")) eqn:Hp; simpl; rewrite ?Hp.
  - intros id db o c. simpl. destruct (find_row _ _) as [i|] eqn:E; [|done]. intros [= _ _ Hp] H0.
    apply find_row_Some in E as [Hi Hid]. rewrite rows_affected_0 in H0. specialize (H0 _ Hi).
    unfold awaits_emergency_ack in H0. by rewrite Hid, Hp in H0.
Qed.

Lemma existsb_shared_comm (l k : list string) :
  existsb (λ x, bool_decide (x ∈ l)) k = existsb (λ x, bool_decide (x ∈ k)) l.
Proof.
  apply eq_true_iff_eq. rewrite !existsb_elem.
  split; intros (x & Hx & Hin); exists x; apply bool_decide_eq_true in Hin; (split; [done|by apply bool_decide_eq_true_2]).
Qed.
Lemma emergencyIntentsConflict_sym a b : emergencyIntentsConflict a b = emergencyIntentsConflict b a.
Proof.
  unfold emergencyIntentsConflict.
  rewrite (bool_decide_ext (ei_WorkloadKind a = ei_WorkloadKind b) (ei_WorkloadKind b = ei_WorkloadKind a)) by done.
  rewrite (bool_decide_ext (ei_WorkloadName a = ei_WorkloadName b) (ei_WorkloadName b = ei_WorkloadName a)) by done.
  destruct (_ || _); [done|].
  rewrite (andb_comm (bool_decide (ei_Action a = EmergencySetReplicas))).
  rewrite (andb_comm (bool_decide (ei_Action a = EmergencySetContainerImage))).
  rewrite (orb_comm (negb (bool_decide (ei_Action a = EmergencySetApprovedAnnotations)))).
  destruct (_ && _); [done|]. destruct (_ && _).
  - destruct (ei_Container a), (ei_Container b); try done. by apply bool_decide_ext.
  - destruct (_ || _); [done|]. destruct (annotation_keys _), (annotation_keys _); try done. apply existsb_shared_comm.
Qed.
