(* ===== verification/ValuesLifecycle.v ===== *)
(** * Values revisions: drafts, approval and convergence bindings
    (internal/store/values_convergence.go and, in internal/store/sqlite,
    values_approval.go, values_lifecycle.go, prepare_sessions.go)

    Submit, Approve and Reject run one transaction over the revision, the
    convergence tasks bound to it, the definition's pointer, the decision log,
    the two outboxes and the idempotency record.  CreateDraft consumes a prepare
    session and binds its tasks; Discard releases them.  A record stored under an
    idempotency scope is decoded as what the writers of that scope store. *)
From S2P Require Import Prelude Utf8 Json JsonText Redact Hash Domain Database ValuesRows Timeline Idempotency OperationStore EmergencyStore.
From stdpp Require Import pretty.
#[local] Open Scope Z_scope.

(** ** Locked paths (values_convergence.go) *)
Definition opt_nonempty (o : option string) : bool := match o with Some s => negb (bool_decide (s = "")) | None => false end.
(** The paths of one task, in order, without those already collected. *)
Fixpoint collect_paths (seen paths : list string) (l : list string) : option (list string * list string) :=
  match l with
  | [] => Some (seen, paths)
  | p :: l =>
      if bool_decide (p = "") then None
      else if bool_decide (p ∈ seen) then collect_paths seen paths l
      else collect_paths (p :: seen) (paths ++ [p]) l
  end.
(** [selected]: the last task with the id wins, as in the map the code builds. *)
Definition selected_task (tasks : list ConvergenceTask) (id : string) : option ConvergenceTask :=
  last (filter (λ t, ct_ID t = id) tasks).
Fixpoint locked_paths_loop (tasks : list ConvergenceTask) (ids seenIDs seenPaths paths : list string) : res error (list string) :=
  match ids with
  | [] => Ok paths
  | id :: ids =>
      if bool_decide (id = "") then Err ErrConvergenceConflict
      else if bool_decide (id ∈ seenIDs) then Err ErrConvergenceConflict
      else
        match selected_task tasks id with
        | None => Err ErrConvergenceConflict
        | Some task =>
            if negb (bool_decide (ct_Status task = PendingPromotion)) then Err ErrConvergenceConflict
            else if opt_nonempty (ct_ActiveRevisionID task) then Err ErrConvergenceRevisionExists
            else
              match decode_strings (ct_PromotionPaths task) with
              | None => Err (ErrOther "decode convergence promotion paths")
              | Some taskPaths =>
                  match collect_paths seenPaths paths taskPaths with
                  | None => Err ErrConvergenceConflict
                  | Some (seenPaths, paths) => locked_paths_loop tasks ids (id :: seenIDs) seenPaths paths
                  end
              end
        end
  end.
Definition sort_strings (l : list string) : list string := merge_sort string_leb l.
Definition LockedPathsForTasks (taskIDs : list string) (tasks : list ConvergenceTask) : res error (list string) :=
  match locked_paths_loop tasks taskIDs [] [] [] with
  | Ok paths => Ok (sort_strings paths)
  | Err e => Err e
  end.

(** The bytes hashed for a set of paths: each with its length as 8 bytes. *)
Definition path_record (path : string) : list Z :=
  Sha256.be_bytes 8 (Z.of_nat (String.length path)) ++ byte_values path.
Definition LockedPathHash (paths : list string) : string :=
  hex_EncodeToString (Sum256 (concat (path_record <$> sort_strings paths))).

Fixpoint HasActiveConvergencePathConflict (taskIDs paths : list string) (tasks : list ConvergenceTask) : res error bool :=
  match tasks with
  | [] => Ok false
  | task :: tasks =>
      if bool_decide (ct_ID task ∈ taskIDs) then HasActiveConvergencePathConflict taskIDs paths tasks
      else if negb (bool_decide (ct_Status task = PendingPromotion)) || negb (opt_nonempty (ct_ActiveRevisionID task))
      then HasActiveConvergencePathConflict taskIDs paths tasks
      else
        match decode_strings (ct_PromotionPaths task) with
        | None => Err (ErrOther "decode active convergence promotion paths")
        | Some taskPaths =>
            if existsb (λ p, bool_decide (p ∈ paths)) taskPaths then Ok true
            else HasActiveConvergencePathConflict taskIDs paths tasks
        end
  end.
Definition lift_res {A} (r : res error A) : SM A := match r with Ok a => ret a | Err e => throw e end.

(** ** Approval (values_approval.go) *)
Definition idempotencyTTL : Z := 24 * 3600 * nsec.
Record approvalTransition := {
  at_action : ValuesDecisionAction; at_expectedFrom : ValuesStatus; at_to : ValuesStatus; at_eventType : string;
}.
Definition is_submit (t : approvalTransition) : bool := bool_decide (at_action t = ValuesDecisionSubmitted).
Definition is_approve (t : approvalTransition) : bool := bool_decide (at_action t = ValuesDecisionApproved).
Definition is_reject (t : approvalTransition) : bool := bool_decide (at_action t = ValuesDecisionRejected).

(** A result as it is marshalled: a [json.RawMessage] has to be valid JSON, and
    an empty one is written as null. *)
Definition with_document (d : raw) (r : ValuesRevision) : ValuesRevision :=
  {| vr_ID := vr_ID r; vr_ReleaseDefinitionID := vr_ReleaseDefinitionID r; vr_Version := vr_Version r;
     vr_StateVersion := vr_StateVersion r; vr_Status := vr_Status r; vr_CanonicalDocument := d; vr_Digest := vr_Digest r;
     vr_ParentRevisionID := vr_ParentRevisionID r; vr_SecretRefs := vr_SecretRefs r; vr_CreatedByUserID := vr_CreatedByUserID r;
     vr_SubmittedAt := vr_SubmittedAt r; vr_DecidedAt := vr_DecidedAt r; vr_CreatedAt := vr_CreatedAt r;
     vr_UpdatedAt := vr_UpdatedAt r; vr_ConvergenceTaskIds := vr_ConvergenceTaskIds r; vr_LockedPaths := vr_LockedPaths r |}.
Definition marshal_revision (r : ValuesRevision) : option ValuesRevision :=
  match vr_CanonicalDocument r with
  | RawText _ => None
  | RawEmpty => Some (with_document (RawJson JNull) r)
  | RawJson _ => Some r
  end.
Definition with_revision (revision : ValuesRevision) (replayed : bool) (r : ValuesApprovalResult) : ValuesApprovalResult :=
  {| var_Revision := revision; var_PreviousState := var_PreviousState r; var_NewState := var_NewState r;
     var_DecidedAt := var_DecidedAt r; var_SupersededRevisionIDs := var_SupersededRevisionIDs r; var_Replayed := replayed |}.
Definition marshal_approval (r : ValuesApprovalResult) : option ValuesApprovalResult :=
  (λ revision, with_revision revision (var_Replayed r) r) <$> marshal_revision (var_Revision r).
Definition decode_approval (ref : response_ref) : SM ValuesApprovalResult :=
  match ref with RefApproval r => ret r | _ => throw (ErrOther "decode values approval replay") end.

Definition lookupIdempotency (command : ValuesApprovalCommand) : SM (option ValuesApprovalResult) :=
  if bool_decide (vac_IdempotencyKeyHash command = "") then ret None
  else
    let! t := now in
    let! record := not_found_is_none
      (loadActiveIdempotencyRecord (vac_IdempotencyScope command) (vac_IdempotencyKeyHash command) t) in
    match record with
    | None => ret None
    | Some record =>
        fail_if (negb (bool_decide (id_RequestHash record = vac_RequestHash command))) ErrIdempotencyConflict ;!
        let! result := decode_approval (id_ResponseRef record) in ret (Some result)
    end.
Definition insertIdempotency (command : ValuesApprovalCommand) (result : ValuesApprovalResult) (expiresAt : time) : SM (option ValuesApprovalResult) :=
  if bool_decide (vac_IdempotencyKeyHash command = "") then ret None
  else
    match marshal_approval result with
    | None => throw (ErrOther "encode values approval response")
    | Some stored =>
        let! t := now in
        let! got := createOrGetIdempotencyRecord
          {| id_Scope := vac_IdempotencyScope command; id_Key := vac_IdempotencyKeyHash command;
             id_RequestHash := vac_RequestHash command; id_ResponseRef := RefApproval stored; id_ExpiresAt := expiresAt |} t in
        if got.2 then ret None
        else let! replay := decode_approval (id_ResponseRef got.1) in ret (Some (with_revision (var_Revision replay) true replay))
    end.

Definition another_in (status : ValuesStatus) (revision r : ValuesRevision) : bool :=
  ofDefinition (vr_ReleaseDefinitionID revision) r && inStatus status r && negb (byID (vr_ID revision) r).
Definition ensureNoPendingRevision (revision : ValuesRevision) : SM unit :=
  let! pending := query (λ db, existsb (another_in ValuesStatusPendingApproval revision) (db_values_revisions db)) in
  fail_if pending (ApprovalPendingError (vr_ReleaseDefinitionID revision)).

Definition set_state (status : ValuesStatus) (submitted decided : option time) (now : time) (r : ValuesRevision) : ValuesRevision :=
  {| vr_ID := vr_ID r; vr_ReleaseDefinitionID := vr_ReleaseDefinitionID r; vr_Version := vr_Version r;
     vr_StateVersion := vr_StateVersion r + 1; vr_Status := status; vr_CanonicalDocument := vr_CanonicalDocument r;
     vr_Digest := vr_Digest r; vr_ParentRevisionID := vr_ParentRevisionID r; vr_SecretRefs := vr_SecretRefs r;
     vr_CreatedByUserID := vr_CreatedByUserID r;
     vr_SubmittedAt := match submitted with Some t => Some t | None => vr_SubmittedAt r end;
     vr_DecidedAt := match decided with Some t => Some t | None => vr_DecidedAt r end;
     vr_CreatedAt := vr_CreatedAt r; vr_UpdatedAt := now; vr_ConvergenceTaskIds := vr_ConvergenceTaskIds r;
     vr_LockedPaths := vr_LockedPaths r |}.
(** [ORDER BY version, id] *)
Definition older (a b : ValuesRevision) : Prop := newer b a.
#[export] Instance older_dec a b : Decision (older a b).
Proof. unfold older. apply _. Defined.
Definition supersedeApprovedRevisions (revision : ValuesRevision) (now : time) : SM (list string) :=
  let p := another_in ValuesStatusApproved revision in
  let! ids := query (λ db, vr_ID <$> merge_sort older (filter (λ r, p r = true) (db_values_revisions db))) in
  if bool_decide (ids = []) then ret ids
  else
    let! count := query (λ db, rows_affected p (db_values_revisions db)) in
    exec (λ db, set_values_revisions (update_where p (set_state ValuesStatusSuperseded None (Some now) now) (db_values_revisions db)) db) ;!
    fail_if (negb (count =? length ids)%nat) ErrOptimisticLock ;!
    ret ids.

Definition updateRevisionState (revision : ValuesRevision) (t : approvalTransition) (expectedVersion : Z) (now : time) : SM ValuesRevision :=
  let submittedAt := if is_submit t then Some now else None in
  let decidedAt := if is_approve t || is_reject t then Some now else None in
  let p r := byID (vr_ID revision) r && inStatus (at_expectedFrom t) r && (vr_StateVersion r =? expectedVersion) in
  let! rows := query (λ db, rows_affected p (db_values_revisions db)) in
  let! clash := query (λ db, exclusive_status (at_to t) && existsb (another_in (at_to t) revision) (db_values_revisions db)) in
  fail_if ((0 <? rows)%nat && clash)
    (if is_submit t then ApprovalPendingError (vr_ReleaseDefinitionID revision) else ErrOther "update values revision state") ;!
  exec (λ db, set_values_revisions (update_where p (set_state (at_to t) submittedAt decidedAt now) (db_values_revisions db)) db) ;!
  if negb (rows =? 1)%nat then
    let! current := getValues (vr_ID revision) in
    throw (StateVersionConflictError expectedVersion (vr_StateVersion current))
  else getValues (vr_ID revision).

Definition insertDecision (decision : ValuesRevisionDecision) : SM unit :=
  let! duplicate := query (λ db, existsb (λ d, bool_decide (vd_ID d = vd_ID decision)) (db_values_revision_decisions db)) in
  fail_if duplicate (ErrOther "insert values revision decision") ;!
  check_fk (λ db, existsb (byID (vd_RevisionID decision)) (db_values_revisions db)) "insert values revision decision" ;!
  exec (λ db, set_values_revision_decisions (db_values_revision_decisions db ++ [decision]) db).

(** A Go map and its marshalled form: the keys in byte order. *)
Abbreviation payload := (gmap string json).
Definition key_le (a b : string * json) : Prop := string_leb a.1 b.1 = true.
#[export] Instance key_le_dec a b : Decision (key_le a b).
Proof. unfold key_le. apply _. Defined.
Definition marshal_map (m : payload) : raw := RawJson (JObj (merge_sort key_le (map_to_list m))).
Definition byte_length (s : string) : Z := Z.of_nat (String.length s).
Definition hashApprovalAuditText (value : string) : string := sha256_hex value.

Definition base_payload (command : ValuesApprovalCommand) (revision : ValuesRevision) (supersededIDs : list string)
    (now : time) (event_id : string) : payload :=
  list_to_map [("event_id", JStr event_id); ("revision_id", JStr (vr_ID revision));
    ("release_definition_id", JStr (vr_ReleaseDefinitionID revision)); ("organization_id", JStr (vac_ActorOrgID command));
    ("request_id", JStr (vac_RequestID command)); ("state", JStr (values_status_string (vr_Status revision)));
    ("state_version", JNum (vr_StateVersion revision)); ("superseded_revision_ids", JArr (JStr <$> supersededIDs));
    ("occurred_at", JStr (rfc3339nano_text now))].
Definition notification_payload (command : ValuesApprovalCommand) (revision : ValuesRevision) (now : time) (base : payload) : payload :=
  let at_ := JStr (rfc3339nano_text now) in
  match vr_Status revision with
  | ValuesStatusPendingApproval =>
      <["submitted_at" := at_]> (<["created_by_user_id" := JStr (vr_CreatedByUserID revision)]> base)
  | ValuesStatusApproved =>
      <["decided_at" := at_]> (<["role" := JStr (vac_ActorRole command)]>
        (<["decided_by_user_id" := JStr (vac_ActorUserID command)]> base))
  | ValuesStatusRejected =>
      <["decided_at" := at_]> (<["reason" := JStr (vac_Reason command)]> (<["role" := JStr (vac_ActorRole command)]>
        (<["decided_by_user_id" := JStr (vac_ActorUserID command)]> base)))
  | _ => base
  end.
Definition comment_fields (comment : option string) (m : payload) : payload :=
  match comment with
  | None => m
  | Some c => <["comment_length" := JNum (byte_length c)]> (<["comment_hash" := JStr (hashApprovalAuditText c)]> m)
  end.
Definition audit_payload (command : ValuesApprovalCommand) (notification : payload) : payload :=
  let audit := delete "reason" (<["actor_role" := JStr (vac_ActorRole command)]>
                 (<["actor_user_id" := JStr (vac_ActorUserID command)]> notification)) in
  let audit := comment_fields (vac_Comment command) audit in
  if bool_decide (vac_Reason command = "") then audit
  else <["reason_length" := JNum (byte_length (vac_Reason command))]>
         (<["reason_hash" := JStr (hashApprovalAuditText (vac_Reason command))]> audit).
(** successEventPayloads: audit, notification. *)
Definition successEventPayloads (command : ValuesApprovalCommand) (revision : ValuesRevision) (supersededIDs : list string) (now : time)
    : SM (raw * raw) :=
  let! event_id := new_uuid in
  let notification := notification_payload command revision now (base_payload command revision supersededIDs now event_id) in
  ret (marshal_map (audit_payload command notification), marshal_map notification).
Definition new_outbox_entry (id eventType : string) (payload : raw) (created : time) : ApprovalOutboxEntry :=
  {| ao_ID := id; ao_EventType := eventType; ao_PayloadJSON := payload; ao_CreatedAt := created; ao_Delivered := false; ao_DeliveredAt := None |}.

Definition with_binding (id status rejection : option string) (keep_rejection : bool) (t : ConvergenceTask) : ConvergenceTask :=
  {| ct_ID := ct_ID t; ct_OperationID := ct_OperationID t; ct_ReleaseDefinitionID := ct_ReleaseDefinitionID t;
     ct_Action := ct_Action t; ct_TargetSummary := ct_TargetSummary t; ct_Reason := ct_Reason t;
     ct_PromotionPaths := ct_PromotionPaths t; ct_Status := ct_Status t; ct_ActiveRevisionID := id;
     ct_ActiveRevisionStatus := status;
     ct_LastRejectionReason := if keep_rejection then ct_LastRejectionReason t else rejection;
     ct_SubmittedAt := ct_SubmittedAt t; ct_ConvergedAt := ct_ConvergedAt t; ct_CreatedAt := ct_CreatedAt t |}.
Definition converge_task (now : time) (t : ConvergenceTask) : ConvergenceTask :=
  {| ct_ID := ct_ID t; ct_OperationID := ct_OperationID t; ct_ReleaseDefinitionID := ct_ReleaseDefinitionID t;
     ct_Action := ct_Action t; ct_TargetSummary := ct_TargetSummary t; ct_Reason := ct_Reason t;
     ct_PromotionPaths := ct_PromotionPaths t; ct_Status := Converged; ct_ActiveRevisionID := ct_ActiveRevisionID t;
     ct_ActiveRevisionStatus := Some "approved"; ct_LastRejectionReason := ct_LastRejectionReason t;
     ct_SubmittedAt := ct_SubmittedAt t; ct_ConvergedAt := Some now; ct_CreatedAt := ct_CreatedAt t |}.
Definition bound_to (id : string) (t : ConvergenceTask) : bool := bool_decide (ct_ActiveRevisionID t = Some id).
Definition pending_task (t : ConvergenceTask) : bool := bool_decide (ct_Status t = PendingPromotion).
Definition with_approved_revision (id : string) (d : ReleaseDefinition) : ReleaseDefinition :=
  {| rd_ID := rd_ID d; rd_Name := rd_Name d; rd_CustomerID := rd_CustomerID d; rd_ClusterID := rd_ClusterID d;
     rd_Namespace := rd_Namespace d; rd_ReleaseName := rd_ReleaseName d; rd_ChartName := rd_ChartName d;
     rd_Status := rd_Status d; rd_OptimisticVersion := rd_OptimisticVersion d; rd_CurrentBundleID := rd_CurrentBundleID d;
     rd_CreatedBy := rd_CreatedBy d; rd_OwnerOrganizationID := rd_OwnerOrganizationID d; rd_ApprovedRevisionID := Some id;
     rd_HPAManaged := rd_HPAManaged d; rd_MaxEmergencyReplicas := rd_MaxEmergencyReplicas d;
     rd_ApprovedAnnotationKeys := rd_ApprovedAnnotationKeys d; rd_PromotionMappings := rd_PromotionMappings d;
     rd_CreatedAt := rd_CreatedAt d; rd_UpdatedAt := rd_UpdatedAt d |}.

(** The three effects of an action outside the revision itself. *)
Definition converge_bound_tasks (revisionID : string) (now : time) : SM unit :=
  exec (λ db, set_convergence_tasks
    (update_where (λ t, bound_to revisionID t && pending_task t) (converge_task now) (db_convergence_tasks db)) db).
Definition clear_bindings (revisionID reason : string) : SM unit :=
  exec (λ db, set_convergence_tasks
    (update_where (bound_to revisionID) (with_binding None None (Some reason) false) (db_convergence_tasks db)) db).
Definition point_definition (definitionID revisionID : string) : SM unit :=
  let! row := query (λ db, db_release_definitions db !! definitionID) in
  match row with
  | None => throw ErrNotFound
  | Some d => exec (λ db, set_release_definitions (<[definitionID := with_approved_revision revisionID d]> (db_release_definitions db)) db)
  end.

Definition decision_of (command : ValuesApprovalCommand) (t : approvalTransition) (revision : ValuesRevision) (id : string) (now : time)
    : ValuesRevisionDecision :=
  {| vd_ID := id; vd_RevisionID := vr_ID revision; vd_ReleaseDefinitionID := vr_ReleaseDefinitionID revision;
     vd_Action := at_action t; vd_FromState := at_expectedFrom t; vd_ToState := at_to t; vd_ActorUserID := vac_ActorUserID command;
     vd_ActorOrgID := vac_ActorOrgID command; vd_ActorRole := vac_ActorRole command; vd_Comment := vac_Comment command;
     vd_Reason := vac_Reason command; vd_RequestID := vac_RequestID command;
     vd_IdempotencyKeyHash := vac_IdempotencyKeyHash command; vd_CreatedAt := now |}.

(** The statements between the checks and the idempotency record. *)
Definition apply_transition (command : ValuesApprovalCommand) (t : approvalTransition) (revision : ValuesRevision) (now : time)
    : SM ValuesApprovalResult :=
  when (is_submit t) (ensureNoPendingRevision revision) ;!
  let! supersededIDs := (if is_approve t then supersedeApprovedRevisions revision now else ret []) in
  let! result := updateRevisionState revision t (vac_ExpectedStateVersion command) now in
  when (is_approve t) (converge_bound_tasks (vr_ID revision) now) ;!
  when (is_reject t) (clear_bindings (vr_ID revision) (vac_Reason command)) ;!
  when (is_approve t) (point_definition (vr_ReleaseDefinitionID revision) (vr_ID revision)) ;!
  let! decisionID := new_uuid in
  insertDecision (decision_of command t revision decisionID now) ;!
  let! payloads := successEventPayloads command result supersededIDs now in
  let! auditID := new_uuid in
  insertApprovalOutbox AuditOutbox (new_outbox_entry auditID (at_eventType t) payloads.1 now) ;!
  let! notificationID := new_uuid in
  insertApprovalOutbox NotificationOutbox (new_outbox_entry notificationID (at_eventType t) payloads.2 now) ;!
  ret {| var_Revision := result; var_PreviousState := at_expectedFrom t; var_NewState := at_to t; var_DecidedAt := now;
         var_SupersededRevisionIDs := supersededIDs; var_Replayed := false |}.

Definition transition_tx (command : ValuesApprovalCommand) (t : approvalTransition) : SM (outcome ValuesApprovalResult) :=
  checkAuthorizationFence (vac_ExpectedAuthorizationVersion command) ;!
  let! replay := lookupIdempotency command in
  match replay with
  | Some r => ret (Rollback (with_revision (var_Revision r) true r))
  | None =>
      let! revision := getValues (vac_RevisionID command) in
      fail_if (negb (vr_StateVersion revision =? vac_ExpectedStateVersion command))
        (StateVersionConflictError (vac_ExpectedStateVersion command) (vr_StateVersion revision)) ;!
      fail_if (negb (bool_decide (vr_Status revision = at_expectedFrom t)))
        (InvalidValuesStateError (vr_Status revision) (at_expectedFrom t)) ;!
      let! now := now in
      let! approvalResult := apply_transition command t revision now in
      let! replay := insertIdempotency command approvalResult (now + idempotencyTTL) in
      match replay with
      | Some r => ret (Rollback r)
      | None => checkAuthorizationFence (vac_ExpectedAuthorizationVersion command) ;! ret (Commit approvalResult)
      end
  end.
Definition transition (command : ValuesApprovalCommand) (t : approvalTransition) : SM ValuesApprovalResult :=
  if negb (vac_Authorized command) then throw ErrNotAuthorized else run_tx (transition_tx command t).
Definition runTransition (command : ValuesApprovalCommand) (t : approvalTransition) : SM ValuesApprovalResult :=
  retryBusy (transition command t).

Definition submit_transition : approvalTransition :=
  {| at_action := ValuesDecisionSubmitted; at_expectedFrom := ValuesStatusDraft; at_to := ValuesStatusPendingApproval;
     at_eventType := "ValuesRevisionSubmitted" |}.
Definition approve_transition : approvalTransition :=
  {| at_action := ValuesDecisionApproved; at_expectedFrom := ValuesStatusPendingApproval; at_to := ValuesStatusApproved;
     at_eventType := "ValuesRevisionApproved" |}.
Definition reject_transition : approvalTransition :=
  {| at_action := ValuesDecisionRejected; at_expectedFrom := ValuesStatusPendingApproval; at_to := ValuesStatusRejected;
     at_eventType := "ValuesRevisionRejected" |}.
Definition Submit (command : ValuesApprovalCommand) : SM ValuesApprovalResult := runTransition command submit_transition.
Definition Approve (command : ValuesApprovalCommand) : SM ValuesApprovalResult := runTransition command approve_transition.
Definition Reject (command : ValuesApprovalCommand) : SM ValuesApprovalResult := runTransition command reject_transition.

Definition RecordAttempt (entry : ApprovalOutboxEntry) : SM unit :=
  let! id := or_new_uuid (ao_ID entry) in
  let! created := or_now (ao_CreatedAt entry) in
  autocommit (insertApprovalOutbox AuditOutbox
    {| ao_ID := id; ao_EventType := ao_EventType entry; ao_PayloadJSON := ao_PayloadJSON entry; ao_CreatedAt := created;
       ao_Delivered := ao_Delivered entry; ao_DeliveredAt := ao_DeliveredAt entry |}).

(** [ORDER BY created_at, id] *)
Definition decision_le (a b : ValuesRevisionDecision) : Prop :=
  text_ltb (vd_CreatedAt a) (vd_CreatedAt b) = true
  ∨ (text_ltb (vd_CreatedAt b) (vd_CreatedAt a) = false ∧ string_leb (vd_ID a) (vd_ID b) = true).
#[export] Instance decision_le_dec a b : Decision (decision_le a b).
Proof. unfold decision_le. apply _. Defined.
Definition ListDecisions (revisionID : string) : SM (list ValuesRevisionDecision) :=
  query (λ db, merge_sort decision_le (filter (λ d, vd_RevisionID d = revisionID) (db_values_revision_decisions db))).

(** listApprovalOutbox: every payload has to decode, also those of other revisions. *)
Definition payload_revision (r : raw) : option string :=
  match r with RawJson j => decode_struct1 "revision_id" j | _ => None end.
Fixpoint outbox_of_revision (revisionID : string) (rows : list ApprovalOutboxEntry) : SM (list ApprovalOutboxEntry) :=
  match rows with
  | [] => ret []
  | e :: rows =>
      match payload_revision (ao_PayloadJSON e) with
      | None => throw (ErrOther "decode outbox payload")
      | Some id =>
          let! rest := outbox_of_revision revisionID rows in
          ret (if bool_decide (id = revisionID) then e :: rest else rest)
      end
  end.
Definition listApprovalOutbox (table : outbox_table) (revisionID : string) : SM (list ApprovalOutboxEntry) :=
  let! rows := query (λ db, merge_sort ao_le (outbox_rows table db)) in outbox_of_revision revisionID rows.
Definition ListAuditOutbox (revisionID : string) : SM (list ApprovalOutboxEntry) := listApprovalOutbox AuditOutbox revisionID.

(** ** Prepare sessions (prepare_sessions.go) *)
Definition prepare_session_row (s : PrepareSession) (created : time) : PrepareSession :=
  {| ps_TokenHash := ps_TokenHash s; ps_ActorUserID := ps_ActorUserID s; ps_OrganizationID := ps_OrganizationID s;
     ps_ReleaseDefinitionID := ps_ReleaseDefinitionID s; ps_ParentRevisionID := ps_ParentRevisionID s;
     ps_ParentVersion := ps_ParentVersion s; ps_TaskIDs := ps_TaskIDs s; ps_LockedPaths := ps_LockedPaths s;
     ps_LockedPathHash := ps_LockedPathHash s; ps_ExpiresAt := ps_ExpiresAt s; ps_ConsumedAt := ps_ConsumedAt s;
     ps_CreatedAt := created |}.
Definition insert_prepare_session (s : PrepareSession) : SM unit :=
  let msg := ErrOther "insert prepare session" in
  fail_if (negb (if bool_decide (ps_ParentRevisionID s = "") then ps_ParentVersion s =? 0 else 0 <? ps_ParentVersion s)) msg ;!
  let! duplicate := query (λ db, bool_decide (is_Some (db_prepare_sessions db !! ps_TokenHash s))) in
  fail_if duplicate ErrDuplicateKey ;!
  check_fk (λ db, bool_decide (is_Some (db_release_definitions db !! ps_ReleaseDefinitionID s))
                  && (bool_decide (ps_ParentRevisionID s = "") || existsb (byID (ps_ParentRevisionID s)) (db_values_revisions db)))
    "insert prepare session" ;!
  exec (λ db, set_prepare_sessions (<[ps_TokenHash s := s]> (db_prepare_sessions db)) db).
(** prepareSessionStore.Create *)
Definition Create_session (session : option PrepareSession) (expectedAuthorizationVersion : Z) : SM unit :=
  match session with
  | None => throw (ErrOther "create prepare session: nil session")
  | Some s =>
      let! created := or_now (ps_CreatedAt s) in
      run_tx (
        checkAuthorizationFence expectedAuthorizationVersion ;!
        insert_prepare_session (prepare_session_row s created) ;!
        checkAuthorizationFence expectedAuthorizationVersion ;!
        ret (Commit tt))
  end.
Definition getPrepareSession (tokenHash : string) : SM PrepareSession :=
  let! row := query (λ db, db_prepare_sessions db !! tokenHash) in scan_row row.
(** prepareSessionStore.DeleteExpired; all comparisons are between texts. *)
Definition session_expired (now cutoff : time) (s : PrepareSession) : bool :=
  (text_leb (ps_ExpiresAt s) now && text_ltb (ps_ExpiresAt s) cutoff)
  || match ps_ConsumedAt s with Some t => text_ltb t cutoff | None => false end.
Definition DeleteExpired_sessions (cutoff : time) : SM Z :=
  let! t := now in
  autocommit (
    let! count := query (λ db, size (filter (λ ks, session_expired t cutoff ks.2 = true) (db_prepare_sessions db))) in
    exec (λ db, set_prepare_sessions (filter (λ ks, session_expired t cutoff ks.2 = false) (db_prepare_sessions db)) db) ;!
    ret (Z.of_nat count)).

(** ** Drafts (values_lifecycle.go) *)

(** [SELECT MAX(version)] over the definition's revisions. *)
Definition max_version (definitionID : string) (db : DB) : option Z :=
  match vr_Version <$> filter (λ r, ofDefinition definitionID r = true) (db_values_revisions db) with
  | [] => None
  | v :: vs => Some (foldr Z.max v vs)
  end.
Definition validateValuesParent (definitionID parentID : string) (expectedVersion : Z) : SM Z :=
  let! maxVersion := query (max_version definitionID) in
  match maxVersion with
  | None =>
      if negb (bool_decide (parentID = "")) || negb (expectedVersion =? 0) then throw ErrParentConflict else ret 1
  | Some v =>
      if bool_decide (parentID = "") && (expectedVersion =? 0) then throw ErrDuplicateKey
      else if bool_decide (parentID = "") || negb (expectedVersion =? v) then throw ErrParentConflict
      else
        let! parent := query (λ db, find_row (byID parentID) (db_values_revisions db)) in
        match parent with
        | None => throw ErrParentConflict
        | Some p =>
            if negb (bool_decide (vr_ReleaseDefinitionID p = definitionID)) then throw ErrParentConflict else ret (v + 1)
        end
  end.

Definition consume (now : time) (s : PrepareSession) : PrepareSession :=
  {| ps_TokenHash := ps_TokenHash s; ps_ActorUserID := ps_ActorUserID s; ps_OrganizationID := ps_OrganizationID s;
     ps_ReleaseDefinitionID := ps_ReleaseDefinitionID s; ps_ParentRevisionID := ps_ParentRevisionID s;
     ps_ParentVersion := ps_ParentVersion s; ps_TaskIDs := ps_TaskIDs s; ps_LockedPaths := ps_LockedPaths s;
     ps_LockedPathHash := ps_LockedPathHash s; ps_ExpiresAt := ps_ExpiresAt s; ps_ConsumedAt := Some now;
     ps_CreatedAt := ps_CreatedAt s |}.
Definition session_usable (command : CreateValuesDraftCommand) (definitionID : string) (now : time) (s : PrepareSession) : bool :=
  bool_decide (ps_ActorUserID s = cvc_ActorUserID command) && bool_decide (ps_OrganizationID s = cvc_OrganizationID command)
  && bool_decide (ps_ReleaseDefinitionID s = definitionID) && bool_decide (ps_ConsumedAt s = None)
  && text_ltb now (ps_ExpiresAt s).
Definition consumePrepareSession (command : CreateValuesDraftCommand) (definitionID : string) : SM PrepareSession :=
  let token := cvc_PrepareTokenHash command in
  let! t := now in
  let! row := query (λ db, db_prepare_sessions db !! token) in
  let usable := match row with Some s => session_usable command definitionID t s | None => false end in
  when usable (exec (λ db, set_prepare_sessions (alter (consume t) token (db_prepare_sessions db)) db)) ;!
  let! session := getPrepareSession token in
  if usable then ret session
  else if negb (t <? ps_ExpiresAt session) then throw ErrPrepareTokenExpired
  else if bool_decide (ps_ConsumedAt session ≠ None) then throw ErrPrepareTokenConsumed
  else throw ErrConvergenceConflict.

(** The [UPDATE] that binds one task; false when it matches no row. *)
Definition bindable (taskID definitionID : string) (t : ConvergenceTask) : bool :=
  bool_decide (ct_ID t = taskID) && bool_decide (ct_ReleaseDefinitionID t = definitionID) && pending_task t
  && bool_decide (ct_ActiveRevisionID t = None).
Fixpoint bind_tasks (taskIDs : list string) (revisionID definitionID : string) : SM unit :=
  match taskIDs with
  | [] => ret tt
  | taskID :: taskIDs =>
      let! count := query (λ db, rows_affected (bindable taskID definitionID) (db_convergence_tasks db)) in
      exec (λ db, set_convergence_tasks
        (update_where (bindable taskID definitionID) (with_binding (Some revisionID) (Some "draft") None true) (db_convergence_tasks db)) db) ;!
      fail_if (negb (count =? 1)%nat) ErrConvergenceRevisionExists ;!
      bind_tasks taskIDs revisionID definitionID
  end.
Definition bindPrepareTasks (session : PrepareSession) (revision : ValuesRevision) : SM unit :=
  fail_if (negb (bool_decide (ps_ParentRevisionID session = vr_ParentRevisionID revision))
           || negb (ps_ParentVersion session =? vr_Version revision - 1)) ErrParentConflict ;!
  let! allTasks := query (λ db, filter (λ t, ct_ReleaseDefinitionID t = vr_ReleaseDefinitionID revision) (db_convergence_tasks db)) in
  let selected := omap (λ id, find (λ t, bool_decide (ct_ID t = id)) allTasks) (ps_TaskIDs session) in
  let! paths := lift_res (LockedPathsForTasks (ps_TaskIDs session) selected) in
  fail_if (negb (bool_decide (LockedPathHash paths = ps_LockedPathHash session))
           || negb (bool_decide (LockedPathHash (ps_LockedPaths session) = ps_LockedPathHash session))) ErrConvergenceConflict ;!
  let! conflict := lift_res (HasActiveConvergencePathConflict (ps_TaskIDs session) paths allTasks) in
  fail_if conflict ErrConvergenceRevisionExists ;!
  bind_tasks (ps_TaskIDs session) (vr_ID revision) (vr_ReleaseDefinitionID revision).

(** The row [insertValuesDraft] writes: never submitted, never decided. *)
Definition draft_row (r : ValuesRevision) : ValuesRevision :=
  {| vr_ID := vr_ID r; vr_ReleaseDefinitionID := vr_ReleaseDefinitionID r; vr_Version := vr_Version r;
     vr_StateVersion := vr_StateVersion r; vr_Status := vr_Status r; vr_CanonicalDocument := vr_CanonicalDocument r;
     vr_Digest := vr_Digest r; vr_ParentRevisionID := vr_ParentRevisionID r; vr_SecretRefs := vr_SecretRefs r;
     vr_CreatedByUserID := vr_CreatedByUserID r; vr_SubmittedAt := None; vr_DecidedAt := None;
     vr_CreatedAt := vr_CreatedAt r; vr_UpdatedAt := vr_UpdatedAt r; vr_ConvergenceTaskIds := vr_ConvergenceTaskIds r;
     vr_LockedPaths := vr_LockedPaths r |}.
Definition insertValuesDraft (revision : ValuesRevision) : SM unit :=
  insert_values_row (draft_row revision) ErrParentConflict "insert values draft".

Definition created_payload (command : CreateValuesDraftCommand) (revision : ValuesRevision) (event_id : string) : raw :=
  marshal_map (list_to_map [("event_id", JStr event_id); ("revision_id", JStr (vr_ID revision));
    ("release_definition_id", JStr (vr_ReleaseDefinitionID revision)); ("organization_id", JStr (cvc_OrganizationID command));
    ("created_by_user_id", JStr (cvc_ActorUserID command)); ("parent_revision_id", JStr (vr_ParentRevisionID revision));
    ("digest", JStr (vr_Digest revision)); ("created_at", JStr (rfc3339nano_text (vr_CreatedAt revision)));
    ("request_id", JStr (cvc_RequestID command))]).
Definition insertValuesCreatedEvent (command : CreateValuesDraftCommand) (revision : ValuesRevision) : SM unit :=
  let! event_id := new_uuid in
  let! id := new_uuid in
  insertApprovalOutbox AuditOutbox
    (new_outbox_entry id "ValuesRevisionCreated" (created_payload command revision event_id) (vr_CreatedAt revision)).
Definition discarded_payload (command : DiscardValuesCommand) (revision : ValuesRevision) (now : time) (event_id : string) : raw :=
  marshal_map (comment_fields (dvc_Comment command) (list_to_map [("event_id", JStr event_id); ("revision_id", JStr (vr_ID revision));
    ("release_definition_id", JStr (vr_ReleaseDefinitionID revision)); ("organization_id", JStr (dvc_ActorOrgID command));
    ("decided_by_user_id", JStr (dvc_ActorUserID command)); ("decided_at", JStr (rfc3339nano_text now));
    ("request_id", JStr (dvc_RequestID command))])).
Definition insertValuesDiscardedEvent (command : DiscardValuesCommand) (revision : ValuesRevision) (now : time) : SM unit :=
  let! event_id := new_uuid in
  let! id := new_uuid in
  insertApprovalOutbox AuditOutbox
    (new_outbox_entry id "ValuesRevisionDiscarded" (discarded_payload command revision now event_id) now).

(** ** Idempotency of the draft lifecycle

    These records are written by a statement of their own, not by
    [createOrGetIdempotencyRecord]. *)
Definition lookupValuesLifecycleReplay (scope keyHash requestHash : string) : SM (option valuesLifecycleReplayRef) :=
  let! t := now in
  let! row := query (λ db, active_record db scope keyHash t) in
  match row with
  | None => ret None
  | Some record =>
      fail_if (negb (bool_decide (id_RequestHash record = requestHash))) ErrIdempotencyConflict ;!
      match id_ResponseRef record with
      | RefValuesLifecycle ref => ret (Some ref)
      | _ => throw (ErrOther "decode values lifecycle replay")
      end
  end.
Definition lookupCreateValuesReplay (command : CreateValuesDraftCommand) : SM (option CreateValuesDraftResult) :=
  if bool_decide (cvc_IdempotencyKeyHash command = "") then ret None
  else
    let! ref := lookupValuesLifecycleReplay (cvc_IdempotencyScope command) (cvc_IdempotencyKeyHash command) (cvc_RequestHash command) in
    match ref with
    | None => ret None
    | Some ref =>
        match vl_Revision ref with
        | Some revision => ret (Some {| cvr_Revision := revision; cvr_Replayed := true |})
        | None => let! revision := getValues (vl_RevisionID ref) in ret (Some {| cvr_Revision := revision; cvr_Replayed := true |})
        end
    end.
Definition lookupDiscardValuesReplay (command : DiscardValuesCommand) : SM (option DiscardValuesResult) :=
  if bool_decide (dvc_IdempotencyKeyHash command = "") then ret None
  else
    let! ref := lookupValuesLifecycleReplay (dvc_IdempotencyScope command) (dvc_IdempotencyKeyHash command) (dvc_RequestHash command) in
    match ref with
    | None => ret None
    | Some ref =>
        let! revision := getValues (vl_RevisionID ref) in
        ret (Some {| dvr_Revision := revision; dvr_PreviousState := vl_PreviousState ref; dvr_NewState := vl_NewState ref;
                     dvr_DecidedAt := vl_DecidedAt ref; dvr_Replayed := true |})
    end.
Definition marshal_lifecycle (ref : valuesLifecycleReplayRef) : option valuesLifecycleReplayRef :=
  match vl_Revision ref with
  | None => Some ref
  | Some r =>
      (λ r, {| vl_RevisionID := vl_RevisionID ref; vl_Revision := Some r; vl_PreviousState := vl_PreviousState ref;
               vl_NewState := vl_NewState ref; vl_DecidedAt := vl_DecidedAt ref |}) <$> marshal_revision r
  end.
Definition insertValuesLifecycleIdempotency (scope keyHash requestHash : string) (expiresAt : time) (ref : valuesLifecycleReplayRef) : SM unit :=
  if bool_decide (keyHash = "") then ret tt
  else
    let! expiresAt := (if is_zero_time expiresAt then let! t := now in ret (t + 24 * 3600 * nsec) else ret expiresAt) in
    let! t := now in
    deleteExpiredRecord scope keyHash t ;!
    match marshal_lifecycle ref with
    | None => throw (ErrOther "encode values lifecycle idempotency")
    | Some stored =>
        let k := idempotency_key scope keyHash in
        let! existing := query (λ db, db_idempotency_records db !! k) in
        fail_if (bool_decide (is_Some existing)) ErrIdempotencyConflict ;!
        exec (λ db, set_idempotency_records
          (<[k := {| id_Scope := scope; id_Key := keyHash; id_RequestHash := requestHash;
                     id_ResponseRef := RefValuesLifecycle stored; id_ExpiresAt := expiresAt |}]> (db_idempotency_records db)) db)
    end.
Definition insertCreateValuesIdempotency (command : CreateValuesDraftCommand) (revision : ValuesRevision) : SM unit :=
  insertValuesLifecycleIdempotency (cvc_IdempotencyScope command) (cvc_IdempotencyKeyHash command) (cvc_RequestHash command)
    (cvc_IdempotencyExpiresAt command)
    {| vl_RevisionID := vr_ID revision; vl_Revision := Some revision; vl_PreviousState := None; vl_NewState := None; vl_DecidedAt := 0 |}.
Definition insertDiscardValuesIdempotency (command : DiscardValuesCommand) (result : DiscardValuesResult) : SM unit :=
  insertValuesLifecycleIdempotency (dvc_IdempotencyScope command) (dvc_IdempotencyKeyHash command) (dvc_RequestHash command)
    (dvc_IdempotencyExpiresAt command)
    {| vl_RevisionID := vr_ID (dvr_Revision result); vl_Revision := None; vl_PreviousState := dvr_PreviousState result;
       vl_NewState := dvr_NewState result; vl_DecidedAt := dvr_DecidedAt result |}.

(** The command's revision as [createDraft] completes it. *)
Definition new_draft (command : CreateValuesDraftCommand) (version : Z) (created updated : time) (r : ValuesRevision) : ValuesRevision :=
  {| vr_ID := vr_ID r; vr_ReleaseDefinitionID := vr_ReleaseDefinitionID r; vr_Version := version; vr_StateVersion := 1;
     vr_Status := ValuesStatusDraft; vr_CanonicalDocument := vr_CanonicalDocument r; vr_Digest := vr_Digest r;
     vr_ParentRevisionID := vr_ParentRevisionID r; vr_SecretRefs := vr_SecretRefs r;
     vr_CreatedByUserID := cvc_ActorUserID command; vr_SubmittedAt := vr_SubmittedAt r; vr_DecidedAt := vr_DecidedAt r;
     vr_CreatedAt := created; vr_UpdatedAt := updated; vr_ConvergenceTaskIds := vr_ConvergenceTaskIds r;
     vr_LockedPaths := vr_LockedPaths r |}.
Definition createDraft_tx (command : CreateValuesDraftCommand) (r : ValuesRevision) : SM (outcome CreateValuesDraftResult) :=
  checkAuthorizationFence (cvc_ExpectedAuthorizationVersion command) ;!
  let! replay := lookupCreateValuesReplay command in
  match replay with
  | Some replay => ret (Rollback replay)
  | None =>
      let definitionID := vr_ReleaseDefinitionID r in
      let prepares := negb (bool_decide (cvc_PrepareTokenHash command = "")) in
      let! prepared := (if prepares then let! s := consumePrepareSession command definitionID in ret (Some s) else ret None) in
      fail_if (match prepared with
               | Some s => negb (bool_decide (cvc_ExpectedLockedPathHash command = ""))
                           && negb (bool_decide (ps_LockedPathHash s = cvc_ExpectedLockedPathHash command))
               | None => false
               end) ErrConvergenceConflict ;!
      let! definition := query (λ db, db_release_definitions db !! definitionID) in
      fail_if (bool_decide (definition = None)) ErrNotFound ;!
      let! nextVersion := catch (validateValuesParent definitionID (vr_ParentRevisionID r) (cvc_ExpectedParentVersion command))
        (λ v, match v with
              | Ok n => ret n
              | Err e => if prepares && errors_Is e ErrDuplicateKey then throw ErrParentConflict else throw e
              end) in
      let! created := or_now (vr_CreatedAt r) in
      let updated := if is_zero_time (vr_UpdatedAt r) then created else vr_UpdatedAt r in
      let revision := new_draft command nextVersion created updated r in
      insertValuesDraft revision ;!
      match prepared with Some s => bindPrepareTasks s revision | None => ret tt end ;!
      insertValuesCreatedEvent command revision ;!
      insertCreateValuesIdempotency command revision ;!
      checkAuthorizationFence (cvc_ExpectedAuthorizationVersion command) ;!
      ret (Commit {| cvr_Revision := revision; cvr_Replayed := false |})
  end.
Definition createDraft (command : CreateValuesDraftCommand) : SM CreateValuesDraftResult :=
  match cvc_Revision command with
  | None => throw (ErrOther "create values draft: nil revision")
  | Some r => run_tx (createDraft_tx command r)
  end.

(** [WHERE id = ? AND status = 'draft' AND state_version = ? AND created_by_user_id = ?] *)
Definition discardable (command : DiscardValuesCommand) (r : ValuesRevision) : bool :=
  byID (dvc_RevisionID command) r && inStatus ValuesStatusDraft r && (vr_StateVersion r =? dvc_ExpectedStateVersion command)
  && bool_decide (vr_CreatedByUserID r = dvc_ActorUserID command).
Definition discard_decision (command : DiscardValuesCommand) (revision : ValuesRevision) (id : string) (now : time) : ValuesRevisionDecision :=
  {| vd_ID := id; vd_RevisionID := vr_ID revision; vd_ReleaseDefinitionID := vr_ReleaseDefinitionID revision;
     vd_Action := ValuesDecisionDiscarded; vd_FromState := ValuesStatusDraft; vd_ToState := ValuesStatusDiscarded;
     vd_ActorUserID := dvc_ActorUserID command; vd_ActorOrgID := dvc_ActorOrgID command; vd_ActorRole := dvc_ActorRole command;
     vd_Comment := dvc_Comment command; vd_Reason := ""; vd_RequestID := dvc_RequestID command;
     vd_IdempotencyKeyHash := dvc_IdempotencyKeyHash command; vd_CreatedAt := now |}.
Definition discard_tx (command : DiscardValuesCommand) : SM (outcome DiscardValuesResult) :=
  checkAuthorizationFence (dvc_ExpectedAuthorizationVersion command) ;!
  let! replay := lookupDiscardValuesReplay command in
  match replay with
  | Some replay => ret (Rollback replay)
  | None =>
      let! now := now in
      let p := discardable command in
      let! rows := query (λ db, rows_affected p (db_values_revisions db)) in
      exec (λ db, set_values_revisions (update_where p (set_state ValuesStatusDiscarded None (Some now) now) (db_values_revisions db)) db) ;!
      if negb (rows =? 1)%nat then getValues (dvc_RevisionID command) ;! throw ErrDiscardNotAllowed
      else
        let! revision := getValues (dvc_RevisionID command) in
        let! decisionID := new_uuid in
        insertDecision (discard_decision command revision decisionID now) ;!
        exec (λ db, set_convergence_tasks
          (update_where (λ t, bound_to (vr_ID revision) t && pending_task t) (with_binding None None None true) (db_convergence_tasks db)) db) ;!
        insertValuesDiscardedEvent command revision now ;!
        let discarded := {| dvr_Revision := revision; dvr_PreviousState := Some ValuesStatusDraft;
                            dvr_NewState := Some ValuesStatusDiscarded; dvr_DecidedAt := now; dvr_Replayed := false |} in
        insertDiscardValuesIdempotency command discarded ;!
        checkAuthorizationFence (dvc_ExpectedAuthorizationVersion command) ;!
        ret (Commit discarded)
  end.
Definition discard (command : DiscardValuesCommand) : SM DiscardValuesResult := run_tx (discard_tx command).

(** retryValuesLifecycle: a conflict on the key is retried as a replay. *)
Definition retryValuesLifecycle {A} (keyHash : string) (action : SM A) (loadReplay : SM (option A)) : SM A :=
  catch (retryBusy action) (λ r,
    match r with
    | Ok a => ret a
    | Err e =>
        if errors_Is e ErrIdempotencyConflict && negb (bool_decide (keyHash = "")) then
          let! replay := loadReplay in
          match replay with Some a => ret a | None => throw e end
        else throw e
    end).
Definition CreateDraft (command : CreateValuesDraftCommand) : SM CreateValuesDraftResult :=
  retryValuesLifecycle (cvc_IdempotencyKeyHash command) (createDraft command) (lookupCreateValuesReplay command).
Definition Discard (command : DiscardValuesCommand) : SM DiscardValuesResult :=
  retryValuesLifecycle (dvc_IdempotencyKeyHash command) (discard command) (lookupDiscardValuesReplay command).
