(* ===== verification/Creation.v ===== *)
(** * The operation-creation unit of work (internal/store/sqlite/uow.go, with
    setCurrentBundle of definitions.go and linkCandidateArtifacts of
    candidate_artifacts.go)

    One transaction creates an operation with its dispatch row, points the
    release definition at its bundle and links the candidate artifacts; the
    EMERGENCY variant creates the operation with its intent, its convergence task
    and its idempotency record, after checking the release-wide mutex and the
    target locks.  Errors the source wraps with [%w] are the wrapped sentinel. *)
From S2P Require Import Prelude Utf8 Json Redact Domain Lifecycle Database Timeline Idempotency Outbox OperationStore EmergencyStore.

(** ** Bundles and candidate artifacts *)
Definition with_bundle (bundleID : string) (d : ReleaseDefinition) : ReleaseDefinition :=
  {| rd_ID := rd_ID d; rd_Name := rd_Name d; rd_CustomerID := rd_CustomerID d; rd_ClusterID := rd_ClusterID d;
     rd_Namespace := rd_Namespace d; rd_ReleaseName := rd_ReleaseName d; rd_ChartName := rd_ChartName d;
     rd_Status := rd_Status d; rd_OptimisticVersion := rd_OptimisticVersion d; rd_CurrentBundleID := Some bundleID;
     rd_CreatedBy := rd_CreatedBy d; rd_OwnerOrganizationID := rd_OwnerOrganizationID d;
     rd_ApprovedRevisionID := rd_ApprovedRevisionID d; rd_HPAManaged := rd_HPAManaged d;
     rd_MaxEmergencyReplicas := rd_MaxEmergencyReplicas d; rd_ApprovedAnnotationKeys := rd_ApprovedAnnotationKeys d;
     rd_PromotionMappings := rd_PromotionMappings d; rd_CreatedAt := rd_CreatedAt d; rd_UpdatedAt := rd_UpdatedAt d |}.
(** The state a bundle must be in; an archived one is restored when it was
    validated before. *)
Definition restoreBundle (bundleID : string) (b : BundleRow) : SM bool :=
  match br_Status b with
  | BundleValidated => ret false
  | BundleReceived => throw ErrBundleNotReady
  | BundleRejected => throw ErrBundleRejected
  | BundleArchived =>
      match br_ArchivedFromStatus b with
      | BundleValidated =>
          exec (λ db, set_release_bundles
            (<[bundleID := {| br_Status := BundleValidated; br_ArchivedFromStatus := BundleStatusOther ""; br_ArchivedAt := None;
                              br_Content := br_Content b |}]>
               (db_release_bundles db)) db) ;!
          ret true
      | BundleReceived => throw ErrBundleNotReady
      | BundleRejected => throw ErrBundleRejected
      | _ => throw ErrBundleNotReady
      end
  | _ => throw ErrBundleNotReady
  end.
Definition setCurrentBundle (defID bundleID : string) : SM bool :=
  let! bundle := query (λ db, db_release_bundles db !! bundleID) in
  let! bundle := scan_row bundle in
  let! restored := restoreBundle bundleID bundle in
  let! definition := query (λ db, db_release_definitions db !! defID) in
  let! d := scan_row definition in
  when (negb (bool_decide (rd_CurrentBundleID d = Some bundleID)))
    (exec (λ db, set_release_definitions (<[defID := with_bundle bundleID d]> (db_release_definitions db)) db)) ;!
  ret restored.

Definition is_linked (db : DB) (bundleID artifactID : string) : bool :=
  existsb (λ l, bool_decide (bc_BundleID l = bundleID) && bool_decide (bc_ArtifactID l = artifactID)) (db_bundle_candidate_artifacts db).
Definition unlinked_candidates (bundleID : string) (digests : list string) (db : DB) : list CandidateRow :=
  filter (λ ca, (bool_decide (ca_Digest ca ∈ digests) && negb (is_linked db bundleID (ca_ID ca))) = true) (db_candidate_artifacts db).
Definition linkCandidateArtifacts (bundleID : string) (digests : list string) : SM Z :=
  if bool_decide (digests = []) then ret 0 else
  let! t := nowUTC in
  let! new := query (unlinked_candidates bundleID digests) in
  exec (λ db, set_bundle_candidate_artifacts
    (db_bundle_candidate_artifacts db
       ++ ((λ ca, {| bc_BundleID := bundleID; bc_ArtifactID := ca_ID ca; bc_LinkedAt := t |}) <$> new)) db) ;!
  exec (λ db, set_candidate_artifacts
    (update_where (λ ca, is_linked db bundleID (ca_ID ca))
       (λ ca, {| ca_ID := ca_ID ca; ca_Digest := ca_Digest ca; ca_OrphanedAt := None |}) (db_candidate_artifacts db)) db) ;!
  ret (Z.of_nat (length new)).

(** ** Standard operations *)
Definition createOperationUnitOfWork (req : OperationCreationRequest) : SM OperationCreationResult :=
  let op := ocr_Operation req in
  checkAuthorizationFence (ocr_ExpectedAuthorizationVersion req) ;!
  ensureOperationAvailable op ;!
  let! created := createOperation op in
  match ocr_Dispatch req with
  | Some dispatch => let! _ := createOutbox dispatch in ret tt
  | None => ret tt
  end ;!
  let! restored := setCurrentBundle (op_ReleaseDefinitionID op) (op_BundleID op) in
  let! linked := linkCandidateArtifacts (op_BundleID op) (ocr_CandidateArtifactDigests req) in
  ret {| ores_Operation := created; ores_BundleRestored := restored; ores_LinkedCandidateCount := linked;
         ores_Intent := None; ores_ConvergenceTask := None; ores_Replayed := false |}.

(** ** EMERGENCY operations *)
Definition emergencyIdempotencyTTL : Z := day.
Definition emergencyUowResult (created : EmergencyCreateResult) : OperationCreationResult :=
  {| ores_Operation := ecr_Operation created; ores_BundleRestored := false; ores_LinkedCandidateCount := 0;
     ores_Intent := Some (ecr_Intent created); ores_ConvergenceTask := ecr_ConvergenceTask created;
     ores_Replayed := ecr_Replayed created |}.
Definition active_standard (definitionID : string) (o : Operation) : bool := active_for definitionID o && negb (is_emergency o).
Definition active_emergency (definitionID : string) (o : Operation) : bool := active_for definitionID o && is_emergency o.
(** The business writes: operation, intent and convergence task. *)
Definition create_emergency_rows (command : EmergencyCreateCommand) : SM EmergencyCreateResult :=
  let! op := createOperation (ec_Operation command) in
  let! intent := insertEmergencyIntent (ec_Intent command) in
  let! task := match ec_ConvergenceTask command with
               | Some task => let! t := insertConvergenceTask task in ret (Some t)
               | None => ret None
               end in
  ret {| ecr_Operation := op; ecr_Intent := intent; ecr_ConvergenceTask := task; ecr_Replayed := false |}.
Definition emergency_reference (command : EmergencyCreateCommand) : emergencyReplayRef :=
  {| er_OperationID := op_ID (ec_Operation command); er_IntentID := ei_ID (ec_Intent command);
     er_ConvergenceTaskID := match ec_ConvergenceTask command with Some t => ct_ID t | None => "" end |}.
(** The idempotency record of a creation: [None] when it was created, the
    decoded replay when an equal one exists. *)
Definition record_emergency (command : EmergencyCreateCommand) : SM (option EmergencyCreateResult) :=
  let! expiresAt := (if is_zero_time (ec_IdempotencyExpiresAt command)
                     then let! t := now in ret (t + emergencyIdempotencyTTL) else ret (ec_IdempotencyExpiresAt command)) in
  let! t := now in
  let! existing := createOrGetIdempotencyRecord
    {| id_Scope := ec_IdempotencyScope command; id_Key := ec_IdempotencyKeyHash command;
       id_RequestHash := ec_RequestHash command; id_ResponseRef := RefEmergency (emergency_reference command);
       id_ExpiresAt := expiresAt |} t in
  if existing.2 then ret None
  else let! replayed := decodeEmergencyReplay existing.1 in ret (Some replayed).
Definition check_emergency_conflicts (command : EmergencyCreateCommand) : SM unit :=
  let definitionID := op_ReleaseDefinitionID (ec_Operation command) in
  let! standardCount := query (count_operations (active_standard definitionID)) in
  fail_if (negb (Nat.eqb standardCount 0)) ErrReleaseBusy ;!
  let! emergencyCount := query (count_operations (active_emergency definitionID)) in
  fail_if (negb (Nat.eqb emergencyCount 0)) ErrEmergencyOperationInProgress ;!
  let! active := listActiveEmergencyIntents definitionID in
  fail_if (existsb (λ existing, emergencyIntentsConflict existing (ec_Intent command)) active) ErrEmergencyConflict.
Definition createEmergencyOperationUnitOfWork (command : EmergencyCreateCommand) : SM OperationCreationResult :=
  checkAuthorizationFence (ec_ExpectedAuthorizationVersion command) ;!
  let idempotent := negb (bool_decide (ec_IdempotencyKeyHash command = "")) in
  let! replayed := (if idempotent
                    then lookupEmergencyReplay (ec_IdempotencyScope command) (ec_IdempotencyKeyHash command) (ec_RequestHash command)
                    else ret None) in
  match replayed with
  | Some replayed => ret (emergencyUowResult replayed)
  | None =>
      check_emergency_conflicts command ;!
      let! created := create_emergency_rows command in
      let! replayed := (if idempotent then record_emergency command else ret None) in
      match replayed with
      | Some replayed => ret (emergencyUowResult replayed)
      | None =>
          checkAuthorizationFence (ec_ExpectedAuthorizationVersion command) ;!
          ret (emergencyUowResult created)
      end
  end.

(** Store.createOperation, the OperationCreationUnitOfWork: every result that is
    not an error commits, replays included. *)
Definition OperationCreationUnitOfWork (req : OperationCreationRequest) : SM OperationCreationResult :=
  retryBusy (run_tx (commit
    (match ocr_Emergency req with
     | Some command => createEmergencyOperationUnitOfWork command
     | None => createOperationUnitOfWork req
     end))).

(** ** Frames and runs of the parts *)
Lemma createOperation_frame {T} (f : DB → T) R `{!PreOrder R} op :
  (∀ v db, f (set_operations v db) = f db) → preserves (db_rel (on_table f R)) (createOperation op).
Proof. intros Hf. unfold createOperation. db_preserve. by apply preserves_exec_other. Qed.
Lemma setCurrentBundle_frame {T} (f : DB → T) R `{!PreOrder R} d b :
  (∀ v db, f (set_release_bundles v db) = f db) → (∀ v db, f (set_release_definitions v db) = f db) →
  preserves (db_rel (on_table f R)) (setCurrentBundle d b).
Proof. intros H1 H2. unfold setCurrentBundle, restoreBundle. db_preserve; by apply preserves_exec_other. Qed.
Lemma linkCandidateArtifacts_frame {T} (f : DB → T) R `{!PreOrder R} b l :
  (∀ v db, f (set_bundle_candidate_artifacts v db) = f db) → (∀ v db, f (set_candidate_artifacts v db) = f db) →
  preserves (db_rel (on_table f R)) (linkCandidateArtifacts b l).
Proof. intros H1 H2. unfold linkCandidateArtifacts. db_preserve; by apply preserves_exec_other. Qed.
Lemma insertEmergencyIntent_frame {T} (f : DB → T) R `{!PreOrder R} i :
  (∀ v db, f (set_emergency_intents v db) = f db) → preserves (db_rel (on_table f R)) (insertEmergencyIntent i).
Proof. intros Hf. unfold insertEmergencyIntent. db_preserve. by apply preserves_exec_other. Qed.
Lemma insertConvergenceTask_frame {T} (f : DB → T) R `{!PreOrder R} t :
  (∀ v db, f (set_convergence_tasks v db) = f db) → preserves (db_rel (on_table f R)) (insertConvergenceTask t).
Proof. intros Hf. unfold insertConvergenceTask. db_preserve. by apply preserves_exec_other. Qed.
#[export] Hint Extern 1 (preserves (db_rel (on_table _ _)) (createOperation _)) =>
  (apply createOperation_frame; [apply _ | reflexivity]) : preserve.
#[export] Hint Extern 1 (preserves (db_rel (on_table _ _)) (setCurrentBundle _ _)) =>
  (apply setCurrentBundle_frame; [apply _ | reflexivity | reflexivity]) : preserve.
#[export] Hint Extern 1 (preserves (db_rel (on_table _ _)) (linkCandidateArtifacts _ _)) =>
  (apply linkCandidateArtifacts_frame; [apply _ | reflexivity | reflexivity]) : preserve.
#[export] Hint Extern 1 (preserves (db_rel (on_table _ _)) (insertEmergencyIntent _)) =>
  (apply insertEmergencyIntent_frame; [apply _ | reflexivity]) : preserve.
#[export] Hint Extern 1 (preserves (db_rel (on_table _ _)) (insertConvergenceTask _)) =>
  (apply insertConvergenceTask_frame; [apply _ | reflexivity]) : preserve.

Lemma createOutbox_inv d w e w' :
  createOutbox d w = (Ok e, w') →
  ∃ row, db_outbox (w_db w') = db_outbox (w_db w) ++ [row] ∧ ob_ID row = ob_ID d ∧
    ob_OperationID row = ob_OperationID d ∧ ob_OperatorID row = ob_OperatorID d ∧
    ob_Status row = (if bool_decide (ob_Status d = CommandStatusEmpty) then CommandPending else ob_Status d).
Proof.
  unfold createOutbox, normalizeOutboxEntry, createOutboxEntry. intros H. dinv. rewrite Hdb. eexists. by split_and!.
Qed.

Lemma setCurrentBundle_inv defID bundleID w r w' :
  setCurrentBundle defID bundleID w = (Ok r, w') →
  (∃ b, db_release_bundles (w_db w') !! bundleID = Some b ∧ br_Status b = BundleValidated) ∧
  (∃ d d', db_release_definitions (w_db w) !! defID = Some d ∧ db_release_definitions (w_db w') !! defID = Some d' ∧
     rd_CurrentBundleID d' = Some bundleID ∧ rd_OptimisticVersion d' = rd_OptimisticVersion d).
Proof.
  unfold setCurrentBundle, restoreBundle. intros H. dinv.
  match goal with H : _ !! bundleID = Some ?b |- _ => rename H into Hb; destruct (br_Status b) eqn:Hst end; dinv.
  - destruct (bool_decide (rd_CurrentBundleID _ = _)) eqn:E; simpl in *; dinv; destruct_bools.
    + split; [by eexists|]. eexists _, _. by split_and!.
    + split; [by eexists|]. eexists _, _. rewrite lookup_insert_eq. by split_and!.
  - match goal with H : context [br_ArchivedFromStatus ?b] |- _ => destruct (br_ArchivedFromStatus b) end; dinv.
    destruct (bool_decide (rd_CurrentBundleID _ = _)) eqn:E; simpl in *; dinv; destruct_bools.
    + rewrite ?lookup_insert_eq. split; [by eexists|]. eexists _, _. by split_and!.
    + rewrite ?lookup_insert_eq. split; [by eexists|]. eexists _, _. by split_and!.
Qed.

Lemma is_linked_app db bundleID artifactID l :
  existsb (λ l, bool_decide (bc_BundleID l = bundleID) && bool_decide (bc_ArtifactID l = artifactID)) (db_bundle_candidate_artifacts db ++ l)
  = is_linked db bundleID artifactID
    || existsb (λ l, bool_decide (bc_BundleID l = bundleID) && bool_decide (bc_ArtifactID l = artifactID)) l.
Proof. unfold is_linked. apply existsb_app. Qed.

Lemma linkCandidateArtifacts_inv bundleID digests w n w' :
  linkCandidateArtifacts bundleID digests w = (Ok n, w') → digests ≠ [] →
  n = Z.of_nat (length (unlinked_candidates bundleID digests (w_db w))) ∧
  ∀ ca, ca ∈ db_candidate_artifacts (w_db w) → ca_Digest ca ∈ digests →
    is_linked (w_db w') bundleID (ca_ID ca) = true ∧
    ∀ ca', ca' ∈ db_candidate_artifacts (w_db w') → ca_ID ca' = ca_ID ca → ca_OrphanedAt ca' = None.
Proof.
  unfold linkCandidateArtifacts. intros H Hne. rewrite bool_decide_false in H by done. dinv. split; [done|].
  intros ca Hca Hd.
  assert (Hl : existsb (λ l, bool_decide (bc_BundleID l = bundleID) && bool_decide (bc_ArtifactID l = ca_ID ca))
    (db_bundle_candidate_artifacts (w_db w) ++
     ((λ ca0, {| bc_BundleID := bundleID; bc_ArtifactID := ca_ID ca0; bc_LinkedAt := rfc3339 (w_clock w 0) |}) <$>
       unlinked_candidates bundleID digests (w_db w))) = true).
  { rewrite is_linked_app. destruct (is_linked (w_db w) bundleID (ca_ID ca)) eqn:E; [done|]. simpl.
    apply existsb_elem. eexists. split; [apply list_elem_of_fmap_2, list_elem_of_filter; split; [|exact Hca]|].
    - by rewrite E, bool_decide_true.
    - simpl. by rewrite !bool_decide_true. }
  split; [exact Hl|]. intros ca' Hca' Hid. unfold is_linked in Hca'. simpl in Hca'. apply update_where_elem in Hca' as (y & _ & ->).
  assert (Hy : ca_ID y = ca_ID ca) by (revert Hid; by case_match). by rewrite Hy, Hl.
Qed.

Lemma count_operations_0 p db :
  count_operations p db = 0%nat ↔ ∀ id o, db_operations db !! id = Some o → p o = false.
Proof.
  unfold count_operations. split.
  - intros H id o Ho. destruct (p o) eqn:E; [|done]. apply nil_length_inv in H.
    assert (Hin : o ∈ filter (λ o, p o = true) (map_to_list (db_operations db)).*2).
    { apply list_elem_of_filter. split; [done|]. apply list_elem_of_fmap. exists (id, o). split; [done|]. by apply elem_of_map_to_list. }
    rewrite H in Hin. by apply not_elem_of_nil in Hin.
  - intros H. destruct (filter _ _) as [|o l] eqn:E; [done|exfalso].
    assert (Hin : o ∈ filter (λ o, p o = true) (map_to_list (db_operations db)).*2) by (rewrite E; left).
    apply list_elem_of_filter in Hin as [Hp Hin]. apply list_elem_of_fmap in Hin as ([id o'] & -> & Hin).
    apply elem_of_map_to_list in Hin. simpl in Hp. by rewrite (H id o' Hin) in Hp.
Qed.
Lemma ensureOperationAvailable_Ok op u w w' :
  ensureOperationAvailable op w = (Ok u, w') →
  w' = w ∧ ∀ id o, db_operations (w_db w) !! id = Some o → active_for (op_ReleaseDefinitionID op) o = true →
    is_emergency op = true ∧ is_emergency o = true.
Proof.
  unfold ensureOperationAvailable. intros H. dinv. split; [done|]. apply negb_false_iff, Nat.eqb_eq in Hguard.
  unfold conflicting_operations in Hguard. rewrite count_operations_0 in Hguard. intros id o Ho Hact.
  specialize (Hguard id o Ho). rewrite Hact in Hguard. simpl in Hguard.
  apply orb_false_iff in Hguard as [H1 H2]. by apply negb_false_iff in H1, H2.
Qed.

Lemma createOperationUnitOfWork_inv req w res w' :
  createOperationUnitOfWork req w = (Ok res, w') →
  let op := ocr_Operation req in
  (∀ id o, db_operations (w_db w) !! id = Some o → active_for (op_ReleaseDefinitionID op) o = true →
     is_emergency op = true ∧ is_emergency o = true) ∧
  (∃ row, db_operations (w_db w) !! op_ID op = None ∧ op_ID row = op_ID op ∧ op_Status row = op_Status op ∧
     op_ReleaseDefinitionID row = op_ReleaseDefinitionID op ∧ op_OperationType row = op_OperationType op ∧
     db_operations (w_db w') = <[op_ID op := row]> (db_operations (w_db w))) ∧
  match ocr_Dispatch req with
  | None => db_outbox (w_db w') = db_outbox (w_db w)
  | Some d => ∃ e, db_outbox (w_db w') = db_outbox (w_db w) ++ [e] ∧ ob_ID e = ob_ID d ∧
                ob_OperationID e = ob_OperationID d ∧ ob_OperatorID e = ob_OperatorID d
  end ∧
  (∃ b d, db_release_bundles (w_db w') !! op_BundleID op = Some b ∧ br_Status b = BundleValidated ∧
     db_release_definitions (w_db w') !! op_ReleaseDefinitionID op = Some d ∧ rd_CurrentBundleID d = Some (op_BundleID op)) ∧
  (∀ ca, ca ∈ db_candidate_artifacts (w_db w) → ca_Digest ca ∈ ocr_CandidateArtifactDigests req →
     is_linked (w_db w') (op_BundleID op) (ca_ID ca) = true) ∧
  db_emergency_intents (w_db w') = db_emergency_intents (w_db w).
Proof.
  intros H op. unfold createOperationUnitOfWork in H. cbv zeta in H. fold op in H.
  apply bind_Ok in H as (u0 & w0 & Hfence & H). apply bind_Ok in H as (u1 & w1 & Havail & H).
  apply bind_Ok in H as (created & w2 & Hcreate & H). apply bind_Ok in H as (u3 & w3 & Hdisp & H).
  apply bind_Ok in H as (restored & w4 & Hbundle & H). apply bind_Ok in H as (linked & w5 & Hlink & H). dinv.
  assert (E0 : w_db w0 = w_db w) by (eapply (frame (λ db, db)); [|exact Hfence]; db_preserve).
  apply ensureOperationAvailable_Ok in Havail as [-> Havail]. rewrite E0 in *.
  apply createOperation_inv in Hcreate as (Hfresh & Hid & Hdef & Hty & Hst & Hdb). rewrite E0 in *.
  split; [done|]. split; [|split; [|split; [|split]]].
  - exists (operation_row created). split_and!; [done..|]. use_frame db_operations. by rewrite Hdb.
  - destruct (ocr_Dispatch req) as [d|]; dinv.
    + match goal with H : createOutbox _ _ = _ |- _ => apply createOutbox_inv in H as (e & He & ? & ? & ? & _) end.
      exists e. split; [|done]. use_frame db_outbox. by rewrite He, Hdb.
    + use_frame db_outbox. by rewrite Hdb.
  - apply setCurrentBundle_inv in Hbundle as ((b & Hb & Hbst) & d & d' & _ & Hd' & Hcur & _).
    exists b, d'. split; [rewrite <- Hb; by use_frame db_release_bundles|]. split; [done|].
    split; [rewrite <- Hd'; by use_frame db_release_definitions|done].
  - intros ca Hca Hdig. assert (Hne : ocr_CandidateArtifactDigests req ≠ []) by (intros E; rewrite E in Hdig; by apply not_elem_of_nil in Hdig).
    apply linkCandidateArtifacts_inv in Hlink as [_ Hlink]; [|done].
    apply Hlink; [|done]. use_frame db_candidate_artifacts. by rewrite Hdb.
  - use_frame db_emergency_intents. by rewrite Hdb.
Qed.

Lemma insertEmergencyIntent_inv i w i' w' :
  insertEmergencyIntent i w = (Ok i', w') →
  ∃ row, w_db w' = set_emergency_intents (db_emergency_intents (w_db w) ++ [row]) (w_db w) ∧
    ei_OperationID row = ei_OperationID i ∧ ei_ReleaseDefinitionID row = ei_ReleaseDefinitionID i ∧
    (∀ j, emergencyIntentsConflict row j = emergencyIntentsConflict i j) ∧ ei_ID row = ei_ID i ∧
    (∀ x, x ∈ db_emergency_intents (w_db w) → ei_OperationID x ≠ ei_OperationID i ∧ ei_ID x ≠ ei_ID i) ∧
    change_of row = change_of i ∧ change_of i' = change_of i.
Proof.
  unfold insertEmergencyIntent. cbv zeta. intros H. dinv. rewrite Hdb in *.
  eexists. split; [done|]. split; [done|]. split; [done|]. split; [|split; [done|split; [|split; [|done]]]].
  - intros j. unfold emergencyIntentsConflict, intent_row, nullableJSON. simpl.
    by destruct (ei_AnnotationEntries i).
  - intros x Hx. match goal with H : existsb _ _ = false |- _ => rewrite existsb_false_forall, Forall_forall in H; specialize (H x Hx) end.
    destruct_bools. done.
  - unfold change_of, intent_row, nullableJSON. simpl. by destruct (ei_AnnotationEntries i).
Qed.

Lemma is_active_intent_in definitionID db i :
  i ∈ db_emergency_intents db → is_active_intent definitionID db i = true →
  i ∈ merge_sort intent_created_le (filter (λ i, is_active_intent definitionID db i = true) (db_emergency_intents db)).
Proof. intros Hi Ha. rewrite merge_sort_Permutation. by apply list_elem_of_filter. Qed.

Lemma check_emergency_conflicts_Ok command u w w' :
  check_emergency_conflicts command w = (Ok u, w') →
  let definitionID := op_ReleaseDefinitionID (ec_Operation command) in
  w' = w ∧ (∀ id o, db_operations (w_db w) !! id = Some o → active_for definitionID o = false) ∧
  (∀ i, i ∈ db_emergency_intents (w_db w) → is_active_intent definitionID (w_db w) i = true →
     emergencyIntentsConflict i (ec_Intent command) = false).
Proof.
  unfold check_emergency_conflicts, listActiveEmergencyIntents. cbv zeta. intros H. dinv.
  match goal with H : existsb _ _ = false |- _ => rename H into Hconf end.
  repeat match goal with H : negb (Nat.eqb _ 0) = false |- _ => apply negb_false_iff, Nat.eqb_eq in H; rewrite count_operations_0 in H end.
  split; [done|]. split.
  - intros id o Ho. destruct (is_emergency o) eqn:E.
    + match goal with H : ∀ id o, _ → active_emergency _ o = false |- _ => specialize (H id o Ho); unfold active_emergency in H;
        by rewrite E, andb_true_r in H end.
    + match goal with H : ∀ id o, _ → active_standard _ o = false |- _ => specialize (H id o Ho); unfold active_standard in H;
        by rewrite E, andb_true_r in H end.
  - intros i Hi Ha. rewrite existsb_false_forall, Forall_forall in Hconf. apply Hconf. by apply is_active_intent_in.
Qed.

Lemma create_emergency_rows_inv command w created w' :
  create_emergency_rows command w = (Ok created, w') →
  let op := ec_Operation command in
  (∃ row, db_operations (w_db w) !! op_ID op = None ∧ op_ID row = op_ID op ∧ op_Status row = op_Status op ∧
     op_ReleaseDefinitionID row = op_ReleaseDefinitionID op ∧ op_OperationType row = op_OperationType op ∧
     db_operations (w_db w') = <[op_ID op := row]> (db_operations (w_db w))) ∧
  (∃ i, db_emergency_intents (w_db w') = db_emergency_intents (w_db w) ++ [i] ∧
     ei_OperationID i = ei_OperationID (ec_Intent command) ∧
     ei_ReleaseDefinitionID i = ei_ReleaseDefinitionID (ec_Intent command) ∧
     (∀ j, emergencyIntentsConflict i j = emergencyIntentsConflict (ec_Intent command) j) ∧
     (∀ x, x ∈ db_emergency_intents (w_db w) → ei_OperationID x ≠ ei_OperationID i ∧ ei_ID x ≠ ei_ID i) ∧
     change_of i = change_of (ec_Intent command)) ∧
  ecr_Replayed created = false ∧ change_of (ecr_Intent created) = change_of (ec_Intent command).
Proof.
  intros H op. unfold create_emergency_rows in H. apply bind_Ok in H as (o & w1 & Hop & H).
  apply bind_Ok in H as (i & w2 & Hint & H). apply bind_Ok in H as (task & w3 & Htask & H). dinv.
  apply createOperation_inv in Hop as (Hfresh & Hid & Hdef & Hty & Hst & Hdb).
  apply insertEmergencyIntent_inv in Hint as (row & Hdb2 & Hoid & Hrid & Hconf & Hiid & Hnew & Hch & Hch'). rewrite Hdb in *.
  split; [|split; [|done]].
  - exists (operation_row o). split_and!; [done..|]. use_frame db_operations. by rewrite Hdb2.
  - exists row. split; [use_frame db_emergency_intents; by rewrite Hdb2|]. split_and!; [done|done|done| |done].
    intros x Hx. rewrite Hoid, Hiid. by apply Hnew.
Qed.

Lemma decodeEmergencyReplay_replayed r w res w' :
  decodeEmergencyReplay r w = (Ok res, w') → ecr_Replayed res = true ∧ w' = w.
Proof.
  unfold decodeEmergencyReplay. destruct (id_ResponseRef r); intros H; dinv.
  match goal with H : getOperation _ _ = _ |- _ => apply getOperation_Ok in H as (-> & _) end.
  match goal with H : getEmergencyIntentByOperation _ _ = _ |- _ => apply getEmergencyIntentByOperation_Ok in H as (_ & _ & ->) end.
  split; [done|]. destruct (bool_decide _); dinv; [done|].
  match goal with H : getConvergenceTaskByOperation _ _ = _ |- _ => unfold getConvergenceTaskByOperation in H end. by dinv.
Qed.
Lemma lookupEmergencyReplay_replayed s k h w res w' :
  lookupEmergencyReplay s k h w = (Ok (Some res), w') → ecr_Replayed res = true.
Proof.
  unfold lookupEmergencyReplay. intros H. dinv.
  match type of H with (match ?x with _ => _ end) _ = _ => destruct x end; dinv.
  by match goal with H : decodeEmergencyReplay _ _ = _ |- _ => apply decodeEmergencyReplay_replayed in H as [? _] end.
Qed.
Lemma record_emergency_frame {T} (f : DB → T) R `{!PreOrder R} command :
  (∀ v db, f (set_idempotency_records v db) = f db) → preserves (db_rel (on_table f R)) (record_emergency command).
Proof. intros Hf. unfold record_emergency. db_preserve. by apply createOrGet_frame. Qed.
#[export] Hint Extern 1 (preserves (db_rel (on_table _ _)) (record_emergency _)) =>
  (apply record_emergency_frame; [apply _ | reflexivity]) : preserve.
Lemma record_emergency_replayed command w res w' :
  record_emergency command w = (Ok (Some res), w') → ecr_Replayed res = true.
Proof.
  unfold record_emergency. intros H. dinv.
  match type of H with (if ?x then _ else _) _ = _ => destruct x end; dinv.
  by match goal with H : decodeEmergencyReplay _ _ = _ |- _ => apply decodeEmergencyReplay_replayed in H as [? _] end.
Qed.

(** A successful EMERGENCY creation, seen from the tables: the existing ones, or
    one more operation and intent. *)
Definition emergency_created (command : EmergencyCreateCommand) (db db' : DB) : Prop :=
  let op := ec_Operation command in
  (∀ id o, db_operations db !! id = Some o → active_for (op_ReleaseDefinitionID op) o = false) ∧
  (∀ i, i ∈ db_emergency_intents db → is_active_intent (op_ReleaseDefinitionID op) db i = true →
     emergencyIntentsConflict i (ec_Intent command) = false) ∧
  (∃ row, db_operations db !! op_ID op = None ∧ op_ID row = op_ID op ∧ op_Status row = op_Status op ∧
     op_ReleaseDefinitionID row = op_ReleaseDefinitionID op ∧ op_OperationType row = op_OperationType op ∧
     db_operations db' = <[op_ID op := row]> (db_operations db)) ∧
  (∃ i, db_emergency_intents db' = db_emergency_intents db ++ [i] ∧
     ei_OperationID i = ei_OperationID (ec_Intent command) ∧
     ei_ReleaseDefinitionID i = ei_ReleaseDefinitionID (ec_Intent command) ∧
     (∀ j, emergencyIntentsConflict i j = emergencyIntentsConflict (ec_Intent command) j) ∧
     (∀ x, x ∈ db_emergency_intents db → ei_OperationID x ≠ ei_OperationID i ∧ ei_ID x ≠ ei_ID i) ∧
     change_of i = change_of (ec_Intent command)).
Lemma createEmergency_inv command w res w' :
  createEmergencyOperationUnitOfWork command w = (Ok res, w') →
  (emergency_created command (w_db w) (w_db w') ∧
   (ores_Replayed res = false → ∃ i, ores_Intent res = Some i ∧ change_of i = change_of (ec_Intent command))) ∨
  (ores_Replayed res = true ∧ db_operations (w_db w') = db_operations (w_db w) ∧
   db_emergency_intents (w_db w') = db_emergency_intents (w_db w)).
Proof.
  intros H. unfold createEmergencyOperationUnitOfWork in H. cbv zeta in H.
  apply bind_Ok in H as (u0 & w0 & Hfence & H). apply bind_Ok in H as (replayed & w1 & Hlook & H).
  assert (E0 : w_db w0 = w_db w) by (eapply (frame (λ db, db)); [|exact Hfence]; db_preserve).
  assert (E1 : w_db w1 = w_db w).
  { rewrite <- E0. eapply (frame (λ db, db)); [|exact Hlook]. db_preserve. }
  destruct replayed as [replayed|].
  { right. dinv. destruct (negb _); dinv. apply lookupEmergencyReplay_replayed in Hlook. by rewrite E1. }
  left. apply bind_Ok in H as (u2 & w2 & Hconf & H). apply bind_Ok in H as (created & w3 & Hrows & H).
  apply check_emergency_conflicts_Ok in Hconf as (-> & Hfree & Hconf). rewrite E1 in *.
  apply create_emergency_rows_inv in Hrows as (Hop & Hint & _ & Hch). rewrite E1 in *.
  assert (Hrest : db_operations (w_db w') = db_operations (w_db w3) ∧ db_emergency_intents (w_db w') = db_emergency_intents (w_db w3)).
  { dinv. match type of H with (match ?x with _ => _ end) _ = _ => destruct x end; dinv;
      (split; [by use_frame db_operations|by use_frame db_emergency_intents]). }
  destruct Hrest as [R1 R2]. unfold emergency_created. rewrite R1, R2. split; [by split_and!|]. intros Hnew. apply bind_Ok in H as (replayed & w4 & Hrec & H).
  destruct replayed as [replayed|].
  - dinv. destruct (negb _); dinv. apply record_emergency_replayed in Hrec. by rewrite Hrec in Hnew.
  - apply bind_Ok in H as (u5 & w5 & _ & H). dinv. by eexists.
Qed.

(** ** Properties *)

(** C23: creating a standard operation is complete and atomic: no other live
    operation occupies the release (a standard one refuses any, whatever its
    type); the operation and its dispatch row are inserted; the release
    definition points at the operation's bundle, which is validated; every
    known candidate artifact of the request is linked to the bundle; and when
    the request fails nothing has changed. *)
Theorem creation_complete req w r w' :
  ocr_Emergency req = None →
  OperationCreationUnitOfWork req w = (r, w') →
  match r with
  | Err _ => w_db w' = w_db w
  | Ok _ =>
      let op := ocr_Operation req in
      (∀ id o, db_operations (w_db w) !! id = Some o → active_for (op_ReleaseDefinitionID op) o = true →
         is_emergency op = true ∧ is_emergency o = true) ∧
      (∃ row, db_operations (w_db w) !! op_ID op = None ∧ op_ID row = op_ID op ∧ op_Status row = op_Status op ∧
         op_ReleaseDefinitionID row = op_ReleaseDefinitionID op ∧ op_OperationType row = op_OperationType op ∧
         db_operations (w_db w') = <[op_ID op := row]> (db_operations (w_db w))) ∧
      match ocr_Dispatch req with
      | None => db_outbox (w_db w') = db_outbox (w_db w)
      | Some d => ∃ e, db_outbox (w_db w') = db_outbox (w_db w) ++ [e] ∧ ob_ID e = ob_ID d ∧
                    ob_OperationID e = ob_OperationID d ∧ ob_OperatorID e = ob_OperatorID d
      end ∧
      (∃ b d, db_release_bundles (w_db w') !! op_BundleID op = Some b ∧ br_Status b = BundleValidated ∧
         db_release_definitions (w_db w') !! op_ReleaseDefinitionID op = Some d ∧ rd_CurrentBundleID d = Some (op_BundleID op)) ∧
      (∀ ca, ca ∈ db_candidate_artifacts (w_db w) → ca_Digest ca ∈ ocr_CandidateArtifactDigests req →
         is_linked (w_db w') (op_BundleID op) (ca_ID ca) = true)
  end.
Proof.
  intros Hnone H. destruct r as [res|e]; [|by apply retry_loop_Err_db in H].
  apply retry_loop_Ok in H as (w0 & Hw0 & H). apply run_commit_Ok in H as [_ H]. rewrite Hnone in H.
  apply createOperationUnitOfWork_inv in H as (H1 & H2 & H3 & H4 & H5 & _). simpl in *. rewrite <- Hw0. by split_and!.
Qed.

(** C24: an EMERGENCY operation that was created (not replayed) was alone: no
    live operation of any type occupied its release, and no intent that still
    holds a lock conflicts with its target; its operation and intent rows are
    inserted together. *)
Theorem emergency_creation_exclusive req command w res w' :
  ocr_Emergency req = Some command →
  OperationCreationUnitOfWork req w = (Ok res, w') → ores_Replayed res = false →
  emergency_created command (w_db w) (w_db w').
Proof.
  intros Hsome H Hnew. apply retry_loop_Ok in H as (w0 & Hw0 & H). apply run_commit_Ok in H as [_ H]. rewrite Hsome in H.
  apply createEmergency_inv in H as [[H _]|(Hr & _)]; [|congruence]. simpl in H. by rewrite <- Hw0.
Qed.

Definition sample_request : OperationCreationRequest :=
  {| ocr_Operation := sample_op "op1" "d1" "k1" OperationInstall StatusPending 0;
     ocr_Dispatch := Some (sample_entry "op1:artifact" "op1" CommandStatusEmpty 0);
     ocr_CandidateArtifactDigests := ["sha256:a"]; ocr_ExpectedAuthorizationVersion := 1; ocr_Emergency := None |}.
Definition sample_content : BundleContent :=
  {| bd_Name := "web"; bd_SubmittedByOrganizationID := "o1"; bd_SubmittedByUserID := "u1"; bd_DigestAlg := "sha256"; bd_DigestValue := "b";
     bd_ChartRef := "registry.example.com/web"; bd_ChartVersion := "1.0.0"; bd_ChartDigest := "sha256:c";
     bd_Images := [{| bm_Ref := "registry.example.com/web-image"; bm_Digest := "sha256:a"; bm_ValuesPath := "image";
                      bm_ValueKind := "FULL_REFERENCE" |}];
     bd_GitCommit := ""; bd_PipelineID := ""; bd_SignatureRef := ""; bd_SBOMRef := "sbom"; bd_ProvenanceRef := ""; bd_CreatedAt := nsec |}.
Definition bundle_world : World :=
  sample_world (set_candidate_artifacts [{| ca_ID := "a1"; ca_Digest := "sha256:a"; ca_OrphanedAt := Some nsec |}]
    (set_release_bundles {[ "b1" := {| br_Status := BundleArchived; br_ArchivedFromStatus := BundleValidated; br_ArchivedAt := Some nsec;
                                      br_Content := sample_content |} ]}
      (db_with_ops []))).
Lemma creation_complete_witness :
  ∃ res w' e, OperationCreationUnitOfWork sample_request bundle_world = (Ok res, w') ∧ ores_BundleRestored res = true ∧
    db_outbox (w_db w') = [e] ∧ ob_ID e = "op1:artifact" ∧ is_linked (w_db w') "b1" "a1" = true.
Proof.
  destruct (OperationCreationUnitOfWork sample_request bundle_world) as [[res|e] w'] eqn:E; [|vm_compute in E; discriminate E].
  destruct (creation_complete sample_request bundle_world _ w' eq_refl E) as (_ & _ & (e & He & Hid & _) & _ & Hlink).
  exists res, w', e. split; [reflexivity|]. split; [vm_compute in E; injection E as <- _; reflexivity|].
  split; [exact He|]. split; [exact Hid|].
  exact (Hlink {| ca_ID := "a1"; ca_Digest := "sha256:a"; ca_OrphanedAt := Some nsec |} ltac:(left) ltac:(left)).
Defined.

Definition sample_emergency (id key workload : string) (expires : time) : EmergencyCreateCommand :=
  let i := sample_intent ("i-" ++ id)%string id "d1" "" EffectEmpty in
  {| ec_Operation := sample_op id "d1" key OperationEmergency StatusPending 0;
     ec_Intent := {| ei_ID := ei_ID i; ei_ReleaseDefinitionID := "d1"; ei_OperationID := id; ei_CommandID := id;
                     ei_Action := EmergencySetReplicas; ei_WorkloadKind := "Deployment"; ei_WorkloadName := workload;
                     ei_WorkloadNamespace := "ns"; ei_WorkloadUID := "u"; ei_Container := None; ei_ArtifactID := None;
                     ei_ImageReference := None; ei_TargetReplicas := Some 3; ei_AnnotationScope := None;
                     ei_AnnotationEntries := RawEmpty; ei_Convergence := EmergencyRevertOnNextReconcile;
                     ei_PromotionPaths := RawEmpty; ei_BeforeSnapshot := RawEmpty; ei_AfterSnapshot := RawEmpty;
                     ei_DeliveryStatus := ""; ei_EffectStatus := EffectEmpty; ei_LastDeliveryAt := None;
                     ei_LockReleasedAt := None; ei_RevertStatus := ""; ei_ReconciledByOperationID := "";
                     ei_CreatedAt := nsec; ei_UpdatedAt := nsec |};
     ec_ConvergenceTask := None; ec_ExpectedAuthorizationVersion := 1; ec_IdempotencyScope := "s";
     ec_IdempotencyKeyHash := "kh"; ec_RequestHash := "rh"; ec_IdempotencyExpiresAt := expires |}.
Definition emergency_request (command : EmergencyCreateCommand) : OperationCreationRequest :=
  {| ocr_Operation := ec_Operation command; ocr_Dispatch := None; ocr_CandidateArtifactDigests := [];
     ocr_ExpectedAuthorizationVersion := 0; ocr_Emergency := Some command |}.
Lemma emergency_creation_exclusive_witness :
  ∃ res w', OperationCreationUnitOfWork (emergency_request (sample_emergency "op1" "k1" "web" (5000 * nsec)))
              (sample_world (db_with_ops [])) = (Ok res, w') ∧
    ∃ i, db_emergency_intents (w_db w') = [i] ∧ ei_OperationID i = "op1".
Proof.
  destruct (OperationCreationUnitOfWork (emergency_request (sample_emergency "op1" "k1" "web" (5000 * nsec)))
              (sample_world (db_with_ops []))) as [[res|e] w'] eqn:E; [|vm_compute in E; discriminate E].
  destruct (emergency_creation_exclusive (emergency_request _) (sample_emergency "op1" "k1" "web" (5000 * nsec)) _ _ _ eq_refl E
    ltac:(vm_compute in E; injection E as <- _; reflexivity)) as (_ & _ & _ & (i & Hi & Hid & _)).
  exists res, w'. split; [reflexivity|]. exists i. split; [exact Hi|exact Hid].
Defined.

(** The replay inside the transaction is meant to discard the business writes,
    but the unit of work commits whatever is not an error.  It is reached when
    the record is not found by text (".1Z" against ".12Z") and not expired by
    instant: the answer is the first operation, and a second one is in the
    store. *)
Definition first_world : World :=
  (OperationCreationUnitOfWork (emergency_request (sample_emergency "op1" "k1" "web" (2000 * nsec + 120000000)))
     (sample_world (db_with_ops []))).2.
Definition replay_world : World :=
  {| w_db := w_db (Finish "i-op1" "op1" 4 StatusSucceeded EmergencyEffectApplied "" RawEmpty RawEmpty
                     (transition "op1" StatusRunning 3 ""
                       (transition "op1" StatusQueued 2 "" (transition "op1" StatusPreflight 1 "" first_world).2).2).2).2;
     w_clock := λ n, 2000 * nsec + 100000000; w_uuid := w_uuid first_world; w_busy := λ _, false; w_foreign_keys := true |}.
Lemma replay_commits_business_writes :
  let r := OperationCreationUnitOfWork (emergency_request (sample_emergency "op2" "k2" "api" (3000 * nsec))) replay_world in
  (op_ID ∘ ores_Operation <$> result r) = Some "op1" ∧ (ores_Replayed <$> result r) = Some true ∧
  is_Some (db_operations (w_db r.2) !! "op2").
Proof. vm_compute. eauto. Qed.
