(* ===== verification/Authorization.v ===== *)
(** * Authorization
    (internal/auth: authorization_snapshot.go, authorization_decision.go;
    internal/authorization: module.go, fence.go, stale_cause.go,
    store_authorizer.go; store/sqlite/emergency_config.go)

    release-auth answers, for an actor and an organization-customer scope, a
    snapshot of what the actor may do, stamped with the source version it read.
    The orchestrator pulls a snapshot before every governance write, refuses
    whatever is not fresh, and hands the version to the store, whose writes check
    it ([checkAuthorizationFence]).  The two services and every other request run
    interleaved ([wp]); what a snapshot says about bindings and roles therefore
    still holds in the transaction of the write that uses it. *)
From stdpp Require Import pretty.
From S2P Require Import Prelude Utf8 Json Redact DurationText RateLimit Domain Database.
From S2P Require Import OperationStore EmergencyStore Creation Program AuthStore Policy ProcedurePolicy Sessions Authn.
#[local] Open Scope Z_scope.

(** ** The emergency switch (emergency_config.go) *)
Definition emergencyEnabledKey : string := "emergency.enabled".
Definition emergencyTimeoutKey : string := "emergency.operation_timeout".
Definition emergencyEffectObserveTimeoutKey : string := "emergency.effect_observe_timeout".
Definition DefaultEmergencyOperationTimeout : Z := 30 * nsec.
Definition DefaultEmergencyEffectObserveTimeout : Z := 24 * 3600 * nsec.
Definition default_config : EmergencyConfig :=
  {| ecf_Enabled := false; ecf_OperationTimeout := DefaultEmergencyOperationTimeout;
     ecf_EffectObserveTimeout := DefaultEmergencyEffectObserveTimeout |}.
Definition positive_duration (text : option string) (default : Z) : Z :=
  match text with
  | Some s => match ParseDuration s with Some d => if 0 <? d then d else default | None => default end
  | None => default
  end.
Definition emergency_config (settings : gmap string string) : EmergencyConfig :=
  {| ecf_Enabled := bool_decide (settings !! emergencyEnabledKey = Some "true");
     ecf_OperationTimeout := positive_duration (settings !! emergencyTimeoutKey) DefaultEmergencyOperationTimeout;
     ecf_EffectObserveTimeout := positive_duration (settings !! emergencyEffectObserveTimeoutKey) DefaultEmergencyEffectObserveTimeout |}.
Definition GetEmergencyConfig : SM EmergencyConfig := query (λ db, emergency_config (at_app_settings (db_auth db))).
(** Three statements, in the order of a Go map: any. *)
Definition set_setting (key value : string) : SM unit :=
  autocommit (exec (on_auth (λ t, set_app_settings (<[key := value]> (at_app_settings t)) t))).
Definition SetEmergencyConfig (order : list string) (c : EmergencyConfig) : svc World error (res error unit) :=
  let value key :=
    if bool_decide (key = emergencyEnabledKey) then if ecf_Enabled c then "true" else "false"
    else if bool_decide (key = emergencyTimeoutKey)
    then Duration_String (if ecf_OperationTimeout c <=? 0 then DefaultEmergencyOperationTimeout else ecf_OperationTimeout c)
    else Duration_String (if ecf_EffectObserveTimeout c <=? 0 then DefaultEmergencyEffectObserveTimeout else ecf_EffectObserveTimeout c) in
  foldr (λ key k, let* _ := set_setting key (value key) fails failed in k) (Done (Ok tt)) order.

(** ** Snapshots (authorization_snapshot.go) *)
Record Snapshot := {
  sn_OrganizationID : string; sn_CustomerID : string; sn_ActorID : string; sn_Role : string;
  sn_CanExecuteEmergency : bool; sn_CanResolveEmergency : bool; sn_CanCreateValuesRevision : bool;
  sn_CanApproveValuesRevision : bool; sn_SourceVersion : Z; sn_PolicyVersion : Z; sn_Checkpoint : Z; sn_Fresh : bool;
}.
Definition snapshotError (c : code) (reason : string) (source policy : Z) : connect_error :=
  {| ce_code := c; ce_message := reason;
     ce_meta := [("X-Reason-Code", reason); ("X-Source-Version", pretty source);
                 ("X-Checkpoint-Fresh", if 0 <? source then "true" else "false"); ("X-Policy-Version", pretty policy)] |}.
Definition subject_of (actor : authctx_Actor) : string :=
  if bool_decide (ax_Service actor = "") then ax_UserID actor else "service:" ++ ax_Service actor.

Section producer.
Context {T : Type} `{Host T}.
Context (uuid_Validate : string → bool).
Context (casbin_Enforce : list CasbinRule → string → string → string → string → option bool).
Abbreviation tsvc := (svc T error).
Abbreviation rpc A := (tsvc (res connect_error A)).
Definition in_world {A} (p : svc World error A) : tsvc A :=
  svc_lift (λ t, nd_world (node_of t)) (λ w t, set_node (put_world w (node_of t)) t) p.
Definition snapshot_refused {A} (c : code) (reason : string) (source policy : Z) : rpc A := Done (Err (snapshotError c reason source policy)).
Definition allowed (subject domain : string) (action : AuthorizationAction) (k : bool → rpc (Snapshot * bool)) : rpc (Snapshot * bool) :=
  let* d := at_node (Enforce casbin_Enforce subject domain "release" (action_string action)) fails (λ _, k false) in
  k (bool_decide (d = None)).
(** The second half of the handler: capabilities from the in-memory policy. *)
Definition answer_snapshot (actor : authctx_Actor) (organizationID customerID : string) (source policy : Z) (role : string)
    : rpc (Snapshot * bool) :=
  let unavailable := snapshot_refused CodeUnavailable "POLICY_UNAVAILABLE" source policy in
  let* healthy := at_node (gets (λ n, ef_healthy (nd_enforcer n))) fails (λ _, unavailable) in
  if negb healthy then unavailable
  else
    let subject := subject_of actor in
    allowed subject organizationID AuthorizationExecuteEmergency (λ execute,
    allowed subject organizationID AuthorizationResolveEmergency (λ resolve,
    allowed subject organizationID AuthorizationCreateValues (λ create,
    allowed subject organizationID AuthorizationApproveValues (λ approve,
      let snapshot :=
        {| sn_OrganizationID := organizationID; sn_CustomerID := customerID; sn_ActorID := subject; sn_Role := role;
           sn_CanExecuteEmergency := execute; sn_CanResolveEmergency := resolve; sn_CanCreateValuesRevision := create;
           sn_CanApproveValuesRevision := approve; sn_SourceVersion := source; sn_PolicyVersion := policy;
           sn_Checkpoint := source; sn_Fresh := 0 <? source |} in
      let* config := here GetEmergencyConfig fails (λ _, Done (Ok (snapshot, false))) in
      Done (Ok (snapshot, ecf_Enabled config)))))).
Definition GetAuthorizationSnapshot (actor : option authctx_Actor) (organizationID customerID : string) : rpc (Snapshot * bool) :=
  match actor with
  | None => snapshot_refused CodeUnauthenticated "INVALID_ACTOR_CONTEXT" 0 0
  | Some actor =>
  if bool_decide (ax_OrganizationID actor = "") || (bool_decide (ax_UserID actor = "") && bool_decide (ax_Service actor = ""))
  then snapshot_refused CodeUnauthenticated "INVALID_ACTOR_CONTEXT" 0 0
  else if negb (uuid_Validate organizationID) || negb (uuid_Validate customerID)
  then snapshot_refused CodeInvalidArgument "INVALID_SCOPE" 0 0
  else if negb (bool_decide (organizationID = ax_OrganizationID actor))
  then snapshot_refused CodePermissionDenied "PERMISSION_DENIED" 0 0
  else
    svc_bind (in_world Load) (λ r,
      match r with
      | Err _ => snapshot_refused CodeUnavailable "POLICY_UNAVAILABLE" 0 0
      | Ok durable =>
          let source := as_SourceVersion durable in
          let policy := as_PolicyVersion durable in
          let denied reason := snapshot_refused CodePermissionDenied reason source policy in
          let* organization := here (Get_organization organizationID) fails (λ _, denied "ORGANIZATION_DISABLED") in
          if negb (bool_decide (or_Status organization = OrgActive)) then denied "ORGANIZATION_DISABLED" else
          let* customer := here (Get_customer customerID) fails (λ _, denied "CUSTOMER_DISABLED") in
          if negb (bool_decide (cu_Status customer = CustomerActive)) then denied "CUSTOMER_DISABLED" else
          let* binding := here (GetByOrgAndCustomer organizationID customerID) fails (λ _, denied "DOMAIN_BINDING_MISSING") in
          if negb (bool_decide (bi_Status binding = BindingActive)) then denied "DOMAIN_BINDING_MISSING" else
          let answer := answer_snapshot actor organizationID customerID source policy in
          if bool_decide (ax_Service actor = "") then
            let* member := here (Get_member organizationID (ax_UserID actor)) fails (λ _, denied "PERMISSION_DENIED") in
            answer (role_string (om_Role member))
          else answer "service"
      end)
  end.

Definition action_of (s : string) : AuthorizationAction :=
  default (AuthorizationActionOther s)
    (find_row (λ a, bool_decide (action_string a = s))
       [AuthorizationExecuteEmergency; AuthorizationResolveEmergency; AuthorizationCreateValues; AuthorizationApproveValues;
        AuthorizationCreateOperation]).
(** upsertCapabilityGrant *)
Definition grant_created (g : CapabilityGrant) (t : time) : CapabilityGrant :=
  if is_zero_time (cg_CreatedAt g)
  then {| cg_OrganizationID := cg_OrganizationID g; cg_Subject := cg_Subject g; cg_Action := cg_Action g; cg_GrantedBy := cg_GrantedBy g;
          cg_Revoked := cg_Revoked g; cg_CreatedAt := t; cg_UpdatedAt := cg_UpdatedAt g |}
  else g.
Fixpoint upsert_grant (grants : list CapabilityGrant) (update : CapabilityGrant) (found : bool) : list CapabilityGrant :=
  match grants with
  | [] => if found then [] else [grant_created update (cg_UpdatedAt update)]
  | g :: grants =>
      if same_grant_key g update then
        let update := grant_created update (cg_CreatedAt g) in update :: upsert_grant grants update true
      else g :: upsert_grant grants update found
  end.
Definition upsertCapabilityGrant (grants : list CapabilityGrant) (update : CapabilityGrant) : list CapabilityGrant :=
  upsert_grant grants update false.
Fixpoint set_grant_attempts (attempts : nat) (actor : authctx_Actor) (subject : string) (action : AuthorizationAction) (revoked : bool)
    : rpc (Z * Z) :=
  match attempts with
  | O => snapshot_refused CodeAborted "AUTHORIZATION_VERSION_CONFLICT" 0 0
  | S attempts =>
      svc_bind (in_world Load) (λ r,
        match r with
        | Err _ => snapshot_refused CodeUnavailable "POLICY_UNAVAILABLE" 0 0
        | Ok durable =>
            let source := as_SourceVersion durable in
            let policy := as_PolicyVersion durable in
            let unavailable := snapshot_refused CodeUnavailable "POLICY_UNAVAILABLE" source policy in
            let* updatedAt := here now fails (λ _, unavailable) in
            let grants := upsertCapabilityGrant (as_Grants durable)
              {| cg_OrganizationID := ax_OrganizationID actor; cg_Subject := subject; cg_Action := action; cg_GrantedBy := ax_UserID actor;
                 cg_Revoked := revoked; cg_CreatedAt := 0; cg_UpdatedAt := updatedAt |} in
            svc_bind (in_world (compileAuthorizationRules grants (as_Rules durable))) (λ r,
              match r with
              | Err _ => unavailable
              | Ok rules =>
                  svc_bind (in_world (Apply
                    {| aa_ExpectedSourceVersion := source; aa_ExpectedPolicyVersion := policy; aa_Mutation := AuthorizationGrantChanged;
                       aa_Grants := Some grants; aa_Rules := Some rules |})) (λ r,
                    match r with
                    | Err ErrOptimisticLock => set_grant_attempts attempts actor subject action revoked
                    | Err _ => unavailable
                    | Ok applied =>
                        svc_bind (in_node LoadPolicies) (λ r,
                          match r with
                          | Err _ => snapshot_refused CodeUnavailable "POLICY_UNAVAILABLE" (as_SourceVersion applied) (as_PolicyVersion applied)
                          | Ok _ => Done (Ok (as_SourceVersion applied, as_PolicyVersion applied))
                          end)
                    end)
              end)
        end)
  end.
Definition SetCapabilityGrant (actor : option authctx_Actor) (organizationID subject action : string) (revoked : bool) : rpc (Z * Z) :=
  match actor with
  | None => snapshot_refused CodeUnauthenticated "INVALID_ACTOR_CONTEXT" 0 0
  | Some actor =>
  if negb (bool_decide (ax_Service actor = "")) || bool_decide (ax_UserID actor = "") || bool_decide (ax_OrganizationID actor = "")
  then snapshot_refused CodeUnauthenticated "INVALID_ACTOR_CONTEXT" 0 0
  else if negb (uuid_Validate organizationID) || negb (uuid_Validate subject) then snapshot_refused CodeInvalidArgument "INVALID_SCOPE" 0 0
  else if negb (bool_decide (organizationID = ax_OrganizationID actor)) then snapshot_refused CodePermissionDenied "PERMISSION_DENIED" 0 0
  else
    let action := action_of action in
    if negb (AuthorizationAction_Valid action) then snapshot_refused CodeInvalidArgument "INVALID_ACTION" 0 0
    else
      let denied := snapshot_refused CodePermissionDenied "PERMISSION_DENIED" 0 0 in
      let* member := here (Get_member (ax_OrganizationID actor) (ax_UserID actor)) fails (λ _, denied) in
      if negb (bool_decide (om_Role member = RolePlatformAdmin)) && negb (bool_decide (om_Role member = RoleReleaseAdmin)) then denied
      else
        let* _ := here (Get_member (ax_OrganizationID actor) subject) fails (λ _, denied) in
        set_grant_attempts 3 actor subject action revoked
  end.

(** ** Decisions for other services (authorization_decision.go) *)
Record AccessDecision := {
  de_Allowed : bool; de_Reason : string; de_OrganizationID : string; de_Role : string; de_PolicyVersion : Z;
  de_AllowCrossOrganization : bool; de_MaxWindowDays : Z;
}.
Definition newAccessDecision (member : OrganizationMember) (targetOrg : string) (policyVersion : Z) (isAllowed : bool) (reason : string)
    : AccessDecision :=
  let admin := bool_decide (om_Role member = RolePlatformAdmin) in
  {| de_Allowed := isAllowed; de_Reason := reason; de_OrganizationID := targetOrg; de_Role := role_string (om_Role member);
     de_PolicyVersion := policyVersion; de_AllowCrossOrganization := admin; de_MaxWindowDays := if admin then 366 else 31 |}.
Definition AuthorizeAccess (actor : option authctx_Actor) (organizationID object action : string) : rpc AccessDecision :=
  match actor with
  | None => refuse CodeUnauthenticated "invalid actor context"
  | Some actor =>
  if bool_decide (ax_UserID actor = "") || bool_decide (ax_OrganizationID actor = "") then refuse CodeUnauthenticated "invalid actor context"
  else if bool_decide (object = "") || bool_decide (action = "") then refuse CodeInvalidArgument "object and action are required"
  else
    let* healthy := at_node (gets (λ n, ef_healthy (nd_enforcer n))) fails internal "policy" in
    if negb healthy then refuse CodeUnavailable "authorization policy unavailable"
    else
      svc_bind (once (here (Get_member (ax_OrganizationID actor) (ax_UserID actor)))) (λ r,
        match r with
        | Err ErrNotFound => refuse CodePermissionDenied "actor has no active membership"
        | Err _ => refuse CodeInternal "membership lookup"
        | Ok member =>
            let targetOrg := if bool_decide (organizationID = "") then ax_OrganizationID actor else organizationID in
            let* version := at_node PolicyVersion_of fails internal "policy version" in
            let decision := newAccessDecision member targetOrg version in
            if negb (bool_decide (targetOrg = ax_OrganizationID actor)) then
              if bool_decide (om_Role member = RolePlatformAdmin) then Done (Ok (decision true "ok"))
              else Done (Ok (decision false "cross_organization_denied"))
            else
              let* d := at_node (Enforce casbin_Enforce (ax_UserID actor) targetOrg object action) fails internal "enforce" in
              match d with
              | None => Done (Ok (decision true "ok"))
              | Some PolicyUnavailable => refuse CodeUnavailable "authorization policy unavailable"
              | Some d => Done (Ok (decision false (denial_reason d)))
              end
        end)
  end.
End producer.

(** ** The authorizers of the orchestrator

    A successful decision is the source version recorded in the request's fence
    (fence.go): [Ok source]. *)
Inductive StaleCause : Type :=
| StaleCauseWarmup | StaleCauseGap | StaleCauseRegression | StaleCauseNotFresh | StaleCauseSnapshotRPCTimeout
| StaleCauseSnapshotRPCError | StaleCauseScopeMismatch | StaleCauseCheckpointRead | StaleCauseCheckpointWrite | StaleCauseUnknown.
Definition cause_string (c : StaleCause) : string :=
  match c with
  | StaleCauseWarmup => "warmup" | StaleCauseGap => "gap" | StaleCauseRegression => "regression" | StaleCauseNotFresh => "not-fresh"
  | StaleCauseSnapshotRPCTimeout => "snapshot-rpc-timeout" | StaleCauseSnapshotRPCError => "snapshot-rpc-error"
  | StaleCauseScopeMismatch => "snapshot-scope-mismatch" | StaleCauseCheckpointRead => "checkpoint-read-error"
  | StaleCauseCheckpointWrite => "checkpoint-write-error" | StaleCauseUnknown => "unknown"
  end.
Definition staleError (source checkpoint policy : Z) : connect_error :=
  {| ce_code := CodeUnavailable; ce_message := "authorization snapshot stale";
     ce_meta := [("X-Reason-Code", "AUTHORIZATION_SNAPSHOT_STALE"); ("X-Source-Version", pretty source); ("X-Checkpoint", pretty checkpoint);
                 ("X-Checkpoint-Fresh", "false"); ("X-Policy-Version", pretty policy)] |}.
Definition setStaleCauseMeta (e : connect_error) (c : StaleCause) : connect_error :=
  {| ce_code := ce_code e; ce_message := ce_message e; ce_meta := ce_meta e ++ [("X-Stale-Cause", cause_string c)] |}.
Definition permissionDeniedError (source checkpoint policy : Z) : connect_error :=
  {| ce_code := CodePermissionDenied; ce_message := "permission denied";
     ce_meta := [("X-Reason-Code", "PERMISSION_DENIED"); ("X-Source-Version", pretty source); ("X-Checkpoint", pretty checkpoint);
                 ("X-Policy-Version", pretty policy)] |}.
Definition invalidActorError (message : string) : connect_error :=
  {| ce_code := CodeUnauthenticated; ce_message := message; ce_meta := [("X-Reason-Code", "INVALID_ACTOR_CONTEXT")] |}.
(** roleAllows of store_authorizer.go *)
Definition store_roleAllows (role : option Role) (action : AuthorizationAction) : bool :=
  match role with
  | Some RolePlatformAdmin => true
  | Some RoleReleaseAdmin =>
      bool_decide (action ∈ [AuthorizationCreateOperation; AuthorizationExecuteEmergency; AuthorizationCreateValues; AuthorizationApproveValues])
  | Some RoleDeployer => bool_decide (action = AuthorizationCreateValues)
  | _ => false
  end.

Section store_authorizer.
Context {T : Type} `{Host T}.
Abbreviation tsvc := (svc T error).
(** StoreAuthorizer.AuthorizeWrite *)
Definition StoreAuthorizeWrite (actor : authctx_Actor) (customerID : string) (action : AuthorizationAction) : tsvc (res connect_error Z) :=
  if bool_decide (customerID = "") || negb (AuthorizationAction_Valid action) || bool_decide (ax_OrganizationID actor = "")
  then Done (Err (invalidActorError "actor organization, customer, and action are required"))
  else
    let denied := Done (Err (permissionDeniedError 0 0 0)) in
    let* binding := here (GetByOrgAndCustomer (ax_OrganizationID actor) customerID) fails (λ _, denied) in
    if negb (bool_decide (bi_Status binding = BindingActive)) then denied else
    let* organization := here (Get_organization (ax_OrganizationID actor)) fails (λ _, denied) in
    if negb (bool_decide (or_Status organization = OrgActive)) then denied else
    let* customer := here (Get_customer customerID) fails (λ _, denied) in
    if negb (bool_decide (cu_Status customer = CustomerActive)) then denied else
    let decide role :=
      svc_bind (in_world Load) (λ r,
        match r with
        | Err _ => Done (Err (staleError 0 0 0))
        | Ok snapshot =>
            let source := as_SourceVersion snapshot in
            if existsb (λ g, bool_decide (cg_OrganizationID g = ax_OrganizationID actor) && bool_decide (cg_Subject g = subject_of actor)
                             && bool_decide (cg_Action g = action) && negb (cg_Revoked g)) (as_Grants snapshot) then Done (Ok source)
            else if store_roleAllows role action then Done (Ok source)
            else Done (Err (permissionDeniedError source source (as_PolicyVersion snapshot)))
        end) in
    if bool_decide (ax_Service actor = "") then
      let* member := here (Get_member (ax_OrganizationID actor) (ax_UserID actor)) fails (λ _, denied) in
      decide (Some (om_Role member))
    else decide None.
End store_authorizer.

(** ** The module (module.go) *)
Abbreviation cacheKey := (string * string * string)%type.   (* actor, organization, customer *)
Record cacheEntry := {
  ce_actor : authctx_Actor; ce_credential : string; ce_snapshot : option Snapshot;   (* [None]: not initialized *)
  ce_backoff : Z; ce_nextPull : time;
}.
Record Module_ := {
  mo_entries : gmap cacheKey cacheEntry; mo_latest : gmap string Snapshot; mo_interval : Z; mo_backoffMax : Z;
}.
Definition NewModule (interval backoffMax : Z) : Module_ :=
  {| mo_entries := ∅; mo_latest := ∅; mo_interval := if interval <=? 0 then nsec else interval;
     mo_backoffMax := if backoffMax <=? 0 then 30 * nsec else backoffMax |}.
Definition with_entries (m : gmap cacheKey cacheEntry) (s : Module_) : Module_ :=
  {| mo_entries := m; mo_latest := mo_latest s; mo_interval := mo_interval s; mo_backoffMax := mo_backoffMax s |}.
Definition scopeKey (organizationID customerID : string) : string := organizationID ++ ":" ++ customerID.
Definition authorizationSubject (actor : authctx_Actor) : string :=
  if bool_decide (ax_Service actor = "") then ax_UserID actor else "service:" ++ ax_Service actor.
Definition capabilityAllowed (s : Snapshot) (action : AuthorizationAction) : bool :=
  match action with
  | AuthorizationCreateOperation =>
      bool_decide (sn_Role s = role_string RoleReleaseAdmin) || bool_decide (sn_Role s = role_string RolePlatformAdmin)
  | AuthorizationExecuteEmergency => sn_CanExecuteEmergency s
  | AuthorizationResolveEmergency => sn_CanResolveEmergency s
  | AuthorizationCreateValues => sn_CanCreateValuesRevision s
  | AuthorizationApproveValues => sn_CanApproveValuesRevision s
  | AuthorizationActionOther _ => false
  end.
Definition mark_failure (now : time) (s : Module_) (e : cacheEntry) : cacheEntry :=
  let backoff := if ce_backoff e =? 0 then mo_interval s else Z.min (ce_backoff e * 2) (mo_backoffMax s) in
  {| ce_actor := ce_actor e; ce_credential := ce_credential e; ce_snapshot := ce_snapshot e; ce_backoff := backoff;
     ce_nextPull := now + backoff |}.
Definition record_snapshot (now : time) (s : Module_) (snapshot : Snapshot) (e : cacheEntry) : cacheEntry :=
  {| ce_actor := ce_actor e; ce_credential := ce_credential e; ce_snapshot := Some snapshot; ce_backoff := 0;
     ce_nextPull := now + mo_interval s |}.
Definition with_fresh (fresh : bool) (s : Snapshot) : Snapshot :=
  {| sn_OrganizationID := sn_OrganizationID s; sn_CustomerID := sn_CustomerID s; sn_ActorID := sn_ActorID s; sn_Role := sn_Role s;
     sn_CanExecuteEmergency := sn_CanExecuteEmergency s; sn_CanResolveEmergency := sn_CanResolveEmergency s;
     sn_CanCreateValuesRevision := sn_CanCreateValuesRevision s; sn_CanApproveValuesRevision := sn_CanApproveValuesRevision s;
     sn_SourceVersion := sn_SourceVersion s; sn_PolicyVersion := sn_PolicyVersion s; sn_Checkpoint := sn_Checkpoint s; sn_Fresh := fresh |}.

(** Both services, over one database. *)
Record Site (T : Type) := { si_host : T; si_module : Module_ }.
Arguments si_host {T}. Arguments si_module {T}.
Section consumer.
Context {T : Type} `{SessionStore T}.
Abbreviation S := (Site T).
#[export] Instance site_host : Host S :=
  {| node_of s := node_of (si_host s); set_node n s := {| si_host := set_node n (si_host s); si_module := si_module s |};
     node_of_set n s := node_of_set n (si_host s) |}.
Definition put_host (t : T) (s : S) : S := {| si_host := t; si_module := si_module s |}.
Definition in_host {A} (p : svc T error A) : svc S error A := svc_lift si_host put_host p.
Definition on_module (f : Module_ → Module_) : M S error unit :=
  modify (λ s, {| si_host := si_host s; si_module := f (si_module s) |}).
Context (uuid_Validate : string → bool) (jwt : JWT).
Context (casbin_Enforce : list CasbinRule → string → string → string → string → option bool).
(** The wire: what a failure of the connection is reported as. *)
Context (link_error : error → connect_error).
Context (has_checkpoints : bool).
Definition SnapshotProcedure : string := "/auth.v1.AuthorizationService/GetAuthorizationSnapshot".
Definition authPublicMethods : list string :=
  ["/auth.v1.AuthService/GetInitStatus"; "/auth.v1.AuthService/Initialize"; "/auth.v1.AuthService/ValidateToken";
   "/auth.v1.AuthService/Login"; "/auth.v1.AuthService/RefreshToken"].
Definition snapshot_request (credential customerID : string) : Request :=
  {| rq_procedure := SnapshotProcedure;
     rq_header := {| hd_Authorization := if bool_decide (credential = "") then "" else "Bearer " ++ credential; hd_cookies := []; hd_csrf := "";
                     hd_Origin := ""; hd_SecFetchMode := ""; hd_IdempotencyKey := "" |};
     rq_org_id := ""; rq_customer_id := customerID; rq_binding_id := "" |}.
(** The RPC: release-auth's interceptor and handler, behind a connection that may fail. *)
Definition SnapshotHandler (credential organizationID customerID : string) : svc T error (res connect_error (Snapshot * bool)) :=
  and_then (intercept jwt casbin_Enforce authPublicMethods (snapshot_request credential customerID)) (λ admitted,
    GetAuthorizationSnapshot uuid_Validate casbin_Enforce (fst <$> admitted) organizationID customerID).
Definition SnapshotRPC (credential organizationID customerID : string) : svc S error (res connect_error (Snapshot * bool)) :=
  let* _ := ret tt fails (λ e, Done (Err (link_error e))) in in_host (SnapshotHandler credential organizationID customerID).
Abbreviation pulled := (res (connect_error * StaleCause) unit).
Definition stale (source checkpoint policy : Z) (c : StaleCause) : svc S error pulled := Done (Err (staleError source checkpoint policy, c)).
Definition snapshotRPCCause (e : connect_error) : StaleCause :=
  if bool_decide (ce_code e = CodeDeadlineExceeded) then StaleCauseSnapshotRPCTimeout else StaleCauseSnapshotRPCError.
Definition translateSnapshotError (e : connect_error) : connect_error :=
  if bool_decide (ce_code e = CodeDeadlineExceeded) || bool_decide (ce_code e = CodeUnavailable) then staleError 0 0 0 else e.
Definition accept (key : cacheKey) (previous previousPolicy : Z) (remote : Snapshot) : svc S error pulled :=
  let '(_, organizationID, customerID) := key in
  let changed := negb (previous =? sn_Checkpoint remote) || negb (previousPolicy =? sn_PolicyVersion remote) in
  let gap := (0 <? previous) && (previous + 1 <? sn_Checkpoint remote) in
  let fresh := (0 <? sn_SourceVersion remote) && sn_Fresh remote && (sn_SourceVersion remote <=? sn_Checkpoint remote) && negb gap in
  let finish :=
    let remote := with_fresh fresh remote in
    let* t := here now fails (λ _, stale 0 0 0 StaleCauseUnknown) in
    let* _ := on_module (λ m,
      {| mo_entries := alter (record_snapshot t m remote) key (mo_entries m);
         mo_latest := <[scopeKey organizationID customerID := remote]> (mo_latest m);
         mo_interval := mo_interval m; mo_backoffMax := mo_backoffMax m |}) fails (λ _, stale 0 0 0 StaleCauseUnknown) in
    if changed || gap || negb fresh then
      stale (sn_SourceVersion remote) (sn_Checkpoint remote) (sn_PolicyVersion remote)
        (if gap then StaleCauseGap else if changed then StaleCauseWarmup else StaleCauseNotFresh)
    else Done (Ok tt) in
  if has_checkpoints then
    let* _ := here (SaveCheckpoint {| cp_OrganizationID := organizationID; cp_CustomerID := customerID; cp_SourceVersion := sn_Checkpoint remote;
                                      cp_PolicyVersion := sn_PolicyVersion remote; cp_Fresh := fresh; cp_UpdatedAt := 0 |})
    fails (λ _, stale (sn_SourceVersion remote) previous (sn_PolicyVersion remote) StaleCauseCheckpointWrite) in
    finish
  else finish.
Definition pull (key : cacheKey) : svc S error pulled :=
  let '(actorID, organizationID, customerID) := key in
  let* entry := gets (λ s, mo_entries (si_module s) !! key) fails (λ _, stale 0 0 0 StaleCauseNotFresh) in
  match entry with
  | None => stale 0 0 0 StaleCauseNotFresh
  | Some _ =>
      let* credential := gets (λ s, default "" (ce_credential <$> mo_entries (si_module s) !! key)) fails (λ _, stale 0 0 0 StaleCauseNotFresh) in
      svc_bind (SnapshotRPC credential organizationID customerID) (λ r,
        match r with
        | Err e =>
            let failed := Done (Err (translateSnapshotError e, snapshotRPCCause e)) in
            let* t := here now fails (λ _, failed) in
            let* _ := on_module (λ m, with_entries (alter (mark_failure t m) key (mo_entries m)) m) fails (λ _, failed) in failed
        | Ok (remote, _) =>
            if negb (bool_decide (sn_OrganizationID remote = organizationID)) || negb (bool_decide (sn_CustomerID remote = customerID))
               || negb (bool_decide (sn_ActorID remote = actorID))
            then stale (sn_SourceVersion remote) 0 (sn_PolicyVersion remote) StaleCauseScopeMismatch
            else if negb has_checkpoints then accept key 0 0 remote
            else
              svc_bind (once (here (GetCheckpoint organizationID customerID))) (λ r,
                match r with
                | Ok c =>
                    if (sn_SourceVersion remote <? cp_SourceVersion c) || (sn_Checkpoint remote <? cp_SourceVersion c)
                       || (sn_PolicyVersion remote <? cp_PolicyVersion c)
                    then stale (sn_SourceVersion remote) (cp_SourceVersion c) (sn_PolicyVersion remote) StaleCauseRegression
                    else accept key (cp_SourceVersion c) (cp_PolicyVersion c) remote
                | Err ErrNotFound => accept key 0 0 remote
                | Err _ => stale (sn_SourceVersion remote) 0 (sn_PolicyVersion remote) StaleCauseCheckpointRead
                end)
        end)
  end.
(** Module.AuthorizeWrite; [credential] is the verified one of the request. *)
Definition AuthorizeWrite (actor : authctx_Actor) (credential customerID : string) (action : AuthorizationAction)
    : svc S error (res connect_error Z) :=
  if negb (AuthorizationAction_Valid action) || negb (uuid_Validate (ax_OrganizationID actor)) || negb (uuid_Validate customerID)
  then Done (Err (invalidActorError "actor organization, customer, and action are required"))
  else
    let actorID := authorizationSubject actor in
    if bool_decide (actorID = "") then Done (Err (invalidActorError "actor identity is required"))
    else
      let key := (actorID, ax_OrganizationID actor, customerID) in
      let stale_write e := Done (Err (staleError 0 0 0)) in
      let* _ := on_module (λ m, with_entries (partial_alter (λ e, match e with
        | None => Some {| ce_actor := actor; ce_credential := credential; ce_snapshot := None; ce_backoff := 0; ce_nextPull := 0 |}
        | Some e => Some (if bool_decide (credential = "") then e
                          else {| ce_actor := ce_actor e; ce_credential := credential; ce_snapshot := ce_snapshot e;
                                  ce_backoff := ce_backoff e; ce_nextPull := ce_nextPull e |})
        end) key (mo_entries m)) m) fails stale_write in
      svc_bind (pull key) (λ r,
        match r with
        | Err (_, cause) => Done (Err (setStaleCauseMeta (staleError 0 0 0) cause))
        | Ok _ =>
            let* entry := gets (λ s, mo_entries (si_module s) !! key) fails stale_write in
            match entry ≫= ce_snapshot with
            | None => Done (Err (setStaleCauseMeta (staleError 0 0 0) StaleCauseNotFresh))
            | Some s =>
                if negb (sn_Fresh s) || (sn_Checkpoint s <? sn_SourceVersion s)
                then Done (Err (setStaleCauseMeta (staleError (sn_SourceVersion s) (sn_Checkpoint s) (sn_PolicyVersion s)) StaleCauseNotFresh))
                else if negb (capabilityAllowed s action)
                then Done (Err (permissionDeniedError (sn_SourceVersion s) (sn_Checkpoint s) (sn_PolicyVersion s)))
                else Done (Ok (sn_SourceVersion s))
            end
        end).
(** pullDue: the keys whose time has come, in any order. *)
Definition due (now : time) (e : cacheEntry) : bool := is_zero_time (ce_nextPull e) || (ce_nextPull e <=? now).
Fixpoint pull_all (keys : list cacheKey) : svc S error unit :=
  match keys with [] => Done tt | key :: keys => svc_bind (pull key) (λ _, pull_all keys) end.
Definition pullDue (now : time) : svc S error unit :=
  let* keys := gets (λ s, (filter (λ ke, due now ke.2 = true) (map_to_list (mo_entries (si_module s)))).*1) fails (λ _, Done tt) in
  pull_all keys.
Definition Module_Snapshot (organizationID customerID : string) : M S error Snapshot :=
  λ s, (match mo_latest (si_module s) !! scopeKey organizationID customerID with Some x => Ok x | None => Err ErrNotFound end, s).
End consumer.

(** ** What a snapshot vouches for *)
Definition still (w w' : World) : Prop := w_db w' = w_db w ∧ w_busy w' = w_busy w.
#[export] Instance still_preorder : PreOrder still.
Proof. split; [done|]. intros a b c [] []. split; congruence. Qed.
Create HintDb still.
Lemma query_still {A} (f : DB → A) w : still w (query f w).2. Proof. done. Qed.
Lemma row_still {A} (f : DB → option A) w : still w ((let! r := query f in scan_row r) w).2.
Proof. unfold query, bind, gets, scan_row. simpl. by destruct (f (w_db w)). Qed.
#[export] Hint Resolve query_still row_still : still.
Section fencing.
Context {T : Type} `{Host T}.
Definition db_of (t : T) : DB := w_db (nd_world (node_of t)).
Definition moves (t t' : T) : Prop := fenced (db_of t) (db_of t').
#[export] Instance moves_preorder : PreOrder moves.
Proof. split; [intros t; unfold moves; reflexivity|]. intros a b c ? ?. unfold moves in *. by etransitivity. Qed.
Definition fencing B (m : M T error B) : Prop := guarantees (λ _, True) moves m.
Lemma here_fencing {A} (m : SM A) : preserves (db_rel fenced) m → fencing A (here m).
Proof.
  intros Hm t _. split; [done|]. unfold moves, db_of. rewrite here_eq. simpl. rewrite node_of_set.
  apply (Hm _ (m (nd_world (node_of t))).1). by destruct (m _).
Qed.
Lemma at_node_fencing {A} (m : NM A) : (∀ n, w_db (nd_world (m n).2) = w_db (nd_world n)) → fencing A (at_node m).
Proof.
  intros Hm t _. split; [done|]. unfold moves, db_of, at_node. rewrite lift_eq. simpl. rewrite node_of_set, Hm. reflexivity.
Qed.
(** [quiet]: a call that only reads, and may look at the clock. *)
Definition quiet B (m : M T error B) : Prop := ∀ t, still (nd_world (node_of t)) (nd_world (node_of (m t).2)).
Lemma here_quiet {A} (m : SM A) : (∀ w, still w (m w).2) → quiet A (here m).
Proof. intros Hm t. rewrite here_eq. simpl. rewrite node_of_set. apply Hm. Qed.
Lemma at_node_quiet {A} (m : NM A) : (∀ n, still (nd_world n) (nd_world (m n).2)) → quiet A (at_node m).
Proof. intros Hm t. unfold at_node. rewrite lift_eq. simpl. by rewrite node_of_set. Qed.
Lemma quiet_fencing {A} (m : M T error A) : quiet A m → fencing A m.
Proof. intros Hm t _. split; [done|]. unfold moves, db_of. destruct (Hm t) as [-> _]. reflexivity. Qed.
Lemma calls_impl {A} (P Q : ∀ B, M T error B → Prop) (p : svc T error A) : (∀ B m, P B m → Q B m) → calls P p → calls Q p.
Proof. intros HPQ. induction p as [a|B m k IH]; [done|]. intros [Hm Hk]. split; [by apply HPQ|]. intros r. by apply IH. Qed.
Lemma calls_quiet_fencing {A} (p : svc T error A) : calls quiet p → calls fencing p.
Proof. apply calls_impl. intros B m. apply quiet_fencing. Qed.
Context (fault : error → Prop).
Lemma fwp_any {A} (p : svc T error A) (Q : A → T → Prop) t : calls fencing p → (∀ a t1, Q a t1) → wp (λ _, True) moves fault p Q t.
Proof. intros Hp HQ. apply wp_calls; [apply _|by intros; apply HQ|done]. Qed.
(** Reading a row. *)
Lemma fwp_row {A B} (row : DB → option A) (k : res error A → svc T error B) Q t :
  (∀ t1, moves t t1 → ∀ a, row (db_of t1) = Some a → wp (λ _, True) moves fault (k (Ok a)) Q t1) →
  (∀ e t1, wp (λ _, True) moves fault (k (Err e)) Q t1) →
  wp (λ _, True) moves fault (Call (here (let! r := query row in scan_row r)) k) Q t.
Proof.
  intros Hk He. apply wp_call; [apply here_fencing; db_preserve|]. intros t1 _ Hr. split; [|by intros].
  rewrite here_eq. simpl. unfold bind, query, gets, scan_row. simpl. fold (db_of t1).
  assert (Hs : moves t1 (set_node (put_world (nd_world (node_of t1)) (node_of t1)) t1))
    by (unfold moves, db_of; rewrite node_of_set; reflexivity).
  destruct (row (db_of t1)) as [a|] eqn:Erow; simpl; [|apply He]. eapply wp_env; [apply _|exact Hs|]. by apply Hk.
Qed.
End fencing.
Abbreviation fwp fault := (wp (λ _, True) moves fault).
(** The source version was [v] in this state or an earlier one. *)
Definition reached (v : Z) (db : DB) : Prop := ∃ db0, fenced db0 db ∧ db_authorization_source_version db0 = Some v.
Lemma reached_later v db db' : reached v db → fenced db db' → reached v db'.
Proof. intros (db0 & Hf & Hv) Hf'. exists db0. split; [by etransitivity|done]. Qed.
(** While it is still [v], bindings and memberships are what they were. *)
Lemma reached_guarded v db db' :
  reached v db → fenced db db' → db_authorization_source_version db' = Some v → guarded db' = guarded db.
Proof.
  intros (db0 & [Hle _] & Hv) [Hle' Hg] Hv'. apply Hg. rewrite Hv in Hle. rewrite Hv' in *.
  symmetry. apply source_le_antisym; done.
Qed.
(** The actor's standing in the scope: an active binding, and a membership with
    that role unless the actor is a service. *)
Definition standing (key : cacheKey) (role : string) (db : DB) : Prop :=
  let '(actorID, orgID, customerID) := key in
  (∃ b, binding_of orgID customerID db = Some b ∧ bi_Status b = BindingActive) ∧
  (role = "service" ∨ ∃ m, member_of orgID actorID db = Some m ∧ role = role_string (om_Role m)).
Definition vouched (key : cacheKey) (sn : Snapshot) (db : DB) : Prop :=
  (sn_Fresh sn = true → 0 < sn_SourceVersion sn) ∧
  ∀ db', fenced db db' → db_authorization_source_version db' = Some (sn_SourceVersion sn) → standing key (sn_Role sn) db'.
Lemma vouched_later key sn db db' : vouched key sn db → fenced db db' → vouched key sn db'.
Proof. intros [Hs H] Hf. split; [done|]. intros db2 Hf2. apply H. by etransitivity. Qed.
Lemma binding_guarded o c db db' : guarded db' = guarded db → binding_of o c db' = binding_of o c db.
Proof. unfold guarded, binding_of. by intros [= _ -> _]. Qed.
Lemma member_guarded o u db db' : guarded db' = guarded db → member_of o u db' = member_of o u db.
Proof. unfold guarded, member_of. by intros [= -> _ _]. Qed.

Lemma Load_reached fault w :
  wp (λ _, True) (db_rel fenced) fault Load (λ r w', ∀ s, r = Ok s → reached (as_SourceVersion s) (w_db w')) w.
Proof.
  assert (Hread : ∀ A (m : SM A), (∀ w, w_db (m w).2 = w_db w) → guarantees (λ _, True) (db_rel fenced) m)
    by (intros A m Hm w0 _; split; [done|]; unfold db_rel; rewrite Hm; reflexivity).
  unfold Load. apply wp_call; [apply Hread; intros w0; unfold scan_row; cbn; by destruct (db_authorization_source_version _)|].
  intros w1 _ _. split; [|by intros; apply wp_Done; intros]. unfold query, bind, gets, scan_row. cbn [fst snd].
  destruct (db_authorization_source_version (w_db w1)) as [v|] eqn:Ev; [|by apply wp_Done; intros].
  assert (Hv : reached v (w_db w1)) by (exists (w_db w1); split; [reflexivity|done]). cbn beta match zeta.
  assert (Hrest : ∀ A (m : SM A) (k : res error A → svc World error (res error AuthorizationSnapshot)) w2,
    (∀ w, w_db (m w).2 = w_db w) → reached v (w_db w2) →
    (∀ r w3, reached v (w_db w3) → wp (λ _, True) (db_rel fenced) fault (k r) (λ r w', ∀ s, r = Ok s → reached (as_SourceVersion s) (w_db w')) w3) →
    wp (λ _, True) (db_rel fenced) fault (Call m k) (λ r w', ∀ s, r = Ok s → reached (as_SourceVersion s) (w_db w')) w2).
  { intros A m k w2 Hm Hw2 Hk. apply wp_call; [by apply Hread|]. intros w3 _ Hr. assert (reached v (w_db w3)) by by eapply reached_later.
    split; [apply Hk; by rewrite Hm|]. intros e _. by apply Hk. }
  assert (Hbad : ∀ e w3, wp (λ _, True) (db_rel fenced) fault (Load_failed e) (λ r w', ∀ s, r = Ok s → reached (as_SourceVersion s) (w_db w')) w3)
    by (intros; by apply wp_Done).
  apply Hrest; [intros w0; unfold scan_row; cbn; by destruct (at_policy_version _)|done|]. intros [p|e] w2 Hw2; [|apply Hbad].
  do 3 (apply Hrest; [done|done|]; clear w2 Hw2; intros [?|e] w2 Hw2; [|apply Hbad]).
  apply wp_Done. intros w3 _ Hr s [= <-]. by eapply reached_later.
Qed.

Section producer_proofs.
Context {T : Type} `{Host T} (fault : error → Prop).
Context (uuid_Validate : string → bool).
Context (casbin_Enforce : list CasbinRule → string → string → string → string → option bool).
Lemma in_world_wp {A} (p : svc World error A) (Q : A → DB → Prop) (t : T) :
  (∀ w, wp (λ _, True) (db_rel fenced) fault p (λ a w', Q a (w_db w')) w) →
  fwp fault (in_world p) (λ a t', Q a (db_of t')) t.
Proof.
  intros Hp. unfold in_world.
  apply (wp_lift (λ t, nd_world (node_of t)) (λ w t, set_node (put_world w (node_of t)) t) (λ _, True) moves (db_rel fenced) fault p
    (λ a w', Q a (w_db w')) t); [intros w t0; by rewrite node_of_set|done| |done].
  intros t0 w' _ Hr. split; [done|]. unfold moves, db_of. by rewrite node_of_set.
Qed.
Lemma in_world_Load (t : T) : fwp fault (in_world Load) (λ r t', ∀ s, r = Ok s → reached (as_SourceVersion s) (db_of t')) t.
Proof. apply (in_world_wp Load (λ r db, ∀ s, r = Ok s → reached (as_SourceVersion s) db)). intros w. apply Load_reached. Qed.
Abbreviation snapshot_ok := (λ (r : res connect_error (Snapshot * bool)) t,
  ∀ sn b, r = Ok (sn, b) → vouched (sn_ActorID sn, sn_OrganizationID sn, sn_CustomerID sn) sn (db_of t)).
Lemma refused_wp c reason source policy (t : T) : fwp fault (snapshot_refused c reason source policy) snapshot_ok t.
Proof. by apply wp_Done. Qed.
Lemma allowed_wp subject domain action k Q (t : T) :
  (∀ b t1, moves t t1 → fwp fault (k b) Q t1) → fwp fault (allowed casbin_Enforce subject domain action k) Q t.
Proof.
  intros Hk. unfold allowed. apply wp_call; [by apply at_node_fencing|]. intros t1 _ Hr.
  assert (Ht : moves t1 (at_node (Enforce casbin_Enforce subject domain "release" (action_string action)) t1).2)
    by (apply at_node_fencing; done).
  split; [|intros e _; by apply Hk]. apply Hk. by etransitivity.
Qed.
Lemma answer_wp actor org customer source policy role Q (t : T) :
  (∀ sn b t1, moves t t1 → sn_OrganizationID sn = org → sn_CustomerID sn = customer → sn_ActorID sn = subject_of actor →
     sn_Role sn = role → sn_SourceVersion sn = source → sn_Fresh sn = (0 <? source) → Q (Ok (sn, b)) t1) →
  (∀ e t1, Q (Err e) t1) →
  fwp fault (answer_snapshot casbin_Enforce actor org customer source policy role) Q t.
Proof.
  intros HQ He. unfold answer_snapshot. apply wp_call; [by apply at_node_fencing|]. intros t1 _ Hr.
  set (t2 := (at_node (gets (λ n, ef_healthy (nd_enforcer n))) t1).2).
  assert (Ht : moves t t2) by (etransitivity; [exact Hr|]; apply at_node_fencing; done). clearbody t2.
  split; [|intros e _; apply wp_Done; intros; apply He].
  destruct (at_node _ t1).1 as [healthy|e]; [|apply wp_Done; intros; apply He].
  destruct (negb healthy); [apply wp_Done; intros; apply He|].
  apply allowed_wp; intros execute t3 Hr3. apply allowed_wp; intros resolve t4 Hr4.
  apply allowed_wp; intros create t5 Hr5. apply allowed_wp; intros approve t6 Hr6.
  assert (Ht6 : moves t t6) by (repeat (etransitivity; [eassumption|]); reflexivity).
  assert (Hc : guarantees (λ _, True) moves (here (T:=T) GetEmergencyConfig)) by (apply here_fencing; unfold GetEmergencyConfig; db_preserve).
  apply wp_call; [done|]. intros t7 _ Hr7. destruct (Hc t7 I) as [_ Hr8].
  split; [destruct (here GetEmergencyConfig t7).1|intros e _];
    (apply wp_Done; intros t9 _ Hr9; apply HQ; try reflexivity; by repeat (etransitivity; [eassumption|])).
Qed.
(** A snapshot vouches for the binding and the membership it was built from. *)
Lemma GetAuthorizationSnapshot_vouched actor org customer (t : T) :
  fwp fault (GetAuthorizationSnapshot uuid_Validate casbin_Enforce actor org customer) snapshot_ok t.
Proof.
  unfold GetAuthorizationSnapshot. destruct actor as [actor|]; [|apply refused_wp].
  do 3 (destruct (_ : bool); [apply refused_wp|]).
  apply wp_bind; [apply _|]. eapply wp_mono; [apply _| |apply in_world_Load].
  intros [durable|e] t1 _ _; cbv beta; [|intros; apply refused_wp]. intros Hv. specialize (Hv _ eq_refl).
  set (v := as_SourceVersion durable) in *.
  apply fwp_row; [|intros; apply refused_wp]. intros t2 Hr2 organization _. apply (reached_later _ _ _ Hv) in Hr2 as Hv2. clear Hv Hr2.
  destruct (_ : bool); [apply refused_wp|].
  apply fwp_row; [|intros; apply refused_wp]. intros t3 Hr3 cust _. apply (reached_later _ _ _ Hv2) in Hr3 as Hv3. clear Hv2 Hr3.
  destruct (_ : bool); [apply refused_wp|].
  apply fwp_row; [|intros; apply refused_wp]. intros t4 Hr4 b Hb. apply (reached_later _ _ _ Hv3) in Hr4 as Hv4. clear Hv3 Hr4.
  destruct (negb (bool_decide (bi_Status b = BindingActive))) eqn:Ebs; [apply refused_wp|].
  apply negb_false_iff, bool_decide_eq_true in Ebs.
  assert (Hanswer : ∀ role t5, moves t4 t5 →
    (role = "service" ∨ ∀ db', fenced (db_of t5) db' → db_authorization_source_version db' = Some v →
       ∃ m, member_of org (subject_of actor) db' = Some m ∧ role = role_string (om_Role m)) →
    fwp fault (answer_snapshot casbin_Enforce actor org customer v (as_PolicyVersion durable) role) snapshot_ok t5).
  { intros role t5 Hr5 Hrole. apply answer_wp; [|done]. intros sn fl t6 Hr6 Horg Hcust Hactor Hrl Hsrc Hfresh sn' b' [= <- <-].
    rewrite Horg, Hcust, Hactor. split; [rewrite Hfresh, Hsrc; lia|]. rewrite Hrl, Hsrc. intros db' Hf Hv. split.
    - exists b. split; [|done]. rewrite <- Hb. apply binding_guarded. eapply reached_guarded; [done| |done]. by repeat (etransitivity; [eassumption|]).
    - destruct Hrole as [->|Hrole]; [by left|]. right. apply Hrole; [by etransitivity|done]. }
  case_bool_decide as Eservice; [|by apply Hanswer; [reflexivity|left]].
  apply fwp_row; [|intros; apply refused_wp]. intros t5 Hr5 m Hm. apply Hanswer; [done|]. right. intros db' Hf Hv.
  exists m. split; [|done]. unfold subject_of. rewrite bool_decide_true by done. rewrite <- Hm. apply member_guarded.
  eapply reached_guarded; [eapply reached_later; [exact Hv4|exact Hr5]|done|done].
Qed.
End producer_proofs.

(** Asking for the sessions' activity changes nothing. *)
Class QuietSessions (T : Type) `{SessionStore T} : Prop := has_active_quiet u : calls quiet (HasActiveByUserID u).
Lemma HasActive_still u w : still w (HasActiveByUserID_session u w).2.
Proof. done. Qed.
#[export] Instance sqlite_quiet : QuietSessions Node.
Proof. intros u. split; [|done]. apply here_quiet, HasActive_still. Qed.
#[export] Instance redis_quiet {X} (redis : Redis X) : @QuietSessions (Node * X) cached_host (redis_sessions redis).
Proof. intros u. split; [|done]. apply here_quiet, HasActive_still. Qed.

Section consumer_proofs.
Context {T : Type} `{QuietSessions T} (fault : error → Prop).
Context (uuid_Validate : string → bool) (jwt : JWT).
Context (casbin_Enforce : list CasbinRule → string → string → string → string → option bool).
Context (link_error : error → connect_error) (has_checkpoints : bool).
Abbreviation S := (Site T).
Lemma deny_quiet {A} d : calls quiet (deny (T:=T) (A:=A) d).
Proof. split; [by apply at_node_quiet|]. by intros [v|e]. Qed.
Lemma check_quiet o c : quiet (option denial) (at_node (T:=T) (CheckBinding o c)).
Proof.
  apply at_node_quiet. intros n. unfold CheckBinding. destruct (_ || _); [done|]. unfold catch, on_world. rewrite lift_eq.
  unfold GetByOrgAndCustomer, query, bind, gets. simpl. by destruct (binding_of _ _ _).
Qed.
Lemma check_id_quiet o b : quiet (option denial) (at_node (T:=T) (CheckBindingID o b)).
Proof.
  apply at_node_quiet. intros n. unfold CheckBindingID. destruct (_ || _); [done|]. unfold catch, on_world. rewrite lift_eq.
  unfold Get_binding, query, bind, gets. simpl. by destruct (binding_with_id _ _).
Qed.
Lemma binding_quiet rq domain : quiet (option denial) (enforceRequestBinding (T:=T) rq domain).
Proof.
  unfold enforceRequestBinding. destruct (_ && _); [done|]. destruct (negb _); [apply check_quiet|].
  destruct (negb _); [apply check_id_quiet|done].
Qed.
Lemma intercept_quiet publicMethods rq : calls quiet (intercept (T:=T) jwt casbin_Enforce publicMethods rq).
Proof.
  unfold intercept. destruct (_ : bool); [done|]. destruct (resolveRequestToken _) as [token fromCookie]. destruct (_ : bool); [done|].
  split; [by apply here_quiet|]. intros [[claims|]|e]; [|done|done].
  destruct (resolveDomain _ _ _) as [domain|d]; [|apply deny_quiet]. destruct (lookupProcedure _) as [p|]; [|apply deny_quiet].
  destruct (_ : bool); [done|]. split; [apply binding_quiet|].
  intros [[d|]|e]; [apply deny_quiet| |done].
  assert (Hchecked : calls quiet (and_then (session_check (T:=T) claims domain) (λ actor, Done (Ok (Some (actor, token)))))).
  { apply calls_bind; [|by intros [a|e]]. split; [apply here_quiet, row_still|]. intros [user|e]; [|done].
    destruct (_ : bool); [done|]. apply calls_bind; [apply has_active_quiet|]. intros [[]|e]; done. }
  destruct (_ : bool); [|done]. split; [by apply at_node_quiet|]. intros [[d|]|e]; [apply deny_quiet|done|done].
Qed.
Lemma Load_quiet : calls (λ B (m : SM B), ∀ w, still w (m w).2) Load.
Proof.
  split; [apply row_still|]. intros [s|e]; [|done]. split; [apply row_still|]. intros [p|e]; [|done].
  do 3 (split; [done|]; intros [?|e]; [|done]). done.
Qed.
Lemma in_world_Load_quiet : calls quiet (in_world (T:=T) Load).
Proof.
  eapply (calls_svc_lift _ _ (λ B (m : SM B), ∀ w, still w (m w).2)); [|apply Load_quiet].
  intros B m Hm t. rewrite lift_eq. simpl. rewrite node_of_set. apply Hm.
Qed.
Lemma StoreAuthorizeWrite_quiet actor customerID action : calls quiet (StoreAuthorizeWrite (T:=T) actor customerID action).
Proof.
  unfold StoreAuthorizeWrite. destruct (_ : bool); [done|].
  do 3 (split; [apply here_quiet, row_still|]; intros [?|e]; [|done]; destruct (_ : bool); [done|]).
  assert (Hend : ∀ k, (∀ r, calls quiet (k r : svc T error (res connect_error Z))) → calls quiet (svc_bind (in_world Load) k)).
  { intros k Hk. apply calls_bind; [apply in_world_Load_quiet|done]. }
  cbv zeta. destruct (_ : bool); [split; [apply here_quiet, row_still|]; intros [m|e]; [|done]|].
  all: apply Hend; intros [s|e]; [|done]; by repeat (destruct (_ : bool); [done|]).
Qed.
Abbreviation handler := (SnapshotHandler uuid_Validate jwt casbin_Enforce).

Definition vouching (s : S) : Prop :=
  ∀ k e sn, mo_entries (si_module s) !! k = Some e → ce_snapshot e = Some sn → vouched k sn (db_of s).
Lemma vouching_moves s s' : vouching s → si_module s' = si_module s → moves s s' → vouching s'.
Proof. intros Hs Hm Hr k e sn He Hsn. rewrite Hm in He. eapply vouched_later; [by eapply Hs|done]. Qed.
Abbreviation vwp := (wp vouching moves fault).
Lemma here_vouching {A} (m : SM A) : preserves (db_rel fenced) m → guarantees vouching moves (here (T:=S) m).
Proof.
  intros Hm s Hs. assert (Hr : moves s (here m s).2) by (by apply here_fencing). split; [|done].
  eapply vouching_moves; [done| |done]. rewrite here_eq. done.
Qed.
(** The module's own steps: only snapshots that are vouched for are stored. *)
Lemma on_module_vouching f s :
  vouching s → (∀ k e sn, mo_entries (f (si_module s)) !! k = Some e → ce_snapshot e = Some sn → vouched k sn (db_of s)) →
  vouching (on_module f s).2 ∧ moves s (on_module f s).2.
Proof. intros Hs Hf. split; [|unfold moves, db_of; reflexivity]. intros k e sn. simpl. apply Hf. Qed.
(** A change of an entry that keeps its snapshot. *)
Lemma alter_vouching (g : Module_ → cacheEntry → cacheEntry) key :
  (∀ m e, ce_snapshot (g m e) = ce_snapshot e) →
  guarantees vouching moves (on_module (T:=T) (λ m, with_entries (alter (g m) key (mo_entries m)) m)).
Proof.
  intros Hg s Hs. apply on_module_vouching; [done|]. intros k e sn. simpl. rewrite lookup_alter_Some.
  intros [(-> & e0 & He & ->)|[_ He]]; [rewrite Hg|]; intros Hsn; by eapply Hs.
Qed.
Lemma gets_vouching {A} (f : S → A) : guarantees vouching moves (gets (E:=error) f).
Proof. intros s Hs. split; [done|]. simpl. reflexivity. Qed.
Abbreviation remote_ok := (λ (r : res connect_error (Snapshot * bool)) (s : S),
  ∀ sn b, r = Ok (sn, b) → vouched (sn_ActorID sn, sn_OrganizationID sn, sn_CustomerID sn) sn (db_of s)).
Lemma in_host_wp {A} (p : svc T error A) (Q : A → T → Prop) (s : S) :
  fwp fault p Q (si_host s) → vwp (in_host p) (λ a s', Q a (si_host s')) s.
Proof.
  intros Hp. apply (wp_lift si_host put_host vouching moves moves); [done|done| |done].
  intros t t' Ht Hr. assert (Hm : moves t (put_host t' t)) by exact Hr. split; [|done]. by eapply vouching_moves.
Qed.
Lemma SnapshotRPC_vouched credential org customer s :
  vwp (SnapshotRPC uuid_Validate jwt casbin_Enforce link_error credential org customer) remote_ok s.
Proof.
  unfold SnapshotRPC. apply wp_call; [intros s0 Hs0; by split|]. intros s1 _ _. split; [|by intros; apply wp_Done].
  apply (in_host_wp _ (λ r t, ∀ sn b, r = Ok (sn, b) → vouched (sn_ActorID sn, sn_OrganizationID sn, sn_CustomerID sn) sn (db_of t))).
  unfold SnapshotHandler. apply wp_bind; [apply _|]. apply fwp_any; [apply calls_quiet_fencing, intercept_quiet|].
  intros [admitted|e] t; [|by apply wp_Done]. apply GetAuthorizationSnapshot_vouched.
Qed.
Lemma fresh_vouched key fresh sn db :
  (fresh = true → 0 < sn_SourceVersion sn) → vouched key sn db → vouched key (with_fresh fresh sn) db.
Proof. intros Hf [_ Hv]. by split. Qed.
Lemma stale_wp source checkpoint policy c s : vwp (stale (T:=T) source checkpoint policy c) (λ _ _, True) s.
Proof. by apply wp_Done. Qed.
Lemma accept_wp key previous previousPolicy remote s :
  vouched key remote (db_of s) → vwp (accept has_checkpoints key previous previousPolicy remote) (λ _ _, True) s.
Proof.
  intros Hv. destruct key as [[actorID org] customer]. unfold accept. set (fresh := _ && negb (_ && _)).
  set (finish := Call (here now) _).
  assert (Hfinish : ∀ s1, moves s s1 → vwp finish (λ _ _, True) s1).
  { intros s1 Hr1. unfold finish. apply wp_call; [apply here_vouching; db_preserve|]. intros s2 Hs2 Hr2. split; [|intros; apply stale_wp].
    destruct (here now s2).1 as [t|e]; [|apply stale_wp].
    assert (Hr3 : moves s (here (T:=S) now s2).2)
      by (etransitivity; [exact Hr1|]; etransitivity; [exact Hr2|]; apply (here_vouching now); [db_preserve|done]).
    intros s4 Hs4 Hr4. cbn [snd fst]. destruct (on_module_vouching (λ m,
      {| mo_entries := alter (record_snapshot t m (with_fresh fresh remote)) (actorID, org, customer) (mo_entries m);
         mo_latest := <[scopeKey org customer := with_fresh fresh remote]> (mo_latest m);
         mo_interval := mo_interval m; mo_backoffMax := mo_backoffMax m |}) s4 Hs4) as [Hs5 Hr5].
    { intros k e sn. simpl. rewrite lookup_alter_Some. intros [(<- & e0 & He & ->)|[_ He]]; [|by apply Hs4].
      simpl. intros [= <-]. apply fresh_vouched; [|by repeat (eapply vouched_later; [|eassumption])].
      unfold fresh. rewrite !andb_true_iff. lia. }
    split_and!; [exact Hs5|exact Hr5| |intros; apply stale_wp]. destruct (_ || _); [apply stale_wp|by apply wp_Done]. }
  destruct has_checkpoints; [|by apply Hfinish; reflexivity].
  apply wp_call; [apply here_vouching, SaveCheckpoint_fenced|]. intros s1 Hs1 Hr1. split; [|intros; apply stale_wp].
  destruct (here _ s1).1; [|apply stale_wp]. apply Hfinish. etransitivity; [exact Hr1|].
  apply here_vouching; [apply SaveCheckpoint_fenced|done].
Qed.
Lemma pull_wp key s :
  vwp (pull uuid_Validate jwt casbin_Enforce link_error has_checkpoints key) (λ _ _, True) s.
Proof.
  destruct key as [[actorID org] customer]. unfold pull. apply wp_call; [apply gets_vouching|]. intros s1 Hs1 _. split; [|intros; apply stale_wp].
  cbn [fst snd gets]. destruct (mo_entries _ !! _); [|apply stale_wp].
  apply wp_call; [apply gets_vouching|]. intros s2 Hs2 _. split; [|intros; apply stale_wp]. cbn [fst snd gets].
  apply wp_bind; [apply _|]. eapply wp_mono; [apply _| |apply SnapshotRPC_vouched].
  intros [[remote fl]|e] s3 Hs3 _ Hr; cbv beta in Hr.
  - specialize (Hr _ _ eq_refl). destruct (_ || _ || _) eqn:Escope; [apply stale_wp|].
    rewrite !orb_false_iff, !negb_false_iff, !bool_decide_eq_true in Escope. destruct Escope as [[Eo Ec] Ea]. rewrite Eo, Ec, Ea in Hr.
    destruct (negb has_checkpoints) eqn:Ehc; [by apply accept_wp|].
    apply wp_bind; [apply _|]. apply wp_call; [apply here_vouching; unfold GetCheckpoint; db_preserve|]. intros s4 Hs4 Hr4.
    set (s5 := (here _ s4).2). assert (Hr5 : moves s s5 → True) by done. clear Hr5.
    assert (Hr5 : moves s3 s5). { etransitivity; [exact Hr4|]. apply here_vouching; [unfold GetCheckpoint; db_preserve|done]. }
    clearbody s5. split; [|intros e _; apply wp_Done; intros s6 Hs6 Hr6; destruct e; try (by apply stale_wp); apply accept_wp; by repeat (eapply vouched_later; [|eassumption])].
    apply wp_Done. intros s6 Hs6 Hr6. assert (Hv6 : vouched (actorID, org, customer) remote (db_of s6)) by by repeat (eapply vouched_later; [|eassumption]).
    destruct (here _ s4).1 as [cp|e]; [destruct (_ || _ || _); [apply stale_wp|by apply accept_wp]|].
    destruct e; try (by apply stale_wp). by apply accept_wp.
  - apply wp_call; [apply here_vouching; db_preserve|]. intros s4 Hs4 _. split; [|by intros; apply wp_Done].
    destruct (here now s4).1 as [t|e']; [|by apply wp_Done].
    apply wp_call; [by apply alter_vouching|]. intros s5 Hs5 _. split; [|by intros; apply wp_Done]. by apply wp_Done.
Qed.

(** What a successful authorization is worth in [db]: in every later state with that
    source version, the scope is open to the actor. *)
Definition authorized (key : cacheKey) (action : AuthorizationAction) (source : Z) (db : DB) : Prop :=
  0 < source ∧ ∀ db', fenced db db' → db_authorization_source_version db' = Some source →
    let '(actorID, orgID, customerID) := key in
    (∃ b, binding_of orgID customerID db' = Some b ∧ bi_Status b = BindingActive) ∧
    (action = AuthorizationCreateOperation → ∃ m, member_of orgID actorID db' = Some m ∧
       (role_string (om_Role m) = role_string RoleReleaseAdmin ∨ role_string (om_Role m) = role_string RolePlatformAdmin)).
Lemma vouched_authorized key sn action db :
  vouched key sn db → sn_Fresh sn = true → capabilityAllowed sn action = true → authorized key action (sn_SourceVersion sn) db.
Proof.
  intros [Hpos Hv] Hf Hc. split; [by apply Hpos|]. intros db' Hdb' Hsrc. specialize (Hv _ Hdb' Hsrc).
  destruct key as [[actorID org] customer]. destruct Hv as [Hb Hr]. split; [done|]. intros ->. simpl in Hc.
  rewrite orb_true_iff, !bool_decide_eq_true in Hc.
  destruct Hr as [Hr|(m & Hm & Hr)]; [rewrite Hr in Hc; by destruct Hc|]. exists m. rewrite <- Hr. by split.
Qed.
Lemma AuthorizeWrite_wp actor credential customerID action s :
  vwp (AuthorizeWrite uuid_Validate jwt casbin_Enforce link_error has_checkpoints actor credential customerID action)
    (λ r s', ∀ source, r = Ok source → authorized (authorizationSubject actor, ax_OrganizationID actor, customerID) action source (db_of s')) s.
Proof.
  unfold AuthorizeWrite. do 2 (destruct (_ : bool); [by apply wp_Done|]).
  set (key := (_, _, _)).
  apply wp_call.
  { intros s0 Hs0. apply on_module_vouching; [done|]. intros k e sn. simpl. destruct (decide (k = key)) as [->|Hk].
    - rewrite lookup_partial_alter_eq. destruct (mo_entries _ !! key) as [e0|] eqn:He0; intros [= <-]; [|done].
      destruct (bool_decide _); simpl; intros Hsn; by eapply Hs0.
    - rewrite lookup_partial_alter_ne by done. by apply Hs0. }
  intros s1 Hs1 _. split; [|by intros; apply wp_Done]. cbn [fst snd on_module modify].
  apply wp_bind; [apply _|]. eapply wp_mono; [apply _| |apply pull_wp].
  intros [?|[e cause]] s2 Hs2 _ _; [|by apply wp_Done].
  apply wp_call; [apply gets_vouching|]. intros s3 Hs3 _. split; [|by intros; apply wp_Done]. cbn [fst snd gets].
  destruct (mo_entries (si_module s3) !! key ≫= ce_snapshot) as [sn|] eqn:Hsn; [|by apply wp_Done].
  apply bind_Some in Hsn as (e & He & Hsn). specialize (Hs3 _ _ _ He Hsn).
  destruct (negb (sn_Fresh sn) || _) eqn:Efresh; [by apply wp_Done|]. rewrite orb_false_iff, negb_false_iff in Efresh.
  destruct (capabilityAllowed sn action) eqn:Ecap; [|by apply wp_Done]. apply wp_Done. intros s4 _ Hr4 source [= <-].
  eapply vouched_authorized; [by eapply vouched_later|by destruct Efresh|done].
Qed.

(** The source version a creation expects. *)
Definition expected_version (req : OperationCreationRequest) : Z :=
  match ocr_Emergency req with Some c => ec_ExpectedAuthorizationVersion c | None => ocr_ExpectedAuthorizationVersion req end.
Lemma authorization_fence_Ok expected u w w' :
  expected ≠ 0 → checkAuthorizationFence expected w = (Ok u, w') → db_authorization_source_version (w_db w) = Some expected.
Proof. intros Hz. unfold checkAuthorizationFence. rewrite (proj2 (Z.eqb_neq _ _) Hz). intros E. dinv. by apply negb_false_iff, bool_decide_eq_true in Hguard. Qed.
Lemma creation_fenced req res w w' :
  expected_version req ≠ 0 → OperationCreationUnitOfWork req w = (Ok res, w') →
  db_authorization_source_version (w_db w) = Some (expected_version req).
Proof.
  intros Hz E. apply retry_loop_Ok in E as (w1 & Hw1 & E). apply run_commit_Ok in E as [_ E]. rewrite <- Hw1. unfold expected_version in *.
  destruct (ocr_Emergency req) as [command|].
  - unfold createEmergencyOperationUnitOfWork in E. apply bind_Ok in E as (u & w2 & E & _). by apply authorization_fence_Ok in E.
  - unfold createOperationUnitOfWork in E. apply bind_Ok in E as (u & w2 & E & _). by apply authorization_fence_Ok in E.
Qed.
(** C2: an operation is only created under an authorization that is still true.
    Let a request be authorized by the module -- whatever other requests, pulls,
    membership, binding and grant changes run before, between and after its calls,
    and whichever of its calls fail -- and its operation be created later, in any
    state the tables have moved on to, with the version the authorization
    returned as the expected one.  Then in the state in which the transaction runs
    the organization still has an active binding to the customer, and an actor
    authorized to create operations is still a release or platform administrator
    of the organization.  Otherwise the transaction fails. *)
Theorem creation_authorized actor credential customerID action source s s' req res w w' :
  runs (λ x y, vouching y ∧ moves x y) fault
    (AuthorizeWrite uuid_Validate jwt casbin_Enforce link_error has_checkpoints actor credential customerID action) s (Ok source) s' →
  vouching s → fenced (db_of s') (w_db w) →
  expected_version req = source → OperationCreationUnitOfWork req w = (Ok res, w') →
  (∃ b, binding_of (ax_OrganizationID actor) customerID (w_db w) = Some b ∧ bi_Status b = BindingActive) ∧
  (action = AuthorizationCreateOperation → ∃ m, member_of (ax_OrganizationID actor) (authorizationSubject actor) (w_db w) = Some m ∧
     (role_string (om_Role m) = role_string RoleReleaseAdmin ∨ role_string (om_Role m) = role_string RolePlatformAdmin)).
Proof.
  intros Hrun Hs Hf Hreq Hcreate.
  destruct (wp_runs _ _ _ _ _ _ _ _ Hrun Hs (AuthorizeWrite_wp actor credential customerID action s)) as (_ & _ & Hq).
  destruct (Hq _ eq_refl) as [Hpos Hauth]. apply Hauth; [done|]. rewrite <- Hreq. eapply creation_fenced; [lia|done].
Qed.

(** ** What decides a second write *)
Abbreviation authorize := (AuthorizeWrite uuid_Validate jwt casbin_Enforce link_error true).
Abbreviation snapshot_rpc := (SnapshotRPC uuid_Validate jwt casbin_Enforce link_error).
Section stable.
Context (actor : authctx_Actor) (credential customerID : string) (action : AuthorizationAction).
Abbreviation key := (authorizationSubject actor, ax_OrganizationID actor, customerID).
Abbreviation write := (authorize actor credential customerID action).
Context (Haction : AuthorizationAction_Valid action = true) (Horg : uuid_Validate (ax_OrganizationID actor) = true)
  (Hcustomer : uuid_Validate customerID = true) (Hactor : authorizationSubject actor ≠ "") (Hcredential : credential ≠ "").
End stable.
End consumer_proofs.

(** ** Witnesses *)
Definition site_db : DB := set_customers (db_customers session_db) (set_auth (db_auth session_db) (w_db bundle_world)).
Definition site_node : Node :=
  {| nd_world := sample_world site_db;
     nd_enforcer := {| ef_policy := [g_rule "u1" "release_admin" "o1"; p_rule "release_admin" "o1" "release" "release.operation.create"];
                       ef_healthy := true; ef_version := 1; ef_closed := false |};
     nd_limiter := NewRateLimiter 5 (60 * nsec) |}.
Definition sample_site : Site Node := {| si_host := site_node; si_module := NewModule nsec (30 * nsec) |}.
Definition sample_link (_ : error) : connect_error := newError CodeUnavailable "link".
Definition sample_authorize : svc (Site Node) error (res connect_error Z) :=
  AuthorizeWrite (λ _, true) sample_jwt reference_Enforce sample_link true sample_actor "signed-u1" "c1"
    AuthorizationCreateOperation.
Definition warm_site : Site Node := (exec_svc sample_authorize sample_site).2.
Definition open_site : Site Node := (exec_svc sample_authorize warm_site).2.
Definition site_request : OperationCreationRequest := Creation.sample_request.
Lemma creation_authorized_witness :
  ∃ res w', OperationCreationUnitOfWork site_request (nd_world (node_of open_site)) = (Ok res, w') ∧
  ∃ m, member_of "o1" "u1" (w_db (nd_world (node_of open_site))) = Some m ∧
    (role_string (om_Role m) = role_string RoleReleaseAdmin ∨ role_string (om_Role m) = role_string RolePlatformAdmin).
Proof.
  destruct (OperationCreationUnitOfWork site_request (nd_world (node_of open_site))) as [[res|e] w'] eqn:E;
    [|vm_compute in E; discriminate E].
  exists res, w'. split; [done|].
  assert (E1 : exec_svc sample_authorize sample_site = ((exec_svc sample_authorize sample_site).1, warm_site)) by apply surjective_pairing.
  assert (Ea : (exec_svc sample_authorize warm_site).1 = Ok 1) by (vm_compute; reflexivity).
  assert (E2 : exec_svc sample_authorize warm_site = (Ok 1, open_site)) by (rewrite <- Ea; apply surjective_pairing).
  assert (Hv0 : vouching sample_site) by (intros k x sn He; vm_compute in He; discriminate He).
  destruct (wp_runs _ _ _ _ _ _ _ _ (exec_runs (λ x y, vouching y ∧ moves x y) (λ _, True) _ _ _ _ E1) Hv0
    (AuthorizeWrite_wp (λ _, True) (λ _, true) sample_jwt reference_Enforce sample_link true sample_actor "signed-u1" "c1"
       AuthorizationCreateOperation sample_site)) as [Hv _].
  revert E E2 Hv. generalize open_site, warm_site. intros y x E E2 Hv.
  exact (proj2 (creation_authorized (λ _, True) (λ _, true) sample_jwt reference_Enforce sample_link true sample_actor "signed-u1" "c1"
    AuthorizationCreateOperation 1 x y site_request res (nd_world (node_of y)) w'
    (exec_runs _ _ _ _ _ _ E2) Hv (reflexivity (db_of y)) eq_refl E) eq_refl).
Defined.
