(* ===== verification/Membership.v ===== *)
(** * Organizations, memberships and bindings
    (internal/auth: org_service.go, binding_service.go, customer_resolver.go)

    The handlers that change who is in an organization and which customers it may
    release to.  Each is a program of store calls over the authentication node; the
    role checks read the caller's membership in one call and the write happens in a
    later one, with anything in between. *)
From S2P Require Import Prelude Utf8 Json Redact RateLimit Domain Database OperationStore.
From S2P Require Import EmergencyStore Creation Program AuthStore Policy ProcedurePolicy Sessions Authn Authorization.
#[local] Open Scope Z_scope.

Definition orgError (c : code) (reason message : string) : connect_error :=
  {| ce_code := c; ce_message := message; ce_meta := [("X-Reason-Code", reason)] |}.
Definition is_platform_admin (m : OrganizationMember) : bool := bool_decide (om_Role m = RolePlatformAdmin).
Definition adminCount (members : list OrganizationMember) : nat := length (filter (λ m, is_platform_admin m = true) members).

Section handlers.
Context {T : Type} `{Host T}.
Abbreviation tsvc := (svc T error).
Abbreviation rpc A := (tsvc (res connect_error A)).
Definition org_refused {A} (c : code) (reason message : string) : rpc A := Done (Err (orgError c reason message)).

(** ** OrganizationService (org_service.go)

    [callerID] is the user of the request's context, "" when there is none. *)
Definition unauthenticated {A} : rpc A := refuse CodeUnauthenticated "user not authenticated".
Definition requireRole {A} (callerID : string) (required : Role) (k : rpc A) : rpc A :=
  if bool_decide (callerID = "") then unauthenticated
  else
    let* members := here (ListByUser_members callerID) fails internal "check roles" in
    if existsb (λ m, bool_decide (om_Role m = required)) members then k else refuse CodePermissionDenied "requires role".
Definition CreateOrganization (callerID name : string) : rpc Organization :=
  requireRole callerID RolePlatformAdmin (
    let* id := here newID fails internal "id" in
    let* org := here (Create_organization (bare_organization id name OrgStatusEmpty)) fails internal "create organization" in
    (* a failure to add the creator is only logged *)
    svc_bind (once (here (Create_member (bare_member (or_ID org) callerID RolePlatformAdmin)))) (λ _,
      refreshPolicies (Done (Ok org)))).
Definition GetOrganization (orgID : string) : rpc Organization :=
  let* org := here (Get_organization orgID) fails (λ _, refuse CodeNotFound "organization not found") in Done (Ok org).
Definition ListOrganizations : rpc (list Organization) :=
  let* orgs := here List_organizations fails internal "list organizations" in Done (Ok orgs).
(** The row to write: the stored one with a new name or status and the version the caller expects. *)
Definition edit_organization (name : string) (status : OrganizationStatus) (version : Z) (o : Organization) : Organization :=
  {| or_ID := or_ID o; or_Name := name; or_Status := status; or_OptimisticVersion := version;
     or_CreatedAt := or_CreatedAt o; or_UpdatedAt := or_UpdatedAt o |}.
Definition UpdateOrganization (orgID name : string) (expectedVersion : Z) : rpc Organization :=
  let* org := here (Get_organization orgID) fails (λ _, refuse CodeNotFound "organization not found") in
  if bool_decide (or_Status org = OrgDisabled)
  then org_refused CodeFailedPrecondition "organization_disabled" "organization is disabled"
  else
    svc_bind (once (here (Update_organization (edit_organization name (or_Status org) expectedVersion org)))) (λ r,
      match r with
      | Ok org => Done (Ok org)
      | Err ErrOptimisticLock => org_refused CodeAborted "optimistic_lock_conflict" "optimistic lock conflict"
      | Err _ => refuse CodeInternal "update organization"
      end).
Definition DisableOrganization (orgID : string) (expectedVersion : Z) : rpc Organization :=
  let* org := here (Get_organization orgID) fails (λ _, refuse CodeNotFound "organization not found") in
  svc_bind (once (here (Update_organization (edit_organization (or_Name org) OrgDisabled expectedVersion org)))) (λ r,
    match r with
    | Ok org => Done (Ok org)
    | Err ErrOptimisticLock => refuse CodeAborted "optimistic lock conflict"
    | Err _ => refuse CodeInternal "disable organization"
    end).
Definition AddMember (callerID orgID userID role : string) : rpc OrganizationMember :=
  if bool_decide (callerID = "") then unauthenticated
  else
    let targetRole := role_of role in
    if negb (Role_Valid targetRole) then org_refused CodeInvalidArgument "invalid_role" "invalid role"
    else
      let* org := here (Get_organization orgID) fails (λ _, refuse CodeNotFound "organization not found") in
      if bool_decide (or_Status org = OrgDisabled)
      then org_refused CodeFailedPrecondition "organization_disabled" "organization is disabled"
      else
        let* caller := here (Get_member orgID callerID) fails (λ _, refuse CodePermissionDenied "not a member of this organization") in
        if negb (CanGrant (om_Role caller) targetRole) then refuse CodePermissionDenied "role cannot grant role"
        else
          svc_bind (once (here (Create_member (bare_member orgID userID targetRole)))) (λ r,
            match r with
            | Ok member => refreshPolicies (Done (Ok member))
            | Err ErrDuplicateKey =>
                org_refused CodeAlreadyExists "duplicate_member" "user is already a member of this organization"
            | Err _ => refuse CodeInternal "add member"
            end).
(** The guard of the last platform administrator, shared by removal and demotion. *)
Definition keep_one_admin {A} (orgID message : string) (k : rpc A) : rpc A :=
  let* members := here (ListByOrg_members orgID) fails internal "list members" in
  if (adminCount members <=? 1)%nat then org_refused CodeFailedPrecondition "last_platform_admin_forbidden" message else k.
Definition RemoveMember (callerID orgID userID : string) : rpc unit :=
  if bool_decide (callerID = "") then unauthenticated
  else
    let* target := here (Get_member orgID userID) fails (λ _, refuse CodeNotFound "member not found") in
    let remove :=
      let* _ := here (Delete_member orgID userID) fails internal "remove member" in refreshPolicies (Done (Ok tt)) in
    if is_platform_admin target then keep_one_admin orgID "cannot remove the last platform_admin" remove else remove.
Definition ListMembers (orgID : string) : rpc (list OrganizationMember) :=
  let* members := here (ListByOrg_members orgID) fails internal "list members" in Done (Ok members).
Definition edit_member (role : Role) (version : Z) (m : OrganizationMember) : OrganizationMember :=
  {| om_OrgID := om_OrgID m; om_UserID := om_UserID m; om_Role := role; om_OptimisticVersion := version;
     om_CreatedAt := om_CreatedAt m; om_UpdatedAt := om_UpdatedAt m |}.
Definition UpdateMemberRole (callerID orgID userID role : string) (expectedVersion : Z) : rpc OrganizationMember :=
  if bool_decide (callerID = "") then unauthenticated
  else
    let newRole := role_of role in
    if negb (Role_Valid newRole) then org_refused CodeInvalidArgument "invalid_role" "invalid role"
    else
      let* caller := here (Get_member orgID callerID) fails (λ _, refuse CodePermissionDenied "not a member of this organization") in
      if negb (CanGrant (om_Role caller) newRole) then refuse CodePermissionDenied "role cannot grant role"
      else
        let* target := here (Get_member orgID userID) fails (λ _, refuse CodeNotFound "member not found") in
        let update :=
          svc_bind (once (here (Update_member (edit_member newRole expectedVersion target)))) (λ r,
            match r with
            | Ok member => refreshPolicies (Done (Ok member))
            | Err ErrOptimisticLock => refuse CodeAborted "optimistic lock conflict"
            | Err _ => refuse CodeInternal "update member role"
            end) in
        if is_platform_admin target && negb (bool_decide (newRole = RolePlatformAdmin))
        then keep_one_admin orgID "cannot demote the last platform_admin" update
        else update.

(** ** BindingService (binding_service.go)

    The resolver is the store's ([StoreCustomerResolver]). *)
Definition authorize_binding {A} (callerID orgID : string) (write : bool) (k : rpc A) : rpc A :=
  if bool_decide (callerID = "") then refuse CodeUnauthenticated "user_not_authenticated"
  else
    svc_bind (once (here (Get_member orgID callerID))) (λ r,
      match r with
      | Err ErrNotFound => refuse CodePermissionDenied "permission_denied"
      | Err _ => refuse CodeInternal "authorize binding"
      | Ok member =>
          if write && negb (bool_decide (om_Role member = RolePlatformAdmin)) && negb (bool_decide (om_Role member = RoleReleaseAdmin))
          then refuse CodePermissionDenied "permission_denied" else k
      end).
Definition Resolve (customerID : string) : SM Customer := Get_customer customerID.
Definition validateWritableTarget {A} (orgID customerID : string) (k : rpc A) : rpc A :=
  svc_bind (once (here (Get_organization orgID))) (λ r,
    match r with
    | Err ErrNotFound => refuse CodeNotFound "organization_not_found"
    | Err _ => refuse CodeInternal "get organization"
    | Ok org =>
        if bool_decide (or_Status org = OrgDisabled) then refuse CodeFailedPrecondition "organization_disabled"
        else
          svc_bind (once (here (Resolve customerID))) (λ r,
            match r with
            | Err ErrNotFound => refuse CodeNotFound "customer_not_found"
            | Err _ => refuse CodeUnavailable "resolve customer"
            | Ok customer =>
                if bool_decide (cu_Status customer = CustomerDisabled) then refuse CodeFailedPrecondition "customer_disabled" else k
            end)
    end).
Definition getBinding {A} (bindingID : string) (k : OrgCustomerBinding → rpc A) : rpc A :=
  svc_bind (once (here (Get_binding bindingID))) (λ r,
    match r with
    | Err ErrNotFound => refuse CodeNotFound "binding_not_found"
    | Err _ => refuse CodeInternal "get binding"
    | Ok binding => k binding
    end).
(** Changing the status of a binding and reading it back; any error of the read is internal here. *)
Definition set_binding_status (binding : OrgCustomerBinding) (status : BindingStatus) (failure : string) : rpc OrgCustomerBinding :=
  svc_bind (once (here (SetStatus (bi_ID binding) status))) (λ r,
    match r with
    | Err ErrOptimisticLock => refuse CodeAborted "optimistic_lock_conflict"
    | Err _ => refuse CodeInternal failure
    | Ok _ =>
        let* updated := here (Get_binding (bi_ID binding)) fails internal "reload binding" in Done (Ok updated)
    end).
Definition handleExistingBinding (binding : OrgCustomerBinding) : rpc OrgCustomerBinding :=
  if bool_decide (bi_Status binding = BindingActive) then refuse CodeAlreadyExists "duplicate_binding"
  else set_binding_status binding BindingActive "reactivate binding".
Definition new_binding (id orgID customerID : string) : OrgCustomerBinding :=
  {| bi_ID := id; bi_OrgID := orgID; bi_CustomerID := customerID; bi_Status := BindingStatusEmpty; bi_OptimisticVersion := 0;
     bi_CreatedAt := 0; bi_UpdatedAt := 0 |}.
Definition CreateBinding (callerID orgID customerID : string) : rpc OrgCustomerBinding :=
  if bool_decide (orgID = "") || bool_decide (customerID = "")
  then refuse CodeInvalidArgument "organization_id and customer_id are required"
  else
    authorize_binding callerID orgID true (validateWritableTarget orgID customerID (
      svc_bind (once (here (GetByOrgAndCustomer orgID customerID))) (λ r,
        match r with
        | Ok existing => handleExistingBinding existing
        | Err ErrNotFound =>
            let* id := here newID fails internal "id" in
            svc_bind (once (here (Create_binding (new_binding id orgID customerID)))) (λ r,
              match r with
              | Ok binding => Done (Ok binding)
              | Err ErrDuplicateKey => refuse CodeAlreadyExists "duplicate_binding"
              | Err _ => refuse CodeInternal "create binding"
              end)
        | Err _ => refuse CodeInternal "lookup binding"
        end))).
Definition GetBinding (callerID bindingID : string) : rpc OrgCustomerBinding :=
  getBinding bindingID (λ binding, authorize_binding callerID (bi_OrgID binding) false (Done (Ok binding))).
Definition ListBindings (callerID orgID : string) : rpc (list OrgCustomerBinding) :=
  if bool_decide (orgID = "") then refuse CodeInvalidArgument "organization_id is required"
  else
    authorize_binding callerID orgID false (
      let* bindings := here (ListByOrg_bindings orgID) fails internal "list bindings" in Done (Ok bindings)).
Definition RevokeBinding (callerID bindingID : string) (expectedVersion : Z) : rpc OrgCustomerBinding :=
  getBinding bindingID (λ binding,
    authorize_binding callerID (bi_OrgID binding) true (
      if negb (bi_OptimisticVersion binding =? expectedVersion) then refuse CodeAborted "optimistic_lock_conflict"
      else if bool_decide (bi_Status binding = BindingRevoked) then refuse CodeFailedPrecondition "binding_revoked"
      else
        validateWritableTarget (bi_OrgID binding) (bi_CustomerID binding)
          (set_binding_status binding BindingRevoked "revoke binding"))).
End handlers.

(** ** No escalation

    The requests that change memberships, by the user who makes them, and every other
    program that changes no membership and no organization. *)
Definition member_tables (db : DB) : list OrganizationMember * list Organization := (at_members (db_auth db), at_organizations (db_auth db)).
Definition admin_of (orgID : string) (m : OrganizationMember) : bool := bool_decide (om_OrgID m = orgID) && is_platform_admin m.
Definition admins (orgID : string) (db : DB) : list string := om_UserID <$> filter (λ m, admin_of orgID m = true) (at_members (db_auth db)).
Section requests.
Context {T : Type} `{Host T} (bcrypt_hash : string → string → option string).
Definition ignore {A} (p : svc T error A) : svc T error unit := svc_bind p (λ _, Done tt).
Definition keeps_members B (m : M T error B) : Prop := ∀ t, member_tables (db_of (m t).2) = member_tables (db_of t).
Inductive request (callerID : string) : svc T error unit → Prop :=
| rq_CreateOrganization name : request callerID (ignore (CreateOrganization callerID name))
| rq_UpdateOrganization orgID name v : request callerID (ignore (UpdateOrganization orgID name v))
| rq_DisableOrganization orgID v : request callerID (ignore (DisableOrganization orgID v))
| rq_AddMember orgID userID role : request callerID (ignore (AddMember callerID orgID userID role))
| rq_RemoveMember orgID userID : request callerID (ignore (RemoveMember callerID orgID userID))
| rq_UpdateMemberRole orgID userID role v : request callerID (ignore (UpdateMemberRole callerID orgID userID role v))
| rq_CreateLocalUser h actor username password orgID roles :
    request callerID (ignore (CreateLocalUser bcrypt_hash h actor callerID username password orgID roles))
| rq_other p : calls keeps_members p → request callerID p.
End requests.

Section escalation.
Context (orgID : string) (initial : list string).
Definition confined (db : DB) : Prop :=
  is_Some (organization_of orgID db) ∧ ∀ u, u ∈ admins orgID db → u ∈ initial.
Definition confines (db db' : DB) : Prop := confined db → confined db'.
#[export] Instance confines_preorder : PreOrder confines.
Proof. split; [intros db; unfold confines; auto|]. intros a b c Hab Hbc Ha. by apply Hbc, Hab. Qed.
Lemma confines_tables db db' : member_tables db' = member_tables db → confines db db'.
Proof. unfold member_tables, confines, confined, admins, organization_of. intros [= -> ->]. done. Qed.
Lemma admins_elem u db : u ∈ admins orgID db ↔ ∃ m, m ∈ at_members (db_auth db) ∧ admin_of orgID m = true ∧ om_UserID m = u.
Proof.
  unfold admins. rewrite list_elem_of_fmap. split; [intros (m & -> & Hm%list_elem_of_filter)|intros (m & Hm & Ha & <-)].
  - destruct Hm. by exists m.
  - exists m. split; [done|]. by apply list_elem_of_filter.
Qed.
(** Members change to members none of which is a new administrator. *)
Lemma confines_members f :
  (∀ l m, m ∈ f l → admin_of orgID m = true → ∃ m0, m0 ∈ l ∧ admin_of orgID m0 = true ∧ om_UserID m0 = om_UserID m) →
  ∀ db, confines db (on_auth (λ t, set_members (f (at_members t)) t) db).
Proof.
  intros Hf db [Ho Hm]. split; [done|]. intros u (m & Hm' & Ha & <-)%admins_elem. apply Hm, admins_elem.
  destruct (Hf _ _ Hm' Ha) as (m0 & ? & ? & ?). by exists m0.
Qed.
Lemma confines_organizations f :
  (∀ l, is_Some (find_row (λ o, bool_decide (or_ID o = orgID)) l) → is_Some (find_row (λ o, bool_decide (or_ID o = orgID)) (f l))) →
  ∀ db, confines db (on_auth (λ t, set_organizations (f (at_organizations t)) t) db).
Proof. intros Hf db [Ho Hm]. split; [|done]. by apply Hf. Qed.
Lemma confined_bump : preserves (db_rel confines) bumpAuthorizationSourceVersion.
Proof. unfold bumpAuthorizationSourceVersion. db_preserve. apply preserves_exec. intros db. by apply confines_tables. Qed.
Lemma confined_insertMember e m : admin_of orgID (member_row m) = false → preserves (db_rel confines) (insertMember e m).
Proof.
  intros Hm. unfold insertMember. db_preserve. apply preserves_exec. apply (confines_members (λ l, l ++ [member_row m])).
  intros l m0 Hm0 Ha. apply elem_of_app in Hm0 as [Hm0|Hm0]; [by exists m0|]. apply list_elem_of_singleton in Hm0. subst. congruence.
Qed.
Lemma confined_insertUser u : preserves (db_rel confines) (insertUser u).
Proof. unfold insertUser. db_preserve. apply preserves_exec. intros db. by apply confines_tables. Qed.
#[local] Hint Resolve confined_bump confined_insertUser : core.
Lemma defaults_admin m t : admin_of orgID (member_row (member_defaults m t)) = admin_of orgID m.
Proof.
  unfold admin_of, is_platform_admin. simpl. f_equal. unfold default_role. destruct (om_Role m) as [| | | |s]; try done.
  destruct (bool_decide (RoleOther s = RoleOther "")); by rewrite !bool_decide_false.
Qed.
Lemma confined_Create_member m : admin_of orgID m = false → preserves (db_rel confines) (Create_member m).
Proof.
  intros Hm. unfold Create_member. apply preserves_bind; [apply _|db_preserve|intros t].
  db_preserve; auto. apply confined_insertMember. by rewrite defaults_admin.
Qed.
Lemma confined_CreateWithMembership u m : admin_of orgID m = false → preserves (db_rel confines) (CreateWithMembership u m).
Proof.
  intros Hm. unfold CreateWithMembership. apply preserves_bind; [apply _|db_preserve|intros t].
  db_preserve; auto. apply confined_insertMember. by rewrite defaults_admin.
Qed.
Lemma confined_Update_member m : admin_of orgID m = false → preserves (db_rel confines) (Update_member m).
Proof.
  intros Hm. unfold Update_member. db_preserve; auto. apply preserves_exec.
  apply confines_members. intros l x (y & -> & Hy)%list_elem_of_fmap Ha.
  destruct (is_member _ _ y && _) eqn:Ehit; [|by exists y]. exfalso. apply andb_true_iff in Ehit as [Ehit _].
  unfold is_member in Ehit. rewrite andb_true_iff, !bool_decide_eq_true in Ehit. destruct Ehit as [Eo _].
  unfold admin_of, is_platform_admin in *. simpl in Ha. rewrite Eo in Ha. congruence.
Qed.
Lemma confined_Delete_member o u : preserves (db_rel confines) (Delete_member o u).
Proof.
  unfold Delete_member. db_preserve; auto. apply preserves_exec. apply confines_members.
  intros l x Hx Ha. exists x. unfold delete_where in Hx. by apply list_elem_of_filter in Hx as [_ Hx].
Qed.
Lemma confined_Create_organization o : preserves (db_rel confines) (Create_organization o).
Proof.
  unfold Create_organization. db_preserve. apply preserves_exec. apply (confines_organizations (λ l, l ++ [_])).
  intros l [x Hx]. exists x. induction l as [|y l IH]; simpl in *; [done|]. destruct (bool_decide _); auto.
Qed.
Lemma confined_Update_organization o : preserves (db_rel confines) (Update_organization o).
Proof.
  unfold Update_organization. db_preserve. apply preserves_exec. apply confines_organizations.
  intros l [x Hx]. unfold update_where. induction l as [|y l IH]; simpl in *; [done|].
  assert (Hid : or_ID (if bool_decide (or_ID y = or_ID o) && (or_OptimisticVersion y =? or_OptimisticVersion o)
    then updated_organization (or_Name o) (or_Status o) (rfc3339 a) y else y) = or_ID y) by by destruct (_ && _).
  rewrite Hid. destruct (bool_decide _); [by eexists|auto].
Qed.
End escalation.

(** ** A refresh of the policies changes rules and versions only *)
Section refresh.
Context (view : relation DB) `{!Reflexive view}.
Context (view_applied : ∀ c db db', applied c db db' → aa_Grants c = None → view db db').
Definition world_keeps B (m : SM B) : Prop := ∀ w, view (w_db w) (w_db (m w).2).
Definition node_keeps B (m : NM B) : Prop := ∀ n, view (w_db (nd_world n)) (w_db (nd_world (m n).2)).
Lemma still_keeps {A} (m : SM A) : (∀ w, still w (m w).2) → world_keeps A m.
Proof. intros Hm w. destruct (Hm w) as [-> _]. reflexivity. Qed.
Lemma Load_keeps : calls world_keeps Load.
Proof.
  assert (Hall : ∀ (p : svc World error (res error AuthorizationSnapshot)),
    calls (λ B (m : SM B), ∀ w, still w (m w).2) p → calls world_keeps p).
  { induction p as [a|B m k IH]; [done|]. intros [Hm Hk]. split; [by apply still_keeps|]. intros r. by apply IH. }
  apply Hall, Load_quiet.
Qed.
Lemma compile_keeps grants current : calls world_keeps (compileAuthorizationRules grants current).
Proof.
  split; [by apply still_keeps|]. intros [os|e]; [|done].
  assert (Hall : ∀ ms, calls world_keeps (compile_organizations os ms (λ members, Done (Ok (compiled members grants current))))); [|apply Hall].
  induction os as [|o os IH]; intros ms; [done|]. split; [by apply still_keeps|]. intros [more|e]; [apply IH|done].
Qed.
Lemma Apply_keeps c : aa_Grants c = None → calls world_keeps (Apply c).
Proof.
  intros Hg. split; [|intros [u|e]; [apply Load_keeps|done]]. intros w.
  destruct (retryBusy (run_tx (commit (apply_tx c))) w) as [[u|e] w'] eqn:E; simpl.
  - apply apply_Ok in E. by eapply view_applied.
  - apply retry_loop_Err_db in E. rewrite E. reflexivity.
Qed.
Lemma on_store_keeps {A} (p : svc World error A) : calls world_keeps p → calls node_keeps (on_store p).
Proof. apply calls_svc_lift. intros B m Hm n. rewrite lift_eq. simpl. apply Hm. Qed.
Lemma node_same {A} (m : NM A) : (∀ n, w_db (nd_world (m n).2) = w_db (nd_world n)) → node_keeps A m.
Proof. intros Hm n. rewrite Hm. reflexivity. Qed.
Lemma unavailable_keeps v e : calls node_keeps (unavailable v e).
Proof. split; [by apply node_same|]. by intros [u|e']. Qed.
Lemma adopt_keeps durable : calls node_keeps (adopt durable).
Proof.
  apply calls_bind; [apply on_store_keeps, Load_keeps|]. by intros [s|e]; (split; [by apply node_same|]); intros [u|e'].
Qed.
Lemma loadPolicies_keeps : calls node_keeps loadPolicies.
Proof.
  apply calls_bind; [apply on_store_keeps, Load_keeps|]. intros [durable|e].
  - apply calls_bind; [apply on_store_keeps, compile_keeps|]. intros [rules|e]; [|apply unavailable_keeps].
    destruct (same_rules _ _); [apply adopt_keeps|]. apply calls_bind; [by apply on_store_keeps, Apply_keeps|].
    intros [updated|e]; [apply adopt_keeps|apply unavailable_keeps].
  - split; [by apply node_same|]. intros [v|e']; [apply unavailable_keeps|done].
Qed.
Lemma RefreshPolicies_keeps : calls node_keeps RefreshPolicies.
Proof.
  split; [by apply node_same|]. intros [[]|e]; [done| |done]. apply calls_bind; [apply on_store_keeps, Load_keeps|]. intros [durable|e]; [|done].
  apply calls_bind; [apply on_store_keeps, compile_keeps|]. intros [rules|e]; [|done].
  apply calls_bind; [by apply on_store_keeps, Apply_keeps|]. intros [u|e]; [apply loadPolicies_keeps|done].
Qed.
Lemma in_node_RefreshPolicies_keeps {T} `{Host T} :
  calls (λ B (m : M T error B), ∀ t, view (db_of t) (db_of (m t).2)) (in_node (T:=T) RefreshPolicies).
Proof.
  eapply (calls_svc_lift _ _ (λ B (m : NM B), node_keeps B m)); [|apply RefreshPolicies_keeps].
  intros B m Hm t. rewrite lift_eq. unfold db_of. simpl. rewrite node_of_set. apply Hm.
Qed.
End refresh.

#[export] Instance anything_preorder {A} : PreOrder (λ _ _ : A, True).
Proof. by split. Qed.
Section no_escalation.
Context {T : Type} `{Host T} (bcrypt_hash : string → string → option string) (fault : error → Prop).
Context (orgID : string) (initial : list string) (callerID : string) (Hcaller : callerID ∉ initial).
Definition closed (t : T) : Prop := confined orgID initial (db_of t).
Abbreviation ewp := (wp closed (λ _ _, True) fault).
Abbreviation yes := (λ _ _, True).
Lemma here_closed {A} (m : SM A) : preserves (db_rel (confines orgID initial)) m → guarantees closed (λ _ _, True) (here (T:=T) m).
Proof.
  intros Hm t Ht. split; [|done]. unfold closed, db_of. rewrite here_eq. simpl. rewrite node_of_set.
  apply (Hm (nd_world (node_of t)) (m (nd_world (node_of t))).1); [by destruct (m _)|exact Ht].
Qed.
Lemma here_still {A} (m : SM A) : (∀ w, still w (m w).2) → guarantees closed (λ _ _, True) (here (T:=T) m).
Proof. intros Hm. apply here_closed. intros w r w' E. specialize (Hm w). rewrite E in Hm. destruct Hm as [Hm _]. simpl in Hm. unfold db_rel. rewrite Hm. reflexivity. Qed.
Lemma done_wp {A} (a : A) t : ewp (Done a) yes t.
Proof. by apply wp_Done. Qed.
(** A call that keeps the organization closed, whatever it answers. *)
Lemma call_wp {A B} (m : SM B) (k : res error B → svc T error A) t :
  preserves (db_rel (confines orgID initial)) m → (∀ r t1, ewp (k r) yes t1) → ewp (Call (here m) k) yes t.
Proof. intros Hm Hk. apply wp_call; [by apply here_closed|]. intros t1 _ _. split; [apply Hk|intros; apply Hk]. Qed.
Lemma read_wp {A B} (m : SM B) (k : res error B → svc T error A) t :
  (∀ w, still w (m w).2) → (∀ r t1, ewp (k r) yes t1) → ewp (Call (here m) k) yes t.
Proof. intros Hm Hk. apply wp_call; [by apply here_still|]. intros t1 _ _. split; [apply Hk|intros; apply Hk]. Qed.
(** Reading a membership: the caller's is not an administrator's. *)
Lemma member_wp {A} o u (k : res error OrganizationMember → svc T error A) t :
  (∀ m t1, closed t1 → om_OrgID m = o → (o = orgID → u = callerID → om_Role m ≠ RolePlatformAdmin) → ewp (k (Ok m)) yes t1) →
  (∀ e t1, ewp (k (Err e)) yes t1) → ewp (Call (here (Get_member o u)) k) yes t.
Proof.
  intros Hk He. apply wp_call; [apply here_still, row_still|]. intros t1 Ht1 _. split; [|by intros].
  set (t2 := (here (Get_member o u) t1).2). assert (Ht2 : closed t2) by (apply here_still; [apply row_still|done]). clearbody t2.
  rewrite here_eq. cbn [fst]. unfold Get_member, query, bind, gets, scan_row. cbn [fst snd]. fold (db_of t1).
  destruct (member_of o u (db_of t1)) as [m|] eqn:Em; [|apply He]. apply Hk; [done| |].
  - apply find_row_Some in Em as [_ Em]. unfold is_member in Em. rewrite andb_true_iff, !bool_decide_eq_true in Em. by destruct Em.
  - intros -> -> Hr. destruct Ht1 as [_ Ha]. apply Hcaller, Ha, admins_elem. exists m.
    apply find_row_Some in Em as [Hin Em]. unfold is_member in Em. rewrite andb_true_iff, !bool_decide_eq_true in Em.
    split_and!; [done| |by destruct Em]. unfold admin_of, is_platform_admin. by rewrite !bool_decide_true by by destruct Em.
Qed.
Lemma refresh_wp {A} (k : svc T error (res connect_error A)) t : (∀ t1, ewp k yes t1) → ewp (refreshPolicies k) yes t.
Proof.
  intros Hk. unfold refreshPolicies. apply wp_bind; [apply _|]. apply wp_calls; [apply _| |].
  - intros [u|e] t1 _ _; [apply Hk|apply done_wp].
  - assert (Hall : ∀ (p : svc T error (res error unit)),
      calls (λ B (m : M T error B), ∀ t, confines orgID initial (db_of t) (db_of (m t).2)) p → calls (λ B, guarantees closed (λ _ _, True)) p).
    { induction p as [a|B m k' IH]; [done|]. intros [Hm Hk']. split; [|intros r; by apply IH]. intros t0 Ht0. split; [by apply Hm|done]. }
    apply Hall, (in_node_RefreshPolicies_keeps (confines orgID initial)). intros c db db' Ha Hg. apply confines_tables.
    unfold member_tables. apply (applied_subjects _ _ _ Ha) in Hg. unfold subjects in Hg. by injection Hg as -> -> _.
Qed.
Lemma grants_no_admin r target : CanGrant r target = true → r ≠ RolePlatformAdmin → target ≠ RolePlatformAdmin.
Proof. unfold CanGrant. intros Hg Hr ->. rewrite bool_decide_false in Hg by done. by destruct (bool_decide (r = RoleReleaseAdmin)). Qed.
Lemma not_admin o u role : (o = orgID → role ≠ RolePlatformAdmin) → admin_of orgID (bare_member o u role) = false.
Proof.
  intros Hr. unfold admin_of, is_platform_admin. simpl. destruct (decide (o = orgID)) as [->|Ho]; [|by rewrite bool_decide_false].
  rewrite (bool_decide_false (role = _)) by by apply Hr. apply andb_false_r.
Qed.
Ltac stop := solve [apply done_wp].
Lemma requireRole_wp {A} role (k : svc T error (res connect_error A)) t : (∀ t1, ewp k yes t1) → ewp (requireRole callerID role k) yes t.
Proof.
  intros Hk. unfold requireRole. destruct (bool_decide _); [stop|]. apply read_wp; [done|]. intros [ms|e] t1; [|stop].
  destruct (existsb _ ms); [apply Hk|stop].
Qed.
Lemma keep_one_admin_wp {A} o message (k : svc T error (res connect_error A)) t : (∀ t1, ewp k yes t1) → ewp (keep_one_admin o message k) yes t.
Proof. intros Hk. apply read_wp; [done|]. intros [ms|e] t1; [|stop]. destruct (_ <=? _)%nat; [stop|apply Hk]. Qed.
(** A new organization is not this one: this one exists. *)
Lemma Create_organization_other o o' w w' :
  is_Some (organization_of orgID (w_db w)) → Create_organization o w = (Ok o', w') → or_ID o' ≠ orgID.
Proof.
  intros Ho E. unfold Create_organization in E. apply bind_Ok in E as (createdAt & w1 & Ht & E).
  apply bind_Ok in E as (u & w2 & Hc & E). dinv. apply autocommit_Ok in Hc. apply bind_Ok in Hc as (existing & w3 & Hq & Hc). dinv.
  simpl in *. apply bool_decide_eq_false in Hguard. intros Eo. by rewrite Eo, Hdb in Hguard.
Qed.
Lemma CreateOrganization_wp name t : ewp (CreateOrganization callerID name) yes t.
Proof.
  apply requireRole_wp. intros t1. apply call_wp; [db_preserve|]. intros [id|e] t2; [|stop].
  apply wp_call; [apply here_closed, confined_Create_organization|]. intros t3 Ht3 _. split; [|intros; stop].
  destruct (here (Create_organization _) t3) as [[org|e] t4] eqn:E; cbn [fst snd]; [|stop].
  assert (Hother : or_ID org ≠ orgID).
  { rewrite here_eq in E. destruct (Create_organization _ _) as [r w'] eqn:Ec. simpl in E. injection E as -> _.
    eapply Create_organization_other; [|exact Ec]. by destruct Ht3. }
  apply call_wp; [by apply confined_Create_member, not_admin|]. intros r t5. apply refresh_wp. intros t6. stop.
Qed.
Lemma edit_organization_wp o (k : res error Organization → svc T error (res connect_error Organization)) t :
  (∀ r t1, ewp (k r) yes t1) → ewp (svc_bind (once (here (Update_organization o))) k) yes t.
Proof. intros Hk. cbn [once svc_bind]. apply call_wp; [apply confined_Update_organization|exact Hk]. Qed.
Lemma UpdateOrganization_wp o name v t : ewp (UpdateOrganization o name v) yes t.
Proof.
  apply read_wp; [apply row_still|]. intros [org|e] t1; [|stop]. destruct (bool_decide _); [stop|].
  apply edit_organization_wp. intros [u|[]] t2; stop.
Qed.
Lemma DisableOrganization_wp o v t : ewp (DisableOrganization o v) yes t.
Proof. apply read_wp; [apply row_still|]. intros [org|e] t1; [|stop]. apply edit_organization_wp. intros [u|[]] t2; stop. Qed.
Lemma AddMember_wp o u role t : ewp (AddMember callerID o u role) yes t.
Proof.
  unfold AddMember. destruct (bool_decide _); [stop|]. destruct (negb _); [stop|]. apply read_wp; [apply row_still|].
  intros [org|e] t1; [|stop]. destruct (bool_decide _); [stop|]. apply member_wp; [|intros; stop]. intros caller t2 _ _ Hadmin.
  destruct (CanGrant _ _) eqn:Eg; [|stop]. apply call_wp.
  - apply confined_Create_member, not_admin. intros ->. eapply grants_no_admin; [exact Eg|by apply Hadmin].
  - intros [m|[]] t3; try stop. apply refresh_wp. intros t4. stop.
Qed.
Lemma RemoveMember_wp o u t : ewp (RemoveMember callerID o u) yes t.
Proof.
  unfold RemoveMember. destruct (bool_decide _); [stop|]. apply read_wp; [apply row_still|]. intros [target|e] t1; [|stop].
  set (remove := Call _ _). assert (Hremove : ∀ t2, ewp remove yes t2).
  { intros t2. apply call_wp; [apply confined_Delete_member|]. intros [x|e] t3; [|stop]. apply refresh_wp. intros t4. stop. }
  destruct (is_platform_admin _); [by apply keep_one_admin_wp|apply Hremove].
Qed.
Lemma UpdateMemberRole_wp o u role v t : ewp (UpdateMemberRole callerID o u role v) yes t.
Proof.
  unfold UpdateMemberRole. destruct (bool_decide _); [stop|]. destruct (negb _); [stop|]. apply member_wp; [|intros; stop].
  intros caller t1 _ _ Hadmin. destruct (CanGrant _ _) eqn:Eg; [|stop].
  apply wp_call; [apply here_still, row_still|]. intros t2 _ _. split; [|intros; stop].
  destruct (here (Get_member o u) t2) as [[target|e] t3] eqn:E; cbn [fst snd]; [|stop].
  assert (Ho : om_OrgID target = o).
  { rewrite here_eq in E. unfold Get_member, query, bind, gets, scan_row in E. simpl in E.
    destruct (member_of o u _) as [m|] eqn:Em; [|done]. injection E as -> _.
    apply find_row_Some in Em as [_ Em]. unfold is_member in Em. rewrite andb_true_iff, !bool_decide_eq_true in Em. by destruct Em. }
  set (update := svc_bind _ _). assert (Hupdate : ∀ t4, ewp update yes t4).
  { intros t4. unfold update. cbn [once svc_bind]. apply call_wp.
    - apply confined_Update_member. apply (not_admin (om_OrgID target) (om_UserID target)). intros Eo.
      eapply grants_no_admin; [exact Eg|]. apply Hadmin; congruence.
    - intros [m|[]] t5; try stop. apply refresh_wp. intros t6. stop. }
  destruct (_ && _); [by apply keep_one_admin_wp|apply Hupdate].
Qed.
Lemma target_role_wp roles role : resolveTargetRole roles = Ok role → role ≠ RolePlatformAdmin.
Proof.
  unfold resolveTargetRole. destruct roles as [|r [|]]; [by intros [= <-]| |done]. destruct (negb _); [done|].
  case_bool_decide as Er; [done|]. by intros [= <-].
Qed.
Lemma localUserProto_wp u t : ewp (localUserProto u) yes t.
Proof. apply read_wp; [done|]. intros [ms|e] t1; [|stop]. destruct (membershipProjection _). stop. Qed.
Lemma admin_in_calls (P : ∀ B, M T error B → Prop) o role : calls P (admin_in o role).
Proof. unfold admin_in. by case_bool_decide. Qed.
Lemma resolveTarget_wp actor o Q t : (∀ r t1, Q r t1) → ewp (resolveTargetOrgAndRole actor callerID o) Q t.
Proof.
  intros HQ. apply wp_calls; [apply _|by intros; apply HQ|]. split; [by apply here_still|]. intros [[|first ms]|e]; [done| |done].
  cbv beta iota zeta. set (target := if negb _ then _ else _). case_bool_decide; [apply admin_in_calls|].
  split; [apply here_still, row_still|]. intros [org|[]]; cbn [svc_bind]; try done. case_bool_decide; [done|].
  destruct (find_row _ _) as [m|]; [|done]. case_bool_decide; [done|]. apply admin_in_calls.
Qed.
Lemma CreateLocalUser_wp h actor username password o roles t :
  ewp (CreateLocalUser bcrypt_hash h actor callerID username password o roles) yes t.
Proof.
  unfold CreateLocalUser. do 3 (destruct (_ : bool); [stop|]). destruct (resolveTargetRole roles) as [role|e] eqn:Erole; [|stop].
  apply target_role_wp in Erole. apply wp_bind; [apply _|]. apply resolveTarget_wp. intros [target|e] t1; [|stop].
  destruct (negb _); [stop|]. cbn [once svc_bind]. apply read_wp; [apply row_still|].
  assert (Hrefresh : ∀ u t2, ewp (refreshPolicies (localUserProto u)) yes t2) by (intros; apply refresh_wp; intros; apply localUserProto_wp).
  intros [u|[]] t2; try stop; [apply Hrefresh|].
  apply read_wp; [intros w; unfold HashPassword, random_text, bind; simpl; by destruct (bcrypt_hash _ _)|]. intros [hash|e] t3; [|stop].
  apply read_wp; [done|]. intros [id|e] t4; [|stop].
  apply call_wp; [by apply confined_CreateWithMembership, not_admin|]. intros [u|[]] t5; try stop; [apply Hrefresh|].
  apply read_wp; [apply row_still|]. intros [winner|e] t6; [apply Hrefresh|stop].
Qed.
Lemma ignore_wp {A} (p : svc T error A) t : ewp p yes t → ewp (ignore p) yes t.
Proof. intros Hp. apply wp_bind; [apply _|]. eapply wp_mono; [apply _| |exact Hp]. intros a t1 _ _ _. apply done_wp. Qed.
Lemma request_wp p t : request bcrypt_hash callerID p → ewp p yes t.
Proof.
  intros [ | | | | | | |q Hq].
  all: try (apply ignore_wp).
  - apply CreateOrganization_wp.
  - apply UpdateOrganization_wp.
  - apply DisableOrganization_wp.
  - apply AddMember_wp.
  - apply RemoveMember_wp.
  - apply UpdateMemberRole_wp.
  - apply CreateLocalUser_wp.
  - apply wp_calls; [apply _|done|]. clear -Hq. induction q as [a|B m k IH]; [done|]. destruct Hq as [Hm Hk].
    split; [|intros r; by apply IH]. intros t Ht. split; [|done]. by apply (confines_tables _ _ _ _ (Hm t)).
Qed.
End no_escalation.
(** C3: no escalation.  Let any number of requests -- creating and changing
    organizations, adding, removing and re-assigning members, creating users, and any
    other program that touches neither memberships nor organizations -- run
    concurrently, interleaved call by call, with any of their calls failing.  If the
    users who make them are not platform administrators of an existing
    organization at the start, every platform administrator the organization ends
    up with was one at the start. *)
Theorem no_escalation {T} `{Host T} bcrypt_hash fault orgID (t t' : T) threads u :
  is_Some (organization_of orgID (db_of t)) →
  rtc (pool_step fault (λ p, ∃ callerID, (callerID ∉ admins orgID (db_of t)) ∧ request bcrypt_hash callerID p)) (t, []) (t', threads) →
  u ∈ admins orgID (db_of t') → u ∈ admins orgID (db_of t).
Proof.
  intros Ho Hrun. set (initial := admins orgID (db_of t)) in *.
  assert (Ht : closed orgID initial t) by by split.
  assert (Hstart : ∀ (p : svc T error unit) t0, (∃ callerID, (callerID ∉ initial) ∧ request bcrypt_hash callerID p) →
    closed orgID initial t0 → wp (closed orgID initial) (λ _ _, True) fault p (λ _ _, True) t0)
    by (intros p t0 (callerID & Hc & Hp) _; by eapply request_wp).
  destruct (pool_ok _ _ _ _ _ Hstart _ _ Hrun Ht (Forall_nil_2 _)) as ([_ Ha] & _). by apply Ha.
Qed.

(** ** The last platform administrator *)
Definition org_admins (orgID : string) (db : DB) : nat := length (filter (λ m, admin_of orgID m = true) (at_members (db_auth db))).
Definition membership_key (m : OrganizationMember) : string * string := (om_OrgID m, om_UserID m).
(** PRIMARY KEY (org_id, user_id) *)
Definition members_unique (db : DB) : Prop := NoDup (membership_key <$> at_members (db_auth db)).
Lemma exec_call {S E A B} (m : M S E B) (k : res E B → svc S E A) s : exec_svc (Call m k) s = exec_svc (k (m s).1) (m s).2.
Proof. done. Qed.
Lemma exec_keeps {S E A} (R : relation S) `{!PreOrder R} (p : svc S E A) s : calls (λ B m, ∀ x, R x (m x).2) p → R s (exec_svc p s).2.
Proof. revert s. induction p as [a|B m k IH]; intros s; simpl; [reflexivity|]. intros [Hm Hk]. etransitivity; [apply Hm|by apply IH]. Qed.
(** The administrators of an organization are counted over its listed members. *)
Lemma adminCount_org orgID db : adminCount (members_of_org orgID db) = org_admins orgID db.
Proof.
  unfold adminCount, members_of_org, org_admins.
  rewrite (Permutation_length (filter_Permutation _ _ _ (merge_sort_Permutation member_created_le _))).
  rewrite list_filter_filter. f_equal. apply list_filter_iff. intros m. unfold admin_of. rewrite andb_true_iff, bool_decide_eq_true. tauto.
Qed.
(** All but the row with one key. *)
Lemma filter_unique {A K} (key : A → K) (p hit : A → bool) (l : list A) k :
  NoDup (key <$> l) → (∀ x, hit x = true → key x = k) →
  (length (filter (λ x, p x = true) l) ≤ S (length (filter (λ x, p x && negb (hit x) = true) l)))%nat.
Proof.
  intros Hnd Hhit. induction l as [|x l IH]; [simpl; lia|]. cbn [fmap list_fmap] in Hnd. apply NoDup_cons in Hnd as [Hx Hnd].
  specialize (IH Hnd). rewrite !filter_cons. destruct (hit x) eqn:Eh.
  - assert (Hrest : filter (λ y, p y && negb (hit y) = true) l = filter (λ y, p y = true) l).
    { clear IH Hnd. induction l as [|y l IH]; [done|]. cbn [fmap list_fmap] in Hx.
      apply not_elem_of_cons in Hx as [Hxy Hx]. rewrite !filter_cons, IH by done. destruct (hit y) eqn:Ey; [|by rewrite andb_true_r].
      exfalso. apply Hxy. by rewrite (Hhit _ Ey), (Hhit _ Eh). }
    rewrite Hrest, andb_false_r. destruct (decide (p x = true)); destruct (decide (false = true)); simpl; lia || done.
  - rewrite andb_true_r. destruct (decide (p x = true)); simpl; lia.
Qed.
Lemma filter_delete {A} (p hit : A → bool) (l : list A) :
  filter (λ x, p x = true) (delete_where hit l) = filter (λ x, p x && negb (hit x) = true) l.
Proof.
  unfold delete_where. rewrite list_filter_filter. apply list_filter_iff. intros x. rewrite andb_true_iff, negb_true_iff. done.
Qed.
Lemma filter_update {A} (p hit : A → bool) f (l : list A) :
  (length (filter (λ x, p x && negb (hit x) = true) l) ≤ length (filter (λ x, p x = true) (update_where hit f l)))%nat.
Proof.
  induction l as [|x l IH]; [done|]. unfold update_where in *. cbn [map]. rewrite !filter_cons. destruct (hit x).
  - rewrite andb_false_r. destruct (decide (false = true)); [done|]. destruct (decide (p (f x) = true)); simpl; lia.
  - rewrite andb_true_r. destruct (decide (p x = true)); simpl; lia.
Qed.

(** At most the administrator with one key is lost. *)
Lemma find_unique {A K} (key : A → K) (hit : A → bool) l k x :
  NoDup (key <$> l) → (∀ y, hit y = true → key y = k) → x ∈ l → hit x = true → find_row hit l = Some x.
Proof.
  intros Hnd Hhit Hx Ex. unfold find_row. induction l as [|y l IH]; [by apply not_elem_of_nil in Hx|]. cbn [fmap list_fmap] in Hnd.
  apply NoDup_cons in Hnd as [Hy Hnd]. simpl. apply elem_of_cons in Hx as [->|Hx]; [by rewrite Ex|].
  destruct (hit y) eqn:Ey; [|by apply IH]. exfalso. apply Hy. rewrite (Hhit _ Ey), <- (Hhit _ Ex). by apply list_elem_of_fmap_2.
Qed.
Lemma filter_ext_in {A} (p q : A → bool) (l : list A) : (∀ x, x ∈ l → p x = q x) → filter (λ x, p x = true) l = filter (λ x, q x = true) l.
Proof.
  intros Hl. induction l as [|x l IH]; [done|]. rewrite !filter_cons, IH by (intros; apply Hl; by right).
  rewrite <- (Hl x) by by left. by destruct (decide (p x = true)).
Qed.
Lemma admins_left orgID o u (hit : OrganizationMember → bool) (l : list OrganizationMember) :
  NoDup (membership_key <$> l) → (∀ x, hit x = true → is_member o u x = true) →
  (∀ m, find_row (is_member o u) l = Some m → admin_of orgID m = true → hit m = true →
     2 ≤ length (filter (λ m, admin_of orgID m = true) l))%nat →
  (1 ≤ length (filter (λ m, admin_of orgID m = true) l))%nat →
  (1 ≤ length (filter (λ m, admin_of orgID m && negb (hit m) = true) l))%nat.
Proof.
  intros Hnd Hhit Htwo Hone.
  assert (Hkey : ∀ x, is_member o u x = true → membership_key x = (o, u)).
  { intros x. unfold is_member, membership_key. rewrite andb_true_iff, !bool_decide_eq_true. by intros [-> ->]. }
  destruct (existsb (λ m, admin_of orgID m && hit m) l) eqn:Ex.
  - apply existsb_exists in Ex as (m & Hm & Eb). apply andb_true_iff in Eb as [Ea Eh]. apply list_elem_of_In in Hm.
    assert (Hf : find_row (is_member o u) l = Some m) by (eapply find_unique; eauto).
    pose proof (filter_unique membership_key (admin_of orgID) hit l (o, u) Hnd ltac:(auto)). specialize (Htwo m Hf Ea Eh). lia.
  - rewrite existsb_false_forall, Forall_forall in Ex.
    rewrite (filter_ext_in (λ m, admin_of orgID m && negb (hit m)) (admin_of orgID)); [done|].
    intros m Hm. specialize (Ex m Hm). simpl in Ex. by destruct (admin_of orgID m), (hit m).
Qed.
(** What the transactions do to the members. *)
Lemma run_commit_effect {A} (body : SM A) r w w' (P : DB → Prop) :
  P (w_db w) → (∀ a w1, body (attempt w) = (Ok a, w1) → P (w_db w1)) → run_tx (commit body) w = (r, w') → P (w_db w').
Proof.
  intros Hw Hb E. apply run_tx_cases in E as [->|(a & _ & E)]; [done|]. apply bind_Ok in E as (a' & w1 & E & Hr). dinv. by eapply Hb.
Qed.
Lemma filter_inhabited {A} (p : A → bool) (l : list A) : (1 ≤ length (filter (λ x, p x = true) l))%nat ↔ ∃ x, x ∈ l ∧ p x = true.
Proof.
  split.
  - destruct (filter _ l) as [|x k] eqn:E; simpl; [lia|]. intros _. exists x. assert (Hx : x ∈ filter (λ x, p x = true) l) by (rewrite E; by left).
    by apply list_elem_of_filter in Hx as [? ?].
  - intros (x & Hx & Hp). assert (Hf : x ∈ filter (λ x, p x = true) l) by by apply list_elem_of_filter.
    destruct (filter _ l); [by apply not_elem_of_nil in Hf|simpl; lia].
Qed.
Definition guarded_removal (orgID o u : string) (hit : OrganizationMember → bool) (db : DB) : Prop :=
  members_unique db ∧ (∀ x, hit x = true → is_member o u x = true) ∧
  (∀ m, member_of o u db = Some m → admin_of orgID m = true → hit m = true → (2 ≤ org_admins orgID db)%nat).
Definition has_admin (orgID : string) (db : DB) : Prop := (1 ≤ org_admins orgID db)%nat.
Lemma Delete_member_admin orgID o u w :
  guarded_removal orgID o u (is_member o u) (w_db w) → has_admin orgID (w_db w) → has_admin orgID (w_db (Delete_member o u w).2).
Proof.
  intros (Hnd & Hhit & Htwo) Hone. destruct (Delete_member o u w) as [r w'] eqn:E. unfold Delete_member in E.
  apply (run_commit_effect _ _ _ _ (has_admin orgID)) in E; [done|done|]. intros a w1 Eb. dinv.
  match goal with Hb : bumpAuthorizationSourceVersion _ = _ |- _ => apply bump_Ok in Hb as (v & _ & ->) end.
  unfold has_admin, org_admins. simpl. rewrite filter_delete. by eapply admins_left.
Qed.
Definition edits (m x : OrganizationMember) : bool := is_member (om_OrgID m) (om_UserID m) x && at_version (om_OptimisticVersion m) x.
Lemma Update_member_admin orgID m w :
  admin_of orgID m = true ∨ guarded_removal orgID (om_OrgID m) (om_UserID m) (edits m) (w_db w) →
  has_admin orgID (w_db w) → has_admin orgID (w_db (Update_member m w).2).
Proof.
  intros Hm Hone. unfold Update_member, bind at 1. cbn [now fst snd]. unfold bind at 1.
  destruct (run_tx _ (tick w)) as [r w1] eqn:E. assert (Hw1 : has_admin orgID (w_db w1)); [|by destruct r].
  apply (run_commit_effect _ _ _ _ (has_admin orgID)) in E; [done|done|]. intros a w2 Eb. dinv.
  match goal with Hb : bumpAuthorizationSourceVersion _ = _ |- _ => apply bump_Ok in Hb as (v & _ & ->) end.
  set (f := updated_member (om_Role m) _). change (has_admin orgID (on_auth (λ a, set_members (update_where (edits m) f (at_members a)) a) (w_db w))).
  destruct Hm as [Hm|(Hnd & Hhit & Htwo)].
  - unfold has_admin, org_admins in *. apply filter_inhabited in Hone as (x & Hx & Ea). apply filter_inhabited.
    exists (if edits m x then f x else x). split; [simpl; apply update_where_elem; by exists x|]. destruct (edits m x) eqn:Ee; [|done].
    unfold edits, is_member in Ee. rewrite !andb_true_iff, !bool_decide_eq_true in Ee. destruct Ee as [[Eo _] _].
    unfold admin_of, is_platform_admin in *. simpl. by rewrite Eo.
  - eapply Nat.le_trans; [|apply filter_update]. by eapply admins_left.
Qed.
Section last_admin.
Context {T : Type} `{Host T}.
(** A read leaves the tables. *)
Lemma exec_read {A B} (m : SM B) (k : res error B → svc T error A) t :
  (∀ w, still w (m w).2) →
  ∃ t1, exec_svc (Call (here m) k) t = exec_svc (k (m (nd_world (node_of t))).1) t1 ∧ db_of t1 = db_of t.
Proof.
  intros Hm. exists (here m t).2. rewrite exec_call, here_eq. split; [done|]. unfold db_of. simpl. rewrite node_of_set. by destruct (Hm (nd_world (node_of t))).
Qed.
Lemma exec_refresh {A} (k : svc T error (res connect_error A)) t (P : list OrganizationMember * list Organization → Prop) :
  (∀ t1, member_tables (db_of t1) = member_tables (db_of t) → P (member_tables (db_of (exec_svc k t1).2))) →
  P (member_tables (db_of t)) → P (member_tables (db_of (exec_svc (refreshPolicies k) t).2)).
Proof.
  intros Hk Ht. unfold refreshPolicies. rewrite exec_bind. set (t1 := (exec_svc (in_node RefreshPolicies) t).2).
  assert (Hr : member_tables (db_of t1) = member_tables (db_of t)).
  { assert (Hpre : PreOrder (λ a b : T, member_tables (db_of a) = member_tables (db_of b))) by (split; [done|intros ? ? ? -> ->; done]).
    symmetry. apply (exec_keeps (λ a b, member_tables (db_of a) = member_tables (db_of b))).
    apply (in_node_RefreshPolicies_keeps (λ a b, member_tables a = member_tables b)). intros c db db' Ha Hg.
    apply (applied_subjects _ _ _ Ha) in Hg. unfold subjects in Hg. unfold member_tables. by injection Hg as -> -> _. }
  destruct (exec_svc (in_node RefreshPolicies) t).1; [by apply Hk|]. simpl. by rewrite Hr.
Qed.
Lemma has_admin_tables orgID db db' : member_tables db' = member_tables db → has_admin orgID db → has_admin orgID db'.
Proof. unfold member_tables, has_admin, org_admins. by intros [= -> _]. Qed.
Lemma refresh_admin {A} orgID (a : res connect_error A) (t : T) :
  has_admin orgID (db_of t) → has_admin orgID (db_of (exec_svc (refreshPolicies (Done a)) t).2).
Proof.
  intros Ht. set (P := λ tables : list OrganizationMember * list Organization, (1 ≤ length (filter (λ m, admin_of orgID m = true) tables.1))%nat).
  apply (exec_refresh (Done a) t P); [|done]. intros t1 Ht1. simpl. by rewrite Ht1.
Qed.
Lemma members_keep {A} (m : SM A) orgID t :
  (∀ w r w', m w = (r, w') → has_admin orgID (w_db w) → has_admin orgID (w_db w')) →
  has_admin orgID (db_of t) → has_admin orgID (db_of (here (T:=T) m t).2).
Proof.
  intros Hm Ht. rewrite here_eq. unfold db_of. simpl. rewrite node_of_set. destruct (m (nd_world (node_of t))) as [r w'] eqn:E. by apply (Hm _ _ _ E).
Qed.
Context (callerID orgID userID : string).
(** The guard read the members that the next call removes or changes one of. *)
Lemma keep_one_admin_exec {A} o message (k : svc T error (res connect_error A)) t (P : DB → Prop) :
  P (db_of t) → (∀ t1, db_of t1 = db_of t → (2 ≤ org_admins o (db_of t1))%nat → P (db_of (exec_svc k t1).2)) →
  P (db_of (exec_svc (keep_one_admin o message k) t).2).
Proof.
  intros Ht Hk. unfold keep_one_admin. destruct (exec_read (ListByOrg_members o) (λ r, match r with
    | Ok members => if (adminCount members <=? 1)%nat then org_refused CodeFailedPrecondition "last_platform_admin_forbidden" message else k
    | Err e => internal "list members" e end) t) as (t1 & E & Hdb); [done|]. rewrite E. cbn [ListByOrg_members query gets fst].
  fold (db_of t). rewrite adminCount_org. destruct (_ <=? _)%nat eqn:Ele; [simpl; by rewrite Hdb|]. apply Nat.leb_gt in Ele.
  apply Hk; [done|]. rewrite Hdb. lia.
Qed.
Lemma member_of_key o u db m : member_of o u db = Some m → om_OrgID m = o ∧ om_UserID m = u.
Proof.
  intros Em. apply find_row_Some in Em as [_ Em]. unfold is_member in Em. by rewrite andb_true_iff, !bool_decide_eq_true in Em.
Qed.
Lemma admin_of_member o db orgID' m : member_of o userID db = Some m → admin_of orgID' m = true → o = orgID' ∧ is_platform_admin m = true.
Proof. intros Em Ea. apply member_of_key in Em as [<- _]. unfold admin_of in Ea. by rewrite andb_true_iff, bool_decide_eq_true in Ea. Qed.
Lemma RemoveMember_keeps_admin o t :
  members_unique (db_of t) → has_admin o (db_of t) → has_admin o (db_of (exec_svc (RemoveMember callerID orgID userID) t).2).
Proof.
  intros Hnd Ht. unfold RemoveMember. destruct (bool_decide _); [done|]. set (remove := Call (here (Delete_member _ _)) _).
  destruct (exec_read (Get_member orgID userID) (λ r, match r with
    | Ok target => if is_platform_admin target then keep_one_admin orgID "cannot remove the last platform_admin" remove else remove
    | Err _ => refuse CodeNotFound "member not found" end) t) as (t1 & E & Hdb); [apply row_still|]. rewrite E. clear E.
  unfold Get_member, query, bind, gets, scan_row. cbn [fst snd]. fold (db_of t).
  destruct (member_of orgID userID (db_of t)) as [target|] eqn:Em; [|simpl; by rewrite Hdb].
  assert (Hremove : ∀ t2, db_of t2 = db_of t → (is_platform_admin target = true → 2 ≤ org_admins orgID (db_of t))%nat →
    has_admin o (db_of (exec_svc remove t2).2)).
  { intros t2 Hdb2 Htwo. unfold remove. rewrite exec_call. set (t3 := (here (Delete_member orgID userID) t2).2).
    assert (H3 : has_admin o (db_of t3)).
    { unfold t3. rewrite here_eq. unfold db_of. simpl. rewrite node_of_set. simpl. apply Delete_member_admin; [|fold (db_of t2); by rewrite Hdb2].
      fold (db_of t2). rewrite Hdb2. split_and!; [done|done|]. intros m Em' Ea _. rewrite Em in Em'. injection Em' as <-.
      destruct (admin_of_member _ _ _ _ Em Ea) as [<- Hp]. by apply Htwo. }
    destruct (here (Delete_member orgID userID) t2).1; [by apply refresh_admin|done]. }
  cbn [ret fst snd]. destruct (is_platform_admin target) eqn:Ep; [|by apply Hremove].
  apply (keep_one_admin_exec _ _ _ _ (has_admin o)); [by rewrite Hdb|]. intros t2 Hdb2 Htwo. apply Hremove; [congruence|].
  intros _. by rewrite <- Hdb, <- Hdb2.
Qed.
Lemma UpdateMemberRole_keeps_admin role version o t :
  members_unique (db_of t) → has_admin o (db_of t) →
  has_admin o (db_of (exec_svc (UpdateMemberRole callerID orgID userID role version) t).2).
Proof.
  intros Hnd Ht. unfold UpdateMemberRole. destruct (bool_decide _); [done|]. destruct (negb (Role_Valid _)); [done|].
  set (newRole := role_of role).
  set (update := λ target : OrganizationMember, svc_bind (once (here (T:=T) (Update_member (edit_member newRole version target)))) (λ r,
    match r with
    | Ok member => refreshPolicies (Done (Ok member))
    | Err ErrOptimisticLock => refuse CodeAborted "optimistic lock conflict"
    | Err _ => refuse CodeInternal "update member role"
    end)).
  set (rest := λ r : res error OrganizationMember, match r with
    | Ok target => if is_platform_admin target && negb (bool_decide (newRole = RolePlatformAdmin))
                   then keep_one_admin orgID "cannot demote the last platform_admin" (update target) else update target
    | Err _ => refuse CodeNotFound "member not found" end).
  set (guarded := λ r : res error OrganizationMember, match r with
    | Ok caller => if negb (CanGrant (om_Role caller) newRole) then refuse CodePermissionDenied "role cannot grant role"
                   else Call (here (Get_member orgID userID)) rest
    | Err _ => refuse CodePermissionDenied "not a member of this organization" end).
  change (has_admin o (db_of (exec_svc (Call (here (Get_member orgID callerID)) guarded) t).2)).
  destruct (exec_read (Get_member orgID callerID) guarded t) as (t1 & E & Hdb); [apply row_still|].
  rewrite E. clear E. destruct (Get_member orgID callerID _).1 as [caller|e]; [|simpl; by rewrite Hdb]. cbv beta iota delta [guarded].
  destruct (negb (CanGrant _ _)); [simpl; by rewrite Hdb|].
  destruct (exec_read (Get_member orgID userID) rest t1) as (t2 & E & Hdb2); [apply row_still|]. rewrite E. clear E.
  rewrite <- Hdb in Hnd, Ht. clear Hdb. unfold Get_member, query, bind, gets, scan_row. cbn [fst snd]. fold (db_of t1).
  destruct (member_of orgID userID (db_of t1)) as [target|] eqn:Em; [|simpl; by rewrite Hdb2]. cbn [ret fst snd rest].
  destruct (member_of_key _ _ _ _ Em) as [Eo Eu].
  assert (Hupdate : ∀ t3, db_of t3 = db_of t1 →
    (is_platform_admin target && negb (bool_decide (newRole = RolePlatformAdmin)) = true → 2 ≤ org_admins orgID (db_of t1))%nat →
    has_admin o (db_of (exec_svc (update target) t3).2)).
  { intros t3 Hdb3 Htwo. unfold update. cbn [once svc_bind]. rewrite exec_call.
    set (m := edit_member newRole version target). set (t4 := (here (Update_member m) t3).2).
    assert (H4 : has_admin o (db_of t4)).
    { unfold t4. rewrite here_eq. unfold db_of. simpl. rewrite node_of_set. simpl. fold (db_of t3).
      apply Update_member_admin; [|by fold (db_of t3); rewrite Hdb3]. fold (db_of t3). rewrite Hdb3.
      destruct (admin_of o m) eqn:Eam; [by left|right]. simpl. rewrite Eo, Eu. split_and!; [done| |].
      - intros x. unfold edits. simpl. rewrite Eo, Eu. by intros [? _]%andb_true_iff.
      - intros m' Em' Ea _. rewrite Em in Em'. injection Em' as <-. destruct (admin_of_member _ _ _ _ Em Ea) as [<- Hp]. apply Htwo.
        rewrite Hp. simpl. unfold admin_of, is_platform_admin in Eam. simpl in Eam. rewrite Eo in Eam. rewrite (bool_decide_true (orgID = orgID)) in Eam by done.
        simpl in Eam. by rewrite Eam. }
    destruct (here (Update_member m) t3).1 as [m'|[]]; try done. by apply refresh_admin. }
  destruct (is_platform_admin target && _) eqn:Ep; [|by apply Hupdate].
  apply (keep_one_admin_exec _ _ _ _ (has_admin o)); [by rewrite Hdb2|]. intros t3 Hdb3 Htwo. apply Hupdate; [congruence|].
  intros _. by rewrite <- Hdb2, <- Hdb3.
Qed.
End last_admin.
(** An organization keeps an administrator.  A removal or a change of role
    that no other request interferes with leaves every organization that has a
    platform administrator with at least one, whoever asks for it, whatever member
    and role it names and however it ends. *)
Theorem last_admin_kept {T} `{Host T} callerID orgID userID role version o (t : T) :
  members_unique (db_of t) → has_admin o (db_of t) →
  has_admin o (db_of (exec_svc (RemoveMember callerID orgID userID) t).2) ∧
  has_admin o (db_of (exec_svc (UpdateMemberRole callerID orgID userID role version) t).2).
Proof. intros Hnd Ht. split; [by apply RemoveMember_keeps_admin|by apply UpdateMemberRole_keeps_admin]. Qed.

(** ** Revocation *)
Section revocation.
Context {T : Type} `{Host T} (fault : error → Prop).
Definition bumped (t t' : T) : Prop :=
  ∀ s, db_authorization_source_version (db_of t) = Some s → ∃ s', db_authorization_source_version (db_of t') = Some s' ∧ s < s'.
Lemma moves_version (t t' : T) s :
  moves t t' → db_authorization_source_version (db_of t) = Some s → ∃ s', db_authorization_source_version (db_of t') = Some s' ∧ s ≤ s'.
Proof. intros [Hle _] Hs. rewrite Hs in Hle. destruct (db_authorization_source_version (db_of t')) as [s'|]; [by exists s'|done]. Qed.
Lemma bumped_before t0 t t' : moves t0 t → bumped t t' → bumped t0 t'.
Proof.
  intros Hm Hb s Hs. destruct (moves_version _ _ _ Hm Hs) as (s1 & Hs1 & ?). destruct (Hb _ Hs1) as (s2 & ? & ?). exists s2. split; [done|lia].
Qed.
Lemma bumped_after t t1 t' : bumped t t1 → moves t1 t' → bumped t t'.
Proof.
  intros Hb Hm s Hs. destruct (Hb _ Hs) as (s1 & Hs1 & ?). destruct (moves_version _ _ _ Hm Hs1) as (s2 & ? & ?). exists s2. split; [done|lia].
Qed.
Lemma SetStatus_advances id status u w w' : SetStatus id status w = (Ok u, w') → advances (w_db w) (w_db w').
Proof.
  intros E. unfold SetStatus in E. apply run_tx_Ok in E as (_ & [E|(w1 & E & _)]); apply bind_Ok in E as (u' & w2 & E & Hr); dinv.
  advancing. by use_frame db_authorization_source_version.
Qed.
Abbreviation done_bumped t0 := (λ (r : res connect_error OrgCustomerBinding) t, ∀ b, r = Ok b → bumped t0 t).
Lemma refuse_bumped t0 c m (t : T) : fwp fault (refuse c m) (done_bumped t0) t.
Proof. by apply wp_Done. Qed.
Lemma set_binding_status_wp t0 binding status failure t :
  moves t0 t → fwp fault (set_binding_status binding status failure) (done_bumped t0) t.
Proof.
  intros H0. unfold set_binding_status. cbn [once svc_bind]. apply wp_call; [apply here_fencing, SetStatus_fenced|].
  intros t1 _ H1. split; [|intros [] _; apply refuse_bumped].
  destruct (here (SetStatus (bi_ID binding) status) t1) as [[u|e] t2] eqn:E; cbn [fst snd]; [|by destruct e; apply refuse_bumped].
  assert (Hb : bumped t0 t2).
  { eapply bumped_before; [etransitivity; [exact H0|exact H1]|]. rewrite here_eq in E.
    destruct (SetStatus _ _ _) as [r w'] eqn:Es. simpl in E. injection E as -> <-. apply SetStatus_advances in Es as (v & Hv & Hv').
    intros s Hs. unfold db_of in *. simpl. rewrite node_of_set. simpl. rewrite Hv in Hs. injection Hs as <-. exists (v + 1). split; [done|lia]. }
  apply fwp_row; [|intros; apply refuse_bumped]. intros t3 Hr3 updated _. apply wp_Done. intros t4 _ Hr4 b _.
  do 2 (eapply bumped_after; [|eassumption]). done.
Qed.
Lemma RevokeBinding_wp callerID bindingID v t : fwp fault (RevokeBinding callerID bindingID v) (done_bumped t) t.
Proof.
  unfold RevokeBinding, getBinding. cbn [once svc_bind]. apply fwp_row; [|intros [] ?; apply refuse_bumped]. intros t1 Hr1 binding _.
  cbv beta iota. unfold authorize_binding. case_bool_decide; [apply refuse_bumped|]. cbn [once svc_bind].
  apply fwp_row; [|intros [] ?; apply refuse_bumped]. intros t2 Hr2 member _. cbv beta iota.
  destruct (_ && _ && _); [apply refuse_bumped|]. destruct (negb _); [apply refuse_bumped|]. destruct (bool_decide _); [apply refuse_bumped|].
  unfold validateWritableTarget. cbn [once svc_bind]. apply fwp_row; [|intros [] ?; apply refuse_bumped]. intros t3 Hr3 org _. cbv beta iota.
  case_bool_decide; [apply refuse_bumped|]. cbn [once svc_bind]. unfold Resolve.
  apply fwp_row; [|intros [] ?; apply refuse_bumped]. intros t4 Hr4 customer _. cbv beta iota.
  case_bool_decide; [apply refuse_bumped|]. apply set_binding_status_wp. by repeat (etransitivity; [eassumption|]).
Qed.
(** C12: revoking a binding takes back every authorization.  Once a revocation has
    been answered -- whatever ran before, between and after its calls, under any
    environment that keeps the fence, with any other call of it failing -- an
    operation whose authorization was decided before the request came in is not
    created, in no later state: not even after the binding has been activated
    again. *)
Theorem revocation_stops_writes callerID bindingID v t b t' req res w w' source :
  runs (λ x y, True ∧ moves x y) fault (RevokeBinding callerID bindingID v) t (Ok b) t' →
  (∃ s, db_authorization_source_version (db_of t) = Some s ∧ source ≤ s) → source ≠ 0 →
  fenced (db_of t') (w_db w) → expected_version req = source →
  OperationCreationUnitOfWork req w ≠ (Ok res, w').
Proof.
  intros Hrun (s & Hs & Hle) Hz Hf Hreq Hcreate.
  destruct (wp_runs _ _ _ _ _ _ _ _ Hrun I (RevokeBinding_wp callerID bindingID v t)) as (_ & _ & Hq).
  destruct (Hq b eq_refl s Hs) as (s' & Hs' & Hlt). apply creation_fenced in Hcreate; [|by rewrite Hreq].
  destruct Hf as [Hsle _]. rewrite Hs', Hcreate, Hreq in Hsle. simpl in Hsle. lia.
Qed.
End revocation.

(** ** Witnesses *)
Definition crew_db : DB :=
  on_auth (λ a, set_members [sample_member "o1" "u1" RoleReleaseAdmin 0; sample_member "o1" "boss" RolePlatformAdmin 0;
                             sample_member "o1" "chief" RolePlatformAdmin 0]
                 (set_users {["u1" := bare_user "u1" "ann" "h" "" "" UserActive; "u3" := bare_user "u3" "bob" "h" "" "" UserActive]} a)) site_db.
Definition crew : Node := {| nd_world := sample_world crew_db; nd_enforcer := nd_enforcer site_node; nd_limiter := nd_limiter site_node |}.
Definition promote : nsvc unit := ignore (AddMember "u1" "o1" "u3" "platform_admin").
Definition recruit : nsvc unit := ignore (AddMember "u1" "o1" "u3" "deployer").
Definition crew_run : Node * list (nsvc unit) := run_schedule [0; 1; 0; 1; 1; 1]%nat (crew, [promote; recruit]).
Lemma no_escalation_witness :
  at_members (db_auth (db_of crew_run.1)) !! 3%nat =
    Some (member_row (member_defaults (bare_member "o1" "u3" RoleDeployer) (1000 * nsec))) ∧
  ∀ u, u ∈ admins "o1" (db_of crew_run.1) → u ∈ ["boss"; "chief"].
Proof.
  split; [vm_compute; reflexivity|]. intros u Hu.
  assert (Hu1 : "u1" ∉ admins "o1" (db_of crew)) by (intros Hin; vm_compute in Hin; inversion Hin as [|? ? ? Hin' E]; inversion Hin' as [|? ? ? Hin'' E']; inversion Hin'').
  change (u ∈ admins "o1" (db_of crew)).
  refine (no_escalation sample_bcrypt (λ _, True) "o1" crew crew_run.1 crew_run.2 u _ _ Hu); [by eexists|].
  apply (rtc_l _ _ (crew, [promote])); [|apply (rtc_l _ _ (crew, [promote; recruit]))].
  - apply (pool_start _ _ crew [] promote). exists "u1". split; [exact Hu1|]. apply rq_AddMember.
  - apply (pool_start _ _ crew [promote] recruit). exists "u1". split; [exact Hu1|]. apply rq_AddMember.
  - rewrite <- (surjective_pairing crew_run). apply schedule_reachable.
Defined.
Definition demote : nsvc (res connect_error OrganizationMember) := UpdateMemberRole "u1" "o1" "boss" "viewer" 0.
Lemma last_admin_kept_witness :
  has_admin "o1" (db_of (exec_svc (RemoveMember "u1" "o1" "boss") crew).2) ∧
  has_admin "o1" (db_of (exec_svc demote crew).2).
Proof.
  apply (last_admin_kept (T:=Node) "u1" "o1" "boss" "viewer" 0 "o1" crew).
  - apply (bool_decide_eq_true_1 (NoDup (membership_key <$> at_members (db_auth crew_db)))). vm_compute. reflexivity.
  - vm_compute. lia.
Defined.
(** Two administrators who remove each other at the same time leave none. *)
Definition mutual_removal : Node * list (nsvc (res connect_error unit)) :=
  run_schedule [0; 1; 0; 1; 0; 1]%nat (crew, [RemoveMember "boss" "o1" "chief"; RemoveMember "chief" "o1" "boss"]).
Lemma concurrent_removals_leave_none fault start :
  rtc (pool_step fault start) (crew, [RemoveMember "boss" "o1" "chief"; RemoveMember "chief" "o1" "boss"]) mutual_removal ∧
  org_admins "o1" (db_of crew) = 2%nat ∧ org_admins "o1" (db_of mutual_removal.1) = 0%nat.
Proof. split; [apply schedule_reachable|split; vm_compute; reflexivity]. Qed.
(** The role change answers the version its caller sent, not the row's new one. *)
Lemma role_change_answers_old_version :
  ∃ m, (exec_svc demote crew).1 = Ok m ∧ om_OptimisticVersion m = 0 ∧
    om_OptimisticVersion <$> member_of "o1" "boss" (db_of (exec_svc demote crew).2) = Some 1.
Proof. eexists. split_and!; vm_compute; reflexivity. Qed.
Definition sample_revoke : nsvc (res connect_error OrgCustomerBinding) := RevokeBinding "u1" "b1" 0.
Definition revoked_node : Node := (exec_svc sample_revoke site_node).2.
Lemma revocation_stops_writes_witness :
  (∃ res w', OperationCreationUnitOfWork site_request (nd_world site_node) = (Ok res, w')) ∧
  ∀ res w', OperationCreationUnitOfWork site_request (nd_world revoked_node) ≠ (Ok res, w').
Proof.
  split.
  - destruct (OperationCreationUnitOfWork site_request (nd_world site_node)) as [[res|e] w'] eqn:E; [|vm_compute in E; discriminate E].
    by exists res, w'.
  - intros res w'. destruct (exec_svc sample_revoke site_node) as [[b|e] n] eqn:E; [|vm_compute in E; discriminate E].
    replace revoked_node with n by (unfold revoked_node; by rewrite E).
    refine (revocation_stops_writes (λ _, True) "u1" "b1" 0 site_node b n site_request res (nd_world n) w' 1 (exec_runs _ _ _ _ _ _ E) _ _ _ eq_refl).
    + exists 1. split; [reflexivity|lia].
    + lia.
    + unfold db_of. reflexivity.
Defined.
