(* ===== verification/System.v ===== *)
(** * The control plane as a transition system

    [store_step] is one call of a store method of the modelled components, in
    any order and with any arguments, together with the environment (time,
    identifiers, a busy database).  Every method runs in one immediate
    transaction, so a sequence of steps is exactly an interleaving of concurrent
    callers.  The theorems of this file are invariants of the reachable states
    and facts that no sequence of steps undoes. *)
From S2P Require Import Prelude Utf8 Json Redact Domain Lifecycle Database Timeline Idempotency Outbox OperationStore EmergencyStore Creation.

(** ** Steps *)

(** What the callers guarantee: a standard creation carries a standard type and
    checks availability, an EMERGENCY command creates an EMERGENCY operation
    whose intent belongs to it and whose convergence task is bound to no revision,
    an upgrade is finalised with a terminal status. *)
Definition standard (op : Operation) : Prop := op_OperationType op ≠ OperationEmergency.
Definition well_formed_emergency (command : EmergencyCreateCommand) : Prop :=
  op_OperationType (ec_Operation command) = OperationEmergency ∧
  ei_OperationID (ec_Intent command) = op_ID (ec_Operation command) ∧
  ei_ReleaseDefinitionID (ec_Intent command) = op_ReleaseDefinitionID (ec_Operation command) ∧
  ∀ task, ec_ConvergenceTask command = Some task → ct_ActiveRevisionID task = None.
Definition well_formed_request (req : OperationCreationRequest) : Prop :=
  match ocr_Emergency req with
  | Some command => well_formed_emergency command
  | None => standard (ocr_Operation req)
  end.

Inductive store_step (w : World) : World → Prop :=
| step_environment w' : w_db w' = w_db w → store_step w w'
| step_create_idempotent c :
    ccr_CheckAvailable c = true → standard (ccr_Operation c) → store_step w (CreateIdempotent c w).2
| step_create req : well_formed_request req → store_step w (OperationCreationUnitOfWork req w).2
| step_transition id status version lastError : store_step w (transition id status version lastError w).2
| step_queue req : store_step w (QueueOperation req w).2
| step_cancel command : store_step w (OperationStore.Cancel command w).2
| step_finalize input : IsTerminal (ui_Status input) = true → store_step w (FinalizeUpgrade input w).2
| step_save_preflight id result : store_step w (SavePreflightResult id result w).2
| step_append entry : store_step w (Append entry w).2
| step_ack_outbox id : store_step w (PersistAck id w).2
| step_outbox_status id status result : store_step w (UpdateStatus_outbox id status result w).2
| step_delivery id status : store_step w (UpdateDeliveryStatus id status w).2
| step_revert id status by_operation : store_step w (SaveRevertReconciliation id status by_operation w).2
| step_ack_emergency id : store_step w (PersistAck_emergency id w).2
| step_finish i o v s e l b a : store_step w (Finish i o v s e l b a w).2
| step_resolve c : store_step w (ResolveEmergencyEffect c w).2
| step_converge c : store_step w (ConvergeEmergencyResult c w).2
| step_release c : store_step w (ReleaseLock c w).2.
Definition reachable : relation World := rtc store_step.

(** ** The invariant *)

(** At most one live operation per release definition. *)
Definition exclusive (db : DB) : Prop :=
  ∀ definitionID id1 id2 o1 o2,
    db_operations db !! id1 = Some o1 → db_operations db !! id2 = Some o2 →
    active_for definitionID o1 = true → active_for definitionID o2 = true → id1 = id2.
(** Intents that hold a lock on the same release never conflict. *)
Definition locks_exclusive (db : DB) : Prop :=
  ∀ definitionID i j,
    i ∈ db_emergency_intents db → j ∈ db_emergency_intents db → ei_OperationID i ≠ ei_OperationID j →
    is_active_intent definitionID db i = true → is_active_intent definitionID db j = true →
    emergencyIntentsConflict i j = false.
(** Every intent belongs to an existing operation, one intent per operation, and
    intent ids are unique. *)
Definition intents_linked (db : DB) : Prop :=
  (∀ i, i ∈ db_emergency_intents db → is_Some (db_operations db !! ei_OperationID i)) ∧
  NoDup (ei_OperationID <$> db_emergency_intents db) ∧ NoDup (ei_ID <$> db_emergency_intents db).
Record invariant (db : DB) : Prop := {
  inv_wf : ops_wf (db_operations db);
  inv_exclusive : exclusive db;
  inv_locks : locks_exclusive db;
  inv_linked : intents_linked db;
}.

(** ** Settling

    [settled db db']: no operation or intent appears, operations evolve and
    nothing terminal becomes live again, intents keep their identity, an intent
    changes its effect only while its operation is live or the effect unknown,
    and never takes its lock back. *)
Definition op_settles (o o' : Operation) : Prop :=
  op_evolves o o' ∧ (non_terminal o' = true → non_terminal o = true).
Definition ops_settle (m m' : gmap string Operation) : Prop :=
  ∀ id o', m' !! id = Some o' → ∃ o, m !! id = Some o ∧ op_settles o o'.
Definition same_target (i i' : EmergencyIntent) : Prop :=
  ei_ID i' = ei_ID i ∧ ei_OperationID i' = ei_OperationID i ∧ ei_ReleaseDefinitionID i' = ei_ReleaseDefinitionID i ∧
  (∀ j, emergencyIntentsConflict i' j = emergencyIntentsConflict i j) ∧ change_of i' = change_of i.
Definition live_in (m : gmap string Operation) (id : string) : Prop :=
  ∃ o, m !! id = Some o ∧ non_terminal o = true.
Definition intent_settles (m : gmap string Operation) (i i' : EmergencyIntent) : Prop :=
  same_target i i' ∧ (ei_LockReleasedAt i' = None → ei_LockReleasedAt i = None) ∧
  (ei_EffectStatus i' = ei_EffectStatus i ∨ ei_EffectStatus i = EmergencyEffectUnknown ∨ live_in m (ei_OperationID i)).
Definition settled (db db' : DB) : Prop :=
  ops_wf (db_operations db') ∧ dom (db_operations db') = dom (db_operations db) ∧
  ops_settle (db_operations db) (db_operations db') ∧
  Forall2 (intent_settles (db_operations db)) (db_emergency_intents db) (db_emergency_intents db').
Definition settles (db db' : DB) : Prop := invariant db → settled db db'.

#[export] Instance op_settles_preorder : PreOrder op_settles.
Proof.
  split; [by intros o; split|]. intros a b c [H1 H2] [H3 H4]. split; [by transitivity b|auto].
Qed.
#[export] Instance ops_settle_preorder : PreOrder ops_settle.
Proof.
  split; [by intros m id o Ho; exists o|]. intros m1 m2 m3 H12 H23 id o3 H3.
  destruct (H23 _ _ H3) as (o2 & H2 & ?), (H12 _ _ H2) as (o1 & H1 & ?). exists o1. split; [done|by transitivity o2].
Qed.
Lemma ops_settle_insert id o o' m :
  m !! id = Some o → op_settles o o' → ops_settle m (<[id := o']> m).
Proof.
  intros Ho Hs k x Hk. apply lookup_insert_Some in Hk as [[<- <-]|[? Hk]]; [by exists o|].
  by exists x.
Qed.
Lemma intent_settles_refl m i : intent_settles m i i.
Proof. split; [by split_and!|]. split; [done|by left]. Qed.

Lemma non_terminal_live o : non_terminal o = negb (IsTerminal (op_Status o)).
Proof. unfold non_terminal. by destruct (op_Status o). Qed.

(** The step shapes: a single row moved, and the intents updated by a statement. *)
Lemma settled_row db db' id o o' p f :
  ops_wf (db_operations db) → db_operations db !! id = Some o → op_ID o' = op_ID o → op_settles o o' →
  db_operations db' = <[id := o']> (db_operations db) →
  db_emergency_intents db' = update_where p f (db_emergency_intents db) →
  (∀ i, i ∈ db_emergency_intents db → p i = true → intent_settles (db_operations db) i (f i)) →
  settled db db'.
Proof.
  intros Hwf Ho Hid Hs Hops Hints Hf. split_and!.
  - rewrite Hops. intros k x Hk. apply lookup_insert_Some in Hk as [[<- <-]|[? Hk]]; [rewrite Hid; by apply Hwf|by apply Hwf].
  - rewrite Hops. by apply dom_insert_lookup_L.
  - rewrite Hops. by eapply ops_settle_insert.
  - rewrite Hints. unfold update_where. apply Forall2_same_length_lookup_2; [by rewrite length_map|].
    intros n i i' Hi Hi'. rewrite list_lookup_fmap, Hi in Hi'. simpl in Hi'. injection Hi' as <-.
    destruct (p i) eqn:E; [|apply intent_settles_refl]. apply Hf; [by eapply list_elem_of_lookup_2|done].
Qed.
Lemma settled_intents db db' p f :
  ops_wf (db_operations db) → db_operations db' = db_operations db →
  db_emergency_intents db' = update_where p f (db_emergency_intents db) →
  (∀ i, i ∈ db_emergency_intents db → p i = true → intent_settles (db_operations db) i (f i)) →
  settled db db'.
Proof.
  intros Hwf Hops Hints Hf. split_and!; rewrite ?Hops; try done.
  rewrite Hints. unfold update_where. apply Forall2_same_length_lookup_2; [by rewrite length_map|].
  intros n i i' Hi Hi'. rewrite list_lookup_fmap, Hi in Hi'. simpl in Hi'. injection Hi' as <-.
  destruct (p i) eqn:E; [|apply intent_settles_refl]. apply Hf; [by eapply list_elem_of_lookup_2|done].
Qed.
Lemma update_where_nothing {A} (l : list A) : update_where (λ _, false) id l = l.
Proof. unfold update_where. by rewrite map_id. Qed.
Lemma settled_same db db' :
  ops_wf (db_operations db) → db_operations db' = db_operations db → db_emergency_intents db' = db_emergency_intents db →
  settled db db'.
Proof.
  intros Hwf Hops Hints. apply (settled_intents db db' (λ _, false) (λ i, i)); [done|done| |done].
  rewrite Hints. symmetry. apply update_where_nothing.
Qed.

(** ** Settling keeps the invariant and the decided effects *)
Lemma active_settles db db' definitionID i i' :
  ops_settle (db_operations db) (db_operations db') → intent_settles (db_operations db) i i' →
  is_active_intent definitionID db' i' = true → is_active_intent definitionID db i = true.
Proof.
  intros Hops ((_ & Hid & Hdef & _) & Hlock & Heff). unfold is_active_intent, intent_operation. rewrite Hid, Hdef.
  destruct (db_operations db' !! ei_OperationID i) as [o'|] eqn:Ho'; [|done].
  destruct (Hops _ _ Ho') as (o & Ho & _ & Hlive). rewrite Ho. intros H. destruct_bools.
  match goal with H : ei_LockReleasedAt i' = None |- _ => rewrite (Hlock H) end.
  match goal with H : _ || _ = true |- _ => apply orb_true_iff in H as [Hl|Hu] end.
  all: rewrite (bool_decide_true (ei_ReleaseDefinitionID i = _)), (bool_decide_true (None = None)) by done.
  - by rewrite (Hlive Hl).
  - destruct_bools.
    destruct Heff as [He|[He|(o2 & Ho2 & Hn)]]; [| |by simplify_eq; rewrite Hn].
    all: by rewrite (bool_decide_true (ei_EffectStatus i = _)), orb_true_r by congruence.
Qed.

Lemma Forall2_elem_r {A B} (R : A → B → Prop) l k y : Forall2 R l k → y ∈ k → ∃ x, x ∈ l ∧ R x y.
Proof.
  induction 1 as [|x y' l k Hxy _ IH]; intros Hy; [by apply not_elem_of_nil in Hy|].
  apply elem_of_cons in Hy as [->|Hy]; [exists x; split; [left|done]|]. destruct (IH Hy) as (x' & ? & ?). exists x'. split; [by right|done].
Qed.
Lemma Forall2_fmap_eq {A B C} (f : A → C) (g : B → C) (R : A → B → Prop) l k :
  Forall2 R l k → (∀ x y, R x y → g y = f x) → g <$> k = f <$> l.
Proof. induction 1 as [|x y l k Hxy _ IH]; intros H; [done|]. rewrite !fmap_cons, IH by done. by rewrite (H x y). Qed.

Lemma settled_invariant db db' : settled db db' → invariant db → invariant db'.
Proof.
  intros (Hwf & Hdom & Hops & Hints) [_ Hex Hlocks (Hlinked & Hnd & Hndi)]. split; [done| | |].
  - intros d id1 id2 o1' o2' H1 H2 A1 A2. apply Hops in H1 as (o1 & Ho1 & (Him1 & _) & Hl1). apply Hops in H2 as (o2 & Ho2 & (Him2 & _) & Hl2).
    apply (Hex d id1 id2 o1 o2 Ho1 Ho2); unfold active_for in *; apply andb_true_iff in A1 as [D1 N1], A2 as [D2 N2];
      apply andb_true_iff; split; auto.
    + by rewrite (f_equal op_ReleaseDefinitionID Him1 : op_ReleaseDefinitionID o1' = op_ReleaseDefinitionID o1) in D1.
    + by rewrite (f_equal op_ReleaseDefinitionID Him2 : op_ReleaseDefinitionID o2' = op_ReleaseDefinitionID o2) in D2.
  - intros d i' j' Hi' Hj' Hne Ai Aj.
    destruct (Forall2_elem_r _ _ _ _ Hints Hi') as (i & Hi & Hsi), (Forall2_elem_r _ _ _ _ Hints Hj') as (j & Hj & Hsj).
    apply (active_settles db db' d i i' Hops Hsi) in Ai. apply (active_settles db db' d j j' Hops Hsj) in Aj.
    destruct Hsi as ((_ & Hidi & _ & Hci & _) & _), Hsj as ((_ & Hidj & _ & Hcj & _) & _).
    rewrite Hci, emergencyIntentsConflict_sym, Hcj, emergencyIntentsConflict_sym.
    apply (Hlocks d); try done. congruence.
  - split_and!.
    + intros i' Hi'. destruct (Forall2_elem_r _ _ _ _ Hints Hi') as (i & Hi & (_ & Hid & _) & _).
      rewrite Hid. apply elem_of_dom. rewrite Hdom. apply elem_of_dom. by apply Hlinked.
    + rewrite (Forall2_fmap_eq ei_OperationID ei_OperationID _ _ _ Hints); [done|]. by intros x y ((_ & ? & _) & _).
    + rewrite (Forall2_fmap_eq ei_ID ei_ID _ _ _ Hints); [done|]. by intros x y ((? & _) & _).
Qed.

Lemma intent_settles_trans m m1 i i1 i2 :
  ops_settle m m1 → intent_settles m i i1 → intent_settles m1 i1 i2 → intent_settles m i i2.
Proof.
  intros Hm ((A1 & A2 & A3 & A4 & A7) & A5 & A6) ((B1 & B2 & B3 & B4 & B7) & B5 & B6).
  split; [split_and!; try congruence; intros j; by rewrite B4|]. split; [auto|].
  destruct B6 as [B6|[B6|(o & Ho & Hn)]].
  - rewrite B6. destruct A6 as [A6|A6]; [by left|by right].
  - destruct A6 as [A6|A6]; [right; left; congruence|by right].
  - rewrite A2 in Ho. destruct (Hm _ _ Ho) as (o0 & Ho0 & _ & Hl). right; right. exists o0. auto.
Qed.
Lemma settled_trans db db1 db2 : settled db db1 → settled db1 db2 → settled db db2.
Proof.
  intros (_ & A2 & A3 & A4) (B1 & B2 & B3 & B4). split_and!; [done|congruence|by etransitivity|].
  eapply Forall2_trans; [|exact A4|exact B4]. intros i i1 i2. by apply intent_settles_trans.
Qed.
#[export] Instance settles_preorder : PreOrder settles.
Proof.
  split; [intros db [Hwf _ _ _]; by apply settled_same|].
  intros db db1 db2 H1 H2 Hinv. eapply settled_trans; [by apply H1|]. by apply H2, (settled_invariant db); [apply H1|].
Qed.
(** Keys decide rows in a table without duplicate keys. *)
Lemma NoDup_key {A} (key : A → string) (l : list A) x y : NoDup (key <$> l) → x ∈ l → y ∈ l → key x = key y → x = y.
Proof.
  intros Hnd Hx Hy Hk. apply list_elem_of_lookup_1 in Hx as [n Hn], Hy as [m Hm].
  assert (n = m) as ->; [|congruence]. eapply NoDup_lookup; [exact Hnd| |]; rewrite list_lookup_fmap; [by rewrite Hn|by rewrite Hm; simpl; rewrite Hk].
Qed.
Lemma find_row_key {A} (key : A → string) k (l : list A) x y :
  NoDup (key <$> l) → find_row (λ i, bool_decide (key i = k)) l = Some x → y ∈ l → bool_decide (key y = k) = true → y = x.
Proof. intros Hnd H Hy Hk. apply find_row_Some in H as [Hx Hx']. destruct_bools. apply (NoDup_key key l); try done. congruence. Qed.

(** ** Every method that creates nothing settles *)
Lemma CanTransitionTo_live s t : CanTransitionTo s t = true → IsTerminal s = false.
Proof. by destruct s, t. Qed.
Lemma op_settles_transition s e n o : CanTransitionTo (op_Status o) s = true → op_settles o (transition_row s e n (IsTerminal s) o).
Proof.
  intros H. split; [apply transition_row_op_evolves|]. intros _. rewrite non_terminal_live. by rewrite (CanTransitionTo_live _ _ H).
Qed.
Lemma op_settles_bump n o : op_settles o (bump_row n o).
Proof. split; [split_and!; simpl; [done|lia|lia]|done]. Qed.
Lemma live_of m id o : m !! id = Some o → IsTerminal (op_Status o) = false → live_in m id.
Proof. intros Ho Hl. exists o. split; [done|]. by rewrite non_terminal_live, Hl. Qed.

Lemma settles_op_row db db' id o o' :
  db_operations db !! id = Some o → op_settles o o' →
  db_operations db' = <[id := o']> (db_operations db) → db_emergency_intents db' = db_emergency_intents db → settles db db'.
Proof.
  intros Ho Hs Hops Hints [Hwf _ _ _]. apply (settled_row db db' id o o' (λ _, false) (λ i, i)); try done.
  - destruct Hs as [[Him _] _]. by apply op_immutable_ID.
  - rewrite Hints. symmetry. apply update_where_nothing.
Qed.
Lemma settles_frames {A} (m : SM A) :
  preserves (db_rel (on_table db_operations eq)) m → preserves (db_rel (on_table db_emergency_intents eq)) m →
  preserves (db_rel settles) m.
Proof. intros H1 H2 w r w' H [Hwf _ _ _]. apply settled_same; [done|symmetry; by eapply H1|symmetry; by eapply H2]. Qed.

Lemma transitionInTx_intents id status v err : preserves (db_rel (on_table db_emergency_intents eq)) (transitionInTx id status v err).
Proof. unfold transitionInTx. db_preserve. Qed.
#[local] Hint Resolve transitionInTx_intents : preserve.
Lemma transitionInTx_settles id status v err w u w' :
  transitionInTx id status v err w = (Ok u, w') → settles (w_db w) (w_db w').
Proof.
  intros H Hinv. destruct (transitionInTx_inv _ _ _ _ _ _ _ (inv_wf _ Hinv) H) as (o & n & Ho & _ & Hcan & _ & _ & Hops).
  eapply settles_op_row; [exact Ho|by apply op_settles_transition|exact Hops| |exact Hinv].
  symmetry. exact (transitionInTx_intents _ _ _ _ _ _ _ H).
Qed.
Lemma transition_settles id status v err : preserves (db_rel settles) (transition id status v err).
Proof.
  apply commits_run_tx; [apply _|]. intros w u w' H. apply -> @commit_Ok in H. exact (transitionInTx_settles _ _ _ _ _ _ _ H).
Qed.
Lemma QueueOperation_settles req : preserves (db_rel settles) (QueueOperation req).
Proof.
  apply preserves_retryBusy; [apply _|]. apply commits_run_tx; [apply _|]. intros w u w' H. dinv.
  match goal with H : transitionInTx _ _ _ _ _ = _ |- _ => apply transitionInTx_settles in H as Hs end.
  etransitivity; [exact Hs|]. destruct (qr_Dispatch req); dinv; [|done].
  intros [Hwf _ _ _]. apply settled_same; [done|by use_frame db_operations|by use_frame db_emergency_intents].
Qed.
Lemma FinalizeUpgrade_settles input : IsTerminal (ui_Status input) = true → preserves (db_rel settles) (FinalizeUpgrade input).
Proof.
  intros Hterm. apply commits_run_tx; [apply _|]. intros w [] w' H.
  destruct (finalizeUpgradeTx_inv _ _ _ H) as (_ & o & n & Ho & _ & Hops & _).
  eapply settles_op_row; [exact Ho| |exact Hops|].
  - split; [split_and!; simpl; [done|lia|lia]|]. rewrite non_terminal_live. simpl. by rewrite Hterm.
  - assert (Hf : preserves (db_rel (on_table db_emergency_intents eq)) (finalizeUpgradeTx input))
      by (unfold finalizeUpgradeTx; db_preserve). symmetry. exact (Hf _ _ _ H).
Qed.

(** The intents of one operation or with one id, all updated alike. *)
Lemma intent_settles_update m i i' :
  i' = intent_update i (ei_BeforeSnapshot i') (ei_AfterSnapshot i') (ei_DeliveryStatus i') (ei_EffectStatus i')
         (ei_LastDeliveryAt i') (ei_LockReleasedAt i') (ei_RevertStatus i') (ei_ReconciledByOperationID i') (ei_UpdatedAt i') →
  (ei_LockReleasedAt i' = None → ei_LockReleasedAt i = None) →
  ei_EffectStatus i' = ei_EffectStatus i ∨ ei_EffectStatus i = EmergencyEffectUnknown ∨ live_in m (ei_OperationID i) →
  intent_settles m i i'.
Proof. intros Hi Hl He. split_and!; [split_and!|done|done]; rewrite Hi; done. Qed.
Lemma settles_op_and_intent db db' id o o' p f :
  db_operations db !! id = Some o → op_settles o o' →
  db_operations db' = <[id := o']> (db_operations db) →
  db_emergency_intents db' = update_where p f (db_emergency_intents db) →
  (∀ i, i ∈ db_emergency_intents db → p i = true → intent_settles (db_operations db) i (f i)) → settles db db'.
Proof.
  intros Ho Hs Hops Hints Hf [Hwf _ _ _]. apply (settled_row db db' id o o' p f); try done.
  destruct Hs as [[Him _] _]. by apply op_immutable_ID.
Qed.
Lemma Cancel_settles command : preserves (db_rel settles) (OperationStore.Cancel command).
Proof.
  apply commits_run_tx; [apply _|]. intros w result w' H Hinv. pose proof Hinv as [Hwf _ _ _].
  destruct (cancelInTx_inv _ _ _ _ Hwf H) as (o0 & _ & Ho0 & _ & Hcan & _ & _).
  destruct (cancelInTx_effect _ _ _ _ Hwf H) as (o & n & Ho & Hlive & Hops & Hints). assert (o0 = o) as -> by congruence.
  destruct (is_emergency o && _).
  - destruct Hints as (_ & Hints & _). eapply settles_op_and_intent; [exact Ho|by apply op_settles_transition|exact Hops|exact Hints| |exact Hinv].
    intros i _ Hi. simpl in Hi. destruct_bools. apply intent_settles_update; [done|done|]. right; right.
    eapply live_of; [|exact Hlive]. congruence.
  - destruct Hints as [Hints _]. eapply settles_op_row; [exact Ho|by apply op_settles_transition|exact Hops|exact Hints|exact Hinv].
Qed.
Lemma finishTx_inv i id v s e err b a w u w' :
  ops_wf (db_operations (w_db w)) → finishTx i id v s e err b a w = (Ok u, w') →
  ∃ o n effect, db_operations (w_db w) !! id = Some o ∧ op_StateVersion o = v ∧ CanTransitionTo (op_Status o) s = true ∧
    db_operations (w_db w') = <[id := transition_row s err n (IsTerminal s) o]> (db_operations (w_db w)) ∧
    db_emergency_intents (w_db w') =
      update_where (λ x, bool_decide (ei_ID x = i) && bool_decide (ei_OperationID x = id)) (intent_with_result b a effect n)
        (db_emergency_intents (w_db w)).
Proof.
  intros Hwf H. unfold finishTx, finishEmergencySnapshotsTx in H. dinv.
  match goal with H : getOperation _ _ = _ |- _ => apply getOperation_Ok in H as (-> & o & Ho & ->) end.
  destruct (buildOperation_fields (w_db w) o) as (Hid & Hst & Hver & _). rewrite Hst, Hver in *.
  assert (Hops3 : db_operations (w_db w3) = db_operations (w_db w)) by (by use_frame db_operations).
  match goal with H : applyOperationTransition _ _ _ _ _ _ = _ |- _ =>
    pose proof H as Ha; apply applyOperationTransition_inv in Ha as (o' & Ho' & Hv & _ & Hops) end.
  match goal with H : update_intents _ _ _ = _ |- _ => apply update_intents_Ok in H as [-> ->] end.
  simpl in Ho', Hops. rewrite Hid, (Hwf _ _ Ho), Hops3 in *. assert (o' = o) as -> by congruence.
  destruct_bools. exists o, (rfc3339 (w_clock w3 0%nat)), a3. split_and!; try done.
  - use_frame db_operations. exact Hops.
  - use_frame db_emergency_intents. simpl. by use_frame db_emergency_intents.
Qed.
Lemma Finish_settles i o v s e l b a : preserves (db_rel settles) (Finish i o v s e l b a).
Proof.
  apply commits_run_tx; [apply _|]. intros w u w' H Hinv. apply -> @commit_Ok in H.
  destruct (finishTx_inv _ _ _ _ _ _ _ _ _ _ _ (inv_wf _ Hinv) H) as (op & n & effect & Ho & _ & Hcan & Hops & Hints).
  eapply settles_op_and_intent; [exact Ho|by apply op_settles_transition|exact Hops|exact Hints| |exact Hinv].
  intros x _ Hx. simpl in Hx. destruct_bools. apply intent_settles_update; [done|done|]. right; right.
  eapply live_of; [|by eapply CanTransitionTo_live]. congruence.
Qed.

(** An intent of a terminal operation, found unknown. *)
Lemma unknown_of_operation id db i x :
  invariant db → intent_of_operation id db = Some i → ei_EffectStatus i = EmergencyEffectUnknown →
  x ∈ db_emergency_intents db → bool_decide (ei_OperationID x = id) = true → ei_EffectStatus x = EmergencyEffectUnknown.
Proof.
  intros Hinv Hi He Hx Hid. destruct (inv_linked _ Hinv) as (_ & Hnd & _).
  assert (x = i) as ->; [|done]. by apply (find_row_key ei_OperationID id (db_emergency_intents db)).
Qed.
Lemma settles_validated {A} (check : SM unit) (m : SM (outcome A)) :
  preserves (db_rel settles) check → commits settles m → preserves (db_rel settles) (check ;! retryBusy (run_tx m)).
Proof.
  intros Hc Hm. apply preserves_bind; [apply _|done|]. intros _. apply preserves_retryBusy; [apply _|]. apply commits_run_tx; [apply _|done].
Qed.
Lemma resolveTx_inv c w r w' :
  ops_wf (db_operations (w_db w)) → resolveTx c w = (Ok (Commit r), w') →
  ∃ o i n, db_operations (w_db w) !! rc_OperationID c = Some o ∧ intent_of_operation (rc_OperationID c) (w_db w) = Some i ∧
    ei_EffectStatus i = EmergencyEffectUnknown ∧
    db_operations (w_db w') = <[rc_OperationID c := bump_row n o]> (db_operations (w_db w)) ∧
    db_emergency_intents (w_db w') =
      update_where (λ i, bool_decide (ei_OperationID i = rc_OperationID c) && bool_decide (ei_EffectStatus i = EmergencyEffectUnknown))
        (intent_with_result (rc_BeforeSnapshot c) (rc_AfterSnapshot c) (rc_EffectStatus c) n) (db_emergency_intents (w_db w)).
Proof.
  intros Hwf H. unfold resolveTx, resolveEmergencyEffectTx, validateEmergencyResolveTarget in H. dinv.
  match goal with H : getOperation _ _ = _ |- _ => apply getOperation_Ok in H as (-> & o & Ho & ->) end.
  match goal with H : getEmergencyIntentByOperation _ _ = (Ok ?i, _) |- _ =>
    apply getEmergencyIntentByOperation_Ok in H as (Hi & _ & ->) end.
  destruct (negb (bool_decide (ei_EffectStatus _ = _))) eqn:E; dinv.
  match goal with H : cas_operation _ _ _ _ = _ |- _ => apply cas_operation_Ok in H as (o' & Ho' & _ & ->); [|done] end.
  match goal with H : update_intents _ _ _ = _ |- _ => apply update_intents_Ok in H as [-> ->] end.
  destruct (buildOperation_fields (w_db w) o) as (Hid & _). simpl in *. rewrite Hid, (Hwf _ _ Ho) in *.
  assert (o' = o) as -> by congruence. destruct_bools. do 3 eexists. split_and!; [exact Ho|exact Hi|done| |].
  - by use_frame db_operations.
  - by use_frame db_emergency_intents.
Qed.
Lemma Resolve_settles c : preserves (db_rel settles) (ResolveEmergencyEffect c).
Proof.
  apply settles_validated; [unfold validateResolveEmergencyCommand; db_preserve|]. intros w r w' H Hinv.
  destruct (resolveTx_inv _ _ _ _ (inv_wf _ Hinv) H) as (o & i & n & Ho & Hi & He & Hops & Hints).
  eapply settles_op_and_intent; [exact Ho|by apply op_settles_bump|exact Hops|exact Hints| |exact Hinv].
  intros x _ Hx. simpl in Hx. destruct_bools. apply intent_settles_update; [done|done|]. by right; left.
Qed.
Lemma Converge_settles c : preserves (db_rel settles) (ConvergeEmergencyResult c).
Proof.
  intros w r w' H Hinv. destruct r as [res|e]; [|apply ConvergeEmergencyResult_db in H; by apply settled_same; [apply Hinv|rewrite H..]].
  apply ConvergeEmergencyResult_Ok in H as (Hterm & Heff & w0 & Hw0 & [H|(w1 & _ & ->)]); [|by apply settled_same; [apply Hinv|..]].
  rewrite <- Hw0 in *. pose proof (inv_wf _ Hinv) as Hwf.
  destruct (convergeTx_operation _ _ _ _ H) as (o & Ho). destruct (IsTerminal (op_Status o)) eqn:Hterm_o.
  - destruct (convergeTx_commit_terminal _ _ _ _ _ Hwf Heff Ho Hterm_o H) as (_ & (o1 & i & _ & _ & _ & Hi & He) & (n & Hops & Hints) & _).
    eapply settles_op_and_intent; [exact Ho|by apply op_settles_bump|exact Hops|exact Hints| |exact Hinv].
    intros x Hx Hid. apply intent_settles_update; [done|done|]. right; left. by eapply unknown_of_operation.
  - destruct (convergeTx_live _ _ _ _ _ Hwf Hterm Heff Ho Hterm_o H)
      as (_ & _ & _ & (o' & Hops & Him & Hst & _ & Hv) & _ & (i & n & _ & Hints & _) & _).
    eapply settles_op_and_intent; [exact Ho| |exact Hops|exact Hints| |exact Hinv].
    + split; [split_and!; [done|lia|lia]|]. intros _. by rewrite non_terminal_live, Hterm_o.
    + intros x _ Hx. simpl in Hx. destruct_bools. apply intent_settles_update; [done|done|]. right; right.
      eapply live_of; [|exact Hterm_o]. congruence.
Qed.
Lemma Release_settles c : preserves (db_rel settles) (ReleaseLock c).
Proof.
  intros w r w' H Hinv. destruct r as [res|e]; [|apply ReleaseLock_Err in H; by apply settled_same; [apply Hinv|rewrite H..]].
  apply ReleaseLock_Ok in H as (w0 & Hw0 & H). rewrite <- Hw0 in *. pose proof (inv_wf _ Hinv) as Hwf.
  destruct (releaseLockTx_inv _ _ _ _ _ Hwf H) as (i & o & n & (Hi & Ho & _ & He & _) & Hints & Hops & _).
  assert (Hf : ∀ x, x ∈ db_emergency_intents (w_db w0) → bool_decide (ei_ID x = lc_IntentID c) = true →
    intent_settles (db_operations (w_db w0)) x (release_intent (lc_Mode c) n x)).
  { intros x Hx Hid. apply intent_settles_update; [done|done|]. right; left.
    destruct (inv_linked _ Hinv) as (_ & _ & Hnd). by rewrite (find_row_key ei_ID _ _ i x Hnd Hi Hx Hid). }
  destruct (bool_decide (lc_Mode c = _)).
  - eapply settles_op_and_intent; [exact Ho|apply op_settles_bump|exact Hops|exact Hints|exact Hf|exact Hinv].
  - by eapply settled_intents.
Qed.

(** Updates of an intent that keep its effect and its lock. *)
Lemma settles_update_intents p f :
  (∀ m i, intent_settles m i (f i)) → preserves (db_rel settles) (update_intents p f).
Proof.
  intros Hf w r w' H [Hwf _ _ _]. unfold update_intents in H. unfold bind, query, gets, exec, modify, ret in H. injection H as _ <-.
  by apply (settled_intents _ _ p f).
Qed.
Lemma UpdateDeliveryStatus_settles id status : preserves (db_rel settles) (UpdateDeliveryStatus id status).
Proof. unfold UpdateDeliveryStatus. db_preserve. apply settles_update_intents. intros m i. apply intent_settles_update; auto. Qed.
Lemma SaveRevertReconciliation_settles id status op : preserves (db_rel settles) (SaveRevertReconciliation id status op).
Proof. unfold SaveRevertReconciliation. db_preserve. apply settles_update_intents. intros m i. apply intent_settles_update; auto. Qed.
Lemma PersistAck_emergency_settles id : preserves (db_rel settles) (PersistAck_emergency id).
Proof.
  unfold PersistAck_emergency, persist_ack, persistAckTx. db_preserve; try solve [apply settles_frames; db_preserve].
  apply preserves_exec. intros db [Hwf _ _ _]. eapply settled_intents; [done|reflexivity|reflexivity|].
  intros i _ _. apply intent_settles_update; auto.
Qed.
Lemma PersistAck_settles id : preserves (db_rel settles) (PersistAck id).
Proof. apply settles_frames; unfold PersistAck, persist_ack, persistAckTx; db_preserve. Qed.
Lemma Append_settles entry : preserves (db_rel settles) (Append entry).
Proof. apply settles_frames; unfold Append; db_preserve. Qed.
Lemma UpdateStatus_outbox_settles id status result : preserves (db_rel settles) (UpdateStatus_outbox id status result).
Proof. apply settles_frames; unfold UpdateStatus_outbox; db_preserve. Qed.
Lemma SavePreflightResult_settles id result : preserves (db_rel settles) (SavePreflightResult id result).
Proof. apply settles_frames; unfold SavePreflightResult; db_preserve. Qed.

(** ** Creations *)

(** One operation row under a fresh id, on a release that is free for it. *)
Definition creates_standard (op : Operation) (db db' : DB) : Prop :=
  (∀ id o, db_operations db !! id = Some o → active_for (op_ReleaseDefinitionID op) o = false) ∧
  (∃ row, db_operations db !! op_ID op = None ∧ op_ID row = op_ID op ∧
     op_ReleaseDefinitionID row = op_ReleaseDefinitionID op ∧
     db_operations db' = <[op_ID op := row]> (db_operations db)) ∧
  db_emergency_intents db' = db_emergency_intents db.

Lemma exclusive_create definitionID id row db db' :
  exclusive db → (∀ id o, db_operations db !! id = Some o → active_for definitionID o = false) →
  op_ReleaseDefinitionID row = definitionID → db_operations db' = <[id := row]> (db_operations db) → exclusive db'.
Proof.
  intros Hex Hfree Hdef Hops d id1 id2 o1 o2 H1 H2 A1 A2. rewrite Hops in H1, H2.
  apply lookup_insert_Some in H1 as [[<- <-]|[? H1]], H2 as [[<- <-]|[? H2]]; [done| | |by eapply Hex].
  - exfalso. apply andb_true_iff in A1 as [A1 _]. destruct_bools. subst. specialize (Hfree _ _ H2). congruence.
  - exfalso. apply andb_true_iff in A2 as [A2 _]. destruct_bools. subst. specialize (Hfree _ _ H1). congruence.
Qed.
(** Creating an operation under a fresh id does not concern existing intents. *)
Lemma is_active_intent_create definitionID id row db db' i :
  intents_linked db → db_operations db !! id = None → db_operations db' = <[id := row]> (db_operations db) →
  i ∈ db_emergency_intents db → is_active_intent definitionID db' i = is_active_intent definitionID db i.
Proof.
  intros (Hl & _) Hfresh Hops Hi. unfold is_active_intent, intent_operation. rewrite Hops, lookup_insert_ne; [done|].
  intros ->. destruct (Hl i Hi) as [o Ho]. congruence.
Qed.
Lemma ops_wf_create id row m : ops_wf m → m !! id = None → op_ID row = id → ops_wf (<[id := row]> m).
Proof. intros Hwf Hfresh Hid. by apply (ops_rel_new op_evolves). Qed.

Lemma creates_standard_invariant op db db' : creates_standard op db db' → invariant db → invariant db'.
Proof.
  intros (Hfree & (row & Hfresh & Hid & Hdef & Hops) & Hints) [Hwf Hex Hlocks Hlinked]. split.
  - rewrite Hops. by apply ops_wf_create.
  - by eapply exclusive_create.
  - intros d i j Hi Hj Hne Ai Aj. rewrite Hints in Hi, Hj.
    rewrite (is_active_intent_create d _ row db) in Ai, Aj by done. by apply (Hlocks d).
  - destruct Hlinked as (Hl & Hnd). unfold intents_linked. rewrite Hints. split; [|done].
    intros i Hi. destruct (Hl i Hi) as [o Ho]. rewrite Hops. destruct (decide (op_ID op = ei_OperationID i)) as [E|?]; [congruence|].
    rewrite lookup_insert_ne by done. by eexists.
Qed.
Lemma emergency_created_invariant command db db' :
  well_formed_emergency command → emergency_created command db db' → invariant db → invariant db'.
Proof.
  intros (_ & Hoid & Hrid & _) (Hfree & Hconf & (row & Hfresh & Hid & _ & Hdef & _ & Hops) & (i & Hints & Hio & Hir & Hic & Hnew & _))
    [Hwf Hex Hlocks Hlinked]. pose proof Hlinked as (Hl & Hnd & Hndi). split.
  - rewrite Hops. by apply ops_wf_create.
  - by eapply exclusive_create.
  - assert (Hside : ∀ d j, j ∈ db_emergency_intents db → is_active_intent d db' j = true → is_active_intent d db' i = true →
      emergencyIntentsConflict j i = false).
    { intros d j Hj Aj Ai. rewrite (is_active_intent_create d _ row db) in Aj by done.
      rewrite emergencyIntentsConflict_sym, Hic, emergencyIntentsConflict_sym. apply Hconf; [done|].
      assert (Hd : ei_ReleaseDefinitionID i = d).
      { unfold is_active_intent in Ai. destruct (intent_operation _ _); [|done]. by destruct_bools. }
      by rewrite <- Hrid, <- Hir, Hd. }
    intros d x y Hx Hy Hne Ax Ay. rewrite Hints in Hx, Hy.
    apply elem_of_app in Hx as [Hx| ->%list_elem_of_singleton], Hy as [Hy| ->%list_elem_of_singleton]; [| | |done].
    + rewrite (is_active_intent_create d _ row db) in Ax, Ay by done. by apply (Hlocks d).
    + by eapply Hside.
    + rewrite emergencyIntentsConflict_sym. by eapply Hside.
  - unfold intents_linked. rewrite Hints, !fmap_app. split_and!.
    + intros x [Hx| ->%list_elem_of_singleton]%elem_of_app; rewrite Hops.
      * destruct (Hl x Hx) as [o Ho]. destruct (decide (op_ID (ec_Operation command) = ei_OperationID x)) as [E|?]; [congruence|].
        rewrite lookup_insert_ne by done. by eexists.
      * rewrite Hio, Hoid, lookup_insert_eq. by eexists.
    + apply NoDup_app. split; [done|]. split; [|apply NoDup_singleton].
      intros k (x & -> & Hx)%list_elem_of_fmap. simpl. rewrite list_elem_of_singleton. by apply Hnew.
    + apply NoDup_app. split; [done|]. split; [|apply NoDup_singleton].
      intros k (x & -> & Hx)%list_elem_of_fmap. simpl. rewrite list_elem_of_singleton. by apply Hnew.
Qed.

Lemma creates_standard_intro op created u db w w1 w2 w' :
  standard op → ensureOperationAvailable op w = (Ok u, w1) → createOperation op w2 = (Ok created, w') →
  db_operations (w_db w) = db_operations db → db_operations (w_db w2) = db_operations db →
  db_emergency_intents (w_db w2) = db_emergency_intents db → creates_standard op db (w_db w').
Proof.
  intros Hstd Havail Hcreate Hops0 Hops Hints. apply ensureOperationAvailable_Ok in Havail as [_ Havail].
  apply createOperation_inv in Hcreate as (Hfresh & Hid & Hdef & _ & _ & Hdb). rewrite Hops0 in Havail. rewrite Hops in Hfresh, Hdb. split_and!.
  - intros id o Ho. destruct (active_for _ o) eqn:E; [|done]. destruct (Havail id o Ho E) as [Hem _].
    unfold is_emergency in Hem. by destruct_bools.
  - exists (operation_row created). split_and!; [done..|]. by rewrite Hdb.
  - by rewrite Hdb.
Qed.
Lemma createIdempotent_creates command w res w' :
  ccr_CheckAvailable command = true → standard (ccr_Operation command) →
  createIdempotentOperation command w = (Ok (Commit res), w') → creates_standard (ccr_Operation command) (w_db w) (w_db w').
Proof.
  intros Hcheck Hstd H. unfold createIdempotentOperation in H. rewrite Hcheck in H. dinv.
  destruct (has_key (ccr_Idempotency command)) as [r|].
  - destruct a0 as [replay|].
    { destruct (negb _); dinv. }
    dinv. match type of H with (if ?x then _ else _) _ = _ => destruct x end; dinv.
    eapply creates_standard_intro; [done|eassumption|eassumption|by use_frame db_operations..|by use_frame db_emergency_intents].
  - dinv. eapply creates_standard_intro; [done|eassumption|eassumption|by use_frame db_operations..|by use_frame db_emergency_intents].
Qed.

(** ** The invariant holds in every reachable state *)

(** What one step does to the tables. *)
Definition evolves_by_step (db db' : DB) : Prop :=
  settles db db' ∨ (∃ op, creates_standard op db db') ∨
  (∃ command, well_formed_emergency command ∧ emergency_created command db db').

Lemma step_kept w w' : w_db w' = w_db w → evolves_by_step (w_db w) (w_db w').
Proof. intros ->. by left. Qed.
Lemma step_settles {A} (m : SM A) w : preserves (db_rel settles) m → evolves_by_step (w_db w) (w_db (m w).2).
Proof. intros Hm. left. destruct (m w) as [r w'] eqn:E. exact (Hm _ _ _ E). Qed.
Lemma CreateIdempotent_step command w :
  ccr_CheckAvailable command = true → standard (ccr_Operation command) →
  evolves_by_step (w_db w) (w_db (CreateIdempotent command w).2).
Proof.
  intros Hcheck Hstd. destruct (CreateIdempotent command w) as [[res|e] w'] eqn:E; simpl.
  - apply retry_loop_Ok in E as (w0 & Hw0 & E). rewrite <- Hw0. apply run_tx_Ok in E as [_ [E|(w1 & _ & ->)]]; [|by left].
    right; left. exists (ccr_Operation command). by apply createIdempotent_creates in E.
  - apply retry_loop_Err_db in E. by apply step_kept.
Qed.
Lemma UnitOfWork_step req w : well_formed_request req → evolves_by_step (w_db w) (w_db (OperationCreationUnitOfWork req w).2).
Proof.
  intros Hwf. destruct (OperationCreationUnitOfWork req w) as [[res|e] w'] eqn:E; simpl; [|apply retry_loop_Err_db in E; by apply step_kept].
  apply retry_loop_Ok in E as (w0 & Hw0 & E). rewrite <- Hw0. apply run_commit_Ok in E as [_ E]. unfold well_formed_request in Hwf.
  destruct (ocr_Emergency req) as [command|].
  - apply createEmergency_inv in E as [[E _]|(_ & Hops & Hints)]; [right; right; by exists command|].
    left. intros [Hw _ _ _]. by apply settled_same.
  - apply createOperationUnitOfWork_inv in E as (Havail & (row & Hfresh & Hid & _ & Hdef & _ & Hops) & _ & _ & _ & Hints).
    right; left. exists (ocr_Operation req). split_and!; [|by exists row|done].
    intros id o Ho. destruct (active_for _ o) eqn:Ha; [|done]. destruct (Havail id o Ho Ha) as [Hem _].
    unfold is_emergency in Hem. by destruct_bools.
Qed.
Lemma store_step_evolves w w' : store_step w w' → evolves_by_step (w_db w) (w_db w').
Proof.
  destruct 1; [by apply step_kept|by apply CreateIdempotent_step|by apply UnitOfWork_step|apply step_settles..].
  - apply transition_settles.
  - apply QueueOperation_settles.
  - apply Cancel_settles.
  - by apply FinalizeUpgrade_settles.
  - apply SavePreflightResult_settles.
  - apply Append_settles.
  - apply PersistAck_settles.
  - apply UpdateStatus_outbox_settles.
  - apply UpdateDeliveryStatus_settles.
  - apply SaveRevertReconciliation_settles.
  - apply PersistAck_emergency_settles.
  - apply Finish_settles.
  - apply Resolve_settles.
  - apply Converge_settles.
  - apply Release_settles.
Qed.
Lemma step_invariant w w' : store_step w w' → invariant (w_db w) → invariant (w_db w').
Proof.
  intros Hs%store_step_evolves Hinv. destruct Hs as [Hs|[(op & Hs)|(command & Hwf & Hs)]].
  - apply (settled_invariant (w_db w)); [by apply Hs|done].
  - by eapply creates_standard_invariant.
  - by eapply emergency_created_invariant.
Qed.

(** A relation on the tables that every step respects, from states with the
    invariant, holds of every reachable state. *)
Lemma reachable_rel (R : relation DB) `{!PreOrder R} w w' :
  (∀ db db', invariant db → evolves_by_step db db' → R db db') →
  invariant (w_db w) → reachable w w' → invariant (w_db w') ∧ R (w_db w) (w_db w').
Proof.
  intros HR Hinv H. induction H as [|w w1 w2 Hs _ IH]; [done|].
  destruct IH as [? IH]; [by eapply step_invariant|]. split; [done|]. etransitivity; [|exact IH].
  apply HR; [done|by apply store_step_evolves].
Qed.

(** Rows of the operations table persist. *)
Definition op_persists (o o' : Operation) : Prop :=
  op_evolves o o' ∧ (IsTerminal (op_Status o) = true → IsTerminal (op_Status o') = true).
Definition ops_persist (db db' : DB) : Prop :=
  ∀ id o, db_operations db !! id = Some o → ∃ o', db_operations db' !! id = Some o' ∧ op_persists o o'.
#[export] Instance ops_persist_preorder : PreOrder ops_persist.
Proof.
  split; [by intros db id o Ho; exists o|]. intros d1 d2 d3 H12 H23 id o1 H1.
  destruct (H12 _ _ H1) as (o2 & H2 & E12 & T12), (H23 _ _ H2) as (o3 & H3 & E23 & T23).
  exists o3. split; [done|]. split; [by transitivity o2|auto].
Qed.
Lemma op_settles_persists o o' : op_settles o o' → op_persists o o'.
Proof.
  unfold op_settles. rewrite !non_terminal_live. intros [He Hl]. split; [done|]. intros Ht.
  destruct (IsTerminal (op_Status o')); [done|]. specialize (Hl eq_refl). by rewrite Ht in Hl.
Qed.
Lemma ops_persist_create id row db db' :
  db_operations db !! id = None → db_operations db' = <[id := row]> (db_operations db) → ops_persist db db'.
Proof.
  intros Hfresh Hops k o Ho. exists o. split; [|done]. rewrite Hops, lookup_insert_ne; [done|]. intros ->. congruence.
Qed.
Lemma settled_persist db db' : settled db db' → ops_persist db db'.
Proof.
  intros (_ & Hdom & Hops & _) id o Ho.
  assert (Hin : is_Some (db_operations db' !! id)) by (apply elem_of_dom; rewrite Hdom; apply elem_of_dom; by eexists).
  destruct Hin as [o' Ho']. destruct (Hops _ _ Ho') as (o0 & Ho0 & Hs). assert (o0 = o) as -> by congruence.
  exists o'. split; [done|by apply op_settles_persists].
Qed.
Lemma step_persist db db' : invariant db → evolves_by_step db db' → ops_persist db db'.
Proof.
  intros Hinv [Hs|[(op & _ & (row & Hfresh & _ & _ & Hops) & _)|(command & _ & _ & _ & (row & Hfresh & _ & _ & _ & _ & Hops) & _)]].
  - by apply settled_persist, Hs.
  - by eapply ops_persist_create.
  - by eapply ops_persist_create.
Qed.

(** What an intent asks for never changes, and intents are not removed. *)
Definition changes_kept (db db' : DB) : Prop :=
  ∀ i, i ∈ db_emergency_intents db → ∃ i', i' ∈ db_emergency_intents db' ∧ ei_ID i' = ei_ID i ∧ change_of i' = change_of i.
#[export] Instance changes_kept_preorder : PreOrder changes_kept.
Proof.
  split; [by intros db i Hi; exists i|]. intros d1 d2 d3 H12 H23 i Hi. destruct (H12 i Hi) as (j & Hj & E1 & E2).
  destruct (H23 j Hj) as (k & Hk & E3 & E4). exists k. split_and!; [done|congruence..].
Qed.
Lemma Forall2_elem_l {A B} (R : A → B → Prop) l k x : Forall2 R l k → x ∈ l → ∃ y, y ∈ k ∧ R x y.
Proof. intros H Hx. apply Forall2_flip in H. by apply (Forall2_elem_r _ _ _ _ H). Qed.
Lemma step_changes_kept db db' : invariant db → evolves_by_step db db' → changes_kept db db'.
Proof.
  intros Hinv [Hs|[(op & _ & _ & Hints)|(command & _ & _ & _ & _ & (x & Hints & _))]] i Hi.
  - destruct (Hs Hinv) as (_ & _ & _ & HF). destruct (Forall2_elem_l _ _ _ _ HF Hi) as (i' & Hi' & (E1 & _ & _ & _ & E2) & _). by exists i'.
  - exists i. by rewrite Hints.
  - exists i. rewrite Hints. split; [by apply elem_of_app; left|done].
Qed.

(** A decided effect stays. *)
Definition effects_kept (db db' : DB) : Prop :=
  ∀ id effect, definite effect → effect_decided id effect db → effect_decided id effect db'.
#[export] Instance effects_kept_preorder : PreOrder effects_kept.
Proof. split; [by intros db id e|]. intros d1 d2 d3 H12 H23 id e He Hd. auto. Qed.
Lemma find_row_Forall2 {A} (p : A → bool) (R : A → A → Prop) l k x :
  Forall2 R l k → (∀ a b, R a b → p b = p a) → find_row p l = Some x → ∃ y, find_row p k = Some y ∧ R x y.
Proof.
  intros H Hp. unfold find_row. induction H as [|a b l k Hab _ IH]; simpl; [done|]. rewrite (Hp a b Hab).
  destruct (p a); [|done]. intros [= <-]. by exists b.
Qed.
(** The operation of a decided effect persists, so the intent does it. *)
Lemma effects_kept_intro db db' :
  ops_persist db db' →
  (∀ id i, intent_of_operation id db = Some i → ei_EffectStatus i ≠ EmergencyEffectUnknown → ¬ live_in (db_operations db) id →
     ∃ i', intent_of_operation id db' = Some i' ∧ ei_EffectStatus i' = ei_EffectStatus i) →
  effects_kept db db'.
Proof.
  intros Hops Hints id effect Hdef (o & i & Ho & Hem & Ht & Hi & He).
  destruct (Hops _ _ Ho) as (o' & Ho' & (Him & _) & Hterm).
  destruct (Hints id i Hi) as (i' & Hi' & He').
  - rewrite He. by destruct (definite_valid _ Hdef).
  - intros (o0 & Ho0 & Hl). rewrite non_terminal_live in Hl. simplify_eq. by rewrite Ht in Hl.
  - exists o', i'. split_and!; [done| |by apply Hterm|done|congruence].
    unfold is_emergency in *. by rewrite (f_equal op_OperationType Him : op_OperationType o' = op_OperationType o).
Qed.
Lemma intent_of_operation_create id db db' i :
  db_emergency_intents db' = db_emergency_intents db ++ [i] → is_Some (intent_of_operation id db) →
  intent_of_operation id db' = intent_of_operation id db.
Proof.
  unfold intent_of_operation, find_row. intros ->. generalize (db_emergency_intents db) as l.
  induction l as [|a l IH]; simpl; [by intros [? [=]]|]. by destruct (bool_decide _).
Qed.
Lemma step_effects_kept db db' : invariant db → evolves_by_step db db' → effects_kept db db'.
Proof.
  intros Hinv Hs. apply effects_kept_intro; [by apply step_persist|]. intros id i Hi Hunk Hlive.
  destruct Hs as [Hs|[(op & _ & _ & Hints)|(command & _ & _ & _ & _ & (x & Hints & _))]].
  - destruct (Hs Hinv) as (_ & _ & _ & HF). pose proof Hi as Hin. apply find_row_Some in Hin as [_ Hin]. destruct_bools.
    destruct (find_row_Forall2 (λ i, bool_decide (ei_OperationID i = id)) _ _ _ i HF) as (i' & Hi' & (_ & _ & He)); [|done|].
    + by intros a b ((_ & -> & _) & _).
    + exists i'. split; [done|]. rewrite Hin in He. destruct He as [He|[He|He]]; done.
  - exists i. split; [|done]. unfold intent_of_operation. by rewrite Hints.
  - exists i. split; [|done]. by rewrite (intent_of_operation_create id db db' x Hints) by by eexists.
Qed.

(** ** Properties of the system *)

(** C1: in every state that any interleaving of store calls reaches, a release
    definition has at most one live operation, intents that hold a lock on the
    same release never conflict, and every intent belongs to exactly one existing
    operation. *)
Theorem system_invariant w w' :
  invariant (w_db w) → reachable w w' →
  ops_wf (db_operations (w_db w')) ∧ exclusive (w_db w') ∧ locks_exclusive (w_db w') ∧ intents_linked (w_db w').
Proof.
  intros Hinv H. destruct (reachable_rel ops_persist w w' step_persist Hinv H) as [[] _]. done.
Qed.
(** C14: a decided effect is final.  Once an EMERGENCY operation is terminal with
    effect APPLIED or NOT_APPLIED, no interleaving of store calls (finishing,
    resolving, converging, cancelling, releasing, creating) changes that effect
    or makes the operation live again. *)
Theorem effect_final w w' id effect :
  invariant (w_db w) → reachable w w' → definite effect →
  effect_decided id effect (w_db w) → effect_decided id effect (w_db w').
Proof.
  intros Hinv H Hdef. by apply (reachable_rel effects_kept w w' step_effects_kept Hinv H).
Qed.
(** C15: operations are never lost: along any interleaving of store calls an
    operation keeps its id, inputs and actor, its state version never decreases
    and identifies the row, and a terminal operation stays terminal. *)
Theorem operations_persist w w' id o :
  invariant (w_db w) → reachable w w' → db_operations (w_db w) !! id = Some o →
  ∃ o', db_operations (w_db w') !! id = Some o' ∧ op_immutable o' = op_immutable o ∧
    op_StateVersion o ≤ op_StateVersion o' ∧ (op_StateVersion o' = op_StateVersion o → o' = o) ∧
    (IsTerminal (op_Status o) = true → IsTerminal (op_Status o') = true).
Proof.
  intros Hinv H Ho. destruct (reachable_rel ops_persist w w' step_persist Hinv H) as [_ Hp].
  destruct (Hp id o Ho) as (o' & Ho' & (H1 & H2 & H3) & H4). exists o'. by split_and!.
Qed.

(** The invariant of the states the examples start from. *)
Lemma invariant_no_operations db : db_operations db = ∅ → db_emergency_intents db = [] → invariant db.
Proof.
  intros Hops Hints. split.
  - intros id o. by rewrite Hops.
  - intros d id1 id2 o1 o2. by rewrite Hops.
  - intros d i j Hi. rewrite Hints in Hi. by apply not_elem_of_nil in Hi.
  - split_and!; rewrite Hints; [|constructor..]. intros i Hi. by apply not_elem_of_nil in Hi.
Qed.
Lemma invariant_one_operation db o i :
  db_operations db = {[ op_ID o := o ]} → db_emergency_intents db = [i] → ei_OperationID i = op_ID o → invariant db.
Proof.
  intros Hops Hints Hid. split.
  - intros id o'. rewrite Hops. by intros [<- <-]%lookup_singleton_Some.
  - intros d id1 id2 o1 o2. rewrite Hops. by intros [<- _]%lookup_singleton_Some [<- _]%lookup_singleton_Some.
  - intros d x y Hx Hy. rewrite Hints in *. apply list_elem_of_singleton in Hx as ->, Hy as ->. done.
  - split_and!; rewrite Hints; [|apply NoDup_singleton..].
    intros x ->%list_elem_of_singleton. rewrite Hops, Hid, lookup_singleton_eq. by eexists.
Qed.
Lemma emergency_world_invariant status : invariant (w_db (emergency_world status)).
Proof. by apply (invariant_one_operation _ (emergency_op status 2) (sample_intent "i1" "op1" "d1" "queued" EmergencyEffectUnknown)). Qed.

Lemma system_invariant_witness :
  let w1 := (OperationCreationUnitOfWork sample_request bundle_world).2 in
  let w2 := (OperationStore.Cancel (sample_cancel DeliveryUndelivered) w1).2 in
  let w3 := (transition "op1" StatusPreflight 1 "" w2).2 in
  op_Status <$> db_operations (w_db w3) !! "op1" = Some StatusPreflight ∧ exclusive (w_db w3).
Proof.
  intros w1 w2 w3. split; [vm_compute; reflexivity|].
  apply (system_invariant bundle_world w3); [by apply invariant_no_operations|].
  eapply rtc_l; [by apply (step_create _ sample_request)|].
  eapply rtc_l; [apply (step_cancel _ (sample_cancel DeliveryUndelivered))|].
  apply rtc_once. apply step_transition.
Defined.
Lemma effect_final_witness :
  let w1 := (ConvergeEmergencyResult (sample_converge EmergencyEffectApplied) (emergency_world StatusRunning)).2 in
  let w2 := (Finish "i1" "op1" 3 StatusFailed EmergencyEffectNotApplied "" RawEmpty RawEmpty w1).2 in
  let w3 := (ConvergeEmergencyResult (sample_converge EmergencyEffectNotApplied) w2).2 in
  effect_decided "op1" EmergencyEffectApplied (w_db w3).
Proof.
  intros w1 w2 w3. apply (effect_final w1 w3).
  - apply (step_invariant (emergency_world StatusRunning)); [apply step_converge|apply emergency_world_invariant].
  - eapply rtc_l; [apply (step_finish _ "i1" "op1" 3 StatusFailed EmergencyEffectNotApplied "" RawEmpty RawEmpty)|].
    apply rtc_once. apply step_converge.
  - by left.
  - eexists _, _. split; [vm_compute; reflexivity|]. split; [reflexivity|]. split; [reflexivity|].
    split; vm_compute; reflexivity.
Defined.
Lemma operations_persist_witness :
  let w1 := (transition "op1" StatusFailed 2 "boom" (emergency_world StatusRunning)).2 in
  let w2 := (transition "op1" StatusQueued 3 "" w1).2 in
  ∃ o, db_operations (w_db w2) !! "op1" = Some o ∧ 2 ≤ op_StateVersion o.
Proof.
  intros w1 w2.
  destruct (operations_persist (emergency_world StatusRunning) w2 "op1" (emergency_op StatusRunning 2)
    (emergency_world_invariant _)) as (o & Ho & _ & Hv & _); [|reflexivity|by exists o].
  eapply rtc_l; [apply (step_transition _ "op1" StatusFailed 2 "boom")|]. apply rtc_once. apply step_transition.
Defined.
