(* ===== verification/Progress.v ===== *)
(** * Progress of transitions in a calm environment

    The store theorems describe what a successful call did.  This file says
    when a transition succeeds: the environment can supply the evidence rows
    ([env_ok]) and the database is not busy ([calm]).  The service components
    (Delivery.v, Recovery.v) chain several transitions and use it for each. *)
From S2P Require Import Prelude Utf8 Json Redact Domain Lifecycle Database Timeline Idempotency Outbox OperationStore.

(** The database answers every attempt. *)
Definition calm (w : World) : Prop := ∀ n, w_busy w n = false.
Definition stays_calm : relation World := λ w w', calm w → calm w'.
#[export] Instance stays_calm_preorder : PreOrder stays_calm.
Proof. split; unfold stays_calm; [by intros w|]. intros a b c ???. auto. Qed.

Lemma now_calm : preserves stays_calm now.
Proof. intros w r w' [= _ <-] H n. apply H. Qed.
Lemma new_uuid_calm : preserves stays_calm new_uuid.
Proof. intros w r w' [= _ <-] H n. apply H. Qed.
Lemma query_calm {A} (f : DB → A) : preserves stays_calm (query f).
Proof. apply preserves_gets, _. Qed.
Lemma exec_calm f : preserves stays_calm (exec f).
Proof. intros w r w' [= _ <-] H n. apply H. Qed.
Lemma fail_if_calm b e : preserves stays_calm (fail_if b e).
Proof. unfold fail_if. preserve. Qed.
Lemma scan_row_calm {A} (o : option A) : preserves stays_calm (scan_row o).
Proof. unfold scan_row. preserve. Qed.
#[export] Hint Resolve now_calm new_uuid_calm query_calm exec_calm fail_if_calm scan_row_calm : preserve.
Lemma check_fk_calm p msg : preserves stays_calm (check_fk p msg).
Proof. unfold check_fk. preserve. Qed.
Lemma or_now_calm t : preserves stays_calm (or_now t).
Proof. unfold or_now. preserve. Qed.
Lemma nowUTC_calm : preserves stays_calm nowUTC.
Proof. unfold nowUTC. preserve. Qed.
Lemma or_new_uuid_calm i : preserves stays_calm (or_new_uuid i).
Proof. unfold or_new_uuid. preserve. Qed.
#[export] Hint Resolve check_fk_calm or_now_calm nowUTC_calm or_new_uuid_calm : preserve.
Lemma run_tx_calm {A} (m : SM (outcome A)) : preserves stays_calm m → preserves stays_calm (run_tx m).
Proof.
  intros Hm w r w'. unfold run_tx. destruct (w_busy w 0); [intros [= _ <-] H n; apply H|].
  assert (Ha : stays_calm w (attempt w)) by (intros H n; apply H).
  destruct (m (attempt w)) as [[[a|a]|e] w1] eqn:E; intros [= _ <-]; (etransitivity; [exact Ha|]);
    pose proof (Hm _ _ _ E) as H1; exact H1.
Qed.
Lemma transitionInTx_calm id status v err : preserves stays_calm (transitionInTx id status v err).
Proof.
  unfold transitionInTx, applyOperationTransition, recordOperationTransition, recordOperationStateChange,
    insertOperationTerminalOutbox, insertApprovalOutbox, insertOperationEvent, appendTimelineEntry, set_preflight_terminal,
    cas_operation, getOperation.
  preserve.
Qed.
Lemma transition_calm id status v err : preserves stays_calm (transition id status v err).
Proof.
  apply run_tx_calm. apply preserves_bind; [apply _|apply transitionInTx_calm|intros; apply preserves_ret, _].
Qed.

(** The environment of a sequence of transitions: it can write their evidence
    and the operations are stored under their ids. *)
Record able (w : World) : Prop := {
  able_env : env_ok w;
  able_calm : calm w;
  able_wf : ops_wf (db_operations (w_db w));
}.

(** A transition from the current version along a legal edge succeeds, changes
    the one row and leaves the environment able to do the next one. *)
Lemma transition_ok id status v err w o :
  able w → db_operations (w_db w) !! id = Some o → op_StateVersion o = v → CanTransitionTo (op_Status o) status = true →
  ∃ w', let row := transition_row status err (rfc3339 (w_clock w 0)) (IsTerminal status) in
    transition id status v err w = (Ok (row (buildOperation (w_db w) o)), w') ∧ able w' ∧
    db_operations (w_db w') = <[id := row o]> (db_operations (w_db w)).
Proof.
  intros [Henv Hcalm Hwf] Ho Hv Hcan.
  destruct (transitionInTx_ok id status v err (attempt w) o (env_attempt _ Henv) Hwf Ho Hv Hcan) as (u & w' & E & Henv').
  destruct (transitionInTx_inv _ _ _ _ (attempt w) _ _ Hwf E) as (o' & n & Ho' & _ & _ & -> & -> & Hdb). simpl in *.
  rewrite Ho in Ho'. injection Ho' as <-. exists w'.
  assert (Hrun : transition id status v err w =
    (Ok (transition_row status err (rfc3339 (w_clock w 0)) (IsTerminal status) (buildOperation (w_db w) o)), w'))
    by (unfold transition, run_tx, commit, bind; by rewrite (Hcalm 0%nat), E).
  split; [exact Hrun|]. split; [|exact Hdb]. split; [done|by apply (transition_calm _ _ _ _ _ _ _ Hrun)|].
  rewrite Hdb. revert Hwf. apply (ops_rel_insert op_evolves _ o); [done| |done]. apply transition_row_op_evolves.
Qed.
(** ... and any other call fails and only uses up the attempt. *)
Lemma able_attempt w : able w → able (attempt w).
Proof. intros [Henv Hcalm Hwf]. split; [by apply env_attempt|intros n; apply Hcalm|done]. Qed.
Lemma transition_refused id status v err w :
  able w →
  match db_operations (w_db w) !! id with
  | None => True
  | Some o => op_StateVersion o ≠ v ∨ CanTransitionTo (op_Status o) status = false
  end →
  ∃ e, transition id status v err w = (Err e, attempt w).
Proof.
  intros [_ Hcalm _] Hno.
  unfold transition, run_tx, commit, transitionInTx, getOperation, lookup_operation, bind, query, gets. rewrite (Hcalm 0%nat). simpl.
  destruct (db_operations (w_db w) !! id) as [o|]; simpl; [|by eexists].
  destruct (buildOperation_fields (w_db w) o) as (_ & Hst & Hver & _). rewrite Hst, Hver. destruct Hno as [Hv|Hcan].
  - rewrite (proj2 (Z.eqb_neq _ _) Hv). simpl. by eexists.
  - destruct (_ =? v); simpl; [|by eexists]. rewrite Hcan. simpl. by eexists.
Qed.
Lemma sample_able db :
  env_ok (sample_world db) → ops_wf (db_operations db) → able (sample_world db).
Proof. intros. by split. Qed.
