(* ===== verification/Recovery.v ===== *)
(** * Start-up recovery (internal/orchestrator/operation/recover.go)

    On restart the orchestrator walks the non-terminal operations once: a stale
    cancellation becomes failed, an operation past its deadline (plus grace)
    becomes timeout, everything else is left to the operator's reconnect.  Log
    lines are not modelled. *)
From S2P Require Import Prelude Utf8 Json Redact Domain Lifecycle Database Timeline Idempotency Outbox OperationStore Progress.

(** Durations are nanoseconds. *)
Record RecoverOptions := { DeadlineGracePeriod : Z; CancellingTimeout : Z }.
Definition DefaultRecoverOptions : RecoverOptions :=
  {| DeadlineGracePeriod := 30 * nsec; CancellingTimeout := 5 * 60 * nsec |}.

(** How many operations it moved: one, or none when the transition fails. *)
Definition transitionTo (op : Operation) (target : OperationStatus) (reason : string) : SM Z :=
  catch (Transition_operation (op_ID op) target (op_StateVersion op) reason)
    (λ r, ret (match r with Ok _ => 1 | Err _ => 0 end)).
Definition recoverOne (op : Operation) (opts : RecoverOptions) (now : time) : SM Z :=
  if bool_decide (op_Status op = StatusCancelling) then
    if (0 <? CancellingTimeout opts) && (op_UpdatedAt op + CancellingTimeout opts <? now)
    then transitionTo op StatusFailed "recovery: cancelling handler did not acknowledge"
    else ret 0
  else
    match op_Deadline op with
    | Some deadline =>
        if deadline + DeadlineGracePeriod opts <? now
        then transitionTo op StatusTimeout ("deadline exceeded: " ++ rfc3339_text deadline)%string
        else ret 0
    | None => ret 0
    end.
Fixpoint recover_loop (opts : RecoverOptions) (now : time) (ops : list Operation) : SM Z :=
  match ops with
  | [] => ret 0
  | op :: ops' =>
      let! n := recoverOne op opts now in
      let! m := recover_loop opts now ops' in
      ret (n + m)
  end.
Definition RecoverNonTerminal (opts : RecoverOptions) : SM Z :=
  catch ListNonTerminal (λ r,
    match r with
    | Err _ => ret 0
    | Ok [] => ret 0
    | Ok ops => let! t := now in recover_loop opts t ops
    end).

(** ** Specification *)

(** What recovery owes an operation: the status and reason it must get, if it
    is stale at [now]. *)
Definition stale (opts : RecoverOptions) (now : time) (op : Operation) : option (OperationStatus * string) :=
  match op_Status op with
  | StatusCancelling =>
      if (0 <? CancellingTimeout opts) && (op_UpdatedAt op + CancellingTimeout opts <? now)
      then Some (StatusFailed, "recovery: cancelling handler did not acknowledge"%string) else None
  | StatusPending | StatusPreflight | StatusQueued | StatusRunning =>
      match op_Deadline op with
      | Some deadline =>
          if deadline + DeadlineGracePeriod opts <? now
          then Some (StatusTimeout, ("deadline exceeded: " ++ rfc3339_text deadline)%string) else None
      | None => None
      end
  | _ => None
  end.
(** [o'] is what recovery makes of [o]. *)
Definition recovered (opts : RecoverOptions) (now : time) (o o' : Operation) : Prop :=
  match stale opts now o with
  | Some (status, reason) => ∃ n, o' = transition_row status reason n true o
  | None => o' = o
  end.
Definition is_stale (opts : RecoverOptions) (now : time) (op : Operation) : bool :=
  match stale opts now op with Some _ => true | None => false end.

Lemma stale_edge opts now o status reason :
  stale opts now o = Some (status, reason) → CanTransitionTo (op_Status o) status = true ∧ IsTerminal status = true.
Proof. unfold stale. destruct (op_Status o) eqn:E; repeat case_match; intros [= <- <-]; done. Qed.
Lemma stale_build opts now db o : stale opts now (buildOperation db o) = stale opts now o.
Proof. unfold stale, buildOperation. by destruct (intent_of_operation _ _). Qed.

(** The copy in the list still describes its row. *)
Definition current_copy (m : gmap string Operation) (op : Operation) : Prop :=
  ∃ o, m !! op_ID op = Some o ∧ op_Status o = op_Status op ∧ op_StateVersion o = op_StateVersion op ∧
       op_Deadline o = op_Deadline op ∧ op_UpdatedAt o = op_UpdatedAt op.

Lemma transitionTo_ok op status reason o w :
  able w → db_operations (w_db w) !! op_ID op = Some o → op_StateVersion o = op_StateVersion op →
  CanTransitionTo (op_Status o) status = true →
  ∃ n w', transitionTo op status reason w = (Ok 1, w') ∧ able w' ∧
    db_operations (w_db w') = <[op_ID op := transition_row status reason n (IsTerminal status) o]> (db_operations (w_db w)).
Proof.
  intros Hable Ho Hv Hcan. destruct (transition_ok _ status _ reason w o Hable Ho Hv Hcan) as (w' & E & Hable' & Hops).
  eexists _, w'. split; [|by split]. unfold transitionTo, catch, Transition_operation. by rewrite E.
Qed.
Lemma transitionTo_refused op status reason o w :
  able w → db_operations (w_db w) !! op_ID op = Some o → CanTransitionTo (op_Status o) status = false →
  transitionTo op status reason w = (Ok 0, attempt w).
Proof.
  intros Hable Ho Hcan. destruct (transition_refused (op_ID op) status (op_StateVersion op) reason w Hable) as (e & E).
  { rewrite Ho. by right. }
  unfold transitionTo, catch, Transition_operation. by rewrite E.
Qed.

(** The code and the specification agree on what to do with one operation. *)
Lemma recoverOne_stale opts now op status reason :
  stale opts now op = Some (status, reason) → recoverOne op opts now = transitionTo op status reason.
Proof. unfold stale, recoverOne. destruct (op_Status op) eqn:E; simpl; repeat case_match; by intros [= <- <-]. Qed.
Lemma recoverOne_fresh opts now op :
  stale opts now op = None →
  recoverOne op opts now = ret 0 ∨
  ∃ reason, recoverOne op opts now = transitionTo op StatusTimeout reason ∧ CanTransitionTo (op_Status op) StatusTimeout = false.
Proof.
  unfold stale, recoverOne. destruct (op_Status op) eqn:E; simpl; repeat case_match; try done; intros _;
    first [by left|right; eexists; by split].
Qed.
Lemma stale_copy opts now o op :
  op_Status o = op_Status op → op_Deadline o = op_Deadline op → op_UpdatedAt o = op_UpdatedAt op →
  stale opts now o = stale opts now op.
Proof. unfold stale. by intros -> -> ->. Qed.
Lemma recoverOne_ok opts now op w :
  able w → current_copy (db_operations (w_db w)) op →
  ∃ o o' w', db_operations (w_db w) !! op_ID op = Some o ∧
    recoverOne op opts now w = (Ok (if is_stale opts now op then 1 else 0), w') ∧ able w' ∧
    recovered opts now o o' ∧ op_ID o' = op_ID o ∧ db_operations (w_db w') = <[op_ID op := o']> (db_operations (w_db w)).
Proof.
  intros Hable (o & Ho & Hst & Hv & Hdl & Hup). pose proof (stale_copy opts now o op Hst Hdl Hup) as Hso.
  destruct (stale opts now op) as [[status reason]|] eqn:Hs; unfold is_stale, recovered; rewrite Hs.
  - rewrite (recoverOne_stale _ _ _ _ _ Hs). destruct (stale_edge _ _ _ _ _ Hs) as [Hcan Hterm].
    destruct (transitionTo_ok op status reason o w Hable Ho Hv) as (n & w' & E & Hable' & Hops); [by rewrite Hst|].
    rewrite Hterm in Hops. exists o. eexists _, w'. rewrite Hso. split_and!; [done|exact E|done|by exists n|done|exact Hops].
  - exists o, o. rewrite Hso. destruct (recoverOne_fresh _ _ _ Hs) as [-> |(reason & -> & Hcan)].
    + exists w. split_and!; try done. by rewrite insert_id.
    + rewrite <- Hst in Hcan. rewrite (transitionTo_refused op StatusTimeout reason o w Hable Ho Hcan).
      exists (attempt w). split_and!; try done; [by apply able_attempt|by rewrite insert_id].
Qed.

Definition stale_count (opts : RecoverOptions) (now : time) (ops : list Operation) : nat :=
  length (filter (λ op, is_stale opts now op = true) ops).
Lemma recover_loop_ok opts now ops w :
  able w → NoDup (op_ID <$> ops) → (∀ op, op ∈ ops → current_copy (db_operations (w_db w)) op) →
  ∃ w', recover_loop opts now ops w = (Ok (Z.of_nat (stale_count opts now ops)), w') ∧ able w' ∧
    ∀ id, match db_operations (w_db w) !! id with
          | None => db_operations (w_db w') !! id = None
          | Some o => ∃ o', db_operations (w_db w') !! id = Some o' ∧
                        if bool_decide (id ∈ op_ID <$> ops) then recovered opts now o o' else o' = o
          end.
Proof.
  revert w. induction ops as [|op ops IH]; intros w Hable Hnd Hcopy.
  { exists w. split; [done|]. split; [done|]. intros id. by destruct (_ !! id) as [o|]; [exists o|]. }
  apply NoDup_cons in Hnd as [Hnew Hnd].
  destruct (recoverOne_ok opts now op w Hable) as (o & o' & w1 & Ho & E & Hable1 & Hrec & Hid & Hops1); [apply Hcopy; left|].
  destruct (IH w1 Hable1 Hnd) as (w2 & E2 & Hable2 & H2).
  { intros op2 Hop2. destruct (Hcopy op2) as (o2 & Ho2 & Hrest); [by right|]. exists o2. split; [|done].
    rewrite Hops1, lookup_insert_ne; [done|]. intros Heq. apply Hnew. rewrite Heq. by apply list_elem_of_fmap_2. }
  exists w2. split; [|split; [done|]].
  - simpl. unfold bind. rewrite E, E2. unfold ret, stale_count. rewrite filter_cons.
    destruct (is_stale opts now op); [rewrite decide_True by done|rewrite decide_False by done]; simpl; do 2 f_equal; lia.
  - intros id. specialize (H2 id). rewrite Hops1 in H2. destruct (decide (op_ID op = id)) as [<-|Hne].
    + rewrite lookup_insert_eq in H2. rewrite Ho. destruct H2 as (o2 & Ho2 & H2). rewrite bool_decide_false in H2 by done. subst o2.
      exists o'. split; [done|]. by rewrite bool_decide_true by (rewrite fmap_cons; left).
    + rewrite lookup_insert_ne in H2 by done. destruct (db_operations (w_db w) !! id) as [o2|]; [|done].
      destruct H2 as (o3 & Ho3 & H2). exists o3. split; [done|].
      replace (bool_decide (id ∈ op_ID <$> op :: ops)) with (bool_decide (id ∈ op_ID <$> ops)); [done|].
      apply bool_decide_ext. rewrite fmap_cons, elem_of_cons. split; [by right|intros [->|?]; done].
Qed.

(** The list of non-terminal operations is a list of current copies. *)
Lemma non_terminal_list_spec db op :
  op ∈ non_terminal_list db ↔ ∃ id o, db_operations db !! id = Some o ∧ op = buildOperation db o ∧ non_terminal o = true.
Proof.
  unfold non_terminal_list, all_operations. rewrite merge_sort_Permutation, list_elem_of_filter, list_elem_of_fmap.
  assert (Hnt : ∀ o, non_terminal (buildOperation db o) = non_terminal o)
    by (intros o; unfold non_terminal; by destruct (buildOperation_fields db o) as (_ & -> & _)).
  split.
  - intros (Hn & o & -> & Hin). apply list_elem_of_fmap in Hin as ([id o'] & -> & Hin). apply elem_of_map_to_list in Hin.
    exists id, o'. split_and!; [done|done|by rewrite <- Hnt].
  - intros (id & o & Ho & -> & Hn). split; [by rewrite Hnt|]. exists o. split; [done|].
    apply list_elem_of_fmap. exists (id, o). split; [done|by apply elem_of_map_to_list].
Qed.
Lemma non_terminal_list_NoDup db : ops_wf (db_operations db) → NoDup (op_ID <$> non_terminal_list db).
Proof.
  intros Hwf. unfold non_terminal_list, all_operations. rewrite merge_sort_Permutation. apply NoDup_filter_key.
  rewrite <- !list_fmap_compose. rewrite (list_fmap_ext _ fst); [apply NoDup_fst_map_to_list|].
  intros n [id o] Hn. apply list_elem_of_lookup_2, elem_of_map_to_list in Hn. simpl.
  destruct (buildOperation_fields db o) as (-> & _). by apply Hwf.
Qed.

(** C34: recovery settles every stale operation and nothing else.  In a calm
    environment, with [now] the instant recovery read: a stale non-terminal
    operation moves to its recovery status with the stated reason, every other
    operation is untouched, no operation appears or disappears, and the result
    counts the stale ones. *)
Theorem RecoverNonTerminal_exact opts w :
  able w →
  ∃ w', let db := w_db w in let now := w_clock w 0%nat in
    RecoverNonTerminal opts w = (Ok (Z.of_nat (stale_count opts now (non_terminal_list db))), w') ∧ able w' ∧
    dom (db_operations (w_db w')) = dom (db_operations db) ∧
    ∀ id o, db_operations db !! id = Some o → ∃ o', db_operations (w_db w') !! id = Some o' ∧
      if non_terminal o then recovered opts now o o' else o' = o.
Proof.
  intros Hable. pose proof (able_wf _ Hable) as Hwf.
  assert (H : ∃ w', RecoverNonTerminal opts w = (Ok (Z.of_nat (stale_count opts (w_clock w 0%nat) (non_terminal_list (w_db w)))), w') ∧
    able w' ∧ ∀ id, match db_operations (w_db w) !! id with
          | None => db_operations (w_db w') !! id = None
          | Some o => ∃ o', db_operations (w_db w') !! id = Some o' ∧
                        if bool_decide (id ∈ op_ID <$> non_terminal_list (w_db w)) then recovered opts (w_clock w 0%nat) o o' else o' = o
          end).
  { unfold RecoverNonTerminal, catch, ListNonTerminal, query, gets. destruct (non_terminal_list (w_db w)) as [|op ops] eqn:El.
    - exists w. split; [done|]. split; [done|]. intros id. by destruct (_ !! id) as [o|]; [exists o|].
    - rewrite <- El. unfold bind, now. apply (recover_loop_ok opts (w_clock w 0%nat) _ (tick w)).
      + destruct Hable as [He Hc ?]. split; [by apply env_tick|exact Hc|done].
      + by apply non_terminal_list_NoDup.
      + intros op' (id & o & Ho & -> & _)%non_terminal_list_spec.
        destruct (buildOperation_fields (w_db w) o) as (Hid & Hst & Hv & _). exists o. simpl. rewrite Hid, (Hwf _ _ Ho).
        split_and!; [done..| |]; unfold buildOperation; by destruct (intent_of_operation _ _). }
  destruct H as (w' & E & Hable' & H). exists w'. split; [exact E|]. split; [done|]. split.
  - apply set_eq. intros id. rewrite !elem_of_dom. specialize (H id). destruct (db_operations (w_db w) !! id) as [o|].
    + destruct H as (o' & -> & _). split; by eexists.
    + rewrite H. done.
  - intros id o Ho. specialize (H id). rewrite Ho in H. destruct H as (o' & Ho' & H). exists o'. split; [done|].
    replace (non_terminal o) with (bool_decide (id ∈ op_ID <$> non_terminal_list (w_db w))); [exact H|].
    destruct (non_terminal o) eqn:Hn.
    + apply bool_decide_eq_true_2. apply list_elem_of_fmap. exists (buildOperation (w_db w) o).
      destruct (buildOperation_fields (w_db w) o) as (Hid & _). rewrite Hid, (Hwf _ _ Ho). split; [done|].
      apply non_terminal_list_spec. eauto.
    + apply bool_decide_eq_false_2. intros (b & -> & (k & o2 & Ho2 & -> & Hn2)%non_terminal_list_spec)%list_elem_of_fmap.
      destruct (buildOperation_fields (w_db w) o2) as (Hid & _). rewrite Hid, (Hwf _ _ Ho2) in Ho. congruence.
Qed.
(** ... so nothing recovered is stale any more. *)
Lemma recovered_not_stale opts now o o' : recovered opts now o o' → stale opts now o' = None.
Proof.
  unfold recovered. destruct (stale opts now o) as [[status reason]|] eqn:Hs; [|by intros ->].
  intros [n ->]. destruct (stale_edge _ _ _ _ _ Hs) as [_ Ht]. unfold stale. simpl. by destruct status.
Qed.

Definition with_deadline (deadline : option time) (o : Operation) : Operation :=
  {| op_ID := op_ID o; op_OperationType := op_OperationType o; op_Status := op_Status o;
     op_ReleaseDefinitionID := op_ReleaseDefinitionID o; op_IdempotencyKey := op_IdempotencyKey o;
     op_IdempotencyScope := op_IdempotencyScope o; op_RequestHash := op_RequestHash o; op_StateVersion := op_StateVersion o;
     op_BundleID := op_BundleID o; op_BundleChartRef := op_BundleChartRef o; op_BundleChartDigest := op_BundleChartDigest o;
     op_ImageRefsJSON := op_ImageRefsJSON o; op_ImageDigestsJSON := op_ImageDigestsJSON o;
     op_PolicyVersion := op_PolicyVersion o; op_ValuesRevisionID := op_ValuesRevisionID o;
     op_ExpectedRevision := op_ExpectedRevision o; op_TargetRevision := op_TargetRevision o;
     op_TargetOperationID := op_TargetOperationID o; op_ValuesPatch := op_ValuesPatch o; op_PatchDigest := op_PatchDigest o;
     op_EffectiveValuesDigest := op_EffectiveValuesDigest o; op_Reason := op_Reason o; op_Actor := op_Actor o;
     op_LastError := op_LastError o; op_CreatedAt := op_CreatedAt o; op_UpdatedAt := op_UpdatedAt o;
     op_Deadline := deadline; op_TerminalAt := op_TerminalAt o; op_EffectStatus := op_EffectStatus o |}.
(** At second 1000: one operation past its deadline, one whose cancellation is
    stale since second 100, one still in time. *)
Definition restart_db : DB :=
  db_with_ops [with_deadline (Some (900 * nsec)) (sample_op "late" "d1" "k1" OperationInstall StatusRunning 3);
               sample_op "stuck" "d2" "k2" OperationInstall StatusCancelling 5;
               with_deadline (Some (990 * nsec)) (sample_op "fine" "d3" "k3" OperationInstall StatusQueued 2)].
Lemma RecoverNonTerminal_exact_witness :
  ∃ w' late stuck fine, RecoverNonTerminal DefaultRecoverOptions (sample_world restart_db) = (Ok 2, w') ∧
    db_operations (w_db w') !! "late" = Some late ∧ op_Status late = StatusTimeout ∧
    op_LastError late = "deadline exceeded: 0001-01-01T00:15:00Z" ∧
    db_operations (w_db w') !! "stuck" = Some stuck ∧ op_Status stuck = StatusFailed ∧
    db_operations (w_db w') !! "fine" = Some fine ∧ op_StateVersion fine = 2.
Proof.
  destruct (RecoverNonTerminal_exact DefaultRecoverOptions (sample_world restart_db)) as (w' & E & _ & _ & H).
  { apply sample_able; [apply sample_env; [done|done|by intros []]|]. intros id o Ho. unfold restart_db, db_with_ops in Ho. simpl in Ho.
    repeat (apply lookup_insert_Some in Ho as [[<- <-]|[_ Ho]]; [done|]). by rewrite lookup_empty in Ho. }
  assert (Hc : stale_count DefaultRecoverOptions (1000 * nsec) (non_terminal_list restart_db) = 2%nat) by (vm_compute; reflexivity).
  change (RecoverNonTerminal DefaultRecoverOptions (sample_world restart_db)
    = (Ok (Z.of_nat (stale_count DefaultRecoverOptions (1000 * nsec) (non_terminal_list restart_db))), w')) in E. rewrite Hc in E.
  destruct (H "late"%string _ eq_refl) as (late & Hlate & [n1 ->]).
  destruct (H "stuck"%string _ eq_refl) as (stuck & Hstuck & [n2 ->]).
  destruct (H "fine"%string _ eq_refl) as (fine & Hfine & ->).
  eexists w', _, _, _. split; [exact E|]. split; [exact Hlate|]. split; [reflexivity|]. split; [vm_compute; reflexivity|].
  split; [exact Hstuck|]. split; [reflexivity|]. split; [exact Hfine|reflexivity].
Defined.
