(* ===== verification/Delivery.v ===== *)
(** * Command delivery and command results (internal/operator/service.go)

    The control-plane side of an operator's command stream: which pending row is
    delivered next and under which fence, redelivery on reconnect, and what an
    acknowledgement or a result does to the operation.  Log lines and metrics are
    not modelled.  Section variables stand for what is outside the store: the
    transport ([send_error]), and the generated protobuf messages that
    DecodeCommandPayload and protojson fill or print. *)
From stdpp Require Import pretty.
From S2P Require Import Prelude Utf8 Json Redact Domain Lifecycle Database Timeline Idempotency Outbox OperationStore EmergencyStore Creation System Progress Recovery.
#[local] Open Scope Z_scope.

(** [if _, err := m; err != nil { log }] *)
Definition logged {A} (m : SM A) : SM unit := catch m (λ _, ret tt).

(** ** The delivery fence *)
Inductive fenceDeliveryDecision : Type := fenceDeliveryAllow | fenceDeliveryHold | fenceDeliveryRefuse.
Definition isReleaseWriteDispatch (entry : OutboxEntry) : bool :=
  negb (bool_decide (ob_OperationID entry = "")) && bool_decide (ob_CommandID entry = ob_OperationID entry ++ ":execute")%string.
Definition fence_reason (detail : string) : string :=
  ("{" ++ quoted "code" ++ ":" ++ quoted "delivery_fenced" ++ "," ++ quoted "detail" ++ ":" ++ quoted detail ++ "}")%string.
Definition fenceDelivery (entry : OutboxEntry) : SM (fenceDeliveryDecision * string) :=
  if negb (isReleaseWriteDispatch entry) then ret (fenceDeliveryAllow, ""%string)
  else
    catch (Get_operation (ob_OperationID entry)) (λ r,
      match r with
      | Err _ => ret (fenceDeliveryRefuse, fence_reason "operation_not_found")
      | Ok op =>
          match op_Status op with
          | StatusQueued | StatusRunning => ret (fenceDeliveryAllow, ""%string)
          | StatusPending | StatusPreflight => ret (fenceDeliveryHold, ""%string)
          | status => ret (fenceDeliveryRefuse, fence_reason ("operation_" ++ status_string status))
          end
      end).

(** ** One delivery poll *)
Definition with_sequence (sequence : Z) (e : OutboxEntry) : OutboxEntry :=
  {| ob_ID := ob_ID e; ob_CommandID := ob_CommandID e; ob_OperationID := ob_OperationID e;
     ob_OperationType := ob_OperationType e; ob_OperatorID := ob_OperatorID e; ob_Payload := ob_Payload e;
     ob_Status := ob_Status e; ob_MaxInFlight := ob_MaxInFlight e; ob_Sequence := sequence;
     ob_ResultJSON := ob_ResultJSON e; ob_CreatedAt := ob_CreatedAt e; ob_UpdatedAt := ob_UpdatedAt e;
     ob_DeliveredAt := ob_DeliveredAt e; ob_AckedAt := ob_AckedAt e |}.
(** The sequence number a row is handed over with: [None] when it cannot be assigned. *)
Definition assign_sequence (entry : OutboxEntry) : SM (option OutboxEntry) :=
  if negb (ob_Sequence entry =? 0) then ret (Some entry)
  else
    catch GetNextSequence (λ r,
      match r with
      | Err _ => ret None
      | Ok seq =>
          catch (UpdateStatus_outbox (ob_ID entry) CommandPending "") (λ r,
            ret (match r with Ok _ => Some (with_sequence seq entry) | Err _ => None end))
      end).
(** deliverNextPending: the entry handed to the delivery channel, and whether
    the stream closed; [open] says which case of the final select was taken. *)
Definition hand_over (entry : OutboxEntry) (open : bool) : SM (option OutboxEntry * bool) :=
  let! sequenced := assign_sequence entry in
  ret (match sequenced with
       | Some entry => if open then (Some entry, false) else (None, true)
       | None => (None, false)
       end).
Definition deliver_entry (entry : OutboxEntry) (open : bool) : SM (option OutboxEntry * bool) :=
  let! fence := fenceDelivery entry in
  match fence.1 with
  | fenceDeliveryRefuse =>
      logged (UpdateStatus_outbox (ob_ID entry) CommandFailed fence.2) ;! ret (None, false)
  | fenceDeliveryHold => ret (None, false)
  | fenceDeliveryAllow => hand_over entry open
  end.
Definition deliverNextPending (operatorID : string) (open : bool) : SM (option OutboxEntry * bool) :=
  catch (GetInflightForOperator operatorID) (λ inflight,
    match inflight with
    | Ok _ => ret (None, false)
    | Err e =>
        if negb (bool_decide (e = ErrNotFound)) then ret (None, false)
        else
          catch (GetNextPending operatorID) (λ next,
            match next with
            | Err _ => ret (None, false)
            | Ok entry => deliver_entry entry open
            end)
    end).

(** ** The stream: sending and redelivery *)
Inductive server_message : Type :=
| CommandMessage (entry : OutboxEntry)
| DuplicateResponse (commandID resultJSON : string)
| ResyncRequest (orchestratorLastSequence : Z) (reason : string).
(** The store and what has been sent so far. *)
Record Stream := { st_world : World; st_sent : list server_message }.
Abbreviation StreamM := (M Stream error).
Definition on_store {A} (m : SM A) : StreamM A := λ s,
  let (r, w') := m (st_world s) in (r, {| st_world := w'; st_sent := st_sent s |}).

Section stream.
Variable send_error : server_message → option error.
Variable decodes : option string → bool.
Definition send (m : server_message) : StreamM unit :=
  match send_error m with
  | Some e => throw e
  | None => modify (λ s, {| st_world := st_world s; st_sent := st_sent s ++ [m] |})
  end.
Definition sendCommand (entry : OutboxEntry) : StreamM unit :=
  if decodes (ob_Payload entry) then send (CommandMessage entry) else throw (ErrOther "decode command payload").
(** The [entry := <-deliverCh] case of CommandStream. *)
Definition deliver_command (entry : OutboxEntry) : StreamM unit :=
  sendCommand entry ;!
  on_store (UpdateStatus_outbox (ob_ID entry) CommandDelivered "").
Fixpoint redeliver_loop (fromSeq : Z) (entries : list OutboxEntry) : StreamM unit :=
  match entries with
  | [] => ret tt
  | entry :: entries' =>
      (if ob_Sequence entry <=? fromSeq then ret tt
       else if bool_decide (ob_Status entry = CommandSucceeded) || bool_decide (ob_Status entry = CommandFailed)
       then send (DuplicateResponse (ob_CommandID entry) (ob_ResultJSON entry))
       else deliver_command entry) ;!
      redeliver_loop fromSeq entries'
  end.
Definition reDeliverFrom (operatorID : string) (fromSeq : Z) : StreamM unit :=
  let! entries := on_store (GetDeliveredNotAcked operatorID) in
  redeliver_loop fromSeq entries.
Definition handleReconnect (operatorID : string) (lastSeenSeq : Z) : StreamM unit :=
  catch (on_store GetNextSequence) (λ r,
    match r with
    | Err _ => ret tt
    | Ok next =>
        let maxSeq := if 0 <? next then next - 1 else next in
        if (0 <? lastSeenSeq) && (lastSeenSeq <? maxSeq) then
          send (ResyncRequest maxSeq ("gap: operator has " ++ pretty lastSeenSeq ++ ", orchestrator has " ++ pretty maxSeq))
        else reDeliverFrom operatorID lastSeenSeq
    end).
End stream.

(** ** Results of standard commands *)
Definition beginQueuedOperation (op : Operation) : SM (Operation * OperationStatus) :=
  match Transition (op_Status op) EventBegin with
  | Err _ => throw (ErrOther "invalid state transition")
  | Ok next =>
      let! op := UpdateStatus_operation (op_ID op) next (op_StateVersion op) "" in
      ret (op, next)
  end.
Definition finishPendingOperation (op : Operation) (resultStatus resultJSON : string) : SM unit :=
  if negb (bool_decide (resultStatus = "failed")) then ret tt
  else logged (UpdateStatus_operation (op_ID op) StatusFailed (op_StateVersion op) resultJSON).
(** [json.Unmarshal(resultJSON, &parsed)] and one of the two cancellation codes *)
Definition acknowledges_cancel (resultJSON : string) : bool :=
  match parse_json resultJSON ≫= decode_struct1 "code" with
  | Some code => bool_decide (code = "cancelled") || bool_decide (code = "helm_cancelled")
  | None => false
  end.
Definition finishCancellingOperation (op : Operation) (resultJSON : string) : SM unit :=
  let event := if acknowledges_cancel resultJSON then EventAcknowledgeCancel else EventError in
  match Transition (op_Status op) event with
  | Err _ => ret tt
  | Ok next =>
      let lastError := if bool_decide (event = EventError) then resultJSON else "" in
      logged (UpdateStatus_operation (op_ID op) next (op_StateVersion op) lastError)
  end.
Definition finishTerminalOperation (op : Operation) (current : OperationStatus) (resultStatus resultJSON : string) : SM unit :=
  let failed := bool_decide (resultStatus = "failed") in
  match Transition current (if failed then EventError else EventComplete) with
  | Err _ => ret tt
  | Ok next => logged (UpdateStatus_operation (op_ID op) next (op_StateVersion op) (if failed then resultJSON else ""))
  end.
Definition finish_live (op : Operation) (current : OperationStatus) (resultStatus resultJSON : string) : SM unit :=
  if bool_decide (current = StatusCancelling) then finishCancellingOperation op resultJSON
  else finishTerminalOperation op current resultStatus resultJSON.
Definition FinishOperation (operationID resultStatus resultJSON : string) : SM unit :=
  catch (Get_operation operationID) (λ r,
    match r with
    | Err _ => ret tt
    | Ok op =>
        match op_Status op with
        | StatusPreflight => ret tt
        | StatusPending => finishPendingOperation op resultStatus resultJSON
        | StatusQueued =>
            catch (beginQueuedOperation op) (λ begun,
              match begun with
              | Err _ => ret tt
              | Ok (op, current) => finish_live op current resultStatus resultJSON
              end)
        | current => finish_live op current resultStatus resultJSON
        end
    end).

(** ** Typed upgrade results *)
Inductive Code : Type := CodeInvalidArgument | CodeInternal | CodeAborted.
(** connect.NewError *)
Inductive rpc_error : Type := NewError (code : Code) (cause : error).
Record ActiveSnapshot := {
  as_HelmRevision : Z; as_BundleDigest : string; as_ChartDigest : string; as_EffectiveValuesDigest : string;
  as_ManifestDigest : string; as_Status : string;
}.
Record UpgradeResult := { ur_Active : option ActiveSnapshot; ur_ResourceCount : Z }.
Record CommandResult := {
  cres_CommandID : string; cres_OperationID : string; cres_Status : string;
  cres_ErrorCode : string; cres_Upgrade : option UpgradeResult;
}.
Definition InventoryActive : string := "active".
Definition InventoryOutOfSync : string := "out_of_sync".
Definition terminalMapping (result : CommandResult) : OperationStatus * string * string :=
  let code := cres_ErrorCode result in
  if bool_decide (cres_Status result = "succeeded") then (StatusSucceeded, ""%string, InventoryActive)
  else if bool_decide (code = "atomic_rollback_failed") then (StatusFailed, code, InventoryOutOfSync)
  else if bool_decide (code = "helm_cancelled") then (StatusCancelled, code, InventoryActive)
  else if bool_decide (code = "helm_timeout") then (StatusTimeout, code, InventoryActive)
  else (StatusFailed, code, InventoryActive).

Abbreviation RPC := (M World rpc_error).
(** Run a store method and wrap its error. *)
Definition rpc {A} (wrap : error → rpc_error) (m : SM A) : RPC A := λ w,
  match m w with
  | (Ok a, w') => (Ok a, w')
  | (Err e, w') => (Err (wrap e), w')
  end.
Definition loadResultOperation (result : option CommandResult) : RPC (option Operation) :=
  match result with
  | None => throw (NewError CodeInvalidArgument (ErrOther "command_result identifiers are required"))
  | Some result =>
      if bool_decide (cres_OperationID result = "") || bool_decide (cres_CommandID result = "")
      then throw (NewError CodeInvalidArgument (ErrOther "command_result identifiers are required"))
      else
        let! op := rpc (NewError CodeInternal) (Get_operation (cres_OperationID result)) in
        if IsTerminal (op_Status op) then ret None
        else if bool_decide (op_Status op = StatusQueued) then
          let! op := rpc (NewError CodeAborted) (UpdateStatus_operation (op_ID op) StatusRunning (op_StateVersion op) "") in
          ret (Some op)
        else ret (Some op)
  end.
Definition Get_definition (id : string) : SM ReleaseDefinition :=
  let! row := query (λ db, db_release_definitions db !! id) in scan_row row.
(** A cancellation that was committed wins over a late success. *)
Definition cancel_wins (status : OperationStatus) (mapped : OperationStatus * string) : OperationStatus * string :=
  if bool_decide (status = StatusCancelling) && bool_decide (mapped.1 = StatusSucceeded)
  then (StatusFailed, "cancellation committed before the upgrade result arrived"%string) else mapped.
Definition finalize_error (e : error) : rpc_error :=
  NewError (if errors_Is e ErrOptimisticLock then CodeAborted else CodeInternal) e.

Section typed_results.
(** protojson.Marshal of the generated message *)
Variable marshal_upgrade : UpgradeResult → string + error.
Definition terminal_input (op : Operation) (definition : ReleaseDefinition) (upgrade : UpgradeResult)
    (status : OperationStatus) (lastError payload inventoryStatus : string) : UpgradeTerminalInput :=
  let get {A} (f : ActiveSnapshot → A) (zero : A) : A := match ur_Active upgrade with Some a => f a | None => zero end in
  {| ui_OperationID := op_ID op; ui_ExpectedStateVersion := op_StateVersion op; ui_Status := status;
     ui_LastError := lastError; ui_ResultPayload := payload; ui_ReleaseDefinitionID := op_ReleaseDefinitionID op;
     ui_CustomerID := rd_CustomerID definition; ui_ClusterID := rd_ClusterID definition;
     ui_UpdateInventory := bool_decide (is_Some (ur_Active upgrade)); ui_Revision := get as_HelmRevision 0;
     ui_ObservedBundleDigest := get as_BundleDigest ""%string; ui_ObservedChartDigest := get as_ChartDigest ""%string;
     ui_ObservedEffectiveValuesDigest := get as_EffectiveValuesDigest ""%string;
     ui_ObservedManifestDigest := get as_ManifestDigest ""%string; ui_LiveStatus := get as_Status ""%string;
     ui_InventoryStatus := inventoryStatus; ui_ResourceCount := ur_ResourceCount upgrade |}.
Definition finalize_result (op : Operation) (result : CommandResult) : RPC unit :=
  let! definition := rpc (NewError CodeInternal) (Get_definition (op_ReleaseDefinitionID op)) in
  match cres_Upgrade result with
  | None => throw (NewError CodeInvalidArgument (ErrOther "upgrade result is required"))
  | Some upgrade =>
      if bool_decide (ur_Active upgrade = None) && bool_decide (cres_Status result = "succeeded")
      then throw (NewError CodeInvalidArgument (ErrOther "successful upgrade result requires active snapshot"))
      else
        let '(status, lastError, inventoryStatus) := terminalMapping result in
        let outcome := cancel_wins (op_Status op) (status, lastError) in
        match marshal_upgrade upgrade with
        | inr e => throw (NewError CodeInternal e)
        | inl payload =>
            rpc finalize_error
              (FinalizeUpgrade (terminal_input op definition upgrade outcome.1 outcome.2 payload inventoryStatus))
        end
  end.
Definition HandleCommandResult (result : option CommandResult) : RPC unit :=
  let! op := loadResultOperation result in
  match op, result with
  | Some op, Some result => finalize_result op result
  | _, _ => ret tt
  end.
End typed_results.

(** ** EMERGENCY acknowledgements and results *)

(** The [req.GetEmergencyAck()] case of CommandStream for ACK_TYPE_PERSISTED. *)
Definition emergency_ack (commandID : string) : SM unit :=
  catch (GetByCommandID_intent commandID) (λ r,
    match r with
    | Err _ => ret tt
    | Ok intent =>
        logged (PersistAck_emergency (ei_ID intent)) ;!
        catch (Get_operation (ei_OperationID intent)) (λ r,
          match r with
          | Ok op =>
              if bool_decide (op_Status op = StatusQueued)
              then logged (UpdateStatus_operation (op_ID op) StatusRunning (op_StateVersion op) "")
              else ret tt
          | Err _ => ret tt
          end)
    end).

Record EmergencyResult := {
  eres_EmergencyCommandID : string; eres_ResultJSON : string; eres_Status : string;
  eres_ErrorCode : string; eres_Message : string;
}.
(** A [json.RawMessage] field of the snapshots struct: the last matching key wins. *)
Fixpoint raw_field (name : string) (fields : list (string * json)) (acc : raw) : raw :=
  match fields with
  | [] => acc
  | (key, v) :: fields' => raw_field name fields' (if key_matches name key then RawJson v else acc)
  end.
Definition snapshot (name resultJSON : string) : raw :=
  match parse_json resultJSON with
  | Some (JObj fields) => raw_field name fields RawEmpty
  | _ => RawEmpty
  end.
Definition emergency_outcome (result : EmergencyResult) : OperationStatus * EmergencyEffectStatus * string :=
  if bool_decide (eres_Status result = "failed")
  then (StatusFailed, EmergencyEffectNotApplied,
        if bool_decide (eres_ErrorCode result = "") then eres_Message result else eres_ErrorCode result)
  else (StatusSucceeded, EmergencyEffectApplied, ""%string).
Definition converge_command (intent : EmergencyIntent) (result : EmergencyResult) (op : Operation) : EmergencyConvergeCommand :=
  let '(status, effect, lastError) := emergency_outcome result in
  {| vc_IntentID := ei_ID intent; vc_OperationID := op_ID op; vc_ExpectedStateVersion := op_StateVersion op;
     vc_Status := status; vc_EffectStatus := effect; vc_LastError := lastError;
     vc_BeforeSnapshot := snapshot "before" (eres_ResultJSON result); vc_AfterSnapshot := snapshot "after" (eres_ResultJSON result);
     vc_RequestID := eres_EmergencyCommandID result |}.
Definition maxAttempts : nat := 3.
Fixpoint converge_attempts (attempts : nat) (intent : EmergencyIntent) (result : EmergencyResult) (op : Operation) : SM unit :=
  match attempts with
  | O => ret tt
  | S more =>
      catch (ConvergeEmergencyResult (converge_command intent result op)) (λ r,
        match r with
        | Ok _ => ret tt
        | Err e =>
            if errors_Is e ErrOptimisticLock && negb (Nat.eqb more 0) then
              catch (Get_operation (ei_OperationID intent)) (λ r,
                match r with
                | Ok op => converge_attempts more intent result op
                | Err _ => ret tt
                end)
            else ret tt
        end)
  end.
Definition finishEmergencyResult (result : EmergencyResult) : SM unit :=
  catch (GetByCommandID_intent (eres_EmergencyCommandID result)) (λ r,
    match r with
    | Err _ => ret tt
    | Ok intent =>
        catch (Get_operation (ei_OperationID intent)) (λ r,
          match r with
          | Err _ => ret tt
          | Ok op => converge_attempts maxAttempts intent result op
          end)
    end).

(** ** The delivery poll, case by case *)

(** What the fence says about a row, read off the tables. *)
Definition fence_verdict (db : DB) (entry : OutboxEntry) : fenceDeliveryDecision * string :=
  if negb (isReleaseWriteDispatch entry) then (fenceDeliveryAllow, ""%string)
  else
    match db_operations db !! ob_OperationID entry with
    | None => (fenceDeliveryRefuse, fence_reason "operation_not_found")
    | Some op =>
        match op_Status op with
        | StatusQueued | StatusRunning => (fenceDeliveryAllow, ""%string)
        | StatusPending | StatusPreflight => (fenceDeliveryHold, ""%string)
        | status => (fenceDeliveryRefuse, fence_reason ("operation_" ++ status_string status))
        end
    end.
Lemma fenceDelivery_verdict entry w : fenceDelivery entry w = (Ok (fence_verdict (w_db w) entry), w).
Proof.
  unfold fenceDelivery, fence_verdict, catch, Get_operation, getOperation, lookup_operation, bind, query, gets.
  destruct (negb _); [done|]. simpl. destruct (db_operations (w_db w) !! _) as [op|]; [|done]. simpl.
  destruct (buildOperation_fields (w_db w) op) as (_ & -> & _). by destruct (op_Status op).
Qed.

Definition mark_outbox (id : string) (status : CommandStatus) (resultJSON : string) (n : time) (db : DB) : DB :=
  set_outbox (update_where (λ e, bool_decide (ob_ID e = id)) (set_outbox_status status resultJSON n) (db_outbox db)) db.
Lemma UpdateStatus_outbox_ok id status resultJSON w :
  calm w → ∃ n w', UpdateStatus_outbox id status resultJSON w = (Ok tt, w') ∧ calm w' ∧
    w_db w' = mark_outbox id status resultJSON n (w_db w).
Proof.
  intros Hc. unfold UpdateStatus_outbox, nowUTC, autocommit, commit, run_tx, bind, now, ret, exec, modify. simpl.
  rewrite (Hc 0%nat). do 2 eexists. split; [done|]. split; [intros n; apply Hc|done].
Qed.

Definition in_flight (operatorID : string) (db : DB) : option OutboxEntry :=
  head (outbox_in_order (λ e, bool_decide (ob_OperatorID e = operatorID) && is_inflight (ob_Status e)) db).
Definition next_pending (operatorID : string) (db : DB) : option OutboxEntry :=
  head (outbox_in_order (is_pending_for operatorID) db).

(** One delivery poll.  Nothing happens while a command of the operator is
    in flight or none is pending.  Otherwise the head pending row is judged by
    the fence: a release write whose operation is queued or running, and every
    other command, is handed over (with the next sequence number if it has none);
    one whose operation has not queued yet stays pending; one whose operation is
    unknown, cancelling or terminal is failed with the reason, so it leaves the
    queue. *)
Theorem deliverNextPending_exact operatorID open w :
  calm w →
  let db := w_db w in
  match in_flight operatorID db, next_pending operatorID db with
  | Some _, _ | None, None => deliverNextPending operatorID open w = (Ok (None, false), w)
  | None, Some e =>
      match fence_verdict db e with
      | (fenceDeliveryHold, _) => deliverNextPending operatorID open w = (Ok (None, false), w)
      | (fenceDeliveryRefuse, reason) =>
          ∃ n w', deliverNextPending operatorID open w = (Ok (None, false), w') ∧
            w_db w' = mark_outbox (ob_ID e) CommandFailed reason n db
      | (fenceDeliveryAllow, _) =>
          ∃ n w', let handed := if ob_Sequence e =? 0 then with_sequence (next_sequence db) e else e in
            deliverNextPending operatorID open w = (Ok (if open then (Some handed, false) else (None, true)), w') ∧
            w_db w' = if ob_Sequence e =? 0 then mark_outbox (ob_ID e) CommandPending "" n db else db
      end
  end.
Proof.
  intros Hc db.
  assert (Hin : deliverNextPending operatorID open w =
    match in_flight operatorID db, next_pending operatorID db with
    | None, Some e => deliver_entry e open w
    | _, _ => (Ok (None, false), w)
    end).
  { unfold deliverNextPending, catch, GetInflightForOperator, GetNextPending, bind, query, gets, in_flight, next_pending. fold db.
    destruct (head (outbox_in_order _ db)); simpl; [done|].
    change (w_db w) with db. by destruct (head (outbox_in_order (is_pending_for operatorID) db)). }
  rewrite Hin. clear Hin. destruct (in_flight operatorID db); [done|]. destruct (next_pending operatorID db) as [e|]; [|done].
  unfold deliver_entry, bind. rewrite fenceDelivery_verdict. fold db.
  destruct (fence_verdict db e) as [[] reason]; simpl; [|done|].
  - unfold hand_over, assign_sequence, bind, catch, GetNextSequence, query, gets. destruct (ob_Sequence e =? 0); simpl.
    + destruct (UpdateStatus_outbox_ok (ob_ID e) CommandPending "" w Hc) as (n & w' & E & _ & Hdb). rewrite E.
      exists n, w'. split; [by destruct open|exact Hdb].
    + exists 0, w. split; [by destruct open|done].
  - unfold logged, catch. destruct (UpdateStatus_outbox_ok (ob_ID e) CommandFailed reason w Hc) as (n & w' & E & _ & Hdb).
    rewrite E. exists n, w'. split; [done|exact Hdb].
Qed.

(** ** Sequence numbers never reach the outbox *)

(** Rows as the orchestrator creates them: no caller sets a sequence number. *)
Definition unsequenced (db : DB) : Prop := ∀ e, e ∈ db_outbox db → ob_Sequence e = 0.
Abbreviation keeps_sequences := (on_table (λ db, ob_Sequence <$> db_outbox db) eq).

Lemma exec_outbox_sequences p f :
  (∀ e, ob_Sequence (f e) = ob_Sequence e) →
  preserves (db_rel keeps_sequences) (exec (λ db, set_outbox (update_where p f (db_outbox db)) db)).
Proof.
  intros Hf. apply preserves_exec. intros db. unfold on_table. simpl. symmetry. apply update_where_fmap. auto.
Qed.
Lemma UpdateStatus_outbox_sequences id status resultJSON :
  preserves (db_rel keeps_sequences) (UpdateStatus_outbox id status resultJSON).
Proof. unfold UpdateStatus_outbox. db_preserve. by apply exec_outbox_sequences. Qed.
Lemma PersistAck_sequences id : preserves (db_rel keeps_sequences) (PersistAck id).
Proof.
  unfold PersistAck, persist_ack, persistAckTx. db_preserve.
  match goal with |- preserves _ (exec (ack_persist _ _ ?n)) => by apply (exec_outbox_sequences (awaits_ack id) (ack_outbox_row n)) end.
Qed.
Lemma unsequenced_kept db db' : keeps_sequences db db' → unsequenced db → unsequenced db'.
Proof.
  unfold on_table. intros H Hu e He. apply (list_elem_of_fmap_2 ob_Sequence) in He. rewrite <- H in He.
  apply list_elem_of_fmap in He as (e0 & -> & He0). by apply Hu.
Qed.
Lemma outbox_in_order_elem p db e : e ∈ outbox_in_order p db ↔ e ∈ db_outbox db ∧ p e = true.
Proof. unfold outbox_in_order. rewrite merge_sort_Permutation, list_elem_of_filter. tauto. Qed.
Lemma next_sequence_unsequenced db e : unsequenced db → e ∈ db_outbox db → next_sequence db = 1.
Proof.
  unfold next_sequence. intros Hu He. destruct (db_outbox db) as [|x l] eqn:El; [by apply not_elem_of_nil in He|].
  rewrite fmap_cons, (Hu x) by (rewrite El; left). cut (foldr Z.max 0 (ob_Sequence <$> l) = 0); [by intros ->|].
  assert (H : ∀ y, y ∈ l → ob_Sequence y = 0) by (intros y Hy; apply Hu; rewrite El; by right).
  clear -H. induction l as [|y l IH]; [done|]. rewrite fmap_cons. simpl foldr. rewrite (H y) by left.
  rewrite IH; [done|]. intros z Hz. apply H. by right.
Qed.
Lemma redeliver_nothing send_error decodes fromSeq entries s :
  (∀ e, e ∈ entries → ob_Sequence e ≤ fromSeq) → redeliver_loop send_error decodes fromSeq entries s = (Ok tt, s).
Proof.
  intros H. induction entries as [|e l IH]; [done|]. simpl. unfold bind at 1.
  rewrite (proj2 (Z.leb_le _ _)) by (apply H; left). unfold ret at 1. apply IH. intros x Hx. apply H. by right.
Qed.

(** A successful hand-over started from the head of the pending rows. *)
Lemma deliverNextPending_Some operatorID open e closed w w' :
  deliverNextPending operatorID open w = (Ok (Some e, closed), w') →
  in_flight operatorID (w_db w) = None ∧
  ∃ row, next_pending operatorID (w_db w) = Some row ∧ hand_over row open w = (Ok (Some e, closed), w').
Proof.
  unfold deliverNextPending, catch, GetInflightForOperator, GetNextPending, bind, query, gets, in_flight, next_pending.
  destruct (head (outbox_in_order _ (w_db w))); simpl; [intros [= ]|].
  destruct (head (outbox_in_order (is_pending_for operatorID) (w_db w))) as [row|]; simpl; [|intros [= ]].
  unfold deliver_entry, bind. rewrite fenceDelivery_verdict. destruct (fence_verdict (w_db w) row) as [[] reason]; simpl.
  - intros H. split; [done|]. by exists row.
  - intros [= ].
  - unfold logged, catch. by destruct (UpdateStatus_outbox _ _ _ _) as [[] ?].
Qed.
Lemma hand_over_sequence row e open closed w w' :
  ob_Sequence row = 0 → hand_over row open w = (Ok (Some e, closed), w') → ob_Sequence e = next_sequence (w_db w).
Proof.
  unfold hand_over, assign_sequence, bind, catch, GetNextSequence, query, gets. intros ->. simpl.
  destruct (UpdateStatus_outbox _ _ _ _) as [[u|err] w1]; simpl; [|by intros [=]]. destruct open; [by intros [= <- _ _]|by intros [=]].
Qed.
Lemma next_pending_elem operatorID db row : next_pending operatorID db = Some row → row ∈ db_outbox db.
Proof.
  unfold next_pending. intros H. apply (outbox_in_order_elem (is_pending_for operatorID)).
  destruct (outbox_in_order _ db) as [|x l]; [done|]. injection H as ->. left.
Qed.

(** A delivered command that was never acknowledged is lost.  The delivery
    poll computes a sequence number but no store call writes it: delivery, status
    updates and acknowledgements keep every row's sequence.  So the rows keep the
    sequence 0 they are created with, every handed-over command carries the
    sequence 1, and, while a command of the operator is in flight, a reconnect
    (from any last-seen sequence) requests no resync and sends nothing, and
    every delivery poll hands over nothing: the operator's queue stays blocked
    until the result of that very command arrives. *)
Theorem delivered_command_lost operatorID w :
  (∀ open, on_table (λ db, ob_Sequence <$> db_outbox db) eq (w_db w) (w_db (deliverNextPending operatorID open w).2)) ∧
  (∀ id status resultJSON, on_table (λ db, ob_Sequence <$> db_outbox db) eq (w_db w) (w_db (UpdateStatus_outbox id status resultJSON w).2)) ∧
  (∀ id, on_table (λ db, ob_Sequence <$> db_outbox db) eq (w_db w) (w_db (PersistAck id w).2)) ∧
  (unsequenced (w_db w) →
   (∀ open e closed w', deliverNextPending operatorID open w = (Ok (Some e, closed), w') → ob_Sequence e = 1) ∧
   ∀ e, e ∈ db_outbox (w_db w) → ob_OperatorID e = operatorID → is_inflight (ob_Status e) = true →
     (∀ send_error decodes lastSeenSeq sent, 0 ≤ lastSeenSeq →
        handleReconnect send_error decodes operatorID lastSeenSeq {| st_world := w; st_sent := sent |}
          = (Ok tt, {| st_world := w; st_sent := sent |})) ∧
     ∀ open, deliverNextPending operatorID open w = (Ok (None, false), w)).
Proof.
  assert (Hdel : ∀ open, preserves (db_rel keeps_sequences) (deliverNextPending operatorID open)).
  { intros open. unfold deliverNextPending, deliver_entry, hand_over, assign_sequence, fenceDelivery, logged, GetInflightForOperator,
      GetNextPending, Get_operation, GetNextSequence. db_preserve; by apply UpdateStatus_outbox_sequences. }
  assert (Hrun : ∀ A (m : SM A), preserves (db_rel keeps_sequences) m → keeps_sequences (w_db w) (w_db (m w).2)).
  { intros A m Hm. destruct (m w) as [r w'] eqn:E. exact (Hm _ _ _ E). }
  split_and!; [intros open; by apply Hrun|intros; by apply Hrun, UpdateStatus_outbox_sequences|intros; by apply Hrun, PersistAck_sequences|].
  intros Hu. split.
  - intros open e closed w' H. apply deliverNextPending_Some in H as (_ & row & Hrow & H). apply next_pending_elem in Hrow.
    rewrite (hand_over_sequence row e open closed w w' (Hu _ Hrow) H). by apply (next_sequence_unsequenced _ row).
  - intros e He Hop Hfl. split.
    + intros send_error decodes last sent Hlast. unfold handleReconnect, catch, on_store, GetNextSequence, query, gets. simpl.
      rewrite (next_sequence_unsequenced _ e Hu He). simpl.
      replace ((0 <? last) && (last <? 1 - 1)) with false
        by (destruct (0 <? last); [|done]; symmetry; apply Z.ltb_ge; lia).
      unfold reDeliverFrom, on_store, bind, GetDeliveredNotAcked, query, gets. simpl.
      apply redeliver_nothing. intros x Hx. apply outbox_in_order_elem in Hx as [Hx _]. by rewrite (Hu x Hx).
    + intros open. unfold deliverNextPending, catch, GetInflightForOperator, bind, query, gets.
      destruct (head (outbox_in_order _ _)) eqn:Eh; [done|].
      exfalso. unfold outbox_in_order in Eh. apply head_merge_sort_None in Eh.
      eapply not_elem_of_nil. rewrite <- Eh. apply list_elem_of_filter. split; [|exact He]. by rewrite Hfl, bool_decide_true.
Qed.
Definition lost_world : World :=
  sample_world (set_outbox [sample_entry "op1:execute" "op1" CommandDelivered 0; sample_entry "x2" "sync" CommandPending 0]
    (db_with_ops [sample_op "op1" "d1" "k1" OperationInstall StatusRunning 3])).
(** "x2" is pending, and blocked by the delivered "op1:execute". *)
Lemma delivered_command_lost_witness :
  handleReconnect (λ _, None) (λ _, true) "o1" 7 {| st_world := lost_world; st_sent := [] |}
    = (Ok tt, {| st_world := lost_world; st_sent := [] |}) ∧
  deliverNextPending "o1" true lost_world = (Ok (None, false), lost_world).
Proof.
  destruct (delivered_command_lost "o1" lost_world) as (_ & _ & _ & H). destruct H as [_ H].
  { intros e He. repeat (apply elem_of_cons in He as [->|He]; [reflexivity|]). by apply not_elem_of_nil in He. }
  destruct (H (sample_entry "op1:execute" "op1" CommandDelivered 0)) as [H1 H2]; [left|reflexivity|reflexivity|].
  split; [apply H1; discriminate|apply H2].
Defined.
Lemma deliverNextPending_exact_witness :
  let w := sample_world (set_outbox [sample_entry "op1:execute" "op1" CommandPending 0]
    (db_with_ops [sample_op "op1" "d1" "k1" OperationInstall StatusCancelled 4])) in
  ∃ n w', deliverNextPending "o1" true w = (Ok (None, false), w') ∧
    w_db w' = mark_outbox "op1:execute" CommandFailed (fence_reason "operation_cancelled") n (w_db w).
Proof. intros w. exact (deliverNextPending_exact "o1" true w (λ _, eq_refl)). Defined.

(** ** Results of standard commands *)

(** The statuses a result takes an operation through. *)
Definition result_path (s : OperationStatus) (failed cancelled : bool) : list OperationStatus :=
  let outcome := if failed then StatusFailed else StatusSucceeded in
  match s with
  | StatusPending => if failed then [StatusFailed] else []
  | StatusQueued => [StatusRunning; outcome]
  | StatusRunning => [outcome]
  | StatusCancelling => [if cancelled then StatusCancelled else StatusFailed]
  | _ => []
  end.
(** [o'] is [o] moved along [path]; only a failure carries the error text. *)
Fixpoint moved (path : list OperationStatus) (err : string) (o o' : Operation) : Prop :=
  match path with
  | [] => o' = o
  | s :: path' =>
      ∃ n, moved path' err
        (transition_row s (if bool_decide (s = StatusFailed) then err else ""%string) n (IsTerminal s) o) o'
  end.

Lemma update_moved op s err o w :
  able w → db_operations (w_db w) !! op_ID op = Some o → op_StateVersion o = op_StateVersion op → CanTransitionTo (op_Status o) s = true →
  ∃ n w', UpdateStatus_operation (op_ID op) s (op_StateVersion op) err w =
      (Ok (transition_row s err n (IsTerminal s) (buildOperation (w_db w) o)), w') ∧ able w' ∧
    db_operations (w_db w') = <[op_ID op := transition_row s err n (IsTerminal s) o]> (db_operations (w_db w)).
Proof.
  intros Hable Ho Hv Hcan. destruct (transition_ok _ s _ err w o Hable Ho Hv Hcan) as (w' & E & Hable' & Hops).
  eexists _, w'. split; [exact E|by split].
Qed.
Lemma logged_ok {A} (m : SM A) w a w' : m w = (Ok a, w') → logged m w = (Ok tt, w').
Proof. unfold logged, catch. by intros ->. Qed.
(** A live operation, seen through a copy that has its status and version. *)
Lemma finish_live_ok op o current resultStatus resultJSON w :
  able w → db_operations (w_db w) !! op_ID op = Some o → op_StateVersion o = op_StateVersion op → op_Status o = op_Status op →
  op_Status op = current → current = StatusRunning ∨ current = StatusCancelling →
  let failed := bool_decide (resultStatus = "failed") in let cancelled := acknowledges_cancel resultJSON in
  let s := if bool_decide (current = StatusCancelling) then (if cancelled then StatusCancelled else StatusFailed)
           else (if failed then StatusFailed else StatusSucceeded) in
  let err := if bool_decide (s = StatusFailed) then resultJSON else ""%string in
  ∃ n w', finish_live op current resultStatus resultJSON w = (Ok tt, w') ∧ able w' ∧
    db_operations (w_db w') = <[op_ID op := transition_row s err n true o]> (db_operations (w_db w)).
Proof.
  intros Hable Ho Hv Hst Hcur Hor failed cancelled s err. unfold finish_live.
  assert (Hmove : ∀ t e, t = s → e = err → ∃ n w', logged (UpdateStatus_operation (op_ID op) t (op_StateVersion op) e) w = (Ok tt, w') ∧
    able w' ∧ db_operations (w_db w') = <[op_ID op := transition_row s err n true o]> (db_operations (w_db w))).
  { intros t e -> ->. destruct (update_moved op s err o w Hable Ho Hv) as (n & w' & E & Hable' & Hops).
    - rewrite Hst, Hcur. subst s. destruct Hor as [-> | ->]; simpl; [by destruct failed|by destruct cancelled].
    - exists n, w'. split; [by eapply logged_ok|]. split; [done|]. rewrite Hops. do 2 f_equal.
      subst s. destruct Hor as [-> | ->]; simpl; [by destruct failed|by destruct cancelled]. }
  destruct Hor as [-> | ->]; simpl.
  - unfold finishTerminalOperation. fold failed. subst s. simpl in *. destruct failed; apply Hmove; done.
  - unfold finishCancellingOperation. rewrite Hcur. fold cancelled. subst s. simpl in *. destruct cancelled; apply Hmove; done.
Qed.

(** A result drives the operation exactly along its path, in a calm
    environment: a pending operation only fails, a preflight or terminal one is
    untouched, a queued one runs and then ends, a running one ends, a cancelling
    one is cancelled only by the operator's own cancellation code and fails
    otherwise, even on success; each hop increases the version by one, a failure
    keeps the result text, and no other operation changes. *)
Theorem FinishOperation_exact id resultStatus resultJSON w :
  able w →
  ∃ w', FinishOperation id resultStatus resultJSON w = (Ok tt, w') ∧
    match db_operations (w_db w) !! id with
    | None => w_db w' = w_db w
    | Some o =>
        match result_path (op_Status o) (bool_decide (resultStatus = "failed")) (acknowledges_cancel resultJSON) with
        | [] => w_db w' = w_db w
        | path => ∃ o', moved path resultJSON o o' ∧ op_StateVersion o' = op_StateVersion o + Z.of_nat (length path) ∧
                    db_operations (w_db w') = <[id := o']> (db_operations (w_db w))
        end
    end.
Proof.
  intros Hable. unfold FinishOperation, catch at 1, Get_operation, getOperation, lookup_operation, bind, query, gets.
  destruct (db_operations (w_db w) !! id) as [o|] eqn:Ho; simpl; [|by exists w].
  destruct (buildOperation_fields (w_db w) o) as (Hid & Hst & Hver & _). rewrite (able_wf _ Hable _ _ Ho) in Hid.
  set (op := buildOperation (w_db w) o) in *. rewrite <- Hid in Ho.
  assert (Hother : ∀ s, op_Status op = s → Transition s EventError = Err (ErrInvalidTransition s) →
    Transition s EventComplete = Err (ErrInvalidTransition s) → s ≠ StatusCancelling →
    finish_live op s resultStatus resultJSON w = (Ok tt, w)).
  { intros s Hs H1 H2 H3. unfold finish_live, finishTerminalOperation. rewrite bool_decide_false by done.
    destruct (bool_decide (resultStatus = _)); [by rewrite H1|by rewrite H2]. }
  rewrite Hst. destruct (op_Status o) eqn:Hs; cbn [result_path]; try (exists w; split; [by apply Hother|done]).
  - (* pending *)
    unfold finishPendingOperation. destruct (bool_decide (resultStatus = "failed")); simpl; [|by exists w].
    destruct (update_moved op StatusFailed resultJSON o w Hable Ho) as (n & w' & E & _ & Hops); [by rewrite Hver|by rewrite Hs|].
    exists w'. split; [by eapply logged_ok|]. eexists. split; [exists n; reflexivity|]. rewrite Hid in Hops. by split.
  - by exists w.
  - (* queued *)
    unfold catch, beginQueuedOperation, bind. rewrite Hst. simpl.
    destruct (update_moved op StatusRunning "" o w Hable Ho) as (n & w1 & E & Hable1 & Hops1); [by rewrite Hver|by rewrite Hs|].
    rewrite E. simpl. set (op1 := transition_row StatusRunning "" n false op) in *. set (o1 := transition_row StatusRunning "" n false o) in *.
    destruct (finish_live_ok op1 o1 StatusRunning resultStatus resultJSON w1 Hable1) as (m & w2 & E2 & _ & Hops2);
      [by rewrite Hops1; apply lookup_insert_eq|simpl; by rewrite Hver|done|done|by left|].
    exists w2. split; [exact E2|]. rewrite Hops1 in Hops2. change (op_ID op1) with (op_ID op) in Hops2.
    rewrite insert_insert_eq, Hid in Hops2. eexists. split; [|split; [|exact Hops2]].
    + exists n, m. simpl. by destruct (bool_decide (resultStatus = "failed")).
    + simpl. lia.
  - (* running *)
    destruct (finish_live_ok op o StatusRunning resultStatus resultJSON w Hable Ho) as (m & w2 & E2 & _ & Hops2);
      [by rewrite Hver|by rewrite Hst|done|by left|].
    exists w2. split; [exact E2|]. rewrite Hid in Hops2. eexists. split; [|split; [|exact Hops2]]; [|done].
    exists m. simpl. by destruct (bool_decide (resultStatus = "failed")).
  - (* cancelling *)
    destruct (finish_live_ok op o StatusCancelling resultStatus resultJSON w Hable Ho) as (m & w2 & E2 & _ & Hops2);
      [by rewrite Hver|by rewrite Hst|done|by right|].
    exists w2. split; [exact E2|]. rewrite Hid in Hops2. eexists. split; [|split; [|exact Hops2]]; [|done].
    exists m. simpl. by destruct (acknowledges_cancel resultJSON).
Qed.
Definition result_world (status : OperationStatus) : World :=
  sample_world (db_with_ops [sample_op "op1" "d1" "k1" OperationUpgrade status 3]).
Lemma result_world_able status : able (result_world status).
Proof.
  apply sample_able; [apply sample_env; [done|done|by intros []]|]. apply (sample_ops_wf (sample_op "op1" "d1" "k1" OperationUpgrade status 3)).
Qed.
(** A queued operation that failed, and a cancelling one that succeeded. *)
Lemma FinishOperation_exact_witness :
  (∃ w' o, FinishOperation "op1" "failed" "boom" (result_world StatusQueued) = (Ok tt, w') ∧
     db_operations (w_db w') !! "op1" = Some o ∧ op_Status o = StatusFailed ∧ op_LastError o = "boom" ∧ op_StateVersion o = 5) ∧
  ∃ w' o, FinishOperation "op1" "succeeded" "{}" (result_world StatusCancelling) = (Ok tt, w') ∧
     db_operations (w_db w') !! "op1" = Some o ∧ op_Status o = StatusFailed.
Proof.
  split.
  - destruct (FinishOperation_exact "op1" "failed" "boom" (result_world StatusQueued) (result_world_able _))
      as (w' & E & o & (n & m & ->) & _ & Hops). exists w'. eexists. split; [exact E|].
    split; [rewrite Hops; apply lookup_insert_eq|]. split; [reflexivity|]. split; reflexivity.
  - destruct (FinishOperation_exact "op1" "succeeded" "{}" (result_world StatusCancelling) (result_world_able _))
      as (w' & E & o & (n & ->) & _ & Hops). exists w'. eexists. split; [exact E|].
    split; [rewrite Hops; apply lookup_insert_eq|vm_compute; reflexivity].
Defined.

(** ** Typed upgrade results *)
Lemma rpc_Ok {A} wrap (m : SM A) w a w' : rpc wrap m w = (Ok a, w') ↔ m w = (Ok a, w').
Proof. unfold rpc. destruct (m w) as [[b|e] w1]; split; by intros [=]; subst. Qed.
Lemma transition_Ok_inv id status v err w u w' :
  ops_wf (db_operations (w_db w)) → transition id status v err w = (Ok u, w') →
  ∃ o n, db_operations (w_db w) !! id = Some o ∧ op_StateVersion o = v ∧ CanTransitionTo (op_Status o) status = true ∧
    u = transition_row status err n (IsTerminal status) (buildOperation (w_db w) o) ∧
    db_operations (w_db w') = <[id := transition_row status err n (IsTerminal status) o]> (db_operations (w_db w)) ∧
    db_operation_execution_results (w_db w') = db_operation_execution_results (w_db w).
Proof.
  intros Hwf H. unfold transition in H. apply run_commit_Ok in H as [_ H].
  destruct (transitionInTx_inv id status v err (attempt w) u w' Hwf H) as (o & n & Ho & Hv & Hcan & _ & Hu & Hops).
  exists o, n. split_and!; try done. symmetry. assert (Hf : preserves (db_rel (on_table db_operation_execution_results eq)) (transitionInTx id status v err))
    by (unfold transitionInTx; db_preserve). exact (Hf _ _ _ H).
Qed.
(** The operation a result is applied to: the live row, begun if it was queued. *)
Lemma loadResultOperation_inv result o w op w' :
  ops_wf (db_operations (w_db w)) → db_operations (w_db w) !! cres_OperationID result = Some o →
  loadResultOperation (Some result) w = (Ok op, w') →
  (IsTerminal (op_Status o) = true ∧ op = None ∧ w' = w) ∨
  ∃ o1 c, IsTerminal (op_Status o) = false ∧ op = Some c ∧ op_ID c = cres_OperationID result ∧
    op_StateVersion c = op_StateVersion o1 ∧
    bool_decide (op_Status c = StatusCancelling) = bool_decide (op_Status o = StatusCancelling) ∧
    db_operations (w_db w') = <[cres_OperationID result := o1]> (db_operations (w_db w)) ∧
    db_operation_execution_results (w_db w') = db_operation_execution_results (w_db w).
Proof.
  intros Hwf Ho H. unfold loadResultOperation in H. destruct (_ || _); [done|].
  apply bind_Ok in H as (b & w1 & Hget & H). apply rpc_Ok, getOperation_Ok in Hget as (-> & o' & Ho' & ->).
  assert (o' = o) as -> by congruence. destruct (buildOperation_fields (w_db w) o) as (Hid & Hst & Hver & _).
  rewrite (Hwf _ _ Ho) in Hid. rewrite Hst in H. destruct (IsTerminal (op_Status o)) eqn:Ht; [left; apply ret_Ok in H as [<- <-]; done|].
  right. destruct (bool_decide (op_Status o = StatusQueued)) eqn:Hq.
  - apply bind_Ok in H as (u & w2 & Hup & H). apply ret_Ok in H as [<- <-]. apply rpc_Ok in Hup.
    apply transition_Ok_inv in Hup as (o' & n & Ho2 & _ & _ & -> & Hops & Hex); [|done]. rewrite Hid in *.
    assert (o' = o) as -> by congruence. exists (transition_row StatusRunning "" n false o), (transition_row StatusRunning "" n false (buildOperation (w_db w) o)).
    apply bool_decide_eq_true in Hq. rewrite Hq.
    split_and!; [done|done|exact Hid|exact (f_equal (λ z, z + 1) Hver)|done|exact Hops|done].
  - apply ret_Ok in H as [<- <-]. exists o, (buildOperation (w_db w) o). split_and!; try done; [by rewrite Hst|by rewrite insert_id].
Qed.
Lemma finalizeUpgradeTx_rollback input w w' :
  finalizeUpgradeTx input w = (Ok (Rollback tt), w') → is_Some (db_operation_execution_results (w_db w) !! ui_OperationID input).
Proof.
  intros H. unfold finalizeUpgradeTx in H. cbv zeta in H. dinv.
  destruct (db_operation_execution_results (w_db w) !! ui_OperationID input) as [x|] eqn:Hx; dinv. by eexists.
Qed.
Lemma FinalizeUpgrade_Ok_inv input w w' :
  FinalizeUpgrade input w = (Ok tt, w') → db_operation_execution_results (w_db w) !! ui_OperationID input = None →
  ∃ o n, db_operations (w_db w) !! ui_OperationID input = Some o ∧ op_StateVersion o = ui_ExpectedStateVersion input ∧
    finalized input o n (w_db w) (w_db w').
Proof.
  intros H Hnone. apply run_tx_Ok in H as [_ [H|(w1 & H & ->)]].
  - destruct (finalizeUpgradeTx_inv _ _ _ H) as (_ & o & n & Ho & Hv & Hf). simpl in *. eauto.
  - apply finalizeUpgradeTx_rollback in H as [x Hx]. simpl in Hx. congruence.
Qed.

Lemma cancel_wins_same s s' mapped :
  bool_decide (s = StatusCancelling) = bool_decide (s' = StatusCancelling) → cancel_wins s mapped = cancel_wins s' mapped.
Proof. unfold cancel_wins. by intros ->. Qed.
Lemma outcome_terminal s result :
  let mapped := cancel_wins s (terminalMapping result).1 in
  IsTerminal mapped.1 = true ∧ (s = StatusCancelling → mapped.1 ≠ StatusSucceeded).
Proof. unfold cancel_wins, terminalMapping. repeat case_bool_decide; simplify_eq/=; split; naive_solver. Qed.

(** A typed upgrade result is applied at most once and never against a
    cancellation.  A result for a terminal operation succeeds without any effect.
    The first accepted result of a live operation makes it terminal with the
    mapped status and error, stores the execution result and, with an active
    snapshot, updates the inventory; but an operation whose cancellation was
    committed never succeeds: a late success is recorded as a failure. *)
Theorem HandleCommandResult_outcome marshal_upgrade result w r w' o :
  ops_wf (db_operations (w_db w)) → db_operations (w_db w) !! cres_OperationID result = Some o →
  HandleCommandResult marshal_upgrade (Some result) w = (r, w') →
  (IsTerminal (op_Status o) = true → w_db w' = w_db w ∧ (cres_OperationID result ≠ "" → cres_CommandID result ≠ "" → r = Ok tt)) ∧
  (r = Ok tt → IsTerminal (op_Status o) = false →
   db_operation_execution_results (w_db w) !! cres_OperationID result = None →
   let mapped := cancel_wins (op_Status o) (terminalMapping result).1 in
   ∃ o', db_operations (w_db w') = <[cres_OperationID result := o']> (db_operations (w_db w)) ∧
     IsTerminal (op_Status o') = true ∧ is_Some (op_TerminalAt o') ∧ (op_Status o', op_LastError o') = mapped ∧
     is_Some (db_operation_execution_results (w_db w') !! cres_OperationID result) ∧
     (op_Status o = StatusCancelling → op_Status o' ≠ StatusSucceeded)).
Proof.
  intros Hwf Ho H. split.
  - intros Ht. unfold HandleCommandResult, loadResultOperation in H.
    destruct (bool_decide (cres_OperationID result = "") || _) eqn:Hids.
    { injection H as <- <-. split; [done|]. intros H1 H2. apply orb_true_iff in Hids as [?|?]; by destruct_bools. }
    unfold bind, rpc, Get_operation, getOperation, lookup_operation, bind, query, gets in H. rewrite Ho in H. simpl in H.
    destruct (buildOperation_fields (w_db w) o) as (_ & Hst & _). rewrite Hst, Ht in H. by injection H as <- <-.
  - intros -> Ht Hnone mapped. unfold HandleCommandResult in H. apply bind_Ok in H as (op & w1 & Hload & H).
    destruct (loadResultOperation_inv _ _ _ _ _ Hwf Ho Hload) as [(Ht2 & _)|(o1 & c & _ & -> & Hid & Hver & Hcan & Hops & Hex)];
      [congruence|].
    unfold finalize_result in H. apply bind_Ok in H as (d & w2 & Hdef & H).
    assert (Hw2 : w2 = w1).
    { apply rpc_Ok in Hdef. unfold Get_definition in Hdef. by dinv. }
    subst w2. destruct (cres_Upgrade result) as [upgrade|]; [|done]. destruct (_ && _); [done|].
    destruct (terminalMapping result) as [[status lastError] inv] eqn:Hmap.
    rewrite (cancel_wins_same _ (op_Status o)) in H by done. fold mapped in H.
    assert (Hterm : IsTerminal mapped.1 = true ∧ (op_Status o = StatusCancelling → mapped.1 ≠ StatusSucceeded))
      by (unfold mapped; pose proof (outcome_terminal (op_Status o) result) as Hot; by rewrite Hmap in Hot).
    destruct (marshal_upgrade upgrade) as [payload|]; [|done]. apply rpc_Ok in H.
    apply FinalizeUpgrade_Ok_inv in H as (o2 & n & Ho2 & _ & (Hops2 & Hex2 & _)); simpl in *; rewrite Hid in *; [|by rewrite Hex].
    rewrite Hops, insert_insert_eq in Hops2. eexists. split; [exact Hops2|]. simpl.
    split_and!; [apply Hterm|by eexists|apply (eq_sym (surjective_pairing mapped))|rewrite Hex2, lookup_insert_eq; by eexists|apply Hterm].
Qed.
Definition upgrade_inventory : InventoryRow :=
  {| inv_CustomerID := "c1"; inv_ClusterID := "k1"; inv_ReleaseDefinitionID := "d1"; inv_Namespace := "ns"; inv_ReleaseName := "d1";
     inv_Revision := 1; inv_ValuesDigest := ""; inv_ObservedBundleDigest := ""; inv_ObservedChartDigest := "";
     inv_ObservedEffectiveValuesDigest := ""; inv_ObservedManifestDigest := ""; inv_LiveStatus := "deployed";
     inv_LastOperationID := ""; inv_InventoryStatus := "active"; inv_UpdatedAt := nsec |}.
Definition late_success : CommandResult :=
  {| cres_CommandID := "op1:execute"; cres_OperationID := "op1"; cres_Status := "succeeded"; cres_ErrorCode := "";
     cres_Upgrade := Some {| ur_Active := Some {| as_HelmRevision := 2; as_BundleDigest := "b"; as_ChartDigest := "c";
       as_EffectiveValuesDigest := "v"; as_ManifestDigest := "m"; as_Status := "deployed" |}; ur_ResourceCount := 4 |} |}.
Definition cancelling_world : World :=
  sample_world (set_release_inventory [upgrade_inventory]
    (db_with_ops [sample_op "op1" "d1" "k1" OperationUpgrade StatusCancelling 3])).
Lemma HandleCommandResult_outcome_witness :
  ∃ w' o, HandleCommandResult (λ _, inl "{}"%string) (Some late_success) cancelling_world = (Ok tt, w') ∧
    db_operations (w_db w') !! "op1" = Some o ∧ op_Status o = StatusFailed.
Proof.
  destruct (HandleCommandResult (λ _, inl "{}"%string) (Some late_success) cancelling_world) as [[[]|e] w'] eqn:E; [|vm_compute in E; discriminate E].
  destruct (HandleCommandResult_outcome _ late_success cancelling_world _ w' _ (sample_ops_wf _) eq_refl E) as [_ H].
  destruct (H eq_refl eq_refl eq_refl) as (o' & Hops & _ & _ & Hmap & _).
  exists w', o'. split; [reflexivity|]. split; [rewrite Hops; apply lookup_insert_eq|]. exact (f_equal fst Hmap).
Defined.

(** A result is also accepted for an operation that never left preflight:
    FinalizeUpgrade does not consult the state machine. *)
Lemma typed_result_skips_preflight :
  let w := sample_world (set_release_inventory [upgrade_inventory]
             (db_with_ops [sample_op "op1" "d1" "k1" OperationUpgrade StatusPreflight 3])) in
  ∃ w' o, HandleCommandResult (λ _, inl "{}"%string) (Some late_success) w = (Ok tt, w') ∧
    db_operations (w_db w') !! "op1" = Some o ∧ op_Status o = StatusSucceeded ∧
    CanTransitionTo StatusPreflight StatusSucceeded = false.
Proof. do 2 eexists. split; [vm_compute; reflexivity|]. split; [vm_compute; reflexivity|]. split; reflexivity. Qed.

(** ** Services only take store steps *)
Lemma reachable_step {A} (m : SM A) : (∀ w, store_step w (m w).2) → preserves reachable m.
Proof. intros H w r w' E. apply rtc_once. specialize (H w). by rewrite E in H. Qed.
Lemma reachable_query {A} (f : DB → A) : preserves reachable (query f).
Proof. apply preserves_gets, _. Qed.
Lemma reachable_scan_row {A} (o : option A) : preserves reachable (scan_row o).
Proof. unfold scan_row. preserve. Qed.
Lemma reachable_fail_if b e : preserves reachable (fail_if b e).
Proof. unfold fail_if. preserve. Qed.
Lemma reachable_now : preserves reachable now.
Proof. apply reachable_step. intros w. by apply step_environment. Qed.
Lemma reachable_transition id status v err : preserves reachable (transition id status v err).
Proof. apply reachable_step. intros w. apply step_transition. Qed.
Lemma reachable_outbox id status res : preserves reachable (UpdateStatus_outbox id status res).
Proof. apply reachable_step. intros w. apply step_outbox_status. Qed.
Lemma reachable_finalize input : IsTerminal (ui_Status input) = true → preserves reachable (FinalizeUpgrade input).
Proof. intros H. apply reachable_step. intros w. by apply step_finalize. Qed.
Lemma reachable_ack_emergency id : preserves reachable (PersistAck_emergency id).
Proof. apply reachable_step. intros w. apply step_ack_emergency. Qed.
Lemma reachable_converge c : preserves reachable (ConvergeEmergencyResult c).
Proof. apply reachable_step. intros w. apply step_converge. Qed.
#[local] Hint Resolve reachable_query reachable_scan_row reachable_fail_if reachable_now reachable_transition reachable_outbox
  reachable_ack_emergency reachable_converge : preserve.
Lemma reachable_Get_operation id : preserves reachable (Get_operation id).
Proof. unfold Get_operation, getOperation. preserve. Qed.
Lemma reachable_intent commandID : preserves reachable (GetByCommandID_intent commandID).
Proof. unfold GetByCommandID_intent, scanEmergencyIntent. preserve. Qed.
Lemma reachable_logged {A} (m : SM A) : preserves reachable m → preserves reachable (logged m).
Proof. intros H. unfold logged. preserve. Qed.
Lemma reachable_update id status v err : preserves reachable (UpdateStatus_operation id status v err).
Proof. apply reachable_transition. Qed.
#[local] Hint Resolve reachable_Get_operation reachable_intent reachable_logged reachable_update : preserve.
Lemma reachable_rpc {A} wrap (m : SM A) : preserves reachable m → preserves reachable (rpc wrap m).
Proof. intros H w r w' E. unfold rpc in E. destruct (m w) as [[a|e] w1] eqn:Em; injection E as _ <-; exact (H _ _ _ Em). Qed.
#[local] Hint Resolve reachable_rpc : preserve.
Lemma reachable_deliver operatorID open : preserves reachable (deliverNextPending operatorID open).
Proof.
  unfold deliverNextPending, deliver_entry, hand_over, assign_sequence, fenceDelivery, GetInflightForOperator, GetNextPending, GetNextSequence.
  preserve.
Qed.
Lemma reachable_finish_live op current s j : preserves reachable (finish_live op current s j).
Proof. unfold finish_live, finishCancellingOperation, finishTerminalOperation. preserve. Qed.
#[local] Hint Resolve reachable_finish_live : preserve.
Lemma reachable_FinishOperation id s j : preserves reachable (FinishOperation id s j).
Proof. unfold FinishOperation, finishPendingOperation, beginQueuedOperation. preserve. Qed.
Lemma reachable_emergency_ack id : preserves reachable (emergency_ack id).
Proof. unfold emergency_ack. preserve. Qed.
Lemma reachable_attempts n intent result op : preserves reachable (converge_attempts n intent result op).
Proof. revert op. induction n as [|n IH]; intros op; cbn [converge_attempts]; [preserve|]. preserve. Qed.
Lemma reachable_finishEmergencyResult result : preserves reachable (finishEmergencyResult result).
Proof. unfold finishEmergencyResult. preserve. apply reachable_attempts. Qed.
Lemma reachable_finalize_result marshal op result : preserves reachable (finalize_result marshal op result).
Proof.
  unfold finalize_result. apply preserves_bind; [apply _|apply reachable_rpc; unfold Get_definition; preserve|intros d].
  destruct (cres_Upgrade result) as [upgrade|]; [|preserve]. destruct (_ && _); [preserve|].
  pose proof (outcome_terminal (op_Status op) result) as [H _]. destruct (terminalMapping result) as [[status lastError] inv].
  destruct (marshal upgrade); [|preserve]. by apply reachable_rpc, reachable_finalize.
Qed.
Lemma reachable_HandleCommandResult marshal result : preserves reachable (HandleCommandResult marshal result).
Proof.
  unfold HandleCommandResult, loadResultOperation. apply preserves_bind; [apply _|preserve|intros op].
  destruct op, result; [apply reachable_finalize_result|preserve..].
Qed.
Lemma reachable_recover opts : preserves reachable (RecoverNonTerminal opts).
Proof.
  assert (Hloop : ∀ t ops, preserves reachable (recover_loop opts t ops)).
  { intros t ops. induction ops as [|op ops IH]; cbn [recover_loop]; [preserve|]. unfold recoverOne, transitionTo, Transition_operation. preserve. }
  unfold RecoverNonTerminal, ListNonTerminal. preserve.
Qed.

(** The store half of a stream computation. *)
Abbreviation st_reachable := (λ s s', reachable (st_world s) (st_world s')).
#[local] Instance st_reachable_preorder : PreOrder st_reachable.
Proof. split; [by intros s|]. intros a b c H1 H2. by etransitivity. Qed.
Lemma on_store_reachable {A} (m : SM A) : preserves reachable m → preserves st_reachable (on_store m).
Proof. intros H s r s'. unfold on_store. destruct (m (st_world s)) as [r1 w1] eqn:E. intros [= _ <-]. exact (H _ _ _ E). Qed.
Lemma send_reachable send_error m : preserves st_reachable (send send_error m).
Proof. intros s r s'. unfold send. by destruct (send_error m); intros [= _ <-]. Qed.
#[local] Hint Resolve on_store_reachable send_reachable : preserve.
Lemma reconnect_reachable send_error decodes operatorID lastSeenSeq :
  preserves st_reachable (handleReconnect send_error decodes operatorID lastSeenSeq).
Proof.
  assert (Hcmd : ∀ e, preserves st_reachable (deliver_command send_error decodes e)).
  { intros e. unfold deliver_command, sendCommand. preserve. }
  assert (Hloop : ∀ n l, preserves st_reachable (redeliver_loop send_error decodes n l)).
  { intros n l. induction l as [|e l IH]; cbn [redeliver_loop]; preserve. }
  unfold handleReconnect, reDeliverFrom, GetNextSequence, GetDeliveredNotAcked. preserve.
Qed.

(** The services refine the store's transition system.  Delivery polls,
    reconnects, standard and typed results, EMERGENCY acknowledgements and results
    and start-up recovery change the tables only by sequences of store calls that
    the system model allows, whatever the outcome of each call; so the invariants
    of all reachable states hold across them. *)
Lemma services_refine_store :
  (∀ operatorID open, preserves reachable (deliverNextPending operatorID open)) ∧
  (∀ send_error decodes operatorID lastSeenSeq s r s',
     handleReconnect send_error decodes operatorID lastSeenSeq s = (r, s') → reachable (st_world s) (st_world s')) ∧
  (∀ id resultStatus resultJSON, preserves reachable (FinishOperation id resultStatus resultJSON)) ∧
  (∀ marshal_upgrade result, preserves reachable (HandleCommandResult marshal_upgrade result)) ∧
  (∀ commandID, preserves reachable (emergency_ack commandID)) ∧
  (∀ result, preserves reachable (finishEmergencyResult result)) ∧
  (∀ opts, preserves reachable (RecoverNonTerminal opts)).
Proof.
  split_and!; [apply reachable_deliver|intros send_error decodes operatorID n s r s'; apply reconnect_reachable|apply reachable_FinishOperation
    |apply reachable_HandleCommandResult|apply reachable_emergency_ack|apply reachable_finishEmergencyResult|apply reachable_recover].
Qed.
