(* ===== verification/ValuesSystem.v ===== *)
(** * The values workflow as a transition system

    What a committed call of the values stores does to the tables, and the
    invariant of every state reachable through them: at most one approved and
    one pending revision per definition, the definition's pointer names the
    approved one, the decision log explains every status, and a convergence task
    is bound to one live revision whose locked paths no other one holds. *)
From S2P Require Import Prelude Utf8 Json JsonText Redact Hash Domain Database ValuesRows Timeline Idempotency OperationStore EmergencyStore ValuesLifecycle.
#[local] Open Scope Z_scope.

(** ** Committed transitions *)

(** The tables after a transition, as functions of the tables before. *)
Definition rows_superseded (t : approvalTransition) (r : ValuesRevision) (n : time) (rows : list ValuesRevision) : list ValuesRevision :=
  if is_approve t then update_where (another_in ValuesStatusApproved r) (set_state ValuesStatusSuperseded None (Some n) n) rows else rows.
Definition moved (t : approvalTransition) (n : time) : ValuesRevision → ValuesRevision :=
  set_state (at_to t) (if is_submit t then Some n else None) (if is_approve t || is_reject t then Some n else None) n.
Definition moves (t : approvalTransition) (r : ValuesRevision) (version : Z) (x : ValuesRevision) : bool :=
  byID (vr_ID r) x && inStatus (at_expectedFrom t) x && (vr_StateVersion x =? version).
Definition rows_after (t : approvalTransition) (r : ValuesRevision) (version : Z) (n : time) (rows : list ValuesRevision) : list ValuesRevision :=
  update_where (moves t r version) (moved t n) (rows_superseded t r n rows).
Definition tasks_after (t : approvalTransition) (id reason : string) (n : time) (tasks : list ConvergenceTask) : list ConvergenceTask :=
  if is_approve t then update_where (λ x, bound_to id x && pending_task x) (converge_task n) tasks
  else if is_reject t then update_where (bound_to id) (with_binding None None (Some reason) false) tasks
  else tasks.
Definition definitions_after (t : approvalTransition) (r : ValuesRevision) (defs : gmap string ReleaseDefinition) : gmap string ReleaseDefinition :=
  if is_approve t then alter (with_approved_revision (vr_ID r)) (vr_ReleaseDefinitionID r) defs else defs.

Lemma when_Ok b (m : SM unit) u w w' : when b m w = (Ok u, w') → (b = true ∧ m w = (Ok u, w')) ∨ (b = false ∧ w = w').
Proof. destruct b; simpl; [by left|]. rewrite ret_Ok. intros [_ ?]. by right. Qed.
Lemma getValues_Ok id r w w' : getValues id w = (Ok r, w') → find_row (byID id) (db_values_revisions (w_db w)) = Some r ∧ w = w'.
Proof. unfold getValues. intros H. by dinv. Qed.
Lemma fence_Ok v u w w' : checkAuthorizationFence v w = (Ok u, w') → w' = w.
Proof. unfold checkAuthorizationFence. intros H. destruct (v =? 0); by dinv. Qed.

Lemma supersede_Ok r n ids w w' :
  supersedeApprovedRevisions r n w = (Ok ids, w') →
  ids = (vr_ID <$> merge_sort older (filter (λ x, another_in ValuesStatusApproved r x = true) (db_values_revisions (w_db w)))) ∧
  w' = with_db (set_values_revisions (update_where (another_in ValuesStatusApproved r)
         (set_state ValuesStatusSuperseded None (Some n) n) (db_values_revisions (w_db w))) (w_db w)) w.
Proof.
  unfold supersedeApprovedRevisions. intros H. dinv. case_bool_decide as Hids; dinv; [|by split].
  split; [done|]. rewrite update_where_none; [by destruct w as [[]]|]. apply rows_affected_0. intros x Hx.
  destruct (another_in ValuesStatusApproved r x) eqn:E; [|done]. apply fmap_nil_inv in Hids.
  assert (Hin : x ∈ merge_sort older (filter (λ x, another_in ValuesStatusApproved r x = true) (db_values_revisions (w_db w)))).
  { rewrite merge_sort_Permutation. by apply list_elem_of_filter. }
  rewrite Hids in Hin. by apply not_elem_of_nil in Hin.
Qed.

(** The update of the revision itself touched one row. *)
Lemma updateRevisionState_Ok r t v n x w w' :
  updateRevisionState r t v n w = (Ok x, w') →
  rows_affected (moves t r v) (db_values_revisions (w_db w)) = 1%nat ∧
  (exclusive_status (at_to t) = true → ∀ y, y ∈ db_values_revisions (w_db w) → another_in (at_to t) r y = false) ∧
  w' = with_db (set_values_revisions (update_where (moves t r v) (moved t n) (db_values_revisions (w_db w))) (w_db w)) w ∧
  find_row (byID (vr_ID r)) (db_values_revisions (w_db w')) = Some x.
Proof.
  unfold updateRevisionState. intros H. dinv. fold (moves t r v) in *. fold (moved t n) in *.
  destruct (rows_affected (moves t r v) (db_values_revisions (w_db w)) =? 1)%nat eqn:E; simpl in H; [|by dinv].
  apply Nat.eqb_eq in E. apply getValues_Ok in H as [Hf <-]. rewrite E in Hguard. simpl in Hguard.
  split; [done|]. split; [|by split]. intros He. rewrite He in Hguard. simpl in Hguard.
  intros y Hy. apply existsb_false_forall in Hguard. by apply (proj1 (Forall_forall _ _) Hguard).
Qed.

(** What a committed transition did, table by table. *)
Record transition_effect (c : ValuesApprovalCommand) (t : approvalTransition) (r : ValuesRevision) (n : time)
    (res : ValuesApprovalResult) (db db' : DB) : Prop := {
  te_revisions : db_values_revisions db' = rows_after t r (vac_ExpectedStateVersion c) n (db_values_revisions db);
  te_one : rows_affected (moves t r (vac_ExpectedStateVersion c)) (rows_superseded t r n (db_values_revisions db)) = 1%nat;
  te_free : exclusive_status (at_to t) = true →
    ∀ y, y ∈ rows_superseded t r n (db_values_revisions db) → another_in (at_to t) r y = false;
  te_tasks : db_convergence_tasks db' = tasks_after t (vr_ID r) (vac_Reason c) n (db_convergence_tasks db);
  te_definitions : db_release_definitions db' = definitions_after t r (db_release_definitions db);
  te_pointer : is_approve t = true → is_Some (db_release_definitions db !! vr_ReleaseDefinitionID r);
  te_decision : ∃ id, db_values_revision_decisions db' = db_values_revision_decisions db ++ [decision_of c t r id n];
  te_outboxes : ∃ event_id audit_id notification_id,
    let notification := notification_payload c (var_Revision res) n
                          (base_payload c (var_Revision res) (var_SupersededRevisionIDs res) n event_id) in
    db_audit_outbox db' = db_audit_outbox db ++ [new_outbox_entry audit_id (at_eventType t) (marshal_map (audit_payload c notification)) n] ∧
    db_notification_outbox db' = db_notification_outbox db
      ++ [new_outbox_entry notification_id (at_eventType t) (marshal_map notification) n];
  te_result : find_row (byID (vr_ID r)) (db_values_revisions db') = Some (var_Revision res) ∧
    var_PreviousState res = at_expectedFrom t ∧ var_NewState res = at_to t ∧ var_DecidedAt res = n ∧ var_Replayed res = false ∧
    var_SupersededRevisionIDs res =
      (if is_approve t then vr_ID <$> merge_sort older (filter (λ x, another_in ValuesStatusApproved r x = true) (db_values_revisions db)) else []);
  te_rest : db_operations db' = db_operations db ∧ db_emergency_intents db' = db_emergency_intents db ∧
    db_prepare_sessions db' = db_prepare_sessions db ∧ db_outbox db' = db_outbox db;
}.

Lemma insertDecision_inv d w u w' :
  insertDecision d w = (Ok u, w') →
  w' = with_db (set_values_revision_decisions (db_values_revision_decisions (w_db w) ++ [d]) (w_db w)) w.
Proof. unfold insertDecision. intros H. by dinv. Qed.
Lemma payloads_Ok c r ids n p w w' :
  successEventPayloads c r ids n w = (Ok p, w') →
  ∃ event_id, w_db w' = w_db w ∧
    p = (marshal_map (audit_payload c (notification_payload c r n (base_payload c r ids n event_id))),
         marshal_map (notification_payload c r n (base_payload c r ids n event_id))).
Proof. unfold successEventPayloads. intros H. dinv. by eexists. Qed.
Lemma point_Ok d id w u w' :
  point_definition d id w = (Ok u, w') →
  is_Some (db_release_definitions (w_db w) !! d) ∧
  w' = with_db (set_release_definitions (alter (with_approved_revision id) d (db_release_definitions (w_db w))) (w_db w)) w.
Proof.
  unfold point_definition. intros H. dinv. destruct (db_release_definitions (w_db w) !! d) as [x|] eqn:E; dinv. split; [done|].
  do 2 f_equal. apply map_eq. intros k. destruct (decide (k = d)) as [->|Hk].
  - by rewrite lookup_insert_eq, lookup_alter_eq, E.
  - by rewrite lookup_insert_ne, lookup_alter_ne.
Qed.

Lemma apply_transition_inv c t r n res w w' :
  t ∈ [submit_transition; approve_transition; reject_transition] →
  apply_transition c t r n w = (Ok res, w') →
  transition_effect c t r n res (w_db w) (w_db w') ∧ db_idempotency_records (w_db w') = db_idempotency_records (w_db w).
Proof.
  intros Ht H. unfold apply_transition in H.
  apply elem_of_cons in Ht as [->|[->|[->|[]%not_elem_of_nil]%elem_of_cons]%elem_of_cons]; dinv.
  all: repeat match goal with
  | H : ensureNoPendingRevision _ _ = _ |- _ => unfold ensureNoPendingRevision in H; dinv
  | H : supersedeApprovedRevisions _ _ _ = _ |- _ => apply supersede_Ok in H as [-> ->]
  | H : updateRevisionState _ _ _ _ _ = _ |- _ => apply updateRevisionState_Ok in H as (Hone & Hfree & -> & Hfind)
  | H : converge_bound_tasks _ _ _ = _ |- _ => unfold converge_bound_tasks in H; dinv
  | H : clear_bindings _ _ _ = _ |- _ => unfold clear_bindings in H; dinv
  | H : point_definition _ _ _ = _ |- _ => apply point_Ok in H as [Hptr ->]
  | H : insertDecision _ _ = _ |- _ => apply insertDecision_inv in H as ->
  | H : successEventPayloads _ _ _ _ _ = _ |- _ => apply payloads_Ok in H as (event_id & Hpdb & ->)
  | H : insertApprovalOutbox _ _ _ = _ |- _ => apply insertApprovalOutbox_inv in H
  end.
  all: match goal with
    | H1 : w_db ?w8 = _, H2 : w_db ?w10 = set_outbox_rows AuditOutbox _ _, H3 : w_db ?w12 = set_outbox_rows NotificationOutbox _ _ |- _ =>
        change (w_db (draw w8)) with (w_db w8) in H2; change (w_db (draw w10)) with (w_db w10) in H3;
        rewrite H2, H1 in H3; rewrite H3; clear H1 H2 H3
    end.
  all: split; [|done]; constructor; try done; simpl; eauto.
Qed.

Lemma insertIdempotency_keeps {T} (f : DB → T) c res e o w w' :
  is_idempotency_frame f → insertIdempotency c res e w = (o, w') → f (w_db w') = f (w_db w).
Proof.
  intros Hf H. apply (frame f _ _ _ _) in H; [done|]. unfold insertIdempotency, decode_approval. db_preserve.
  apply createOrGet_frame; [apply _|done].
Qed.
Lemma lookupIdempotency_db c o w w' : lookupIdempotency c w = (o, w') → w_db w' = w_db w.
Proof.
  intros H. apply (frame (λ db, db) _ _ _ _) in H; [done|]. unfold lookupIdempotency, decode_approval, loadActiveIdempotencyRecord. db_preserve.
Qed.

(** The tables other than the idempotency records. *)
Definition no_records (db : DB) : DB := set_idempotency_records ∅ db.
Lemma no_records_frame : is_idempotency_frame no_records.
Proof. done. Qed.
Lemma same_tables {T} (f : DB → T) db db' : is_idempotency_frame f → no_records db' = no_records db → f db' = f db.
Proof. intros Hf H. rewrite <- (Hf ∅ db'), <- (Hf ∅ db). by f_equal. Qed.
Ltac same_tables H :=
  repeat match type of H with
  | no_records ?db' = no_records ?db =>
      match goal with |- context [?f db'] => lazymatch f with no_records => fail | _ => rewrite (same_tables f db db') by done end end
  end.
Lemma transition_effect_records c t r n res db db1 db2 :
  no_records db2 = no_records db1 → transition_effect c t r n res db db1 → transition_effect c t r n res db db2.
Proof. intros H [? ? ? ? ? ? ? ? ? ?]. constructor; same_tables H; done. Qed.

(** A committed approval transaction: its checks and its effect. *)
Definition transition_committed (c : ValuesApprovalCommand) (t : approvalTransition) (res : ValuesApprovalResult) (db db' : DB) : Prop :=
  ∃ r n, find_row (byID (vac_RevisionID c)) (db_values_revisions db) = Some r ∧
         vr_StateVersion r = vac_ExpectedStateVersion c ∧ vr_Status r = at_expectedFrom t ∧ transition_effect c t r n res db db'.
Lemma transition_tx_Commit c t w res w' :
  t ∈ [submit_transition; approve_transition; reject_transition] →
  transition_tx c t w = (Ok (Commit res), w') → transition_committed c t res (w_db w) (w_db w').
Proof.
  intros Ht H. unfold transition_tx in H. apply bind_Ok in H as (u & w1 & Hf & H). apply fence_Ok in Hf as ->.
  apply bind_Ok in H as (o & w2 & Hl & H). apply lookupIdempotency_db in Hl.
  destruct o as [x|]; [by apply ret_Ok in H as [? _]|].
  apply bind_Ok in H as (r & w3 & Hr & H). apply getValues_Ok in Hr as [Hr <-]. rewrite Hl in Hr.
  apply bind_Ok in H as (u1 & w4 & Hv & H). apply fail_if_Ok in Hv as [Hv <-].
  apply bind_Ok in H as (u2 & w5 & Hs & H). apply fail_if_Ok in Hs as [Hs <-]. destruct_bools.
  apply bind_Ok in H as (n & w6 & Hn & H). apply now_Ok in Hn as [-> ->].
  apply bind_Ok in H as (y & w7 & Ha & H). apply apply_transition_inv in Ha as [Ha _]; [|done].
  change (w_db (tick w2)) with (w_db w2) in Ha. rewrite Hl in Ha.
  apply bind_Ok in H as (p & w8 & Hi & H). apply (insertIdempotency_keeps no_records) in Hi; [|apply no_records_frame].
  destruct p as [p|]; [by apply ret_Ok in H as [? _]|].
  apply bind_Ok in H as (u3 & w9 & Hf & H). apply fence_Ok in Hf as ->. apply ret_Ok in H as [[= <-] <-].
  exists r, (w_clock w2 0). split; [done|]. split; [done|]. split; [done|].
  by eapply transition_effect_records.
Qed.

(** ** Locked paths *)
Lemma collect_paths_spec l seen paths seen' paths' :
  collect_paths seen paths l = Some (seen', paths') →
  (∀ p, p ∈ seen ↔ p ∈ paths) → NoDup paths →
  (∀ p, p ∈ seen' ↔ p ∈ paths') ∧ NoDup paths' ∧ (∀ p, p ∈ paths' ↔ p ∈ paths ∨ p ∈ l) ∧ "" ∉ l.
Proof.
  revert seen paths. induction l as [|p l IH]; intros seen paths; simpl.
  { intros [= <- <-] ??. split_and!; [done|done|set_solver|set_solver]. }
  case_bool_decide as Hp; [done|]. case_bool_decide as Hs; intros H Hseen Hnd.
  - destruct (IH _ _ H Hseen Hnd) as (H1 & H2 & H3 & H4). split_and!; [done|done| |set_solver].
    intros q. rewrite H3, elem_of_cons. apply Hseen in Hs. set_solver.
  - destruct (IH _ _ H) as (H1 & H2 & H3 & H4).
    + intros q. rewrite elem_of_cons, elem_of_app, list_elem_of_singleton, Hseen. tauto.
    + apply NoDup_app. split_and!; [done| |apply NoDup_singleton]. intros q Hq ->%list_elem_of_singleton. by apply Hs, Hseen.
    + split_and!; [done|done| |set_solver]. intros q. rewrite H3, elem_of_app, list_elem_of_singleton, elem_of_cons. tauto.
Qed.

(** A task a selection may take, with its paths. *)
Definition lockable (tasks : list ConvergenceTask) (id : string) (l : list string) : Prop :=
  ∃ t, selected_task tasks id = Some t ∧ ct_Status t = PendingPromotion ∧ opt_nonempty (ct_ActiveRevisionID t) = false ∧
       decode_strings (ct_PromotionPaths t) = Some l ∧ "" ∉ l.
Lemma locked_paths_spec tasks ids seenIDs seenPaths paths out :
  locked_paths_loop tasks ids seenIDs seenPaths paths = Ok out →
  (∀ p, p ∈ seenPaths ↔ p ∈ paths) → NoDup paths →
  NoDup ids ∧ (∀ id, id ∈ ids → id ≠ "" ∧ id ∉ seenIDs) ∧ NoDup out ∧ (∀ id, id ∈ ids → ∃ l, lockable tasks id l) ∧
  ∀ p, p ∈ out ↔ p ∈ paths ∨ ∃ id l, id ∈ ids ∧ lockable tasks id l ∧ p ∈ l.
Proof.
  revert seenIDs seenPaths paths. induction ids as [|id ids IH]; intros seenIDs seenPaths paths; simpl.
  { intros [= <-] ??. split_and!; [constructor|set_solver|done|set_solver|set_solver]. }
  case_bool_decide as He; [done|]. case_bool_decide as Hd; [done|].
  destruct (selected_task tasks id) as [t|] eqn:Ht; [|done]. case_bool_decide as Hp; [|done]. simpl.
  destruct (opt_nonempty (ct_ActiveRevisionID t)) eqn:Ha; [done|].
  destruct (decode_strings (ct_PromotionPaths t)) as [l|] eqn:Hl; [|done].
  destruct (collect_paths seenPaths paths l) as [[seen' paths']|] eqn:Hc; [|done]. intros H Hseen Hnd.
  destruct (collect_paths_spec _ _ _ _ _ Hc Hseen Hnd) as (H1 & H2 & H3 & H4).
  destruct (IH _ _ _ H H1 H2) as (Hids & Hout & Hnd' & Hlock & Hin).
  assert (Hself : ∀ k, lockable tasks id k ↔ k = l).
  { intros k. unfold lockable. split; [|intros ->; by exists t]. intros (t' & Ht' & _ & _ & Hk & _). congruence. }
  split_and!.
  - constructor; [|done]. intros Hin'. by apply (Hout id Hin'), elem_of_cons; left.
  - intros i [->|Hi]%elem_of_cons; [done|]. destruct (Hout i Hi) as [? Hn]. split; [done|]. intros ?. apply Hn. by right.
  - done.
  - intros i [->|Hi]%elem_of_cons; [exists l; by apply Hself|by apply Hlock].
  - intros p. rewrite Hin, H3. split.
    + intros [[?|?]|(i & k & Hi & Hk & ?)]; [by left|right; exists id, l; split; [by left|split; [by apply Hself|done]]|].
      right. exists i, k. split; [by right|done].
    + intros [?|(i & k & [->|Hi]%elem_of_cons & Hk & ?)]; [by left; left|left; right; apply Hself in Hk; by subst|].
      right. by exists i, k.
Qed.

(** The locked paths of a selection: they are computed only for distinct,
    named, pending and unbound tasks; they are exactly the tasks' promotion
    paths, each once, in byte order. *)
Theorem LockedPathsForTasks_exact taskIDs tasks paths :
  LockedPathsForTasks taskIDs tasks = Ok paths →
  NoDup taskIDs ∧ NoDup paths ∧ StronglySorted string_leb paths ∧ (∀ id, id ∈ taskIDs → id ≠ "" ∧ ∃ l, lockable tasks id l) ∧
  ∀ p, p ∈ paths ↔ ∃ id l, id ∈ taskIDs ∧ lockable tasks id l ∧ p ∈ l.
Proof.
  unfold LockedPathsForTasks. destruct (locked_paths_loop tasks taskIDs [] [] []) as [out|] eqn:E; [|done]. intros [= <-].
  destruct (locked_paths_spec _ _ _ _ _ _ E ltac:(done) ltac:(constructor)) as (H1 & H2 & H3 & H4 & H5).
  assert (Hperm : sort_strings out ≡ₚ out) by apply merge_sort_Permutation.
  split_and!; [done|by rewrite Hperm| | |].
  - apply Sorted_StronglySorted; [intros a b c; rewrite !Is_true_true; apply string_leb_trans|].
    apply Sorted_merge_sort. intros a b. rewrite !Is_true_true. apply string_leb_total.
  - intros id Hid. split; [by apply H2|by apply H4].
  - intros p. rewrite Hperm, H5. split; [intros [[]%not_elem_of_nil|?]|]; eauto.
Qed.

(** The records of paths are prefix codes. *)
Lemma be_bytes_length n x : length (Sha256.be_bytes n x) = n.
Proof. revert x. induction n as [|n IH]; intros x; simpl; [done|]. rewrite length_app, IH. simpl. lia. Qed.
Lemma be_bytes_inj n x y :
  0 ≤ x < 2 ^ (8 * Z.of_nat n) → 0 ≤ y < 2 ^ (8 * Z.of_nat n) → Sha256.be_bytes n x = Sha256.be_bytes n y → x = y.
Proof.
  revert x y. induction n as [|n IH]; intros x y Hx Hy; simpl; [simpl in *; lia|]. intros [H1 H2]%app_inj_2; [|done].
  injection H2 as H2. replace (8 * Z.of_nat (S n)) with (8 * Z.of_nat n + 8) in * by lia. rewrite Z.pow_add_r in * by lia.
  change (2 ^ 8) with 256 in *. rewrite !Z.shiftr_div_pow2 in H1 by lia. change (2 ^ 8) with 256 in *.
  change 255 with (Z.ones 8) in H2. rewrite !Z.land_ones in H2 by lia. change (2 ^ 8) with 256 in *.
  assert (x / 256 = y / 256).
  { apply IH; [..|done]; (split; [apply Z.div_pos; lia|apply Z.div_lt_upper_bound; lia]). }
  rewrite (Z.div_mod x 256), (Z.div_mod y 256) by lia. congruence.
Qed.
Lemma byte_values_inj s t : byte_values s = byte_values t → s = t.
Proof. intros H. rewrite <- (from_bytes_byte_values s), <- (from_bytes_byte_values t). by rewrite H. Qed.
Lemma byte_values_length s : length (byte_values s) = String.length s.
Proof. unfold byte_values, str. rewrite length_map. induction s; simpl; [done|]. by f_equal. Qed.
Lemma path_record_inj p q (l k : list Z) :
  byte_length p < 2 ^ 64 → byte_length q < 2 ^ 64 → path_record p ++ l = path_record q ++ k → p = q ∧ l = k.
Proof.
  unfold path_record. rewrite <- !app_assoc. intros Hp Hq [H1 H2]%app_inj_1; [|by rewrite !be_bytes_length].
  apply be_bytes_inj in H1; [|unfold byte_length in *; simpl; lia..].
  apply app_inj_1 in H2 as [H2 ->]; [|rewrite !byte_values_length; lia]. split; [by apply byte_values_inj|done].
Qed.
Lemma path_record_nonempty p l : path_record p ++ l ≠ [].
Proof. unfold path_record. intros [[H _]%app_nil _]%app_nil. apply (f_equal length) in H. by rewrite be_bytes_length in H. Qed.
Lemma path_records_inj l k :
  Forall (λ p, byte_length p < 2 ^ 64) l → Forall (λ p, byte_length p < 2 ^ 64) k →
  concat (path_record <$> l) = concat (path_record <$> k) → l = k.
Proof.
  intros Hl. revert k. induction Hl as [|p l Hp _ IH]; intros [|q k] Hk H; [done| | |].
  - symmetry in H. by apply path_record_nonempty in H.
  - by apply path_record_nonempty in H.
  - apply Forall_cons in Hk as [Hq Hk]. apply path_record_inj in H as [-> H]; [|done..]. f_equal. by apply IH.
Qed.
(** The bytes hashed for a set of locked paths determine the paths: paths
    shorter than 2^64 bytes are separated by their length, so different sets are
    told apart by anything short of a collision of SHA-256. *)
Theorem locked_path_preimage l k :
  Forall (λ p, byte_length p < 2 ^ 64) l → Forall (λ p, byte_length p < 2 ^ 64) k →
  concat (path_record <$> sort_strings l) = concat (path_record <$> sort_strings k) → l ≡ₚ k.
Proof.
  assert (Hperm : ∀ x, sort_strings x ≡ₚ x) by (intros x; apply merge_sort_Permutation). intros Hl Hk H.
  rewrite <- (Hperm l), <- (Hperm k). rewrite <- (Hperm l) in Hl. rewrite <- (Hperm k) in Hk.
  by rewrite (path_records_inj _ _ Hl Hk H).
Qed.
Lemma locked_path_preimage_witness :
  concat (path_record <$> sort_strings ["b"; "a"]) = concat (path_record <$> sort_strings ["a"; "b"]) ∧ ["b"; "a"] ≡ₚ ["a"; "b"].
Proof.
  assert (H : concat (path_record <$> sort_strings ["b"; "a"]) = concat (path_record <$> sort_strings ["a"; "b"])) by (vm_compute; reflexivity).
  split; [exact H|]. apply locked_path_preimage; [repeat constructor..|exact H].
Defined.
Lemma LockedPathsForTasks_exact_witness :
  LockedPathsForTasks ["t1"] [sample_task] = Ok ["/replicas"] ∧ NoDup ["t1"] ∧ ∀ p, p ∈ ["/replicas"] ↔ ∃ id l, id ∈ ["t1"] ∧ lockable [sample_task] id l ∧ p ∈ l.
Proof.
  assert (H : LockedPathsForTasks ["t1"] [sample_task] = Ok ["/replicas"]) by (vm_compute; reflexivity).
  destruct (LockedPathsForTasks_exact _ _ _ H) as (H1 & _ & _ & _ & H5). split; [exact H|]. split; [exact H1|exact H5].
Defined.

Lemma no_conflict_spec ids paths tasks :
  HasActiveConvergencePathConflict ids paths tasks = Ok false →
  ∀ t, t ∈ tasks → ct_ID t ∉ ids → ct_Status t = PendingPromotion → opt_nonempty (ct_ActiveRevisionID t) = true →
  ∃ l, decode_strings (ct_PromotionPaths t) = Some l ∧ ∀ p, p ∈ l → p ∉ paths.
Proof.
  induction tasks as [|x tasks IH]; simpl; [set_solver|]. intros H t [->|Ht]%elem_of_cons Hid Hst Hact.
  - rewrite bool_decide_false in H by done. rewrite bool_decide_true, Hact in H by done. simpl in H.
    destruct (decode_strings (ct_PromotionPaths x)) as [l|]; [|done]. destruct (existsb _ _) eqn:E; [done|].
    exists l. split; [done|]. intros p Hp. apply existsb_false_forall in E.
    apply (proj1 (Forall_forall _ _) E) in Hp. by case_bool_decide.
  - revert H. case_bool_decide; [intros; by apply IH|]. destruct (_ || _); [intros; by apply IH|].
    destruct (decode_strings (ct_PromotionPaths x)); [|done]. destruct (existsb _ _); [done|]. intros; by apply IH.
Qed.

(** ** Committed drafts and discards *)
Definition binds_task (ids : list string) (revisionID definitionID : string) (t t' : ConvergenceTask) : Prop :=
  ct_ID t ∈ ids ∧ ct_ReleaseDefinitionID t = definitionID ∧ ct_Status t = PendingPromotion ∧ ct_ActiveRevisionID t = None ∧
  t' = with_binding (Some revisionID) (Some "draft") None true t.
(** The tasks before and after [bind_tasks], row by row. *)
Definition bound_rows (ids : list string) (revisionID definitionID : string) : list ConvergenceTask → list ConvergenceTask → Prop :=
  Forall2 (λ t t', t' = t ∧ (ct_ID t ∈ ids → ct_ReleaseDefinitionID t ≠ definitionID ∨ ct_Status t ≠ PendingPromotion ∨ ct_ActiveRevisionID t ≠ None)
                   ∨ binds_task ids revisionID definitionID t t').

Lemma bindable_spec id d t :
  bindable id d t = true ↔ ct_ID t = id ∧ ct_ReleaseDefinitionID t = d ∧ ct_Status t = PendingPromotion ∧ ct_ActiveRevisionID t = None.
Proof. unfold bindable, pending_task. rewrite !andb_true_iff, !bool_decide_eq_true. tauto. Qed.
Lemma bind_tasks_Ok ids rid d w u w' :
  bind_tasks ids rid d w = (Ok u, w') →
  ∃ tasks', w' = with_db (set_convergence_tasks tasks' (w_db w)) w ∧ bound_rows ids rid d (db_convergence_tasks (w_db w)) tasks' ∧
  ∀ id, id ∈ ids → ∃ t, t ∈ db_convergence_tasks (w_db w) ∧ ct_ID t = id ∧ ct_ReleaseDefinitionID t = d ∧
                       ct_Status t = PendingPromotion ∧ ct_ActiveRevisionID t = None.
Proof.
  revert w. induction ids as [|id ids IH]; intros w; simpl; intros H.
  - apply ret_Ok in H as [_ <-]. exists (db_convergence_tasks (w_db w)). split; [by destruct w as [[]]|]. split; [|set_solver].
    apply Forall2_same_length_lookup. split; [done|]. intros i x y Hx Hy. left. split; [congruence|set_solver].
  - dinv. apply negb_false_iff, Nat.eqb_eq in Hguard. destruct (IH _ H) as (tasks' & -> & Hb & Hall). simpl in *.
    exists tasks'. split; [done|]. split.
    + unfold bound_rows in *. rewrite Forall2_lookup in *. intros i. specialize (Hb i). unfold update_where in Hb.
      rewrite list_lookup_fmap in Hb. destruct (db_convergence_tasks (w_db w) !! i) as [t|]; [|by inversion Hb; constructor].
      simpl in Hb. inversion Hb as [? t' Ht' E1 E2|]; subst. constructor.
      destruct (bindable id d t) eqn:Eb.
      * apply bindable_spec in Eb as (Hid & ? & ? & ?). right.
        destruct Ht' as [[-> _]|(_ & _ & _ & Hact & _)]; [|done]. split_and!; [rewrite Hid; by left|done..].
      * destruct Ht' as [[-> Hnot]|(Hid & ? & ? & ? & ->)]; [|right; split_and!; [by right|done..]].
        left. split; [done|]. intros [E|Hin]%elem_of_cons; [|by apply Hnot].
        destruct (decide (ct_ReleaseDefinitionID t = d)); [right|by left]. destruct (decide (ct_Status t = PendingPromotion)); [right|by left].
        intros Hact. rewrite <- not_true_iff_false, bindable_spec in Eb. by apply Eb.
    + intros i [->|Hi]%elem_of_cons.
      * destruct (filter (λ r, bindable id d r = true) (db_convergence_tasks (w_db w))) as [|t l] eqn:E;
          [unfold rows_affected in Hguard; by rewrite E in Hguard|].
        assert (Ht : t ∈ filter (λ r, bindable id d r = true) (db_convergence_tasks (w_db w))) by (rewrite E; by left).
        apply list_elem_of_filter in Ht as [Ht%bindable_spec ?]. destruct Ht as (? & ? & ? & ?). by exists t.
      * destruct (Hall i Hi) as (t & Ht & H1 & H2 & H3 & H4). apply update_where_elem in Ht as (y & Hy & ->).
        destruct (bindable id d y); [done|]. by exists y.
Qed.

Lemma lookupCreate_db c o w w' : lookupCreateValuesReplay c w = (o, w') → w_db w' = w_db w.
Proof.
  intros H. apply (frame (λ db, db) _ _ _ _) in H; [done|].
  unfold lookupCreateValuesReplay, lookupValuesLifecycleReplay, getValues. db_preserve.
Qed.
Lemma lookupDiscard_db c o w w' : lookupDiscardValuesReplay c w = (o, w') → w_db w' = w_db w.
Proof.
  intros H. apply (frame (λ db, db) _ _ _ _) in H; [done|].
  unfold lookupDiscardValuesReplay, lookupValuesLifecycleReplay, getValues. db_preserve.
Qed.
Lemma lifecycle_record_keeps {T} (f : DB → T) scope key hash e ref o w w' :
  is_idempotency_frame f → insertValuesLifecycleIdempotency scope key hash e ref w = (o, w') → f (w_db w') = f (w_db w).
Proof.
  intros Hf H. apply (frame f _ _ _ _) in H; [done|]. unfold insertValuesLifecycleIdempotency. db_preserve.
  - by apply deleteExpiredRecord_frame; [apply _|].
  - apply preserves_exec_other; [apply _|intros; apply Hf].
Qed.

(** The prepare session a draft consumed and the tasks it bound. *)
Record session_effect (c : CreateValuesDraftCommand) (revision : ValuesRevision) (db db' : DB) : Prop := {
  se_session : ∃ s n, db_prepare_sessions db !! cvc_PrepareTokenHash c = Some s ∧
    session_usable c (vr_ReleaseDefinitionID revision) n s = true ∧
    db_prepare_sessions db' = <[cvc_PrepareTokenHash c := consume n s]> (db_prepare_sessions db) ∧
    ps_ParentRevisionID s = vr_ParentRevisionID revision ∧ ps_ParentVersion s = vr_Version revision - 1 ∧
    (cvc_ExpectedLockedPathHash c ≠ "" → ps_LockedPathHash s = cvc_ExpectedLockedPathHash c) ∧
    let all := filter (λ t, ct_ReleaseDefinitionID t = vr_ReleaseDefinitionID revision) (db_convergence_tasks db) in
    ∃ paths, LockedPathsForTasks (ps_TaskIDs s) (omap (λ id, find (λ t, bool_decide (ct_ID t = id)) all) (ps_TaskIDs s)) = Ok paths ∧
      LockedPathHash paths = ps_LockedPathHash s ∧ LockedPathHash (ps_LockedPaths s) = ps_LockedPathHash s ∧
      HasActiveConvergencePathConflict (ps_TaskIDs s) paths all = Ok false ∧
      bound_rows (ps_TaskIDs s) (vr_ID revision) (vr_ReleaseDefinitionID revision) (db_convergence_tasks db) (db_convergence_tasks db') ∧
      ∀ id, id ∈ ps_TaskIDs s → ∃ t, t ∈ db_convergence_tasks db ∧ ct_ID t = id ∧
        ct_ReleaseDefinitionID t = vr_ReleaseDefinitionID revision ∧ ct_Status t = PendingPromotion ∧ ct_ActiveRevisionID t = None;
}.
(** A committed draft. *)
Record draft_effect (c : CreateValuesDraftCommand) (r revision : ValuesRevision) (db db' : DB) : Prop := {
  de_fields : ∃ created updated, revision = new_draft c (vr_Version revision) created updated r;
  de_version : match max_version (vr_ReleaseDefinitionID r) db with
               | None => vr_Version revision = 1 ∧ vr_ParentRevisionID r = ""
               | Some v => vr_Version revision = v + 1 ∧ cvc_ExpectedParentVersion c = v ∧
                           ∃ p, p ∈ db_values_revisions db ∧ vr_ID p = vr_ParentRevisionID r ∧
                                vr_ReleaseDefinitionID p = vr_ReleaseDefinitionID r
               end;
  de_definition : is_Some (db_release_definitions db !! vr_ReleaseDefinitionID r);
  de_fresh : ∀ x, x ∈ db_values_revisions db → rows_clash (draft_row revision) x = false;
  de_revisions : db_values_revisions db' = db_values_revisions db ++ [draft_row revision];
  de_session : if bool_decide (cvc_PrepareTokenHash c = "")
               then db_convergence_tasks db' = db_convergence_tasks db ∧ db_prepare_sessions db' = db_prepare_sessions db
               else session_effect c revision db db';
  de_audit : ∃ id event_id, db_audit_outbox db' = db_audit_outbox db
               ++ [new_outbox_entry id "ValuesRevisionCreated" (created_payload c revision event_id) (vr_CreatedAt revision)];
  de_rest : db_values_revision_decisions db' = db_values_revision_decisions db ∧
    db_release_definitions db' = db_release_definitions db ∧ db_notification_outbox db' = db_notification_outbox db ∧
    db_operations db' = db_operations db ∧ db_emergency_intents db' = db_emergency_intents db;
}.

Lemma insert_values_row_inv row e msg w u w' :
  insert_values_row row e msg w = (Ok u, w') →
  (∀ x, x ∈ db_values_revisions (w_db w) → rows_clash row x = false) ∧
  w' = with_db (set_values_revisions (db_values_revisions (w_db w) ++ [row]) (w_db w)) w.
Proof.
  unfold insert_values_row. intros H. dinv. split; [|done]. intros x Hx.
  match goal with H : existsb _ _ = false |- _ => apply existsb_false_forall in H; by apply (proj1 (Forall_forall _ _) H) end.
Qed.
Lemma consume_Ok c d s w w' :
  consumePrepareSession c d w = (Ok s, w') →
  ∃ s0, db_prepare_sessions (w_db w) !! cvc_PrepareTokenHash c = Some s0 ∧ session_usable c d (w_clock w 0) s0 = true ∧
    s = consume (w_clock w 0) s0 ∧
    w' = with_db (set_prepare_sessions (<[cvc_PrepareTokenHash c := s]> (db_prepare_sessions (w_db w))) (w_db w)) (tick w).
Proof.
  unfold consumePrepareSession. intros H. dinv.
  destruct (db_prepare_sessions (w_db w) !! cvc_PrepareTokenHash c) as [s0|] eqn:Es; simpl in *.
  - destruct (session_usable c d (w_clock w 0) s0) eqn:Eu; simpl in *; dinv.
    + unfold getPrepareSession in *. dinv. rewrite lookup_alter_eq, Es in *. simpl in *.
      match goal with H : Some _ = Some _ |- _ => injection H as <- end.
      exists s0. split; [done|]. split; [done|]. split; [done|]. do 2 f_equal. apply map_eq. intros k.
      destruct (decide (k = cvc_PrepareTokenHash c)) as [->|Hk].
      * by rewrite lookup_insert_eq, lookup_alter_eq, Es.
      * by rewrite lookup_insert_ne, lookup_alter_ne.
    + destruct (negb _); [dinv|]. case_bool_decide; dinv.
  - unfold getPrepareSession in *. dinv. congruence.
Qed.

Lemma lift_res_Ok {A} (r : res error A) a w w' : lift_res r w = (Ok a, w') → r = Ok a ∧ w' = w.
Proof. destruct r; simpl; [unfold ret|unfold throw]; by intros [= <- <-]. Qed.
Lemma validate_parent_Ok d p e n w w' :
  validateValuesParent d p e w = (Ok n, w') →
  w' = w ∧ match max_version d (w_db w) with
           | None => n = 1 ∧ p = ""
           | Some v => n = v + 1 ∧ e = v ∧ ∃ x, x ∈ db_values_revisions (w_db w) ∧ vr_ID x = p ∧ vr_ReleaseDefinitionID x = d
           end.
Proof.
  unfold validateValuesParent. intros H. dinv. destruct (max_version d (w_db w)) as [v|].
  - destruct (bool_decide (p = "") && (e =? 0)); [dinv|].
    destruct (bool_decide (p = "") || negb (e =? v)) eqn:E; dinv. destruct_bools.
    destruct (find_row (byID p) (db_values_revisions (w_db w))) as [x|] eqn:Ex; dinv.
    case_bool_decide; simpl in H; dinv. apply find_row_Some in Ex as [? Hid]. unfold byID in Hid. case_bool_decide; [|done].
    split; [done|]. split; [done|]. split; [done|]. by exists x.
  - destruct (negb (bool_decide (p = "")) || negb (e =? 0)) eqn:E; dinv. destruct_bools. done.
Qed.

(** What [bindPrepareTasks] established, and the tasks it leaves. *)
Definition bindPrepareTasks_post (s : PrepareSession) (r : ValuesRevision) (db : DB) (tasks' : list ConvergenceTask) : Prop :=
  ps_ParentRevisionID s = vr_ParentRevisionID r ∧ ps_ParentVersion s = vr_Version r - 1 ∧
  let all := filter (λ t, ct_ReleaseDefinitionID t = vr_ReleaseDefinitionID r) (db_convergence_tasks db) in
  ∃ paths, LockedPathsForTasks (ps_TaskIDs s) (omap (λ id, find (λ t, bool_decide (ct_ID t = id)) all) (ps_TaskIDs s)) = Ok paths ∧
    LockedPathHash paths = ps_LockedPathHash s ∧ LockedPathHash (ps_LockedPaths s) = ps_LockedPathHash s ∧
    HasActiveConvergencePathConflict (ps_TaskIDs s) paths all = Ok false ∧
    bound_rows (ps_TaskIDs s) (vr_ID r) (vr_ReleaseDefinitionID r) (db_convergence_tasks db) tasks' ∧
    ∀ id, id ∈ ps_TaskIDs s → ∃ t, t ∈ db_convergence_tasks db ∧ ct_ID t = id ∧
      ct_ReleaseDefinitionID t = vr_ReleaseDefinitionID r ∧ ct_Status t = PendingPromotion ∧ ct_ActiveRevisionID t = None.
Lemma bindPrepareTasks_Ok s r u w w' :
  bindPrepareTasks s r w = (Ok u, w') →
  ps_ParentRevisionID s = vr_ParentRevisionID r ∧ ps_ParentVersion s = vr_Version r - 1 ∧
  let all := filter (λ t, ct_ReleaseDefinitionID t = vr_ReleaseDefinitionID r) (db_convergence_tasks (w_db w)) in
  ∃ paths tasks', LockedPathsForTasks (ps_TaskIDs s) (omap (λ id, find (λ t, bool_decide (ct_ID t = id)) all) (ps_TaskIDs s)) = Ok paths ∧
    LockedPathHash paths = ps_LockedPathHash s ∧ LockedPathHash (ps_LockedPaths s) = ps_LockedPathHash s ∧
    HasActiveConvergencePathConflict (ps_TaskIDs s) paths all = Ok false ∧
    w' = with_db (set_convergence_tasks tasks' (w_db w)) w ∧
    bound_rows (ps_TaskIDs s) (vr_ID r) (vr_ReleaseDefinitionID r) (db_convergence_tasks (w_db w)) tasks' ∧
    ∀ id, id ∈ ps_TaskIDs s → ∃ t, t ∈ db_convergence_tasks (w_db w) ∧ ct_ID t = id ∧
      ct_ReleaseDefinitionID t = vr_ReleaseDefinitionID r ∧ ct_Status t = PendingPromotion ∧ ct_ActiveRevisionID t = None.
Proof.
  unfold bindPrepareTasks. intros H. apply bind_Ok in H as (? & w1 & Hg & H). apply fail_if_Ok in Hg as [Hg <-]. destruct_bools.
  apply bind_Ok in H as (all & w2 & Hq & H). apply query_Ok in Hq as [-> <-].
  apply bind_Ok in H as (paths & w3 & Hp & H). apply lift_res_Ok in Hp as [Hp ->].
  apply bind_Ok in H as (? & w4 & Hg & H). apply fail_if_Ok in Hg as [Hg <-]. destruct_bools.
  apply bind_Ok in H as (b & w5 & Hc & H). apply lift_res_Ok in Hc as [Hc ->].
  apply bind_Ok in H as (? & w6 & Hg & H). apply fail_if_Ok in Hg as [-> <-].
  apply bind_tasks_Ok in H as (tasks' & -> & Hb & Hall). split; [done|]. split; [lia|]. by exists paths, tasks'.
Qed.

Lemma createDraft_tx_Commit c r w x w' :
  createDraft_tx c r w = (Ok (Commit x), w') → ∃ revision, x = {| cvr_Revision := revision; cvr_Replayed := false |} ∧ draft_effect c r revision (w_db w) (w_db w').
Proof.
  intros H. unfold createDraft_tx in H. apply bind_Ok in H as (u & w1 & Hf & H). apply fence_Ok in Hf as ->.
  apply bind_Ok in H as (o & w2 & Hl & H). apply lookupCreate_db in Hl. destruct o as [y|]; [by apply ret_Ok in H as [? _]|].
  apply bind_Ok in H as (prepared & w3 & Hp & H). apply bind_Ok in H as (? & w4 & Hg & H). apply fail_if_Ok in Hg as [Hg <-].
  apply bind_Ok in H as (d & w5 & Hd & H). apply query_Ok in Hd as [-> <-].
  apply bind_Ok in H as (? & w6 & Hdef & H). apply fail_if_Ok in Hdef as [Hdef <-].
  apply bind_Ok in H as (n & w7 & Hv & H). unfold catch in Hv.
  destruct (validateValuesParent (vr_ReleaseDefinitionID r) (vr_ParentRevisionID r) (cvc_ExpectedParentVersion c) w3) as [[m|e] w3'] eqn:Ev;
    [apply ret_Ok in Hv as [-> ->]|destruct (_ && _); by apply throw_Ok in Hv].
  apply validate_parent_Ok in Ev as [-> Hver].
  apply bind_Ok in H as (created & w8 & Hcr & H). apply or_now_Ok in Hcr as (Hcdb & _ & _).
  set (updated := if is_zero_time (vr_UpdatedAt r) then created else vr_UpdatedAt r) in H.
  set (revision := new_draft c n created updated r) in H.
  apply bind_Ok in H as (? & w9 & Hi & H). apply insert_values_row_inv in Hi as [Hfresh ->].
  apply bind_Ok in H as (? & w10 & Hb & H). apply bind_Ok in H as (? & w11 & He & H).
  apply bind_Ok in H as (? & w12 & Hid & H). apply (lifecycle_record_keeps no_records) in Hid; [|apply no_records_frame].
  apply bind_Ok in H as (? & w13 & Hf & H). apply fence_Ok in Hf as ->. apply ret_Ok in H as [[= <-] <-].
  exists revision. split; [done|]. unfold insertValuesCreatedEvent in He. dinv. apply insertApprovalOutbox_inv in He. simpl in He.
  assert (Hdb3 : ∃ ss, w_db w3 = set_prepare_sessions ss (w_db w) ∧
    if bool_decide (cvc_PrepareTokenHash c = "") then prepared = None ∧ ss = db_prepare_sessions (w_db w)
    else ∃ s t, prepared = Some (consume t s) ∧ db_prepare_sessions (w_db w) !! cvc_PrepareTokenHash c = Some s ∧
         session_usable c (vr_ReleaseDefinitionID r) t s = true ∧ ss = <[cvc_PrepareTokenHash c := consume t s]> (db_prepare_sessions (w_db w))).
  { revert Hp. destruct (bool_decide (cvc_PrepareTokenHash c = "")); cbn [negb]; intros Hp.
    - apply ret_Ok in Hp as [<- <-]. exists (db_prepare_sessions (w_db w)). rewrite Hl. by destruct (w_db w).
    - apply bind_Ok in Hp as (s & w3' & Hc & Hp). apply ret_Ok in Hp as [<- <-].
      apply consume_Ok in Hc as (s0 & H1 & H2 & -> & ->). rewrite Hl in *. eexists. split; [done|]. by exists s0, (w_clock w2 0). }
  destruct Hdb3 as (ss & Hdb3 & Hprep). rewrite Hcdb, Hdb3 in *. simpl in *.
  assert (Hb10 : ∃ tasks', w_db w10 = set_convergence_tasks tasks' (set_values_revisions
      (db_values_revisions (w_db w) ++ [draft_row revision]) (set_prepare_sessions ss (w_db w))) ∧
    match prepared with
    | None => tasks' = db_convergence_tasks (w_db w)
    | Some s => bindPrepareTasks_post s revision (w_db w) tasks'
    end).
  { destruct prepared as [s|].
    - apply bindPrepareTasks_Ok in Hb as (Hp1 & Hp2 & paths & tasks' & Hb1 & Hb2 & Hb3 & Hb4 & -> & Hb5).
      exists tasks'. split; [done|]. split; [done|]. split; [done|]. by exists paths.
    - apply ret_Ok in Hb as [_ <-]. exists (db_convergence_tasks (w_db w)). split; [simpl; by destruct (w_db w)|done]. }
  destruct Hb10 as (tasks' & Hb10 & Htasks). rewrite Hb10 in He. destruct_bools.
  constructor; same_tables Hid; rewrite ?He; simpl; try done.
  - by exists created, updated.
  - destruct (db_release_definitions (w_db w) !! vr_ReleaseDefinitionID r); [done|congruence].
  - destruct (bool_decide (cvc_PrepareTokenHash c = "")).
    + destruct Hprep as [-> ->]. split; [done|done].
    + destruct Hprep as (s & t & -> & H1 & H2 & ->). constructor. same_tables Hid. rewrite He. simpl.
      destruct Htasks as (Hp1 & Hp2 & paths & ? & ? & ? & ? & ? & ?). simpl in *.
      exists s, t. split; [done|]. split; [done|]. split; [done|]. split; [done|]. split; [done|]. split.
      * intros Hne. rewrite bool_decide_false in Hg by done. simpl in Hg. by case_bool_decide.
      * by exists paths.
  - by eexists _, _.
Qed.

(** A committed discard. *)
Record discard_effect (c : DiscardValuesCommand) (res : DiscardValuesResult) (db db' : DB) : Prop := {
  xe_one : rows_affected (discardable c) (db_values_revisions db) = 1%nat;
  xe_revisions : db_values_revisions db' =
    update_where (discardable c) (set_state ValuesStatusDiscarded None (Some (dvr_DecidedAt res)) (dvr_DecidedAt res)) (db_values_revisions db);
  xe_decision : ∃ id, db_values_revision_decisions db' =
    db_values_revision_decisions db ++ [discard_decision c (dvr_Revision res) id (dvr_DecidedAt res)];
  xe_tasks : db_convergence_tasks db' =
    update_where (λ t, bound_to (dvc_RevisionID c) t && pending_task t) (with_binding None None None true) (db_convergence_tasks db);
  xe_result : find_row (byID (dvc_RevisionID c)) (db_values_revisions db') = Some (dvr_Revision res) ∧
    dvr_PreviousState res = Some ValuesStatusDraft ∧ dvr_NewState res = Some ValuesStatusDiscarded ∧ dvr_Replayed res = false;
  xe_audit : ∃ id event_id, db_audit_outbox db' = db_audit_outbox db ++
    [new_outbox_entry id "ValuesRevisionDiscarded" (discarded_payload c (dvr_Revision res) (dvr_DecidedAt res) event_id) (dvr_DecidedAt res)];
  xe_rest : db_release_definitions db' = db_release_definitions db ∧ db_notification_outbox db' = db_notification_outbox db ∧
    db_prepare_sessions db' = db_prepare_sessions db ∧ db_operations db' = db_operations db ∧
    db_emergency_intents db' = db_emergency_intents db;
}.
Lemma find_row_byID id r rows : find_row (byID id) rows = Some r → r ∈ rows ∧ vr_ID r = id.
Proof. intros [? H]%find_row_Some. unfold byID in H. by case_bool_decide. Qed.
Lemma discard_tx_Commit c w res w' : discard_tx c w = (Ok (Commit res), w') → discard_effect c res (w_db w) (w_db w').
Proof.
  intros H. unfold discard_tx in H. apply bind_Ok in H as (u & w1 & Hf & H). apply fence_Ok in Hf as ->.
  apply bind_Ok in H as (o & w2 & Hl & H). apply lookupDiscard_db in Hl. destruct o as [y|]; [by apply ret_Ok in H as [? _]|].
  apply bind_Ok in H as (n & w3 & Hn & H). apply now_Ok in Hn as [-> ->].
  apply bind_Ok in H as (k & w4 & Hk & H). apply query_Ok in Hk as [-> <-].
  apply bind_Ok in H as (? & w5 & Hx & H). apply exec_Ok in Hx as ->.
  destruct (rows_affected (discardable c) (db_values_revisions (w_db (tick w2))) =? 1)%nat eqn:E; simpl in H; [|by dinv].
  apply bind_Ok in H as (r & w6 & Hr & H). apply getValues_Ok in Hr as [Hr <-]. apply bind_Ok in H as (did & w7 & Hd & H).
  apply new_uuid_Ok in Hd as [-> ->]. apply bind_Ok in H as (? & w8 & Hd & H). apply insertDecision_inv in Hd as ->.
  apply bind_Ok in H as (? & w9 & Hx & H). apply exec_Ok in Hx as ->. apply bind_Ok in H as (? & w10 & He & H).
  apply bind_Ok in H as (? & w11 & Hid & H). apply (lifecycle_record_keeps no_records) in Hid; [|apply no_records_frame].
  apply bind_Ok in H as (? & w12 & Hf & H). apply fence_Ok in Hf as ->. apply ret_Ok in H as [[= <-] <-].
  unfold insertValuesDiscardedEvent in He. dinv. apply insertApprovalOutbox_inv in He. simpl in *. rewrite Hl in *.
  apply Nat.eqb_eq in E. destruct (find_row_byID _ _ _ Hr) as [_ Hid'].
  constructor; same_tables Hid; rewrite ?He; simpl; try done; eauto. by rewrite Hid'.
Qed.
