(* ===== verification/Operators.v ===== *)
(** * Operators, sessions and enrollment tokens (store/sqlite/operators.go,
    operator_management.go, operator_lifecycle.go, clusters.go)

    An operator process enrols with a single-use token, is identified from then on
    by the serial of its certificate, keeps one live session and is superseded or
    revoked for good.  The UNIQUE indexes of the schema are checked on the table a
    statement would leave. *)
From S2P Require Import Prelude Utf8 Redact Hash Domain Database AuthStore.
#[local] Open Scope Z_scope.

(** ** Rows *)
Definition token_expired (t : EnrollmentToken) : EnrollmentToken :=
  {| et_ID := et_ID t; et_CustomerID := et_CustomerID t; et_ClusterID := et_ClusterID t; et_OperatorName := et_OperatorName t;
     et_TokenHash := et_TokenHash t; et_State := TokenStateExpired; et_CreatedByDisplayName := et_CreatedByDisplayName t;
     et_CreatedAt := et_CreatedAt t; et_ExpiresAt := et_ExpiresAt t; et_UsedAt := et_UsedAt t; et_OperatorID := et_OperatorID t;
     et_RevokedAt := et_RevokedAt t; et_ReplacedByID := et_ReplacedByID t |}.
Definition token_revoked (at_ : time) (replacedBy : string) (t : EnrollmentToken) : EnrollmentToken :=
  {| et_ID := et_ID t; et_CustomerID := et_CustomerID t; et_ClusterID := et_ClusterID t; et_OperatorName := et_OperatorName t;
     et_TokenHash := et_TokenHash t; et_State := TokenStateRevoked; et_CreatedByDisplayName := et_CreatedByDisplayName t;
     et_CreatedAt := et_CreatedAt t; et_ExpiresAt := et_ExpiresAt t; et_UsedAt := et_UsedAt t; et_OperatorID := et_OperatorID t;
     et_RevokedAt := Some at_; et_ReplacedByID := replacedBy |}.
Definition token_used (at_ : time) (operatorID : string) (t : EnrollmentToken) : EnrollmentToken :=
  {| et_ID := et_ID t; et_CustomerID := et_CustomerID t; et_ClusterID := et_ClusterID t; et_OperatorName := et_OperatorName t;
     et_TokenHash := et_TokenHash t; et_State := TokenStateUsed; et_CreatedByDisplayName := et_CreatedByDisplayName t;
     et_CreatedAt := et_CreatedAt t; et_ExpiresAt := et_ExpiresAt t; et_UsedAt := Some at_; et_OperatorID := operatorID;
     et_RevokedAt := et_RevokedAt t; et_ReplacedByID := et_ReplacedByID t |}.
Definition operator_superseded (by_ : string) (at_ : time) (o : Operator) : Operator :=
  {| o_ID := o_ID o; o_Name := o_Name o; o_CustomerID := o_CustomerID o; o_ClusterID := o_ClusterID o; o_CertSerial := o_CertSerial o;
     o_CertificateExpiresAt := o_CertificateExpiresAt o; o_Status := OperatorSuperseded; o_SupersededBy := by_; o_SupersededAt := Some at_;
     o_RevokedAt := o_RevokedAt o; o_RevokeReason := o_RevokeReason o; o_RegisteredAt := o_RegisteredAt o; o_UpdatedAt := at_ |}.
Definition operator_revoked (reason : string) (at_ : time) (o : Operator) : Operator :=
  {| o_ID := o_ID o; o_Name := o_Name o; o_CustomerID := o_CustomerID o; o_ClusterID := o_ClusterID o; o_CertSerial := o_CertSerial o;
     o_CertificateExpiresAt := o_CertificateExpiresAt o; o_Status := OperatorRevoked; o_SupersededBy := o_SupersededBy o;
     o_SupersededAt := o_SupersededAt o; o_RevokedAt := Some at_; o_RevokeReason := reason; o_RegisteredAt := o_RegisteredAt o;
     o_UpdatedAt := at_ |}.
Definition operator_certified (serial : string) (expiresAt at_ : time) (o : Operator) : Operator :=
  {| o_ID := o_ID o; o_Name := o_Name o; o_CustomerID := o_CustomerID o; o_ClusterID := o_ClusterID o; o_CertSerial := serial;
     o_CertificateExpiresAt := Some expiresAt; o_Status := o_Status o; o_SupersededBy := o_SupersededBy o;
     o_SupersededAt := o_SupersededAt o; o_RevokedAt := o_RevokedAt o; o_RevokeReason := o_RevokeReason o;
     o_RegisteredAt := o_RegisteredAt o; o_UpdatedAt := at_ |}.
Definition operator_registered (at_ : time) (o : Operator) : Operator :=
  {| o_ID := o_ID o; o_Name := o_Name o; o_CustomerID := o_CustomerID o; o_ClusterID := o_ClusterID o; o_CertSerial := o_CertSerial o;
     o_CertificateExpiresAt := o_CertificateExpiresAt o; o_Status := o_Status o; o_SupersededBy := ""; o_SupersededAt := None;
     o_RevokedAt := None; o_RevokeReason := ""; o_RegisteredAt := at_; o_UpdatedAt := at_ |}.
Definition session_status (status : SessionStatus) (reason : option SessionStatusReason) (closedAt : option time) (heartbeat : time)
    (s : Session) : Session :=
  {| sn_ID := sn_ID s; sn_OperatorID := sn_OperatorID s; sn_CustomerID := sn_CustomerID s; sn_ClusterID := sn_ClusterID s;
     sn_Status := status; sn_StatusReason := reason; sn_InstanceID := sn_InstanceID s; sn_Version := sn_Version s;
     sn_Capabilities := sn_Capabilities s; sn_ActiveConfigVersion := sn_ActiveConfigVersion s; sn_StartedAt := sn_StartedAt s;
     sn_LastHeartbeat := heartbeat; sn_ExpiresAt := sn_ExpiresAt s; sn_ClosedAt := closedAt |}.
Definition session_closed (status : SessionStatus) (reason : SessionStatusReason) (at_ : time) (s : Session) : Session :=
  session_status status (Some reason) (Some at_) (sn_LastHeartbeat s) s.
(** prepareSession: the defaults of the zero fields. *)
Definition prepareSession (now : time) (s : Session) : Session :=
  let startedAt := if is_zero_time (sn_StartedAt s) then now else sn_StartedAt s in
  {| sn_ID := sn_ID s; sn_OperatorID := sn_OperatorID s; sn_CustomerID := sn_CustomerID s; sn_ClusterID := sn_ClusterID s;
     sn_Status := sn_Status s; sn_StatusReason := sn_StatusReason s; sn_InstanceID := sn_InstanceID s; sn_Version := sn_Version s;
     sn_Capabilities := sn_Capabilities s; sn_ActiveConfigVersion := sn_ActiveConfigVersion s; sn_StartedAt := startedAt;
     sn_LastHeartbeat := if is_zero_time (sn_LastHeartbeat s) then startedAt else sn_LastHeartbeat s;
     sn_ExpiresAt := if is_zero_time (sn_ExpiresAt s) then startedAt else sn_ExpiresAt s; sn_ClosedAt := sn_ClosedAt s |}.
Definition session_for (op : Operator) (s : Session) : Session :=
  {| sn_ID := sn_ID s; sn_OperatorID := o_ID op; sn_CustomerID := o_CustomerID op; sn_ClusterID := o_ClusterID op;
     sn_Status := sn_Status s; sn_StatusReason := None; sn_InstanceID := sn_InstanceID s; sn_Version := sn_Version s;
     sn_Capabilities := sn_Capabilities s; sn_ActiveConfigVersion := sn_ActiveConfigVersion s; sn_StartedAt := sn_StartedAt s;
     sn_LastHeartbeat := sn_LastHeartbeat s; sn_ExpiresAt := sn_ExpiresAt s; sn_ClosedAt := None |}.

(** ** Predicates of the WHERE clauses *)
Definition is_active (o : Operator) : bool := bool_decide (o_Status o = OperatorActive).
Definition is_live (s : Session) : bool := bool_decide (sn_Status s = SessionOnline) || bool_decide (sn_Status s = SessionSuspect).
Definition is_pending (t : EnrollmentToken) : bool := bool_decide (et_State t = TokenStatePending).
Definition live_of (operatorID : string) (s : Session) : bool := bool_decide (sn_OperatorID s = operatorID) && is_live s.
Definition unrevoked_of (operatorID : string) (s : Session) : bool :=
  bool_decide (sn_OperatorID s = operatorID) && negb (bool_decide (sn_Status s = SessionRevoked)).
Definition pending_of (customerID clusterID : string) (t : EnrollmentToken) : bool :=
  bool_decide (et_CustomerID t = customerID) && bool_decide (et_ClusterID t = clusterID) && is_pending t.
Definition pending_id (id : string) (t : EnrollmentToken) : bool := bool_decide (et_ID t = id) && is_pending t.

(** The first row in a strict order: [ORDER BY ... LIMIT 1]. *)
Fixpoint first_by {A} (before : A → A → bool) (l : list A) : option A :=
  match l with
  | [] => None
  | x :: l => match first_by before l with Some y => Some (if before y x then y else x) | None => Some x end
  end.
Lemma first_by_elem {A} (before : A → A → bool) l x : first_by before l = Some x → x ∈ l.
Proof.
  revert x. induction l as [|y l IH]; intros x; simpl; [done|]. destruct (first_by before l) as [z|]; [|intros [= <-]; by left].
  intros [= <-]. destruct (before z y); [right; by apply IH|by left].
Qed.
Definition id_after (a b : string) : bool := negb (string_leb a b).
Definition newer_token (a b : EnrollmentToken) : bool :=
  text_ltb (et_CreatedAt b) (et_CreatedAt a) || ((et_CreatedAt a =? et_CreatedAt b) && id_after (et_ID a) (et_ID b)).
Definition started_after (a b : Session) : bool := text_ltb (sn_StartedAt b) (sn_StartedAt a).
Definition started_after_id (a b : Session) : bool :=
  started_after a b || ((sn_StartedAt a =? sn_StartedAt b) && id_after (sn_ID a) (sn_ID b)).

(** ** The tables and their UNIQUE indexes *)
Definition tokens_of (db : DB) : list EnrollmentToken := ft_enrollment_tokens (db_fleet db).
Definition operators_of (db : DB) : list Operator := ft_operators (db_fleet db).
Definition sessions_of (db : DB) : list Session := ft_sessions (db_fleet db).
Definition tokens_ok (l : list EnrollmentToken) : Prop :=
  NoDup (et_ID <$> l) ∧ NoDup (et_ClusterID <$> filter (λ t, is_pending t = true) l).
Definition operators_ok (l : list Operator) : Prop :=
  NoDup (o_ID <$> l) ∧ NoDup (o_CertSerial <$> l)
  ∧ NoDup ((λ o, (o_CustomerID o, o_Name o)) <$> filter (λ o, is_active o = true) l)
  ∧ NoDup (o_ClusterID <$> filter (λ o, is_active o = true) l).
Definition sessions_ok (l : list Session) : Prop :=
  NoDup (sn_ID <$> l) ∧ NoDup (sn_OperatorID <$> filter (λ s, is_live s = true) l).
#[export] Instance tokens_ok_dec l : Decision (tokens_ok l).
Proof. unfold tokens_ok. apply _. Defined.
#[export] Instance operators_ok_dec l : Decision (operators_ok l).
Proof. unfold operators_ok. apply _. Defined.
#[export] Instance sessions_ok_dec l : Decision (sessions_ok l).
Proof. unfold sessions_ok. apply _. Defined.

(** Statements on one table; a violated index fails the statement with [e]. *)
Definition write_tokens (e : error) (f : list EnrollmentToken → list EnrollmentToken) : SM unit :=
  let! l := query (λ db, f (tokens_of db)) in
  fail_if (negb (bool_decide (tokens_ok l))) e ;! exec (on_fleet (set_enrollment_tokens l)).
Definition write_operators (e : error) (f : list Operator → list Operator) : SM unit :=
  let! l := query (λ db, f (operators_of db)) in
  fail_if (negb (bool_decide (operators_ok l))) e ;! exec (on_fleet (set_operators l)).
Definition write_sessions (e : error) (f : list Session → list Session) : SM unit :=
  let! l := query (λ db, f (sessions_of db)) in
  fail_if (negb (bool_decide (sessions_ok l))) e ;! exec (on_fleet (set_operator_sessions l)).
Definition insert_session (e : error) (s : Session) : SM unit :=
  check_fk (λ db, existsb (λ o, bool_decide (o_ID o = sn_OperatorID s)) (operators_of db)) "insert session" ;!
  write_sessions e (λ l, l ++ [s]).

(** ** Audit events written in the transaction (insertOperatorAuditEvent) *)
Definition SanitizeAuditEvent (ev : AuditEvent) : AuditEvent :=
  {| au_ID := au_ID ev; au_ActorKind := au_ActorKind ev; au_ActorID := au_ActorID ev; au_OrganizationID := au_OrganizationID ev;
     au_Role := au_Role ev; au_ResourceType := au_ResourceType ev; au_ResourceID := au_ResourceID ev; au_Action := au_Action ev;
     au_Status := au_Status ev; au_DurationMs := au_DurationMs ev; au_ChangeSummary := (Sanitize (au_ChangeSummary ev)).1;
     au_Metadata := (λ kv, (kv.1, (Sanitize (Sensitive kv.1 kv.2)).1)) <$> au_Metadata ev; au_CreatedAt := au_CreatedAt ev |}.
Definition SystemOrganizationID : string := "system".
Definition default_event (id : string) : AuditEvent :=
  {| au_ID := id; au_ActorKind := "system"; au_ActorID := "system"; au_OrganizationID := SystemOrganizationID; au_Role := "system";
     au_ResourceType := "operator"; au_ResourceID := ""; au_Action := "operator.revoked"; au_Status := "succeeded"; au_DurationMs := 0;
     au_ChangeSummary := ""; au_Metadata := []; au_CreatedAt := 0 |}.
Definition event_at (t : time) (ev : AuditEvent) : AuditEvent :=
  {| au_ID := au_ID ev; au_ActorKind := au_ActorKind ev; au_ActorID := au_ActorID ev; au_OrganizationID := au_OrganizationID ev;
     au_Role := au_Role ev; au_ResourceType := au_ResourceType ev; au_ResourceID := au_ResourceID ev; au_Action := au_Action ev;
     au_Status := au_Status ev; au_DurationMs := au_DurationMs ev; au_ChangeSummary := au_ChangeSummary ev;
     au_Metadata := au_Metadata ev; au_CreatedAt := t |}.
Definition insertOperatorAuditEvent (event : option AuditEvent) : SM unit :=
  let! event := match event with Some ev => ret ev | None => let! id := new_uuid in ret (default_event id) end in
  fail_if (bool_decide (au_ID event = "") || bool_decide (au_ActorID event = "") || bool_decide (au_OrganizationID event = "")
           || bool_decide (au_Action event = "")) ErrAuditUnavailable ;!
  let event := SanitizeAuditEvent event in
  let! createdAt := or_now (au_CreatedAt event) in
  let! clash := query (λ db, existsb (λ ev, bool_decide (au_ID ev = au_ID event)) (ft_audit_events (db_fleet db))) in
  fail_if clash (ErrOther "insert operator audit event") ;!
  exec (on_fleet (λ t, set_audit_events (ft_audit_events t ++ [event_at createdAt event]) t)).

(** ** Enrollment tokens *)
Definition GetByToken (token : string) : SM EnrollmentToken :=
  let! row := query (λ db, find_row (λ t, bool_decide (et_TokenHash t = sha256_hex token)) (tokens_of db)) in scan_row row.
Definition GetPendingByCluster (customerID clusterID : string) : SM EnrollmentToken :=
  let! row := query (λ db, first_by newer_token (filter (λ t, pending_of customerID clusterID t = true) (tokens_of db))) in scan_row row.
Record EnrollmentTokenMutation := { em_Token : option EnrollmentToken; em_PreviousID : string; em_Changed : bool }.
Definition token_defaults (createdAt : time) (t : EnrollmentToken) : EnrollmentToken :=
  {| et_ID := et_ID t; et_CustomerID := et_CustomerID t; et_ClusterID := et_ClusterID t; et_OperatorName := et_OperatorName t;
     et_TokenHash := et_TokenHash t; et_State := et_State t; et_CreatedByDisplayName := et_CreatedByDisplayName t;
     et_CreatedAt := createdAt; et_ExpiresAt := et_ExpiresAt t; et_UsedAt := None; et_OperatorID := ""; et_RevokedAt := None;
     et_ReplacedByID := "" |}.
(** The expiry, the refusal or the replacement of the pending token. *)
Definition retire_pending (token : EnrollmentToken) (replacePending : bool) : SM string :=
  let! previous := query (λ db, first_by newer_token (filter (λ t, pending_of (et_CustomerID token) (et_ClusterID token) t = true) (tokens_of db))) in
  match previous with
  | None => ret ""
  | Some p =>
      let! t := now in
      if negb (t <? et_ExpiresAt p)
      then write_tokens ErrUniqueConstraint (update_where (pending_id (et_ID p)) token_expired) ;! ret ""
      else
        fail_if (negb replacePending) ErrPendingTokenExists ;!
        let! t := now in
        let! rows := query (λ db, rows_affected (pending_id (et_ID p)) (tokens_of db)) in
        write_tokens ErrUniqueConstraint (update_where (pending_id (et_ID p)) (token_revoked t (et_ID token))) ;!
        fail_if (negb (rows =? 1)%nat) ErrTokenReplaceConflict ;!
        ret (et_ID p)
  end.
Definition createEnrollmentTokenTx (token : EnrollmentToken) (replacePending : bool) (auditEvent : option AuditEvent)
    : SM (outcome EnrollmentTokenMutation) :=
  let! previousID := retire_pending token replacePending in
  write_tokens (if replacePending then ErrTokenReplaceConflict else ErrPendingTokenExists) (λ l, l ++ [token]) ;!
  insertOperatorAuditEvent auditEvent ;!
  ret (Commit {| em_Token := Some token; em_PreviousID := previousID; em_Changed := true |}).
Definition CreateEnrollmentToken_store (token : EnrollmentToken) (replacePending : bool) (auditEvent : option AuditEvent)
    : SM EnrollmentTokenMutation :=
  let! createdAt := or_now (et_CreatedAt token) in
  retryBusy (run_tx (createEnrollmentTokenTx (token_defaults createdAt token) replacePending auditEvent)).
Definition revokePendingTx (customerID clusterID : string) (auditEvent : option AuditEvent) : SM (outcome EnrollmentTokenMutation) :=
  let! row := query (λ db, first_by newer_token (filter (λ t, pending_of customerID clusterID t = true) (tokens_of db))) in
  match row with
  | None => insertOperatorAuditEvent auditEvent ;! ret (Commit {| em_Token := None; em_PreviousID := ""; em_Changed := false |})
  | Some token =>
      let! t := now in
      let! rows := query (λ db, rows_affected (pending_id (et_ID token)) (tokens_of db)) in
      if negb (t <? et_ExpiresAt token)
      then
        write_tokens ErrUniqueConstraint (update_where (pending_id (et_ID token)) token_expired) ;!
        insertOperatorAuditEvent auditEvent ;!
        ret (Commit {| em_Token := Some (token_expired token); em_PreviousID := ""; em_Changed := (rows =? 1)%nat |})
      else
        write_tokens ErrUniqueConstraint (update_where (pending_id (et_ID token)) (λ r, token_revoked t (et_ReplacedByID r) r)) ;!
        if negb (rows =? 1)%nat then ret (Rollback {| em_Token := Some token; em_PreviousID := ""; em_Changed := false |})
        else
          insertOperatorAuditEvent auditEvent ;!
          ret (Commit {| em_Token := Some (token_revoked t (et_ReplacedByID token) token); em_PreviousID := ""; em_Changed := true |})
  end.
Definition RevokePendingEnrollmentToken_store (customerID clusterID : string) (auditEvent : option AuditEvent) : SM EnrollmentTokenMutation :=
  run_tx (revokePendingTx customerID clusterID auditEvent).

(** ** Enrollment *)
Record OperatorEnrollment := { oe_Operator : Operator; oe_Session : Session; oe_SupersededOperatorID : string }.
(** The active operator of the cluster is superseded and loses its sessions. *)
Definition supersede_active (op : Operator) (startedAt : time) : SM string :=
  let! existing := query (λ db, find_row (λ o, bool_decide (o_ClusterID o = o_ClusterID op) && is_active o) (operators_of db)) in
  match existing with
  | None => ret ""
  | Some existing =>
      write_operators ErrUniqueConstraint
        (update_where (λ o, bool_decide (o_ID o = o_ID existing) && is_active o) (operator_superseded (o_ID op) startedAt)) ;!
      write_sessions ErrUniqueConstraint
        (update_where (unrevoked_of (o_ID existing)) (session_closed SessionRevoked SessionReasonOperatorSuperseded startedAt)) ;!
      ret (o_ID existing)
  end.
Definition enrollOperatorTx (tokenID : string) (op : Operator) (session : Session) : SM (outcome OperatorEnrollment) :=
  let! row := query (λ db, find_row (λ t, bool_decide (et_ID t = tokenID)) (tokens_of db)) in
  let! token := scan_row row in
  let! t := now in
  fail_if (negb (is_pending token) || (et_ExpiresAt token <? t)) ErrOperatorStateConflict ;!
  fail_if (negb (bool_decide (et_CustomerID token = o_CustomerID op)) || negb (bool_decide (et_ClusterID token = o_ClusterID op))
           || negb (bool_decide (et_OperatorName token = o_Name op))) ErrNotAuthorized ;!
  let! rows := query (λ db, rows_affected (pending_id tokenID) (tokens_of db)) in
  write_tokens ErrUniqueConstraint (update_where (pending_id tokenID) (token_used (sn_StartedAt session) (o_ID op))) ;!
  fail_if (negb (rows =? 1)%nat) ErrOperatorStateConflict ;!
  let! supersededID := supersede_active op (sn_StartedAt session) in
  write_operators ErrDuplicateOperatorName (λ l, l ++ [op]) ;!
  insert_session (ErrOther "insert enrollment session") session ;!
  ret (Commit {| oe_Operator := op; oe_Session := session; oe_SupersededOperatorID := supersededID |}).
Definition enrollOperator (tokenID : string) (op : Operator) (session : Session) : SM OperatorEnrollment :=
  let! t := now in
  let session := session_for op (prepareSession t session) in
  run_tx (enrollOperatorTx tokenID (operator_registered (sn_StartedAt session) op) session).
Definition EnrollOperator (tokenID : string) (op : Operator) (session : Session) : SM OperatorEnrollment :=
  fail_if (bool_decide (tokenID = "") || bool_decide (o_CustomerID op = "") || bool_decide (o_ClusterID op = "")
           || bool_decide (o_Name op = "")) (ErrOther "enroll operator") ;!
  retryBusy (enrollOperator tokenID op session).

(** ** Revocation *)
Record OperatorRevocation := { ov_Operator : Operator; ov_Session : option Session; ov_Changed : bool }.
Definition scoped (customerID clusterID operatorID : string) (o : Operator) : bool :=
  bool_decide (o_ID o = operatorID) && bool_decide (o_CustomerID o = customerID) && bool_decide (o_ClusterID o = clusterID).
Definition is_revoked (o : Operator) : bool := bool_decide (o_Status o = OperatorRevoked).
Definition revokeOperatorTx (customerID clusterID operatorID reason : string) (auditEvent : option AuditEvent)
    : SM (outcome OperatorRevocation) :=
  let! row := query (λ db, find_row (scoped customerID clusterID operatorID) (operators_of db)) in
  match row with
  | None => throw ErrOperatorNotFound
  | Some op =>
      let! latestSession := query (λ db, first_by started_after_id (filter (λ s, sn_OperatorID s = operatorID) (sessions_of db))) in
      if is_revoked op
      then
        insertOperatorAuditEvent auditEvent ;!
        ret (Commit {| ov_Operator := op; ov_Session := latestSession; ov_Changed := false |})
      else
        let! t := now in
        let unrevoked := λ o, scoped customerID clusterID operatorID o && negb (is_revoked o) in
        let! rows := query (λ db, rows_affected unrevoked (operators_of db)) in
        write_operators ErrUniqueConstraint (update_where unrevoked (operator_revoked reason t)) ;!
        fail_if (negb (rows =? 1)%nat) ErrOperatorStateConflict ;!
        let sessionReason := if bool_decide (o_Status op = OperatorSuperseded) then SessionReasonOperatorSuperseded else SessionReasonCertRevoked in
        write_sessions ErrUniqueConstraint (update_where (unrevoked_of operatorID) (session_closed SessionRevoked sessionReason t)) ;!
        insertOperatorAuditEvent auditEvent ;!
        ret (Commit {| ov_Operator := operator_revoked reason t op;
                       ov_Session := session_closed SessionRevoked sessionReason t <$> latestSession; ov_Changed := true |})
  end.
Definition RevokeOperator_store (customerID clusterID operatorID reason : string) (auditEvent : option AuditEvent) : SM OperatorRevocation :=
  run_tx (revokeOperatorTx customerID clusterID operatorID reason auditEvent).

(** ** The operator store *)
Definition Create_operator (op : Operator) : SM unit :=
  let! registeredAt := or_now (o_RegisteredAt op) in
  let updatedAt := if is_zero_time (o_UpdatedAt op) then registeredAt else o_UpdatedAt op in
  autocommit (write_operators ErrUniqueConstraint (λ l, l ++
    [{| o_ID := o_ID op; o_Name := o_Name op; o_CustomerID := o_CustomerID op; o_ClusterID := o_ClusterID op;
        o_CertSerial := o_CertSerial op; o_CertificateExpiresAt := o_CertificateExpiresAt op; o_Status := o_Status op;
        o_SupersededBy := o_SupersededBy op; o_SupersededAt := o_SupersededAt op; o_RevokedAt := o_RevokedAt op;
        o_RevokeReason := o_RevokeReason op; o_RegisteredAt := registeredAt; o_UpdatedAt := updatedAt |}])).
Definition Get_operator (id : string) : SM Operator :=
  let! row := query (λ db, find_row (λ o, bool_decide (o_ID o = id)) (operators_of db)) in scan_row row.
Definition GetByCertSerial (serial : string) : SM Operator :=
  let! row := query (λ db, find_row (λ o, bool_decide (o_CertSerial o = serial)) (operators_of db)) in scan_row row.
Definition Update_operator (op : Operator) : SM unit :=
  let! updatedAt := now in
  autocommit (write_operators ErrUniqueConstraint (update_where (λ o, bool_decide (o_ID o = o_ID op)) (λ o,
    {| o_ID := o_ID o; o_Name := o_Name op; o_CustomerID := o_CustomerID o; o_ClusterID := o_ClusterID o;
       o_CertSerial := o_CertSerial op; o_CertificateExpiresAt := o_CertificateExpiresAt op; o_Status := o_Status op;
       o_SupersededBy := o_SupersededBy op; o_SupersededAt := o_SupersededAt op; o_RevokedAt := o_RevokedAt op;
       o_RevokeReason := o_RevokeReason op; o_RegisteredAt := o_RegisteredAt o; o_UpdatedAt := updatedAt |}))).
Definition GetByClusterID (clusterID : string) : SM Operator :=
  let! row := query (λ db, find_row (λ o, bool_decide (o_ClusterID o = clusterID) && is_active o) (operators_of db)) in scan_row row.
Definition GetActiveByName (customerID name : string) : SM Operator :=
  let! row := query (λ db, find_row (λ o, bool_decide (o_CustomerID o = customerID) && bool_decide (o_Name o = name) && is_active o)
                                    (operators_of db)) in scan_row row.
Definition ListByCluster_operators (clusterID : string) : SM (list Operator) :=
  query (λ db, filter (λ o, o_ClusterID o = clusterID) (operators_of db)).

(** ** The session store *)
Definition Establish (sess : Session) : SM unit :=
  let! t := now in
  let sess := prepareSession t sess in
  run_tx (
    let! active := query (λ db, first_by started_after (filter (λ s, live_of (sn_OperatorID sess) s = true) (sessions_of db))) in
    fail_if (match active with
             | Some s => negb (bool_decide (sn_InstanceID s = "")) && negb (bool_decide (sn_InstanceID s = sn_InstanceID sess))
             | None => false
             end) ErrDuplicateKey ;!
    let! replacedAt := now in
    write_sessions ErrUniqueConstraint (update_where (live_of (sn_OperatorID sess))
                                          (session_closed SessionOffline SessionReasonSessionReplaced replacedAt)) ;!
    insert_session (ErrOther "insert established session") sess ;!
    ret (Commit tt)).
Definition Get_operator_session (id : string) : SM Session :=
  let! row := query (λ db, find_row (λ s, bool_decide (sn_ID s = id)) (sessions_of db)) in scan_row row.
Definition update_session (p : Session → bool) (f : Session → Session) : SM unit :=
  let! rows := autocommit (
    let! rows := query (λ db, rows_affected p (sessions_of db)) in
    write_sessions ErrUniqueConstraint (update_where p f) ;! ret rows) in
  fail_if (rows =? 0)%nat ErrNotFound.
Definition Heartbeat_session (id : string) : SM unit :=
  let! t := now in
  update_session (λ s, bool_decide (sn_ID s = id) && is_live s) (λ s, session_status SessionOnline None (sn_ClosedAt s) t s).
Definition status_reason (status : SessionStatus) : option SessionStatusReason :=
  match status with
  | SessionSuspect => Some SessionReasonHeartbeatDelayed
  | SessionOffline => Some SessionReasonHeartbeatTimeout
  | SessionOnline | SessionRevoked => None
  end.
Definition UpdateStatus_session (id : string) (status : SessionStatus) : SM unit :=
  update_session (λ s, bool_decide (sn_ID s = id) && negb (bool_decide (sn_Status s = SessionRevoked)))
    (λ s, session_status status (status_reason status) (sn_ClosedAt s) (sn_LastHeartbeat s) s).
Definition GetActiveByOperator (operatorID : string) : SM Session :=
  let! row := query (λ db, first_by started_after (filter (λ s, live_of operatorID s = true) (sessions_of db))) in scan_row row.
Definition GetLatestByOperator (operatorID : string) : SM Session :=
  let! row := query (λ db, first_by started_after (filter (λ s, sn_OperatorID s = operatorID) (sessions_of db))) in scan_row row.
Definition ListExpiredSuspect (suspectAfter : Z) : SM (list Session) :=
  let! t := now in
  query (λ db, filter (λ s, is_live s = true ∧ text_ltb (sn_LastHeartbeat s) (t - suspectAfter) = true) (sessions_of db)).

(** ** Certificates and the disabling of a scope (operator_lifecycle.go) *)
Definition UpdateCertificate (operatorID expectedSerial newSerial : string) (expiresAt : time) : SM unit :=
  let! t := now in
  let current := λ o, bool_decide (o_ID o = operatorID) && bool_decide (o_CertSerial o = expectedSerial) && is_active o in
  let! rows := autocommit (
    let! rows := query (λ db, rows_affected current (operators_of db)) in
    write_operators ErrDuplicateKey (update_where current (operator_certified newSerial expiresAt t)) ;! ret rows) in
  fail_if (rows =? 0)%nat ErrCertificateConflict.
Record CascadeRevokeResult := { cr_TokenIDs : list string; cr_OperatorIDs : list string; cr_SessionIDs : list string; cr_Changed : bool }.
Inductive scope : Type := ScopeCustomer (id : string) | ScopeCluster (id : string).
Definition in_scope (sc : scope) (customerID clusterID : string) : bool :=
  match sc with ScopeCustomer id => bool_decide (customerID = id) | ScopeCluster id => bool_decide (clusterID = id) end.
Definition token_in (sc : scope) (t : EnrollmentToken) : bool := in_scope sc (et_CustomerID t) (et_ClusterID t) && is_pending t.
Definition operator_in (sc : scope) (o : Operator) : bool := in_scope sc (o_CustomerID o) (o_ClusterID o) && negb (is_revoked o).
Definition session_of (operatorIDs : list string) (s : Session) : bool := bool_decide (sn_OperatorID s ∈ operatorIDs) && is_live s.
Definition when (b : bool) (m : SM unit) : SM unit := if b then m else ret tt.
Definition nonempty {A} (l : list A) : bool := match l with [] => false | _ => true end.
Definition revokeScopeTx (sc : scope) (reason : string) : SM (outcome CascadeRevokeResult) :=
  let! t := now in
  let! tokenIDs := query (λ db, et_ID <$> filter (λ r, token_in sc r = true) (tokens_of db)) in
  let! operatorIDs := query (λ db, o_ID <$> filter (λ r, operator_in sc r = true) (operators_of db)) in
  let! sessionIDs := query (λ db, sn_ID <$> filter (λ r, session_of operatorIDs r = true) (sessions_of db)) in
  when (nonempty tokenIDs)
    (write_tokens ErrUniqueConstraint (update_where (token_in sc) (λ r, token_revoked t (et_ReplacedByID r) r))) ;!
  when (nonempty operatorIDs) (write_operators ErrUniqueConstraint (update_where (operator_in sc) (operator_revoked reason t))) ;!
  when (nonempty sessionIDs)
    (write_sessions ErrUniqueConstraint (update_where (session_of operatorIDs) (session_closed SessionRevoked SessionReasonCertRevoked t))) ;!
  ret (Commit {| cr_TokenIDs := tokenIDs; cr_OperatorIDs := operatorIDs; cr_SessionIDs := sessionIDs;
                 cr_Changed := nonempty tokenIDs || nonempty operatorIDs || nonempty sessionIDs |}).
Definition revokeScope (sc : scope) (reason : string) : SM CascadeRevokeResult := run_tx (revokeScopeTx sc reason).
Definition DisableCustomer_store (customerID reason : string) : SM CascadeRevokeResult := revokeScope (ScopeCustomer customerID) reason.
Definition DisableCluster_store (clusterID reason : string) : SM CascadeRevokeResult := revokeScope (ScopeCluster clusterID) reason.

(** ** Clusters (clusters.go) *)
Definition cluster_row (c : Cluster) (createdAt updatedAt : time) (version : Z) : Cluster :=
  {| kl_ID := kl_ID c; kl_Name := kl_Name c; kl_CustomerID := kl_CustomerID c; kl_KubeconfigRef := kl_KubeconfigRef c;
     kl_Status := kl_Status c; kl_CreatedAt := rfc3339 createdAt; kl_UpdatedAt := rfc3339 updatedAt; kl_Version := version |}.
Definition clusters_of (db : DB) : gmap string Cluster := ft_clusters (db_fleet db).
Definition Create_cluster (c : Cluster) : SM unit :=
  let! createdAt := or_now (kl_CreatedAt c) in
  let updatedAt := if is_zero_time (kl_UpdatedAt c) then createdAt else kl_UpdatedAt c in
  autocommit (
    check_fk (λ db, bool_decide (is_Some (db_customers db !! kl_CustomerID c))) "insert cluster" ;!
    let! clash := query (λ db, bool_decide (is_Some (clusters_of db !! kl_ID c))) in
    fail_if clash (ErrOther "insert cluster") ;!
    exec (on_fleet (λ t, set_clusters (<[kl_ID c := cluster_row c createdAt updatedAt 1]> (ft_clusters t)) t))).
Definition Get_cluster (id : string) : SM Cluster := let! row := query (λ db, clusters_of db !! id) in scan_row row.
Definition Update_cluster (c : Cluster) (expectedVersion : Z) : SM unit :=
  let! updatedAt := now in
  autocommit (
    let! row := query (λ db, clusters_of db !! kl_ID c) in
    match row with
    | Some r =>
        fail_if (negb (kl_Version r =? expectedVersion)) ErrOptimisticLock ;!
        exec (on_fleet (λ t, set_clusters (<[kl_ID c :=
          {| kl_ID := kl_ID r; kl_Name := kl_Name c; kl_CustomerID := kl_CustomerID r; kl_KubeconfigRef := kl_KubeconfigRef c;
             kl_Status := kl_Status c; kl_CreatedAt := kl_CreatedAt r; kl_UpdatedAt := rfc3339 updatedAt;
             kl_Version := kl_Version r + 1 |}]> (ft_clusters t)) t))
    | None => throw ErrOptimisticLock
    end).

(** ** Customer events (customer_events.go) *)
Definition Create_customer_event (ev : CustomerEvent) : SM unit :=
  let! createdAt := or_now (cv_CreatedAt ev) in
  autocommit (
    check_fk (λ db, bool_decide (is_Some (db_customers db !! cv_CustomerID ev))) "insert customer event" ;!
    let! clash := query (λ db, existsb (λ e, bool_decide (cv_ID e = cv_ID ev)) (ft_customer_events (db_fleet db))) in
    fail_if clash (ErrOther "insert customer event") ;!
    exec (on_fleet (λ t, set_customer_events (ft_customer_events t ++
      [{| cv_ID := cv_ID ev; cv_CustomerID := cv_CustomerID ev; cv_EventType := cv_EventType ev; cv_CreatedAt := rfc3339 createdAt |}]) t))).

(** ** How the tables evolve

    Rows are only appended.  A token leaves [pending] once and is final then; an
    operator keeps its identity, never becomes active again and keeps its
    certificate once it is not active; a revoked operator or session never changes. *)
Definition grows {A} (step : A → A → Prop) (l l' : list A) : Prop := ∃ l1 l2, l' = l1 ++ l2 ∧ Forall2 step l l1.
Definition token_step (x y : EnrollmentToken) : Prop :=
  et_ID y = et_ID x ∧ et_CustomerID y = et_CustomerID x ∧ et_ClusterID y = et_ClusterID x ∧ et_OperatorName y = et_OperatorName x
  ∧ et_TokenHash y = et_TokenHash x ∧ et_ExpiresAt y = et_ExpiresAt x ∧ (is_pending x = false → y = x).
Definition same_operator (x y : Operator) : Prop :=
  o_ID y = o_ID x ∧ o_Name y = o_Name x ∧ o_CustomerID y = o_CustomerID x ∧ o_ClusterID y = o_ClusterID x.
Definition operator_step (x y : Operator) : Prop :=
  same_operator x y ∧ o_RegisteredAt y = o_RegisteredAt x
  ∧ (is_active x = false → is_active y = false ∧ o_CertSerial y = o_CertSerial x) ∧ (is_revoked x = true → y = x).
Definition same_session (x y : Session) : Prop :=
  sn_ID y = sn_ID x ∧ sn_OperatorID y = sn_OperatorID x ∧ sn_CustomerID y = sn_CustomerID x ∧ sn_ClusterID y = sn_ClusterID x.
Definition session_step (x y : Session) : Prop := same_session x y ∧ (sn_Status x = SessionRevoked → y = x).
Definition clusters_kept (m m' : gmap string Cluster) : Prop :=
  ∀ k c, m !! k = Some c → ∃ c', m' !! k = Some c' ∧ kl_CustomerID c' = kl_CustomerID c ∧ kl_ID c' = kl_ID c.
Definition customers_kept (m m' : gmap string Customer) : Prop :=
  ∀ k c, m !! k = Some c → ∃ c', m' !! k = Some c' ∧ (cu_ID c = k → cu_ID c' = k).
Definition fleet_moves (db db' : DB) : Prop :=
  grows token_step (tokens_of db) (tokens_of db') ∧ grows operator_step (operators_of db) (operators_of db')
  ∧ grows session_step (sessions_of db) (sessions_of db') 
  ∧ clusters_kept (clusters_of db) (clusters_of db') ∧ customers_kept (db_customers db) (db_customers db').

#[export] Instance token_step_preorder : PreOrder token_step.
Proof.
  split; [by intros x; split_and!|]. intros x y z (?&?&?&?&?&?&Hx) (?&?&?&?&?&?&Hy).
  split_and!; try congruence. intros Hp. specialize (Hx Hp). subst y. by apply Hy.
Qed.
#[export] Instance same_operator_preorder : PreOrder same_operator.
Proof. split; [by intros x; split_and!|]. intros x y z (?&?&?&?) (?&?&?&?). split_and!; congruence. Qed.
#[export] Instance operator_step_preorder : PreOrder operator_step.
Proof.
  split; [by intros x; split_and!|]. intros x y z (S1&?&A1&R1) (S2&?&A2&R2). split_and!; [by etransitivity|congruence| |].
  - intros Hx. destruct (A1 Hx) as [Hy ?], (A2 Hy). split; congruence.
  - intros Hx. specialize (R1 Hx). subst y. by apply R2.
Qed.
#[export] Instance session_step_preorder : PreOrder session_step.
Proof.
  split; [by intros x; split_and!|]. intros x y z ((?&?&?&?)&R1) ((?&?&?&?)&R2).
  split; [split_and!; congruence|]. intros Hx. specialize (R1 Hx). subst y. by apply R2.
Qed.
#[export] Instance grows_preorder {A} (step : A → A → Prop) `{!PreOrder step} : PreOrder (grows step).
Proof.
  split.
  - intros l. exists l, []. split; [by rewrite app_nil_r|]. apply Forall_Forall2_diag, Forall_forall. reflexivity.
  - intros l1 l2 l3 (a & b & -> & H1) (c & d & -> & H2). apply Forall2_app_inv_l in H2 as (c1 & c2 & Hc1 & Hc2 & ->).
    exists c1, (c2 ++ d). split; [by rewrite app_assoc|]. by transitivity a.
Qed.
#[export] Instance fleet_moves_preorder : PreOrder fleet_moves.
Proof.
  split.
  - intros db. split_and!; [reflexivity..|intros k c Hc; by exists c|intros k c Hc; by exists c].
  - intros a b c (T1&O1&S1&C1&D1) (T2&O2&S2&C2&D2). split_and!; [by etransitivity..| |].
    + intros k x Hx. destruct (C1 k x Hx) as (y & Hy & ?&?), (C2 k y Hy) as (z & Hz & ?&?). exists z. split_and!; [done|congruence..].
    + intros k x Hx. destruct (D1 k x Hx) as (y & Hy & ?), (D2 k y Hy) as (z & Hz & ?). exists z. split; [done|auto].
Qed.
Lemma grows_update {A} (step : A → A → Prop) `{!PreOrder step} p f l :
  (∀ x, p x = true → step x (f x)) → grows step l (update_where p f l).
Proof.
  intros H. exists (update_where p f l), []. split; [by rewrite app_nil_r|]. unfold update_where. apply Forall2_fmap_r, Forall_Forall2_diag, Forall_forall.
  intros x _. simpl. destruct (p x) eqn:E; [by apply H|reflexivity].
Qed.
Lemma grows_app {A} (step : A → A → Prop) `{!PreOrder step} l l' x : grows step l l' → grows step l (l' ++ [x]).
Proof. intros (a & b & -> & H). exists a, (b ++ [x]). by rewrite app_assoc. Qed.
Lemma grows_elem {A} (step : A → A → Prop) l l' x : grows step l l' → x ∈ l → ∃ y, y ∈ l' ∧ step x y.
Proof.
  intros (a & b & -> & H) Hx. apply list_elem_of_lookup in Hx as [i Hi]. destruct (Forall2_lookup_l _ _ _ _ _ H Hi) as (y & Hy & ?).
  exists y. split; [apply elem_of_app; left; by eapply list_elem_of_lookup_2|done].
Qed.

(** ** The invariant of the tables *)
Definition is_used (t : EnrollmentToken) : bool := bool_decide (et_State t = TokenStateUsed).
Definition names_operator (t : EnrollmentToken) (o : Operator) : Prop :=
  is_used t = true ∧ et_OperatorID t = o_ID o ∧ et_CustomerID t = o_CustomerID o ∧ et_ClusterID t = o_ClusterID o ∧ et_OperatorName t = o_Name o.
Definition belongs (s : Session) (o : Operator) : Prop :=
  o_ID o = sn_OperatorID s ∧ o_CustomerID o = sn_CustomerID s ∧ o_ClusterID o = sn_ClusterID s.
Record linked (tokens : list EnrollmentToken) (ops : list Operator) (sessions : list Session) : Prop := {
  lk_enrolled : ∀ o, o ∈ ops → ∃ t, t ∈ tokens ∧ names_operator t o;
  lk_spent : ∀ t, t ∈ tokens → is_used t = true → ∃ o, o ∈ ops ∧ o_ID o = et_OperatorID t;
  lk_single : ∀ t u, t ∈ tokens → u ∈ tokens → is_used t = true → is_used u = true → et_OperatorID t = et_OperatorID u → et_ID t = et_ID u;
  lk_owned : ∀ s, s ∈ sessions → ∃ o, o ∈ ops ∧ belongs s o;
  lk_succeeded : ∀ o, o ∈ ops → o_Status o = OperatorSuperseded → ∃ n, n ∈ ops ∧ o_ID n = o_SupersededBy o ∧ o_ClusterID n = o_ClusterID o;
  lk_dated : ∀ o, o ∈ ops → is_revoked o = bool_decide (o_RevokedAt o ≠ None);
}.
Definition fleet_ok (db : DB) : Prop :=
  tokens_ok (tokens_of db) ∧ operators_ok (operators_of db) ∧ sessions_ok (sessions_of db)
  ∧ linked (tokens_of db) (operators_of db) (sessions_of db).
Definition settled (db db' : DB) : Prop := fleet_ok db → fleet_ok db' ∧ fleet_moves db db'.
#[export] Instance settled_preorder : PreOrder settled.
Proof.
  split; [by intros db; split|]. intros a b c H1 H2 Ha. destruct (H1 Ha) as [Hb M1], (H2 Hb) as [Hc M2].
  split; [done|by etransitivity].
Qed.
Abbreviation keeps_fleet m := (preserves (db_rel settled) m).

Lemma linked_tokens tokens tokens' ops sessions :
  (∀ t, is_used t = true → t ∈ tokens' ↔ t ∈ tokens) → linked tokens ops sessions → linked tokens' ops sessions.
Proof.
  intros H []. split; [|..]; try done.
  - intros o Ho. destruct (lk_enrolled0 o Ho) as (t & Ht & Hn). exists t. split; [apply H; [apply Hn|done]|done].
  - intros t Ht Hu. apply lk_spent0; [by apply H|done].
  - intros t u Ht Hu Ut Uu. apply lk_single0; [by apply H|by apply H|done..].
Qed.
Lemma linked_operators tokens p f ops sessions :
  (∀ o, o ∈ ops → p o = true → same_operator o (f o) ∧ is_revoked (f o) = bool_decide (o_RevokedAt (f o) ≠ None)) →
  (∀ o, o ∈ ops → p o = true → o_Status (f o) = OperatorSuperseded →
     ∃ n, n ∈ ops ∧ o_ID n = o_SupersededBy (f o) ∧ o_ClusterID n = o_ClusterID o) →
  linked tokens ops sessions → linked tokens (update_where p f ops) sessions.
Proof.
  intros Hf Hs [].
  assert (Hin : ∀ o, o ∈ ops → ∃ n, n ∈ update_where p f ops ∧ same_operator o n).
  { intros o Ho. exists (if p o then f o else o). split; [apply update_where_elem; eauto|].
    destruct (p o) eqn:E; [by apply Hf|reflexivity]. }
  split; [| |done|..].
  - intros o (x & Hx & ->)%update_where_elem. destruct (lk_enrolled0 x Hx) as (t & Ht & U & I & C & K & N). exists t. split; [done|].
    destruct (p x) eqn:E; [|done]. destruct (proj1 (Hf x Hx E)) as (?&?&?&?). unfold names_operator. split_and!; congruence.
  - intros t Ht U. destruct (lk_spent0 t Ht U) as (o & Ho & E). destruct (Hin o Ho) as (n & Hn & S & _). exists n. split; [done|congruence].
  - intros s Hsn. destruct (lk_owned0 s Hsn) as (o & Ho & I & C & K). destruct (Hin o Ho) as (n & Hn & ?&?&?&?).
    exists n. split; [done|]. unfold belongs. split_and!; congruence.
  - intros o (x & Hx & ->)%update_where_elem HS.
    assert (∃ n, n ∈ ops ∧ o_ID n = o_SupersededBy (if p x then f x else x) ∧ o_ClusterID n = o_ClusterID x) as (n & Hn & I & K).
    { destruct (p x) eqn:E; [by apply Hs|by apply lk_succeeded0]. }
    destruct (Hin n Hn) as (m & Hm & ?&?&?&?). exists m. split; [done|]. split; [congruence|].
    destruct (p x) eqn:E; [|congruence]. destruct (proj1 (Hf x Hx E)) as (?&?&?&?). congruence.
  - intros o (x & Hx & ->)%update_where_elem. destruct (p x) eqn:E; [by apply Hf|by apply lk_dated0].
Qed.
Lemma linked_sessions tokens ops sessions sessions' :
  (∀ s, s ∈ sessions' → (∃ x, x ∈ sessions ∧ same_session x s) ∨ ∃ o, o ∈ ops ∧ belongs s o) →
  linked tokens ops sessions → linked tokens ops sessions'.
Proof.
  intros H []. split; try done. intros s Hs. destruct (H s Hs) as [(x & Hx & ?&?&?&?)|?]; [|done].
  destruct (lk_owned0 x Hx) as (o & Ho & ?&?&?). exists o. split; [done|]. unfold belongs. split_and!; congruence.
Qed.
Lemma update_sessions_same p f (sessions : list Session) s :
  (∀ x, p x = true → same_session x (f x)) → s ∈ update_where p f sessions → ∃ x, x ∈ sessions ∧ same_session x s.
Proof.
  intros Hf (x & Hx & ->)%update_where_elem. exists x. split; [done|]. destruct (p x) eqn:E; [by apply Hf|by split_and!].
Qed.

(** ** Every method keeps the invariant *)
Lemma write_tokens_settles e f :
  (∀ db, fleet_ok db → linked (f (tokens_of db)) (operators_of db) (sessions_of db) ∧ grows token_step (tokens_of db) (f (tokens_of db))) →
  keeps_fleet (write_tokens e f).
Proof.
  intros Hf w r w'. unfold write_tokens, query, gets, bind, fail_if, exec, modify. case_bool_decide as Hok; simpl; intros [= <- <-] Hw; [|done].
  destruct (Hf _ Hw) as [Hl Hg], Hw as (_&?&?&_). split; [by split_and!|]. split_and!; [done|reflexivity..| |]; intros k c Hc; by exists c.
Qed.
Lemma write_operators_settles e f :
  (∀ db, fleet_ok db → linked (tokens_of db) (f (operators_of db)) (sessions_of db) ∧ grows operator_step (operators_of db) (f (operators_of db))) →
  keeps_fleet (write_operators e f).
Proof.
  intros Hf w r w'. unfold write_operators, query, gets, bind, fail_if, exec, modify. case_bool_decide as Hok; simpl; intros [= <- <-] Hw; [|done].
  destruct (Hf _ Hw) as [Hl Hg], Hw as (?&_&?&_). split; [by split_and!|]. split_and!; [reflexivity|done|reflexivity| |]; intros k c Hc; by exists c.
Qed.
Lemma write_sessions_run e f w r w' :
  write_sessions e f w = (r, w') → fleet_ok (w_db w) →
  linked (tokens_of (w_db w)) (operators_of (w_db w)) (f (sessions_of (w_db w))) →
  grows session_step (sessions_of (w_db w)) (f (sessions_of (w_db w))) →
  fleet_ok (w_db w') ∧ fleet_moves (w_db w) (w_db w').
Proof.
  unfold write_sessions, query, gets, bind, fail_if, exec, modify. case_bool_decide as Hok; simpl; intros [= <- <-] Hw Hl Hg; [|done].
  destruct Hw as (?&?&_&_). split; [by split_and!|]. split_and!; [reflexivity|reflexivity|done| |]; intros k c Hc; by exists c.
Qed.
Lemma update_sessions_settles e p f :
  (∀ s, p s = true → session_step s (f s)) → keeps_fleet (write_sessions e (update_where p f)).
Proof.
  intros Hf w r w' H Hw. apply (write_sessions_run _ _ _ _ _ H Hw); [|by apply grows_update; [apply _|]].
  apply (linked_sessions _ _ (sessions_of (w_db w))); [|by apply Hw]. intros s Hs. left. apply (update_sessions_same p f); [|done].
  intros x Hx. by apply Hf.
Qed.
Lemma update_tokens_settles e p f :
  (∀ t, p t = true → token_step t (f t) ∧ is_used t = false ∧ is_used (f t) = false) → keeps_fleet (write_tokens e (update_where p f)).
Proof.
  intros Hf. apply write_tokens_settles. intros db Hdb. split; [|apply grows_update; [apply _|]; intros; by apply Hf].
  apply (linked_tokens (tokens_of db)); [|by apply Hdb]. intros t Ht. rewrite update_where_elem. split.
  - intros (x & Hx & ->). destruct (p x) eqn:E; [|done]. destruct (Hf x E) as (_ & _ & ?). congruence.
  - intros Hin. exists t. split; [done|]. destruct (p t) eqn:E; [|done]. destruct (Hf t E) as (_ & ? & _). congruence.
Qed.
Lemma insert_token_settles e t : is_used t = false → keeps_fleet (write_tokens e (λ l, l ++ [t])).
Proof.
  intros Ht. apply write_tokens_settles. intros db Hdb. split; [|apply grows_app; [apply _|reflexivity]].
  apply (linked_tokens (tokens_of db)); [|by apply Hdb]. intros u Hu. rewrite elem_of_app, list_elem_of_singleton. split; [|by left].
  intros [?| ->]; [done|congruence].
Qed.
Lemma update_operators_settles e p f :
  (∀ o, p o = true → is_revoked o = bool_decide (o_RevokedAt o ≠ None) →
     is_revoked (f o) = bool_decide (o_RevokedAt (f o) ≠ None) ∧ o_Status (f o) ≠ OperatorSuperseded) →
  (∀ o, p o = true → operator_step o (f o)) → keeps_fleet (write_operators e (update_where p f)).
Proof.
  intros Hf Hs. apply write_operators_settles. intros db Hdb. split; [|by apply grows_update; [apply _|]].
  assert (Hd := lk_dated _ _ _ (proj2 (proj2 (proj2 Hdb)))). apply linked_operators; [..|by apply Hdb].
  - intros o Ho E. split; [by apply Hs|]. by apply Hf, Hd.
  - intros o Ho E HS. by destruct (Hf o E (Hd o Ho)).
Qed.
Lemma exec_audit_settles f : keeps_fleet (exec (on_fleet (λ t, set_audit_events (f t) t))).
Proof. apply preserves_exec. intros db Hdb. split; [done|]. split_and!; [reflexivity..| |]; intros k c Hc; by exists c. Qed.
Lemma audit_settles ev : keeps_fleet (insertOperatorAuditEvent ev).
Proof. unfold insertOperatorAuditEvent. db_preserve. apply exec_audit_settles. Qed.
#[export] Hint Resolve audit_settles : preserve.

Lemma pending_unused t : is_pending t = true → is_used t = false.
Proof. unfold is_pending, is_used. intros H. destruct_bools. by rewrite H. Qed.
Lemma pending_id_pending id t : pending_id id t = true → is_pending t = true.
Proof. unfold pending_id. intros H. by destruct_bools. Qed.
Lemma token_leaves t u : is_pending t = true →
  et_ID u = et_ID t → et_CustomerID u = et_CustomerID t → et_ClusterID u = et_ClusterID t → et_OperatorName u = et_OperatorName t →
  et_TokenHash u = et_TokenHash t → et_ExpiresAt u = et_ExpiresAt t → token_step t u.
Proof. intros Hp. intros. split_and!; try done. by rewrite Hp. Qed.
Lemma expire_settles e id : keeps_fleet (write_tokens e (update_where (pending_id id) token_expired)).
Proof.
  apply update_tokens_settles. intros t Ht%pending_id_pending. split; [by apply token_leaves|]. split; [by apply pending_unused|done].
Qed.
Lemma revoke_token_settles e p at_ by_ :
  (∀ t, p t = true → is_pending t = true) → keeps_fleet (write_tokens e (update_where p (λ t, token_revoked at_ (by_ t) t))).
Proof. intros Hp. apply update_tokens_settles. intros t Ht%Hp. split; [by apply token_leaves|]. split; [by apply pending_unused|done]. Qed.
#[export] Hint Resolve expire_settles insert_token_settles : preserve.
#[export] Hint Extern 1 (preserves _ (write_tokens _ (update_where (pending_id _) _))) =>
  (apply (revoke_token_settles _ _ _ (λ t, et_ReplacedByID t) (pending_id_pending _))) : preserve.
#[export] Hint Extern 1 (preserves _ (write_tokens _ (update_where (pending_id _) (token_revoked _ _)))) =>
  (eapply (revoke_token_settles _ _ _ (λ _, _) (pending_id_pending _))) : preserve.
Lemma CreateEnrollmentToken_settles t replace ev : is_used t = false → keeps_fleet (CreateEnrollmentToken_store t replace ev).
Proof.
  intros Ht. unfold CreateEnrollmentToken_store. db_preserve. unfold createEnrollmentTokenTx, retire_pending. db_preserve.
Qed.
Lemma RevokePending_settles c k ev : keeps_fleet (RevokePendingEnrollmentToken_store c k ev).
Proof. unfold RevokePendingEnrollmentToken_store. db_preserve. unfold revokePendingTx. db_preserve. Qed.

Lemma revoke_operator_step reason t o : is_revoked o = false →
  operator_step o (operator_revoked reason t o).
Proof. intros H. split_and!; try done. by rewrite H. Qed.
Lemma close_session_step status reason t s : sn_Status s ≠ SessionRevoked → session_step s (session_closed status reason t s).
Proof. intros H. by split_and!. Qed.
Lemma is_live_unrevoked s : is_live s = true → sn_Status s ≠ SessionRevoked.
Proof. unfold is_live. intros H E. by rewrite E in H. Qed.
Lemma unrevoked_of_status id s : unrevoked_of id s = true → sn_OperatorID s = id ∧ sn_Status s ≠ SessionRevoked.
Proof. unfold unrevoked_of. intros H. by destruct_bools. Qed.
Lemma revoke_sessions_settles e id status reason t : keeps_fleet (write_sessions e (update_where (unrevoked_of id) (session_closed status reason t))).
Proof. apply update_sessions_settles. intros s [_ Hs]%unrevoked_of_status. by apply close_session_step. Qed.
#[export] Hint Resolve revoke_sessions_settles : preserve.
Lemma RevokeOperator_settles c k id reason ev : keeps_fleet (RevokeOperator_store c k id reason ev).
Proof.
  unfold RevokeOperator_store. db_preserve. unfold revokeOperatorTx. db_preserve.
  apply update_operators_settles; [done|]. intros x Ho. apply revoke_operator_step. by destruct_bools.
Qed.
Lemma update_session_settles p f : (∀ s, p s = true → session_step s (f s)) → keeps_fleet (update_session p f).
Proof. intros Hf. unfold update_session. db_preserve. by apply update_sessions_settles. Qed.
Lemma Heartbeat_settles id : keeps_fleet (Heartbeat_session id).
Proof.
  unfold Heartbeat_session. db_preserve. apply update_session_settles. intros s Hs. destruct_bools.
  split; [by split_and!|]. intros E. by destruct (is_live_unrevoked s).
Qed.
Lemma UpdateStatus_settles id status : keeps_fleet (UpdateStatus_session id status).
Proof. apply update_session_settles. intros s Hs. destruct_bools. by split_and!. Qed.
Lemma UpdateCertificate_settles id expected serial exp : keeps_fleet (UpdateCertificate id expected serial exp).
Proof.
  unfold UpdateCertificate. db_preserve. apply update_operators_settles.
  - intros o Ho Hd. destruct_bools. split; [done|]. unfold is_active in *. destruct_bools. by simpl; congruence.
  - intros o Ho. destruct_bools. assert (Ha : is_active o = true) by done. split_and!; try done; [by rewrite Ha|].
    unfold is_active, is_revoked in *. destruct_bools. by rewrite Ha.
Qed.
Lemma unique_key {A B} (f : A → B) (l : list A) x y : NoDup (f <$> l) → x ∈ l → y ∈ l → f x = f y → x = y.
Proof.
  intros Hn Hx Hy E. apply list_elem_of_lookup in Hx as [i Hi]. apply list_elem_of_lookup in Hy as [j Hj].
  assert (i = j) as ->; [|congruence]. apply (NoDup_lookup (f <$> l) i j (f x)); [done|by rewrite list_lookup_fmap, Hi|].
  by rewrite list_lookup_fmap, Hj, E.
Qed.
Lemma token_row_pending tokens id t u : tokens_ok tokens → t ∈ tokens → et_ID t = id → u ∈ tokens → pending_id id u = true → u = t.
Proof. intros [Hn _] Ht <- Hu Hp. unfold pending_id in Hp. destruct_bools. by apply (unique_key et_ID tokens). Qed.

(** What an enrollment does to the linked tables. *)
Section enroll.
Context (tokens : list EnrollmentToken) (ops : list Operator) (sessions : list Session) (t : EnrollmentToken) (op : Operator)
  (session : Session) (at_ : time) (p : Operator → bool) (q : Session → bool).
Context (Hlinked : linked tokens ops sessions) (Htok : tokens_ok tokens) (Ht : t ∈ tokens) (Hpending : is_pending t = true)
  (Hcustomer : et_CustomerID t = o_CustomerID op) (Hcluster : et_ClusterID t = o_ClusterID op) (Hname : et_OperatorName t = o_Name op)
  (Hactive : o_Status op = OperatorActive) (Hrevoked : o_RevokedAt op = None) (Hsession : belongs session op)
  (Hp : ∀ o, o ∈ ops → p o = true → is_active o = true ∧ o_ClusterID o = o_ClusterID op)
  (Hq : ∀ s, q s = true → sn_Status s ≠ SessionRevoked).
Let tokens' := update_where (pending_id (et_ID t)) (token_used at_ (o_ID op)) tokens.
Let ops' := update_where p (operator_superseded (o_ID op) at_) ops ++ [op].
Let sessions' := update_where q (session_closed SessionRevoked SessionReasonOperatorSuperseded at_) sessions ++ [session].
Context (Hids : NoDup (o_ID <$> ops')).

Lemma enroll_new o : o ∈ ops → o_ID o ≠ o_ID op.
Proof using Hids.
  clear -Hids. intros Ho E. unfold ops' in Hids. rewrite fmap_app, NoDup_app in Hids. destruct Hids as (_ & Hd & _).
  apply (Hd (o_ID op)); [|simpl; by apply list_elem_of_singleton].
  apply list_elem_of_fmap. exists (if p o then operator_superseded (o_ID op) at_ o else o).
  split; [by destruct (p o)|]. apply update_where_elem. by exists o.
Qed.
Lemma enroll_token u : u ∈ tokens' ↔ u = token_used at_ (o_ID op) t ∨ (u ∈ tokens ∧ et_ID u ≠ et_ID t).
Proof using Htok Ht Hpending.
  unfold tokens'. rewrite update_where_elem. split.
  - intros (x & Hx & ->). destruct (pending_id (et_ID t) x) eqn:E.
    + left. by rewrite (token_row_pending _ _ _ _ Htok Ht eq_refl Hx E).
    + right. split; [done|]. intros Ei. assert (x = t) as -> by (by apply (unique_key et_ID tokens); [apply Htok|..]).
      unfold pending_id in E. rewrite Hpending, bool_decide_eq_true_2 in E by done. done.
  - intros [->|[Hu Hne]].
    + exists t. split; [done|]. unfold pending_id. by rewrite Hpending, bool_decide_eq_true_2.
    + exists u. split; [done|]. unfold pending_id. by rewrite bool_decide_eq_false_2.
Qed.
Lemma enroll_old o : o ∈ ops → ∃ n, n ∈ ops' ∧ same_operator o n.
Proof using Hp.
  intros Ho. exists (if p o then operator_superseded (o_ID op) at_ o else o). split; [|by destruct (p o)].
  apply elem_of_app. left. apply update_where_elem. by exists o.
Qed.
Lemma enroll_linked : linked tokens' ops' sessions'.
Proof using All.
  clear Hq. assert (Hused : is_used t = false) by by apply pending_unused.
  assert (Hop : op ∈ ops') by (apply elem_of_app; right; by apply list_elem_of_singleton).
  destruct Hlinked as [Henr Hspent Hsingle Howned Hsucc Hdated]. split.
  - intros o [(x & Hx & ->)%update_where_elem| ->%list_elem_of_singleton]%elem_of_app.
    + destruct (Henr x Hx) as (u & Hu & U & I & C & K & N). exists u.
      split; [apply enroll_token; right; split; [done|intros E]|destruct (p x); done].
      rewrite (unique_key et_ID tokens u t) in U; [congruence|apply Htok|done..].
    + exists (token_used at_ (o_ID op) t). split; [apply enroll_token; by left|by split_and!].
  - intros u [->|[Hu _]]%enroll_token U; [by exists op|]. destruct (Hspent u Hu U) as (o & Ho & E).
    destruct (enroll_old o Ho) as (n & Hn & I & _). exists n. split; [done|congruence].
  - intros u v [->|[Hu Hne]]%enroll_token [->|[Hv Hnv]]%enroll_token U V E; [done|..|by apply Hsingle]; exfalso; simpl in E.
    + destruct (Hspent v Hv V) as (o & Ho & Eo). apply (enroll_new o Ho). congruence.
    + destruct (Hspent u Hu U) as (o & Ho & Eo). apply (enroll_new o Ho). congruence.
  - intros s [(x & Hx & ->)%update_where_elem| ->%list_elem_of_singleton]%elem_of_app; [|by exists op].
    destruct (Howned x Hx) as (o & Ho & I & C & K). destruct (enroll_old o Ho) as (n & Hn & ?&?&?&?).
    exists n. split; [done|]. unfold belongs. destruct (q x); simpl; split_and!; congruence.
  - intros o [(x & Hx & ->)%update_where_elem| ->%list_elem_of_singleton]%elem_of_app HS; [|congruence].
    destruct (p x) eqn:E; [exists op; split; [done|]; split; [done|]; simpl; symmetry; by apply Hp|].
    destruct (Hsucc x Hx HS) as (n & Hn & ?&?). destruct (enroll_old n Hn) as (m & Hm & ?&?&?&?). exists m. split_and!; [done|congruence..].
  - intros o [(x & Hx & ->)%update_where_elem| ->%list_elem_of_singleton]%elem_of_app.
    + destruct (p x) eqn:E; [|by apply Hdated]. destruct (Hp x Hx E) as [Ha _]. simpl.
      assert (Hd := Hdated x Hx). unfold is_active, is_revoked in *. destruct_bools. simpl. by rewrite <- Hd, Ha.
    + unfold is_revoked. by rewrite Hactive, Hrevoked.
Qed.
Lemma enroll_grows : grows token_step tokens tokens' ∧ grows operator_step ops ops' ∧ grows session_step sessions sessions'.
Proof using Hp Hq Hpending.
  split_and!.
  - apply grows_update; [apply _|]. intros u Hu%pending_id_pending. by apply token_leaves.
  - apply grows_app; [apply _|]. exists (update_where p (operator_superseded (o_ID op) at_) ops), []. split; [by rewrite app_nil_r|].
    unfold update_where. apply Forall2_fmap_r, Forall_Forall2_diag, Forall_forall. intros o Ho. simpl. destruct (p o) eqn:E; [|reflexivity].
    destruct (Hp o Ho E) as [Ha _]. split; [done|]. split; [done|]. split; [done|]. unfold is_active, is_revoked in *. destruct_bools. by rewrite Ha.
  - apply grows_app; [apply _|]. apply grows_update; [apply _|]. intros s Hs. by apply close_session_step, Hq.
Qed.
End enroll.

Lemma write_tokens_Ok e f u w w' : write_tokens e f w = (Ok u, w') ↔
  tokens_ok (f (tokens_of (w_db w))) ∧ w' = with_db (on_fleet (set_enrollment_tokens (f (tokens_of (w_db w)))) (w_db w)) w.
Proof.
  unfold write_tokens, query, gets, bind, fail_if, exec, modify. case_bool_decide; destruct u; simpl; split; [by intros [= <-]|by intros [_ ->]|done|].
  by intros [? _].
Qed.
Lemma write_operators_Ok e f u w w' : write_operators e f w = (Ok u, w') ↔
  operators_ok (f (operators_of (w_db w))) ∧ w' = with_db (on_fleet (set_operators (f (operators_of (w_db w)))) (w_db w)) w.
Proof.
  unfold write_operators, query, gets, bind, fail_if, exec, modify. case_bool_decide; destruct u; simpl; split; [by intros [= <-]|by intros [_ ->]|done|].
  by intros [? _].
Qed.
Lemma write_sessions_Ok e f u w w' : write_sessions e f w = (Ok u, w') ↔
  sessions_ok (f (sessions_of (w_db w))) ∧ w' = with_db (on_fleet (set_operator_sessions (f (sessions_of (w_db w)))) (w_db w)) w.
Proof.
  unfold write_sessions, query, gets, bind, fail_if, exec, modify. case_bool_decide; destruct u; simpl; split; [by intros [= <-]|by intros [_ ->]|done|].
  by intros [? _].
Qed.
Ltac finv_step :=
  match goal with
  | H : write_tokens _ _ _ = (Ok _, _) |- _ => apply write_tokens_Ok in H as [? ->]
  | H : write_operators _ _ _ = (Ok _, _) |- _ => apply write_operators_Ok in H as [? ->]
  | H : write_sessions _ _ _ = (Ok _, _) |- _ => apply write_sessions_Ok in H as [? ->]
  | _ => dinv_step
  end.
Ltac finv := repeat finv_step; simpl in *.

(** The operator an enrollment supersedes, and the tables without it. *)
Definition superseding (op : Operator) (at_ : time) (ops : list Operator) (sessions : list Session) (ops' : list Operator)
    (sessions' : list Session) (sid : string) : Prop :=
  (sid = "" ∧ (∀ o, o ∈ ops → o_ClusterID o = o_ClusterID op → is_active o = false) ∧ ops' = ops ∧ sessions' = sessions) ∨
  ∃ e, e ∈ ops ∧ is_active e = true ∧ o_ClusterID e = o_ClusterID op ∧ sid = o_ID e ∧
    ops' = update_where (λ o, bool_decide (o_ID o = o_ID e) && is_active o) (operator_superseded (o_ID op) at_) ops ∧
    sessions' = update_where (unrevoked_of (o_ID e)) (session_closed SessionRevoked SessionReasonOperatorSuperseded at_) sessions.
Lemma supersede_active_Ok op at_ w sid w' : supersede_active op at_ w = (Ok sid, w') →
  superseding op at_ (operators_of (w_db w)) (sessions_of (w_db w)) (operators_of (w_db w')) (sessions_of (w_db w')) sid
  ∧ tokens_of (w_db w') = tokens_of (w_db w) ∧ clusters_of (w_db w') = clusters_of (w_db w) ∧ db_customers (w_db w') = db_customers (w_db w).
Proof.
  unfold supersede_active. intros H. finv. destruct (find_row _ _) as [e|] eqn:E.
  - apply find_row_Some in E as [He Hc]. finv. destruct_bools. split; [|done]. right. exists e. by split_and!.
  - finv. split; [|done]. left. split_and!; try done. intros o Ho Hc. assert (Hn := proj1 (find_row_None _ _) E o Ho).
    simpl in Hn. by rewrite bool_decide_eq_true_2 in Hn.
Qed.
(** The two cases as one update. *)
Lemma superseding_updates op at_ ops sessions ops' sessions' sid :
  NoDup (o_ID <$> ops) → superseding op at_ ops sessions ops' sessions' sid →
  ∃ p q, ops' = update_where p (operator_superseded (o_ID op) at_) ops
    ∧ sessions' = update_where q (session_closed SessionRevoked SessionReasonOperatorSuperseded at_) sessions
    ∧ (∀ o, o ∈ ops → p o = true → is_active o = true ∧ o_ClusterID o = o_ClusterID op)
    ∧ (∀ s, q s = true → sn_Status s ≠ SessionRevoked).
Proof.
  intros Hn [(-> & _ & -> & ->)|(e & He & Ha & Hk & -> & -> & ->)].
  - exists (λ _, false), (λ _, false). unfold update_where. by rewrite !map_id.
  - exists (λ o, bool_decide (o_ID o = o_ID e) && is_active o), (unrevoked_of (o_ID e)). split_and!; [done|done| |].
    + intros o Ho Hp. destruct_bools. by rewrite (unique_key o_ID ops o e).
    + intros s Hs. apply (unrevoked_of_status _ _ Hs).
Qed.

Record enrolled (tokenID : string) (op : Operator) (session : Session) (now_ : time) (db db' : DB) (r : OperatorEnrollment) : Prop := {
  en_token : ∃ t, t ∈ tokens_of db ∧ et_ID t = tokenID ∧ is_pending t = true ∧ now_ ≤ et_ExpiresAt t
      ∧ et_CustomerID t = o_CustomerID op ∧ et_ClusterID t = o_ClusterID op ∧ et_OperatorName t = o_Name op;
  en_result : r = {| oe_Operator := op; oe_Session := session; oe_SupersededOperatorID := oe_SupersededOperatorID r |};
  en_tokens : tokens_of db' = update_where (pending_id tokenID) (token_used (sn_StartedAt session) (o_ID op)) (tokens_of db);
  en_clusters : clusters_of db' = clusters_of db ∧ db_customers db' = db_customers db;
  en_others : ∃ ops sessions,
      superseding op (sn_StartedAt session) (operators_of db) (sessions_of db) ops sessions (oe_SupersededOperatorID r)
      ∧ operators_of db' = ops ++ [op] ∧ sessions_of db' = sessions ++ [session];
  en_indexes : tokens_ok (tokens_of db') ∧ operators_ok (operators_of db') ∧ sessions_ok (sessions_of db');
}.
Lemma enrollOperatorTx_run tokenID op session w a w' :
  enrollOperatorTx tokenID op session w = (Ok (Commit a), w') →
  enrolled tokenID op session (w_clock w 0) (w_db w) (w_db w') a.
Proof.
  unfold enrollOperatorTx, insert_session. intros H. finv. apply find_row_Some in Hrow as [Ht Hid]. destruct_bools.
  match goal with H : supersede_active _ _ _ = _ |- _ => apply supersede_active_Ok in H as (Hsup & Htok & Hclu) end. split; simpl; try done.
  - eexists. by split_and!.
  - by eexists _, _.
  - split_and!; [|done|done]. unfold tokens_of, on_fleet in *. simpl in *. by rewrite Htok.
Qed.
Lemma enrolled_settled tokenID op session t db db' r :
  o_Status op = OperatorActive → o_RevokedAt op = None → belongs session op →
  enrolled tokenID op session t db db' r → settled db db'.
Proof.
  intros Ha Hr Hb [(tok & Ht & <- & Hp & _ & Hc & Hk & Hn) _ ET [EC ED] (ops & sessions & Hsup & EO & ES) (I1 & I2 & I3)] (Htok & Hops & Hses & Hl).
  apply superseding_updates in Hsup as (p & q & -> & -> & Hp1 & Hq); [|by apply Hops].
  rewrite EO in I2. rewrite ET in I1. rewrite ES in I3. unfold fleet_ok, fleet_moves. rewrite ET, EO, ES, EC, ED. split.
  - split_and!; [done..|]. by apply enroll_linked; try done; apply I2.
  - destruct (enroll_grows (tokens_of db) (operators_of db) (sessions_of db) tok op session (sn_StartedAt session) p q) as (?&?&?); try done.
    split_and!; [done..| |]; intros k c Hkc; by exists c.
Qed.
Lemma EnrollOperator_settles tokenID op session : o_Status op = OperatorActive → keeps_fleet (EnrollOperator tokenID op session).
Proof.
  intros Ha. unfold EnrollOperator. apply preserves_bind; [apply _|apply preserves_fail_if, _|intros _]. apply preserves_retryBusy; [apply _|].
  apply preserves_bind; [apply _|apply preserves_now, _|intros t]. apply commits_run_tx; [apply _|]. intros w r w' H%enrollOperatorTx_run.
  by eapply enrolled_settled; [..|exact H].
Qed.
Lemma retry_Ok {A} n (m : SM A) w a w' :
  (∀ w e w', m w = (Err e, w') → w_db w' = w_db w) → retry_loop n m w = (Ok a, w') → ∃ w1, w_db w1 = w_db w ∧ m w1 = (Ok a, w').
Proof.
  intros Hm. revert w. induction n as [|n IH]; intros w; simpl; [by eauto|].
  destruct (m w) as [[b|e1] w1] eqn:E; [intros [= -> ->]; by eauto|].
  apply Hm in E. destruct (isSQLiteBusy e1); [|done]. intros H. destruct (IH _ H) as (w2 & Hw2 & ?). exists w2. split; [congruence|done].
Qed.
(** A successful enrollment is one [enrolled] step of the tables. *)
Lemma EnrollOperator_Ok tokenID op session w r w' : EnrollOperator tokenID op session w = (Ok r, w') →
  ∃ t now_, let s := session_for op (prepareSession t session) in
    enrolled tokenID (operator_registered (sn_StartedAt s) op) s now_ (w_db w) (w_db w') r.
Proof.
  unfold EnrollOperator. intros H. dinv. apply retry_Ok in H as (w1 & <- & H).
  - unfold enrollOperator in H. dinv. apply run_tx_Ok in H as [_ [H|(w2 & H & _)]].
    + apply enrollOperatorTx_run in H. by eexists _, _.
    + unfold enrollOperatorTx in H. by finv.
  - intros w2 e w3. unfold enrollOperator, bind, now. intros H1. by apply run_tx_Err in H1.
Qed.

Lemma Establish_run sess w r w' :
  Establish sess w = (r, w') → fleet_ok (w_db w) → (∃ o, o ∈ operators_of (w_db w) ∧ belongs sess o) →
  fleet_ok (w_db w') ∧ fleet_moves (w_db w) (w_db w').
Proof.
  unfold Establish, bind at 1, now at 1. intros H Hw Ho. apply run_tx_cases in H as [->|(a & -> & H)]; [by split|].
  unfold insert_session in H. finv. destruct Hw as (?&?&?&Hl). split.
  - split_and!; [done|done|done|]. apply (linked_sessions _ _ (sessions_of (w_db w))); [|done].
    intros s [Hs| ->%list_elem_of_singleton]%elem_of_app; [left|right; destruct Ho as (o & ? & ?); by exists o].
    apply (update_sessions_same _ _ (sessions_of (w_db w)) s) in Hs; [done|by intros x _; split_and!].
  - split_and!; [reflexivity|reflexivity| |intros k c Hc; by exists c|intros k c Hc; by exists c]. apply grows_app; [apply _|]. apply grows_update; [apply _|].
    intros s Hs. apply close_session_step. unfold live_of in Hs. destruct_bools. by apply is_live_unrevoked.
Qed.
Lemma when_settles b m : keeps_fleet m → keeps_fleet (when b m).
Proof. intros H. destruct b; [done|apply preserves_ret, _]. Qed.
Lemma revokeScope_settles sc reason : keeps_fleet (revokeScope sc reason).
Proof.
  unfold revokeScope. db_preserve. unfold revokeScopeTx. repeat (db_preserve_step || apply when_settles).
  - apply (revoke_token_settles _ _ _ et_ReplacedByID). intros t Ht. unfold token_in in Ht. by destruct_bools.
  - apply update_operators_settles; [done|]. intros x Hx. apply revoke_operator_step. unfold operator_in in Hx. by destruct_bools.
  - apply update_sessions_settles. intros s Hs. apply close_session_step. unfold session_of in Hs. destruct_bools. by apply is_live_unrevoked.
Qed.
Lemma autocommit_cases {A} (m : SM A) w r w' : autocommit m w = (r, w') → w_db w' = w_db w ∨ ∃ a, r = Ok a ∧ m (attempt w) = (Ok a, w').
Proof. intros [?|(a & -> & H)]%run_tx_cases; [by left|]. right. exists a. split; [done|]. unfold commit in H. by dinv. Qed.
Lemma clusters_settle db f : clusters_kept (clusters_of db) (f (db_fleet db)) → settled db (on_fleet (λ t, set_clusters (f t) t) db).
Proof. intros H Hdb. split; [done|]. split_and!; [reflexivity..|done|intros k c Hc; by exists c]. Qed.
Lemma clusters_kept_insert (m : gmap string Cluster) k c :
  (∀ d, m !! k = Some d → kl_CustomerID c = kl_CustomerID d ∧ kl_ID c = kl_ID d) → clusters_kept m (<[k := c]> m).
Proof.
  intros H i d Hd. destruct (decide (i = k)) as [->|Hne]; [exists c; rewrite lookup_insert_eq; by destruct (H d Hd)|].
  exists d. by rewrite lookup_insert_ne.
Qed.
Lemma Update_cluster_settles c v : keeps_fleet (Update_cluster c v).
Proof.
  intros w r w'. unfold db_rel, Update_cluster, bind at 1, now at 1. intros [->|(a & -> & H)]%autocommit_cases; [by split|]. finv.
  destruct (clusters_of (w_db w) !! kl_ID c) as [d|] eqn:E; finv. apply clusters_settle, clusters_kept_insert.
  unfold clusters_of in E. rewrite E. by intros ? [= <-].
Qed.
Lemma Create_cluster_settles c : keeps_fleet (Create_cluster c).
Proof.
  unfold Create_cluster. apply preserves_bind; [apply _|apply preserves_or_now, _|intros t].
  intros w r w' [E|(a & -> & H)]%autocommit_cases; [unfold db_rel; by rewrite E|]. finv. apply clusters_settle, clusters_kept_insert.
  intros d Hd. unfold clusters_of in *. apply bool_decide_eq_false in Hguard. destruct Hguard. by eexists.
Qed.
Lemma Update_customer_settles c v : keeps_fleet (Update_customer c v).
Proof.
  unfold Update_customer. apply preserves_bind; [apply _|apply preserves_now, _|intros t]. apply preserves_bind; [apply _| |intros ?; apply preserves_ret, _].
  intros w r w' [E|(a & -> & H)]%autocommit_cases; [unfold db_rel; by rewrite E|]. finv.
  destruct (db_customers (w_db w) !! cu_ID c) as [d|] eqn:E; finv. destruct (_ =? _) eqn:Ev; finv.
  intros Hdb. split; [done|]. split_and!; [reflexivity..|intros k x Hx; by exists x|]. intros k x Hx. simpl.
  destruct (decide (k = cu_ID c)) as [->|]; [rewrite lookup_insert_eq; by eexists|rewrite lookup_insert_ne by done; by exists x].
Qed.
Lemma auth_write_settles (f : DB → DB) :
  (∀ db, db_fleet (f db) = db_fleet db ∧ customers_kept (db_customers db) (db_customers (f db))) → keeps_fleet (exec f).
Proof.
  intros H. apply preserves_exec. intros db Hdb. destruct (H db) as [E Hc].
  unfold fleet_ok, fleet_moves, tokens_of, operators_of, sessions_of, clusters_of in *. rewrite E. split; [done|].
  split_and!; [reflexivity..|intros k c Hk; by exists c|done].
Qed.
Lemma insertCustomer_settles c : keeps_fleet (insertCustomer c).
Proof.
  unfold insertCustomer. db_preserve. apply auth_write_settles. intros db. split; [done|]. intros k x Hx. simpl.
  destruct (decide (k = cu_ID c)) as [->|]; [rewrite lookup_insert_eq; by eexists|rewrite lookup_insert_ne by done; by exists x].
Qed.
#[export] Hint Resolve insertCustomer_settles : preserve.
Lemma CreateCustomerWithOrgBinding_settles c o b : keeps_fleet (CreateCustomerWithOrgBinding c o b).
Proof.
  unfold CreateCustomerWithOrgBinding. db_preserve. unfold createBindingInTx, insertBindingEvent, bumpAuthorizationSourceVersion. db_preserve;
    apply auth_write_settles; intros db; (split; [reflexivity|intros k x Hk; by exists x]).
Qed.
Lemma Create_customer_event_settles ev : keeps_fleet (Create_customer_event ev).
Proof.
  unfold Create_customer_event. db_preserve. apply preserves_exec. intros db Hdb. split; [done|]. split_and!; [reflexivity..| |]; intros k c Hc; by exists c.
Qed.
#[export] Hint Resolve CreateEnrollmentToken_settles RevokePending_settles RevokeOperator_settles Heartbeat_settles UpdateStatus_settles
  UpdateCertificate_settles EnrollOperator_settles revokeScope_settles Update_cluster_settles Create_cluster_settles Update_customer_settles Create_customer_event_settles CreateCustomerWithOrgBinding_settles : preserve.

(** ** Revocation and the disabling of a scope, exactly *)
Definition revoked_row (id : string) (db : DB) : Prop := ∃ o, o ∈ operators_of db ∧ o_ID o = id ∧ is_revoked o = true.
Lemma revoked_later id db db' : fleet_moves db db' → revoked_row id db → revoked_row id db'.
Proof.
  intros (_ & Hm & _) (o & Ho & Hid & Hr). destruct (grows_elem _ _ _ _ Hm Ho) as (n & Hn & _ & _ & _ & Hrev).
  rewrite (Hrev Hr) in Hn. by exists o.
Qed.
Lemma audit_operators ev w u w' : insertOperatorAuditEvent ev w = (Ok u, w') → operators_of (w_db w') = operators_of (w_db w).
Proof. unfold insertOperatorAuditEvent. intros H. destruct ev; finv; unfold operators_of; simpl; by rewrite Hdb. Qed.
Lemma RevokeOperator_store_Ok c k id reason ev w r w' : RevokeOperator_store c k id reason ev w = (Ok r, w') → revoked_row id (w_db w').
Proof.
  intros H. apply run_tx_Ok in H as [_ [H|(w2 & H & _)]]; unfold revokeOperatorTx in H; finv;
    destruct (find_row _ _) as [op|] eqn:Hop; finv; destruct (is_revoked op) eqn:Hrev; finv;
    apply find_row_Some in Hop as [Hop Hid]; unfold scoped in Hid; destruct_bools;
    match goal with H : insertOperatorAuditEvent _ _ = _ |- _ => apply audit_operators in H; unfold revoked_row; rewrite H end.
  - by exists op.
  - exists (operator_revoked reason (w_clock w 0) op). split; [|done]. apply update_where_elem. exists op. split; [done|].
    unfold scoped. rewrite Hrev, !bool_decide_eq_true_2 by done. done.
Qed.

Lemma when_rows {A B} (write : SM unit) p f (key : A → B) (l : list A) w u w' :
  when (nonempty (key <$> filter (λ x, p x = true) l)) write w = (Ok u, w') →
  write w = (Ok u, w') ∨ w' = w ∧ update_where p f l = l.
Proof.
  unfold when. destruct (filter _ _) as [|x rows] eqn:E; simpl; [|by left]. intros H. finv. right. split; [done|].
  apply update_where_none. unfold rows_affected. by rewrite E.
Qed.
Definition revoked_scope (sc : scope) (reason : string) (t : time) (db db' : DB) (r : CascadeRevokeResult) : Prop :=
  tokens_of db' = update_where (token_in sc) (λ x, token_revoked t (et_ReplacedByID x) x) (tokens_of db)
  ∧ operators_of db' = update_where (operator_in sc) (operator_revoked reason t) (operators_of db)
  ∧ sessions_of db' = update_where (session_of (cr_OperatorIDs r)) (session_closed SessionRevoked SessionReasonCertRevoked t) (sessions_of db)
  ∧ cr_TokenIDs r = et_ID <$> filter (λ x, token_in sc x = true) (tokens_of db)
  ∧ cr_OperatorIDs r = o_ID <$> filter (λ x, operator_in sc x = true) (operators_of db)
  ∧ cr_SessionIDs r = sn_ID <$> filter (λ x, session_of (cr_OperatorIDs r) x = true) (sessions_of db).
Lemma revokeScope_Ok sc reason w r w' : revokeScope sc reason w = (Ok r, w') → ∃ t, revoked_scope sc reason t (w_db w) (w_db w') r.
Proof.
  intros H. apply run_tx_Ok in H as [_ [H|(w2 & H & _)]]; unfold revokeScopeTx in H; finv. exists (w_clock w 0).
  repeat match goal with
  | H : when _ (write_tokens _ (update_where ?p ?f)) _ = _ |- _ => apply (when_rows _ p f) in H as [H|[-> ?]]
  | H : when _ (write_operators _ (update_where ?p ?f)) _ = _ |- _ => apply (when_rows _ p f) in H as [H|[-> ?]]
  | H : when _ (write_sessions _ (update_where ?p ?f)) _ = _ |- _ => apply (when_rows _ p f) in H as [H|[-> ?]]
  end; finv; by split_and!.
Qed.

(** Where a cascade has passed: nothing of the scope is left, the rest is as it was. *)
Lemma revoked_scope_clean sc reason t db db' r : revoked_scope sc reason t db db' r →
  (∀ x, x ∈ tokens_of db' → token_in sc x = false) ∧ (∀ x, x ∈ operators_of db' → operator_in sc x = false)
  ∧ (∀ x, x ∈ sessions_of db' → sn_OperatorID x ∈ cr_OperatorIDs r → is_live x = false).
Proof.
  intros (ET & EO & ES & _). rewrite ET, EO, ES. split_and!; intros x (y & _ & ->)%update_where_elem.
  - destruct (token_in sc y) eqn:E; [|done]. unfold token_in, is_pending. simpl. by rewrite andb_false_r.
  - destruct (operator_in sc y) eqn:E; [|done]. unfold operator_in, is_revoked. simpl. by rewrite andb_false_r.
  - destruct (session_of _ y) eqn:E; [done|]. intros Hin. unfold session_of in E. by rewrite bool_decide_eq_true_2 in E.
Qed.
Lemma no_rows {A B} (p : A → bool) (key : A → B) (l : list A) : (∀ x, x ∈ l → p x = false) → key <$> filter (λ x, p x = true) l = [].
Proof. intros H%rows_affected_0. unfold rows_affected in H. by rewrite (nil_length_inv _ H). Qed.
Lemma rows_elem {A B} (p : A → bool) (key : A → B) (l : list A) k : k ∈ key <$> filter (λ x, p x = true) l ↔ ∃ x, x ∈ l ∧ p x = true ∧ key x = k.
Proof.
  rewrite list_elem_of_fmap. split; [intros (x & -> & [Hp Hx]%list_elem_of_filter)|intros (x & Hx & Hp & <-)]; exists x; [done|].
  split; [done|]. by apply list_elem_of_filter.
Qed.
Lemma update_where_keeps {A} p f (l : list A) x : p x = false → x ∈ l → x ∈ update_where p f l.
Proof. intros Hp Hx. apply update_where_elem. exists x. by rewrite Hp. Qed.
(** A second cascade finds nothing. *)
Lemma revoked_scope_again sc reason reason' t t' db db1 db2 r r' :
  revoked_scope sc reason t db db1 r → revoked_scope sc reason' t' db1 db2 r' → cr_TokenIDs r' = [] ∧ cr_OperatorIDs r' = [] ∧ cr_SessionIDs r' = [].
Proof.
  intros H1 (_ & _ & _ & IT & IO & IS). apply revoked_scope_clean in H1 as (CT & CO & _).
  assert (EO : cr_OperatorIDs r' = []) by (rewrite IO; by apply no_rows). split_and!; [by rewrite IT; apply no_rows|done|].
  rewrite IS, EO. apply no_rows. intros s _. unfold session_of. case_bool_decide as Hin; [by apply not_elem_of_nil in Hin|done].
Qed.

(** Disabling a customer or a cluster revokes exactly what is below it.  After
    the cascade no token of the scope is pending, every operator of the scope is
    revoked, and no operator it revoked has a live session; the answer names
    exactly the tokens, operators and sessions it changed, every other row is as
    it was, and a second cascade finds nothing. *)
Theorem cascade_exact sc reason w r w' :
  revokeScope sc reason w = (Ok r, w') →
  (∀ t, t ∈ tokens_of (w_db w') → in_scope sc (et_CustomerID t) (et_ClusterID t) = true → is_pending t = false)
  ∧ (∀ o, o ∈ operators_of (w_db w') → in_scope sc (o_CustomerID o) (o_ClusterID o) = true → is_revoked o = true)
  ∧ (∀ s, s ∈ sessions_of (w_db w') → sn_OperatorID s ∈ cr_OperatorIDs r → is_live s = false)
  ∧ (∀ id, id ∈ cr_TokenIDs r ↔ ∃ t, t ∈ tokens_of (w_db w) ∧ token_in sc t = true ∧ et_ID t = id)
  ∧ (∀ id, id ∈ cr_OperatorIDs r ↔ ∃ o, o ∈ operators_of (w_db w) ∧ operator_in sc o = true ∧ o_ID o = id)
  ∧ (∀ id, id ∈ cr_SessionIDs r ↔ ∃ s, s ∈ sessions_of (w_db w) ∧ session_of (cr_OperatorIDs r) s = true ∧ sn_ID s = id)
  ∧ (∀ t, t ∈ tokens_of (w_db w) → token_in sc t = false → t ∈ tokens_of (w_db w'))
  ∧ (∀ o, o ∈ operators_of (w_db w) → operator_in sc o = false → o ∈ operators_of (w_db w'))
  ∧ (∀ s, s ∈ sessions_of (w_db w) → session_of (cr_OperatorIDs r) s = false → s ∈ sessions_of (w_db w'))
  ∧ ∀ reason' w2 r' w3, w_db w2 = w_db w' → revokeScope sc reason' w2 = (Ok r', w3) →
      cr_TokenIDs r' = [] ∧ cr_OperatorIDs r' = [] ∧ cr_SessionIDs r' = [].
Proof.
  intros [t H]%revokeScope_Ok. assert (Hagain := H). destruct (revoked_scope_clean _ _ _ _ _ _ H) as (CT & CO & CS), H as (ET & EO & ES & IT & IO & IS).
  split_and!.
  - intros x Hx Hin. specialize (CT x Hx). unfold token_in in CT. by rewrite Hin in CT.
  - intros x Hx Hin. specialize (CO x Hx). unfold operator_in in CO. rewrite Hin in CO. by apply negb_false_iff in CO.
  - done.
  - intros id. rewrite IT. apply rows_elem.
  - intros id. rewrite IO. apply rows_elem.
  - intros id. rewrite IS. apply rows_elem.
  - intros x Hx Hp. rewrite ET. by apply update_where_keeps.
  - intros x Hx Hp. rewrite EO. by apply update_where_keeps.
  - intros x Hx Hp. rewrite ES. by apply update_where_keeps.
  - intros reason' w2 r' w3 E [t' H2]%revokeScope_Ok. rewrite E in H2. exact (revoked_scope_again _ _ _ _ _ _ _ _ _ _ Hagain H2).
Qed.

(** ** A fleet for the examples *)
Definition sample_token (id cluster hash : string) (state : EnrollmentTokenState) (operatorID : string) : EnrollmentToken :=
  {| et_ID := id; et_CustomerID := "c1"; et_ClusterID := cluster; et_OperatorName := "agent-" ++ cluster; et_TokenHash := hash; et_State := state;
     et_CreatedByDisplayName := "root"; et_CreatedAt := 100 * nsec; et_ExpiresAt := 5000 * nsec; et_UsedAt := None; et_OperatorID := operatorID;
     et_RevokedAt := None; et_ReplacedByID := "" |}.
Definition sample_operator (id cluster serial : string) : Operator :=
  {| o_ID := id; o_Name := "agent-" ++ cluster; o_CustomerID := "c1"; o_ClusterID := cluster; o_CertSerial := serial;
     o_CertificateExpiresAt := Some (2000 * nsec); o_Status := OperatorActive; o_SupersededBy := ""; o_SupersededAt := None;
     o_RevokedAt := None; o_RevokeReason := ""; o_RegisteredAt := 100 * nsec; o_UpdatedAt := 100 * nsec |}.
Definition sample_session (id operatorID cluster : string) : Session :=
  {| sn_ID := id; sn_OperatorID := operatorID; sn_CustomerID := "c1"; sn_ClusterID := cluster; sn_Status := SessionOnline;
     sn_StatusReason := None; sn_InstanceID := "i1"; sn_Version := "v1"; sn_Capabilities := []; sn_ActiveConfigVersion := "";
     sn_StartedAt := 100 * nsec; sn_LastHeartbeat := 900 * nsec; sn_ExpiresAt := 2000 * nsec; sn_ClosedAt := None |}.
Definition sample_cluster (id : string) : Cluster :=
  {| kl_ID := id; kl_Name := id; kl_CustomerID := "c1"; kl_KubeconfigRef := ""; kl_Status := ClusterActive;
     kl_CreatedAt := 100 * nsec; kl_UpdatedAt := 100 * nsec; kl_Version := 1 |}.
(** Clusters k1, k2 and k3 of customer c1; k1 and k2 have an operator, k3 a pending token. *)
Definition sample_fleet (hash serial : string) : FleetTables :=
  {| ft_enrollment_tokens := [sample_token "t1" "k1" "h1" TokenStateUsed "o1"; sample_token "t2" "k2" "h2" TokenStateUsed "o2";
                              sample_token "t3" "k3" hash TokenStatePending ""];
     ft_operators := [sample_operator "o1" "k1" serial; sample_operator "o2" "k2" "serial2"];
     ft_sessions := [sample_session "s1" "o1" "k1"; sample_session "s2" "o2" "k2"];
     ft_clusters := list_to_map ((λ id, (id, sample_cluster id)) <$> ["k1"; "k2"; "k3"]); ft_audit_events := []; ft_customer_events := [] |}.
Definition fleet_world : World := sample_world (set_fleet (sample_fleet "h3" "serial1") empty_db).
Lemma cascade_exact_witness :
  cr_OperatorIDs <$> result (revokeScope (ScopeCluster "k1") "closed" fleet_world) = Some ["o1"] ∧
  ∀ o, o ∈ operators_of (w_db (revokeScope (ScopeCluster "k1") "closed" fleet_world).2) → o_ClusterID o = "k1" → is_revoked o = true.
Proof.
  split; [vm_compute; reflexivity|]. intros o Ho Hk.
  destruct (revokeScope (ScopeCluster "k1") "closed" fleet_world) as [[r|e] w'] eqn:E; [|vm_compute in E; discriminate E].
  apply (cascade_exact _ _ _ _ _ E); [exact Ho|]. by apply bool_decide_eq_true_2.
Defined.
