(* ===== verification/Enrollment.v ===== *)
(** * The life of an operator (internal/operator/service.go, csr.go, identity.go,
    renew.go, session_registry.go, stream_registry.go; internal/orchestrator/
    operator.go, enrollment.go, customer.go, cluster.go)

    An operator process enrols with its token and a certificate request, opens a
    command stream under its certificate, renews it, and is revoked or superseded.
    The handlers are programs of store calls over the tables and the two
    registries the process keeps: the streams that can be cancelled and the last
    heartbeats.  X.509, PEM and the random serial of a certificate are parameters.
    The typed details of the orchestrator's errors are left out. *)
From S2P Require Import Prelude Utf8 Json Hash Program Domain Database AuthStore Sessions Authn Values Operators.
From stdpp Require Import pretty.
From Stdlib Require Import Ascii.
#[local] Open Scope Z_scope.

(** ** Reasons (errors.go) *)
Definition operatorError (c : code) (reason message : string) : connect_error :=
  {| ce_code := c; ce_message := message; ce_meta := [("X-Reason-Code", reason)] |}.
Definition reasonInvalidToken : string := "invalid_token".
Definition reasonEnrollTokenExpired : string := "enroll_token_expired".
Definition reasonTokenReused : string := "token_reused".
Definition reasonScopeMismatch : string := "scope_mismatch".
Definition reasonCustomerDisabled : string := "customer_disabled".
Definition reasonClusterDisabled : string := "cluster_disabled".
Definition reasonCSRInvalid : string := "csr_invalid".
Definition reasonCSRSANMismatch : string := "csr_san_mismatch".
Definition reasonDuplicateOperatorName : string := "duplicate_operator_name".
Definition reasonOperatorNameCrossCluster : string := "operator_name_cross_cluster".
Definition reasonCertificateInvalid : string := "certificate_invalid".
Definition reasonIdentityMismatch : string := "identity_mismatch".
Definition reasonOperatorSuperseded : string := "operator_superseded".
Definition reasonOperatorRevoked : string := "operator_revoked".
Definition reasonRenewTooEarly : string := "renew_too_early".
Definition reasonCertReplaced : string := "cert_replaced".
Definition reasonInternal : string := "internal".

(** ** Labels and certificate requests (csr.go) *)
Definition maxDNSLabelLength : nat := 63.
Definition label_char (c : ascii) : bool :=
  let n := ascii_code c in ((97 <=? n) && (n <=? 122)) || ((48 <=? n) && (n <=? 57)) || (n =? 45).
Definition hyphen : ascii := "-"%char.
Definition validateDNSLabel (value : string) : bool :=
  let l := str value in
  negb (length l =? 0)%nat && (length l <=? maxDNSLabelLength)%nat
  && negb (bool_decide (head l = Some hyphen)) && negb (bool_decide (last l = Some hyphen)) && forallb label_char l.
Definition normalizeDNSLabel (value : string) : option string :=
  let normalized := ToLower (TrimSpace value) in if validateDNSLabel normalized then Some normalized else None.
Definition EqualFold (s t : string) : bool := bool_decide (fold_string s = fold_string t).

Inductive PublicKey : Type := KeyEd25519 (size : Z) | KeyRSA (bits : option Z) | KeyOther (algorithm : string).
Record CSR := { csr_CommonName : string; csr_DNSNames : list string; csr_PublicKey : PublicKey; csr_Raw : string }.
Record pem_Block := { pb_Type : string; pb_Bytes : string; pb_rest : string }.
Record X509 := {
  pem_Decode : string → option pem_Block; ParseCertificateRequest : string → option CSR; CheckSignature : CSR → bool;
  CreateCertificate : string → CSR → list string → time → time → option string; pem_Encode : string → string;
}.
Definition key_ok (k : PublicKey) : bool :=
  match k with KeyEd25519 size => size =? 32 | KeyRSA bits => match bits with Some n => 2048 <=? n | None => false end | KeyOther _ => false end.
Definition parseCSR (x : X509) (csrPEM : string) : option CSR :=
  match pem_Decode x csrPEM with
  | None => None
  | Some block =>
      if negb (bool_decide (pb_rest block = "")) then None
      else if negb (bool_decide (pb_Type block = "CERTIFICATE REQUEST")) && negb (bool_decide (pb_Type block = "NEW CERTIFICATE REQUEST")) then None
      else match ParseCertificateRequest x (pb_Bytes block) with
           | None => None
           | Some csr => if negb (CheckSignature x csr) then None else if key_ok (csr_PublicKey csr) then Some csr else None
           end
  end.
Record csrIdentity := { ci_OperatorName : string; ci_DNSName : string; ci_CustomerID : string; ci_ClusterID : string }.
Inductive csr_error : Type := errInvalidOperatorName | errSANMismatch.
Definition canonical_name (customerID clusterID : string) : string := clusterID ++ "." ++ customerID ++ ".rm".
Definition validateCSRIdentity (csr : CSR) (customerID clusterID : string) : res csr_error csrIdentity :=
  let operatorName := TrimSpace (csr_CommonName csr) in
  if negb (validateDNSLabel operatorName) then Err errInvalidOperatorName
  else match normalizeDNSLabel customerID, normalizeDNSLabel clusterID with
  | Some customerID, Some clusterID =>
      let canonicalName := canonical_name customerID clusterID in
      if existsb (λ dnsName, EqualFold (TrimSpace dnsName) canonicalName) (csr_DNSNames csr)
      then Ok {| ci_OperatorName := operatorName; ci_DNSName := canonicalName; ci_CustomerID := customerID; ci_ClusterID := clusterID |}
      else Err errSANMismatch
  | _, _ => Err errSANMismatch
  end.

(** ** Certificates (ca.go, identity.go, parseSANIdentity) *)
Record Certificate := { ct_CommonName : string; ct_DNSNames : list string; ct_Raw : string }.
Definition CertSerialDER (der : string) : string := String.substring 0 20 (sha256_hex der).
Definition certSerialFromCert (cert : Certificate) : string := CertSerialDER (ct_Raw cert).
Record IssuedCertificate := { ic_DER : string; ic_PEM : string; ic_Serial : string; ic_ExpiresAt : time }.
Definition SignCSR (x : X509) (ttl : Z) (csr : CSR) (dnsNames : list string) : SM IssuedCertificate :=
  fail_if (negb (CheckSignature x csr)) (ErrOther "sign CSR: invalid signature") ;!
  let! serial := random_text in
  let! t := now in
  match CreateCertificate x serial csr dnsNames t (t + ttl) with
  | Some der => ret {| ic_DER := der; ic_PEM := pem_Encode x der; ic_Serial := CertSerialDER der; ic_ExpiresAt := t + ttl |}
  | None => throw (ErrOther "sign CSR")
  end.
Definition labels (s : string) : list string := String.string_of_list_ascii <$> split_on "."%char (str s).
Definition join_dots (l : list string) : string := String.concat "." l.
Fixpoint parseSANIdentity (dnsNames : list string) : option (string * string) :=
  match dnsNames with
  | [] => None
  | name :: dnsNames =>
      match rev (labels (ToLower name)) with
      | "rm" :: customerID :: c :: rest => Some (join_dots (rev (c :: rest)), customerID)
      | _ => parseSANIdentity dnsNames
      end
  end.
Record certificateIdentity := { id_OperatorName : string; id_CustomerID : string; id_ClusterID : string; id_DNSName : string; id_Serial : string }.
Fixpoint san_labels (dnsNames : list string) : option (string * string) :=
  match dnsNames with
  | [] => None
  | dnsName :: dnsNames =>
      match labels (ToLower (TrimSpace dnsName)) with
      | [cluster; customer; "rm"] => if validateDNSLabel cluster && validateDNSLabel customer then Some (cluster, customer) else san_labels dnsNames
      | _ => san_labels dnsNames
      end
  end.
Definition certIdentity (certificate : Certificate) : option certificateIdentity :=
  match san_labels (ct_DNSNames certificate) with
  | Some (cluster, customer) =>
      if bool_decide (ct_CommonName certificate = "") then None
      else Some {| id_OperatorName := ct_CommonName certificate; id_CustomerID := customer; id_ClusterID := cluster;
                   id_DNSName := canonical_name customer cluster; id_Serial := certSerialFromCert certificate |}
  | None => None
  end.

(** ** Renewal rules (renew.go) *)
Definition renew_too_early (now_ : time) (operator : Operator) (window : Z) : option bool :=
  match o_CertificateExpiresAt operator with None => None | Some expiresAt => Some (window <? expiresAt - now_) end.
Definition validateRenewIdentity (identity : certificateIdentity) (operator : Operator) (requestedOperatorID : string) : bool :=
  negb (bool_decide (requestedOperatorID = "")) && negb (bool_decide (id_Serial identity = ""))
  && bool_decide (o_ID operator = requestedOperatorID) && bool_decide (o_Name operator = id_OperatorName identity)
  && bool_decide (o_CustomerID operator = id_CustomerID identity) && bool_decide (o_ClusterID operator = id_ClusterID identity).
Definition validateCertificateIdentity (operator : Operator) (identity : certificateIdentity) : option connect_error :=
  if bool_decide (id_Serial identity = "")
  then Some (operatorError CodeUnauthenticated reasonCertificateInvalid "client certificate identity is invalid")
  else match o_Status operator with
  | OperatorSuperseded => Some (operatorError CodePermissionDenied reasonOperatorSuperseded "operator is superseded")
  | OperatorRevoked => Some (operatorError CodePermissionDenied reasonOperatorRevoked "operator is revoked")
  | OperatorActive =>
      if negb (bool_decide (id_CustomerID identity = o_CustomerID operator)) || negb (bool_decide (id_ClusterID identity = o_ClusterID operator))
      then Some (operatorError CodePermissionDenied reasonIdentityMismatch "certificate identity does not match the registered operator scope")
      else if negb (bool_decide (id_Serial identity = o_CertSerial operator))
      then Some (operatorError CodePermissionDenied reasonCertReplaced "client certificate was replaced")
      else None
  end.

(** ** The process: the tables and its two registries *)
Record Gateway := {
  gw_world : World; gw_streams : gmap string (string * nat); gw_cancelled : list bool; gw_entries : gmap string time;
}.
Definition put_world (w : World) (g : Gateway) : Gateway :=
  {| gw_world := w; gw_streams := gw_streams g; gw_cancelled := gw_cancelled g; gw_entries := gw_entries g |}.
Definition put_streams (streams : gmap string (string * nat)) (cancelled : list bool) (g : Gateway) : Gateway :=
  {| gw_world := gw_world g; gw_streams := streams; gw_cancelled := cancelled; gw_entries := gw_entries g |}.
Definition put_entries (entries : gmap string time) (g : Gateway) : Gateway :=
  {| gw_world := gw_world g; gw_streams := gw_streams g; gw_cancelled := gw_cancelled g; gw_entries := entries |}.
Abbreviation gsvc := (svc Gateway error).
Abbreviation rpc A := (gsvc (res connect_error A)).
Abbreviation GM := (M Gateway error).
Definition gdb (g : Gateway) : DB := w_db (gw_world g).
Definition table {A} (m : SM A) : GM A := lift gw_world put_world m.
Definition internal_error {A} (message : string) (_ : error) : rpc A := Done (Err (operatorError CodeInternal reasonInternal message)).
Definition and_rpc {A B} (p : rpc A) (k : A → rpc B) : rpc B :=
  svc_bind p (λ r, match r with Ok a => k a | Err e => Done (Err e) end).

(** *** Command streams (stream_registry.go): a stream is a cancellable context,
    an index into [gw_cancelled]. *)
Definition Register_stream (operatorID sessionID : string) : GM nat := λ g,
  let handle := length (gw_cancelled g) in
  if bool_decide (operatorID = "") then (Ok handle, put_streams (gw_streams g) (gw_cancelled g ++ [false]) g)
  else
    let cancelled := match gw_streams g !! operatorID with Some (_, previous) => <[previous := true]> (gw_cancelled g) | None => gw_cancelled g end in
    (Ok handle, put_streams (<[operatorID := (sessionID, handle)]> (gw_streams g)) (cancelled ++ [false]) g).
Definition Unregister_stream (operatorID sessionID : string) : GM unit := λ g,
  (Ok tt, match gw_streams g !! operatorID with
          | Some (current, _) => if bool_decide (current = sessionID) then put_streams (delete operatorID (gw_streams g)) (gw_cancelled g) g else g
          | None => g
          end).
Definition Revoke_stream (operatorID : string) : GM bool := λ g,
  if bool_decide (operatorID = "") then (Ok false, g)
  else match gw_streams g !! operatorID with
       | Some (_, handle) => (Ok true, put_streams (delete operatorID (gw_streams g)) (<[handle := true]> (gw_cancelled g)) g)
       | None => (Ok false, g)
       end.

(** *** Heartbeats (session_registry.go) *)
Definition Register_session (sessionID : string) (lastHeartbeat : time) : GM unit := λ g,
  (Ok tt, put_entries (<[sessionID := lastHeartbeat]> (gw_entries g)) g).
Definition Heartbeat_entry (sessionID : string) (at_ : time) : GM unit := λ g,
  (Ok tt, if bool_decide (is_Some (gw_entries g !! sessionID)) then put_entries (<[sessionID := at_]> (gw_entries g)) g else g).
Definition Unregister_session (sessionID : string) : GM unit := λ g, (Ok tt, put_entries (delete sessionID (gw_entries g)) g).
Section registry.
Context (suspectAfter offlineAfter : Z).
Definition age_status (age : Z) : option SessionStatus :=
  if offlineAfter <=? age then Some SessionOffline else if suspectAfter <=? age then Some SessionSuspect else None.
Definition transitions (now_ : time) (entries : gmap string time) : list (string * SessionStatus) :=
  omap (λ e, (e.1,.) <$> age_status (now_ - e.2)) (map_to_list entries).
Fixpoint run_transitions (l : list (string * SessionStatus)) : gsvc unit :=
  match l with
  | [] => Done tt
  | (sessionID, status) :: l =>
      let offline := bool_decide (status = SessionOffline) in
      svc_bind (if offline then svc_bind (once (Unregister_session sessionID)) (λ _, Done tt) else Done tt) (λ _,
      svc_bind (once (table (UpdateStatus_session sessionID status))) (λ r,
        match r with
        | Err _ => run_transitions l
        | Ok _ =>
            svc_bind (if offline then svc_bind (once (Unregister_session sessionID)) (λ _, Done tt) else Done tt) (λ _, run_transitions l)
        end))
  end.
Definition evaluate (now_ : time) : gsvc unit :=
  svc_bind (once (λ g, (Ok (transitions now_ (gw_entries g)), g))) (λ r, match r with Ok l => run_transitions l | Err _ => Done tt end).
End registry.

(** ** Enrollment (Enroll) *)
Record EnrollRequest := {
  en_EnrollmentToken : string; en_CustomerId : string; en_ClusterId : string; en_CsrPem : string; en_Capabilities : list (string * string);
}.
Record EnrollResponse := {
  ep_SessionId : string; ep_TtlSeconds : Z; ep_CertificatePem : string; ep_OperatorId : string; ep_CertificateExpiresAt : time;
}.
Section gateway.
Context (x509 : X509) (ca_ttl sessionTTL renew_window : Z).

Definition token_error (state : EnrollmentTokenState) : option connect_error :=
  match state with
  | TokenStatePending => None
  | TokenStateUsed => Some (operatorError CodeUnauthenticated reasonTokenReused "enrollment token already used")
  | TokenStateExpired => Some (operatorError CodeUnauthenticated reasonEnrollTokenExpired "enrollment token expired")
  | TokenStateRevoked => Some (operatorError CodeUnauthenticated reasonInvalidToken "invalid enrollment token")
  end.
Definition scope_matches (msg : EnrollRequest) (token : EnrollmentToken) : bool :=
  match normalizeDNSLabel (en_CustomerId msg), normalizeDNSLabel (en_ClusterId msg) with
  | Some customerID, Some clusterID => EqualFold customerID (et_CustomerID token) && EqualFold clusterID (et_ClusterID token)
  | _, _ => false
  end.
Definition enroll_operator (operatorID : string) (token : EnrollmentToken) (ident : csrIdentity) (issued : IssuedCertificate) : Operator :=
  {| o_ID := operatorID; o_Name := ci_OperatorName ident; o_CustomerID := et_CustomerID token; o_ClusterID := et_ClusterID token;
     o_CertSerial := ic_Serial issued; o_CertificateExpiresAt := Some (ic_ExpiresAt issued); o_Status := OperatorActive;
     o_SupersededBy := ""; o_SupersededAt := None; o_RevokedAt := None; o_RevokeReason := ""; o_RegisteredAt := 0; o_UpdatedAt := 0 |}.
Definition new_session (id operatorID customerID clusterID instanceID version : string) (capabilities : list (string * string)) (now_ : time) : Session :=
  {| sn_ID := id; sn_OperatorID := operatorID; sn_CustomerID := customerID; sn_ClusterID := clusterID; sn_Status := SessionOnline;
     sn_StatusReason := None; sn_InstanceID := instanceID; sn_Version := version; sn_Capabilities := capabilities; sn_ActiveConfigVersion := "";
     sn_StartedAt := now_; sn_LastHeartbeat := now_; sn_ExpiresAt := now_ + sessionTTL; sn_ClosedAt := None |}.
(** The reason of a failed enrollment transaction. *)
Definition enroll_failure {A} (rawToken : string) (e : error) : rpc A :=
  match e with
  | ErrOperatorStateConflict | ErrTokenExpired =>
      svc_bind (once (table (GetByToken rawToken))) (λ r,
        match r with
        | Ok current =>
            match token_error (et_State current) with
            | Some e => Done (Err e)
            | None => Done (Err (operatorError CodeUnauthenticated reasonTokenReused "enrollment token already used"))
            end
        | Err _ => Done (Err (operatorError CodeUnauthenticated reasonTokenReused "enrollment token already used"))
        end)
  | ErrNotAuthorized => Done (Err (operatorError CodePermissionDenied reasonScopeMismatch "enrollment scope does not match token"))
  | ErrDuplicateOperatorName => Done (Err (operatorError CodeAlreadyExists reasonDuplicateOperatorName "operator name is already active"))
  | ErrNotFound => Done (Err (operatorError CodeUnauthenticated reasonInvalidToken "invalid enrollment token"))
  | _ => internal_error "enrollment transaction failed" e
  end.
(** The certificate is issued, then one transaction consumes the token. *)
Definition issue_and_enroll (msg : EnrollRequest) (now_ : time) (token : EnrollmentToken) (csr : CSR) (ident : csrIdentity) : rpc EnrollResponse :=
  let* issued := table (SignCSR x509 ca_ttl csr [ci_DNSName ident]) fails internal_error "certificate signing failed" in
  let* operatorID := table new_uuid fails internal_error "identifier" in
  let* sessionID := table new_uuid fails internal_error "identifier" in
  let op := enroll_operator operatorID token ident issued in
  let session := new_session sessionID operatorID (et_CustomerID token) (et_ClusterID token) "" "" (en_Capabilities msg) now_ in
  let* enrollment := table (EnrollOperator (et_ID token) op session) fails enroll_failure (en_EnrollmentToken msg) in
  let respond := Done (Ok {| ep_SessionId := sessionID; ep_TtlSeconds := seconds sessionTTL; ep_CertificatePem := ic_PEM issued;
                             ep_OperatorId := operatorID; ep_CertificateExpiresAt := rfc3339 (ic_ExpiresAt issued) |}) in
  if bool_decide (oe_SupersededOperatorID enrollment = "") then respond
  else svc_bind (once (Revoke_stream (oe_SupersededOperatorID enrollment))) (λ _, respond).
(** The name must not belong to an active operator of the customer. *)
Definition check_name (msg : EnrollRequest) (token : EnrollmentToken) (ident : csrIdentity) (k : rpc EnrollResponse) : rpc EnrollResponse :=
  svc_bind (once (table (GetActiveByName (et_CustomerID token) (ci_OperatorName ident)))) (λ r,
    match r with
    | Ok existing =>
        svc_bind (once (table (GetByToken (en_EnrollmentToken msg)))) (λ current,
          if match current with Ok current => bool_decide (et_State current = TokenStateUsed) | Err _ => false end
          then Done (Err (operatorError CodeUnauthenticated reasonTokenReused "enrollment token already used"))
          else if negb (bool_decide (o_ClusterID existing = et_ClusterID token))
          then Done (Err (operatorError CodePermissionDenied reasonOperatorNameCrossCluster "operator name is active on another cluster"))
          else Done (Err (operatorError CodeAlreadyExists reasonDuplicateOperatorName "operator name is already active")))
    | Err ErrNotFound => k
    | Err e => internal_error "operator name lookup failed" e
    end).
Definition enroll_csr (msg : EnrollRequest) (now_ : time) (token : EnrollmentToken) : rpc EnrollResponse :=
  match parseCSR x509 (en_CsrPem msg) with
  | None => Done (Err (operatorError CodeInvalidArgument reasonCSRInvalid "invalid certificate signing request"))
  | Some csr =>
      match validateCSRIdentity csr (et_CustomerID token) (et_ClusterID token) with
      | Err errInvalidOperatorName => Done (Err (operatorError CodeInvalidArgument reasonCSRInvalid "invalid operator name in certificate signing request"))
      | Err errSANMismatch => Done (Err (operatorError CodePermissionDenied reasonCSRSANMismatch "certificate signing request SAN does not match enrollment scope"))
      | Ok ident =>
          if negb (bool_decide (et_OperatorName token = "")) && negb (bool_decide (ci_OperatorName ident = et_OperatorName token))
          then Done (Err (operatorError CodeInvalidArgument reasonCSRInvalid "operator name does not match enrollment token"))
          else check_name msg token ident (issue_and_enroll msg now_ token csr ident)
      end
  end.
Definition Enroll (msg : EnrollRequest) : rpc EnrollResponse :=
  let* now_ := table now fails internal_error "clock" in
  svc_bind (once (table (GetByToken (en_EnrollmentToken msg)))) (λ r,
    match r with
    | Err ErrNotFound => Done (Err (operatorError CodeUnauthenticated reasonInvalidToken "invalid enrollment token"))
    | Err e => internal_error "enrollment token lookup failed" e
    | Ok token =>
        match token_error (et_State token) with
        | Some e => Done (Err e)
        | None =>
            if et_ExpiresAt token <=? now_ then Done (Err (operatorError CodeUnauthenticated reasonEnrollTokenExpired "enrollment token expired"))
            else if negb (scope_matches msg token)
            then Done (Err (operatorError CodePermissionDenied reasonScopeMismatch "enrollment scope does not match token"))
            else
              let* cust := table (Get_customer (et_CustomerID token)) fails internal_error "customer lookup failed" in
              if bool_decide (cu_Status cust = CustomerDisabled)
              then Done (Err (operatorError CodePermissionDenied reasonCustomerDisabled "customer is disabled"))
              else
                let* cl := table (Get_cluster (et_ClusterID token)) fails internal_error "cluster lookup failed" in
                if bool_decide (kl_Status cl = ClusterDisabled)
                then Done (Err (operatorError CodePermissionDenied reasonClusterDisabled "cluster is disabled"))
                else if negb (bool_decide (kl_CustomerID cl = et_CustomerID token))
                then Done (Err (operatorError CodePermissionDenied reasonScopeMismatch "cluster does not belong to customer"))
                else enroll_csr msg now_ token
        end
    end).

(** ** The hello of a command stream (CommandStream) *)
Record Hello := {
  he_SessionId : string; he_OperatorId : string; he_InstanceId : string; he_Version : string; he_Capabilities : list (string * string);
}.
Record established := { es_OperatorId : string; es_SessionId : string; es_stream : nat }.
(** The stable reason for a cluster without an active operator. *)
Fixpoint replaced_reason (candidates : list Operator) : option connect_error :=
  match candidates with
  | [] => None
  | candidate :: candidates =>
      match o_Status candidate with
      | OperatorSuperseded => Some (operatorError CodePermissionDenied reasonOperatorSuperseded "operator superseded: re-enroll required")
      | OperatorRevoked => Some (operatorError CodePermissionDenied reasonOperatorRevoked "operator revoked")
      | OperatorActive => replaced_reason candidates
      end
  end.
Definition no_operator {A} (clusterID : string) : rpc A :=
  let unregistered := refuse CodePermissionDenied "no operator registered for cluster" in
  svc_bind (once (table (ListByCluster_operators clusterID))) (λ r,
    match r with
    | Ok all => match replaced_reason all with Some e => Done (Err e) | None => unregistered end
    | Err _ => unregistered
    end).
Definition inactive (op : Operator) : option connect_error := replaced_reason [op].
(** The gateway: the operator is the active one of the cluster the certificate
    names, and a session is established. *)
Definition hello_tls (hello : Hello) (certs : list Certificate) : rpc (string * string) :=
  match certs with
  | [] => refuse CodeUnauthenticated "client certificate required on gateway"
  | clientCert :: _ =>
      match parseSANIdentity (ct_DNSNames clientCert) with
      | None => refuse CodeUnauthenticated "client certificate SAN does not encode operator identity"
      | Some (clusterID, customerID) =>
          svc_bind (once (table (GetByClusterID clusterID))) (λ r,
            match r with
            | Err ErrNotFound => no_operator clusterID
            | Err _ => refuse CodeInternal "get operator by cluster"
            | Ok op =>
                if negb (bool_decide (o_CustomerID op = customerID))
                then Done (Err (operatorError CodePermissionDenied reasonIdentityMismatch "certificate identity does not match operator"))
                else match inactive op with
                | Some e => Done (Err e)
                | None =>
                    if negb (bool_decide (o_CertSerial op = certSerialFromCert clientCert))
                    then Done (Err (operatorError CodePermissionDenied reasonCertReplaced "certificate serial does not match registered operator"))
                    else
                      let* now_ := table now fails internal_error "clock" in
                      let* id := table new_uuid fails internal_error "identifier" in
                      let sess := new_session id (o_ID op) (o_CustomerID op) (o_ClusterID op) (he_InstanceId hello) (he_Version hello)
                                              (he_Capabilities hello) now_ in
                      svc_bind (once (table (Establish sess))) (λ r,
                        match r with
                        | Err ErrDuplicateKey => refuse CodeAlreadyExists "another session for this operator is already online"
                        | Err _ => refuse CodeInternal "establish session"
                        | Ok _ => Done (Ok (o_ID op, id))
                        end)
                end
            end)
      end
  end.
(** The management plane: the session of the hello must be online. *)
Definition hello_plain (hello : Hello) : rpc (string * string) :=
  svc_bind (once (table (Get_operator_session (he_SessionId hello)))) (λ r,
    match r with
    | Err _ => refuse CodeUnauthenticated "invalid session"
    | Ok sess =>
        if negb (bool_decide (sn_OperatorID sess = he_OperatorId hello)) then refuse CodePermissionDenied "session operator mismatch"
        else if negb (bool_decide (sn_Status sess = SessionOnline)) then refuse CodePermissionDenied "session is not online"
        else
          svc_bind (once (table (Get_operator (he_OperatorId hello)))) (λ r,
            match r with
            | Err ErrNotFound => refuse CodePermissionDenied "operator not found"
            | Err _ => refuse CodeInternal "get operator"
            | Ok op => match inactive op with Some e => Done (Err e) | None => Done (Ok (he_OperatorId hello, he_SessionId hello)) end
            end)
    end).
(** [tls] is what the listener attached to the request: [None] on the management plane. *)
Definition CommandStream_hello (tls : option (list Certificate)) (hello : Hello) : rpc established :=
  and_rpc (match tls with Some certs => hello_tls hello certs | None => hello_plain hello end) (λ ids,
    let* handle := Register_stream ids.1 ids.2 fails internal_error "stream" in
    let* now_ := table now fails internal_error "clock" in
    svc_bind (once (Register_session ids.2 now_)) (λ _,
      Done (Ok {| es_OperatorId := ids.1; es_SessionId := ids.2; es_stream := handle |}))).
(** A heartbeat message, and the end of a cancelled stream. *)
Definition stream_heartbeat (sessionID : string) : gsvc unit :=
  let* now_ := table now fails (λ _, Done tt) in
  svc_bind (once (Heartbeat_entry sessionID now_)) (λ _, svc_bind (once (table (Heartbeat_session sessionID))) (λ _, Done tt)).
Definition stream_done (operatorID sessionID : string) : rpc unit :=
  svc_bind (once (table (Get_operator operatorID))) (λ r,
    let result := match r with
      | Ok op => if is_revoked op then Err (newError CodePermissionDenied "operator revoked") else Ok tt
      | Err _ => Ok tt
      end in
    svc_bind (once (Unregister_stream operatorID sessionID)) (λ _, Done result)).

(** ** Renewal (RenewCertificate) *)
Record RenewCertificateRequest := { rq_OperatorId : string; rq_CsrPem : string }.
Definition renew_csr (operatorRecord : Operator) (csrPem : string) : rpc string :=
  match parseCSR x509 csrPem with
  | None => Done (Err (operatorError CodeInvalidArgument reasonCSRInvalid "invalid certificate signing request"))
  | Some csr =>
      match validateCSRIdentity csr (o_CustomerID operatorRecord) (o_ClusterID operatorRecord) with
      | Err errInvalidOperatorName => Done (Err (operatorError CodeInvalidArgument reasonCSRInvalid "invalid operator name in certificate signing request"))
      | Err errSANMismatch => Done (Err (operatorError CodePermissionDenied reasonCSRSANMismatch "certificate signing request SAN does not match operator"))
      | Ok csrID =>
          if negb (bool_decide (ci_OperatorName csrID = o_Name operatorRecord))
          then Done (Err (operatorError CodeInvalidArgument reasonCSRInvalid "certificate signing request name does not match operator"))
          else
            let* issued := table (SignCSR x509 ca_ttl csr [ci_DNSName csrID]) fails internal_error "certificate signing failed" in
            svc_bind (once (table (UpdateCertificate (o_ID operatorRecord) (o_CertSerial operatorRecord) (ic_Serial issued) (ic_ExpiresAt issued)))) (λ r,
              match r with
              | Ok _ => Done (Ok (ic_PEM issued))
              | Err ErrCertificateConflict => Done (Err (operatorError CodePermissionDenied reasonCertReplaced "client certificate was replaced"))
              | Err e => internal_error "certificate update failed" e
              end)
      end
  end.
Definition RenewCertificate (cert : option certificateIdentity) (req : RenewCertificateRequest) : rpc string :=
  match cert with
  | None => Done (Err (operatorError CodeUnauthenticated reasonCertificateInvalid "verified client certificate is required"))
  | Some ident =>
      let* operatorRecord := table (Get_operator (rq_OperatorId req))
      fails (λ _, Done (Err (operatorError CodeUnauthenticated reasonCertificateInvalid "operator identity is invalid"))) in
      if negb (validateRenewIdentity ident operatorRecord (rq_OperatorId req))
      then Done (Err (operatorError CodeUnauthenticated reasonCertificateInvalid "client certificate identity does not match operator"))
      else match validateCertificateIdentity operatorRecord ident with
      | Some e => Done (Err e)
      | None =>
          let* now_ := table now fails internal_error "clock" in
          match renew_too_early now_ operatorRecord renew_window with
          | None => Done (Err (operatorError CodeUnauthenticated reasonCertificateInvalid "operator certificate expiry is unavailable"))
          | Some true => Done (Err (operatorError CodeFailedPrecondition reasonRenewTooEarly "certificate renewal is too early"))
          | Some false => renew_csr operatorRecord (rq_CsrPem req)
          end
      end
  end.
(** The gateway's identity middleware in front of it. *)
Definition gateway_RenewCertificate (chain : option Certificate) (req : RenewCertificateRequest) : rpc string :=
  match chain with
  | None => refuse CodeUnauthenticated "client certificate required"
  | Some cert =>
      match certIdentity cert with None => refuse CodeUnauthenticated "client certificate required" | Some i => RenewCertificate (Some i) req end
  end.
Definition gateway_CommandStream (chain : option Certificate) (hello : Hello) : rpc established :=
  match chain with
  | None => refuse CodeUnauthenticated "client certificate required"
  | Some cert =>
      match certIdentity cert with
      | None => refuse CodeUnauthenticated "client certificate required"
      | Some _ => CommandStream_hello (Some [cert]) hello
      end
  end.

(** ** The management RPCs (orchestrator/operator.go, enrollment.go) *)
Definition validateOperatorScope {A} (customerID clusterID : string) (k : rpc A) : rpc A :=
  if bool_decide (TrimSpace customerID = "") then refuse CodeInvalidArgument "customer_id is required"
  else if bool_decide (TrimSpace clusterID = "") then refuse CodeInvalidArgument "cluster_id is required"
  else
    svc_bind (once (table (Get_customer customerID))) (λ r,
      match r with
      | Err ErrNotFound => refuse CodeNotFound "customer not found"
      | Err _ => refuse CodeInternal "unable to read customer"
      | Ok customer =>
          if bool_decide (cu_Status customer = CustomerDisabled) then refuse CodePermissionDenied "customer is disabled"
          else
            svc_bind (once (table (Get_cluster clusterID))) (λ r,
              match r with
              | Err ErrNotFound => refuse CodeNotFound "cluster not found"
              | Err _ => refuse CodeInternal "unable to read cluster"
              | Ok cluster =>
                  if negb (bool_decide (kl_CustomerID cluster = customerID)) then refuse CodeNotFound "cluster not found"
                  else if bool_decide (kl_Status cluster = ClusterDisabled) then refuse CodePermissionDenied "cluster is disabled"
                  else k
              end)
      end).
Definition scopedOperator {A} (customerID clusterID operatorID : string) (k : Operator → rpc A) : rpc A :=
  if bool_decide (TrimSpace operatorID = "") then refuse CodeInvalidArgument "operator_id is required"
  else
    svc_bind (once (table (Get_operator operatorID))) (λ r,
      match r with
      | Err ErrNotFound => refuse CodeNotFound "operator not found"
      | Err _ => refuse CodeInternal "unable to read operator"
      | Ok operator =>
          if negb (bool_decide (o_CustomerID operator = customerID)) || negb (bool_decide (o_ClusterID operator = clusterID))
          then refuse CodeNotFound "operator not found" else k operator
      end).
(** The audit event of the actor; [requestID] is empty when the request has none. *)
Definition operatorAuditEvent {A} (actor : option authctx_Actor) (requestID resourceType resourceID action : string)
    (metadata : list (string * string)) (k : AuditEvent → rpc A) : rpc A :=
  match actor with
  | None => refuse CodeUnauthenticated "authentication required"
  | Some actor =>
      let* _ := table (Get_user (ax_UserID actor)) fails (λ _, refuse CodeUnavailable "audit identity is unavailable") in
      let* requestID := table (or_new_uuid requestID) fails (λ _, refuse CodeInternal "identifier") in
      let* id := table new_uuid fails (λ _, refuse CodeInternal "identifier") in
      let* createdAt := table now fails (λ _, refuse CodeInternal "clock") in
      k {| au_ID := id; au_ActorKind := "user"; au_ActorID := ax_UserID actor; au_OrganizationID := ax_OrganizationID actor;
           au_Role := default "" (head (ax_Roles actor)); au_ResourceType := resourceType; au_ResourceID := resourceID; au_Action := action;
           au_Status := "succeeded"; au_DurationMs := 0; au_ChangeSummary := "operator management action";
           au_Metadata := metadata ++ [("request_id", requestID)]; au_CreatedAt := createdAt |}
  end.
Definition mapOperatorStoreError (e : error) : connect_error :=
  match e with
  | ErrPendingTokenExists => newError CodeAlreadyExists "a pending enrollment token already exists"
  | ErrDuplicateOperatorName => newError CodeAlreadyExists "an active operator with this name already exists"
  | ErrTokenReplaceConflict => newError CodeAborted "the pending enrollment token changed"
  | ErrOperatorNotFound => newError CodeNotFound "operator not found"
  | ErrOperatorStateConflict => newError CodeFailedPrecondition "operator state changed"
  | ErrAuditUnavailable => newError CodeUnavailable "audit service is unavailable"
  | _ => newError CodeInternal "operator management failed"
  end.
Record OperatorSummary := {
  os_operator : Operator; os_ClusterName : string; os_session : option (SessionStatus * option SessionStatusReason * time);
}.
Definition operatorSummary (operator : Operator) (session : option Session) : rpc OperatorSummary :=
  let finish session :=
    let* cluster := table (Get_cluster (o_ClusterID operator)) fails (λ _, refuse CodeInternal "unable to read operator cluster") in
    Done (Ok {| os_operator := operator; os_ClusterName := kl_Name cluster;
                os_session := (λ s, (sn_Status s, sn_StatusReason s, sn_LastHeartbeat s)) <$> session |}) in
  match session with
  | Some s => finish (Some s)
  | None =>
      svc_bind (once (table (GetLatestByOperator (o_ID operator)))) (λ r,
        match r with
        | Ok s => finish (Some s)
        | Err ErrNotFound => finish None
        | Err _ => refuse CodeInternal "unable to read operator session"
        end)
  end.
Definition GetOperator (customerID clusterID operatorID : string) : rpc OperatorSummary :=
  validateOperatorScope customerID clusterID (scopedOperator customerID clusterID operatorID (λ operator, operatorSummary operator None)).

Record RevokeOperatorRequest := { rr_CustomerId : string; rr_ClusterId : string; rr_OperatorId : string; rr_Reason : string }.
Definition revoke_scope_metadata (customerID clusterID : string) : list (string * string) := [("customer_id", customerID); ("cluster_id", clusterID)].
Definition RevokeOperator (actor : option authctx_Actor) (requestID : string) (msg : RevokeOperatorRequest) : rpc (OperatorSummary * bool) :=
  validateOperatorScope (rr_CustomerId msg) (rr_ClusterId msg) (
    let reason := TrimSpace (rr_Reason msg) in
    if (RuneCount reason <? 5) || (500 <? RuneCount reason) then refuse CodeInvalidArgument "reason must contain 5 to 500 characters"
    else
      scopedOperator (rr_CustomerId msg) (rr_ClusterId msg) (rr_OperatorId msg) (λ operator,
        operatorAuditEvent actor requestID "operator" (o_ID operator) "operator.revoked"
          (revoke_scope_metadata (rr_CustomerId msg) (rr_ClusterId msg) ++ [("reason_present", "true"); ("reason_length", pretty (RuneCount reason))])
          (λ auditEvent,
            let* result := table (RevokeOperator_store (rr_CustomerId msg) (rr_ClusterId msg) (o_ID operator) reason (Some auditEvent))
            fails (λ e, Done (Err (mapOperatorStoreError e))) in
            let* _ := Revoke_stream (o_ID operator)
            fails (λ _, refuse CodeUnavailable "operator revoked but the active stream could not be closed") in
            and_rpc (operatorSummary (ov_Operator result) (ov_Session result)) (λ summary, Done (Ok (summary, ov_Changed result)))))).
Definition GetEnrollmentTokenStatus (customerID clusterID : string) : rpc (option EnrollmentToken) :=
  validateOperatorScope customerID clusterID (
    svc_bind (once (table (GetPendingByCluster customerID clusterID))) (λ r,
      match r with
      | Err ErrNotFound => Done (Ok None)
      | Err _ => refuse CodeInternal "unable to read enrollment token status"
      | Ok token =>
          let* now_ := table now fails (λ _, refuse CodeInternal "clock") in
          Done (Ok (if et_ExpiresAt token <? now_ then None else Some token))
      end)).
Definition RevokePendingEnrollmentToken (actor : option authctx_Actor) (requestID customerID clusterID : string) : rpc (bool * option EnrollmentTokenState) :=
  validateOperatorScope customerID clusterID (
    operatorAuditEvent actor requestID "enrollment_token" clusterID "operator.enrollment_token.revoked" (revoke_scope_metadata customerID clusterID)
      (λ auditEvent,
        let* result := table (RevokePendingEnrollmentToken_store customerID clusterID (Some auditEvent))
        fails (λ e, Done (Err (mapOperatorStoreError e))) in
        Done (Ok (em_Changed result, et_State <$> em_Token result)))).

Record CreateEnrollmentTokenRequest := {
  cq_CustomerId : string; cq_ClusterId : string; cq_OperatorName : string; cq_TtlMinutes : Z; cq_ReplacePendingToken : bool;
}.
Definition defaultEnrollmentTTLMinutes : Z := 60.
Definition minimumEnrollmentTTLMinutes : Z := 5.
Definition maximumEnrollmentTTLMinutes : Z := 1440.
Definition validateOperatorName (name : string) : bool :=
  (1 <=? RuneCount name) && (RuneCount name <=? 63) && negb (bool_decide (head (str name) = Some hyphen))
  && negb (bool_decide (last (str name) = Some hyphen)) && forallb label_char (str name).
Definition enrollment_token (id customerID clusterID name plaintext username : string) (now_ : time) (ttlMinutes : Z) : EnrollmentToken :=
  {| et_ID := id; et_CustomerID := customerID; et_ClusterID := clusterID; et_OperatorName := name; et_TokenHash := sha256_hex plaintext;
     et_State := TokenStatePending; et_CreatedByDisplayName := username; et_CreatedAt := now_; et_ExpiresAt := now_ + ttlMinutes * 60 * nsec;
     et_UsedAt := None; et_OperatorID := ""; et_RevokedAt := None; et_ReplacedByID := "" |}.
Definition store_token (actor : option authctx_Actor) (requestID : string) (msg : CreateEnrollmentTokenRequest) (name : string) (ttlMinutes : Z)
    : rpc (string * time) :=
  let* plaintext := table random_text fails (λ _, refuse CodeInternal "unable to generate enrollment token") in
  match actor with
  | None => refuse CodeUnauthenticated "authentication required"
  | Some a =>
      let* user := table (Get_user (ax_UserID a)) fails (λ _, refuse CodeUnavailable "audit identity is unavailable") in
      let* now_ := table now fails (λ _, refuse CodeInternal "clock") in
      let* id := table new_uuid fails (λ _, refuse CodeInternal "identifier") in
      let token := enrollment_token id (cq_CustomerId msg) (cq_ClusterId msg) name plaintext (us_Username user) now_ ttlMinutes in
      operatorAuditEvent actor requestID "enrollment_token" id
        (if cq_ReplacePendingToken msg then "operator.enrollment_token.replaced" else "operator.enrollment_token.created")
        (revoke_scope_metadata (cq_CustomerId msg) (cq_ClusterId msg) ++ [("operator_name", name)])
        (λ auditEvent,
          let* _ := table (CreateEnrollmentToken_store token (cq_ReplacePendingToken msg) (Some auditEvent))
          fails (λ e, Done (Err (mapOperatorStoreError e))) in
          let* _ := table (Get_cluster (cq_ClusterId msg)) fails (λ _, refuse CodeInternal "unable to read cluster") in
          Done (Ok (plaintext, et_ExpiresAt token)))
  end.
Definition CreateEnrollmentToken (actor : option authctx_Actor) (requestID : string) (msg : CreateEnrollmentTokenRequest) : rpc (string * time) :=
  validateOperatorScope (cq_CustomerId msg) (cq_ClusterId msg) (
    let name := TrimSpace (cq_OperatorName msg) in
    if negb (validateOperatorName name) then refuse CodeInvalidArgument "operator_name must be a DNS-compatible label"
    else
      let ttlMinutes := if cq_TtlMinutes msg =? 0 then defaultEnrollmentTTLMinutes else cq_TtlMinutes msg in
      if (ttlMinutes <? minimumEnrollmentTTLMinutes) || (maximumEnrollmentTTLMinutes <? ttlMinutes)
      then refuse CodeInvalidArgument "ttl_minutes must be 0 or between 5 and 1440"
      else
        svc_bind (once (table (GetActiveByName (cq_CustomerId msg) name))) (λ r,
          match r with
          | Ok _ => refuse CodeAlreadyExists "an active operator with this name already exists"
          | Err ErrNotFound => store_token actor requestID msg name ttlMinutes
          | Err _ => refuse CodeInternal "unable to validate operator name"
          end)).

(** *** Disabling a customer or a cluster (customer.go, cluster.go): the status, then the cascade *)
Definition customer_disabled (c : Customer) : Customer :=
  {| cu_ID := cu_ID c; cu_Name := cu_Name c; cu_Slug := cu_Slug c; cu_Status := CustomerDisabled; cu_Version := cu_Version c;
     cu_CreatedAt := cu_CreatedAt c; cu_UpdatedAt := cu_UpdatedAt c |}.
Definition cluster_disabled (c : Cluster) : Cluster :=
  {| kl_ID := kl_ID c; kl_Name := kl_Name c; kl_CustomerID := kl_CustomerID c; kl_KubeconfigRef := kl_KubeconfigRef c;
     kl_Status := ClusterDisabled; kl_CreatedAt := kl_CreatedAt c; kl_UpdatedAt := kl_UpdatedAt c; kl_Version := kl_Version c |}.
Definition customerConflictError (description : string) : connect_error := newError CodeAborted ("optimistic_lock_conflict: " ++ description).
(** The history is best effort; the audit events of a cascade go to the emitter,
    whose answer is only logged, and are left out. *)
Definition recordCustomerEvent {A} (customerID eventType : string) (k : rpc A) : rpc A :=
  svc_bind (once (table new_uuid)) (λ r,
    match r with
    | Ok id => svc_bind (once (table (Create_customer_event {| cv_ID := id; cv_CustomerID := customerID; cv_EventType := eventType; cv_CreatedAt := 0 |})))
                 (λ _, k)
    | Err _ => k
    end).
Definition cascade_customer (customerID : string) : rpc CascadeRevokeResult :=
  let* cascade := table (DisableCustomer_store customerID "customer disabled") fails (λ _, refuse CodeInternal "cascade revoke customer") in
  Done (Ok cascade).
Definition DisableCustomer (customerID : string) : rpc CascadeRevokeResult :=
  svc_bind (once (table (Get_customer customerID))) (λ r,
    match r with
    | Err ErrNotFound => refuse CodeNotFound "customer not found"
    | Err _ => refuse CodeInternal "get customer"
    | Ok c =>
        if bool_decide (cu_Status c = CustomerDisabled) then cascade_customer (cu_ID c)
        else
          svc_bind (once (table (Update_customer (customer_disabled c) (cu_Version c)))) (λ r,
            match r with
            | Err ErrOptimisticLock => Done (Err (customerConflictError "customer was modified concurrently; refresh and retry"))
            | Err _ => refuse CodeInternal "disable customer"
            | Ok _ => recordCustomerEvent (cu_ID c) "customer_disabled" (cascade_customer (cu_ID c))
            end)
    end).
(** The other RPCs on customers and clusters; an answer is the id of the new row or the row. *)
Definition CreateCustomer (actor : option authctx_Actor) (id name slug : string) : rpc string :=
  match actor with
  | None => refuse CodeUnauthenticated "actor organization is required"
  | Some actor =>
      if bool_decide (ax_OrganizationID actor = "") then refuse CodeUnauthenticated "actor organization is required"
      else
        let* id := table (or_new_uuid id) fails (λ _, refuse CodeInternal "identifier") in
        let* bindingID := table new_uuid fails (λ _, refuse CodeInternal "identifier") in
        let c := {| cu_ID := id; cu_Name := name; cu_Slug := if bool_decide (slug = "") then id else slug; cu_Status := CustomerActive;
                    cu_Version := 0; cu_CreatedAt := 0; cu_UpdatedAt := 0 |} in
        let* _ := table (CreateCustomerWithOrgBinding (Some c) (ax_OrganizationID actor) bindingID)
        fails (λ _, refuse CodeInternal "create customer") in
        recordCustomerEvent id "customer_created" (Done (Ok id))
  end.
Definition GetCustomer (customerID : string) : rpc Customer :=
  svc_bind (once (table (Get_customer customerID))) (λ r,
    match r with
    | Ok c => Done (Ok c)
    | Err ErrNotFound => refuse CodeNotFound "customer not found"
    | Err _ => refuse CodeInternal "get customer"
    end).
Definition customer_renamed (name slug : string) (c : Customer) : Customer :=
  {| cu_ID := cu_ID c; cu_Name := if bool_decide (name = "") then cu_Name c else name;
     cu_Slug := if bool_decide (slug = "") then cu_Slug c else slug; cu_Status := cu_Status c; cu_Version := cu_Version c;
     cu_CreatedAt := cu_CreatedAt c; cu_UpdatedAt := cu_UpdatedAt c |}.
Definition UpdateCustomer (customerID : string) (expectedVersion : Z) (name slug : string) : rpc Customer :=
  svc_bind (once (table (Get_customer customerID))) (λ r,
    match r with
    | Err ErrNotFound => refuse CodeNotFound "customer not found"
    | Err _ => refuse CodeInternal "get customer"
    | Ok c =>
        if negb (expectedVersion =? cu_Version c) then Done (Err (customerConflictError "data was modified by another user"))
        else
          svc_bind (once (table (Update_customer (customer_renamed name slug c) expectedVersion))) (λ r,
            match r with
            | Err ErrOptimisticLock => Done (Err (customerConflictError "data was modified by another user"))
            | Err _ => refuse CodeInternal "update customer"
            | Ok updated => recordCustomerEvent (cu_ID c) "customer_updated" (Done (Ok updated))
            end)
    end).
Definition CreateCluster (customerID id name kubeconfigRef : string) : rpc string :=
  svc_bind (once (table (Get_customer customerID))) (λ r,
    match r with
    | Err ErrNotFound => refuse CodeNotFound "customer not found"
    | Err _ => refuse CodeInternal "get customer"
    | Ok cust =>
        if bool_decide (cu_Status cust = CustomerDisabled) then refuse CodePermissionDenied "customer is disabled"
        else
          let* id := table (or_new_uuid id) fails (λ _, refuse CodeInternal "identifier") in
          let* _ := table (Create_cluster {| kl_ID := id; kl_Name := name; kl_CustomerID := customerID; kl_KubeconfigRef := kubeconfigRef;
                                             kl_Status := ClusterActive; kl_CreatedAt := 0; kl_UpdatedAt := 0; kl_Version := 0 |})
          fails (λ _, refuse CodeInternal "create cluster") in
          Done (Ok id)
    end).
Definition DisableCluster (clusterID : string) : rpc CascadeRevokeResult :=
  svc_bind (once (table (Get_cluster clusterID))) (λ r,
    match r with
    | Err ErrNotFound => refuse CodeNotFound "cluster not found"
    | Err _ => refuse CodeInternal "get cluster"
    | Ok c =>
        let* _ := table (Update_cluster (cluster_disabled c) (kl_Version c)) fails (λ _, refuse CodeInternal "disable cluster") in
        let* cascade := table (DisableCluster_store (kl_ID c) "cluster disabled") fails (λ _, refuse CodeInternal "cascade revoke cluster") in
        Done (Ok cascade)
    end).

(** ** Every handler keeps the invariant, whatever runs beside it *)
Definition gok (g : Gateway) : Prop := fleet_ok (gdb g).
Definition gmoves (g g' : Gateway) : Prop := fleet_moves (gdb g) (gdb g').
#[local] Instance gmoves_preorder : PreOrder gmoves.
Proof. split; [intros g; unfold gmoves; reflexivity|]. intros a b c ? ?. unfold gmoves in *. by etransitivity. Qed.
Definition safe {A} (m : GM A) : Prop := guarantees gok gmoves m.
Lemma table_safe {A} (m : SM A) : keeps_fleet m → safe (table m).
Proof.
  intros Hm g Hg. unfold table. rewrite lift_eq. simpl. assert (H := Hm (gw_world g) (m (gw_world g)).1 (m (gw_world g)).2 ltac:(by destruct (m _)) Hg).
  exact H.
Qed.
Lemma local_safe {A} (m : GM A) : (∀ g, gw_world (m g).2 = gw_world g) → safe m.
Proof. intros Hm g Hg. unfold gok, gmoves, gdb. rewrite Hm. split; [done|reflexivity]. Qed.
Lemma Register_stream_safe o s : safe (Register_stream o s).
Proof. apply local_safe. intros g. unfold Register_stream. by destruct (bool_decide _). Qed.
Lemma Unregister_stream_safe o s : safe (Unregister_stream o s).
Proof. apply local_safe. intros g. unfold Unregister_stream. simpl. destruct (gw_streams g !! o) as [[c h]|]; [by destruct (bool_decide _)|done]. Qed.
Lemma Revoke_stream_safe o : safe (Revoke_stream o).
Proof. apply local_safe. intros g. unfold Revoke_stream. destruct (bool_decide _); [done|]. by destruct (gw_streams g !! o) as [[c h]|]. Qed.
Lemma Heartbeat_entry_safe s t : safe (Heartbeat_entry s t).
Proof. apply local_safe. intros g. unfold Heartbeat_entry. simpl. by destruct (bool_decide _). Qed.
Lemma read_settles {A} (f : DB → option A) : keeps_fleet (let! row := query f in scan_row row).
Proof. db_preserve. Qed.
Lemma SignCSR_settles csr names : keeps_fleet (SignCSR x509 ca_ttl csr names).
Proof. unfold SignCSR, random_text. db_preserve. Qed.
Ltac table_call :=
  first [ apply read_settles | apply SignCSR_settles | apply EnrollOperator_settles; reflexivity | apply CreateEnrollmentToken_settles; reflexivity
        | unfold ListByCluster_operators, DisableCustomer_store, DisableCluster_store, random_text; solve [db_preserve] ].
Ltac safe_calls :=
  repeat match goal with
  | |- True => exact I
  | |- calls _ (Done _) => exact I
  | |- calls _ (refuse _ _) => exact I
  | |- calls _ (internal_error _ _) => exact I
  | |- calls _ (Call (table _) _) => split; [apply table_safe; table_call|intros [?|?]]
  | |- calls _ (Call (Revoke_stream _) _) => split; [apply Revoke_stream_safe|intros [?|?]]
  | |- calls _ (Call (Unregister_stream _ _) _) => split; [apply Unregister_stream_safe|intros [?|?]]
  | |- calls _ (Call (Register_stream _ _) _) => split; [apply Register_stream_safe|intros [?|?]]
  | |- calls _ (Call (Heartbeat_entry _ _) _) => split; [apply Heartbeat_entry_safe|intros [?|?]]
  | |- calls _ (once _) => unfold once
  | |- calls _ (svc_bind _ _) => apply calls_bind; [|intros ?]
  | |- calls _ (and_rpc _ _) => unfold and_rpc
  | |- calls _ (match ?x with _ => _ end) => destruct x
  end.
Lemma Enroll_safe msg : calls (λ _, safe) (Enroll msg).
Proof.
  unfold Enroll. safe_calls. unfold enroll_csr. safe_calls. unfold check_name. safe_calls. unfold issue_and_enroll. safe_calls.
  unfold enroll_failure. safe_calls.
Qed.
Lemma in_scope_safe {A} customerID clusterID (k : rpc A) : calls (λ _, safe) k → calls (λ _, safe) (validateOperatorScope customerID clusterID k).
Proof. intros Hk. unfold validateOperatorScope. safe_calls; exact Hk. Qed.
Lemma scoped_safe {A} customerID clusterID id (k : Operator → rpc A) : (∀ o, calls (λ _, safe) (k o)) → calls (λ _, safe) (scopedOperator customerID clusterID id k).
Proof. intros Hk. unfold scopedOperator. safe_calls; apply Hk. Qed.
Lemma audit_safe {A} actor rid rt id action meta (k : AuditEvent → rpc A) :
  (∀ ev, calls (λ _, safe) (k ev)) → calls (λ _, safe) (operatorAuditEvent actor rid rt id action meta k).
Proof. intros Hk. unfold operatorAuditEvent. safe_calls; apply Hk. Qed.
Lemma summary_safe op sess : calls (λ _, safe) (operatorSummary op sess).
Proof. unfold operatorSummary. safe_calls. Qed.
Lemma CreateEnrollmentToken_safe actor rid msg : calls (λ _, safe) (CreateEnrollmentToken actor rid msg).
Proof.
  unfold CreateEnrollmentToken. apply in_scope_safe. safe_calls. unfold store_token. safe_calls. apply audit_safe. intros ev. safe_calls.
Qed.
Lemma RevokeOperator_safe actor rid msg : calls (λ _, safe) (RevokeOperator actor rid msg).
Proof.
  unfold RevokeOperator. apply in_scope_safe. safe_calls. apply scoped_safe. intros o. apply audit_safe. intros ev. safe_calls; apply summary_safe.
Qed.
Lemma RevokePending_safe actor rid c k : calls (λ _, safe) (RevokePendingEnrollmentToken actor rid c k).
Proof. unfold RevokePendingEnrollmentToken. apply in_scope_safe, audit_safe. intros ev. safe_calls. Qed.
Lemma status_safe c k : calls (λ _, safe) (GetEnrollmentTokenStatus c k).
Proof. unfold GetEnrollmentTokenStatus. apply in_scope_safe. safe_calls. Qed.
Lemma GetOperator_safe c k o : calls (λ _, safe) (GetOperator c k o).
Proof. unfold GetOperator. apply in_scope_safe, scoped_safe. intros. apply summary_safe. Qed.
Lemma DisableCustomer_safe c : calls (λ _, safe) (DisableCustomer c).
Proof. unfold DisableCustomer, recordCustomerEvent, cascade_customer. safe_calls. Qed.
Lemma CreateCustomer_safe actor id name slug : calls (λ _, safe) (CreateCustomer actor id name slug).
Proof. unfold CreateCustomer, recordCustomerEvent. safe_calls. Qed.
Lemma UpdateCustomer_safe id v name slug : calls (λ _, safe) (UpdateCustomer id v name slug).
Proof. unfold UpdateCustomer, recordCustomerEvent. safe_calls. Qed.
Lemma CreateCluster_safe c id name ref : calls (λ _, safe) (CreateCluster c id name ref).
Proof. unfold CreateCluster. safe_calls. Qed.
Lemma DisableCluster_safe k : calls (λ _, safe) (DisableCluster k).
Proof. unfold DisableCluster. safe_calls. Qed.
Lemma Renew_safe chain req : calls (λ _, safe) (gateway_RenewCertificate chain req).
Proof. unfold gateway_RenewCertificate, RenewCertificate. safe_calls; unfold renew_csr; safe_calls. Qed.
Lemma heartbeat_safe sid : calls (λ _, safe) (stream_heartbeat sid).
Proof. unfold stream_heartbeat. safe_calls. Qed.
Lemma done_safe o sid : calls (λ _, safe) (stream_done o sid).
Proof. unfold stream_done. safe_calls. Qed.
Lemma evaluate_safe s o t : calls (λ _, safe) (evaluate s o t).
Proof.
  assert (Hunregister : ∀ id, safe (Unregister_session id)) by (intros id; by apply local_safe).
  unfold evaluate. split; [by apply local_safe|]. intros [l|e]; cbn [svc_bind]; [|done].
  induction l as [|[id st] l IH]; cbn [run_transitions]; [done|]; cbv zeta.
  apply calls_bind; [case_bool_decide; [split; [apply Hunregister|by intros]|done]|intros _]. unfold once. cbn [svc_bind calls].
  split; [apply table_safe; table_call|]. intros [[]|e]; [|done].
  apply calls_bind; [case_bool_decide; [split; [apply Hunregister|by intros]|done]|done].
Qed.

(** ** Handlers beside others

    [gwp]: the handler runs while the rest of the system moves the tables by
    [fleet_moves] and keeps [fleet_ok], and any call may fail. *)
Section beside.
Context (fault : error → Prop).
Abbreviation gwp p Q g := (wp gok gmoves fault p Q g).
Definition gruns {A} (p : gsvc A) (g : Gateway) (a : A) (g' : Gateway) : Prop := runs (λ x y, gok y ∧ gmoves x y) fault p g a g'.
Lemma gruns_wp {A} (p : gsvc A) (Q : A → Gateway → Prop) g a g' : gruns p g a g' → gok g → gwp p Q g → gok g' ∧ gmoves g g' ∧ Q a g'.
Proof. intros H Hg Hw. by apply (wp_runs gok gmoves fault p Q g a g' H). Qed.
Fixpoint leaves {A} (P : A → Prop) (p : gsvc A) : Prop := match p with Done a => P a | Call m k => ∀ r, leaves P (k r) end.
Lemma gwp_leaves {A} (P : A → Prop) (p : gsvc A) (Q : A → Gateway → Prop) g :
  calls (λ _, safe) p → leaves P p → (∀ a g', P a → Q a g') → gwp p Q g.
Proof.
  revert g. induction p as [a|B m k IH]; intros g; simpl; [by intros _ HP HQ g1 _ _; apply HQ|]. intros [Hm Hk] HP HQ g1 Hg HR.
  destruct (Hm g1 Hg) as [Hg2 HR2]. split_and!; [done|done|by apply IH|]. intros e _. by apply IH.
Qed.
Lemma call_gwp {A B} (m : SM A) (k : res error A → gsvc B) Q g : keeps_fleet m →
  (∀ g1 a w', gok g1 → gmoves g g1 → m (gw_world g1) = (Ok a, w') → gok (put_world w' g1) → gmoves g1 (put_world w' g1) →
     gwp (k (Ok a)) Q (put_world w' g1)) →
  (∀ g1 e, gok g1 → gmoves g g1 → gwp (k (Err e)) Q g1) → gwp (Call (table m) k) Q g.
Proof.
  intros Hm Hok Herr. apply wp_call; [by apply table_safe|]. intros g1 Hg HR. split; [|intros e _; by apply Herr].
  destruct (table_safe m Hm g1 Hg) as [Hg2 HR2]. unfold table in *. rewrite lift_eq in *. simpl in *.
  destruct (m (gw_world g1)) as [[a|e] w'] eqn:E; simpl in *; [by apply Hok|]. apply Herr; [done|by etransitivity].
Qed.
Lemma local_gwp {A B} (m : GM A) (k : res error A → gsvc B) Q g : safe m →
  (∀ g1 r, gok g1 → gmoves g g1 → gwp (k r) Q g1) → gwp (Call m k) Q g.
Proof.
  intros Hm Hk. apply wp_call; [done|]. intros g1 Hg HR. split; [|intros e _; by apply Hk].
  destruct (Hm g1 Hg) as [Hg2 HR2]. apply Hk; [done|by etransitivity].
Qed.
(** A read of the tables. *)
Lemma scan_gwp {A B} (f : DB → option A) (k : res error A → gsvc B) Q g :
  (∀ g1 a, gok g1 → gmoves g g1 → f (gdb g1) = Some a → gwp (k (Ok a)) Q g1) →
  (∀ g1 e, gok g1 → gmoves g g1 → gwp (k (Err e)) Q g1) → gwp (Call (table (let! row := query f in scan_row row)) k) Q g.
Proof.
  intros Hok Herr. apply call_gwp; [apply read_settles| |done]. intros g1 a w' Hg HR H. dinv. intros _ _.
  replace (put_world (gw_world g1) g1) with g1 by by destruct g1. by apply Hok.
Qed.
(** A call of which only the value matters. *)
Lemma value_gwp {A B} (P : A → Prop) (m : SM A) (k : res error A → gsvc B) Q g : keeps_fleet m →
  (∀ w a w', m w = (Ok a, w') → P a) → (∀ g1 a, gok g1 → gmoves g g1 → P a → gwp (k (Ok a)) Q g1) →
  (∀ g1 e, gok g1 → gmoves g g1 → gwp (k (Err e)) Q g1) → gwp (Call (table m) k) Q g.
Proof.
  intros Hm HP Hok Herr. apply call_gwp; [done| |done]. intros g1 a w' Hg HR H Hg2 HR2. apply Hok; [done|by etransitivity|by eapply HP].
Qed.
Definition refused {A} (a : res connect_error A) : Prop := ∃ e, a = Err e.
Definition if_ok {A} (P : A → Gateway → Prop) (a : res connect_error A) (g : Gateway) : Prop := ∀ x, a = Ok x → P x g.
Lemma gwp_Err {A} (P : A → Gateway → Prop) e g : gwp (Done (Err e)) (if_ok P) g.
Proof. by intros g1 _ _ x. Qed.
Lemma gwp_refused {A} (P : A → Gateway → Prop) (p : rpc A) g : calls (λ _, safe) p → leaves refused p → gwp p (if_ok P) g.
Proof. intros Hp Hl. apply (gwp_leaves refused); [done|done|]. by intros a g' [e ->] x. Qed.
Ltac refusal := first [apply gwp_Err | by apply gwp_Err].

(** *** What an answered enrollment has done *)
Definition certified (msg : EnrollRequest) (op : Operator) (certificatePem : string) : Prop :=
  ∃ csr customer cluster serial t der,
    parseCSR x509 (en_CsrPem msg) = Some csr ∧ o_Name op = TrimSpace (csr_CommonName csr) ∧ validateDNSLabel (o_Name op) = true
    ∧ normalizeDNSLabel (o_CustomerID op) = Some customer ∧ normalizeDNSLabel (o_ClusterID op) = Some cluster
    ∧ (∃ n, n ∈ csr_DNSNames csr ∧ EqualFold (TrimSpace n) (canonical_name customer cluster) = true)
    ∧ CreateCertificate x509 serial csr [canonical_name customer cluster] t (t + ca_ttl) = Some der
    ∧ o_CertSerial op = CertSerialDER der ∧ certificatePem = pem_Encode x509 der.
Definition scope_open (customerID clusterID : string) (db dbc db1 : DB) : Prop :=
  (∃ c, db_customers db !! customerID = Some c ∧ cu_Status c ≠ CustomerDisabled)
  ∧ fleet_moves db dbc ∧ fleet_moves dbc db1
  ∧ ∃ k, clusters_of dbc !! clusterID = Some k ∧ kl_Status k ≠ ClusterDisabled ∧ kl_CustomerID k = customerID.
(** The row a presented token stands for. *)
Definition presented (rawToken : string) (db : DB) (t : EnrollmentToken) : Prop :=
  find_row (λ t, bool_decide (et_TokenHash t = sha256_hex rawToken)) (tokens_of db) = Some t.
Definition enroll_spec (msg : EnrollRequest) (g : Gateway) (p : EnrollResponse) (g' : Gateway) : Prop :=
  ∃ db0 dbc db1 db2 t op session now_ r,
    fleet_moves (gdb g) db0 ∧ scope_open (et_CustomerID t) (et_ClusterID t) db0 dbc db1 ∧ fleet_moves db2 (gdb g') ∧ fleet_ok db1
    ∧ presented (en_EnrollmentToken msg) db1 t ∧ is_pending t = true ∧ scope_matches msg t = true
    ∧ certified msg op (ep_CertificatePem p) ∧ o_Status op = OperatorActive
    ∧ fleet_ok db2 ∧ fleet_moves db1 db2 ∧ enrolled (et_ID t) op session now_ db1 db2 r
    ∧ o_ID op = ep_OperatorId p ∧ sn_ID session = ep_SessionId p ∧ (∀ o, o ∈ operators_of db1 → o_ID o ≠ ep_OperatorId p).

Lemma SignCSR_Ok csr names w a w' : SignCSR x509 ca_ttl csr names w = (Ok a, w') →
  ∃ serial t, CreateCertificate x509 serial csr names t (t + ca_ttl) = Some (ic_DER a) ∧ ic_PEM a = pem_Encode x509 (ic_DER a)
    ∧ ic_Serial a = CertSerialDER (ic_DER a).
Proof.
  unfold SignCSR, random_text. intros H. dinv. destruct (CreateCertificate _ _ _ _ _ _) as [der|] eqn:E; dinv. by eexists _, _.
Qed.
Lemma enrolled_fresh id op session t db db' r : enrolled id op session t db db' r → ∀ o, o ∈ operators_of db → o_ID o ≠ o_ID op.
Proof.
  intros [_ _ _ _ (ops & ss & Hsup & EO & _) (_ & I2 & _)] o Ho E. rewrite EO in I2. destruct I2 as [Hn _].
  rewrite fmap_app, NoDup_app in Hn. destruct Hn as (_ & Hd & _). apply (Hd (o_ID op)); [|by apply list_elem_of_singleton].
  apply list_elem_of_fmap. destruct Hsup as [(_ & _ & -> & _)|(e & _ & _ & _ & _ & -> & _)]; [by exists o|].
  exists (if bool_decide (o_ID o = o_ID e) && is_active o then operator_superseded (o_ID op) (sn_StartedAt session) o else o).
  split; [by destruct (_ && _)|]. apply update_where_elem. by exists o.
Qed.
Lemma token_later (db db' : DB) t u : fleet_moves db db' → fleet_ok db' → t ∈ tokens_of db → u ∈ tokens_of db' → et_ID u = et_ID t → token_step t u.
Proof.
  intros (Hm & _) (Hok & _) Ht Hu E. destruct (grows_elem _ _ _ _ Hm Ht) as (y & Hy & Hs).
  assert (u = y) as ->; [|done]. apply (unique_key et_ID (tokens_of db')); [apply Hok|done|done|]. destruct Hs as [-> _]. done.
Qed.
Lemma token_fields t u : token_step t u → et_ID u = et_ID t ∧ et_CustomerID u = et_CustomerID t ∧ et_ClusterID u = et_ClusterID t.
Proof. by intros (?&?&?&_). Qed.
Lemma grows_find {A} (step : A → A → Prop) p l l' x :
  (∀ x y, step x y → p y = p x) → grows step l l' → find_row p l = Some x → ∃ y, find_row p l' = Some y ∧ step x y.
Proof.
  intros Hp (a & b & -> & H). unfold find_row. induction H as [|z w l a Hs _ IH]; [done|]. simpl. rewrite (Hp _ _ Hs).
  destruct (p z); [|done]. intros [= <-]. by exists w.
Qed.
Lemma presented_later raw db db' t : fleet_moves db db' → presented raw db t → ∃ u, presented raw db' u ∧ token_step t u.
Proof. intros (Hm & _). apply (grows_find token_step); [|done]. intros x y (_&_&_&_& -> &_). done. Qed.
Lemma presented_elem raw db t : presented raw db t → t ∈ tokens_of db.
Proof. by intros [Ht _]%find_row_Some. Qed.

(** What is known when the certificate is about to be issued. *)
Record cleared (msg : EnrollRequest) (g0 : Gateway) (token : EnrollmentToken) (db0 dbc : DB) (g : Gateway) : Prop := {
  cl_start : fleet_moves (gdb g0) db0;
  cl_token : ∃ dbt, presented (en_EnrollmentToken msg) dbt token ∧ fleet_moves dbt (gdb g);
  cl_scope : scope_matches msg token = true;
  cl_open : scope_open (et_CustomerID token) (et_ClusterID token) db0 dbc (gdb g);
}.
Lemma cleared_later msg g0 token db0 dbc g g1 : cleared msg g0 token db0 dbc g → gmoves g g1 → cleared msg g0 token db0 dbc g1.
Proof.
  intros [H1 (dbt & Ht & H2) H4 (Hc & H5 & H6 & Hk)] HR. split; try done.
  - exists dbt. split; [done|by etransitivity].
  - split_and!; [done|done|by etransitivity|done].
Qed.
Lemma validateCSRIdentity_Ok csr customerID clusterID ident : validateCSRIdentity csr customerID clusterID = Ok ident →
  ∃ customer cluster, normalizeDNSLabel customerID = Some customer ∧ normalizeDNSLabel clusterID = Some cluster
    ∧ ci_OperatorName ident = TrimSpace (csr_CommonName csr) ∧ validateDNSLabel (ci_OperatorName ident) = true
    ∧ ci_DNSName ident = canonical_name customer cluster ∧ ∃ n, n ∈ csr_DNSNames csr ∧ EqualFold (TrimSpace n) (canonical_name customer cluster) = true.
Proof.
  unfold validateCSRIdentity. destruct (validateDNSLabel (TrimSpace _)) eqn:Ev; cbn [negb]; [|done].
  destruct (normalizeDNSLabel customerID) as [customer|], (normalizeDNSLabel clusterID) as [cluster|]; try done.
  destruct (existsb _ _) eqn:En; [|done]. intros [= <-]. exists customer, cluster. split_and!; try done.
  apply existsb_exists in En as (n & Hn & E). exists n. split; [by apply list_elem_of_In|done].
Qed.
Lemma issue_wp msg now_ token csr ident g0 db0 dbc g :
  cleared msg g0 token db0 dbc g → parseCSR x509 (en_CsrPem msg) = Some csr →
  validateCSRIdentity csr (et_CustomerID token) (et_ClusterID token) = Ok ident →
  gwp (issue_and_enroll msg now_ token csr ident) (if_ok (enroll_spec msg g0)) g.
Proof.
  intros Hcl Hcsr (customer & cluster & Hnc & Hnk & Hname & Hvalid & Hdns & Hsan)%validateCSRIdentity_Ok. unfold issue_and_enroll.
  apply (value_gwp _ _ _ _ _ (SignCSR_settles _ _) (SignCSR_Ok csr [ci_DNSName ident])); [|by intros; apply gwp_Err].
  intros g1 issued _ R1 (serial & t & Hder & Hpem & Hserial).
  apply (value_gwp (λ _, True)); [db_preserve|done| |by intros; apply gwp_Err]. intros g2 operatorID _ R2 _.
  apply (value_gwp (λ _, True)); [db_preserve|done| |by intros; apply gwp_Err]. intros g3 sessionID _ R3 _.
  apply call_gwp; [by apply EnrollOperator_settles| |intros g4 e _ _; apply gwp_refused; [unfold enroll_failure; safe_calls|]].
  - intros g4 r w' Hg4 R4 H Hg5 R5. apply EnrollOperator_Ok in H as (t1 & now1 & He). cbv zeta in He.
    set (op := operator_registered _ _) in He. set (sn := session_for _ _) in He.
    assert (Hend : ∀ g6, gmoves (put_world w' g4) g6 → enroll_spec msg g0 {| ep_SessionId := sessionID; ep_TtlSeconds := seconds sessionTTL;
      ep_CertificatePem := ic_PEM issued; ep_OperatorId := operatorID; ep_CertificateExpiresAt := rfc3339 (ic_ExpiresAt issued) |} g6).
    { intros g6 R6. assert (Hnew := enrolled_fresh _ _ _ _ _ _ _ He).
      assert (H4 : cleared msg g0 token db0 dbc g4) by (apply (cleared_later _ _ _ _ _ g); [done|by do 3 (etransitivity; [eassumption|])]).
      destruct (en_token _ _ _ _ _ _ _ He) as (tok & Htok & Hid & Hp & _ & Hc & Hk & Hn). destruct H4 as [M0 (dbt & Ht & M1) Hs Ho].
      destruct (presented_later _ _ _ _ M1 Ht) as (u & Hu & Hstep). destruct (token_fields _ _ Hstep) as (Ei & Ec & Ek).
      assert (u = tok) as -> by (apply (unique_key et_ID (tokens_of (gdb g4))); [apply Hg4|by eapply presented_elem|done|congruence]).
      exists db0, dbc, (gdb g4), (w_db w'), tok, op, sn, now1, r. rewrite <- Hid in He. unfold scope_matches in *. rewrite Ec, Ek.
      split_and!; try done. exists csr, customer, cluster, serial, t, (ic_DER issued). split_and!; try done; by rewrite <- Hdns. }
    destruct (bool_decide _).
    + intros g6 Hg6 R6 p [= <-]. by apply Hend.
    + apply local_gwp; [apply Revoke_stream_safe|]. intros g6 b _ R6 g7 _ R7 p [= <-]. apply Hend. by etransitivity.
  - unfold enroll_failure. destruct e; simpl; try (by eexists); intros [c|e']; try (by eexists); destruct (token_error _); by eexists.
Qed.
Lemma enroll_csr_wp msg now_ token g0 db0 dbc g :
  cleared msg g0 token db0 dbc g → gwp (enroll_csr msg now_ token) (if_ok (enroll_spec msg g0)) g.
Proof.
  intros Hcl. unfold enroll_csr. destruct (parseCSR _ _) as [csr|] eqn:Hcsr; [|apply gwp_Err].
  destruct (validateCSRIdentity _ _ _) as [ident|[]] eqn:Hid; [|apply gwp_Err..]. destruct (_ && _); [apply gwp_Err|].
  unfold check_name. apply local_gwp; [apply table_safe, read_settles|]. intros g1 [existing|e] _ R1.
  - apply local_gwp; [apply table_safe, read_settles|]. intros g2 r _ _. destruct r as [c|e']; [destruct (bool_decide _); [apply gwp_Err|]|];
      destruct (negb _); apply gwp_Err.
  - destruct e; try apply gwp_Err. by eapply issue_wp; [eapply cleared_later|..].
Qed.
Lemma Enroll_wp msg g : gwp (Enroll msg) (if_ok (enroll_spec msg g)) g.
Proof.
  unfold Enroll. apply (value_gwp (λ _, True)); [db_preserve|done| |by intros; apply gwp_Err]. intros g1 now_ _ R1 _.
  apply scan_gwp; [|intros g2 [] _ _; apply gwp_Err]. intros g2 token Hg2 R2 Htok.
  destruct (token_error _); [apply gwp_Err|]. destruct (_ <=? _); [apply gwp_Err|]. destruct (scope_matches _ _) eqn:Hscope; [|apply gwp_Err].
  apply scan_gwp; [|by intros; apply gwp_Err]. intros g3 cust Hg3 R3 Hcust. cbn [negb]. case_bool_decide as Hc; [apply gwp_Err|].
  apply scan_gwp; [|by intros; apply gwp_Err]. intros g4 cl Hg4 R4 Hcl. case_bool_decide as Hk; [apply gwp_Err|].
  case_bool_decide as Hkc; [|apply gwp_Err]. cbn [negb]. apply (enroll_csr_wp _ _ _ _ (gdb g3) (gdb g4)). split; try done.
  - by do 2 (etransitivity; [eassumption|]).
  - exists (gdb g2). split; [done|by etransitivity].
  - split; [by exists cust|]. split_and!; [done|reflexivity|]. by exists cl.
Qed.

(** C7: what a successful enrollment means, whatever runs beside it and fails.
    The token presented was pending, unexpired and issued for the requested
    customer and cluster, both of which were open when they were read; the
    certificate was issued to the requester's key for exactly the canonical name
    of that scope; and one atomic step consumed the token, added the operator of
    the answer with the serial of that certificate and its session, superseded
    the operator that was active on the cluster before and revoked its sessions. *)
Theorem enroll_admits msg g p g' :
  gok g → gruns (Enroll msg) g (Ok p) g' → gok g' ∧ gmoves g g' ∧ enroll_spec msg g p g'.
Proof. intros Hg H. destruct (gruns_wp _ _ _ _ _ H Hg (Enroll_wp msg g)) as (?&?&Hq). split_and!; [done|done|by apply Hq]. Qed.

Lemma enrolled_used msg g p g' : enroll_spec msg g p g' → gok g' →
  ∃ u, presented (en_EnrollmentToken msg) (gdb g') u ∧ et_State u = TokenStateUsed ∧ et_OperatorID u = ep_OperatorId p.
Proof.
  intros (db0 & dbc & db1 & db2 & t & op & sn & now_ & r & _ & _ & M2 & Hok1 & Hp & Hpend & _ & _ & _ & Hok2 & M1 & He & Hid & _) Hg.
  destruct (presented_later _ _ _ _ M1 Hp) as (v & Hv & Sv). destruct (presented_later _ _ _ _ M2 Hv) as (u & Hu & Su).
  assert (v = token_used (sn_StartedAt sn) (o_ID op) t) as ->.
  { apply (unique_key et_ID (tokens_of db2)); [apply Hok2|by eapply presented_elem| |by destruct (token_fields _ _ Sv)].
    rewrite (en_tokens _ _ _ _ _ _ _ He). apply update_where_elem. exists t. split; [by eapply presented_elem|].
    unfold pending_id. by rewrite Hpend, bool_decide_eq_true_2. }
  destruct Su as (_&_&_&_&_&_&Su). rewrite Su in Hu by done. exists (token_used (sn_StartedAt sn) (o_ID op) t). by rewrite <- Hid.
Qed.
(** A token whose row is not pending is refused. *)
Lemma Enroll_spent msg g u : presented (en_EnrollmentToken msg) (gdb g) u → is_pending u = false → gwp (Enroll msg) (λ a _, refused a) g.
Proof.
  intros Hu Hp. assert (HErr : ∀ e g, gwp (Done (Err e)) (λ (a : res connect_error EnrollResponse) _, refused a) g) by (intros e g' g1 _ _; by exists e).
  unfold Enroll. apply (value_gwp (λ _, True)); [db_preserve|done| |by intros; apply HErr]. intros g1 now_ _ R1 _.
  apply scan_gwp; [|intros g2 [] _ _; apply HErr]. intros g2 token Hg2 R2 Htok.
  destruct (presented_later _ (gdb g) (gdb g2) u ltac:(by etransitivity) Hu) as (v & Hv & (_&_&_&_&_&_&Sv)). rewrite (Sv Hp) in Hv.
  unfold presented in Hv. rewrite Hv in Htok. injection Htok as <-. unfold is_pending in Hp.
  destruct (et_State u); try done; apply HErr.
Qed.

(** C10: an enrollment token works once.  After an enrollment was answered with
    success, every later enrollment that presents the same token is refused,
    whatever runs beside them and fails. *)
Theorem token_single_use msg msg' g p g1 a g2 :
  gok g → gruns (Enroll msg) g (Ok p) g1 → gruns (Enroll msg') g1 a g2 → en_EnrollmentToken msg' = en_EnrollmentToken msg → refused a.
Proof.
  intros Hg H1 H2 Eraw. destruct (gruns_wp _ _ _ _ _ H1 Hg (Enroll_wp msg g)) as (Hg1 & _ & Hq).
  destruct (enrolled_used _ _ _ _ (Hq p eq_refl) Hg1) as (u & Hu & Hused & _). rewrite <- Eraw in Hu.
  destruct (gruns_wp _ (λ a _, refused a) _ _ _ H2 Hg1) as (_ & _ & Hr); [|exact Hr].
  apply (Enroll_spent _ _ u Hu). unfold is_pending. by rewrite Hused.
Qed.

(** *** The hello of a stream *)
Lemma operator_later db db' o : fleet_moves db db' → o ∈ operators_of db → ∃ n, n ∈ operators_of db' ∧ operator_step o n.
Proof. intros (_ & Hm & _) Ho. by apply (grows_elem _ _ _ _ Hm). Qed.
Lemma belongs_later db db' s o : fleet_moves db db' → o ∈ operators_of db → belongs s o → ∃ n, n ∈ operators_of db' ∧ belongs s n.
Proof.
  intros Hm Ho (?&?&?). destruct (operator_later _ _ _ Hm Ho) as (n & Hn & (?&?&?&?) & _). exists n. split; [done|]. unfold belongs. split_and!; congruence.
Qed.
Lemma Establish_gwp {B} sess (k : res error unit → gsvc B) Q g o :
  o ∈ operators_of (gdb g) → belongs sess o → (∀ g1 r, gok g1 → gmoves g g1 → gwp (k r) Q g1) → gwp (Call (table (Establish sess)) k) Q g.
Proof.
  intros Ho Hb Hk g1 Hg R1. assert (Hb1 := belongs_later _ _ _ _ R1 Ho Hb). unfold table. rewrite lift_eq. simpl.
  destruct (Establish sess (gw_world g1)) as [r w'] eqn:E. apply Establish_run in E as [Hg2 R2]; [|done|done]. simpl.
  split_and!; [done|done| |].
  - apply Hk; [done|]. by transitivity g1.
  - intros e _. by apply Hk.
Qed.
Lemma no_operator_leaves {A} clusterID : leaves refused (no_operator (A:=A) clusterID).
Proof. unfold no_operator. simpl. intros [all|e]; [|by eexists]. destruct (replaced_reason all); by eexists. Qed.
Lemma no_operator_safe {A} clusterID : calls (λ _, safe) (no_operator (A:=A) clusterID).
Proof. unfold no_operator. safe_calls. Qed.
(** A stream is that of an operator that was active, and is named by [who]. *)
Definition admitted_as (who : Operator → Prop) (g : Gateway) (id : string) : Prop :=
  ∃ db o, fleet_moves (gdb g) db ∧ fleet_ok db ∧ o ∈ operators_of db ∧ who o ∧ is_active o = true ∧ id = o_ID o.
Definition holds_cert (cert : Certificate) (o : Operator) : Prop := o_CertSerial o = certSerialFromCert cert.
Lemma hello_tls_wp hello cert certs g : gwp (hello_tls hello (cert :: certs)) (if_ok (λ ids _, admitted_as (holds_cert cert) g ids.1)) g.
Proof.
  cbn [hello_tls]. destruct (parseSANIdentity _) as [[clusterID customerID]|]; [|apply gwp_Err].
  apply scan_gwp; [|intros g1 [] _ _; try apply gwp_Err; apply gwp_refused; [apply no_operator_safe|apply no_operator_leaves]].
  intros g1 op Hg1 R1 [Hop Hq]%find_row_Some. destruct_bools. destruct (negb _); [apply gwp_Err|].
  destruct (inactive op); [apply gwp_Err|]. case_bool_decide as Hs; [|apply gwp_Err]. cbn [negb].
  apply (value_gwp (λ _, True)); [db_preserve|done| |by intros; apply gwp_Err]. intros g2 now_ _ R2 _.
  apply (value_gwp (λ _, True)); [db_preserve|done| |by intros; apply gwp_Err]. intros g3 id _ R3 _.
  destruct (operator_later (gdb g1) (gdb g3) op ltac:(by etransitivity) Hop) as (n & Hn & (I & _ & C & K) & _).
  apply (Establish_gwp _ _ _ _ n); [done|by split_and!|]. intros g4 [u|e] _ R4; [|destruct e; apply gwp_Err].
  intros g5 _ _ ids [= <-]. exists (gdb g1), op. split_and!; done.
Qed.
Lemma hello_plain_wp hello g :
  gwp (hello_plain hello) (if_ok (λ ids _, admitted_as (λ o, o_ID o = he_OperatorId hello) g ids.1)) g.
Proof.
  unfold hello_plain. apply scan_gwp; [|by intros; apply gwp_Err]. intros g1 sess _ R1 _.
  destruct (negb _); [apply gwp_Err|]. destruct (negb _); [apply gwp_Err|]. cbn [once svc_bind].
  apply scan_gwp; [|intros g2 [] _ _; apply gwp_Err]. intros g2 op Hg2 R2 [Hop Hid]%find_row_Some.
  destruct (inactive op) eqn:Hi; [apply gwp_Err|]. intros g3 _ _ ids [= <-]. exists (gdb g2), op. destruct_bools.
  split_and!; try done; [by transitivity (gdb g1)|]. unfold inactive in Hi. simpl in Hi. unfold is_active. by destruct (o_Status op).
Qed.
Lemma CommandStream_wp who tls hello g :
  gwp (match tls with Some certs => hello_tls hello certs | None => hello_plain hello end) (if_ok (λ ids _, admitted_as who g ids.1)) g →
  gwp (CommandStream_hello tls hello) (if_ok (λ e _, admitted_as who g (es_OperatorId e))) g.
Proof.
  intros H. unfold CommandStream_hello, and_rpc. apply wp_bind; [apply _|]. eapply wp_mono; [apply _| |exact H].
  intros [[id sid]|e] g1 _ _ Hq; [|apply gwp_Err]. specialize (Hq _ eq_refl). simpl in Hq. cbn [fst snd].
  apply local_gwp; [apply Register_stream_safe|]. intros g2 [handle|e] _ _; [|apply gwp_Err].
  apply local_gwp; [apply table_safe; db_preserve|]. intros g3 [t|e] _ _; [|apply gwp_Err].
  apply local_gwp; [by apply local_safe|]. intros g4 r _ _ g5 _ _ x [= <-]. exact Hq.
Qed.
Lemma gateway_stream_wp cert hello g :
  gwp (gateway_CommandStream (Some cert) hello) (if_ok (λ e _, admitted_as (holds_cert cert) g (es_OperatorId e))) g.
Proof.
  cbn [gateway_CommandStream]. destruct (certIdentity cert); [|apply gwp_Err]. apply CommandStream_wp, hello_tls_wp.
Qed.
Lemma san_serial cert i : certIdentity cert = Some i → id_Serial i = certSerialFromCert cert.
Proof. unfold certIdentity. destruct (san_labels _) as [[]|]; [|done]. case_bool_decide; [done|]. by intros [= <-]. Qed.
Lemma validateCertificateIdentity_None op i : validateCertificateIdentity op i = None → is_active op = true ∧ o_CertSerial op = id_Serial i.
Proof.
  unfold validateCertificateIdentity, is_active. case_bool_decide; [done|]. destruct (o_Status op); [|done..].
  destruct (_ || _); [done|]. by case_bool_decide.
Qed.
Lemma Renew_wp cert req g :
  gwp (gateway_RenewCertificate (Some cert) req) (if_ok (λ _ _, admitted_as (holds_cert cert) g (rq_OperatorId req))) g.
Proof.
  cbn [gateway_RenewCertificate]. destruct (certIdentity cert) as [i|] eqn:Hi; [|apply gwp_Err]. apply san_serial in Hi. unfold RenewCertificate.
  apply scan_gwp; [|by intros; apply gwp_Err]. intros g1 op Hg1 R1 [Hop Hid]%find_row_Some. destruct (validateRenewIdentity _ _ _); [|apply gwp_Err]. cbn [negb].
  destruct (validateCertificateIdentity op i) eqn:Hv; [apply gwp_Err|]. apply validateCertificateIdentity_None in Hv as [Ha Hs].
  apply wp_calls; [apply _| |].
  - intros a g2 _ _ x _. exists (gdb g1), op. destruct_bools. split_and!; try done. unfold holds_cert. congruence.
  - safe_calls; unfold renew_csr; safe_calls.
Qed.
(** Who is not active stays so under the same id and the same serial. *)
Lemma shut_out who g o id :
  o ∈ operators_of (gdb g) → is_active o = false → (∀ n, who n → o_ID n = o_ID o ∨ o_CertSerial n = o_CertSerial o) → ¬ admitted_as who g id.
Proof.
  intros Ho Ha Hwho (db & n & Hm & (_ & (I & C & _) & _) & Hn & Hw & Hact & _).
  destruct (operator_later _ _ _ Hm Ho) as (m & Hm' & (Ei & _) & _ & Hina & _). destruct (Hina Ha) as [Hmi Hmc].
  assert (n = m) as ->; [|congruence].
  destruct (Hwho n Hw) as [E|E]; [apply (unique_key o_ID (operators_of db))|apply (unique_key o_CertSerial (operators_of db))]; congruence.
Qed.
Lemma gruns_refused {A} (p : rpc A) (P : A → Gateway → Prop) g a g' :
  gruns p g a g' → gok g → gwp p (if_ok P) g → (∀ x, ¬ P x g') → refused a.
Proof.
  intros H Hg Hw Hno. destruct (gruns_wp _ _ _ _ _ H Hg Hw) as (_ & _ & Hq). destruct a as [x|e]; [|by exists e]. destruct (Hno x). by apply Hq.
Qed.

(** *** Revocation *)
Lemma scope_gwp {A} (P : A → Gateway → Prop) c k (kont : rpc A) g : (∀ g1, gwp kont (if_ok P) g1) → gwp (validateOperatorScope c k kont) (if_ok P) g.
Proof.
  intros Hk. unfold validateOperatorScope. do 2 (case_bool_decide; [apply gwp_Err|]). cbn [once svc_bind].
  apply scan_gwp; [|intros g1 [] _ _; apply gwp_Err]. intros g1 cust _ _ _. case_bool_decide; [apply gwp_Err|]. cbn [once svc_bind].
  apply scan_gwp; [|intros g2 [] _ _; apply gwp_Err]. intros g2 cl _ _ _. destruct (negb _); [apply gwp_Err|]. case_bool_decide; [apply gwp_Err|apply Hk].
Qed.
Lemma scoped_gwp {A} (P : A → Gateway → Prop) c k id (kont : Operator → rpc A) g :
  (∀ o g1, o_ID o = id → gwp (kont o) (if_ok P) g1) → gwp (scopedOperator c k id kont) (if_ok P) g.
Proof.
  intros Hk. unfold scopedOperator. case_bool_decide; [apply gwp_Err|]. cbn [once svc_bind].
  apply scan_gwp; [|intros g1 [] _ _; apply gwp_Err]. intros g1 o _ _ [_ Hid]%find_row_Some. destruct (_ || _); [apply gwp_Err|]. apply Hk. by destruct_bools.
Qed.
Lemma audit_gwp {A} (P : A → Gateway → Prop) actor rid rt id action meta (k : AuditEvent → rpc A) g :
  (∀ ev g1, gwp (k ev) (if_ok P) g1) → gwp (operatorAuditEvent actor rid rt id action meta k) (if_ok P) g.
Proof.
  intros Hk. unfold operatorAuditEvent. destruct actor; [|apply gwp_Err].
  do 4 (apply local_gwp; [apply table_safe; first [apply read_settles|db_preserve]|]; intros ? [?|?] _ _; [|apply gwp_Err]). apply Hk.
Qed.
Lemma RevokeOperator_wp actor rid msg g : gwp (RevokeOperator actor rid msg) (if_ok (λ _ g', revoked_row (rr_OperatorId msg) (gdb g'))) g.
Proof.
  unfold RevokeOperator. apply scope_gwp. intros g1. cbv zeta. destruct (_ || _); [apply gwp_Err|]. apply scoped_gwp. intros o g2 <-.
  apply audit_gwp. intros ev g3. apply call_gwp; [db_preserve| |by intros; apply gwp_Err]. intros g4 r w' _ _ H%RevokeOperator_store_Ok _ _.
  apply local_gwp; [apply Revoke_stream_safe|]. intros g5 [b|e] _ R5; [|apply gwp_Err].
  apply wp_calls; [apply _| |].
  - intros a g6 _ R6 x _. apply (revoked_later _ (gdb (put_world w' g4))); [|done]. by transitivity (gdb g5).
  - unfold and_rpc. apply calls_bind; [apply summary_safe|intros [?|?]; done].
Qed.
(** Who comes in with the certificate or the id of an operator that is not active. *)
Definition locked_out (o : Operator) (g : Gateway) : Prop :=
  (∀ cert hello a g', certSerialFromCert cert = o_CertSerial o → gruns (gateway_CommandStream (Some cert) hello) g a g' → refused a)
  ∧ (∀ cert req a g', certSerialFromCert cert = o_CertSerial o → gruns (gateway_RenewCertificate (Some cert) req) g a g' → refused a)
  ∧ (∀ hello a g', he_OperatorId hello = o_ID o → gruns (CommandStream_hello None hello) g a g' → refused a).
Lemma inactive_locked_out g o : gok g → o ∈ operators_of (gdb g) → is_active o = false → locked_out o g.
Proof.
  intros Hg Ho Ha. split_and!.
  - intros cert hello a g' Hc Hr. apply (gruns_refused _ _ _ _ _ Hr Hg (gateway_stream_wp cert hello g)).
    intros x. apply (shut_out _ _ o); [done|done|]. intros n Hn. right. unfold holds_cert in Hn. congruence.
  - intros cert req a g' Hc Hr. apply (gruns_refused _ _ _ _ _ Hr Hg (Renew_wp cert req g)).
    intros x. apply (shut_out _ _ o); [done|done|]. intros n Hn. right. unfold holds_cert in Hn. congruence.
  - intros hello a g' Hid Hr. apply (gruns_refused _ _ _ _ _ Hr Hg (CommandStream_wp _ None hello g (hello_plain_wp hello g))).
    intros x. apply (shut_out _ _ o); [done|done|]. intros n Hn. left. simpl in Hn. congruence.
Qed.
Lemma revoked_inactive o : is_revoked o = true → is_active o = false.
Proof. unfold is_revoked, is_active. intros H. destruct_bools. by rewrite H. Qed.

(** C8: a revoked operator stays out.  Once a revocation was answered with
    success the operator is revoked, and from any later state of the system the
    gateway refuses it a command stream and a renewal under its certificate, and
    the management plane refuses it a stream, whatever runs beside and fails. *)
Theorem revocation_locks_out actor requestID msg g p g1 g2 :
  gok g → gruns (RevokeOperator actor requestID msg) g (Ok p) g1 → gok g2 → gmoves g1 g2 →
  ∃ o, o ∈ operators_of (gdb g2) ∧ o_ID o = rr_OperatorId msg ∧ is_revoked o = true ∧ locked_out o g2.
Proof.
  intros Hg H Hg2 Hm. destruct (gruns_wp _ _ _ _ _ H Hg (RevokeOperator_wp actor requestID msg g)) as (_ & _ & Hq).
  destruct (revoked_later _ _ _ Hm (Hq _ eq_refl)) as (o & Ho & Hid & Hr). exists o. split_and!; try done.
  by apply inactive_locked_out, revoked_inactive.
Qed.

(** *** Disabling a customer or a cluster *)
Definition evicted (sc : scope) (g g' : Gateway) : Prop :=
  (∀ o, o ∈ operators_of (gdb g) → in_scope sc (o_CustomerID o) (o_ClusterID o) = true →
     ∃ n, n ∈ operators_of (gdb g') ∧ same_operator o n ∧ is_revoked n = true ∧ locked_out n g')
  ∧ ∀ msg t a g'', presented (en_EnrollmentToken msg) (gdb g) t → in_scope sc (et_CustomerID t) (et_ClusterID t) = true →
      gruns (Enroll msg) g' a g'' → refused a.
Lemma cascade_evicts sc reason t g g' r db : gmoves g g' → gok g' → fleet_moves (gdb g) db → revoked_scope sc reason t (gdb g) db r →
  fleet_moves db (gdb g') → evicted sc g g'.
Proof.
  intros HR Hg' M1 (CT & CO & _)%revoked_scope_clean M2. split.
  - intros o Ho Hin. destruct (operator_later _ _ _ M1 Ho) as (n & Hn & S & _ & _ & _). assert (S' := S). destruct S' as (_ & _ & Ec & Ek).
    assert (Hrev : is_revoked n = true). { specialize (CO n Hn). unfold operator_in in CO. rewrite Ec, Ek, Hin in CO. by apply negb_false_iff in CO. }
    destruct (operator_later _ _ _ M2 Hn) as (m & Hm & _ & _ & _ & Hrest). rewrite (Hrest Hrev) in Hm.
    exists n. split_and!; try done. by apply inactive_locked_out, revoked_inactive.
  - intros msg x a g'' Hp Hin Hrun. destruct (presented_later _ _ _ _ M1 Hp) as (u & Hu & Su).
    destruct (token_fields _ _ Su) as (_ & Ec & Ek). assert (Hx := CT u (presented_elem _ _ _ Hu)). unfold token_in in Hx. rewrite Ec, Ek, Hin in Hx.
    destruct (presented_later _ _ _ _ M2 Hu) as (v & Hv & (_&_&_&_&_&_&Sv)). rewrite (Sv Hx) in Hv.
    by destruct (gruns_wp _ (λ a _, refused a) _ _ _ Hrun Hg' (Enroll_spent _ _ u Hv Hx)) as (_ & _ & ?).
Qed.
Lemma evicted_earlier sc g g1 g' : gmoves g g1 → evicted sc g1 g' → evicted sc g g'.
Proof.
  intros M [H1 H2]. split.
  - intros o Ho Hin. destruct (operator_later _ _ _ M Ho) as (n & Hn & S & _ & _). assert (S' := S). destruct S' as (_ & _ & Ec & Ek).
    destruct (H1 n Hn) as (m & Hm & ? & ?); [by rewrite Ec, Ek|]. exists m. split; [done|]. split; [by transitivity n|done].
  - intros msg t a g'' Hp Hin. destruct (presented_later _ _ _ _ M Hp) as (u & Hu & Su). destruct (token_fields _ _ Su) as (_ & Ec & Ek).
    apply (H2 msg u); [done|]. by rewrite Ec, Ek.
Qed.
Lemma cascade_gwp sc reason message g :
  gwp (Call (table (revokeScope sc reason)) (λ r, match r with Ok cascade => Done (Ok cascade) | Err _ => refuse CodeInternal message end))
      (if_ok (λ _, evicted sc g)) g.
Proof.
  apply call_gwp; [db_preserve| |by intros; apply gwp_Err]. intros g1 r w' Hg1 R1 [t H]%revokeScope_Ok Hg2 R2 g3 Hg3 R3 x _.
  apply (evicted_earlier _ _ g1); [done|]. apply (cascade_evicts sc reason t _ _ r (w_db w')); try done. by transitivity (put_world w' g1).
Qed.
Lemma if_ok_earlier {A} (p : rpc A) sc g g1 : gmoves g g1 → gwp p (if_ok (λ _, evicted sc g1)) g1 → gwp p (if_ok (λ _, evicted sc g)) g1.
Proof. intros M. apply wp_mono; [apply _|]. intros a g2 _ _ H x ->. eapply evicted_earlier; [exact M|by apply (H x)]. Qed.
(** A customer or cluster under its own id stays there. *)
Lemma customer_later db db' k c : fleet_moves db db' → db_customers db !! k = Some c → cu_ID c = k →
  ∀ d, db_customers db' !! k = Some d → cu_ID d = k.
Proof. intros (_&_&_&_&H) Hc E d Hd. destruct (H k c Hc) as (x & Hx & ?). rewrite Hx in Hd. injection Hd as <-. auto. Qed.
Lemma cluster_later db db' k c : fleet_moves db db' → clusters_of db !! k = Some c → kl_ID c = k →
  ∀ d, clusters_of db' !! k = Some d → kl_ID d = k.
Proof. intros (_&_&_&H&_) Hc E d Hd. destruct (H k c Hc) as (x & Hx & _ & ?). rewrite Hx in Hd. injection Hd as <-. congruence. Qed.
Lemma DisableCustomer_wp customerID c g :
  db_customers (gdb g) !! customerID = Some c → cu_ID c = customerID →
  gwp (DisableCustomer customerID) (if_ok (λ _, evicted (ScopeCustomer customerID) g)) g.
Proof.
  intros Hc E. unfold DisableCustomer. apply scan_gwp; [|intros g1 [] _ _; apply gwp_Err]. intros g1 d _ R1 Hd.
  rewrite (customer_later _ _ _ _ R1 Hc E d Hd).
  assert (Hcascade : ∀ g2, gmoves g g2 → gwp (cascade_customer customerID) (if_ok (λ _, evicted (ScopeCustomer customerID) g)) g2).
  { intros g2 R2. unfold cascade_customer, DisableCustomer_store. apply (if_ok_earlier _ (ScopeCustomer customerID) g g2 R2), cascade_gwp. }
  case_bool_decide; [by apply Hcascade|]. cbn [once svc_bind].
  apply local_gwp; [apply table_safe; db_preserve|]. intros g2 [u|e] _ R2; [|destruct e; apply gwp_Err].
  assert (R : gmoves g g2) by by transitivity g1. unfold recordCustomerEvent.
  apply local_gwp; [apply table_safe; db_preserve|]. intros g3 [id|e] _ R3; [|apply Hcascade; by transitivity g2].
  apply local_gwp; [apply table_safe; db_preserve|]. intros g4 r _ R4. apply Hcascade. by do 2 (etransitivity; [eassumption|]).
Qed.
Lemma DisableCluster_wp clusterID c g :
  clusters_of (gdb g) !! clusterID = Some c → kl_ID c = clusterID →
  gwp (DisableCluster clusterID) (if_ok (λ _, evicted (ScopeCluster clusterID) g)) g.
Proof.
  intros Hc E. unfold DisableCluster. apply scan_gwp; [|intros g1 [] _ _; apply gwp_Err]. intros g1 d _ R1 Hd.
  rewrite (cluster_later _ _ _ _ R1 Hc E d Hd).
  apply local_gwp; [apply table_safe; db_preserve|]. intros g2 [u|e] _ R2; [|apply gwp_Err].
  unfold DisableCluster_store. apply (if_ok_earlier _ (ScopeCluster clusterID) g g2); [by transitivity g1|apply cascade_gwp].
Qed.

(** C9: disabling a customer or a cluster evicts who was there.  Once either was
    answered with success, every operator of it that was registered when the
    request came in is revoked and locked out under its certificate and its id,
    and an enrollment that presents a token it had then is refused, whatever runs
    beside these requests and fails. *)
Theorem disable_evicts g g' :
  gok g →
  (∀ customerID c p, db_customers (gdb g) !! customerID = Some c → cu_ID c = customerID →
     gruns (DisableCustomer customerID) g (Ok p) g' → evicted (ScopeCustomer customerID) g g')
  ∧ (∀ clusterID k p, clusters_of (gdb g) !! clusterID = Some k → kl_ID k = clusterID →
     gruns (DisableCluster clusterID) g (Ok p) g' → evicted (ScopeCluster clusterID) g g').
Proof.
  intros Hg. split; intros id c p Hc E H.
  - destruct (gruns_wp _ _ _ _ _ H Hg (DisableCustomer_wp id c g Hc E)) as (_ & _ & Hq). exact (Hq p eq_refl).
  - destruct (gruns_wp _ _ _ _ _ H Hg (DisableCluster_wp id c g Hc E)) as (_ & _ & Hq). exact (Hq p eq_refl).
Qed.

(** *** Everything that runs *)
Definition ignore {A} (p : gsvc A) : gsvc unit := svc_bind p (λ _, Done tt).
Inductive thread : gsvc unit → Prop :=
| thread_enroll msg : thread (ignore (Enroll msg))
| thread_stream tls hello : thread (ignore (CommandStream_hello tls hello))
| thread_heartbeat sessionID : thread (stream_heartbeat sessionID)
| thread_done operatorID sessionID : thread (ignore (stream_done operatorID sessionID))
| thread_renew chain req : thread (ignore (gateway_RenewCertificate chain req))
| thread_evaluate suspectAfter offlineAfter now_ : thread (evaluate suspectAfter offlineAfter now_)
| thread_token actor requestID msg : thread (ignore (CreateEnrollmentToken actor requestID msg))
| thread_revoke_token actor requestID customerID clusterID : thread (ignore (RevokePendingEnrollmentToken actor requestID customerID clusterID))
| thread_revoke actor requestID msg : thread (ignore (RevokeOperator actor requestID msg))
| thread_get customerID clusterID operatorID : thread (ignore (GetOperator customerID clusterID operatorID))
| thread_token_status customerID clusterID : thread (ignore (GetEnrollmentTokenStatus customerID clusterID))
| thread_customer customerID : thread (ignore (DisableCustomer customerID))
| thread_cluster clusterID : thread (ignore (DisableCluster clusterID))
| thread_new_customer actor id name slug : thread (ignore (CreateCustomer actor id name slug))
| thread_customer_update id version name slug : thread (ignore (UpdateCustomer id version name slug))
| thread_new_cluster customerID id name ref : thread (ignore (CreateCluster customerID id name ref))
| thread_store A (m : SM A) : keeps_fleet m → thread (ignore (once (table m))).
Lemma gwp_ignore {A} (p : gsvc A) Q g : gwp p Q g → gwp (ignore p) (λ _ _, True) g.
Proof. intros H. apply wp_bind; [apply _|]. by eapply wp_mono; [apply _| |exact H]. Qed.
Lemma gwp_any {A} (p : gsvc A) g : calls (λ _, safe) p → gwp p (λ _ _, True) g.
Proof. intros H. by apply wp_calls; [apply _| |]. Qed.
Lemma gateway_thread_ok p g : thread p → gwp p (λ _ _, True) g.
Proof.
  intros []; [| |by apply gwp_any, heartbeat_safe| | |by apply gwp_any, evaluate_safe|..].
  - eapply gwp_ignore, Enroll_wp.
  - eapply gwp_ignore, (CommandStream_wp (λ _, True)). destruct tls as [[|cert certs]|]; [apply gwp_Err|..].
    + eapply wp_mono; [apply _| |apply hello_tls_wp]. intros a g1 _ _ H x E. destruct (H x E) as (db & o & ?&?&?&?&?&?). by exists db, o.
    + eapply wp_mono; [apply _| |apply hello_plain_wp]. intros a g1 _ _ H x E. destruct (H x E) as (db & o & ?&?&?&?&?&?). by exists db, o.
  - eapply gwp_ignore, gwp_any, done_safe.
  - eapply gwp_ignore, gwp_any, Renew_safe.
  - eapply gwp_ignore, gwp_any, CreateEnrollmentToken_safe.
  - eapply gwp_ignore, gwp_any, RevokePending_safe.
  - eapply gwp_ignore, gwp_any, RevokeOperator_safe.
  - eapply gwp_ignore, gwp_any, GetOperator_safe.
  - eapply gwp_ignore, gwp_any, status_safe.
  - eapply gwp_ignore, gwp_any, DisableCustomer_safe.
  - eapply gwp_ignore, gwp_any, DisableCluster_safe.
  - eapply gwp_ignore, gwp_any, CreateCustomer_safe.
  - eapply gwp_ignore, gwp_any, UpdateCustomer_safe.
  - eapply gwp_ignore, gwp_any, CreateCluster_safe.
  - eapply gwp_ignore, gwp_any. split; [by apply table_safe|done].
Qed.

(** C6: the fleet stays consistent.  However enrollments, streams, heartbeats,
    renewals, sweeps and management requests are interleaved and whichever calls
    fail: a cluster has at most one pending token, one active operator and a
    customer's name one; serials are unique, an operator has at most one live
    session; every operator was enrolled by a token of its own that carries its
    customer, cluster and name, every session is its operator's; and tokens stay
    spent, inactive operators inactive, revoked operators and sessions final. *)
Theorem fleet_invariant g g' threads :
  gok g → rtc (pool_step fault thread) (g, []) (g', threads) → gok g' ∧ gmoves g g'.
Proof.
  intros Hg H. assert (Hok : ∀ p s, thread p → gok s → gwp p (λ _ _, True) s) by (intros p s Hp _; by apply gateway_thread_ok).
  by destruct (pool_ok _ _ _ _ _ Hok _ _ H Hg) as (?&?&_); [by apply Forall_nil|].
Qed.
End beside.
End gateway.

(** ** Samples *)
Definition sample_x509 : X509 :=
  {| pem_Decode s := if bool_decide (s = "") then None else Some {| pb_Type := "CERTIFICATE REQUEST"; pb_Bytes := s; pb_rest := "" |};
     ParseCertificateRequest s := Some {| csr_CommonName := "agent-k3"; csr_DNSNames := ["k3.c1.rm"]; csr_PublicKey := KeyEd25519 32; csr_Raw := s |};
     CheckSignature csr := negb (bool_decide (csr_Raw csr = "forged"));
     CreateCertificate serial csr names _ _ := Some (serial ++ "|" ++ csr_Raw csr ++ "|" ++ String.concat "," names)%string;
     pem_Encode der := ("pem:" ++ der)%string |}.
Definition k1_cert : Certificate := {| ct_CommonName := "agent-k1"; ct_DNSNames := ["k1.c1.rm"]; ct_Raw := "der-k1" |}.
Definition gateway_at (t : FleetTables) (customers : gmap string Customer) : Gateway :=
  {| gw_world := sample_world (set_customers customers (set_fleet t session_db)); gw_streams := ∅; gw_cancelled := []; gw_entries := ∅ |}.
Definition fleet_tables : FleetTables := sample_fleet (sha256_hex "token3") (certSerialFromCert k1_cert).
Definition customers_with (status : CustomerStatus) : gmap string Customer :=
  {["c1" := {| cu_ID := "c1"; cu_Name := "c1"; cu_Slug := "c1"; cu_Status := status; cu_Version := 1; cu_CreatedAt := nsec; cu_UpdatedAt := nsec |}]}.
Definition sample_gateway : Gateway := gateway_at fleet_tables (customers_with CustomerActive).
Lemma all_rows {A} (P : A → Prop) l : Forall P l → ∀ x, x ∈ l → P x.
Proof. intros H x. by apply Forall_forall. Qed.
Lemma sample_linked hash serial :
  linked (ft_enrollment_tokens (sample_fleet hash serial)) (ft_operators (sample_fleet hash serial)) (ft_sessions (sample_fleet hash serial)).
Proof.
  cbn [sample_fleet ft_enrollment_tokens ft_operators ft_sessions]. split.
  - refine (all_rows _ _ _). repeat constructor; [exists (sample_token "t1" "k1" "h1" TokenStateUsed "o1")|exists (sample_token "t2" "k2" "h2" TokenStateUsed "o2")];
      (split; [set_solver|by split_and!]).
  - refine (all_rows _ _ _). repeat constructor; intros U; [exists (sample_operator "o1" "k1" serial)|exists (sample_operator "o2" "k2" "serial2")|done];
      (split; [set_solver|done]).
  - intros t u Ht Hu. revert u Hu. revert t Ht. refine (all_rows _ _ _). repeat constructor; refine (all_rows _ _ _); repeat constructor; done.
  - refine (all_rows _ _ _). repeat constructor; [exists (sample_operator "o1" "k1" serial)|exists (sample_operator "o2" "k2" "serial2")];
      (split; [set_solver|by split_and!]).
  - refine (all_rows _ _ _). by repeat constructor.
  - refine (all_rows _ _ _). by repeat constructor.
Qed.
Lemma gateway_gok customers : gok (gateway_at fleet_tables customers).
Proof. split_and!; [apply (bool_decide_unpack _); vm_compute; exact I..|apply sample_linked]. Qed.
Definition enroll_message (csr : string) : EnrollRequest :=
  {| en_EnrollmentToken := "token3"; en_CustomerId := "c1"; en_ClusterId := "K3"; en_CsrPem := csr; en_Capabilities := [] |}.
Definition sample_Enroll (csr : string) : rpc EnrollResponse := Enroll sample_x509 (3600 * nsec) (600 * nsec) (enroll_message csr).
Definition enrolled_gateway : Gateway := (exec_svc (sample_Enroll "csr-a") sample_gateway).2.
Definition enrolled_response : EnrollResponse :=
  {| ep_SessionId := "uuid-2"; ep_TtlSeconds := 600; ep_CertificatePem := "pem:uuid-0|csr-a|k3.c1.rm"; ep_OperatorId := "uuid-1";
     ep_CertificateExpiresAt := 4601 * nsec |}.
Lemma enroll_runs : exec_svc (sample_Enroll "csr-a") sample_gateway = (Ok enrolled_response, enrolled_gateway).
Proof. vm_compute. reflexivity. Qed.
Lemma enroll_admits_witness :
  exec_svc (sample_Enroll "csr-a") sample_gateway = (Ok enrolled_response, enrolled_gateway) ∧
  enroll_spec sample_x509 (3600 * nsec) (enroll_message "csr-a") sample_gateway enrolled_response enrolled_gateway.
Proof.
  split; [exact enroll_runs|].
  apply (enroll_admits sample_x509 (3600 * nsec) (600 * nsec) (λ _, False) _ sample_gateway); [apply gateway_gok|]. apply exec_runs, enroll_runs.
Defined.
Lemma token_single_use_witness : refused (exec_svc (sample_Enroll "csr-b") enrolled_gateway).1.
Proof.
  apply (token_single_use sample_x509 (3600 * nsec) (600 * nsec) (λ _, False) (enroll_message "csr-a") (enroll_message "csr-b")
    sample_gateway enrolled_response enrolled_gateway _ (exec_svc (sample_Enroll "csr-b") enrolled_gateway).2); [apply gateway_gok| | |reflexivity].
  - apply exec_runs, enroll_runs.
  - eapply exec_runs, surjective_pairing.
Defined.
Definition sample_revoke : RevokeOperatorRequest := {| rr_CustomerId := "c1"; rr_ClusterId := "k1"; rr_OperatorId := "o1"; rr_Reason := "key leaked" |}.
Definition revoking_actor : authctx_Actor := {| ax_UserID := "u1"; ax_OrganizationID := "o1"; ax_Roles := []; ax_Service := "" |}.
Definition sample_Revoke : rpc (OperatorSummary * bool) := RevokeOperator (Some revoking_actor) "req1" sample_revoke.
Definition revoked_gateway : Gateway := (exec_svc sample_Revoke sample_gateway).2.
Lemma revoke_runs : ∃ p, exec_svc sample_Revoke sample_gateway = (Ok p, revoked_gateway).
Proof. eexists. vm_compute. reflexivity. Qed.
Lemma executed_gok {A} (p : gsvc A) g : calls (λ _, safe) p → gok g → gok (exec_svc p g).2.
Proof.
  intros Hp Hg. assert (H := runs_exec p g (λ x y, gok y ∧ gmoves x y) (λ _, False)).
  by destruct (gruns_wp (λ _, False) p (λ _ _, True) _ _ _ H Hg (gwp_any _ p g Hp)).
Qed.
Lemma revocation_locks_out_witness :
  ∃ o, o ∈ operators_of (gdb revoked_gateway) ∧ o_ID o = "o1" ∧ is_revoked o = true ∧
    locked_out sample_x509 (3600 * nsec) (600 * nsec) (600 * nsec) (λ _, False) o revoked_gateway.
Proof.
  destruct revoke_runs as [p Hp].
  apply (revocation_locks_out sample_x509 (3600 * nsec) (600 * nsec) (600 * nsec) (λ _, False) (Some revoking_actor) "req1" sample_revoke
    sample_gateway p revoked_gateway revoked_gateway); [apply gateway_gok|by apply exec_runs|apply executed_gok|unfold gmoves; reflexivity].
  - apply RevokeOperator_safe.
  - apply gateway_gok.
Defined.
Definition disabled_gateway : Gateway := (exec_svc (DisableCluster "k1") sample_gateway).2.
Lemma disable_runs : ∃ p, exec_svc (DisableCluster "k1") sample_gateway = (Ok p, disabled_gateway).
Proof. eexists. vm_compute. reflexivity. Qed.
Lemma disable_evicts_witness :
  ∃ n, n ∈ operators_of (gdb disabled_gateway) ∧ same_operator (sample_operator "o1" "k1" (certSerialFromCert k1_cert)) n ∧ is_revoked n = true ∧
    locked_out sample_x509 (3600 * nsec) (600 * nsec) (600 * nsec) (λ _, False) n disabled_gateway.
Proof.
  destruct disable_runs as [p Hp].
  destruct (disable_evicts sample_x509 (3600 * nsec) (600 * nsec) (600 * nsec) (λ _, False) sample_gateway disabled_gateway (gateway_gok _)) as [_ H].
  assert (Hev : evicted sample_x509 (3600 * nsec) (600 * nsec) (600 * nsec) (λ _, False) (ScopeCluster "k1") sample_gateway disabled_gateway).
  { apply (H "k1" (sample_cluster "k1") p); [vm_compute; reflexivity|reflexivity|by apply exec_runs]. }
  destruct Hev as [Hops _]. apply Hops; [|reflexivity]. apply elem_of_cons. by left.
Defined.

(** ** What interleavings leave behind *)
Definition sample_thread : gsvc unit → Prop := thread sample_x509 (3600 * nsec) (600 * nsec) (600 * nsec).
Definition sample_hello : Hello :=
  {| he_SessionId := "s1"; he_OperatorId := "o1"; he_InstanceId := "i1"; he_Version := "v2"; he_Capabilities := [] |}.
Definition sample_stream : rpc established := CommandStream_hello (600 * nsec) (Some [k1_cert]) sample_hello.
Definition stream_threads : list (gsvc unit) := [ignore sample_stream; ignore sample_Revoke].
Definition disable_threads : list (gsvc unit) := [ignore sample_stream; ignore (DisableCluster "k1")].
(** The stream looks its operator up, the other request runs, the stream goes on. *)
Definition raced (threads : list (gsvc unit)) (before between after : nat) : Gateway * list (gsvc unit) :=
  run_schedule (repeat 0%nat before ++ repeat 1%nat between ++ repeat 0%nat after) (sample_gateway, threads).
Lemma threads_start threads : Forall sample_thread threads →
  ∀ before, rtc (pool_step (λ _, False) sample_thread) (sample_gateway, before) (sample_gateway, before ++ threads).
Proof.
  induction 1 as [|p threads Hp _ IH]; intros before; [rewrite app_nil_r; apply rtc_refl|].
  eapply rtc_l; [by apply pool_start|]. specialize (IH (before ++ [p])). by rewrite <- app_assoc in IH.
Qed.
Lemma raced_reachable threads n m k g' l : Forall sample_thread threads → raced threads n m k = (g', l) →
  rtc (pool_step (λ _, False) sample_thread) (sample_gateway, []) (g', l).
Proof. intros H <-. etransitivity; [apply (threads_start threads H [])|apply schedule_reachable]. Qed.
Definition online_stream (g : Gateway) (id : string) : bool :=
  match gw_streams g !! id with Some (_, h) => bool_decide (gw_cancelled g !! h = Some false) | None => false end.
Definition operator_status (g : Gateway) (id : string) : option OperatorStatus :=
  o_Status <$> find_row (λ o, bool_decide (o_ID o = id)) (operators_of (gdb g)).
Definition live_session (g : Gateway) (id : string) : bool := existsb (live_of id) (sessions_of (gdb g)).
Lemma stream_threads_ok : Forall sample_thread stream_threads.
Proof. repeat constructor. Qed.
Lemma fleet_invariant_witness : gok (raced stream_threads 3 12 12).1 ∧ operator_status (raced stream_threads 3 12 12).1 "o1" = Some OperatorRevoked.
Proof.
  split; [|vm_compute; reflexivity].
  apply (fleet_invariant sample_x509 (3600 * nsec) (600 * nsec) (600 * nsec) (λ _, False) sample_gateway _ (raced stream_threads 3 12 12).2);
    [apply gateway_gok|]. apply (raced_reachable stream_threads 3 12 12); [apply stream_threads_ok|]. apply surjective_pairing.
Defined.
(** A revocation that runs between the look-up of the operator and the
    registration of its stream misses the stream: the revoked operator ends with
    a live session and a stream nobody cancels. *)
Lemma revoked_keeps_stream : ∃ g threads,
  rtc (pool_step (λ _, False) sample_thread) (sample_gateway, []) (g, threads) ∧ threads = [Done tt; Done tt] ∧
  operator_status g "o1" = Some OperatorRevoked ∧ live_session g "o1" = true ∧ online_stream g "o1" = true.
Proof.
  exists (raced stream_threads 3 12 12).1, (raced stream_threads 3 12 12).2.
  split; [apply (raced_reachable stream_threads 3 12 12); [apply stream_threads_ok|apply surjective_pairing]|].
  split_and!; vm_compute; reflexivity.
Qed.
(** Disabling a cluster revokes its operator but leaves the stream it has. *)
Lemma disabled_keeps_stream : ∃ g threads,
  rtc (pool_step (λ _, False) sample_thread) (sample_gateway, []) (g, threads) ∧ threads = [Done tt; Done tt] ∧
  operator_status g "o1" = Some OperatorRevoked ∧ live_session g "o1" = false ∧ online_stream g "o1" = true.
Proof.
  exists (raced disable_threads 8 6 0).1, (raced disable_threads 8 6 0).2.
  split; [apply (raced_reachable disable_threads 8 6 0); [repeat constructor|apply surjective_pairing]|].
  split_and!; vm_compute; reflexivity.
Qed.
(** The sweep forgets a session before the tables have it: when the update fails
    the session stays online and no later sweep looks at it. *)
Definition busy_gateway : Gateway :=
  {| gw_world := {| w_db := gdb sample_gateway; w_clock := w_clock (gw_world sample_gateway); w_uuid := w_uuid (gw_world sample_gateway);
                    w_busy := λ n, (n =? 0)%nat; w_foreign_keys := true |};
     gw_streams := ∅; gw_cancelled := []; gw_entries := {["s1" := 900 * nsec]} |}.
Definition sweep (g : Gateway) : Gateway := (exec_svc (evaluate (30 * nsec) (90 * nsec) (2000 * nsec)) g).2.
Lemma offline_forgotten : gw_entries (sweep busy_gateway) = ∅ ∧ live_session (sweep busy_gateway) "o1" = true ∧ live_session (sweep (sweep busy_gateway)) "o1" = true.
Proof. split_and!; vm_compute; reflexivity. Qed.
(** An operator of a cluster whose id has capital letters enrols, and its
    certificate opens no stream: the name is looked up in lower case. *)
Definition capital_token : EnrollmentToken :=
  enrollment_token "t1" "c1" "K3" "agent-k3" "token3" "root" (100 * nsec) 60.
Definition capital_gateway : Gateway :=
  gateway_at {| ft_enrollment_tokens := [capital_token]; ft_operators := []; ft_sessions := []; ft_clusters := {["K3" := sample_cluster "K3"]};
                ft_audit_events := []; ft_customer_events := [] |} (customers_with CustomerActive).
Definition capital_run : res connect_error EnrollResponse * Gateway := exec_svc (sample_Enroll "csr-a") capital_gateway.
Definition k3_cert : Certificate := {| ct_CommonName := "agent-k3"; ct_DNSNames := ["k3.c1.rm"]; ct_Raw := "uuid-0|csr-a|k3.c1.rm" |}.
Lemma capital_cluster_unusable :
  ∃ p, capital_run.1 = Ok p ∧ ep_CertificatePem p = ("pem:" ++ ct_Raw k3_cert)%string ∧
    operator_status capital_run.2 (ep_OperatorId p) = Some OperatorActive ∧
    (exec_svc (CommandStream_hello (600 * nsec) (Some [k3_cert]) sample_hello) capital_run.2).1
      = Err (newError CodePermissionDenied "no operator registered for cluster").
Proof. exists enrolled_response. split_and!; vm_compute; reflexivity. Qed.
(** No cluster id with a dot enrols, although the gateway's parser admits them. *)
Lemma dotted_cluster_refused : parseSANIdentity ["a.b.c1.rm"] = Some ("a.b", "c1") ∧ normalizeDNSLabel "a.b" = None.
Proof. split; vm_compute; reflexivity. Qed.
(** The renewal's scope check never answers for itself: a certificate of another
    scope is refused before it. *)
Lemma renewal_scope_unreported identity operator requested : validateRenewIdentity identity operator requested = true →
  (id_CustomerID identity = o_CustomerID operator ∧ id_ClusterID identity = o_ClusterID operator) ∧
  ∀ e, validateCertificateIdentity operator identity = Some e → ce_meta e ≠ [("X-Reason-Code", reasonIdentityMismatch)].
Proof.
  unfold validateRenewIdentity, validateCertificateIdentity. intros H. destruct_bools. split; [done|]. intros e.
  case_bool_decide; [by intros [= <-]|]. destruct (o_Status operator); [|by intros [= <-]..].
  rewrite !bool_decide_eq_true_2 by done. simpl. case_bool_decide; [done|by intros [= <-]].
Qed.
