(* ===== verification/ValuesInvariant.v ===== *)
(** * The values workflow as a transition system

    [values_invariant] holds in every state reachable through the calls of the
    values stores, interleaved with the calls of the other stores (System): at
    most one approved and one pending revision per definition, the definition's
    pointer names the approved one, the decision log explains every status, and a
    convergence task is bound to one live revision whose locked paths no other
    one holds. *)
From S2P Require Import Prelude Utf8 Json JsonText Redact Hash Domain Lifecycle Database ValuesRows Timeline Idempotency Outbox OperationStore EmergencyStore ValuesLifecycle Creation System ValuesSystem.
#[local] Open Scope Z_scope.

(** ** What the other stores do to the values tables *)
Definition values_view (db : DB) :=
  (db_values_revisions db, db_values_revision_decisions db, db_release_definitions db, db_convergence_tasks db).
Definition pointer_of (defs : gmap string ReleaseDefinition) (d : string) : option (option string) := rd_ApprovedRevisionID <$> defs !! d.
(** Tasks that stay, go, or appear unbound. *)
Definition tasks_frame (l l' : list ConvergenceTask) : Prop :=
  (∀ t, t ∈ l' → t ∈ l ∨ ct_ActiveRevisionID t = None) ∧ (NoDup (ct_ID <$> l) → NoDup (ct_ID <$> l')).
Definition view_frame : relation (list ValuesRevision * list ValuesRevisionDecision * gmap string ReleaseDefinition * list ConvergenceTask) :=
  λ '(rs, ds, defs, ts) '(rs', ds', defs', ts'),
    rs' = rs ∧ ds' = ds ∧ (∀ d, pointer_of defs' d = pointer_of defs d) ∧ tasks_frame ts ts'.
#[export] Instance tasks_frame_preorder : PreOrder tasks_frame.
Proof.
  split; [intros l; split; auto|]. intros l1 l2 l3 [H1 N1] [H2 N2]. split; [|auto]. intros t Ht.
  destruct (H2 t Ht) as [?|?]; auto.
Qed.
#[export] Instance view_frame_preorder : PreOrder view_frame.
Proof.
  split; [by intros [[[rs ds] defs] ts]; split_and!|].
  intros [[[r1 d1] f1] t1] [[[r2 d2] f2] t2] [[[r3 d3] f3] t3] (-> & -> & Hf & Ht) (-> & -> & Hf' & Ht').
  split_and!; [done|done|intros d; by rewrite Hf'|by transitivity t2].
Qed.
Abbreviation keeps_values m := (preserves (db_rel (on_table values_view view_frame)) m).

(** The three statements that write one of these tables. *)
Definition values_framed (db db' : DB) : Prop := view_frame (values_view db) (values_view db').
Lemma values_framed_same db db' : values_view db' = values_view db → values_framed db db'.
Proof. unfold values_framed. by intros ->. Qed.
Lemma insertConvergenceTask_values t x w w' :
  ct_ActiveRevisionID t = None → insertConvergenceTask t w = (Ok x, w') → values_framed (w_db w) (w_db w').
Proof.
  intros Ht H. unfold insertConvergenceTask in H. dinv. unfold values_framed, values_view. simpl. rewrite Hdb in *.
  match goal with H : existsb _ _ = false |- _ => rewrite existsb_false_forall, Forall_forall in H; rename H into Hnew end.
  split_and!; [done|done|done|]. split.
  - intros y [?| ->%list_elem_of_singleton]%elem_of_app; [by left|by right].
  - intros Hnd. rewrite fmap_app. apply NoDup_app. split_and!; [done| |apply NoDup_singleton].
    intros i (y & -> & Hy)%list_elem_of_fmap Hi. apply list_elem_of_singleton in Hi. specialize (Hnew y Hy). simpl in *.
    by rewrite Hi, bool_decide_true in Hnew.
Qed.
Lemma abandon_values id : keeps_values (abandonConvergenceTaskTx id).
Proof.
  unfold abandonConvergenceTaskTx. apply preserves_exec. intros db. unfold on_table, values_view. simpl. split_and!; [done|done|done|].
  unfold delete_where. split.
  - intros t [_ ?]%list_elem_of_filter. by left.
  - intros Hnd. eapply sublist_NoDup; [exact Hnd|]. apply fmap_sublist, sublist_filter.
Qed.
Lemma setCurrentBundle_values d b r w w' : setCurrentBundle d b w = (Ok r, w') → values_framed (w_db w) (w_db w').
Proof.
  assert (Hptr : ∀ m x, m !! d = Some x → ∀ k, pointer_of (<[d := with_bundle b x]> m) k = pointer_of m k).
  { intros m x Hx k. unfold pointer_of. destruct (decide (k = d)) as [->|?].
    - by rewrite lookup_insert_eq, Hx.
    - by rewrite lookup_insert_ne. }
  unfold setCurrentBundle, restoreBundle. intros H. dinv.
  match goal with H : _ !! b = Some ?b |- _ => destruct (br_Status b) end; dinv.
  2: match goal with H : context [br_ArchivedFromStatus ?b] |- _ => destruct (br_ArchivedFromStatus b) end; dinv.
  all: match goal with H : when ?c _ _ = _ |- _ => destruct c; simpl in H; dinv end; split_and!; try done; intros k; by apply Hptr.
Qed.

(** ** Every call of the other stores keeps the values tables *)
Lemma create_emergency_values command w res w' :
  (∀ t, ec_ConvergenceTask command = Some t → ct_ActiveRevisionID t = None) →
  createEmergencyOperationUnitOfWork command w = (Ok res, w') → values_framed (w_db w) (w_db w').
Proof.
  intros Htask H. unfold createEmergencyOperationUnitOfWork in H. cbv zeta in H.
  apply bind_Ok in H as (u0 & w0 & Hfence & H). apply fence_Ok in Hfence as ->.
  apply bind_Ok in H as (replayed & w1 & Hlook & H).
  assert (E1 : w_db w1 = w_db w) by (eapply (frame (λ db, db)); [|exact Hlook]; db_preserve).
  destruct replayed as [replayed|]; [dinv; by rewrite E1|].
  apply bind_Ok in H as (u2 & w2 & Hconf & H). apply check_emergency_conflicts_Ok in Hconf as (-> & _).
  apply bind_Ok in H as (created & w3 & Hrows & H).
  assert (Hlast : values_view (w_db w') = values_view (w_db w3)).
  { clear Hrows Hlook. dinv. match type of H with (match ?x with _ => _ end) _ = _ => destruct x end; dinv; by use_frame values_view. }
  unfold create_emergency_rows in Hrows. apply bind_Ok in Hrows as (op & w4 & Hop & Hrows). apply bind_Ok in Hrows as (i & w5 & Hi & Hrows).
  apply bind_Ok in Hrows as (t & w6 & Ht & Hrows). apply ret_Ok in Hrows as [_ <-].
  assert (H5 : values_view (w_db w5) = values_view (w_db w)) by (rewrite <- E1; by use_frame values_view).
  unfold values_framed. rewrite Hlast, <- H5. destruct (ec_ConvergenceTask command) as [task|]; dinv; [|done].
  by eapply insertConvergenceTask_values; [apply Htask|eassumption].
Qed.
Lemma create_operation_values req w res w' :
  createOperationUnitOfWork req w = (Ok res, w') → values_framed (w_db w) (w_db w').
Proof.
  intros H. unfold createOperationUnitOfWork in H. cbv zeta in H.
  apply bind_Ok in H as (u0 & w0 & Hfence & H). apply fence_Ok in Hfence as ->. apply bind_Ok in H as (u1 & w1 & Havail & H).
  apply bind_Ok in H as (created & w2 & Hcreate & H). apply bind_Ok in H as (u3 & w3 & Hdisp & H).
  apply bind_Ok in H as (restored & w4 & Hbundle & H). apply bind_Ok in H as (linked & w5 & Hlink & H). apply ret_Ok in H as [_ <-].
  assert (H3 : values_view (w_db w3) = values_view (w_db w)).
  { destruct (ocr_Dispatch req); dinv; by use_frame values_view. }
  assert (H5 : values_view (w_db w5) = values_view (w_db w4)) by by use_frame values_view.
  unfold values_framed. rewrite <- H3, H5. by eapply setCurrentBundle_values.
Qed.
Lemma UnitOfWork_values req w : well_formed_request req → values_framed (w_db w) (w_db (OperationCreationUnitOfWork req w).2).
Proof.
  intros Hwf. destruct (OperationCreationUnitOfWork req w) as [[res|e] w'] eqn:E; simpl;
    [|apply retry_loop_Err_db in E; by rewrite E].
  apply retry_loop_Ok in E as (w0 & <- & E). apply run_commit_Ok in E as [_ E]. unfold well_formed_request in Hwf.
  change (w_db w0) with (w_db (attempt w0)). destruct (ocr_Emergency req) as [command|].
  - by eapply create_emergency_values; [apply Hwf|exact E].
  - by eapply create_operation_values.
Qed.
#[export] Hint Extern 1 (keeps_values (abandonConvergenceTaskTx _)) => apply abandon_values : preserve.
Lemma emergencyHop_values op target v complete e b a err : keeps_values (emergencyHopTx op target v complete e b a err).
Proof. unfold emergencyHopTx. db_preserve. Qed.
#[export] Hint Extern 1 (keeps_values (emergencyHopTx _ _ _ _ _ _ _ _)) => apply emergencyHop_values : preserve.
Lemma advance_values fuel op v : keeps_values (advance fuel op v).
Proof. revert op v. induction fuel as [|fuel IH]; intros op v; unfold advance; fold advance; db_preserve. Qed.
#[export] Hint Extern 1 (keeps_values (advance _ _ _)) => apply advance_values : preserve.
Lemma Converge_values c : keeps_values (ConvergeEmergencyResult c).
Proof. unfold ConvergeEmergencyResult, convergeTx, resolveUnknownEffectTx, validateConvergeCommand. db_preserve. Qed.

(** The other methods do not touch them at all. *)
Lemma store_step_values w w' : store_step w w' → values_framed (w_db w) (w_db w').
Proof.
  assert (Hk : ∀ A (m : SM A), keeps_values m → values_framed (w_db w) (w_db (m w).2)).
  { intros A m Hm. destruct (m w) as [r w1] eqn:E. exact (Hm _ _ _ E). }
  destruct 1 as [w' Hw'|c Hc Hs| | | | | | | | | | | | | | | |]; [by rewrite Hw'| |by apply UnitOfWork_values|apply Hk..].
  - apply Hk. unfold CreateIdempotent, createIdempotentOperation, decodeOperationCreateReplay. db_preserve.
  - unfold OperationStore.transition, transitionInTx. db_preserve.
  - unfold QueueOperation, transitionInTx. db_preserve.
  - unfold OperationStore.Cancel, cancelInTx. db_preserve.
  - unfold FinalizeUpgrade, finalizeUpgradeTx. db_preserve.
  - unfold SavePreflightResult. db_preserve.
  - unfold Append. db_preserve.
  - unfold PersistAck, persist_ack, persistAckTx. db_preserve.
  - unfold UpdateStatus_outbox. db_preserve.
  - unfold UpdateDeliveryStatus. db_preserve.
  - unfold SaveRevertReconciliation. db_preserve.
  - unfold PersistAck_emergency, persist_ack, persistAckTx. db_preserve.
  - unfold Finish, finishTx, finishEmergencySnapshotsTx. db_preserve.
  - unfold ResolveEmergencyEffect, resolveTx, resolveEmergencyEffectTx, validateResolveEmergencyCommand, validateEmergencyResolveTarget.
    db_preserve.
  - apply Converge_values.
  - unfold ReleaseLock, releaseLockTx. db_preserve.
Qed.

(** ** The invariant *)

(** The decisions that lead to a status, and the state version they leave. *)
Abbreviation decision_step := (ValuesDecisionAction * ValuesStatus * ValuesStatus)%type.
Definition submitted_step : decision_step := (ValuesDecisionSubmitted, ValuesStatusDraft, ValuesStatusPendingApproval).
Definition trail (s : ValuesStatus) : list decision_step :=
  match s with
  | ValuesStatusDraft => []
  | ValuesStatusPendingApproval => [submitted_step]
  | ValuesStatusApproved | ValuesStatusSuperseded =>
      [submitted_step; (ValuesDecisionApproved, ValuesStatusPendingApproval, ValuesStatusApproved)]
  | ValuesStatusRejected => [submitted_step; (ValuesDecisionRejected, ValuesStatusPendingApproval, ValuesStatusRejected)]
  | ValuesStatusDiscarded => [(ValuesDecisionDiscarded, ValuesStatusDraft, ValuesStatusDiscarded)]
  end.
Definition version_of_status (s : ValuesStatus) : Z :=
  match s with
  | ValuesStatusDraft => 1 | ValuesStatusPendingApproval | ValuesStatusDiscarded => 2
  | ValuesStatusApproved | ValuesStatusRejected => 3 | ValuesStatusSuperseded => 4
  end.
Definition step_of (d : ValuesRevisionDecision) : decision_step := (vd_Action d, vd_FromState d, vd_ToState d).
Definition log_of (id : string) (ds : list ValuesRevisionDecision) : list decision_step :=
  step_of <$> filter (λ d, vd_RevisionID d = id) ds.

Definition live_binding (t : ConvergenceTask) (r : ValuesRevision) : Prop :=
  (ct_Status t = PendingPromotion ∧ (vr_Status r = ValuesStatusDraft ∨ vr_Status r = ValuesStatusPendingApproval)) ∨
  (ct_Status t = Converged ∧ (vr_Status r = ValuesStatusApproved ∨ vr_Status r = ValuesStatusSuperseded)).
Definition paths_disjoint (t1 t2 : ConvergenceTask) : Prop :=
  ∃ l1 l2, decode_strings (ct_PromotionPaths t1) = Some l1 ∧ decode_strings (ct_PromotionPaths t2) = Some l2 ∧ ∀ p, p ∈ l1 → p ∉ l2.

Record tables_ok (rs : list ValuesRevision) (ds : list ValuesRevisionDecision)
    (defs : gmap string ReleaseDefinition) (ts : list ConvergenceTask) : Prop := {
  ok_ids : NoDup (vr_ID <$> rs);
  ok_named : ∀ r, r ∈ rs → vr_ID r ≠ "";
  ok_versions : ∀ r1 r2, r1 ∈ rs → r2 ∈ rs → vr_ReleaseDefinitionID r1 = vr_ReleaseDefinitionID r2 →
    vr_Version r1 = vr_Version r2 → r1 = r2;
  ok_exclusive : ∀ s r1 r2, exclusive_status s = true → r1 ∈ rs → r2 ∈ rs →
    vr_ReleaseDefinitionID r1 = vr_ReleaseDefinitionID r2 → vr_Status r1 = s → vr_Status r2 = s → r1 = r2;
  ok_definition : ∀ r, r ∈ rs → is_Some (defs !! vr_ReleaseDefinitionID r);
  ok_pointer : ∀ d i, pointer_of defs d = Some (Some i) ↔
    ∃ r, r ∈ rs ∧ vr_ID r = i ∧ vr_ReleaseDefinitionID r = d ∧ vr_Status r = ValuesStatusApproved;
  ok_tasks : NoDup (ct_ID <$> ts);
  ok_bound : ∀ t i, t ∈ ts → ct_ActiveRevisionID t = Some i →
    ∃ r, r ∈ rs ∧ vr_ID r = i ∧ vr_ReleaseDefinitionID r = ct_ReleaseDefinitionID t ∧ live_binding t r;
  ok_disjoint : ∀ t1 t2 i1 i2, t1 ∈ ts → t2 ∈ ts → ct_Status t1 = PendingPromotion → ct_Status t2 = PendingPromotion →
    ct_ReleaseDefinitionID t1 = ct_ReleaseDefinitionID t2 →
    ct_ActiveRevisionID t1 = Some i1 → ct_ActiveRevisionID t2 = Some i2 → i1 ≠ i2 → paths_disjoint t1 t2;
  ok_log : ∀ r, r ∈ rs → log_of (vr_ID r) ds = trail (vr_Status r) ∧ vr_StateVersion r = version_of_status (vr_Status r);
  ok_logged : ∀ d, d ∈ ds → ∃ r, r ∈ rs ∧ vr_ID r = vd_RevisionID d;
}.
Definition values_invariant (db : DB) : Prop :=
  tables_ok (db_values_revisions db) (db_values_revision_decisions db) (db_release_definitions db) (db_convergence_tasks db).

Lemma values_framed_invariant db db' : values_framed db db' → values_invariant db → values_invariant db'.
Proof.
  unfold values_invariant, values_framed, values_view, view_frame.
  intros (-> & -> & Hdefs & Hts & Hnd) [H1 H2 H3 H4 H5 H6 H7 H8 H9 H10 H11]. constructor; auto.
  - intros r Hr. specialize (Hdefs (vr_ReleaseDefinitionID r)). destruct (H5 r Hr) as [x Hx]. unfold pointer_of in Hdefs.
    rewrite Hx in Hdefs. by apply fmap_Some_1 in Hdefs as (y & -> & _).
  - intros d i. by rewrite Hdefs.
  - intros t i Ht Hi. destruct (Hts t Ht) as [?|?]; [by apply H8|congruence].
  - intros t1 t2 i1 i2 M1 M2 S1 S2 D A1 A2 Hne.
    destruct (Hts t1 M1) as [?|?]; [|congruence]. destruct (Hts t2 M2) as [?|?]; [|congruence]. eauto.
Qed.

(** ** A revision moves

    [advances r s h rs]: [h] moves the revision [r] to status [s]; approving it
    supersedes the approved revision of its definition, and nothing else moves. *)
Definition superseded_by (r : ValuesRevision) (s : ValuesStatus) (x : ValuesRevision) : Prop :=
  s = ValuesStatusApproved ∧ vr_ReleaseDefinitionID x = vr_ReleaseDefinitionID r ∧ vr_Status x = ValuesStatusApproved.
Record advances (r : ValuesRevision) (s : ValuesStatus) (h : ValuesRevision → ValuesRevision) (rs : list ValuesRevision) : Prop := {
  ad_row : r ∈ rs;
  ad_same : ∀ x, x ∈ rs → vr_ID (h x) = vr_ID x ∧ vr_ReleaseDefinitionID (h x) = vr_ReleaseDefinitionID x ∧ vr_Version (h x) = vr_Version x;
  ad_self : vr_Status (h r) = s ∧ vr_StateVersion (h r) = vr_StateVersion r + 1;
  ad_other : ∀ x, x ∈ rs → x ≠ r →
    (h x = x ∧ ¬ superseded_by r s x) ∨
    (superseded_by r s x ∧ vr_Status (h x) = ValuesStatusSuperseded ∧ vr_StateVersion (h x) = vr_StateVersion x + 1);
  ad_free : exclusive_status s = true → ∀ x, x ∈ rs → x ≠ r → vr_ReleaseDefinitionID x = vr_ReleaseDefinitionID r → vr_Status x = s →
    superseded_by r s x;
}.
(** The tasks of the moved revision are released or converge with it. *)
Definition task_follows (r : ValuesRevision) (s : ValuesStatus) (t t' : ConvergenceTask) : Prop :=
  ct_ID t' = ct_ID t ∧ ct_ReleaseDefinitionID t' = ct_ReleaseDefinitionID t ∧ ct_PromotionPaths t' = ct_PromotionPaths t ∧
  ((t' = t ∧ (ct_ActiveRevisionID t ≠ Some (vr_ID r) ∨ s = ValuesStatusPendingApproval)) ∨
   ct_ActiveRevisionID t' = None ∨
   (ct_ActiveRevisionID t' = Some (vr_ID r) ∧ ct_ActiveRevisionID t = Some (vr_ID r) ∧ s = ValuesStatusApproved ∧ ct_Status t' = Converged)).
Definition pointer_moves (r : ValuesRevision) (s : ValuesStatus) (defs defs' : gmap string ReleaseDefinition) : Prop :=
  ∀ d, pointer_of defs' d = if bool_decide (s = ValuesStatusApproved ∧ d = vr_ReleaseDefinitionID r)
                            then Some (Some (vr_ID r)) else pointer_of defs d.

Section advance.
Context (r : ValuesRevision) (s : ValuesStatus) (h : ValuesRevision → ValuesRevision).
Context (rs : list ValuesRevision) (ds : list ValuesRevisionDecision) (defs : gmap string ReleaseDefinition) (ts : list ConvergenceTask).
Context (Hok : tables_ok rs ds defs ts) (Had : advances r s h rs).
Context (d : ValuesRevisionDecision) (Hd : vd_RevisionID d = vr_ID r).
Context (Htrail : trail s = trail (vr_Status r) ++ [step_of d]) (Hversion : version_of_status s = version_of_status (vr_Status r) + 1).

Lemma legal_move :
  (vr_Status r = ValuesStatusDraft ∧ (s = ValuesStatusPendingApproval ∨ s = ValuesStatusDiscarded)) ∨
  (vr_Status r = ValuesStatusPendingApproval ∧ (s = ValuesStatusApproved ∨ s = ValuesStatusRejected)).
Proof. clear - Htrail Hversion. destruct (vr_Status r), s; simpl in *; try lia; try discriminate Htrail; tauto. Qed.
Lemma moved_id x : x ∈ rs → vr_ID (h x) = vr_ID x.
Proof. intros Hx. by apply (ad_same _ _ _ _ Had). Qed.
Lemma moved_definition x : x ∈ rs → vr_ReleaseDefinitionID (h x) = vr_ReleaseDefinitionID x.
Proof. intros Hx. by apply (ad_same _ _ _ _ Had). Qed.
Lemma same_row x y : x ∈ rs → y ∈ rs → vr_ID x = vr_ID y → x = y.
Proof.
  intros Hx Hy E. apply list_elem_of_lookup in Hx as [i Hx], Hy as [j Hy].
  assert (i = j); [|congruence]. eapply (NoDup_lookup _ i j (vr_ID x) (ok_ids _ _ _ _ Hok)); rewrite list_lookup_fmap; [by rewrite Hx|by rewrite Hy, E].
Qed.
(** The status of a row after the move, by what it was. *)
Lemma moved_status x : x ∈ rs →
  (x = r ∧ vr_Status (h x) = s) ∨ (x ≠ r ∧ h x = x ∧ ¬ superseded_by r s x) ∨
  (x ≠ r ∧ superseded_by r s x ∧ vr_Status (h x) = ValuesStatusSuperseded).
Proof.
  intros Hx. destruct (decide (vr_ID x = vr_ID r)) as [E|E].
  - left. assert (x = r) as -> by (by apply same_row; [|apply (ad_row _ _ _ _ Had)|]). split; [done|apply (ad_self _ _ _ _ Had)].
  - right. assert (Hne : x ≠ r) by congruence. destruct (ad_other _ _ _ _ Had x Hx Hne) as [[? ?]|(? & ? & _)]; [by left|by right].
Qed.
Lemma not_logged x : x ∈ rs → x ≠ r → vd_RevisionID d ≠ vr_ID x.
Proof. intros Hx Hne. rewrite Hd. intros E. by apply Hne, same_row; [|apply (ad_row _ _ _ _ Had)|]. Qed.
Lemma advance_ids : NoDup (vr_ID <$> (h <$> rs)).
Proof.
  rewrite <- list_fmap_compose. rewrite (list_fmap_ext _ vr_ID rs); [apply (ok_ids _ _ _ _ Hok)|].
  intros i x Hx. apply moved_id. by eapply list_elem_of_lookup_2.
Qed.
Lemma advance_versions r1 r2 : r1 ∈ h <$> rs → r2 ∈ h <$> rs → vr_ReleaseDefinitionID r1 = vr_ReleaseDefinitionID r2 →
  vr_Version r1 = vr_Version r2 → r1 = r2.
Proof.
  intros (x & -> & Hx)%list_elem_of_fmap (y & -> & Hy)%list_elem_of_fmap.
  destruct (ad_same _ _ _ _ Had x Hx) as (_ & -> & ->), (ad_same _ _ _ _ Had y Hy) as (_ & -> & ->). intros. f_equal.
  by apply (ok_versions _ _ _ _ Hok).
Qed.
Lemma advance_exclusive st r1 r2 : exclusive_status st = true → r1 ∈ h <$> rs → r2 ∈ h <$> rs →
  vr_ReleaseDefinitionID r1 = vr_ReleaseDefinitionID r2 → vr_Status r1 = st → vr_Status r2 = st → r1 = r2.
Proof.
  intros Hst (x & -> & Hx)%list_elem_of_fmap (y & -> & Hy)%list_elem_of_fmap. rewrite !moved_definition by done.
  intros Hdef S1 S2. f_equal.
  assert (Hr : ∀ z, z ∈ rs → z ≠ r → h z = z → ¬ superseded_by r s z → vr_ReleaseDefinitionID z = vr_ReleaseDefinitionID r →
    s = st → vr_Status z = st → False).
  { intros z Hz Hne _ Hns Hzd -> Hzs. by apply Hns, (ad_free _ _ _ _ Had). }
  destruct (moved_status x Hx) as [(-> & E1)|[(N1 & E1 & B1)|(N1 & B1 & E1)]]; [| |by rewrite <- S1, E1 in Hst].
  - destruct (moved_status y Hy) as [(-> & E2)|[(N2 & E2 & B2)|(N2 & B2 & E2)]]; [done| |by rewrite <- S2, E2 in Hst].
    exfalso. rewrite E2 in S2. apply (Hr y); congruence.
  - destruct (moved_status y Hy) as [(-> & E2)|[(N2 & E2 & B2)|(N2 & B2 & E2)]]; [| |by rewrite <- S2, E2 in Hst].
    + exfalso. rewrite E1 in S1. apply (Hr x); congruence.
    + rewrite E1 in S1. rewrite E2 in S2. by apply (ok_exclusive _ _ _ _ Hok st).
Qed.
Lemma advance_log x : x ∈ h <$> rs →
  log_of (vr_ID x) (ds ++ [d]) = trail (vr_Status x) ∧ vr_StateVersion x = version_of_status (vr_Status x).
Proof.
  intros (y & -> & Hy)%list_elem_of_fmap. rewrite moved_id by done. destruct (ok_log _ _ _ _ Hok y Hy) as [Hlog Hver].
  unfold log_of in *. rewrite filter_app, fmap_app, Hlog. rewrite filter_cons, filter_nil.
  destruct (moved_status y Hy) as [(-> & E)|[(N & -> & B)|(N & (? & ? & S0) & E)]].
  - rewrite E, decide_True by done. simpl. rewrite Htrail. split; [done|]. destruct (ad_self _ _ _ _ Had) as [_ ->]. by rewrite Hversion, Hver.
  - by rewrite decide_False, app_nil_r by by apply not_logged.
  - rewrite decide_False, app_nil_r by by apply not_logged.
    rewrite E, S0. split; [done|]. destruct (ad_other _ _ _ _ Had y Hy N) as [[_ Hn]|(_ & _ & ->)]; [by destruct Hn|].
    by rewrite Hver, S0.
Qed.
Lemma advance_pointer defs' dd i : pointer_moves r s defs defs' →
  pointer_of defs' dd = Some (Some i) ↔
  ∃ x, x ∈ h <$> rs ∧ vr_ID x = i ∧ vr_ReleaseDefinitionID x = dd ∧ vr_Status x = ValuesStatusApproved.
Proof.
  intros Hp. rewrite Hp. case_bool_decide as Hcase.
  - destruct Hcase as [Hs ->]. split.
    + intros [= <-]. exists (h r). pose proof (ad_row _ _ _ _ Had) as Hr. split_and!; [by apply list_elem_of_fmap_2|by apply moved_id|
        by apply moved_definition|]. rewrite <- Hs. apply (ad_self _ _ _ _ Had).
    + intros (x & (y & -> & Hy)%list_elem_of_fmap & <- & Hxd & Hxs). rewrite moved_id by done. rewrite moved_definition in Hxd by done.
      destruct (moved_status y Hy) as [(-> & E)|[(N & E & B)|(N & B & E)]]; [done| |congruence].
      rewrite E in Hxs. destruct B. by split_and!.
  - rewrite (ok_pointer _ _ _ _ Hok). split.
    + intros (x & Hx & <- & <- & Hxs). exists (h x). split_and!; [by apply list_elem_of_fmap_2|by apply moved_id|by apply moved_definition|].
      destruct (moved_status x Hx) as [(-> & E)|[(N & -> & B)|(N & (-> & ? & _) & E)]]; [|done|naive_solver].
      destruct legal_move as [[? _]|[? _]]; congruence.
    + intros (x & (y & -> & Hy)%list_elem_of_fmap & <- & Hxd & Hxs). rewrite moved_id by done. rewrite moved_definition in Hxd by done.
      exists y. split_and!; [done|done|done|].
      destruct (moved_status y Hy) as [(-> & E)|[(N & E & B)|(N & B & E)]]; [|congruence|congruence].
      destruct Hcase. split; congruence.
Qed.
Lemma advance_bound ts' t' i : Forall2 (task_follows r s) ts ts' → t' ∈ ts' → ct_ActiveRevisionID t' = Some i →
  ∃ x, x ∈ h <$> rs ∧ vr_ID x = i ∧ vr_ReleaseDefinitionID x = ct_ReleaseDefinitionID t' ∧ live_binding t' x.
Proof.
  intros Hts Ht' Hi. apply list_elem_of_lookup in Ht' as [n Hn].
  destruct (Forall2_lookup_r _ _ _ _ _ Hts Hn) as (t & Ht%list_elem_of_lookup_2 & _ & Hdef & _ & Hcase).
  destruct Hcase as [[-> Hna]|[?|(Ha' & Ha & Hsa & Hconv)]]; [|congruence|].
  - destruct (ok_bound _ _ _ _ Hok t i Ht Hi) as (x & Hx & <- & Hxd & Hlive). exists (h x).
    rewrite moved_id, moved_definition by done. split_and!; [by apply list_elem_of_fmap_2|done|done|]. unfold live_binding in *.
    destruct (moved_status x Hx) as [(-> & E)|[(N & -> & B)|(N & (_ & _ & S0) & E)]]; [|done|].
    + destruct Hna as [?|Hsp]; [congruence|]. rewrite E, Hsp. destruct legal_move as [[Hs _]|[Hs _]]; rewrite Hs in Hlive; intuition congruence.
    + rewrite E. rewrite S0 in Hlive. intuition congruence.
  - destruct (ok_bound _ _ _ _ Hok t _ Ht Ha) as (x & Hx & Hxi & Hxd & Hlive).
    assert (x = r) as -> by (by apply same_row; [|apply (ad_row _ _ _ _ Had)|]). exists (h r). rewrite moved_id, moved_definition, Hdef by done.
    split_and!; [by apply list_elem_of_fmap_2|congruence|done|]. right. split; [done|]. left. rewrite <- Hsa. apply (ad_self _ _ _ _ Had).
Qed.
Lemma follows_bound t t' i : task_follows r s t t' → ct_ActiveRevisionID t' = Some i → ct_Status t' = PendingPromotion → t' = t.
Proof. intros (_ & _ & _ & [[? _]|[?|(_ & _ & _ & ?)]]); congruence. Qed.

Lemma advance_ok defs' ts' :
  pointer_moves r s defs defs' → Forall2 (task_follows r s) ts ts' → tables_ok (h <$> rs) (ds ++ [d]) defs' ts'.
Proof.
  intros Hp Hts. constructor.
  - apply advance_ids.
  - intros x (y & -> & Hy)%list_elem_of_fmap. rewrite moved_id by done. by apply (ok_named _ _ _ _ Hok).
  - apply advance_versions.
  - apply advance_exclusive.
  - intros x (y & -> & Hy)%list_elem_of_fmap. rewrite moved_definition by done.
    specialize (Hp (vr_ReleaseDefinitionID y)). destruct (ok_definition _ _ _ _ Hok y Hy) as [z Hz]. unfold pointer_of in Hp. rewrite Hz in Hp.
    case_bool_decide; apply fmap_Some_1 in Hp as (? & -> & _); by eexists.
  - intros dd i. by apply advance_pointer.
  - replace (ct_ID <$> ts') with (ct_ID <$> ts); [apply (ok_tasks _ _ _ _ Hok)|].
    clear - Hts. induction Hts as [|t t' l l' (E & _) _ IH]; [done|]. simpl. by f_equal.
  - intros t i. by apply advance_bound.
  - intros t1 t2 i1 i2 M1 M2 S1 S2 D A1 A2 Hne. apply list_elem_of_lookup in M1 as [n1 M1], M2 as [n2 M2].
    destruct (Forall2_lookup_r _ _ _ _ _ Hts M1) as (u1 & Hu1%list_elem_of_lookup_2 & F1), (Forall2_lookup_r _ _ _ _ _ Hts M2) as (u2 & Hu2%list_elem_of_lookup_2 & F2).
    apply (follows_bound _ _ _ F1 A1) in S1 as Q1. apply (follows_bound _ _ _ F2 A2) in S2 as Q2. subst t1 t2.
    by eapply (ok_disjoint _ _ _ _ Hok).
  - apply advance_log.
  - intros x [Hx| ->%list_elem_of_singleton]%elem_of_app.
    + destruct (ok_logged _ _ _ _ Hok x Hx) as (y & Hy & <-). exists (h y). split; [by apply list_elem_of_fmap_2|by apply moved_id].
    + exists (h r). pose proof (ad_row _ _ _ _ Had). split; [by apply list_elem_of_fmap_2|]. by rewrite moved_id.
Qed.
End advance.

(** ** Transitions, discards and drafts keep the invariant *)
Lemma rows_affected_1_in {A} (p : A → bool) l : rows_affected p l = 1%nat → ∃ x, x ∈ l ∧ p x = true.
Proof.
  unfold rows_affected. intros H. destruct (filter _ l) as [|x k] eqn:E; [done|]. exists x.
  assert (Hx : x ∈ filter (λ r, p r = true) l) by (rewrite E; left). by apply list_elem_of_filter in Hx as [? ?].
Qed.
Lemma id_unique rs x y : NoDup (vr_ID <$> rs) → x ∈ rs → y ∈ rs → vr_ID x = vr_ID y → x = y.
Proof.
  intros Hnd Hx Hy E. apply list_elem_of_lookup in Hx as [i Hx], Hy as [j Hy].
  assert (i = j); [|congruence]. eapply (NoDup_lookup _ i j (vr_ID x) Hnd); rewrite list_lookup_fmap; [by rewrite Hx|by rewrite Hy, E].
Qed.
Lemma another_in_spec s r x :
  another_in s r x = true ↔ vr_ReleaseDefinitionID x = vr_ReleaseDefinitionID r ∧ vr_Status x = s ∧ vr_ID x ≠ vr_ID r.
Proof.
  unfold another_in, ofDefinition, inStatus, byID. rewrite !andb_true_iff, negb_true_iff, !bool_decide_eq_true, bool_decide_eq_false. tauto.
Qed.
Lemma byID_spec id x : byID id x = true ↔ vr_ID x = id.
Proof. apply bool_decide_eq_true. Qed.

(** The row function of a transition. *)
Definition step_row (t : approvalTransition) (r : ValuesRevision) (n : time) (x : ValuesRevision) : ValuesRevision :=
  if byID (vr_ID r) x then moved t n x
  else if is_approve t && another_in ValuesStatusApproved r x then set_state ValuesStatusSuperseded None (Some n) n x else x.
Lemma rows_after_step t r v n rs :
  NoDup (vr_ID <$> rs) → r ∈ rs → vr_Status r = at_expectedFrom t → vr_StateVersion r = v →
  rows_after t r v n rs = step_row t r n <$> rs.
Proof.
  intros Hnd Hr Hst Hv.
  assert (Hsup : rows_superseded t r n rs =
    (λ x, if is_approve t && another_in ValuesStatusApproved r x then set_state ValuesStatusSuperseded None (Some n) n x else x) <$> rs).
  { unfold rows_superseded, update_where. destruct (is_approve t); [done|]. by rewrite list_fmap_id. }
  unfold rows_after. rewrite Hsup. unfold update_where. rewrite <- list_fmap_compose. apply list_fmap_ext. intros i x Hx.
  apply list_elem_of_lookup_2 in Hx. simpl. unfold step_row. destruct (byID (vr_ID r) x) eqn:E.
  - apply byID_spec in E. assert (x = r) as -> by by apply (id_unique rs).
    assert (Hno : another_in ValuesStatusApproved r r = false).
    { apply not_true_iff_false. rewrite another_in_spec. tauto. }
    rewrite Hno, andb_false_r. unfold moves, byID, inStatus. by rewrite !bool_decide_true, Hv, Z.eqb_refl by done.
  - assert (Hm : ∀ y, vr_ID y = vr_ID x → moves t r v y = false).
    { intros y Hy. unfold moves, byID in *. by rewrite Hy, E. }
    destruct (is_approve t && _); by rewrite Hm.
Qed.

(** The transition's own decision leads from the expected status to the next. *)
Lemma transition_trail t c r id n :
  t ∈ [submit_transition; approve_transition; reject_transition] →
  trail (at_to t) = trail (at_expectedFrom t) ++ [step_of (decision_of c t r id n)] ∧
  version_of_status (at_to t) = version_of_status (at_expectedFrom t) + 1.
Proof. by intros [->|[->|[->|[]%not_elem_of_nil]%elem_of_cons]%elem_of_cons]%elem_of_cons. Qed.
Lemma transition_approves t :
  t ∈ [submit_transition; approve_transition; reject_transition] → is_approve t = bool_decide (at_to t = ValuesStatusApproved).
Proof. by intros [->|[->|[->|[]%not_elem_of_nil]%elem_of_cons]%elem_of_cons]%elem_of_cons. Qed.

Lemma transition_advances c t r n res db db' :
  values_invariant db → t ∈ [submit_transition; approve_transition; reject_transition] →
  r ∈ db_values_revisions db → vr_Status r = at_expectedFrom t → vr_StateVersion r = vac_ExpectedStateVersion c →
  transition_effect c t r n res db db' →
  advances r (at_to t) (step_row t r n) (db_values_revisions db) ∧
  db_values_revisions db' = step_row t r n <$> db_values_revisions db.
Proof.
  intros Hok Ht Hr Hst Hv [Hrows _ Hfree _ _ _ _ _ _ _]. pose proof (ok_ids _ _ _ _ Hok) as Hnd.
  rewrite rows_after_step in Hrows by done. split; [|done]. pose proof (transition_approves t Ht) as Happ.
  assert (Hself : step_row t r n r = moved t n r) by (unfold step_row, byID; by rewrite bool_decide_true).
  assert (Hother : ∀ x, x ∈ db_values_revisions db → x ≠ r → byID (vr_ID r) x = false).
  { intros x Hx Hne. apply not_true_iff_false. rewrite byID_spec. intros E. by apply Hne, (id_unique (db_values_revisions db)). }
  assert (Hsup : ∀ x, x ∈ db_values_revisions db → x ≠ r →
    is_approve t && another_in ValuesStatusApproved r x = true ↔ superseded_by r (at_to t) x).
  { intros x Hx Hne. rewrite andb_true_iff, Happ, bool_decide_eq_true, another_in_spec. unfold superseded_by.
    specialize (Hother x Hx Hne). apply not_true_iff_false in Hother. rewrite byID_spec in Hother. tauto. }
  constructor.
  - done.
  - intros x _. unfold step_row. destruct (byID _ _); [done|]. by destruct (_ && _).
  - by rewrite Hself.
  - intros x Hx Hne. unfold step_row. rewrite (Hother x Hx Hne). specialize (Hsup x Hx Hne).
    destruct (is_approve t && _); [right; split; [by apply Hsup|done]|left; split; [done|by intros ?%Hsup]].
  - intros He x Hx Hne Hdef Hxs. destruct (decide (at_to t = ValuesStatusApproved)) as [Ha|Ha]; [by rewrite Ha in Hxs|exfalso].
    specialize (Hfree He x). unfold rows_superseded in Hfree. rewrite Happ, bool_decide_false in Hfree by done.
    specialize (Hfree Hx). apply not_true_iff_false in Hfree. apply Hfree, another_in_spec. split_and!; [done|done|].
    specialize (Hother x Hx Hne). apply not_true_iff_false in Hother. by rewrite byID_spec in Hother.
Qed.

Lemma Forall2_update_where {A} (P : A → A → Prop) (p : A → bool) (f : A → A) (l : list A) :
  (∀ x, x ∈ l → P x (if p x then f x else x)) → Forall2 P l (update_where p f l).
Proof.
  intros H. unfold update_where. induction l as [|x l IH]; simpl; constructor; [apply H; left|]. apply IH. intros y Hy. apply H. by right.
Qed.
(** A pending or draft revision binds pending tasks only. *)
Lemma bound_pending db r t :
  values_invariant db → r ∈ db_values_revisions db → vr_Status r = ValuesStatusDraft ∨ vr_Status r = ValuesStatusPendingApproval →
  t ∈ db_convergence_tasks db → ct_ActiveRevisionID t = Some (vr_ID r) → ct_Status t = PendingPromotion.
Proof.
  intros Hok Hr Hst Ht Ha. destruct (ok_bound _ _ _ _ Hok t _ Ht Ha) as (x & Hx & Hxi & _ & Hlive).
  assert (x = r) as -> by (by eapply id_unique; [apply (ok_ids _ _ _ _ Hok)|..]). unfold live_binding in Hlive. intuition congruence.
Qed.
Lemma transition_tasks c t r n db :
  values_invariant db → t ∈ [submit_transition; approve_transition; reject_transition] →
  r ∈ db_values_revisions db → vr_Status r = at_expectedFrom t →
  Forall2 (task_follows r (at_to t)) (db_convergence_tasks db) (tasks_after t (vr_ID r) (vac_Reason c) n (db_convergence_tasks db)).
Proof.
  intros Hok Ht Hr Hst.
  assert (Hpend : ∀ x, x ∈ db_convergence_tasks db → ct_ActiveRevisionID x = Some (vr_ID r) → ct_Status x = PendingPromotion).
  { intros x Hx. eapply bound_pending; [done|done| |done]. rewrite Hst.
    by apply elem_of_cons in Ht as [->|[->|[->|[]%not_elem_of_nil]%elem_of_cons]%elem_of_cons]; simpl; [left|right|right]. }
  unfold tasks_after. apply elem_of_cons in Ht as [->|[->|[->|[]%not_elem_of_nil]%elem_of_cons]%elem_of_cons]; simpl.
  - apply Forall2_same_length_lookup. split; [done|]. intros i x y Hx Hy. assert (y = x) as -> by congruence.
    split_and!; [done|done|done|]. left. by split; [|right].
  - apply Forall2_update_where. intros x Hx. unfold bound_to, pending_task. case_bool_decide as Ha; simpl.
    + rewrite (Hpend x Hx Ha). simpl. split_and!; [done|done|done|]. right; right. by split_and!.
    + split_and!; [done|done|done|]. left. by split; [|left].
  - apply Forall2_update_where. intros x Hx. unfold bound_to. case_bool_decide as Ha; simpl.
    + split_and!; [done|done|done|]. by right; left.
    + split_and!; [done|done|done|]. left. by split; [|left].
Qed.
Lemma transition_pointer t r db :
  values_invariant db → t ∈ [submit_transition; approve_transition; reject_transition] → r ∈ db_values_revisions db →
  pointer_moves r (at_to t) (db_release_definitions db) (definitions_after t r (db_release_definitions db)).
Proof.
  intros Hok Ht Hr d. unfold definitions_after. rewrite (transition_approves t Ht).
  destruct (decide (at_to t = ValuesStatusApproved)) as [Ha|Ha]; [rewrite bool_decide_true by done|rewrite bool_decide_false by done].
  - unfold pointer_of. destruct (decide (d = vr_ReleaseDefinitionID r)) as [->|Hd].
    + rewrite bool_decide_true by done. rewrite lookup_alter_eq. by destruct (ok_definition _ _ _ _ Hok r Hr) as [x ->].
    + rewrite bool_decide_false by tauto. by rewrite lookup_alter_ne.
  - rewrite bool_decide_false by tauto. done.
Qed.
Lemma transition_invariant c t res db db' :
  t ∈ [submit_transition; approve_transition; reject_transition] → transition_committed c t res db db' →
  values_invariant db → values_invariant db'.
Proof.
  intros Ht (r & n & Hf & Hv & Hst & He) Hok. destruct (find_row_byID _ _ _ Hf) as [Hr _].
  destruct (transition_advances c t r n res db db' Hok Ht Hr Hst Hv He) as [Had Hrows].
  destruct (te_decision _ _ _ _ _ _ _ He) as [id Hds]. destruct (transition_trail t c r id n Ht) as [Htr Hver]. unfold values_invariant.
  rewrite Hrows, Hds, (te_tasks _ _ _ _ _ _ _ He), (te_definitions _ _ _ _ _ _ _ He).
  eapply advance_ok; [exact Hok|exact Had|done|by rewrite Hst|by rewrite Hst|by apply transition_pointer|by apply transition_tasks].
Qed.

Lemma discard_rows c res db db' :
  values_invariant db → discard_effect c res db db' →
  let h x := if byID (dvc_RevisionID c) x then set_state ValuesStatusDiscarded None (Some (dvr_DecidedAt res)) (dvr_DecidedAt res) x else x in
  ∃ r, r ∈ db_values_revisions db ∧ vr_ID r = dvc_RevisionID c ∧ vr_Status r = ValuesStatusDraft ∧
    vr_CreatedByUserID r = dvc_ActorUserID c ∧ vr_StateVersion r = dvc_ExpectedStateVersion c ∧
    db_values_revisions db' = h <$> db_values_revisions db ∧ advances r ValuesStatusDiscarded h (db_values_revisions db).
Proof.
  intros Hok [Hone Hrows _ _ _ _ _] h. pose proof (ok_ids _ _ _ _ Hok) as Hnd.
  destruct (rows_affected_1_in _ _ Hone) as (r & Hr & Hp). unfold discardable in Hp. rewrite !andb_true_iff, byID_spec, Z.eqb_eq in Hp.
  destruct Hp as (((Hid & Hst) & Hv) & Hu). unfold inStatus in Hst. destruct_bools.
  assert (Hby : ∀ x, x ∈ db_values_revisions db → byID (dvc_RevisionID c) x = true → x = r).
  { intros x Hx E%byID_spec. eapply id_unique; [done..|congruence]. }
  exists r. split_and!; [done..| |].
  - rewrite Hrows. unfold update_where. apply list_fmap_ext. intros i x Hx%list_elem_of_lookup_2. unfold h, discardable, inStatus.
    destruct (byID (dvc_RevisionID c) x) eqn:E; [|done]. rewrite (Hby x Hx E). by rewrite !bool_decide_true, Hv, Z.eqb_refl.
  - constructor.
    + done.
    + intros x _. unfold h. by destruct (byID _ _).
    + unfold h. unfold byID. by rewrite bool_decide_true.
    + intros x Hx Hne. left. unfold h. destruct (byID _ _) eqn:E; [by destruct Hne; apply Hby|]. split; [done|]. by intros (? & _).
    + done.
Qed.
Lemma discard_invariant c res db db' : discard_effect c res db db' → values_invariant db → values_invariant db'.
Proof.
  intros He Hok. destruct (discard_rows c res db db' Hok He) as (r & Hr & Hid & Hst & _ & _ & Hrows & Had).
  destruct He as [_ _ [did Hds] Hts (Hf & _) _ (Hdefs & _)]. unfold values_invariant.
  rewrite Hrows, Hds, Hdefs, Hts. eapply advance_ok; [exact Hok|exact Had| |by rewrite Hst|by rewrite Hst| |].
  - apply find_row_byID in Hf as [_ Hf]. simpl. congruence.
  - intros d. by rewrite bool_decide_false by by intros [??].
  - apply Forall2_update_where. intros x Hx. unfold bound_to, pending_task. case_bool_decide as Ha; simpl.
    + rewrite <- Hid in Ha. rewrite (bound_pending db r x Hok Hr (or_introl Hst) Hx Ha). simpl.
      split_and!; [done|done|done|]. by right; left.
    + split_and!; [done|done|done|]. left. split; [done|]. left. by rewrite Hid.
Qed.

(** *** Drafts *)
Lemma find_all_in (l : list ConvergenceTask) (ids : list string) t : t ∈ omap (λ id, find (λ t, bool_decide (ct_ID t = id)) l) ids → t ∈ l ∧ ct_ID t ∈ ids.
Proof.
  rewrite list_elem_of_omap. intros (id & Hid & Hf). apply find_some in Hf as [Hin Hd].
  case_bool_decide; [|done]. subst. split; [by apply list_elem_of_In|done].
Qed.
Lemma bound_rows_ids ids rid d l l' : bound_rows ids rid d l l' → ct_ID <$> l' = ct_ID <$> l.
Proof. induction 1 as [|t t' l l' Ht _ IH]; [done|]. simpl. f_equal; [|done]. destruct Ht as [[-> _]|(_ & _ & _ & _ & ->)]; done. Qed.
(** A task after the binding: an old one, or one bound to the new revision. *)
Lemma bound_rows_cases ids rid d l l' t' : bound_rows ids rid d l l' → t' ∈ l' →
  ∃ t, t ∈ l ∧ (t' = t ∨ binds_task ids rid d t t').
Proof.
  intros H [n Hn]%list_elem_of_lookup. destruct (Forall2_lookup_r _ _ _ _ _ H Hn) as (t & Ht%list_elem_of_lookup_2 & Hc).
  exists t. split; [done|]. destruct Hc as [[? _]|?]; [by left|by right].
Qed.
Lemma draft_disjoint c revision db db' t1 t2 u1 i2 :
  values_invariant db → session_effect c revision db db' → vr_ID revision ≠ i2 →
  u1 ∈ db_convergence_tasks db → t2 ∈ db_convergence_tasks db → ct_Status t2 = PendingPromotion →
  ct_ReleaseDefinitionID t2 = vr_ReleaseDefinitionID revision → ct_ActiveRevisionID t2 = Some i2 → i2 ≠ "" →
  (∃ ids, binds_task ids (vr_ID revision) (vr_ReleaseDefinitionID revision) u1 t1) →
  (∀ s, db_prepare_sessions db !! cvc_PrepareTokenHash c = Some s → ct_ID u1 ∈ ps_TaskIDs s) →
  paths_disjoint t1 t2.
Proof.
  intros Hok [(s & n & Hs & _ & _ & _ & _ & _ & paths & Hlock & _ & _ & Hconf & _ & Hall)] Hne Hu1 Ht2 Hp2 Hd2 Ha2 Hi2 (ids & Hb) Hin.
  specialize (Hin s Hs). destruct Hb as (_ & Hdef1 & Hp1 & Ha1 & ->). pose proof (ok_tasks _ _ _ _ Hok) as Hnd.
  assert (Hid : ∀ x y, x ∈ db_convergence_tasks db → y ∈ db_convergence_tasks db → ct_ID x = ct_ID y → x = y).
  { intros x y Hx Hy E. apply list_elem_of_lookup in Hx as [i Hx], Hy as [j Hy].
    assert (i = j); [|congruence]. eapply (NoDup_lookup _ i j (ct_ID x) Hnd); rewrite list_lookup_fmap; [by rewrite Hx|by rewrite Hy, E]. }
  set (all := filter (λ t, ct_ReleaseDefinitionID t = vr_ReleaseDefinitionID revision) (db_convergence_tasks db)) in *.
  assert (Hnot : ct_ID t2 ∉ ps_TaskIDs s).
  { intros Hx. destruct (Hall _ Hx) as (y & Hy & E & _ & _ & Hnone). rewrite (Hid y t2 Hy Ht2 E) in Hnone. congruence. }
  destruct (no_conflict_spec _ _ _ Hconf t2) as (l2 & Hl2 & Hdis).
  { apply list_elem_of_filter. by split. } { done. } { done. }
  { rewrite Ha2. simpl. by rewrite bool_decide_false. }
  unfold LockedPathsForTasks in Hlock. destruct (locked_paths_loop _ _ [] [] []) as [out|] eqn:El; [|done]. injection Hlock as <-.
  destruct (locked_paths_spec _ _ _ _ _ _ El ltac:(done) ltac:(constructor)) as (_ & _ & _ & Hlock & Hout).
  destruct (Hlock _ Hin) as (l1 & x & Hx & Hrest). pose proof Hx as Hx'. unfold selected_task in Hx'. apply last_Some_elem_of in Hx'.
  apply list_elem_of_filter in Hx' as [Hxi Hx']. apply find_all_in in Hx' as [Hxa _]. apply list_elem_of_filter in Hxa as [_ Hxa].
  assert (x = u1) as -> by by apply Hid. exists l1, l2. simpl. destruct Hrest as (H1 & H2 & H3 & H4). split_and!; [done|done|].
  intros p Hp Hp'. apply (Hdis p Hp'). unfold sort_strings. rewrite merge_sort_Permutation. apply Hout. right.
  exists (ct_ID u1), l1. split_and!; [done| |done]. by exists u1.
Qed.
Lemma paths_disjoint_sym t1 t2 : paths_disjoint t1 t2 → paths_disjoint t2 t1.
Proof. intros (l1 & l2 & H1 & H2 & Hd). exists l2, l1. split_and!; [done|done|]. intros p H2' H1'. by apply (Hd p). Qed.
(** The tasks after a draft: the old ones, some of them bound to it. *)
Lemma draft_tasks c r revision db db' :
  values_invariant db → vr_ID r ≠ "" → draft_effect c r revision db db' →
  vr_ID revision = vr_ID r →
  (∀ x, x ∈ db_values_revisions db → vr_ID x ≠ vr_ID revision) →
  ct_ID <$> db_convergence_tasks db' = ct_ID <$> db_convergence_tasks db ∧
  (∀ t', t' ∈ db_convergence_tasks db' → t' ∈ db_convergence_tasks db ∨
     (ct_ActiveRevisionID t' = Some (vr_ID revision) ∧ ct_Status t' = PendingPromotion ∧
      ct_ReleaseDefinitionID t' = vr_ReleaseDefinitionID revision ∧
      ∀ t2 i2, t2 ∈ db_convergence_tasks db → ct_Status t2 = PendingPromotion → ct_ReleaseDefinitionID t2 = vr_ReleaseDefinitionID revision →
        ct_ActiveRevisionID t2 = Some i2 → paths_disjoint t' t2)).
Proof.
  intros Hok Hne He Hid Hnew. pose proof (de_session _ _ _ _ _ He) as Hsess. case_bool_decide as Htok.
  { destruct Hsess as [-> _]. split; [done|]. intros t' Ht'. by left. }
  pose proof Hsess as [(s & n & Hs & _ & _ & _ & _ & _ & paths & _ & _ & _ & _ & Hb & _)]. split; [by eapply bound_rows_ids|].
  intros t' Ht'. destruct (bound_rows_cases _ _ _ _ _ _ Hb Ht') as (t & Ht & [->|Hbind]); [by left|right].
  pose proof Hbind as (Hin & Hdef & Hst & _ & Ht'e). split_and!; [by rewrite Ht'e|by rewrite Ht'e|by rewrite Ht'e|].
  intros t2 i2 Ht2 Hp2 Hd2 Ha2. destruct (ok_bound _ _ _ _ Hok t2 i2 Ht2 Ha2) as (x & Hx & <- & _).
  eapply (draft_disjoint c revision db db' t' t2 t); [done|done| |done|done|done|done|exact Ha2| |by eexists|].
  - intros E. by apply (Hnew x Hx).
  - by apply (ok_named _ _ _ _ Hok).
  - intros s' Hs'. rewrite Hs in Hs'. by injection Hs' as <-.
Qed.
Lemma log_of_nothing id ds : (∀ d, d ∈ ds → vd_RevisionID d ≠ id) → log_of id ds = [].
Proof.
  intros H. unfold log_of. destruct (filter _ ds) as [|d l] eqn:E; [done|exfalso].
  assert (Hd : d ∈ filter (λ d, vd_RevisionID d = id) ds) by (rewrite E; left). apply list_elem_of_filter in Hd as [? Hd]. by apply (H d Hd).
Qed.
Lemma draft_invariant c r revision db db' :
  vr_ID r ≠ "" → draft_effect c r revision db db' → values_invariant db → values_invariant db'.
Proof.
  intros Hne He Hok. destruct (de_fields _ _ _ _ _ He) as (created & updated & Hrev).
  assert (Hid : vr_ID revision = vr_ID r) by by rewrite Hrev.
  assert (Hst : vr_Status revision = ValuesStatusDraft ∧ vr_StateVersion revision = 1) by by rewrite Hrev.
  assert (Hdef : vr_ReleaseDefinitionID revision = vr_ReleaseDefinitionID r) by by rewrite Hrev. destruct Hst as [Hst Hsv].
  assert (Hclash : ∀ x, x ∈ db_values_revisions db → vr_ID x ≠ vr_ID revision ∧
    ¬ (vr_ReleaseDefinitionID x = vr_ReleaseDefinitionID revision ∧ vr_Version revision = vr_Version x)).
  { intros x Hx. pose proof (de_fresh _ _ _ _ _ He x Hx) as Hc. unfold rows_clash, byID, ofDefinition in Hc. simpl in Hc.
    apply orb_false_iff in Hc as [H1 H2]. split; [by destruct_bools|]. intros [E1 E2].
    apply andb_false_iff in H2 as [H2|[H2 _]%orb_false_iff]; by destruct_bools. }
  destruct (draft_tasks c r revision db db' Hok Hne He Hid ltac:(intros x Hx; by apply Hclash)) as [Hids Hts].
  pose proof (de_rest _ _ _ _ _ He) as (Hds & Hdefs & _). unfold values_invariant. rewrite (de_revisions _ _ _ _ _ He), Hds, Hdefs.
  constructor.
  - rewrite fmap_app. apply NoDup_app. split_and!; [apply (ok_ids _ _ _ _ Hok)| |apply NoDup_singleton].
    intros i (x & -> & Hx)%list_elem_of_fmap Hi%list_elem_of_singleton. by destruct (Hclash x Hx) as [[] _].
  - intros x [Hx| ->%list_elem_of_singleton]%elem_of_app; [by apply (ok_named _ _ _ _ Hok)|]. simpl. by rewrite Hid.
  - intros x y [Hx| ->%list_elem_of_singleton]%elem_of_app [Hy| ->%list_elem_of_singleton]%elem_of_app; simpl.
    + by apply (ok_versions _ _ _ _ Hok).
    + intros E1 E2. by destruct (Hclash x Hx) as [_ []].
    + intros E1 E2. by destruct (Hclash y Hy) as [_ []].
    + done.
  - intros s x y Hs [Hx| ->%list_elem_of_singleton]%elem_of_app [Hy| ->%list_elem_of_singleton]%elem_of_app; simpl; rewrite ?Hst.
    + by apply (ok_exclusive _ _ _ _ Hok).
    + intros _ _ <-. done.
    + intros _ <-. done.
    + done.
  - intros x [Hx| ->%list_elem_of_singleton]%elem_of_app; [by apply (ok_definition _ _ _ _ Hok)|]. simpl. rewrite Hdef. apply (de_definition _ _ _ _ _ He).
  - intros d i. rewrite (ok_pointer _ _ _ _ Hok). split.
    + intros (x & Hx & ?). exists x. split; [by apply elem_of_app; left|done].
    + intros (x & [Hx| ->%list_elem_of_singleton]%elem_of_app & Hrest); [by exists x|]. simpl in Hrest. destruct Hrest as (_ & _ & E). congruence.
  - rewrite Hids. apply (ok_tasks _ _ _ _ Hok).
  - intros t i Ht Ha. destruct (Hts t Ht) as [Ht'|(Ha' & Hp & Hd & _)].
    + destruct (ok_bound _ _ _ _ Hok t i Ht' Ha) as (x & Hx & ?). exists x. split; [by apply elem_of_app; left|done].
    + exists (draft_row revision). simpl. split_and!; [by apply elem_of_app; right; left|congruence|done|]. left. split; [done|by left].
  - intros t1 t2 i1 i2 M1 M2 S1 S2 D A1 A2 Hi.
    destruct (Hts t1 M1) as [M1'|(A1' & _ & D1 & F1)], (Hts t2 M2) as [M2'|(A2' & _ & D2 & F2)].
    + by eapply (ok_disjoint _ _ _ _ Hok).
    + apply paths_disjoint_sym. eapply F2; [done|done|congruence|done].
    + eapply F1; [done|done|congruence|done].
    + congruence.
  - intros x [Hx| ->%list_elem_of_singleton]%elem_of_app; [by apply (ok_log _ _ _ _ Hok)|]. simpl. rewrite Hst. split; [|done].
    apply log_of_nothing. intros d Hd E.
    destruct (ok_logged _ _ _ _ Hok d Hd) as (y & Hy & E'). destruct (Hclash y Hy) as [[] _]. congruence.
  - intros d Hd. destruct (ok_logged _ _ _ _ Hok d Hd) as (y & Hy & ?). exists y. split; [by apply elem_of_app; left|done].
Qed.

(** ** Steps *)

(** A call of a values store, or of one of the other stores.  A draft's revision
    has an id: the caller generates it. *)
Definition named_draft (c : CreateValuesDraftCommand) : Prop := ∀ r, cvc_Revision c = Some r → vr_ID r ≠ "".
Inductive values_step (w : World) : World → Prop :=
| vs_store w' : store_step w w' → values_step w w'
| vs_submit c : values_step w (Submit c w).2
| vs_approve c : values_step w (Approve c w).2
| vs_reject c : values_step w (Reject c w).2
| vs_create_draft c : named_draft c → values_step w (CreateDraft c w).2
| vs_discard c : values_step w (Discard c w).2
| vs_record_attempt e : values_step w (RecordAttempt e w).2
| vs_create_session s v : values_step w (Create_session s v w).2
| vs_delete_expired cutoff : values_step w (DeleteExpired_sessions cutoff w).2.
Definition values_reachable : relation World := rtc values_step.

Definition keeps_invariant : relation DB := λ db db', values_invariant db → values_invariant db'.
#[export] Instance keeps_invariant_preorder : PreOrder keeps_invariant.
Proof. split; [by intros db ?|intros a b c H1 H2 H; auto]. Qed.
Lemma preserves_values_view {A} (m : SM A) : preserves (db_rel (on_table values_view eq)) m → preserves (db_rel keeps_invariant) m.
Proof. intros Hm w r w' H. unfold db_rel, keeps_invariant. apply values_framed_invariant, values_framed_same. symmetry. exact (Hm _ _ _ H). Qed.
Lemma transition_keeps c t :
  t ∈ [submit_transition; approve_transition; reject_transition] → preserves (db_rel keeps_invariant) (runTransition c t).
Proof.
  intros Ht. apply preserves_retryBusy; [apply _|]. unfold ValuesLifecycle.transition.
  destruct (negb _); [apply preserves_throw; apply _|]. apply commits_run_tx; [apply _|]. intros w res w' H.
  unfold keeps_invariant. eapply transition_invariant; [exact Ht|by apply transition_tx_Commit].
Qed.
Lemma lifecycle_keeps {A} keyHash (action : SM A) load :
  preserves (db_rel keeps_invariant) action → (∀ o w w', load w = (o, w') → w_db w' = w_db w) →
  preserves (db_rel keeps_invariant) (retryValuesLifecycle keyHash action load).
Proof.
  intros Ha Hl. unfold retryValuesLifecycle. apply preserves_catch; [apply _|by apply preserves_retryBusy; [apply _|]|].
  intros [a|e]; [apply preserves_ret; apply _|]. destruct (_ && _); [|apply preserves_throw; apply _].
  apply preserves_bind; [apply _| |].
  - intros w o w' H. unfold db_rel. by rewrite (Hl _ _ _ H).
  - intros [a|]; [apply preserves_ret|apply preserves_throw]; apply _.
Qed.
Lemma CreateDraft_keeps c : named_draft c → preserves (db_rel keeps_invariant) (CreateDraft c).
Proof.
  intros Hn. apply lifecycle_keeps; [|intros o w w'; apply lookupCreate_db]. unfold createDraft.
  destruct (cvc_Revision c) as [r|] eqn:Er; [|apply preserves_throw; apply _].
  apply commits_run_tx; [apply _|]. intros w x w' H. apply createDraft_tx_Commit in H as (revision & _ & He).
  unfold keeps_invariant. eapply draft_invariant; [by apply Hn|exact He].
Qed.
Lemma Discard_keeps c : preserves (db_rel keeps_invariant) (Discard c).
Proof.
  apply lifecycle_keeps; [|intros o w w'; apply lookupDiscard_db].
  apply commits_run_tx; [apply _|]. intros w x w' H. apply discard_tx_Commit in H. unfold keeps_invariant. by eapply discard_invariant.
Qed.
Lemma RecordAttempt_view e : preserves (db_rel (on_table values_view eq)) (RecordAttempt e).
Proof. unfold RecordAttempt, insertApprovalOutbox. db_preserve. Qed.
Lemma Create_session_view s v : preserves (db_rel (on_table values_view eq)) (Create_session s v).
Proof. unfold Create_session, insert_prepare_session. db_preserve. Qed.
Lemma DeleteExpired_view cutoff : preserves (db_rel (on_table values_view eq)) (DeleteExpired_sessions cutoff).
Proof. unfold DeleteExpired_sessions. db_preserve. Qed.

Lemma values_step_invariant w w' : values_step w w' → values_invariant (w_db w) → values_invariant (w_db w').
Proof.
  assert (Hk : ∀ A (m : SM A), preserves (db_rel keeps_invariant) m → values_invariant (w_db w) → values_invariant (w_db (m w).2)).
  { intros A m Hm. destruct (m w) as [r w1] eqn:E. exact (Hm _ _ _ E). }
  destruct 1 as [w' Hs|c|c|c|c Hn|c|e|s v|cutoff].
  - by apply values_framed_invariant, store_step_values.
  - apply Hk, transition_keeps. by left.
  - apply Hk, transition_keeps. by right; left.
  - apply Hk, transition_keeps. by right; right; left.
  - by apply Hk, CreateDraft_keeps.
  - apply Hk, Discard_keeps.
  - apply Hk, preserves_values_view, RecordAttempt_view.
  - apply Hk, preserves_values_view, Create_session_view.
  - apply Hk, preserves_values_view, DeleteExpired_view.
Qed.
Lemma values_reachable_invariant w w' : values_reachable w w' → values_invariant (w_db w) → values_invariant (w_db w').
Proof. induction 1; [done|]. intros. by apply IHrtc, (values_step_invariant x). Qed.

(** ** Properties *)

(** C13: in every state that any interleaving of draft, approval, session and
    operation calls reaches, a release definition has at most one approved and
    at most one pending revision, its pointer names exactly the approved one, and
    the decision log of every revision is the one that leads to its status, its
    state version counting the changes. *)
Theorem values_approval_invariant w w' :
  values_invariant (w_db w) → values_reachable w w' →
  let rs := db_values_revisions (w_db w') in
  (∀ s r1 r2, exclusive_status s = true → r1 ∈ rs → r2 ∈ rs → vr_ReleaseDefinitionID r1 = vr_ReleaseDefinitionID r2 →
     vr_Status r1 = s → vr_Status r2 = s → r1 = r2) ∧
  (∀ d i, pointer_of (db_release_definitions (w_db w')) d = Some (Some i) ↔
     ∃ r, r ∈ rs ∧ vr_ID r = i ∧ vr_ReleaseDefinitionID r = d ∧ vr_Status r = ValuesStatusApproved) ∧
  ∀ r, r ∈ rs → log_of (vr_ID r) (db_values_revision_decisions (w_db w')) = trail (vr_Status r) ∧
                vr_StateVersion r = version_of_status (vr_Status r).
Proof.
  intros Hinv Hr rs. pose proof (values_reachable_invariant _ _ Hr Hinv) as Hok.
  split_and!; [apply (ok_exclusive _ _ _ _ Hok)|apply (ok_pointer _ _ _ _ Hok)|apply (ok_log _ _ _ _ Hok)].
Qed.
(** C22: in every reachable state a convergence task is bound to an existing
    revision of its own definition, pending exactly while that revision is a
    draft or pending approval and converged once it was approved; and two
    revisions of a definition never hold pending tasks that share a path. *)
Theorem convergence_binding_invariant w w' :
  values_invariant (w_db w) → values_reachable w w' →
  (∀ t i, t ∈ db_convergence_tasks (w_db w') → ct_ActiveRevisionID t = Some i →
     ∃ r, r ∈ db_values_revisions (w_db w') ∧ vr_ID r = i ∧ vr_ReleaseDefinitionID r = ct_ReleaseDefinitionID t ∧ live_binding t r) ∧
  (∀ t1 t2 i1 i2, t1 ∈ db_convergence_tasks (w_db w') → t2 ∈ db_convergence_tasks (w_db w') →
     ct_Status t1 = PendingPromotion → ct_Status t2 = PendingPromotion →
     ct_ReleaseDefinitionID t1 = ct_ReleaseDefinitionID t2 →
     ct_ActiveRevisionID t1 = Some i1 → ct_ActiveRevisionID t2 = Some i2 → i1 ≠ i2 → paths_disjoint t1 t2).
Proof.
  intros Hinv Hr. pose proof (values_reachable_invariant _ _ Hr Hinv) as Hok.
  split; [apply (ok_bound _ _ _ _ Hok)|apply (ok_disjoint _ _ _ _ Hok)].
Qed.

Lemma decode_approval_Ok ref res w w' : decode_approval ref w = (Ok res, w') → w' = w.
Proof. unfold decode_approval. destruct ref; intros H; by dinv. Qed.
Lemma transition_tx_Rollback c t w res w' : transition_tx c t w = (Ok (Rollback res), w') → var_Replayed res = true.
Proof.
  intros H. unfold transition_tx in H. apply bind_Ok in H as (? & w1 & _ & H). apply bind_Ok in H as (o & w2 & _ & H).
  destruct o as [res0|]; [by apply ret_Ok in H as [[= <-] _]|].
  apply bind_Ok in H as (? & w3 & _ & H). apply bind_Ok in H as (? & w4 & _ & H). apply bind_Ok in H as (? & w5 & _ & H).
  apply bind_Ok in H as (? & w6 & _ & H). apply bind_Ok in H as (? & w7 & _ & H). apply bind_Ok in H as (o & w8 & Hi & H).
  destruct o as [res0|]; [|apply bind_Ok in H as (? & ? & _ & H); by apply ret_Ok in H as [? _]]. apply ret_Ok in H as [[= <-] _].
  unfold insertIdempotency in Hi. case_bool_decide; [by apply ret_Ok in Hi as [? _]|]. destruct (marshal_approval _); [|by apply throw_Ok in Hi].
  apply bind_Ok in Hi as (? & ? & _ & Hi). apply bind_Ok in Hi as (got & ? & _ & Hi).
  destruct got.2; [by apply ret_Ok in Hi as [? _]|]. apply bind_Ok in Hi as (? & ? & _ & Hi). by apply ret_Ok in Hi as [[= <-] _].
Qed.
(** C25: submitting, approving or rejecting a revision either fails and changes
    nothing, or answers a replay and changes nothing, or commits exactly its
    effect: the revision was in the expected state at the expected version and
    moves on; an approval supersedes every other approved revision, converges the
    bound tasks and points the definition at the revision; a rejection releases
    the tasks with its reason; one decision, one audit and one notification event
    are appended. *)
Theorem approval_exact c t w r w' :
  t ∈ [submit_transition; approve_transition; reject_transition] →
  runTransition c t w = (r, w') →
  match r with
  | Err _ => w_db w' = w_db w
  | Ok res => vac_Authorized c = true ∧
      if var_Replayed res then w_db w' = w_db w else transition_committed c t res (w_db w) (w_db w')
  end.
Proof.
  intros Ht H. unfold runTransition, ValuesLifecycle.transition in H. destruct (vac_Authorized c); simpl in H.
  - destruct r as [res|e]; [|by apply retry_loop_Err_db in H]. split; [done|].
    apply retry_loop_Ok in H as (w1 & <- & H). apply run_tx_Ok in H as [_ [H|(w2 & H & ->)]].
    + apply transition_tx_Commit in H; [|done]. destruct H as (x & m & H1 & H2 & H3 & He).
      destruct (te_result _ _ _ _ _ _ _ He) as (_ & _ & _ & _ & -> & _). by exists x, m.
    + apply transition_tx_Rollback in H as ->. done.
  - unfold retryBusy, retry_loop, throw in H. by injection H as <- <-.
Qed.

Lemma lifecycle_cases {A} keyHash (m : SM (outcome A)) load w r w' :
  (∀ w o w', load w = (o, w') → w_db w' = w_db w) →
  retryValuesLifecycle keyHash (run_tx m) load w = (r, w') →
  match r with
  | Err _ => w_db w' = w_db w
  | Ok a => (∃ w1, w_db w1 = w_db w ∧ m w1 = (Ok (Commit a), w')) ∨
            (w_db w' = w_db w ∧ ((∃ w1 w2, m w1 = (Ok (Rollback a), w2)) ∨ ∃ w1 w2, load w1 = (Ok (Some a), w2)))
  end.
Proof.
  intros Hl. unfold retryValuesLifecycle, catch. destruct (retryBusy (run_tx m) w) as [[a|e] w1] eqn:E.
  - intros [= <- <-]. apply retry_loop_Ok in E as (w2 & <- & E). apply run_tx_Ok in E as [_ [E|(w3 & E & ->)]].
    + left. by exists (attempt w2).
    + right. split; [done|]. left. by exists (attempt w2), w3.
  - apply retry_loop_Err_db in E. destruct (_ && _).
    + unfold bind. destruct (load w1) as [o w2] eqn:El. pose proof (Hl _ _ _ El) as Hdb.
      destruct o as [[a|]|e1]; intros [= <- <-]; [right|congruence..]. split; [congruence|]. right. by eexists _, _.
    + by intros [= <- <-].
Qed.
Lemma lookupCreate_replayed c x w w' : lookupCreateValuesReplay c w = (Ok (Some x), w') → cvr_Replayed x = true.
Proof.
  unfold lookupCreateValuesReplay. case_bool_decide as Hk; [by intros [? _]%ret_Ok|]. intros H. apply bind_Ok in H as (o & w1 & _ & H).
  destruct o as [ref|]; [|by apply ret_Ok in H as [? _]]. destruct (vl_Revision ref); [by apply ret_Ok in H as [[= <-] _]|].
  apply bind_Ok in H as (? & ? & _ & H). by apply ret_Ok in H as [[= <-] _].
Qed.
Lemma lookupDiscard_replayed c x w w' : lookupDiscardValuesReplay c w = (Ok (Some x), w') → dvr_Replayed x = true.
Proof.
  unfold lookupDiscardValuesReplay. case_bool_decide as Hk; [by intros [? _]%ret_Ok|]. intros H. apply bind_Ok in H as (o & w1 & _ & H).
  destruct o as [ref|]; [|by apply ret_Ok in H as [? _]].
  apply bind_Ok in H as (? & ? & _ & H). by apply ret_Ok in H as [[= <-] _].
Qed.
Lemma createDraft_tx_Rollback c r x w w' : createDraft_tx c r w = (Ok (Rollback x), w') → cvr_Replayed x = true.
Proof.
  intros H. unfold createDraft_tx in H. apply bind_Ok in H as (? & w1 & _ & H). apply bind_Ok in H as (o & w2 & Hl & H).
  destruct o as [y|]; [apply ret_Ok in H as [[= <-] _]; by eapply lookupCreate_replayed|].
  repeat (apply bind_Ok in H as (? & ? & _ & H)). by apply ret_Ok in H as [? _].
Qed.
Lemma discard_tx_Rollback c x w w' : discard_tx c w = (Ok (Rollback x), w') → dvr_Replayed x = true.
Proof.
  intros H. unfold discard_tx in H. apply bind_Ok in H as (? & w1 & _ & H). apply bind_Ok in H as (o & w2 & Hl & H).
  destruct o as [y|]; [apply ret_Ok in H as [[= <-] _]; by eapply lookupDiscard_replayed|].
  do 3 apply bind_Ok in H as (? & ? & _ & H). destruct (negb _); [apply bind_Ok in H as (? & ? & _ & H); by apply throw_Ok in H|].
  repeat (apply bind_Ok in H as (? & ? & _ & H)). by apply ret_Ok in H as [? _].
Qed.

(** C31: creating a draft either fails and changes nothing, or answers a replay
    and changes nothing, or commits exactly its effect: the next version of its
    definition on top of an existing parent, no other row with its id or version,
    and, with a prepare token, one session consumed and its tasks (pending,
    unbound, of this definition, free of path conflicts and with the expected
    path hash) bound to the draft. *)
Theorem draft_exact c w r w' :
  CreateDraft c w = (r, w') →
  match r with
  | Err _ => w_db w' = w_db w
  | Ok res => if cvr_Replayed res then w_db w' = w_db w
              else ∃ revision, cvc_Revision c = Some revision ∧ draft_effect c revision (cvr_Revision res) (w_db w) (w_db w')
  end.
Proof.
  unfold CreateDraft, createDraft. destruct (cvc_Revision c) as [rev|] eqn:Er.
  - intros H. apply lifecycle_cases in H; [|intros w0 o w1; apply lookupCreate_db]. destruct r as [res|e]; [|done].
    destruct H as [(w1 & <- & H)|(Hdb & [(w1 & w2 & H)|(w1 & w2 & H)])].
    + apply createDraft_tx_Commit in H as (x & -> & He). simpl. by exists rev.
    + apply createDraft_tx_Rollback in H as ->. done.
    + apply lookupCreate_replayed in H as ->. done.
  - unfold retryValuesLifecycle, catch, retryBusy, retry_loop, throw. simpl. by intros [= <- <-].
Qed.
(** Discarding a revision either fails and changes nothing, or answers a
    replay and changes nothing, or commits exactly its effect on the one draft
    with that id, at the expected version and created by the same user: it is
    discarded, its pending tasks are released, one decision and one audit event
    are appended. *)
Theorem discard_exact c w r w' :
  Discard c w = (r, w') →
  match r with
  | Err _ => w_db w' = w_db w
  | Ok res => if dvr_Replayed res then w_db w' = w_db w else discard_effect c res (w_db w) (w_db w')
  end.
Proof.
  unfold Discard, discard. intros H. apply lifecycle_cases in H; [|intros w0 o w1; apply lookupDiscard_db]. destruct r as [res|e]; [|done].
  destruct H as [(w1 & <- & H)|(Hdb & [(w1 & w2 & H)|(w1 & w2 & H)])].
  - apply discard_tx_Commit in H as He. destruct (xe_result _ _ _ _ He) as (_ & _ & _ & ->). done.
  - apply discard_tx_Rollback in H as ->. done.
  - apply lookupDiscard_replayed in H as ->. done.
Qed.

(** ** Witnesses: a draft bound to a task, submitted and approved. *)
Definition sample_session : PrepareSession :=
  {| ps_TokenHash := "tok"; ps_ActorUserID := "u"; ps_OrganizationID := "org"; ps_ReleaseDefinitionID := "d1";
     ps_ParentRevisionID := ""; ps_ParentVersion := 0; ps_TaskIDs := ["t1"]; ps_LockedPaths := ["/replicas"];
     ps_LockedPathHash := LockedPathHash ["/replicas"]; ps_ExpiresAt := 5000 * nsec; ps_ConsumedAt := None; ps_CreatedAt := nsec |}.
Definition draft_command (id token : string) (version : Z) : CreateValuesDraftCommand :=
  {| cvc_Revision := Some (sample_revision id (version + 1) ValuesStatusDraft); cvc_PrepareTokenHash := token;
     cvc_ExpectedParentVersion := version; cvc_ExpectedLockedPathHash := ""; cvc_ExpectedAuthorizationVersion := 0;
     cvc_ActorUserID := "u"; cvc_OrganizationID := "org"; cvc_RequestID := "q"; cvc_IdempotencyScope := "s";
     cvc_IdempotencyKeyHash := ""; cvc_RequestHash := "h"; cvc_IdempotencyExpiresAt := 0 |}.
Definition approval_command (id : string) (version : Z) : ValuesApprovalCommand :=
  {| vac_RevisionID := id; vac_ExpectedStateVersion := version; vac_ExpectedAuthorizationVersion := 0; vac_ActorUserID := "boss";
     vac_ActorOrgID := "org"; vac_ActorRole := "approver"; vac_Authorized := true; vac_Comment := Some "ok"; vac_Reason := "";
     vac_RequestID := "q"; vac_IdempotencyScope := "s"; vac_IdempotencyKeyHash := ""; vac_RequestHash := "h" |}.
Definition discard_command (id : string) (version : Z) : DiscardValuesCommand :=
  {| dvc_RevisionID := id; dvc_ExpectedStateVersion := version; dvc_ExpectedAuthorizationVersion := 0; dvc_ActorUserID := "u";
     dvc_ActorOrgID := "org"; dvc_ActorRole := "dev"; dvc_Comment := None; dvc_RequestID := "q"; dvc_IdempotencyScope := "s";
     dvc_IdempotencyKeyHash := ""; dvc_RequestHash := "h"; dvc_IdempotencyExpiresAt := 0 |}.
Definition values_world : World :=
  sample_world (set_prepare_sessions {[ "tok" := sample_session ]} (set_convergence_tasks [sample_task] (db_with_ops []))).
Definition drafted_world : World := (CreateDraft (draft_command "r1" "tok" 0) values_world).2.
Definition approved_world : World := (Approve (approval_command "r1" 2) (Submit (approval_command "r1" 1) drafted_world).2).2.

(** A state without revisions, whose tasks are unbound, has the invariant. *)
Lemma values_invariant_start db :
  db_values_revisions db = [] → db_values_revision_decisions db = [] → NoDup (ct_ID <$> db_convergence_tasks db) →
  (∀ t, t ∈ db_convergence_tasks db → ct_ActiveRevisionID t = None) →
  (∀ d x, db_release_definitions db !! d = Some x → rd_ApprovedRevisionID x = None) → values_invariant db.
Proof.
  intros Hrs Hds Hnd Hts Hdefs. unfold values_invariant. rewrite Hrs, Hds. constructor; try by intros * []%not_elem_of_nil.
  - constructor.
  - by intros s r1 r2 _ []%not_elem_of_nil.
  - intros d i. split; [|by intros (r & []%not_elem_of_nil & _)]. unfold pointer_of. intros (x & Hx & E)%fmap_Some_1.
    rewrite (Hdefs d x Hx) in E. done.
  - done.
  - intros t i Ht. by rewrite (Hts t Ht).
  - intros t1 t2 i1 i2 Ht _ _ _ _. by rewrite (Hts t1 Ht).
Qed.
Lemma values_world_invariant : values_invariant (w_db values_world).
Proof.
  apply values_invariant_start; [done|done|apply NoDup_singleton| |].
  - by intros t ->%list_elem_of_singleton.
  - intros d x Hx. change (({[ "d1" := sample_definition "d1"; "d2" := sample_definition "d2" ]} : gmap string ReleaseDefinition) !! d = Some x) in Hx.
    by apply lookup_insert_Some in Hx as [[_ <-]|[_ [_ <-]%lookup_singleton_Some]].
Qed.
Lemma named_sample id token version : id ≠ "" → named_draft (draft_command id token version).
Proof. by intros ? r [= <-]. Qed.
Lemma approved_reachable : values_reachable values_world approved_world.
Proof.
  eapply rtc_l; [apply (vs_create_draft _ (draft_command "r1" "tok" 0)); by apply named_sample|].
  eapply rtc_l; [apply (vs_submit _ (approval_command "r1" 1))|]. apply rtc_once, (vs_approve _ (approval_command "r1" 2)).
Qed.
Lemma values_approval_invariant_witness :
  pointer_of (db_release_definitions (w_db approved_world)) "d1" = Some (Some "r1") ∧
  ∃ r, r ∈ db_values_revisions (w_db approved_world) ∧ vr_ID r = "r1" ∧ vr_Status r = ValuesStatusApproved.
Proof.
  destruct (values_approval_invariant values_world approved_world values_world_invariant approved_reachable) as (_ & Hp & _).
  assert (H : pointer_of (db_release_definitions (w_db approved_world)) "d1" = Some (Some "r1")) by (vm_compute; reflexivity).
  split; [exact H|]. apply Hp in H as (r & Hr & Hid & _ & Hst). exists r. split; [exact Hr|]. split; [exact Hid|exact Hst].
Defined.
Lemma convergence_binding_invariant_witness :
  ∃ t r, db_convergence_tasks (w_db approved_world) = [t] ∧ ct_Status t = Converged ∧ r ∈ db_values_revisions (w_db approved_world) ∧
    vr_ID r = "r1" ∧ live_binding t r.
Proof.
  destruct (convergence_binding_invariant values_world approved_world values_world_invariant approved_reachable) as (Hb & _).
  destruct (db_convergence_tasks (w_db approved_world)) as [|t l] eqn:E; [vm_compute in E; discriminate E|].
  destruct (Hb t "r1") as (r & Hr & Hid & _ & Hl); [left|vm_compute in E; injection E as <- _; reflexivity|].
  assert (l = []) as -> by (vm_compute in E; injection E as _ <-; reflexivity).
  exists t, r. split; [reflexivity|]. split; [vm_compute in E; injection E as <-; reflexivity|]. split; [exact Hr|]. split; [exact Hid|exact Hl].
Defined.
Lemma approval_exact_witness :
  ∃ res w', runTransition (approval_command "r1" 1) submit_transition drafted_world = (Ok res, w') ∧
    transition_committed (approval_command "r1" 1) submit_transition res (w_db drafted_world) (w_db w').
Proof.
  destruct (runTransition (approval_command "r1" 1) submit_transition drafted_world) as [[res|e] w'] eqn:E; [|vm_compute in E; discriminate E].
  pose proof (approval_exact _ _ _ _ _ ltac:(left) E) as [_ H].
  assert (Hr : var_Replayed res = false) by (vm_compute in E; injection E as <- _; reflexivity). rewrite Hr in H.
  exists res, w'. split; [reflexivity|exact H].
Defined.
Lemma draft_exact_witness :
  ∃ res w' r, CreateDraft (draft_command "r1" "tok" 0) values_world = (Ok res, w') ∧
    draft_effect (draft_command "r1" "tok" 0) r (cvr_Revision res) (w_db values_world) (w_db w').
Proof.
  destruct (CreateDraft (draft_command "r1" "tok" 0) values_world) as [[res|e] w'] eqn:E; [|vm_compute in E; discriminate E].
  pose proof (draft_exact _ _ _ _ E) as H. simpl in H.
  assert (Hr : cvr_Replayed res = false) by (vm_compute in E; injection E as <- _; reflexivity). rewrite Hr in H.
  destruct H as (r & _ & H). exists res, w', r. split; [reflexivity|exact H].
Defined.
Lemma discard_exact_witness :
  ∃ res w', Discard (discard_command "r1" 1) drafted_world = (Ok res, w') ∧
    discard_effect (discard_command "r1" 1) res (w_db drafted_world) (w_db w').
Proof.
  destruct (Discard (discard_command "r1" 1) drafted_world) as [[res|e] w'] eqn:E; [|vm_compute in E; discriminate E].
  pose proof (discard_exact _ _ _ _ E) as H. simpl in H.
  assert (Hr : dvr_Replayed res = false) by (vm_compute in E; injection E as <- _; reflexivity). rewrite Hr in H.
  exists res, w'. split; [reflexivity|exact H].
Defined.
