(* ===== verification/EmergencyService.v ===== *)
(** * The EMERGENCY service (internal/orchestrator: emergency.go,
    emergency_stuck.go; the emergency channel of internal/operator/service.go)

    A request for an EMERGENCY change passes the kill switch, the definition, its
    customer, the resolution of the change (replicas, approved annotations or a
    trusted image), the authoritative identity of the workload, the authorizer, the
    replay lookup and the locked paths before one transaction creates operation,
    intent and convergence task; only then is the command put on the operator's
    stream.  The handlers are programs of calls ([svc]) over the tables, the trust
    roots, the inventory and artifacts this service only reads, and the streams;
    the operator that gets the command is looked up in the tables of [Operators]. *)
From S2P Require Import Prelude Utf8 Json Hash Trust System Delivery.
From S2P Require Import Domain Database OperationStore EmergencyStore Creation RateLimit.
From S2P Require Import Program AuthStore Policy ProcedurePolicy Sessions Authn Authorization Operators.
From Stdlib Require Import Ascii.
From stdpp Require Import pretty.
#[local] Open Scope Z_scope.

(** ** The request *)
Record ExecuteEmergencyChangeRequest := {
  eq_ReleaseDefinitionId : string; eq_WorkloadRef : string; eq_Container : string; eq_OperationVersion : string;
  eq_ArtifactRef : string; eq_ConvergenceStrategy : Z; eq_TargetLocks : list string; eq_IdempotencyKey : string; eq_RequestHash : string;
  eq_SetReplicas : Z; eq_Annotations : list (string * string); eq_AnnotationScope : string; eq_Reason : string;
}.
(** The enum is open: a message can carry any number. *)
Definition CONVERGENCE_STRATEGY_UNSPECIFIED : Z := 0.
Definition REVERT_ON_NEXT_RECONCILE : Z := 1.
Definition REQUIRE_PROMOTION : Z := 2.
Definition emergencyError (c : code) (reason message : string) : connect_error :=
  {| ce_code := c; ce_message := message; ce_meta := [("X-Reason-Code", reason)] |}.
(** [emergencyDetailError]: the typed detail repeats reason and message; it is left out. *)
Definition emergencyDetailError (c : code) (reason message : string) : connect_error := emergencyError c reason message.

Fixpoint split_slash (l : bytes) (acc : bytes) : list string :=
  match l with
  | [] => [String.string_of_list_ascii (rev acc)]
  | c :: l => if bool_decide (c = "/"%char) then String.string_of_list_ascii (rev acc) :: split_slash l [] else split_slash l (c :: acc)
  end.
Definition workloadDeployment : string := "DEPLOYMENT".
Definition workloadStatefulSet : string := "STATEFUL_SET".
Definition workloadDaemonSet : string := "DAEMON_SET".
Definition workloadGVRResources (resource : string) : option string :=
  if bool_decide (resource = "deployments") then Some workloadDeployment
  else if bool_decide (resource = "statefulsets") then Some workloadStatefulSet
  else if bool_decide (resource = "daemonsets") then Some workloadDaemonSet else None.
Record parsedWorkloadRef := { pw_Kind : string; pw_Namespace : string; pw_Name : string }.
Definition parseWorkloadRef (value : string) : option parsedWorkloadRef :=
  match split_slash (str (TrimSpace value)) [] with
  | [resource; namespace; name] =>
      match workloadGVRResources resource with
      | Some kind =>
          if bool_decide (namespace = "") || bool_decide (name = "") then None
          else Some {| pw_Kind := kind; pw_Namespace := namespace; pw_Name := name |}
      | None => None
      end
  | _ => None
  end.
(** [^v?\d+\.\d+\.\d+$] *)
Definition is_digit (c : ascii) : bool := ((48 <=? ascii_code c) && (ascii_code c <=? 57))%Z.
Fixpoint digits (l : bytes) : bytes := match l with c :: l' => if is_digit c then digits l' else l | [] => [] end.
Definition some_digits (l : bytes) (k : bytes → bool) : bool :=
  match l with c :: l' => is_digit c && k (digits l') | [] => false end.
Definition dot (l : bytes) (k : bytes → bool) : bool :=
  match l with c :: l' => bool_decide (c = "."%char) && k l' | [] => false end.
Definition operationVersionPattern (s : string) : bool :=
  let l := match str s with c :: l' => if bool_decide (c = "v"%char) then l' else str s | [] => [] end in
  some_digits l (λ l, dot l (λ l, some_digits l (λ l, dot l (λ l, some_digits l (λ l, bool_decide (l = [])))))).
Example version_pattern :
  operationVersionPattern "v1.20.3" = true ∧ operationVersionPattern "1.0.0" = true ∧ operationVersionPattern "vv1.0.0" = false ∧
  operationVersionPattern "1.0" = false ∧ operationVersionPattern "1.0.0a" = false ∧ operationVersionPattern ".1.0" = false.
Proof. vm_compute. done. Qed.
Definition emergencyReasonMaxBytes : nat := 1000.
Definition forbidden_rune (r : Z) : bool := (r =? 0) || (r =? 65534) || (r =? 65535).
Definition validateEmergencyReason (raw : string) : option connect_error :=
  let reason := TrimSpace raw in
  if (String.length reason <? 1)%nat || (emergencyReasonMaxBytes <? String.length reason)%nat
  then Some (emergencyError CodeInvalidArgument "invalid_reason" "reason must contain 1 to 1000 UTF-8 bytes")
  else if existsb forbidden_rune (runes reason)
  then Some (emergencyError CodeInvalidArgument "invalid_reason" "reason contains forbidden characters")
  else None.
Definition deriveRequestedEmergencyAction (msg : ExecuteEmergencyChangeRequest) : EmergencyAction :=
  if negb (eq_SetReplicas msg =? 0) then EmergencySetReplicas else EmergencySetContainerImage.
Definition requestCarriesAnnotations (msg : ExecuteEmergencyChangeRequest) : bool :=
  negb (bool_decide (eq_Annotations msg = [])) || negb (bool_decide (TrimSpace (eq_AnnotationScope msg) = "")).
Definition validateEmergencyBranchExclusivity (msg : ExecuteEmergencyChangeRequest) : option connect_error :=
  let hasContainer := negb (bool_decide (TrimSpace (eq_Container msg) = "")) in
  let hasArtifact := negb (bool_decide (TrimSpace (eq_ArtifactRef msg) = "")) in
  if bool_decide (deriveRequestedEmergencyAction msg = EmergencySetReplicas) then
    if hasContainer || hasArtifact
    then Some (emergencyError CodeInvalidArgument "conflicting_change" "set_replicas is mutually exclusive with container/artifact_ref")
    else None
  else if requestCarriesAnnotations msg then
    if hasArtifact || hasContainer
    then Some (emergencyError CodeInvalidArgument "conflicting_change" "annotations are mutually exclusive with container/artifact_ref")
    else None
  else if negb hasArtifact then Some (emergencyError CodeInvalidArgument "artifact_ref_required" "artifact_ref is required")
  else None.
Definition validateExecuteEmergencyRequest (msg : ExecuteEmergencyChangeRequest) : option connect_error :=
  let invalid reason message := Some (emergencyError CodeInvalidArgument reason message) in
  if bool_decide (TrimSpace (eq_ReleaseDefinitionId msg) = "") then invalid "release_definition_id_required" "release_definition_id is required"
  else if bool_decide (parseWorkloadRef (eq_WorkloadRef msg) = None) then invalid "invalid_workload_ref" "workload_ref is invalid"
  else if bool_decide (TrimSpace (eq_IdempotencyKey msg) = "") then invalid "idempotency_key_required" "idempotency_key is required"
  else match validateEmergencyReason (eq_Reason msg) with
  | Some e => Some e
  | None =>
  if eq_ConvergenceStrategy msg =? CONVERGENCE_STRATEGY_UNSPECIFIED
  then invalid "convergence_strategy_required" "convergence strategy is required"
  else match validateEmergencyBranchExclusivity msg with
  | Some e => Some e
  | None =>
  if (eq_ConvergenceStrategy msg =? REQUIRE_PROMOTION) && bool_decide (eq_TargetLocks msg = [])
  then invalid "target_locks_required" "target_locks are required for REQUIRE_PROMOTION"
  else if negb (bool_decide (eq_OperationVersion msg = "")) && negb (operationVersionPattern (TrimSpace (eq_OperationVersion msg)))
  then Some (emergencyDetailError CodeInvalidArgument "VERSION_INVALID" "operation_version is invalid")
  else None
  end end.
Definition convergenceStrategyFromProto (value : Z) : EmergencyConvergence :=
  if value =? REVERT_ON_NEXT_RECONCILE then EmergencyRevertOnNextReconcile else EmergencyRequirePromotion.

(** ** What the request asks for *)
Record emergencyResolvedChange := {
  rs_action : EmergencyAction; rs_workload : parsedWorkloadRef; rs_container : string; rs_artifactID : string;
  rs_imageReference : string; rs_replicas : option Z; rs_annotations : list (string * string); rs_annotationScope : string;
  rs_promotionPaths : list string; rs_targetSummary : string;
}.
Definition emergencyPromotionPathsForRef (definition : ReleaseDefinition) (workload : parsedWorkloadRef) (container field : string)
    : list string :=
  pm_ValuesPath <$> filter (λ m,
    (key_matches (pm_WorkloadKind m) (pw_Kind workload) && bool_decide (pm_WorkloadName m = pw_Name workload)
     && bool_decide (pm_Field m = field) && bool_decide (pm_Container m = container) && negb (bool_decide (pm_ValuesPath m = ""))) = true)
    (rd_PromotionMappings definition).
Definition summary (workload : parsedWorkloadRef) (rest : string) : string := pw_Kind workload ++ "/" ++ pw_Name workload ++ rest.
Definition resolveEmergencyReplicas (msg : ExecuteEmergencyChangeRequest) (definition : ReleaseDefinition) (workload : parsedWorkloadRef)
    : res connect_error emergencyResolvedChange :=
  if negb (bool_decide (pw_Kind workload = workloadDeployment)) && negb (bool_decide (pw_Kind workload = workloadStatefulSet))
  then Err (emergencyError CodeInvalidArgument "workload_kind_not_supported" "workload kind does not support replicas changes")
  else if rd_HPAManaged definition
  then Err (emergencyError CodeFailedPrecondition "hpa_managed" "replicas changes are disabled for HPA-managed workloads")
  else if (eq_SetReplicas msg <? 0) || (rd_MaxEmergencyReplicas definition <? eq_SetReplicas msg)
  then Err (emergencyError CodeInvalidArgument "invalid_replicas" "replicas is outside the allowed range")
  else
    let paths := emergencyPromotionPathsForRef definition workload "" "replicas" in
    if (eq_ConvergenceStrategy msg =? REQUIRE_PROMOTION) && bool_decide (paths = [])
    then Err (emergencyError CodeFailedPrecondition "promotion_not_supported" "target has no promotion mapping")
    else Ok {| rs_action := EmergencySetReplicas; rs_workload := workload; rs_container := ""; rs_artifactID := ""; rs_imageReference := "";
               rs_replicas := Some (eq_SetReplicas msg); rs_annotations := []; rs_annotationScope := ""; rs_promotionPaths := paths;
               rs_targetSummary := summary workload (", replicas=" ++ pretty (eq_SetReplicas msg)) |}.
Definition emergencyMaxAnnotations : nat := 50.
Definition emergencyMaxAnnotationValueBytes : nat := 2048.
(** The map of approved keys: the last entry of a key counts. *)
Definition approved_key (definition : ReleaseDefinition) (key : string) : option ApprovedAnnotationKey :=
  find_row (λ a, bool_decide (aak_Key a = key)) (rev (rd_ApprovedAnnotationKeys definition)).
(** The entries accepted so far, their keys, their lock paths. *)
Fixpoint check_annotations (definition : ReleaseDefinition) (scope : string) (seen : list string) (entries : list (string * string))
    : res connect_error (list (string * string) * list string) :=
  match entries with
  | [] => Ok ([], [])
  | (rawKey, value) :: entries =>
      let invalid reason message := Err (emergencyError CodeInvalidArgument reason message) in
      let key := TrimSpace rawKey in
      if bool_decide (key = "") then invalid "invalid_annotation_entries" "annotation key must not be empty"
      else if bool_decide (key ∈ seen) then invalid "duplicate_annotation_key" "annotation key appears more than once"
      else match approved_key definition key with
      | None => invalid "annotation_key_not_allowed" "annotation key is not on the approved whitelist"
      | Some allowed =>
          if negb (bool_decide (aak_Scope allowed = scope)) then invalid "annotation_scope_mismatch" "annotation key is approved for another scope"
          else if bool_decide (value = "") || (emergencyMaxAnnotationValueBytes <? String.length value)%nat
          then invalid "invalid_annotation_entries" "annotation value must be 1..2048 UTF-8 bytes"
          else
            match check_annotations definition scope (key :: seen) entries with
            | Err e => Err e
            | Ok (accepted, paths) =>
                let lockPath := if bool_decide (aak_PromotionValuesPath allowed = "") then ("annotations/" ++ scope ++ "/" ++ key)%string
                                else aak_PromotionValuesPath allowed in
                Ok ((key, value) :: accepted, lockPath :: paths)
            end
      end
  end.
Definition path_le (a b : string) : Prop := string_leb a b = true.
#[export] Instance path_le_dec a b : Decision (path_le a b) := decide (string_leb a b = true).
Definition resolveEmergencyAnnotations (msg : ExecuteEmergencyChangeRequest) (definition : ReleaseDefinition) (workload : parsedWorkloadRef)
    : res connect_error emergencyResolvedChange :=
  let invalid message := Err (emergencyError CodeInvalidArgument "invalid_annotation_entries" message) in
  let scope := TrimSpace (eq_AnnotationScope msg) in
  if bool_decide (scope = "") then invalid "annotation_scope is required"
  else if bool_decide (eq_Annotations msg = []) then invalid "annotations must not be empty"
  else if (emergencyMaxAnnotations <? length (eq_Annotations msg))%nat then invalid "at most 50 annotations are allowed"
  else match check_annotations definition scope [] (eq_Annotations msg) with
  | Err e => Err e
  | Ok (entries, paths) =>
      Ok {| rs_action := EmergencySetApprovedAnnotations; rs_workload := workload; rs_container := ""; rs_artifactID := "";
            rs_imageReference := ""; rs_replicas := None; rs_annotations := entries; rs_annotationScope := scope;
            rs_promotionPaths := merge_sort path_le paths;
            rs_targetSummary := summary workload (", annotations=" ++ pretty (Z.of_nat (length entries)) ++ ", scope=" ++ scope) |}
  end.

(** ** The rows of the fleet this service reads, and the streams *)
Record WorkloadIdentity := { wi_Kind : string; wi_Name : string; wi_Namespace : string; wi_UID : string }.
Inductive ArtifactType : Type := ArtifactImage | ArtifactChart | ArtifactSBOM | ArtifactProvenance | ArtifactSignature.
#[export] Instance ArtifactType_eq_dec : EqDecision ArtifactType.
Proof. solve_decision. Defined.
Record CandidateArtifact := {
  va_ID : string; va_ArtifactType : ArtifactType; va_Ref : string; va_Digest : string; va_ValidatedAt : option time;
}.
(** release_inventory by definition, candidate_artifacts, bundle_candidate_artifacts
    and the digests of release_bundles. *)
Record Fleet := {
  fl_identities : gmap string WorkloadIdentity;
  fl_artifacts : gmap string CandidateArtifact; fl_links : list (string * string); fl_bundles : gmap string (string * string);
}.
Inductive emergency_change : Type :=
| NoChange
| SetContainerImage (container imageReference : string)
| SetReplicas (replicas : Z)
| SetApprovedAnnotations (entries : list (string * string)) (scope : string).
Record EmergencyCommand := {
  mc_CommandId : string; mc_OperationId : string; mc_Action : EmergencyAction; mc_WorkloadKind : string; mc_WorkloadName : string;
  mc_WorkloadNamespace : string; mc_WorkloadUid : string; mc_Change : emergency_change;
}.
Definition decode_entry (j : json) : option (string * string) :=
  match j with
  | JObj fields => key ← decode_string_field "Key" fields ""; value ← decode_string_field "Value" fields ""; Some (key, value)
  | JNull => Some ("", "")
  | _ => None
  end.
(** A column that does not decode gives no entries. *)
Definition emergencyCommandFromIntent (i : EmergencyIntent) : EmergencyCommand :=
  {| mc_CommandId := ei_CommandID i; mc_OperationId := ei_OperationID i; mc_Action := ei_Action i; mc_WorkloadKind := ei_WorkloadKind i;
     mc_WorkloadName := ei_WorkloadName i; mc_WorkloadNamespace := ei_WorkloadNamespace i; mc_WorkloadUid := ei_WorkloadUID i;
     mc_Change := match ei_Action i with
       | EmergencySetContainerImage => SetContainerImage (default "" (ei_Container i)) (default "" (ei_ImageReference i))
       | EmergencySetReplicas => SetReplicas (default 0 (ei_TargetReplicas i))
       | EmergencySetApprovedAnnotations =>
           SetApprovedAnnotations (default [] (decode_slice decode_entry (ei_AnnotationEntries i))) (default "" (ei_AnnotationScope i))
       | _ => NoChange
       end |}.
(** The process: the tables with everything the authorizer needs ([cn_host]), the
    trust roots, the fleet, the channels of the command streams and, for each
    operator, the channel that [emergencyStreams] holds: an index. *)
Record Control (T : Type) := {
  cn_host : T; cn_trust : TrustDB; cn_fleet : Fleet; cn_channels : list (list EmergencyCommand);
  cn_emergencyStreams : gmap string nat;
}.
Arguments cn_host {T}. Arguments cn_trust {T}. Arguments cn_fleet {T}. Arguments cn_channels {T}. Arguments cn_emergencyStreams {T}.

Section service.
Context {T : Type} `{Host T}.
Abbreviation S := (Control T).
Definition put_cn_host (t : T) (c : S) : S :=
  {| cn_host := t; cn_trust := cn_trust c; cn_fleet := cn_fleet c; cn_channels := cn_channels c;
     cn_emergencyStreams := cn_emergencyStreams c |}.
Definition put_streams (channels : list (list EmergencyCommand)) (streams : gmap string nat) (c : S) : S :=
  {| cn_host := cn_host c; cn_trust := cn_trust c; cn_fleet := cn_fleet c; cn_channels := channels; cn_emergencyStreams := streams |}.
#[export] Instance control_host : Host S :=
  {| node_of c := node_of (cn_host c); set_node n c := put_cn_host (set_node n (cn_host c)) c; node_of_set n c := node_of_set n (cn_host c) |}.
Abbreviation csvc := (svc S error).
Abbreviation rpc A := (csvc (res connect_error A)).
Definition on_trust {A} (f : TrustDB → res trust_error A) : M S error A := λ c,
  (match f (cn_trust c) with
   | Ok a => Ok a
   | Err Trust.ErrNotFound => Err ErrNotFound
   | Err _ => Err (ErrOther "trust store")
   end, c).
Definition on_fleet {A} (f : Fleet → option A) : M S error A := λ c,
  (match f (cn_fleet c) with Some a => Ok a | None => Err ErrNotFound end, c).
(** The authorizer of the service, the environment of the trust roots, the age at
    which a heartbeat is stale (0: never), [protojson.Marshal] of the request. *)
Context (authorize : authctx_Actor → string → string → AuthorizationAction → svc T error (res connect_error Z)).
Context (targetEnv : string) (SessionOfflineAfter : Z) (protojson_Marshal : ExecuteEmergencyChangeRequest → option string).
Definition AuthorizeWrite (actor : authctx_Actor) (credential customerID : string) (action : AuthorizationAction) : rpc Z :=
  svc_lift cn_host put_cn_host (authorize actor credential customerID action).

(** ** Trust of an image *)
Definition verdictRootIsLive (liveRoots : list Root) (verdict : VerificationRecord) : bool :=
  existsb (λ root,
    (negb (bool_decide (ve_RootID verdict = "")) && bool_decide (tr_ID root = ve_RootID verdict))
    || (bool_decide (ve_RootID verdict = "") && negb (bool_decide (ve_KeyID verdict = "")) && bool_decide (tr_KeyID root = ve_KeyID verdict)))
    liveRoots.
Definition BundlesForArtifact (artifactID : string) (f : Fleet) : list string :=
  merge_sort path_le (snd <$> filter (λ l, l.1 = artifactID) (fl_links f)).
Definition bundle_digest (b : string * string) : string := if bool_decide (b.1 = "") then b.2 else b.1 ++ ":" ++ b.2.
(** The first trusted verdict of the bundles, or else the first verdict. *)
Fixpoint bundle_verdicts (policy : string) (bundleIDs : list string) (untrusted : option VerificationRecord)
    : csvc (res error (option VerificationRecord)) :=
  match bundleIDs with
  | [] => Done (Ok untrusted)
  | bundleID :: bundleIDs =>
      svc_bind (once (on_fleet (λ f, fl_bundles f !! bundleID))) (λ r,
        match r with
        | Err ErrNotFound => bundle_verdicts policy bundleIDs untrusted
        | Err e => failed e
        | Ok bundle =>
            svc_bind (once (on_trust (GetLatestVerdictByDigestAndPolicy (bundle_digest bundle) policy))) (λ r,
              match r with
              | Err ErrNotFound => bundle_verdicts policy bundleIDs untrusted
              | Err e => failed e
              | Ok record =>
                  if bool_decide (ve_Status record = VerificationTrusted) then Done (Ok (Some record))
                  else bundle_verdicts policy bundleIDs (match untrusted with None => Some record | _ => untrusted end)
              end)
        end)
  end.
Definition trustedVerificationForArtifact (artifact : CandidateArtifact) (policy : string) : csvc (res error (option VerificationRecord)) :=
  svc_bind (once (on_trust (GetLatestVerdictByDigestAndPolicy (va_Digest artifact) policy))) (λ r,
    match r with
    | Ok own => Done (Ok (Some own))
    | Err ErrNotFound =>
        let* bundleIDs := on_fleet (λ f, Some (BundlesForArtifact (va_ID artifact) f)) fails failed in
        bundle_verdicts policy bundleIDs None
    | Err e => failed e
    end).
Definition trim_colon (s : string) : string := if has_suffix ":" s then String.substring 0 (String.length s - 1) s else s.
(** The artifact with the reference to pull: pinned to the digest. *)
Definition pinned (a : CandidateArtifact) : CandidateArtifact :=
  if contains_text "@sha256:" (va_Ref a) then a
  else {| va_ID := va_ID a; va_ArtifactType := va_ArtifactType a; va_Ref := trim_colon (va_Ref a) ++ "@" ++ va_Digest a;
          va_Digest := va_Digest a; va_ValidatedAt := va_ValidatedAt a |}.
Definition resolveEmergencyArtifact (artifactID : string) : rpc CandidateArtifact :=
  let untrusted message := Done (Err (emergencyError CodeFailedPrecondition "artifact_not_trusted" message)) in
  svc_bind (once (on_fleet (λ f, fl_artifacts f !! TrimSpace artifactID))) (λ r,
    match r with
    | Err ErrNotFound => Done (Err (emergencyDetailError CodeNotFound "ARTIFACT_NOT_FOUND" "candidate artifact not found"))
    | Err _ => refuse CodeInternal "load emergency artifact"
    | Ok artifact =>
        if negb (bool_decide (va_ArtifactType artifact = ArtifactImage)) || bool_decide (va_ValidatedAt artifact = None)
        then Done (Err (emergencyDetailError CodeNotFound "NO_CANDIDATE_ARTIFACT" "candidate artifact is not validated"))
        else
          let* meta := on_trust (λ td, Ok (GetPolicy targetEnv td)) fails internal "load trust policy metadata" in
          svc_bind (trustedVerificationForArtifact artifact (PolicyVersion (tp_Version meta))) (λ r,
            match r with
            | Ok (Some verification) =>
                if negb (bool_decide (ve_Status verification = VerificationTrusted)) then untrusted "candidate artifact is not trusted"
                else if ve_RevocationEpoch verification <? tp_RevocationEpoch meta
                then untrusted "candidate artifact verification is revoked"
                else
                  let* t := here now fails internal "clock" in
                  let* liveRoots := on_trust (λ td, Ok (GetActiveByEnvironment targetEnv t td)) fails internal "load live trust roots" in
                  if negb (verdictRootIsLive liveRoots verification)
                  then untrusted "candidate artifact verification root is no longer live"
                  else Done (Ok (pinned artifact))
            | _ => untrusted "candidate artifact is not trusted"
            end)
    end).
Definition resolveEmergencyImage (msg : ExecuteEmergencyChangeRequest) (definition : ReleaseDefinition) (workload : parsedWorkloadRef)
    : rpc emergencyResolvedChange :=
  and_then (resolveEmergencyArtifact (eq_ArtifactRef msg)) (λ artifact,
    let container := TrimSpace (eq_Container msg) in
    if bool_decide (container = "") then Done (Err (emergencyError CodeInvalidArgument "container_required" "container is required for the image change"))
    else
      let paths := emergencyPromotionPathsForRef definition workload container "image_digest" in
      if (eq_ConvergenceStrategy msg =? REQUIRE_PROMOTION) && bool_decide (paths = [])
      then Done (Err (emergencyError CodeFailedPrecondition "promotion_not_supported" "target has no promotion mapping"))
      else Done (Ok {| rs_action := EmergencySetContainerImage; rs_workload := workload; rs_container := container;
                       rs_artifactID := va_ID artifact; rs_imageReference := va_Ref artifact; rs_replicas := None; rs_annotations := [];
                       rs_annotationScope := ""; rs_promotionPaths := paths;
                       rs_targetSummary := summary workload (", container=" ++ container) |})).
Definition resolveExecuteEmergencyChange (msg : ExecuteEmergencyChangeRequest) (definition : ReleaseDefinition) : rpc emergencyResolvedChange :=
  match parseWorkloadRef (eq_WorkloadRef msg) with
  | None => Done (Err (emergencyError CodeInvalidArgument "invalid_workload_ref" "workload_ref is invalid"))
  | Some workload =>
      if bool_decide (deriveRequestedEmergencyAction msg = EmergencySetReplicas) then Done (resolveEmergencyReplicas msg definition workload)
      else if requestCarriesAnnotations msg then Done (resolveEmergencyAnnotations msg definition workload)
      else resolveEmergencyImage msg definition workload
  end.
Definition known_kind (kind : string) : bool := bool_decide (kind ∈ [workloadDeployment; workloadStatefulSet; workloadDaemonSet]).
Definition resolveEmergencyWorkloadIdentity (definition : ReleaseDefinition) (workload : parsedWorkloadRef) : rpc WorkloadIdentity :=
  let invalid message := Done (Err (emergencyError CodeInvalidArgument "invalid_workload_ref" message)) in
  svc_bind (once (on_fleet (λ f, fl_identities f !! rd_ID definition))) (λ r,
    match r with
    | Err ErrNotFound => invalid "workload identity is unavailable: no inventory snapshot for the release definition"
    | Err _ => refuse CodeInternal "load workload identity"
    | Ok identity =>
        if bool_decide (wi_Kind identity = "") || bool_decide (wi_Name identity = "") || bool_decide (wi_Namespace identity = "")
           || bool_decide (wi_UID identity = "")
        then invalid "workload identity is unavailable: the operator has not reported it yet"
        else if negb (known_kind (wi_Kind identity)) then invalid "workload identity is unparseable: unsupported workload kind"
        else if negb (bool_decide (wi_Kind identity = pw_Kind workload)) || negb (bool_decide (wi_Name identity = pw_Name workload))
                || negb (bool_decide (wi_Namespace identity = pw_Namespace workload))
        then invalid "workload identity does not match the requested workload_ref"
        else Done (Ok identity)
    end).
Definition loadEmergencyDefinition (definitionID : string) : rpc ReleaseDefinition :=
  svc_bind (once (here (Get_definition definitionID))) (λ r,
    match r with
    | Err ErrNotFound => Done (Err (emergencyError CodeNotFound "definition_not_found" "release definition not found"))
    | Err _ => refuse CodeInternal "load emergency definition"
    | Ok definition =>
        if negb (bool_decide (rd_Status definition = DefStatusActive))
        then Done (Err (emergencyError CodeFailedPrecondition "release_definition_disabled" "release definition is disabled"))
        else Done (Ok definition)
    end).

(** ** Delivery to the operator *)
Definition operator_offline : connect_error := emergencyError CodeUnavailable "operator_offline" "operator is offline".
Definition onlineEmergencyOperator (definition : ReleaseDefinition) : rpc string :=
  let offline := Done (Err operator_offline) in
  let* operator := here (GetByClusterID (rd_ClusterID definition)) fails (λ _, offline) in
  if negb (bool_decide (o_CustomerID operator = rd_CustomerID definition)) || negb (bool_decide (o_Status operator = OperatorActive)) then offline
  else
    let* session := here (GetActiveByOperator (o_ID operator)) fails (λ _, offline) in
    if negb (bool_decide (sn_Status session = SessionOnline)) then offline
    else if 0 <? SessionOfflineAfter then
      let* t := here now fails (λ _, offline) in
      if SessionOfflineAfter <? t - sn_LastHeartbeat session then offline else Done (Ok (o_ID operator))
    else Done (Ok (o_ID operator)).
(** ** The emergency channel of a command stream (operator/service.go)

    A send on a channel that holds eight commands blocks until the context ends. *)
Definition emergencyCh_size : nat := 8.
Definition DispatchEmergency (operatorID : string) (command : EmergencyCommand) : M S error unit := λ c,
  if bool_decide (operatorID = "") || bool_decide (mc_CommandId command = "")
  then (Err (ErrOther "operator_id and emergency command are required"), c)
  else match cn_emergencyStreams c !! operatorID with
       | None => (Err (ErrOther "operator stream is offline"), c)
       | Some delivery =>
           match cn_channels c !! delivery with
           | Some queue =>
               if (length queue <? emergencyCh_size)%nat
               then (Ok tt, put_streams (<[delivery := queue ++ [command]]> (cn_channels c)) (cn_emergencyStreams c) c)
               else (Err (ErrOther "context canceled"), c)
           | None => (Err (ErrOther "context canceled"), c)
           end
       end.
(** CommandStream makes a channel and enters it, and removes the entry when it ends. *)
Definition open_stream (operatorID : string) : M S error nat := λ c,
  (Ok (length (cn_channels c)),
   put_streams (cn_channels c ++ [[]]) (<[operatorID := length (cn_channels c)]> (cn_emergencyStreams c)) c).
Definition close_stream (operatorID : string) : M S error unit := λ c,
  (Ok tt, put_streams (cn_channels c) (delete operatorID (cn_emergencyStreams c)) c).
Definition take_command (emergencyCh : nat) : M S error EmergencyCommand := λ c,
  match cn_channels c !! emergencyCh with
  | Some (command :: queue) => (Ok command, put_streams (<[emergencyCh := queue]> (cn_channels c)) (cn_emergencyStreams c) c)
  | _ => (Err (ErrOther "no command"), c)
  end.
(** One turn of the loop: the command is sent and its intent marked delivered. *)
Definition stream_command (emergencyCh : nat) : csvc (option EmergencyCommand) :=
  let* command := take_command emergencyCh fails (λ _, Done None) in
  let* intent := here (GetByCommandID_intent (mc_CommandId command)) fails (λ _, Done (Some command)) in
  let* _ := here (UpdateDeliveryStatus (ei_ID intent) "delivered") fails (λ _, Done (Some command)) in
  Done (Some command).

(** ** ExecuteEmergencyChange *)
Record EmergencyResponse := {
  eo_OperationId : string; eo_OperationVersion : string; eo_ConvergencePolicy : EmergencyConvergence;
  eo_ConvergenceTask : option (string * ConvergenceStatus);
}.
Definition operationVersionFromStateVersion (stateVersion : Z) : string :=
  ("v" ++ pretty (if (stateVersion <? 1)%Z then 1%Z else stateVersion) ++ ".0.0")%string.
Definition executeEmergencyResponse (op : Operation) (intent : option EmergencyIntent) (task : option ConvergenceTask) (strategy : Z)
    : EmergencyResponse :=
  match intent with
  | None => {| eo_OperationId := ""; eo_OperationVersion := ""; eo_ConvergencePolicy := convergenceStrategyFromProto strategy;
               eo_ConvergenceTask := None |}
  | Some _ => {| eo_OperationId := op_ID op; eo_OperationVersion := operationVersionFromStateVersion (op_StateVersion op);
                 eo_ConvergencePolicy := convergenceStrategyFromProto strategy;
                 eo_ConvergenceTask := (λ t, (ct_ID t, ct_Status t)) <$> task |}
  end.
Definition emergencyStoreError (e : error) : connect_error :=
  match e with
  | ErrAuthorizationStale => emergencyError CodeUnavailable "authorization_snapshot_stale" "authorization snapshot is stale"
  | ErrReleaseBusy => emergencyError CodeFailedPrecondition "release_busy" "release definition has a running standard operation"
  | ErrEmergencyOperationInProgress =>
      emergencyDetailError CodeAborted "OPERATION_IN_PROGRESS" "another emergency operation is in progress for this release"
  | ErrEmergencyConflict => emergencyDetailError CodeFailedPrecondition "LOCKED_PATH" "emergency target is locked"
  | ErrIdempotencyConflict => emergencyError CodeAlreadyExists "idempotency_conflict" "idempotency key was used with different parameters"
  | _ => newError CodeInternal "create emergency operation"
  end.
Definition connectErrorReasonCode (e : connect_error) : string :=
  match find_row (λ m, bool_decide (m.1 = "X-Reason-Code")) (ce_meta e) with Some m => m.2 | None => "unavailable" end.
(** The created operation fails; an error of that is only logged. *)
Definition failEmergencyDelivery {A} (op : Operation) (intent : EmergencyIntent) (deliveryErr : connect_error) : rpc A :=
  svc_bind (once (here (Finish (ei_ID intent) (op_ID op) (op_StateVersion op) StatusFailed EmergencyEffectNotApplied
                               (connectErrorReasonCode deliveryErr) RawEmpty RawEmpty))) (λ _, Done (Err deliveryErr)).
Definition encode_entries (entries : list (string * string)) : raw :=
  RawJson (JArr ((λ e, JObj [("key", JStr e.1); ("value", JStr e.2)]) <$> entries)).
Definition encode_paths (paths : list string) : raw := RawJson (JArr (JStr <$> paths)).
(** The rows of the change. *)
Definition emergency_intent (id opID commandID : string) (now : time) (definition : ReleaseDefinition) (resolved : emergencyResolvedChange)
    (identity : WorkloadIdentity) (convergence : EmergencyConvergence) : EmergencyIntent :=
  let image := bool_decide (rs_action resolved = EmergencySetContainerImage) in
  let annotations := bool_decide (rs_action resolved = EmergencySetApprovedAnnotations) in
  {| ei_ID := id; ei_ReleaseDefinitionID := rd_ID definition; ei_OperationID := opID; ei_CommandID := commandID;
     ei_Action := rs_action resolved; ei_WorkloadKind := pw_Kind (rs_workload resolved); ei_WorkloadName := pw_Name (rs_workload resolved);
     ei_WorkloadNamespace := pw_Namespace (rs_workload resolved); ei_WorkloadUID := wi_UID identity;
     ei_Container := if image then Some (rs_container resolved) else None;
     ei_ArtifactID := if image then Some (rs_artifactID resolved) else None;
     ei_ImageReference := if image then Some (rs_imageReference resolved) else None; ei_TargetReplicas := rs_replicas resolved;
     ei_AnnotationScope := if annotations then Some (rs_annotationScope resolved) else None;
     ei_AnnotationEntries := if annotations then encode_entries (rs_annotations resolved) else RawEmpty; ei_Convergence := convergence;
     ei_PromotionPaths := encode_paths (rs_promotionPaths resolved); ei_BeforeSnapshot := RawEmpty; ei_AfterSnapshot := RawEmpty;
     ei_DeliveryStatus := "pending"; ei_EffectStatus := EffectEmpty; ei_LastDeliveryAt := None; ei_LockReleasedAt := None;
     ei_RevertStatus := ""; ei_ReconciledByOperationID := ""; ei_CreatedAt := now; ei_UpdatedAt := now |}.
Definition emergency_operation (opID keyHash scope requestHash reason : string) (actor : authctx_Actor) (definition : ReleaseDefinition)
    (now timeout : time) : Operation :=
  {| op_ID := opID; op_OperationType := OperationEmergency; op_Status := StatusPending; op_ReleaseDefinitionID := rd_ID definition;
     op_IdempotencyKey := keyHash; op_IdempotencyScope := scope; op_RequestHash := requestHash; op_StateVersion := 0; op_BundleID := "";
     op_BundleChartRef := ""; op_BundleChartDigest := ""; op_ImageRefsJSON := None; op_ImageDigestsJSON := None; op_PolicyVersion := "";
     op_ValuesRevisionID := ""; op_ExpectedRevision := 0; op_TargetRevision := 0; op_TargetOperationID := ""; op_ValuesPatch := None;
     op_PatchDigest := ""; op_EffectiveValuesDigest := ""; op_Reason := TrimSpace reason;
     op_Actor := {| ac_UserID := ax_UserID actor; ac_Organization := ax_OrganizationID actor |}; op_LastError := ""; op_CreatedAt := now;
     op_UpdatedAt := now; op_Deadline := Some (now + timeout); op_TerminalAt := None; op_EffectStatus := EffectEmpty |}.
Definition convergence_task (id opID : string) (now : time) (definition : ReleaseDefinition) (resolved : emergencyResolvedChange) : ConvergenceTask :=
  {| ct_ID := id; ct_OperationID := opID; ct_ReleaseDefinitionID := rd_ID definition; ct_Action := rs_action resolved;
     ct_TargetSummary := rs_targetSummary resolved; ct_Reason := ""; ct_PromotionPaths := encode_paths (rs_promotionPaths resolved);
     ct_Status := PendingPromotion; ct_ActiveRevisionID := None; ct_ActiveRevisionStatus := None; ct_LastRejectionReason := None;
     ct_SubmittedAt := now; ct_ConvergedAt := None; ct_CreatedAt := now |}.
Definition creation_request (op : Operation) (intent : EmergencyIntent) (task : option ConvergenceTask) (expected : Z)
    (scope keyHash requestHash : string) (expiresAt : time) : OperationCreationRequest :=
  {| ocr_Operation := op; ocr_Dispatch := None; ocr_CandidateArtifactDigests := []; ocr_ExpectedAuthorizationVersion := expected;
     ocr_Emergency := Some {| ec_Operation := op; ec_Intent := intent; ec_ConvergenceTask := task;
       ec_ExpectedAuthorizationVersion := expected; ec_IdempotencyScope := scope; ec_IdempotencyKeyHash := keyHash;
       ec_RequestHash := requestHash; ec_IdempotencyExpiresAt := expiresAt |} |}.
Definition day_ns : Z := 24 * 3600 * nsec.
(** After the commit: the operator is looked up, the command goes to its stream and
    intent and operation are marked queued. *)
Definition deliver_created (definition : ReleaseDefinition) (op : Operation) (intent : EmergencyIntent) (k : Operation → rpc EmergencyResponse)
    : rpc EmergencyResponse :=
  svc_bind (onlineEmergencyOperator definition) (λ r,
    match r with
    | Err e => failEmergencyDelivery op intent e
    | Ok operatorID =>
        let* _ := DispatchEmergency operatorID (emergencyCommandFromIntent intent)
        fails (λ _, failEmergencyDelivery op intent operator_offline) in
        let* _ := here (UpdateDeliveryStatus (ei_ID intent) "queued") fails internal "mark emergency queued" in
        let* transitioned := here (UpdateStatus_operation (op_ID op) StatusQueued (op_StateVersion op) "")
        fails internal "mark emergency operation queued" in
        k transitioned
    end).
(** The unit of work and what follows its commit. *)
Definition create_and_deliver (definition : ReleaseDefinition) (strategy : Z) (request : OperationCreationRequest) : rpc EmergencyResponse :=
  svc_bind (once (here (OperationCreationUnitOfWork request))) (λ r,
    match r with
    | Err e => Done (Err (emergencyStoreError e))
    | Ok created =>
        let respond op := Done (Ok (executeEmergencyResponse op (ores_Intent created) (ores_ConvergenceTask created) strategy)) in
        match ores_Intent created with
        | Some intent => if ores_Replayed created then respond (ores_Operation created)
                         else deliver_created definition (ores_Operation created) intent respond
        | None => respond (ores_Operation created)
        end
    end).
Definition create_emergency (msg : ExecuteEmergencyChangeRequest) (actor : authctx_Actor) (definition : ReleaseDefinition)
    (timeout : Z) (requestHash keyHash : string) (resolved : emergencyResolvedChange) (identity : WorkloadIdentity) (expected : Z)
    : rpc EmergencyResponse :=
  let scope := (ax_OrganizationID actor ++ ":" ++ rd_ID definition)%string in
  let* t := here now fails internal "clock" in
  let* opID := here new_uuid fails internal "id" in
  let* commandID := here new_uuid fails internal "id" in
  let* intentID := here new_uuid fails internal "id" in
  let convergence := convergenceStrategyFromProto (eq_ConvergenceStrategy msg) in
  let request task :=
    creation_request (emergency_operation opID keyHash scope requestHash (eq_Reason msg) actor definition t timeout)
      (emergency_intent intentID opID commandID t definition resolved identity convergence) task expected scope keyHash requestHash
      (t + day_ns) in
  if bool_decide (convergence = EmergencyRequirePromotion) then
    let* taskID := here new_uuid fails internal "id" in
    create_and_deliver definition (eq_ConvergenceStrategy msg) (request (Some (convergence_task taskID opID t definition resolved)))
  else create_and_deliver definition (eq_ConvergenceStrategy msg) (request None).
Definition ExecuteEmergencyChange (actor : option authctx_Actor) (credential : string) (msg : ExecuteEmergencyChangeRequest)
    : rpc EmergencyResponse :=
  match actor with
  | None => Done (Err (emergencyError CodeUnauthenticated "authentication_required" "authentication required"))
  | Some actor =>
  match validateExecuteEmergencyRequest msg with
  | Some e => Done (Err e)
  | None =>
      let* config := here GetEmergencyConfig fails internal "load emergency config" in
      if negb (ecf_Enabled config)
      then Done (Err (emergencyDetailError CodeFailedPrecondition "KILL_SWITCH_DISABLED" "emergency change is disabled by the kill switch"))
      else
        and_then (loadEmergencyDefinition (eq_ReleaseDefinitionId msg)) (λ definition,
          let* customer := here (Get_customer (rd_CustomerID definition)) fails internal "load emergency customer" in
          if negb (bool_decide (cu_Status customer = CustomerActive))
          then Done (Err (emergencyError CodePermissionDenied "customer_disabled" "customer is disabled"))
          else match protojson_Marshal msg with
          | None => refuse CodeInternal "hash emergency request"
          | Some encoded =>
              let requestHash := sha256_hex encoded in
              let keyHash := sha256_hex (eq_IdempotencyKey msg) in
              and_then (resolveExecuteEmergencyChange msg definition) (λ resolved,
              and_then (resolveEmergencyWorkloadIdentity definition (rs_workload resolved)) (λ identity,
              and_then (AuthorizeWrite actor credential (rd_CustomerID definition) AuthorizationExecuteEmergency) (λ expected,
                svc_bind (once (here (GetReplay_emergency (ax_OrganizationID actor ++ ":" ++ rd_ID definition)%string keyHash requestHash))) (λ r,
                  let create := create_emergency msg actor definition (ecf_OperationTimeout config) requestHash keyHash resolved identity expected in
                  match r with
                  | Ok replay => Done (Ok (executeEmergencyResponse (ecr_Operation replay) (Some (ecr_Intent replay)) (ecr_ConvergenceTask replay) (eq_ConvergenceStrategy msg)))
                  | Err ErrIdempotencyConflict => Done (Err (emergencyStoreError ErrIdempotencyConflict))
                  | Err ErrNotFound =>
                      if eq_ConvergenceStrategy msg =? REQUIRE_PROMOTION then
                        let* blocked := here (HasPendingPromotionPath (rd_ID definition) (rs_promotionPaths resolved))
                        fails internal "check pending promotion paths" in
                        if (blocked : bool) then Done (Err (emergencyDetailError CodeFailedPrecondition "LOCKED_PATH" "emergency target is locked")) else create
                      else create
                  | Err _ => refuse CodeInternal "lookup emergency replay"
                  end))))
          end)
  end end.

(** ** Expiry (ExpireEmergencyOperations) *)
Definition overdue (now : time) (operation : Operation) : bool :=
  bool_decide (op_OperationType operation = OperationEmergency)
  && match op_Deadline operation with Some deadline => deadline <=? now | None => false end.
(** A deadline that passes while the operation is pending proves it undelivered. *)
Definition timeout_effect (status : OperationStatus) : EmergencyEffectStatus :=
  if bool_decide (status = StatusPending) then EmergencyEffectNotApplied else EmergencyEffectUnknown.
Definition expire_one (operation : Operation) : csvc Z :=
  let* intent := here (getEmergencyIntentByOperation (op_ID operation)) fails (λ _, Done 0) in
  let* _ := here (Finish (ei_ID intent) (op_ID operation) (op_StateVersion operation) StatusTimeout
                    (timeout_effect (op_Status operation)) "operation_timeout" RawEmpty RawEmpty) fails (λ _, Done 0) in
  Done 1.
Fixpoint expire_all (now : time) (operations : list Operation) : csvc Z :=
  match operations with
  | [] => Done 0
  | operation :: operations =>
      if overdue now operation
      then svc_bind (expire_one operation) (λ n, svc_bind (expire_all now operations) (λ m, Done (n + m)))
      else expire_all now operations
  end.
Definition ExpireEmergencyOperations : csvc Z :=
  let* operations := here ListNonTerminal fails (λ _, Done 0) in
  let* t := here now fails (λ _, Done 0) in
  expire_all t operations.

(** ** Stuck locks (emergency_stuck.go) *)
Definition permission_denied {A} (message : string) : rpc A := Done (Err (emergencyError CodePermissionDenied "permission_denied" message)).
(** The active bindings of the organization the actor may execute changes for. *)
Fixpoint authorized_customers (actor : authctx_Actor) (credential : string) (bindings : list OrgCustomerBinding) : csvc (list string) :=
  match bindings with
  | [] => Done []
  | binding :: bindings =>
      if negb (bool_decide (bi_Status binding = BindingActive)) then authorized_customers actor credential bindings
      else
        svc_bind (AuthorizeWrite actor credential (bi_CustomerID binding) AuthorizationExecuteEmergency) (λ r,
          svc_bind (authorized_customers actor credential bindings) (λ scope,
            Done (match r with Ok _ => bi_CustomerID binding :: scope | Err _ => scope end)))
  end.
Definition authorizeEmergencyLockScope (actor : authctx_Actor) (credential definitionID : string) : rpc (list string) :=
  if bool_decide (definitionID = "") then
    let* bindings := here (ListByOrg_bindings (ax_OrganizationID actor)) fails internal "list stuck-lock bindings" in
    svc_bind (authorized_customers actor credential bindings) (λ scope,
      match scope with [] => permission_denied "actor is not authorized for any customer" | _ => Done (Ok scope) end)
  else
    svc_bind (once (here (Get_definition definitionID))) (λ r,
      match r with
      | Err ErrNotFound => Done (Err (emergencyError CodeNotFound "definition_not_found" "release definition not found"))
      | Err _ => refuse CodeInternal "load stuck-lock definition"
      | Ok definition =>
          let* _ := here (RequireActive (ax_OrganizationID actor) (rd_CustomerID definition))
          fails (λ _, permission_denied "actor is not authorized for customer") in
          svc_bind (AuthorizeWrite actor credential (rd_CustomerID definition) AuthorizationExecuteEmergency) (λ r,
            match r with
            | Err _ => permission_denied "actor is not authorized to release emergency locks"
            | Ok _ => Done (Ok [rd_CustomerID definition])
            end)
      end).
Definition authentication_required {A} : rpc A :=
  Done (Err (emergencyError CodeUnauthenticated "authentication_required" "authentication required")).
(** The lock and the moment it became stuck. *)
Definition stuckLockToProto (observeTimeout : Z) (lock : StuckLock) : StuckLock * time := (lock, sl_TerminalAt lock + observeTimeout).
Definition ListStuckLocks_rpc (actor : option authctx_Actor) (credential definitionID : string) : rpc (list (StuckLock * time)) :=
  match actor with
  | None => authentication_required
  | Some actor =>
      let* config := here GetEmergencyConfig fails internal "load emergency config" in
      and_then (authorizeEmergencyLockScope actor credential definitionID) (λ scope,
        let* locks := here (ListStuckLocks {| sf_DefinitionID := definitionID; sf_CustomerIDs := scope;
                                              sf_ObserveTimeout := ecf_EffectObserveTimeout config |})
        fails internal "list stuck locks" in
        Done (Ok (stuckLockToProto (ecf_EffectObserveTimeout config) <$> locks)))
  end.
Definition mapReleaseLockError (e : error) : connect_error :=
  match e with
  | ErrNotFound => emergencyError CodeNotFound "intent_not_found" "emergency intent not found"
  | ErrInvalidState => emergencyError CodeFailedPrecondition "operation_not_terminal" "operation is not terminal; use CancelOperation"
  | ErrLockNotStuck =>
      emergencyError CodeFailedPrecondition "lock_not_stuck_or_already_released" "lock is not stuck or already released"
  | ErrConvergencePending =>
      emergencyError CodeFailedPrecondition "convergence_pending" "convergence task is pending promotion; converge it before releasing"
  | ErrOptimisticLock => emergencyError CodeAborted "optimistic_lock_conflict" "lock state changed concurrently; retry"
  | _ => newError CodeInternal "release emergency lock"
  end.
(** The numbers of the enum ReleaseMode. *)
Definition releaseModeFromProto (mode : Z) : option EmergencyReleaseMode :=
  if mode =? 1 then Some EmergencyReleaseNotAppliedProven else if mode =? 2 then Some EmergencyReleaseAuditedOverride else None.
Record ReleaseEmergencyLockRequest := { lq_IntentId : string; lq_Mode : Z; lq_Reason : string; lq_Evidence : string }.
Definition validate_release (msg : ReleaseEmergencyLockRequest) : res connect_error EmergencyReleaseMode :=
  let invalid reason message := Err (emergencyError CodeInvalidArgument reason message) in
  if bool_decide (TrimSpace (lq_Reason msg) = "") then invalid "reason_required" "reason is required"
  else if 1000 <? RuneCount (TrimSpace (lq_Reason msg)) then invalid "reason_required" "reason exceeds 1000 characters"
  else if 500 <? RuneCount (lq_Evidence msg) then invalid "reason_required" "evidence exceeds 500 characters"
  else match releaseModeFromProto (lq_Mode msg) with
       | Some mode => Ok mode
       | None => invalid "release_mode_unspecified" "release mode is required"
       end.
Definition ReleaseEmergencyLock (actor : option authctx_Actor) (credential : string) (msg : ReleaseEmergencyLockRequest)
    : rpc ReleaseLockResult :=
  match actor with
  | None => authentication_required
  | Some actor =>
  match validate_release msg with
  | Err e => Done (Err e)
  | Ok mode =>
      svc_bind (once (here (getEmergencyIntentByID (lq_IntentId msg)))) (λ r,
        match r with
        | Err ErrNotFound => Done (Err (emergencyError CodeNotFound "intent_not_found" "emergency intent not found"))
        | Err _ => refuse CodeInternal "load stuck-lock intent"
        | Ok intent =>
            and_then (authorizeEmergencyLockScope actor credential (ei_ReleaseDefinitionID intent)) (λ _,
              let* config := here GetEmergencyConfig fails internal "load emergency config" in
              let* released := here (ReleaseLock {| lc_IntentID := ei_ID intent; lc_Mode := mode; lc_Reason := TrimSpace (lq_Reason msg);
                                                    lc_Evidence := lq_Evidence msg; lc_ObserveTimeout := ecf_EffectObserveTimeout config |})
              fails (λ e, Done (Err (mapReleaseLockError e))) in
              Done (Ok released))
        end)
  end end.
(** The scan: the number of stuck locks, those alerted from now on, the alerts. *)
Definition ScanStuckEmergencyLocks (alerted : gset string) : csvc (Z * gset string * list StuckLock) :=
  let nothing := Done (0, alerted, []) in
  let* config := here GetEmergencyConfig fails (λ _, nothing) in
  let* locks := here (ListStuckLocks {| sf_DefinitionID := ""; sf_CustomerIDs := []; sf_ObserveTimeout := ecf_EffectObserveTimeout config |})
  fails (λ _, nothing) in
  let current : gset string := list_to_set ((λ l, ei_ID (sl_Intent l)) <$> locks) in
  Done (Z.of_nat (size current), current, filter (λ l, ei_ID (sl_Intent l) ∉ alerted) locks).

(** ** Commands are those of recorded intents

    Requests, expiry, scans, streams and the other services run interleaved. *)
Abbreviation cdb c := (db_of (cn_host c)).
Definition settling B (m : M T error B) : Prop := ∀ t, settles (db_of t) (db_of (m t).2).
(** The tables are consistent, every intent names a workload, and every command
    on a channel is the one of an intent in the tables. *)
Record accounted (c : S) : Prop := {
  rec_invariant : invariant (cdb c);
  rec_uid i : i ∈ db_emergency_intents (cdb c) → ei_WorkloadUID i ≠ "";
  rec_channels ch queue m :
    cn_channels c !! ch = Some queue → m ∈ queue → ∃ i, i ∈ db_emergency_intents (cdb c) ∧ m = emergencyCommandFromIntent i;
}.
Definition kept (c c' : S) : Prop := changes_kept (cdb c) (cdb c').
#[export] Instance kept_preorder : PreOrder kept.
Proof. split; [intros c; unfold kept; reflexivity|]. intros a b c ? ?. unfold kept in *. by etransitivity. Qed.
Abbreviation safe := (guarantees accounted kept).
Abbreviation rwp fault := (wp accounted kept fault).
Lemma command_change i j : change_of j = change_of i → emergencyCommandFromIntent j = emergencyCommandFromIntent i.
Proof. unfold change_of. intros [= H1 H2 H3 H4 H5 H6 H7 H8 H9 H10 H11 H12]. unfold emergencyCommandFromIntent. by rewrite H1, H2, H3, H4, H5, H6, H7, H8, H9, H10, H11, H12. Qed.
(** One step of the tables, the channels untouched. *)
Lemma accounted_step c t :
  accounted c → evolves_by_step (cdb c) (db_of t) →
  (∀ i, i ∈ db_emergency_intents (db_of t) → ei_WorkloadUID i ≠ "" ∨ ∃ j, j ∈ db_emergency_intents (cdb c) ∧ change_of i = change_of j) →
  accounted (put_cn_host t c) ∧ kept c (put_cn_host t c).
Proof.
  intros [Hinv Huid Hch] Hstep Hnew. assert (Hk := step_changes_kept _ _ Hinv Hstep). split; [split|done]; simpl.
  - destruct Hstep as [Hs|[(op & Hs)|(command & Hwf & Hs)]].
    + by apply (settled_invariant (cdb c)); [apply Hs|].
    + by eapply creates_standard_invariant.
    + by eapply emergency_created_invariant.
  - intros i Hi. destruct (Hnew i Hi) as [?|(j & Hj & E)]; [done|]. unfold change_of in E. injection E. intros. apply Huid in Hj. congruence.
  - intros ch queue m Hq Hm. destruct (Hch ch queue m Hq Hm) as (i & Hi & ->). destruct (Hk i Hi) as (i' & Hi' & _ & E).
    exists i'. split; [done|]. symmetry. by apply command_change.
Qed.
Lemma settled_accounted c t : accounted c → settles (cdb c) (db_of t) → accounted (put_cn_host t c) ∧ kept c (put_cn_host t c).
Proof.
  intros Hc Hs. apply accounted_step; [done|by left|]. intros i Hi. right. destruct (Hs (rec_invariant _ Hc)) as (_ & _ & _ & HF).
  destruct (Forall2_elem_r _ _ _ _ HF Hi) as (j & Hj & (_ & _ & _ & _ & E) & _). by exists j.
Qed.
Lemma db_of_here {A} (m : SM A) (c : S) : (here m c).2 = put_cn_host (here m (cn_host c)).2 c ∧ db_of (here m (cn_host c)).2 = w_db (m (nd_world (node_of (cn_host c)))).2.
Proof. rewrite !here_eq. unfold db_of. simpl. by rewrite node_of_set. Qed.
Lemma here_safe {A} (m : SM A) : preserves (db_rel settles) m → safe (here (T:=S) m).
Proof.
  intros Hm c Hc. destruct (db_of_here m c) as [-> E]. apply settled_accounted; [done|]. rewrite E.
  apply (Hm _ (m (nd_world (node_of (cn_host c)))).1). by destruct (m _).
Qed.
Lemma read_safe {A} (m : M S error A) : (∀ c, (m c).2 = c) → safe m.
Proof. intros Hm c Hc. rewrite Hm. split; [done|reflexivity]. Qed.
Lemma fleet_safe {A} (f : Fleet → option A) : safe (on_fleet f).
Proof. by apply read_safe. Qed.
Lemma trust_safe {A} (f : TrustDB → res trust_error A) : safe (on_trust f).
Proof. by apply read_safe. Qed.
Context (fault : error → Prop).
Lemma rwp_any {A} (p : csvc A) (Q : A → S → Prop) c : calls (λ _, safe) p → (∀ a c1, Q a c1) → rwp fault p Q c.
Proof. intros Hp HQ. apply wp_calls; [apply _|by intros; apply HQ|done]. Qed.
Definition backed (i : EmergencyIntent) (c : S) : Prop := ∃ j, j ∈ db_emergency_intents (cdb c) ∧ change_of j = change_of i.
Lemma backed_later i c c' : kept c c' → backed i c → backed i c'.
Proof. intros Hk (j & Hj & E). destruct (Hk j Hj) as (k & Hk' & _ & E'). exists k. split; [done|congruence]. Qed.
(** A created, not replayed, emergency has its intent in the tables. *)
Definition created_backed (r : res error OperationCreationResult) (c : S) : Prop :=
  ∀ created, r = Ok created → ores_Replayed created = false → ∃ i, ores_Intent created = Some i ∧ backed i c.
Lemma create_step req command c :
  ocr_Emergency req = Some command → well_formed_emergency command → ei_WorkloadUID (ec_Intent command) ≠ "" → accounted c →
  let x := here (OperationCreationUnitOfWork req) c in accounted x.2 ∧ kept c x.2 ∧ created_backed x.1 x.2.
Proof.
  intros Hsome Hwf Huid Hc x. subst x. rewrite here_eq. simpl. set (w := nd_world (node_of (cn_host c))).
  assert (Hreq : well_formed_request req) by (unfold well_formed_request; by rewrite Hsome).
  assert (Hstep := UnitOfWork_step req w Hreq).
  set (t' := set_node _ _). assert (Ht : db_of t' = w_db (OperationCreationUnitOfWork req w).2) by (unfold t', db_of; by rewrite node_of_set).
  assert (Hcreated : match (OperationCreationUnitOfWork req w).1 with
    | Ok created => (∃ i, db_emergency_intents (db_of t') = db_emergency_intents (cdb c) ++ [i] ∧ change_of i = change_of (ec_Intent command) ∧
                       (ores_Replayed created = false → ∃ j, ores_Intent created = Some j ∧ change_of j = change_of i)) ∨
                    (ores_Replayed created = true ∧ db_emergency_intents (db_of t') = db_emergency_intents (cdb c))
    | Err _ => db_emergency_intents (db_of t') = db_emergency_intents (cdb c)
    end).
  { rewrite Ht. destruct (OperationCreationUnitOfWork req w) as [[created|e] w'] eqn:E; simpl; [|apply retry_loop_Err_db in E; by rewrite E].
    apply retry_loop_Ok in E as (w0 & Hw0 & E). unfold cdb. fold w. change (db_of (cn_host c)) with (w_db w). rewrite <- Hw0.
    apply run_commit_Ok in E as [_ E]. rewrite Hsome in E.
    apply createEmergency_inv in E as [[(_ & _ & _ & (i & Hi & _ & _ & _ & _ & Hch)) Hnew]|(Hr & _ & Hi)]; [left|by right].
    exists i. split_and!; [done|done|]. intros Hr. destruct (Hnew Hr) as (j & Hj & E'). exists j. split; [done|congruence]. }
  assert (Hrec : accounted (put_cn_host t' c) ∧ kept c (put_cn_host t' c)).
  { apply accounted_step; [done|by rewrite Ht|]. intros i Hi.
    destruct ((OperationCreationUnitOfWork req w).1) as [created|e].
    - destruct Hcreated as [(x & Hx & Hch & _)|[_ Hx]]; rewrite Hx in Hi; [|right; by exists i].
      apply elem_of_app in Hi as [Hi| ->%list_elem_of_singleton]; [right; by exists i|]. left. unfold change_of in Hch. congruence.
    - right. exists i. by rewrite Hcreated in Hi. }
  destruct Hrec as [H1 H2]. split_and!; [done|done|]. intros created Hok Hnew. rewrite Hok in Hcreated.
  destruct Hcreated as [(x & Hx & _ & Hj)|[? _]]; [|congruence]. destruct (Hj Hnew) as (j & Ej & E). exists j. split; [done|].
  exists x. split; [simpl; rewrite Hx; apply elem_of_app; right; by apply list_elem_of_singleton|done].
Qed.
Lemma channels_grow c operatorID command :
  accounted c → (∃ i, i ∈ db_emergency_intents (cdb c) ∧ command = emergencyCommandFromIntent i) →
  accounted (DispatchEmergency operatorID command c).2 ∧ kept c (DispatchEmergency operatorID command c).2.
Proof.
  intros Hc Hb. unfold DispatchEmergency. destruct (_ || _); [by split|]. destruct (cn_emergencyStreams c !! operatorID) as [d|]; [|by split].
  destruct (cn_channels c !! d) as [queue|] eqn:Hq; [|by split]. destruct (_ <? _)%nat; [|by split]. simpl.
  split; [|unfold kept; simpl; reflexivity]. destruct Hc as [H1 H2 H3]. split; [done|done|]. simpl. intros ch q m Hl Hm.
  destruct (decide (ch = d)) as [->|Hne].
  - rewrite list_lookup_insert_eq in Hl by by eapply lookup_lt_Some. injection Hl as <-.
    apply elem_of_app in Hm as [Hm| ->%list_elem_of_singleton]; [by eapply H3|done].
  - rewrite list_lookup_insert_ne in Hl by done. by eapply H3.
Qed.
Lemma open_safe operatorID : safe (open_stream operatorID).
Proof.
  intros c [H1 H2 H3]. split; [|unfold kept; simpl; reflexivity]. split; [done|done|]. simpl. intros ch q m Hl Hm.
  apply lookup_app_Some in Hl as [Hl|[_ Hl]]; [by eapply H3|]. apply list_lookup_singleton_Some in Hl as [_ <-]. by apply elem_of_nil in Hm.
Qed.
Lemma close_safe operatorID : safe (close_stream operatorID).
Proof. intros c [H1 H2 H3]. split; [by split|unfold kept; simpl; reflexivity]. Qed.
Lemma take_safe ch : safe (take_command ch).
Proof.
  intros c Hc. unfold take_command. destruct (cn_channels c !! ch) as [[|m queue]|] eqn:Hq; [by split| |by split].
  destruct Hc as [H1 H2 H3]. split; [|unfold kept; simpl; reflexivity]. split; [done|done|]. simpl. intros ch' q m' Hl Hm.
  destruct (decide (ch' = ch)) as [->|Hne].
  - rewrite list_lookup_insert_eq in Hl by by eapply lookup_lt_Some. injection Hl as <-. eapply H3; [exact Hq|]. by apply elem_of_cons; right.
  - rewrite list_lookup_insert_ne in Hl by done. by eapply H3.
Qed.
Context (authorize_settles : ∀ actor credential customerID action, calls settling (authorize actor credential customerID action)).
Lemma AuthorizeWrite_safe actor credential customerID action : calls (λ _, safe) (AuthorizeWrite actor credential customerID action).
Proof.
  apply (calls_svc_lift _ _ settling); [|apply authorize_settles]. intros B m Hm c Hc. rewrite lift_eq. simpl. by apply settled_accounted.
Qed.
Lemma calls_and_then {A B} (P : ∀ C, M S error C → Prop) (p : rpc A) (k : A → rpc B) :
  calls P p → (∀ a, calls P (k a)) → calls P (and_then p k).
Proof. intros Hp Hk. apply calls_bind; [done|]. by intros [a|e]. Qed.
Lemma pending_path_loop_settles wanted rows : preserves (db_rel settles) (pending_path_loop wanted rows).
Proof. induction rows as [|r rows IH]; cbn [pending_path_loop]; db_preserve; apply IH. Qed.
#[local] Hint Resolve pending_path_loop_settles : preserve.
(** A program of safe calls: one case per call, branch and bind. *)
Ltac table_call :=
  first [ apply Finish_settles | apply Release_settles | apply transition_settles | apply UpdateDeliveryStatus_settles
        | unfold Get_definition, Get_customer, GetEmergencyConfig, GetReplay_emergency, HasPendingPromotionPath, ListNonTerminal, ListStuckLocks,
            ListByOrg_bindings, RequireActive, GetByCommandID_intent, GetByOrgAndCustomer, GetByClusterID, GetActiveByOperator, new_uuid;
          first [ solve [db_preserve] | apply settles_frames; solve [db_preserve] ] ].
Ltac safe_calls :=
  repeat match goal with
  | |- True => exact I
  | |- calls _ (Done _) => exact I
  | |- calls _ (refuse _ _) => exact I
  | |- calls _ (failed _) => exact I
  | |- calls _ (internal _ _) => exact I
  | |- calls _ (permission_denied _) => exact I
  | |- calls _ authentication_required => exact I
  | |- calls _ (AuthorizeWrite _ _ _ _) => apply AuthorizeWrite_safe
  | |- calls _ (Call (on_fleet _) _) => split; [apply fleet_safe|intros [?|?]]
  | |- calls _ (Call (on_trust _) _) => split; [apply trust_safe|intros [?|?]]
  | |- calls _ (Call (here _) _) => split; [apply here_safe; table_call|intros [?|?]]
  | |- calls _ (once _) => unfold once
  | |- calls _ (svc_bind _ _) => apply calls_bind; [|intros ?]
  | |- calls _ (and_then _ _) => apply calls_and_then; [|intros ?]
  | |- calls _ (match ?x with _ => _ end) => destruct x
  end.
Lemma loadEmergencyDefinition_safe id : calls (λ _, safe) (loadEmergencyDefinition id).
Proof. unfold loadEmergencyDefinition. safe_calls. Qed.
Lemma bundle_verdicts_safe policy l u : calls (λ _, safe) (bundle_verdicts policy l u).
Proof. revert u. induction l as [|b l IH]; intros u; cbn [bundle_verdicts]; safe_calls; apply IH. Qed.
Lemma trustedVerification_safe artifact policy : calls (λ _, safe) (trustedVerificationForArtifact artifact policy).
Proof. unfold trustedVerificationForArtifact. safe_calls. apply bundle_verdicts_safe. Qed.
Lemma resolveEmergencyArtifact_safe id : calls (λ _, safe) (resolveEmergencyArtifact id).
Proof. unfold resolveEmergencyArtifact. safe_calls; apply trustedVerification_safe. Qed.
Lemma resolve_safe msg definition : calls (λ _, safe) (resolveExecuteEmergencyChange msg definition).
Proof. unfold resolveExecuteEmergencyChange, resolveEmergencyImage. safe_calls. apply resolveEmergencyArtifact_safe. Qed.
Lemma identity_safe definition workload : calls (λ _, safe) (resolveEmergencyWorkloadIdentity definition workload).
Proof. unfold resolveEmergencyWorkloadIdentity. safe_calls. Qed.
Lemma online_safe definition : calls (λ _, safe) (onlineEmergencyOperator definition).
Proof. unfold onlineEmergencyOperator. safe_calls. Qed.
Lemma fail_safe {A} op intent e : calls (λ _, safe) (failEmergencyDelivery (A:=A) op intent e).
Proof. unfold failEmergencyDelivery. safe_calls. Qed.
Lemma stream_command_safe ch : calls (λ _, safe) (stream_command ch).
Proof. unfold stream_command. split; [apply take_safe|]. intros [m|e]; safe_calls. Qed.
Lemma expire_safe : calls (λ _, safe) ExpireEmergencyOperations.
Proof.
  unfold ExpireEmergencyOperations. safe_calls. generalize dependent a0. intros now. induction a as [|o l IH]; cbn [expire_all]; unfold expire_one; safe_calls; apply IH.
Qed.
Lemma scope_safe actor credential id : calls (λ _, safe) (authorizeEmergencyLockScope actor credential id).
Proof.
  unfold authorizeEmergencyLockScope. safe_calls. induction a as [|b l IH]; cbn [authorized_customers]; safe_calls; apply IH.
Qed.
Lemma list_safe actor credential id : calls (λ _, safe) (ListStuckLocks_rpc actor credential id).
Proof. unfold ListStuckLocks_rpc. safe_calls. apply scope_safe. Qed.
Lemma release_safe actor credential msg : calls (λ _, safe) (ReleaseEmergencyLock actor credential msg).
Proof. unfold ReleaseEmergencyLock. safe_calls. apply scope_safe. Qed.
Lemma scan_safe alerted : calls (λ _, safe) (ScanStuckEmergencyLocks alerted).
Proof. unfold ScanStuckEmergencyLocks. safe_calls. Qed.
(** What a program returns, whatever its calls answer. *)
Fixpoint returns {A} (P : A → Prop) (p : csvc A) : Prop :=
  match p with Done a => P a | Call m k => ∀ r, returns P (k r) end.
Lemma rwp_returns {A} (P : A → Prop) (p : csvc A) c : calls (λ _, safe) p → returns P p → rwp fault p (λ a _, P a) c.
Proof.
  revert c. induction p as [a|B m k IH]; intros c; simpl; [by intros _ HP s1|]. intros [Hm Hk] HP s1 Hs1 HR.
  destruct (Hm s1 Hs1). split_and!; [done|done|by apply IH|]. intros e _. by apply IH.
Qed.
Abbreviation done_with := (λ _ _, True).
Lemma rwp_then {A B} (P : A → Prop) (p : rpc A) (k : A → rpc B) c :
  calls (λ _, safe) p → returns (λ r, ∀ a, r = Ok a → P a) p → (∀ a c1, P a → rwp fault (k a) done_with c1) →
  rwp fault (and_then p k) done_with c.
Proof.
  intros Hp HP Hk. apply wp_bind; [apply _|]. eapply wp_mono; [apply _| |by apply rwp_returns]. intros [a|e] c1 _ _ Ha; [|by apply wp_Done]. simpl.
  apply Hk. by apply Ha.
Qed.
Lemma returns_True {A} (P : A → Prop) (p : csvc A) : (∀ a, P a) → returns P p.
Proof. intros HP. induction p as [a|B m k IH]; simpl; auto. Qed.
Lemma rwp_then_any {A B} (p : rpc A) (k : A → rpc B) c :
  calls (λ _, safe) p → (∀ a c1, rwp fault (k a) done_with c1) → rwp fault (and_then p k) done_with c.
Proof. intros Hp Hk. apply (rwp_then (λ _, True)); [done|by apply returns_True|by intros]. Qed.
Lemma identity_named definition workload :
  returns (λ r, ∀ i, r = Ok i → wi_UID i ≠ "") (resolveEmergencyWorkloadIdentity definition workload).
Proof.
  unfold resolveEmergencyWorkloadIdentity. simpl. intros [i|e]; [|by destruct e].
  match goal with |- context [if ?b then _ else _] => destruct b eqn:E end; [done|].
  do 2 (match goal with |- context [if ?b then _ else _] => destruct b end; [done|]). intros j [= <-].
  apply orb_false_iff in E as [_ E]. by destruct_bools.
Qed.
Lemma tables_wp {A B} (m : SM B) (k : res error B → csvc A) c :
  preserves (db_rel settles) m → (∀ r c1, rwp fault (k r) done_with c1) → rwp fault (Call (here m) k) done_with c.
Proof. intros Hm Hk. apply wp_call; [by apply here_safe|]. by intros s1 Hs1 HR. Qed.
Lemma deliver_wp definition op intent k c :
  backed intent c → (∀ o c1, rwp fault (k o) done_with c1) → rwp fault (deliver_created definition op intent k) done_with c.
Proof.
  intros Hb Hk. unfold deliver_created. apply wp_bind; [apply _|]. eapply wp_mono; [apply _| |apply wp_calls; [apply _| |apply online_safe]].
  2: { intros r c1 _ HR. exact (backed_later _ _ _ HR Hb). }
  intros [operatorID|e] c1 _ _ Hb1; [|by apply rwp_any, fail_safe || (apply rwp_any; [apply fail_safe|done])].
  intros c2 Hc2 HR. assert (Hb2 := backed_later _ _ _ HR Hb1).
  destruct (channels_grow c2 operatorID (emergencyCommandFromIntent intent) Hc2) as [Hc3 HR3].
  { destruct Hb2 as (j & Hj & E). exists j. split; [done|]. symmetry. by apply command_change. }
  assert (Hfail : ∀ c', rwp fault (failEmergencyDelivery op intent operator_offline) (λ (_ : res connect_error EmergencyResponse) _, True) c')
    by (intros c'; apply rwp_any; [apply fail_safe|done]).
  split_and!; [done|done| |intros e _; apply Hfail].
  destruct (DispatchEmergency _ _ _).1 as [[]|e]; [|apply Hfail].
  apply tables_wp; [apply UpdateDeliveryStatus_settles|]. intros [[]|e] c4; [|done].
  apply tables_wp; [apply transition_settles|]. intros [o|e] c5; [apply Hk|done].
Qed.
Lemma create_and_deliver_wp definition strategy op intent task expected scope keyHash requestHash expires c :
  let request := creation_request op intent task expected scope keyHash requestHash expires in
  (op_OperationType op = OperationEmergency ∧ ei_OperationID intent = op_ID op ∧
   ei_ReleaseDefinitionID intent = op_ReleaseDefinitionID op ∧ ∀ t, task = Some t → ct_ActiveRevisionID t = None) →
  ei_WorkloadUID intent ≠ "" → rwp fault (create_and_deliver definition strategy request) done_with c.
Proof.
  intros request Hwf Huid. unfold create_and_deliver. cbn [once svc_bind]. intros c1 Hc1 HR.
  destruct (create_step request _ c1 eq_refl Hwf Huid Hc1) as (Hc2 & HR2 & Hcreated).
  split_and!; [exact Hc2|exact HR2| |by intros e _].
  destruct (here _ c1).1 as [created|e]; [|done].
  destruct (ores_Replayed created) eqn:Er; [by destruct (ores_Intent created)|].
  destruct (Hcreated created eq_refl Er) as (intent' & -> & Hb). by apply deliver_wp.
Qed.
Lemma execute_wp actor credential msg c : rwp fault (ExecuteEmergencyChange actor credential msg) done_with c.
Proof.
  unfold ExecuteEmergencyChange. destruct actor as [actor|]; [|done]. destruct (validateExecuteEmergencyRequest msg); [done|].
  apply tables_wp; [table_call|]. intros [config|e] c1; [|done]. destruct (negb _); [done|].
  apply rwp_then_any; [apply loadEmergencyDefinition_safe|]. intros definition c2.
  apply tables_wp; [table_call|]. intros [customer|e] c3; [|done]. destruct (negb _); [done|].
  destruct (protojson_Marshal msg) as [encoded|]; [|done].
  apply rwp_then_any; [apply resolve_safe|]. intros resolved c4.
  eapply rwp_then; [apply identity_safe|apply identity_named|]. intros identity c5 Huid.
  apply rwp_then_any; [apply AuthorizeWrite_safe|]. intros expected c6.
  set (create := create_emergency _ _ _ _ _ _ _ _ _).
  assert (Hcreate : ∀ c', rwp fault create done_with c').
  2: { apply tables_wp; [table_call|]. intros [replay|e] c7; [done|].
       destruct e; try done. destruct (_ =? _); [|apply Hcreate]. apply tables_wp; [table_call|].
       intros [[]|e] c8; [done|apply Hcreate|done]. }
  clear -Huid authorize_settles. intros c. subst create. unfold create_emergency.
  do 4 (apply tables_wp; [table_call|]; intros [?|?] ?; [|done]).
  case_bool_decide; [|by apply create_and_deliver_wp]. apply tables_wp; [table_call|]. intros [taskID|e] c5; [|done].
  apply create_and_deliver_wp; [|done]. split_and!; [done..|]. by intros t [= <-].
Qed.
(** Everything that runs. *)
Definition ignore {A} (p : csvc A) : csvc unit := svc_bind p (λ _, Done tt).
Inductive thread : csvc unit → Prop :=
| thread_execute actor credential msg : thread (ignore (ExecuteEmergencyChange actor credential msg))
| thread_list actor credential id : thread (ignore (ListStuckLocks_rpc actor credential id))
| thread_release actor credential msg : thread (ignore (ReleaseEmergencyLock actor credential msg))
| thread_expire : thread (ignore ExpireEmergencyOperations)
| thread_scan alerted : thread (ignore (ScanStuckEmergencyLocks alerted))
| thread_open operatorID : thread (ignore (once (open_stream operatorID)))
| thread_stream ch : thread (ignore (stream_command ch))
| thread_close operatorID : thread (ignore (once (close_stream operatorID)))
| thread_store A (m : SM A) : preserves (db_rel settles) m → thread (ignore (once (here m)))
| thread_create req : ocr_Emergency req = None → standard (ocr_Operation req) →
    thread (ignore (once (here (OperationCreationUnitOfWork req)))).
Lemma create_standard_safe req :
  ocr_Emergency req = None → standard (ocr_Operation req) → safe (here (T:=S) (OperationCreationUnitOfWork req)).
Proof.
  intros Hnone Hstd c Hc. destruct (db_of_here (OperationCreationUnitOfWork req) c) as [-> E].
  assert (Hreq : well_formed_request req) by (unfold well_formed_request; by rewrite Hnone).
  assert (Hstep := UnitOfWork_step req (nd_world (node_of (cn_host c))) Hreq). rewrite <- E in Hstep.
  apply accounted_step; [done|exact Hstep|]. intros i Hi. right. rewrite E in Hi.
  destruct (OperationCreationUnitOfWork req _) as [[res|e] w'] eqn:Ew; simpl in Hi.
  - apply retry_loop_Ok in Ew as (w0 & Hw0 & Ew). apply run_commit_Ok in Ew as [_ Ew]. rewrite Hnone in Ew.
    apply createOperationUnitOfWork_inv in Ew as (_ & _ & _ & _ & _ & Hints). rewrite Hints in Hi. simpl in Hi. rewrite Hw0 in Hi. by exists i.
  - apply retry_loop_Err_db in Ew. rewrite Ew in Hi. by exists i.
Qed.
Lemma thread_ok p c : thread p → rwp fault p done_with c.
Proof.
  assert (Hcalls : ∀ A (q : csvc A), calls (λ _, safe) q → rwp fault (ignore q) done_with c).
  { intros A q Hq. apply rwp_any; [|done]. by apply calls_bind. }
  intros Hp. destruct Hp; [|apply Hcalls..].
  - apply wp_bind; [apply _|]. eapply wp_mono; [apply _| |apply execute_wp]. by intros.
  - apply list_safe.
  - apply release_safe.
  - apply expire_safe.
  - apply scan_safe.
  - split; [apply open_safe|done].
  - apply stream_command_safe.
  - split; [apply close_safe|done].
  - split; [by apply here_safe|done].
  - split; [by apply create_standard_safe|done].
Qed.

(** C4: every command an operator is given is that of a recorded change.  Run
    any requests, expiries, scans, streams and store calls of the other services
    interleaved, with calls that fail: in every state reached a release has at
    most one live operation, locks of one release do not conflict, recorded
    changes stay as they were, and a command taken from a stream is exactly the
    one built from an intent in the tables, of an existing operation, for a
    workload whose UID is known. *)
Theorem commands_recorded c c' threads :
  accounted c → rtc (pool_step fault thread) (c, []) (c', threads) →
  exclusive (cdb c') ∧ locks_exclusive (cdb c') ∧ kept c c' ∧
  ∀ ch command c'', take_command ch c' = (Ok command, c'') →
    ∃ i, i ∈ db_emergency_intents (cdb c') ∧ command = emergencyCommandFromIntent i ∧ mc_WorkloadUid command ≠ "" ∧
      is_Some (db_operations (cdb c') !! mc_OperationId command).
Proof.
  intros Hc Hrun. assert (Hok : ∀ p s, thread p → accounted s → rwp fault p done_with s) by (intros p s Hp _; by apply thread_ok).
  destruct (pool_ok _ _ _ _ _ Hok _ _ Hrun Hc) as ([[Hwf Hex Hlocks Hlinked] Huid Hch] & HR & _); [by apply Forall_nil|].
  split_and!; [done|done|done|]. intros ch command c'' Htake. unfold take_command in Htake.
  destruct (cn_channels c' !! ch) as [[|m queue]|] eqn:Hq; [done| |done]. injection Htake as <- _.
  destruct (Hch ch _ m Hq) as (i & Hi & ->); [by apply elem_of_cons; left|]. exists i.
  split_and!; [done|done|by apply Huid|]. by apply Hlinked.
Qed.

(** ** What an accepted request has passed

    Executed without interference.  [like]: nothing has moved; [near]: at most
    clock and ids have. *)
Definition beside (c c' : S) : Prop :=
  cn_trust c' = cn_trust c ∧ cn_fleet c' = cn_fleet c ∧ cn_channels c' = cn_channels c ∧ cn_emergencyStreams c' = cn_emergencyStreams c.
Definition world_at (c : S) : World := nd_world (node_of (cn_host c)).
Definition near (c c' : S) : Prop := beside c c' ∧ cdb c' = cdb c.
Definition like (c c' : S) : Prop := beside c c' ∧ world_at c' = world_at c.
#[export] Instance beside_preorder : PreOrder beside.
Proof. split; [done|]. intros a b c (? & ? & ? & ?) (? & ? & ? & ?). split_and!; congruence. Qed.
#[export] Instance like_preorder : PreOrder like.
Proof. split; [done|]. intros a b c [H1 H2] [H3 H4]. split; [by transitivity b|congruence]. Qed.
#[export] Instance near_preorder : PreOrder near.
Proof. split; [done|]. intros a b c [H1 H2] [H3 H4]. split; [by transitivity b|congruence]. Qed.
Lemma like_near c c' : like c c' → near c c'.
Proof. intros [? E]. split; [done|]. unfold db_of. unfold world_at in E. by rewrite E. Qed.
Lemma like_db c c' : like c c' → cdb c' = cdb c.
Proof. by intros [_ ?]%like_near. Qed.
Lemma exec_calls {A} (R : relation S) `{!PreOrder R} (p : csvc A) c :
  calls (λ B m, ∀ c, R c (m c).2) p → R c (exec_svc p c).2.
Proof. revert c. induction p as [a|B m k IH]; intros c; simpl; [done|]. intros [Hm Hk]. etransitivity; [apply Hm|by apply IH]. Qed.
Lemma here_beside {A} (m : SM A) (c : S) : beside c (here m c).2.
Proof. destruct (db_of_here m c) as [-> _]. done. Qed.
Lemma here_world {A} (m : SM A) (c : S) : world_at (here m c).2 = (m (world_at c)).2.
Proof. rewrite here_eq. unfold world_at. simpl. by rewrite node_of_set. Qed.
Lemma here_like {A} (m : SM A) : (∀ w, (m w).2 = w) → ∀ c, like c (here m c).2.
Proof. intros Hm c. split; [apply here_beside|]. by rewrite here_world, Hm. Qed.
Lemma here_near {A} (m : SM A) : preserves (db_rel eq) m → ∀ c, near c (here m c).2.
Proof.
  intros Hm c. split; [apply here_beside|]. destruct (db_of_here m c) as [-> E]. simpl. rewrite E. symmetry. change (nd_world _) with (world_at c).
  apply (Hm (world_at c) (m (world_at c)).1). by destruct (m (world_at c)).
Qed.
Lemma row_world {A} (row : DB → option A) w : ((let! r := query row in scan_row r) w).2 = w.
Proof. unfold bind, query, gets, scan_row. simpl. by destruct (row (w_db w)). Qed.
(** [call; if err != nil { refuse }; k] *)
Lemma exec_must {A B} (m : M S error A) (f : error → rpc B) (k : A → rpc B) c b c' :
  (∀ e, ∃ x, f e = Done (Err x)) →
  exec_svc (Call m (λ r, match r with Ok a => k a | Err e => f e end)) c = (Ok b, c') →
  ∃ a, (m c).1 = Ok a ∧ exec_svc (k a) (m c).2 = (Ok b, c').
Proof. intros Hf. simpl. destruct (m c).1 as [a|e]; [by eauto|]. destruct (Hf e) as [x ->]. done. Qed.
Lemma exec_then {A B} (p : rpc A) (k : A → rpc B) c b c' :
  exec_svc (and_then p k) c = (Ok b, c') → ∃ a c1, exec_svc p c = (Ok a, c1) ∧ exec_svc (k a) c1 = (Ok b, c').
Proof. unfold and_then. rewrite exec_bind. destruct (exec_svc p c) as [[a|e] c1]; simpl; [by eauto|done]. Qed.
Lemma here_row {A} (row : DB → option A) (c : S) a : (here (let! r := query row in scan_row r) c).1 = Ok a → row (cdb c) = Some a.
Proof. rewrite here_eq. unfold bind, query, gets, scan_row. simpl. unfold db_of. by destruct (row _) as [x|]; simpl; [intros [= ->]|]. Qed.

(** The definition, as it is in the tables. *)
Lemma loadEmergencyDefinition_Ok id c d c1 :
  exec_svc (loadEmergencyDefinition id) c = (Ok d, c1) →
  db_release_definitions (cdb c) !! id = Some d ∧ rd_Status d = DefStatusActive ∧ like c c1.
Proof.
  intros Hx. assert (Hl : like c c1).
  { replace c1 with (exec_svc (loadEmergencyDefinition id) c).2 by by rewrite Hx. apply exec_calls; [apply _|].
    unfold loadEmergencyDefinition. split; [apply here_like, row_world|]. intros [r|e]; simpl; [by case_match|by destruct e]. }
  unfold loadEmergencyDefinition in Hx. cbn [once svc_bind exec_svc] in Hx.
  destruct (here (Get_definition id) c).1 as [r|e] eqn:E; [|by destruct e]. apply here_row in E. case_bool_decide; simpl in Hx; [|done].
  by injection Hx as <- _.
Qed.

(** The verdict an image is accepted on. *)
Definition verdict_of (policy : string) (artifact : CandidateArtifact) (f : Fleet) (td : TrustDB) (v : VerificationRecord) : Prop :=
  GetLatestVerdictByDigestAndPolicy (va_Digest artifact) policy td = Ok v ∨
  (GetLatestVerdictByDigestAndPolicy (va_Digest artifact) policy td = Err Trust.ErrNotFound ∧
   ∃ bundleID bundle, (va_ID artifact, bundleID) ∈ fl_links f ∧ fl_bundles f !! bundleID = Some bundle ∧
     GetLatestVerdictByDigestAndPolicy (bundle_digest bundle) policy td = Ok v).
Lemma bundle_verdicts_Ok policy l u c v c1 :
  exec_svc (bundle_verdicts policy l u) c = (Ok (Some v), c1) →
  c1 = c ∧ (u = Some v ∨ ∃ bundleID bundle, bundleID ∈ l ∧ fl_bundles (cn_fleet c) !! bundleID = Some bundle ∧
     GetLatestVerdictByDigestAndPolicy (bundle_digest bundle) policy (cn_trust c) = Ok v).
Proof.
  revert u. induction l as [|b l IH]; intros u; cbn [bundle_verdicts once svc_bind exec_svc].
  { intros [= -> ->]. split; [done|by left]. }
  assert (Hlater : ∀ u', exec_svc (bundle_verdicts policy l u') c = (Ok (Some v), c1) → c1 = c ∧ (u' = Some v ∨
    ∃ bundleID bundle, bundleID ∈ b :: l ∧ fl_bundles (cn_fleet c) !! bundleID = Some bundle ∧
      GetLatestVerdictByDigestAndPolicy (bundle_digest bundle) policy (cn_trust c) = Ok v)).
  { intros u' Hx. destruct (IH u' Hx) as [? [?|(x & y & Hin & Hxy)]]; split; [done|by left|done|]. right. exists x, y. split; [by apply elem_of_cons; right|done]. }
  unfold on_fleet. destruct (fl_bundles (cn_fleet c) !! b) as [bundle|] eqn:Eb; simpl; [|apply Hlater].
  unfold on_trust. destruct (GetLatestVerdictByDigestAndPolicy (bundle_digest bundle) policy (cn_trust c)) as [r|[]] eqn:Er; simpl;
    try done; [|apply Hlater].
  assert (Hhere : r = v → ∃ bundleID bundle, bundleID ∈ b :: l ∧ fl_bundles (cn_fleet c) !! bundleID = Some bundle ∧
    GetLatestVerdictByDigestAndPolicy (bundle_digest bundle) policy (cn_trust c) = Ok v).
  { intros ->. exists b, bundle. split_and!; [by apply elem_of_cons; left|done|done]. }
  case_bool_decide; simpl; [intros [= -> ->]; split; [done|by right; apply Hhere]|].
  intros Hx. destruct (Hlater _ Hx) as [? [Hu|?]]; split; [done| |done|by right]. destruct u as [x|]; [by left|].
  injection Hu as ->. right. by apply Hhere.
Qed.

(** An image that may be pulled: validated, trusted by a verdict of the current
    policy and epoch, whose root is live. *)
Definition trusted_image (c : S) (artifact : CandidateArtifact) : Prop :=
  let meta := GetPolicy targetEnv (cn_trust c) in
  va_ArtifactType artifact = ArtifactImage ∧ va_ValidatedAt artifact ≠ None ∧
  ∃ v root, verdict_of (PolicyVersion (tp_Version meta)) artifact (cn_fleet c) (cn_trust c) v ∧ ve_Status v = VerificationTrusted ∧
    tp_RevocationEpoch meta ≤ ve_RevocationEpoch v ∧
    root ∈ td_roots (cn_trust c) ∧ accepts targetEnv (w_clock (world_at c) 0) root = true ∧
    (ve_RootID v = tr_ID root ∨ ve_RootID v = "" ∧ ve_KeyID v = tr_KeyID root).
Lemma verdictRootIsLive_ex roots v :
  verdictRootIsLive roots v = true → ∃ root, root ∈ roots ∧ (ve_RootID v = tr_ID root ∨ ve_RootID v = "" ∧ ve_KeyID v = tr_KeyID root).
Proof.
  unfold verdictRootIsLive. rewrite existsb_exists. intros (root & Hin & Hx). exists root. split; [by apply list_elem_of_In|].
  apply orb_true_iff in Hx as [Hx|Hx]; destruct_bools; auto.
Qed.
Lemma BundlesForArtifact_linked id b f : b ∈ BundlesForArtifact id f → (id, b) ∈ fl_links f.
Proof.
  unfold BundlesForArtifact. rewrite merge_sort_Permutation, list_elem_of_fmap. intros ([x y] & -> & Hin).
  apply list_elem_of_filter in Hin as [Hx Hin]. simpl in *. by subst.
Qed.
Lemma trustedVerification_Ok artifact policy c v c1 :
  exec_svc (trustedVerificationForArtifact artifact policy) c = (Ok (Some v), c1) →
  c1 = c ∧ verdict_of policy artifact (cn_fleet c) (cn_trust c) v.
Proof.
  unfold trustedVerificationForArtifact. cbn [once svc_bind exec_svc]. unfold on_trust, verdict_of.
  destruct (GetLatestVerdictByDigestAndPolicy (va_Digest artifact) policy (cn_trust c)) as [own|e] eqn:E; simpl.
  { intros [= -> ->]. split; [done|by left]. }
  destruct e; simpl; try done. intros [-> [?|(b & bundle & Hb & Hx)]]%bundle_verdicts_Ok; [done|]. split; [done|]. right. split; [done|].
  exists b, bundle. split; [by apply BundlesForArtifact_linked|done].
Qed.
#[local] Opaque trustedVerificationForArtifact.
Lemma resolveEmergencyArtifact_Ok id c a c1 :
  exec_svc (resolveEmergencyArtifact id) c = (Ok a, c1) →
  near c c1 ∧ ∃ artifact, fl_artifacts (cn_fleet c) !! TrimSpace id = Some artifact ∧ a = pinned artifact ∧ trusted_image c artifact.
Proof.
  unfold resolveEmergencyArtifact. cbn [once svc_bind exec_svc]. unfold on_fleet.
  destruct (fl_artifacts (cn_fleet c) !! TrimSpace id) as [artifact|] eqn:Ea; simpl; [|done].
  match goal with |- context [if ?b then _ else _] => destruct b eqn:Ev end; [done|]. apply orb_false_iff in Ev as [Etype Evalid]. destruct_bools.
  cbn [exec_svc on_trust fst snd]. set (meta := GetPolicy targetEnv (cn_trust c)).
  rewrite exec_bind. fold meta. destruct (exec_svc (trustedVerificationForArtifact artifact (PolicyVersion (tp_Version meta))) c) as [r c2] eqn:Et. cbn [fst snd].
  destruct r as [[v|]|e]; try done. apply trustedVerification_Ok in Et as [-> Hv]. case_bool_decide as Hst; simpl; [|done].
  destruct (ve_RevocationEpoch v <? tp_RevocationEpoch meta) eqn:Eep; [done|].
  cbn [exec_svc]. rewrite here_eq. simpl. match goal with |- context [negb ?b] => destruct b eqn:El end; simpl; [|done]. intros [= <- <-].
  split; [split; [done|]; simpl; unfold db_of; by rewrite node_of_set|]. exists artifact. split_and!; [done|done|]. split_and!; [done|done|].
  apply verdictRootIsLive_ex in El as (root & Hroot & Hm). exists v, root. simpl in Hroot. unfold GetActiveByEnvironment in Hroot.
  rewrite merge_sort_Permutation, list_elem_of_filter in Hroot. destruct Hroot as [Hacc Hin]. split_and!; [done|done|by apply Z.ltb_ge in Eep|done|exact Hacc|done].
Qed.

(** What may be asked of the workload of a definition. *)
Definition approved_entry (definition : ReleaseDefinition) (scope : string) (e : string * string) : Prop :=
  (∃ a, a ∈ rd_ApprovedAnnotationKeys definition ∧ aak_Key a = e.1 ∧ aak_Scope a = scope) ∧
  e.2 ≠ "" ∧ (String.length e.2 ≤ emergencyMaxAnnotationValueBytes)%nat.
Definition permitted (msg : ExecuteEmergencyChangeRequest) (definition : ReleaseDefinition) (c : S) (kind : string) (change : emergency_change) : Prop :=
  match change with
  | NoChange => False
  | SetReplicas n =>
      n = eq_SetReplicas msg ∧ 0 ≤ n ≤ rd_MaxEmergencyReplicas definition ∧ rd_HPAManaged definition = false ∧
      (kind = workloadDeployment ∨ kind = workloadStatefulSet)
  | SetApprovedAnnotations entries scope =>
      (1 ≤ length entries ≤ emergencyMaxAnnotations)%nat ∧ NoDup entries.*1 ∧ Forall (approved_entry definition scope) entries
  | SetContainerImage container ref =>
      container ≠ "" ∧ ∃ artifact, fl_artifacts (cn_fleet c) !! TrimSpace (eq_ArtifactRef msg) = Some artifact ∧
        trusted_image c artifact ∧ ref = va_Ref (pinned artifact)
  end.
Definition requested (r : emergencyResolvedChange) : emergency_change :=
  match rs_action r with
  | EmergencySetContainerImage => SetContainerImage (rs_container r) (rs_imageReference r)
  | EmergencySetReplicas => SetReplicas (default 0 (rs_replicas r))
  | EmergencySetApprovedAnnotations => SetApprovedAnnotations (rs_annotations r) (rs_annotationScope r)
  | _ => NoChange
  end.
(** The annotations of the column are those of the request. *)
Lemma encode_entries_decode entries : decode_slice decode_entry (encode_entries entries) = Some entries.
Proof. unfold decode_slice, encode_entries. induction entries as [|[k v] l IH]; [done|]. cbn [fmap list_fmap mapM]. rewrite IH. done. Qed.
Lemma command_of_intent id opID commandID t definition r identity convergence :
  emergencyCommandFromIntent (emergency_intent id opID commandID t definition r identity convergence) =
  {| mc_CommandId := commandID; mc_OperationId := opID; mc_Action := rs_action r; mc_WorkloadKind := pw_Kind (rs_workload r);
     mc_WorkloadName := pw_Name (rs_workload r); mc_WorkloadNamespace := pw_Namespace (rs_workload r); mc_WorkloadUid := wi_UID identity;
     mc_Change := requested r |}.
Proof.
  unfold emergencyCommandFromIntent, requested. cbn -[encode_entries decode_slice]. f_equal.
  destruct (rs_action r); try done; cbn -[encode_entries decode_slice]; rewrite ?bool_decide_true by done; try done. by rewrite encode_entries_decode.
Qed.
Lemma approved_key_in definition key a : approved_key definition key = Some a → a ∈ rd_ApprovedAnnotationKeys definition ∧ aak_Key a = key.
Proof.
  unfold approved_key. intros [Hin Hk]%find_row_Some. destruct_bools. split; [|done]. by rewrite <- list_elem_of_In, <- in_rev, list_elem_of_In in Hin || (apply list_elem_of_In, in_rev, list_elem_of_In; done).
Qed.
Lemma check_annotations_Ok definition scope entries : ∀ seen accepted paths,
  check_annotations definition scope seen entries = Ok (accepted, paths) →
  length accepted = length entries ∧ Forall (approved_entry definition scope) accepted ∧ NoDup accepted.*1 ∧ (∀ k, k ∈ accepted.*1 → k ∉ seen).
Proof.
  induction entries as [|[rawKey value] entries IH]; intros seen accepted paths; cbn [check_annotations].
  { intros [= <- <-]. split_and!; [done|by apply Forall_nil|by apply NoDup_nil_2|]. intros k Hk. by apply elem_of_nil in Hk. }
  set (key := TrimSpace rawKey). case_bool_decide; [done|]. case_bool_decide as Hseen; [done|].
  destruct (approved_key definition key) as [a|] eqn:Ea; [|done]. apply approved_key_in in Ea as [Hin Hkey].
  case_bool_decide as Hscope; simpl; [|done]. destruct (_ || _) eqn:Ev; [done|]. apply orb_false_iff in Ev as [Ev El]. destruct_bools.
  destruct (check_annotations definition scope (key :: seen) entries) as [[acc ps]|] eqn:Ec; [|done]. intros [= <- <-].
  destruct (IH _ _ _ Ec) as (Hlen & Hall & Hnd & Hfresh). cbn. split_and!.
  - by rewrite Hlen.
  - apply Forall_cons. split; [|done]. split; [by exists a|]. split; [done|]. by apply Nat.ltb_ge in El.
  - apply NoDup_cons. split; [|done]. intros Hk. apply (Hfresh _ Hk). by apply elem_of_cons; left.
  - intros k [->|Hk]%elem_of_cons; [done|]. intros Hs. apply (Hfresh _ Hk). by apply elem_of_cons; right.
Qed.
Lemma resolveEmergencyAnnotations_Ok msg definition workload r c :
  resolveEmergencyAnnotations msg definition workload = Ok r →
  rs_workload r = workload ∧ permitted msg definition c (pw_Kind workload) (requested r).
Proof.
  unfold resolveEmergencyAnnotations. case_bool_decide; [done|]. case_bool_decide as Hne; [done|].
  destruct (_ <? _)%nat eqn:El; [done|]. apply Nat.ltb_ge in El.
  destruct (check_annotations _ _ _ _) as [[entries paths]|] eqn:Ec; [|done]. intros [= <-]. split; [done|]. simpl.
  apply check_annotations_Ok in Ec as (Hlen & Hall & Hnd & _). rewrite Hlen. split_and!; [|done..].
  destruct (eq_Annotations msg); [done|]. simpl. lia.
Qed.
Lemma resolveEmergencyReplicas_Ok msg definition workload r c :
  resolveEmergencyReplicas msg definition workload = Ok r →
  rs_workload r = workload ∧ permitted msg definition c (pw_Kind workload) (requested r).
Proof.
  unfold resolveEmergencyReplicas. destruct (_ && _) eqn:Ek; [done|]. destruct (rd_HPAManaged definition) eqn:Eh; [done|].
  destruct (_ || _) eqn:Er; [done|]. cbv zeta. match goal with |- context [if ?b then _ else _] => destruct b end; [done|]. intros [= <-]. split; [done|]. simpl.
  apply andb_false_iff in Ek. split_and!; [done|lia|lia|done|]. destruct Ek; destruct_bools; auto.
Qed.
Lemma resolveEmergencyImage_Ok msg definition workload c r c1 :
  exec_svc (resolveEmergencyImage msg definition workload) c = (Ok r, c1) →
  near c c1 ∧ rs_workload r = workload ∧ permitted msg definition c (pw_Kind workload) (requested r).
Proof.
  unfold resolveEmergencyImage. intros (a & c2 & (Hn & artifact & Ha & -> & Ht)%resolveEmergencyArtifact_Ok & Hx)%exec_then.
  case_bool_decide as Hc; [done|]. cbv zeta in Hx. match type of Hx with context [if ?b then _ else _] => destruct b end; [done|]. injection Hx as <- <-. split_and!; [done|done|]. simpl. split; [done|].
  by exists artifact.
Qed.
Lemma resolve_Ok msg definition c r c1 :
  exec_svc (resolveExecuteEmergencyChange msg definition) c = (Ok r, c1) →
  near c c1 ∧ parseWorkloadRef (eq_WorkloadRef msg) = Some (rs_workload r) ∧
  permitted msg definition c (pw_Kind (rs_workload r)) (requested r).
Proof.
  unfold resolveExecuteEmergencyChange. destruct (parseWorkloadRef _) as [workload|]; [|done].
  case_bool_decide; [|case_match].
  - intros [= Hr <-]. destruct (resolveEmergencyReplicas_Ok _ _ _ _ c Hr) as [-> ?]. done.
  - intros [= Hr <-]. destruct (resolveEmergencyAnnotations_Ok _ _ _ _ c Hr) as [-> ?]. done.
  - by intros (? & -> & ?)%resolveEmergencyImage_Ok.
Qed.

(** The workload's identity, as the operator reported it. *)
Definition identifies (workload : parsedWorkloadRef) (i : WorkloadIdentity) : Prop :=
  wi_Kind i = pw_Kind workload ∧ wi_Name i = pw_Name workload ∧ wi_Namespace i = pw_Namespace workload ∧ wi_UID i ≠ "".
Lemma resolveEmergencyWorkloadIdentity_Ok definition workload c i c1 :
  exec_svc (resolveEmergencyWorkloadIdentity definition workload) c = (Ok i, c1) →
  c1 = c ∧ fl_identities (cn_fleet c) !! rd_ID definition = Some i ∧ identifies workload i.
Proof.
  unfold resolveEmergencyWorkloadIdentity. cbn [once svc_bind exec_svc]. unfold on_fleet.
  destruct (fl_identities (cn_fleet c) !! rd_ID definition) as [j|]; simpl; [|done].
  match goal with |- context [if ?b then _ else _] => destruct b eqn:E1 end; [done|].
  match goal with |- context [if ?b then _ else _] => destruct b eqn:E2 end; [done|].
  match goal with |- context [if ?b then _ else _] => destruct b eqn:E3 end; [done|]. intros [= <- <-].
  repeat match goal with H : _ || _ = false |- _ => apply orb_false_iff in H as [? ?] end. destruct_bools. by split_and!.
Qed.
(** An online operator of the definition's cluster and customer. *)
Definition operator_of (definition : ReleaseDefinition) (db : DB) (operatorID : string) : Prop :=
  ∃ o s, o ∈ operators_of db ∧ o_ID o = operatorID ∧ o_Status o = OperatorActive ∧ o_ClusterID o = rd_ClusterID definition ∧
    o_CustomerID o = rd_CustomerID definition ∧ s ∈ Operators.sessions_of db ∧ sn_OperatorID s = operatorID ∧ sn_Status s = SessionOnline.
Lemma onlineEmergencyOperator_near definition c : near c (exec_svc (onlineEmergencyOperator definition) c).2.
Proof.
  apply exec_calls; [apply _|]. unfold onlineEmergencyOperator. split; [intros c'; apply like_near, here_like, row_world|]. intros [o|e]; [|done]. case_match; [done|].
  split; [intros c'; apply like_near, here_like, row_world|]. intros [s|e]; [|done]. case_match; [done|]. case_match; [|done]. split; [apply here_near; db_preserve|].
  intros [t|e]; [by case_match|done].
Qed.
Lemma onlineEmergencyOperator_Ok definition c operatorID c1 :
  exec_svc (onlineEmergencyOperator definition) c = (Ok operatorID, c1) → near c c1 ∧ operator_of definition (cdb c) operatorID.
Proof.
  intros Hx. split; [by replace c1 with (exec_svc (onlineEmergencyOperator definition) c).2 by (by rewrite Hx); apply onlineEmergencyOperator_near|].
  unfold onlineEmergencyOperator in Hx. apply exec_must in Hx as (o & Eo & Hx); [|by eexists].
  assert (Hl := here_like (GetByClusterID (rd_ClusterID definition)) (row_world _) c). apply here_row in Eo.
  case_match eqn:E1; [done|]. apply exec_must in Hx as (s & Es & Hx); [|by eexists]. apply here_row in Es. rewrite (like_db _ _ Hl) in Es.
  case_match eqn:E2; [done|]. assert (operatorID = o_ID o) as ->.
  { case_match; [|by injection Hx]. apply exec_must in Hx as (t & _ & Hx); [|by eexists]. case_match; [done|]. by injection Hx. }
  apply orb_false_iff in E1 as [Ecust _]. apply find_row_Some in Eo as [Hino Eo]. apply first_by_elem, list_elem_of_filter in Es as [Hlive Hs].
  unfold live_of, Operators.is_active in *. destruct_bools. exists o, s. by split_and!.
Qed.
(** The stream gets the command; the rest of the delivery leaves channels alone. *)
Lemma DispatchEmergency_Ok operatorID command c u c1 :
  DispatchEmergency operatorID command c = (Ok u, c1) →
  ∃ delivery queue, cn_emergencyStreams c !! operatorID = Some delivery ∧ cn_channels c !! delivery = Some queue ∧
    cn_channels c1 = <[delivery := queue ++ [command]]> (cn_channels c) ∧ cn_host c1 = cn_host c.
Proof.
  unfold DispatchEmergency. destruct (_ || _); [done|]. destruct (cn_emergencyStreams c !! operatorID) as [d|]; [|done].
  destruct (cn_channels c !! d) as [queue|] eqn:Eq; [|done]. destruct (_ <? _)%nat; [|done]. intros [= _ <-]. by exists d, queue.
Qed.
Definition dispatched (definition : ReleaseDefinition) (c c' : S) (command : EmergencyCommand) : Prop :=
  ∃ operatorID delivery queue, operator_of definition (cdb c') operatorID ∧ cn_emergencyStreams c !! operatorID = Some delivery ∧
    cn_channels c !! delivery = Some queue ∧ cn_channels c' = <[delivery := queue ++ [command]]> (cn_channels c).
Lemma dispatched_beside definition c c1 c' command : beside c c1 → dispatched definition c1 c' command → dispatched definition c c' command.
Proof. intros (_ & _ & E2 & E3). unfold dispatched. by rewrite E2, E3. Qed.
Lemma here_fleet {A} (m : SM A) c : preserves (db_rel (on_table db_fleet eq)) m → db_fleet (cdb (here m c).2) = db_fleet (cdb c).
Proof.
  intros Hm. destruct (db_of_here m c) as [-> E]. simpl. rewrite E. symmetry. change (nd_world _) with (world_at c).
  apply (Hm (world_at c) (m (world_at c)).1). by destruct (m (world_at c)).
Qed.
Lemma operator_of_fleet definition db db' id : db_fleet db' = db_fleet db → operator_of definition db id → operator_of definition db' id.
Proof. intros E. unfold operator_of, operators_of, Operators.sessions_of. by rewrite E. Qed.
Lemma fail_never {A} op intent e c b c' : exec_svc (failEmergencyDelivery (A:=A) op intent e) c ≠ (Ok b, c').
Proof. unfold failEmergencyDelivery. by rewrite exec_bind. Qed.
Lemma deliver_Ok definition op intent k c resp c' :
  (∀ o c1, (exec_svc (k o) c1).2 = c1) →
  exec_svc (deliver_created definition op intent k) c = (Ok resp, c') → dispatched definition c c' (emergencyCommandFromIntent intent).
Proof.
  intros Hk. unfold deliver_created. rewrite exec_bind.
  destruct (exec_svc (onlineEmergencyOperator definition) c) as [[operatorID|e] c1] eqn:Eon; simpl; [|by intros ?%fail_never].
  apply onlineEmergencyOperator_Ok in Eon as [[Hb Edb] Hon].
  destruct (DispatchEmergency operatorID _ c1) as [[u|e] c2] eqn:Ed; [|by intros ?%fail_never].
  destruct (DispatchEmergency_Ok _ _ _ _ _ Ed) as (d & q & H1 & H2 & H3 & H4). cbn [fst snd].
  intros (u1 & _ & Hx)%exec_must; [|by eexists]. apply exec_must in Hx as (o & _ & Hx); [|by eexists].
  match type of Hx with exec_svc (k o) ?x = _ => assert (Ec' := Hk o x); rewrite Hx in Ec'; simpl in Ec'; subst c' end.
  apply (dispatched_beside _ c c1); [done|]. exists operatorID, d, q. split_and!; [|done|done|].
  - eapply operator_of_fleet; [|exact Hon]. rewrite !here_fleet by (unfold UpdateDeliveryStatus, UpdateStatus_operation, transition, transitionInTx; db_preserve).
    rewrite <- Edb. unfold db_of. by rewrite H4.
  - rewrite <- H3. destruct (here_beside (UpdateStatus_operation (op_ID op) StatusQueued (op_StateVersion op) "")
      (here (UpdateDeliveryStatus (ei_ID intent) "queued") c2).2) as (_ & _ & -> & _).
    by destruct (here_beside (UpdateDeliveryStatus (ei_ID intent) "queued") c2) as (_ & _ & -> & _).
Qed.
Lemma create_and_deliver_Ok definition strategy request command c resp c' :
  ocr_Emergency request = Some command →
  exec_svc (create_and_deliver definition strategy request) c = (Ok resp, c') →
  cn_channels c' = cn_channels c ∨ dispatched definition c c' (emergencyCommandFromIntent (ec_Intent command)).
Proof.
  intros Hsome. unfold create_and_deliver. cbn [once svc_bind exec_svc]. set (c1 := (here (OperationCreationUnitOfWork request) c).2).
  assert (Hb : beside c c1) by apply here_beside.
  assert (Hcreated : ∀ created, (here (OperationCreationUnitOfWork request) c).1 = Ok created → ores_Replayed created = false →
    ∃ i, ores_Intent created = Some i ∧ change_of i = change_of (ec_Intent command)).
  { intros created Hok Hnew. rewrite here_eq in Hok. simpl in Hok. destruct (OperationCreationUnitOfWork request _) as [r w'] eqn:E.
    simpl in Hok. subst r. apply retry_loop_Ok in E as (w0 & Hw0 & E). apply run_commit_Ok in E as [_ E]. rewrite Hsome in E.
    apply createEmergency_inv in E as [[_ E]|(Hr & _)]; [by apply E|congruence]. }
  destruct (here (OperationCreationUnitOfWork request) c).1 as [created|e]; [|done].
  destruct (ores_Replayed created) eqn:Er.
  { intros Hx. left. destruct Hb as (_ & _ & Hb & _). rewrite <- Hb. destruct (ores_Intent created); by injection Hx as _ <-. }
  destruct (Hcreated created eq_refl Er) as (i & -> & Hch). rewrite <- (command_change (ec_Intent command) i Hch).
  intros Hx%deliver_Ok; [|done]. right. by apply (dispatched_beside _ c c1).
Qed.

Lemma permitted_like msg definition c c' kind change : like c c' → permitted msg definition c' kind change → permitted msg definition c kind change.
Proof. intros [(E1 & E2 & _) E3]. destruct change; try done. simpl. unfold trusted_image. by rewrite E1, E2, E3. Qed.
Lemma AuthorizeWrite_Ok actor credential customerID action c source c1 :
  exec_svc (AuthorizeWrite actor credential customerID action) c = (Ok source, c1) →
  beside c c1 ∧ (exec_svc (authorize actor credential customerID action) (cn_host c)).1 = Ok source.
Proof.
  unfold AuthorizeWrite. rewrite exec_lift; [|done|done|by intros []]. intros [= Hs <-]. done.
Qed.
Lemma create_emergency_Ok msg actor definition timeout requestHash keyHash resolved identity expected c resp c' :
  exec_svc (create_emergency msg actor definition timeout requestHash keyHash resolved identity expected) c = (Ok resp, c') →
  cn_channels c' = cn_channels c ∨
  ∃ commandID opID, dispatched definition c c'
    {| mc_CommandId := commandID; mc_OperationId := opID; mc_Action := rs_action resolved; mc_WorkloadKind := pw_Kind (rs_workload resolved);
       mc_WorkloadName := pw_Name (rs_workload resolved); mc_WorkloadNamespace := pw_Namespace (rs_workload resolved);
       mc_WorkloadUid := wi_UID identity; mc_Change := requested resolved |}.
Proof.
  unfold create_emergency. cbv zeta. intros Hx.
  apply exec_must in Hx as (t & _ & Hx); [|by eexists]. assert (B1 : beside c (here now c).2) by apply here_beside. revert Hx B1.
  generalize (here now c).2. intros c1 Hx B1.
  do 3 (apply exec_must in Hx as (? & _ & Hx); [|by eexists]; match type of Hx with exec_svc _ (here new_uuid ?x).2 = _ =>
    assert (B : beside c (here new_uuid x).2) by (etransitivity; [exact B1|apply here_beside]); revert Hx B; generalize (here new_uuid x).2;
    clear dependent x; intros c1 Hx B1 end).
  assert (Hend : ∀ task c2, beside c c2 →
    exec_svc (create_and_deliver definition (eq_ConvergenceStrategy msg) (creation_request
      (emergency_operation x keyHash (ax_OrganizationID actor ++ ":" ++ rd_ID definition) requestHash (eq_Reason msg) actor definition t timeout)
      (emergency_intent x1 x x0 t definition resolved identity (convergenceStrategyFromProto (eq_ConvergenceStrategy msg))) task expected
      (ax_OrganizationID actor ++ ":" ++ rd_ID definition) keyHash requestHash (t + day_ns))) c2 = (Ok resp, c') →
    cn_channels c' = cn_channels c ∨ ∃ commandID opID, dispatched definition c c'
      {| mc_CommandId := commandID; mc_OperationId := opID; mc_Action := rs_action resolved; mc_WorkloadKind := pw_Kind (rs_workload resolved);
         mc_WorkloadName := pw_Name (rs_workload resolved); mc_WorkloadNamespace := pw_Namespace (rs_workload resolved);
         mc_WorkloadUid := wi_UID identity; mc_Change := requested resolved |}).
  { intros task c2 B2 H2. eapply create_and_deliver_Ok in H2; [|reflexivity]. destruct H2 as [H2|H2]; [left; by destruct B2 as (_ & _ & <- & _)|right].
    cbn [ec_Intent] in H2. rewrite command_of_intent in H2. eexists _, _. by eapply dispatched_beside. }
  case_bool_decide; [|by eapply Hend]. apply exec_must in Hx as (taskID & _ & Hx); [|by eexists].
  eapply Hend; [|exact Hx]. etransitivity; [exact B1|apply here_beside].
Qed.

(** What an accepted change has passed, in the state it was asked in. *)
Definition gates (actor : authctx_Actor) (credential : string) (msg : ExecuteEmergencyChangeRequest) (c : S) (definition : ReleaseDefinition)
    (workload : parsedWorkloadRef) (identity : WorkloadIdentity) : Prop :=
  validateExecuteEmergencyRequest msg = None ∧
  ecf_Enabled (emergency_config (at_app_settings (db_auth (cdb c)))) = true ∧
  db_release_definitions (cdb c) !! eq_ReleaseDefinitionId msg = Some definition ∧ rd_Status definition = DefStatusActive ∧
  (∃ customer, db_customers (cdb c) !! rd_CustomerID definition = Some customer ∧ cu_Status customer = CustomerActive) ∧
  parseWorkloadRef (eq_WorkloadRef msg) = Some workload ∧
  fl_identities (cn_fleet c) !! rd_ID definition = Some identity ∧ identifies workload identity ∧
  ∃ t source, db_of t = cdb c ∧ (exec_svc (authorize actor credential (rd_CustomerID definition) AuthorizationExecuteEmergency) t).1 = Ok source.
Definition asks (workload : parsedWorkloadRef) (identity : WorkloadIdentity) (command : EmergencyCommand) : Prop :=
  mc_WorkloadKind command = pw_Kind workload ∧ mc_WorkloadName command = pw_Name workload ∧
  mc_WorkloadNamespace command = pw_Namespace workload ∧ mc_WorkloadUid command = wi_UID identity.
Lemma execute_dispatched actor credential msg c resp c' :
  exec_svc (ExecuteEmergencyChange actor credential msg) c = (Ok resp, c') →
  cn_channels c' = cn_channels c ∨
  ∃ a definition workload identity command, actor = Some a ∧ gates a credential msg c definition workload identity ∧
    asks workload identity command ∧ permitted msg definition c (pw_Kind workload) (mc_Change command) ∧
    dispatched definition c c' command.
Proof.
  unfold ExecuteEmergencyChange. destruct actor as [a|]; [|done]. destruct (validateExecuteEmergencyRequest msg) eqn:Hval; [done|].
  intros Hx. apply exec_must in Hx as (config & Hcfg & Hx); [|by eexists]. rewrite here_eq in Hcfg. injection Hcfg as <-.
  assert (L1 : like c (here GetEmergencyConfig c).2) by by apply here_like. revert Hx L1.
  generalize (here GetEmergencyConfig c).2. intros c1 Hx L1. case_match eqn:Hon; [done|]. apply negb_false_iff in Hon.
  apply exec_then in Hx as (definition & c2 & (Hdef & Hact & L2)%loadEmergencyDefinition_Ok & Hx).
  apply exec_must in Hx as (customer & Hcu & Hx); [|by eexists]. apply here_row in Hcu.
  assert (L3 := here_like (Get_customer (rd_CustomerID definition)) (row_world _) c2). revert Hx L3.
  generalize (here (Get_customer (rd_CustomerID definition)) c2).2. intros c3 Hx L3. case_bool_decide as Hcust; simpl in Hx; [|done].
  assert (L : like c c3) by exact (transitivity L1 (transitivity L2 L3)).
  destruct (protojson_Marshal msg) as [encoded|]; [|done].
  apply exec_then in Hx as (resolved & c4 & (N4 & Hw & Hperm)%resolve_Ok & Hx).
  apply exec_then in Hx as (identity & c5 & (-> & Hid & Hident)%resolveEmergencyWorkloadIdentity_Ok & Hx).
  apply exec_then in Hx as (source & c6 & [B6 Hauth]%AuthorizeWrite_Ok & Hx).
  assert (N : near c c4) by (etransitivity; [by apply like_near|done]).
  assert (B : beside c c6) by (etransitivity; [apply N|done]).
  cbn [once svc_bind exec_svc] in Hx. set (create := create_emergency _ _ _ _ _ _ _ _ _) in Hx.
  assert (Hend : ∀ c7, beside c c7 → exec_svc create c7 = (Ok resp, c') → cn_channels c' = cn_channels c ∨
    ∃ a0 definition workload identity command, Some a = Some a0 ∧ gates a0 credential msg c definition workload identity ∧
    asks workload identity command ∧ permitted msg definition c (pw_Kind workload) (mc_Change command) ∧ dispatched definition c c' command).
  { intros c7 B7 [H7|(commandID & opID & H7)]%create_emergency_Ok; [left; by destruct B7 as (_ & _ & <- & _)|right].
    eexists a, definition, (rs_workload resolved), identity, _. split; [done|]. split; [|split; [|split; [|by eapply dispatched_beside]]].
    - rewrite (like_db _ _ L1) in Hdef. rewrite (like_db _ _ (transitivity L1 L2)) in Hcu. destruct N as [(_ & Ef & _) Edb]. rewrite Ef in Hid.
      split_and!; try done; [by exists customer|]. by exists (cn_host c4), source.
    - done.
    - by eapply permitted_like. }
  set (replay := here (GetReplay_emergency _ _ _)) in Hx. assert (B7 : beside c (replay c6).2) by (etransitivity; [exact B|apply here_beside]).
  destruct (replay c6).1 as [r|e].
  { injection Hx as _ <-. left. by destruct B7 as (_ & _ & -> & _). }
  destruct e; try done. destruct (eq_ConvergenceStrategy msg =? REQUIRE_PROMOTION); [|by eapply Hend].
  apply exec_must in Hx as (blocked & _ & Hx); [|by eexists]. destruct blocked; [done|]. eapply Hend; [|exact Hx].
  etransitivity; [exact B7|apply here_beside].
Qed.

(** C5: an accepted EMERGENCY change has passed every gate.  When a request is
    answered without an error, either it was a replay and nothing was put on any
    stream, or exactly one command was, on the stream of an online operator of
    the release's cluster and customer, and: the kill switch is open, definition
    and customer are active, the actor was authorized against these tables, the
    workload is the one whose UID the operator reported, the change is within the
    limits of the definition or an image that is trusted under the current policy
    by a live root and pinned to its digest, and the command is that of an intent
    in the tables. *)
Theorem execute_admits actor credential msg c resp c' :
  accounted c → exec_svc (ExecuteEmergencyChange actor credential msg) c = (Ok resp, c') →
  cn_channels c' = cn_channels c ∨
  ∃ a definition workload identity command, actor = Some a ∧ gates a credential msg c definition workload identity ∧
    asks workload identity command ∧ permitted msg definition c (pw_Kind workload) (mc_Change command) ∧
    dispatched definition c c' command ∧
    ∃ i, i ∈ db_emergency_intents (cdb c') ∧ command = emergencyCommandFromIntent i.
Proof.
  intros Hc Hx. assert (Hrun := exec_runs (λ x y, accounted y ∧ kept x y) fault _ _ _ _ Hx).
  destruct (wp_runs _ _ _ _ _ _ _ _ Hrun Hc (execute_wp actor credential msg c)) as ([_ _ Hch] & _ & _).
  apply execute_dispatched in Hx as [?|(a & definition & workload & identity & command & H1 & H2 & H3 & H4 & H5)]; [by left|right].
  exists a, definition, workload, identity, command. split_and!; try done.
  destruct H5 as (operatorID & delivery & queue & _ & _ & Hq & Hch'). apply (Hch delivery (queue ++ [command])).
  - rewrite Hch'. apply list_lookup_insert_eq. by eapply lookup_lt_Some.
  - apply elem_of_app. right. by apply list_elem_of_singleton.
Qed.

(** ** Stuck locks are released for the customer's own *)
Lemma scope_Ok actor credential definitionID c scope c1 :
  definitionID ≠ "" → exec_svc (authorizeEmergencyLockScope actor credential definitionID) c = (Ok scope, c1) →
  ∃ definition, db_release_definitions (cdb c) !! definitionID = Some definition ∧ scope = [rd_CustomerID definition] ∧
    (∃ b, binding_of (ax_OrganizationID actor) (rd_CustomerID definition) (cdb c) = Some b ∧ bi_Status b = BindingActive) ∧
    ∃ t source, db_of t = cdb c ∧ (exec_svc (authorize actor credential (rd_CustomerID definition) AuthorizationExecuteEmergency) t).1 = Ok source.
Proof.
  intros Hne. unfold authorizeEmergencyLockScope. rewrite bool_decide_false by done. cbn [once svc_bind exec_svc].
  assert (L1 := here_like (Get_definition definitionID) (row_world _) c). revert L1.
  destruct (here (Get_definition definitionID) c) as [[definition|e] c2] eqn:E; cbn [fst snd]; [|by destruct e]. intros L1.
  assert (Hdef : (here (Get_definition definitionID) c).1 = Ok definition) by by rewrite E. apply here_row in Hdef.
  cbn [exec_svc]. rewrite (here_eq (RequireActive _ _)). unfold RequireActive, bind, query, gets, scan_row, fail_if. simpl.
  change (w_db (nd_world (node_of (cn_host c2)))) with (cdb c2). rewrite (like_db _ _ L1).
  destruct (binding_of (ax_OrganizationID actor) (rd_CustomerID definition) (cdb c)) as [b|] eqn:Eb; [|done]. simpl.
  case_bool_decide as Hb; [|done]. simpl. rewrite exec_bind. destruct (exec_svc (AuthorizeWrite _ _ _ _) _) as [[source|e] c3] eqn:Ea; [|done].
  intros [= <- <-]. apply AuthorizeWrite_Ok in Ea as [_ Ea]. exists definition. split_and!; [done|done|by exists b|]. eexists _, source. split; [|exact Ea].
  simpl. unfold db_of. rewrite node_of_set. simpl. change (nd_world (node_of (cn_host c2))) with (world_at c2). destruct L1 as [_ ->]. done.
Qed.
Lemma validate_release_Ok msg mode :
  validate_release msg = Ok mode →
  TrimSpace (lq_Reason msg) ≠ "" ∧ RuneCount (TrimSpace (lq_Reason msg)) ≤ 1000 ∧ RuneCount (lq_Evidence msg) ≤ 500 ∧
  (mode = EmergencyReleaseNotAppliedProven ∧ lq_Mode msg = 1 ∨ mode = EmergencyReleaseAuditedOverride ∧ lq_Mode msg = 2).
Proof.
  unfold validate_release, releaseModeFromProto. case_bool_decide; [done|]. destruct (1000 <? _) eqn:E1; [done|]. destruct (500 <? _) eqn:E2; [done|].
  destruct (lq_Mode msg =? 1) eqn:M1; [|destruct (lq_Mode msg =? 2) eqn:M2; [|done]]; intros [= <-]; (split_and!; [done|lia|lia|]); lia || (left; split; [done|lia]) || (right; split; [done|lia]).
Qed.
(** C17: who releases a stuck lock.  A release that succeeds was asked by an actor
    whose organization has an active binding to the customer of the intent's
    definition and who was authorized for EMERGENCY changes of that customer
    against these tables, with a reason of 1 to 1000 and evidence of at most 500
    characters and one of the two modes; the tables changed by one ReleaseLock of
    exactly that intent and mode. *)
Theorem release_authorized actor credential msg c released c' :
  exec_svc (ReleaseEmergencyLock actor credential msg) c = (Ok released, c') →
  ∃ a intent mode, actor = Some a ∧ intent ∈ db_emergency_intents (cdb c) ∧ ei_ID intent = lq_IntentId msg ∧
    validate_release msg = Ok mode ∧ TrimSpace (lq_Reason msg) ≠ "" ∧ RuneCount (TrimSpace (lq_Reason msg)) ≤ 1000 ∧ RuneCount (lq_Evidence msg) ≤ 500 ∧
    (ei_ReleaseDefinitionID intent ≠ "" →
       ∃ definition, db_release_definitions (cdb c) !! ei_ReleaseDefinitionID intent = Some definition ∧
         (∃ b, binding_of (ax_OrganizationID a) (rd_CustomerID definition) (cdb c) = Some b ∧ bi_Status b = BindingActive) ∧
         ∃ t source, db_of t = cdb c ∧
           (exec_svc (authorize a credential (rd_CustomerID definition) AuthorizationExecuteEmergency) t).1 = Ok source) ∧
    ∃ w command w', lc_IntentID command = lq_IntentId msg ∧ lc_Mode command = mode ∧ ReleaseLock command w = (Ok released, w') ∧ cdb c' = w_db w'.
Proof.
  unfold ReleaseEmergencyLock. destruct actor as [a|]; [|done]. destruct (validate_release msg) as [mode|e] eqn:Ev; [|done].
  cbn [once svc_bind exec_svc]. destruct (here (getEmergencyIntentByID (lq_IntentId msg)) c) as [[intent|e] c1] eqn:Ei; cbn [fst snd]; [|by destruct e].
  assert (Hi : (here (getEmergencyIntentByID (lq_IntentId msg)) c).1 = Ok intent) by by rewrite Ei.
  assert (E1 : cdb c1 = cdb c).
  { replace c1 with (here (getEmergencyIntentByID (lq_IntentId msg)) c).2 by by rewrite Ei. apply here_near. apply getEmergencyIntentByID_frame; apply _. }
  rewrite here_eq in Hi. simpl in Hi. unfold getEmergencyIntentByID in Hi.
  destruct (bind _ _ (nd_world (node_of (cn_host c)))) as [r w1] eqn:Eb. simpl in Hi. subst r.
  apply bind_Ok in Eb as (row & w2 & Hq & Hs). unfold query, gets in Hq. injection Hq as <- <-. unfold scanEmergencyIntent in Hs.
  apply bind_Ok in Hs as (i & w3 & Hrow & Hs). apply bind_Ok in Hs as (u & w4 & _ & Hs). apply ret_Ok in Hs as [-> _].
  unfold scan_row in Hrow. destruct (find_row _ _) as [x|] eqn:Ef; [|done]. injection Hrow as <- _. apply find_row_Some in Ef as [Hin Hid]. destruct_bools.
  intros (scope & c2 & Hscope & Hx)%exec_then. apply exec_must in Hx as (config & _ & Hx); [|by eexists].
  revert Hx. generalize (here GetEmergencyConfig c2).2. intros c3 Hx. apply exec_must in Hx as (r & Hr & Hx); [|by eexists].
  injection Hx as <- <-. exists a, x, mode. destruct (validate_release_Ok _ _ Ev) as (V1 & V2 & V3 & _).
  split_and!; try done.
  - intros Hne. destruct (scope_Ok _ _ _ _ _ _ Hne Hscope) as (definition & Hd & _ & Hb & Ha). rewrite E1 in *. by exists definition.
  - set (command := {| lc_IntentID := _ |}) in *. destruct (db_of_here (ReleaseLock command) c3) as [-> E]. rewrite here_eq in Hr. simpl in Hr.
    destruct (ReleaseLock command (nd_world (node_of (cn_host c3)))) as [r' w'] eqn:El. simpl in Hr. subst r'.
    eexists _, command, w'. split_and!; [done|done|exact El|exact E].
Qed.
End service.

(** ** Witnesses *)
Definition store_authorize {T} `{Host T} (actor : authctx_Actor) (_ customerID : string) (action : AuthorizationAction)
    : svc T error (res connect_error Z) := StoreAuthorizeWrite actor customerID action.
Definition switch_on (db : DB) : DB := set_auth (set_app_settings {[ emergencyEnabledKey := "true" ]} (db_auth db)) db.
Definition online_fleet : FleetTables :=
  {| ft_enrollment_tokens := []; ft_operators := [sample_operator "op9" "k1" "serial9"];
     ft_sessions := [session_status SessionOnline None None (999 * nsec) (sample_session "s9" "op9" "k1")]; ft_clusters := ∅; ft_audit_events := []; ft_customer_events := [] |}.
Definition emergency_node : Node :=
  {| nd_world := sample_world (switch_on (set_fleet online_fleet site_db)); nd_enforcer := nd_enforcer site_node; nd_limiter := nd_limiter site_node |}.
Definition sample_root : Root :=
  {| tr_ID := "r1"; tr_Environment := "prod"; tr_KeyID := "key1"; tr_PublicKeyPEM := ""; tr_Issuer := "ci"; tr_SubjectPattern := "*";
     tr_State := RootActive; tr_ValidFrom := 0; tr_GraceUntil := None; tr_CreatedAt := 0; tr_UpdatedAt := 0; tr_RevokedAt := None |}.
Definition sample_verdict (status : VerificationStatus) (root : string) : VerificationRecord :=
  {| ve_ID := "v1"; ve_ArtifactDigest := "sha256:beef"; ve_PolicyVersion := PolicyVersion 1; ve_SignatureIdentity := ""; ve_Status := status;
     ve_RootID := root; ve_KeyID := "key1"; ve_RevocationEpoch := 0; ve_Issuer := "ci"; ve_Subject := "s"; ve_Summary := ""; ve_CreatedAt := 0 |}.
Definition sample_fleet : Fleet :=
  {| fl_identities := {[ "d1" := {| wi_Kind := workloadDeployment; wi_Name := "web"; wi_Namespace := "ns"; wi_UID := "uid-web" |} ]};
     fl_artifacts := {[ "a1" := {| va_ID := "a1"; va_ArtifactType := ArtifactImage; va_Ref := "registry/web"; va_Digest := "sha256:cafe";
                                   va_ValidatedAt := Some 0 |} ]};
     fl_links := [("a1", "b1")]; fl_bundles := {[ "b1" := ("sha256", "beef") ]} |}.
Definition control_of (verdict : VerificationRecord) : Control Node :=
  {| cn_host := emergency_node;
     cn_trust := {| td_roots := [sample_root]; td_policies := {[ "prod" := (1, 0) ]}; td_records := [verdict]; td_audit := [] |};
     cn_fleet := sample_fleet; cn_channels := [[]]; cn_emergencyStreams := {[ "op9" := 0%nat ]} |}.
Definition sample_control : Control Node := control_of (sample_verdict VerificationTrusted "r1").
Definition sample_emergency_request : ExecuteEmergencyChangeRequest :=
  {| eq_ReleaseDefinitionId := "d1"; eq_WorkloadRef := "deployments/ns/web"; eq_Container := "app"; eq_OperationVersion := ""; eq_ArtifactRef := "a1";
     eq_ConvergenceStrategy := REVERT_ON_NEXT_RECONCILE; eq_TargetLocks := []; eq_IdempotencyKey := "k"; eq_RequestHash := ""; eq_SetReplicas := 0; eq_Annotations := [];
     eq_AnnotationScope := ""; eq_Reason := "incident 7" |}.
Definition sample_marshal (_ : ExecuteEmergencyChangeRequest) : option string := Some "{}".
Abbreviation sample_execute := (ExecuteEmergencyChange store_authorize "prod" (90 * nsec) sample_marshal (Some sample_actor) "").
Lemma store_authorize_settles {T} `{Host T} actor credential customerID action :
  calls settling (store_authorize (T:=T) actor credential customerID action).
Proof.
  eapply calls_impl; [|apply StoreAuthorizeWrite_quiet]. intros B m Hm t. destruct (Hm t) as [E _]. unfold db_of. rewrite E. reflexivity.
Qed.
Lemma control_accounted verdict : accounted (control_of verdict).
Proof.
  split.
  - by apply invariant_no_operations.
  - intros i Hi. vm_compute in Hi. by apply elem_of_nil in Hi.
  - intros [|ch] queue m; [|done]. intros [= <-] Hm. by apply elem_of_nil in Hm.
Qed.
Abbreviation sample_thread := (thread store_authorize "prod" (90 * nsec) sample_marshal).
Definition sample_threads : list (svc (Control Node) error unit) :=
  [ignore (sample_execute sample_emergency_request); ignore (ExpireEmergencyOperations (T:=Node)); ignore (stream_command (T:=Node) 0)].
Definition sample_schedule (c : Control Node) (schedule : list nat) : Control Node * list (svc (Control Node) error unit) :=
  run_schedule schedule (c, sample_threads).
Lemma sample_runs c schedule :
  rtc (pool_step (λ _, False) sample_thread) (c, []) (sample_schedule c schedule).
Proof.
  etransitivity; [|apply schedule_reachable]. unfold sample_threads.
  eapply rtc_l; [apply pool_start, (thread_execute store_authorize "prod" (90 * nsec) sample_marshal (Some sample_actor) "" sample_emergency_request)|].
  eapply rtc_l; [apply pool_start, thread_expire|]. eapply rtc_l; [apply pool_start, (thread_stream _ _ _ _ 0)|]. apply rtc_refl.
Qed.
Definition dispatch_steps : list nat := repeat 0%nat 31.
Definition sample_command : EmergencyCommand :=
  {| mc_CommandId := "uuid-1"; mc_OperationId := "uuid-0"; mc_Action := EmergencySetContainerImage; mc_WorkloadKind := workloadDeployment;
     mc_WorkloadName := "web"; mc_WorkloadNamespace := "ns"; mc_WorkloadUid := "uid-web";
     mc_Change := SetContainerImage "app" "registry/web@sha256:cafe" |}.
Definition sent_control : Control Node := (sample_schedule sample_control dispatch_steps).1.
Lemma sent_channels : cn_channels sent_control = [[sample_command]].
Proof. vm_compute. reflexivity. Qed.
Lemma commands_recorded_witness : is_Some (db_operations (db_of (cn_host sent_control)) !! mc_OperationId sample_command).
Proof.
  destruct (commands_recorded store_authorize "prod" (90 * nsec) sample_marshal (λ _, False) store_authorize_settles
    sample_control sent_control (sample_schedule sample_control dispatch_steps).2 (control_accounted _))
    as (_ & _ & _ & Htake).
  - assert (Hrun := sample_runs sample_control dispatch_steps). rewrite (surjective_pairing (sample_schedule _ _)) in Hrun. exact Hrun.
  - assert (Ht : ∃ c'', take_command 0 sent_control = (Ok sample_command, c''))
      by (unfold take_command; rewrite sent_channels; by eexists).
    destruct Ht as [c'' Ht]. destruct (Htake 0%nat sample_command c'' Ht) as (i & _ & _ & _ & Hop). exact Hop.
Defined.
Definition executed : res connect_error EmergencyResponse * Control Node :=
  exec_svc (sample_execute sample_emergency_request) sample_control.
Lemma executed_channels : cn_channels executed.2 = [[sample_command]].
Proof. vm_compute. reflexivity. Qed.
Lemma executed_Ok : ∃ resp, executed.1 = Ok resp.
Proof. eexists. vm_compute. reflexivity. Qed.
Lemma execute_admits_witness :
  ∃ definition, permitted "prod" sample_emergency_request definition sample_control workloadDeployment (mc_Change sample_command).
Proof.
  destruct executed_Ok as [resp Hr].
  destruct (execute_admits store_authorize "prod" (90 * nsec) sample_marshal (λ _, False) store_authorize_settles
    (Some sample_actor) "" sample_emergency_request sample_control resp executed.2 (control_accounted _))
    as [Hsame|(a & definition & workload & identity & command & _ & Hg & _ & Hp & Hd & _)].
  - transitivity (executed.1, executed.2); [apply surjective_pairing|by rewrite Hr].
  - rewrite executed_channels in Hsame. discriminate Hsame.
  - exists definition. destruct Hg as (_ & _ & _ & _ & _ & Hw & _). vm_compute in Hw. injection Hw as <-.
    destruct Hd as (operatorID & d & queue & _ & Hs & Hq & Hc). rewrite executed_channels in Hc.
    destruct d as [|d]; [|discriminate Hq]. injection Hq as <-. injection Hc as <-. exact Hp.
Defined.

Definition stuck_db : DB :=
  let settings := {[ emergencyEffectObserveTimeoutKey := "1s" ]} in
  set_customers (db_customers site_db) (set_auth (set_app_settings settings (db_auth site_db)) (w_db stuck_world)).
Definition stuck_control : Control Node :=
  put_cn_host {| nd_world := sample_world stuck_db; nd_enforcer := nd_enforcer site_node; nd_limiter := nd_limiter site_node |} sample_control.
Definition sample_release (mode : Z) : ReleaseEmergencyLockRequest :=
  {| lq_IntentId := "i1"; lq_Mode := mode; lq_Reason := "node lost"; lq_Evidence := "" |}.
Definition released : res connect_error ReleaseLockResult * Control Node :=
  exec_svc (ReleaseEmergencyLock store_authorize (Some sample_actor) "" (sample_release 2)) stuck_control.
Definition lock_released (r : res connect_error ReleaseLockResult) : bool :=
  match r with Ok l => bool_decide (is_Some (ei_LockReleasedAt (lr_Intent l))) | Err _ => false end.
Lemma released_Ok : ∃ l, released.1 = Ok l ∧ lock_released released.1 = true.
Proof.
  assert (Hr : lock_released released.1 = true) by (vm_compute; reflexivity). rewrite Hr. unfold lock_released in Hr.
  destruct released.1 as [l|e]; [by exists l|discriminate Hr].
Qed.
Lemma release_authorized_witness :
  ∃ definition, db_release_definitions stuck_db !! "d1" = Some definition ∧
    ∃ b, binding_of "o1" (rd_CustomerID definition) stuck_db = Some b ∧ bi_Status b = BindingActive.
Proof.
  destruct released_Ok as (l & Hl & _).
  destruct (release_authorized store_authorize (Some sample_actor) "" (sample_release 2) stuck_control l released.2)
    as (a & intent & mode & Ha & Hin & _ & _ & _ & _ & _ & Hscope & _).
  - transitivity (released.1, released.2); [apply surjective_pairing|by rewrite Hl].
  - injection Ha as <-. assert (Hd : ei_ReleaseDefinitionID intent = "d1").
    { change (db_emergency_intents _) with [sample_intent "i1" "op1" "d1" "delivered" EmergencyEffectUnknown] in Hin.
      apply list_elem_of_singleton in Hin. by rewrite Hin. }
    rewrite Hd in Hscope. destruct Hscope as (definition & H1 & H2 & _); [discriminate|]. exists definition. split; [exact H1|exact H2].
Defined.

(** ** What the interleavings of a delivery show *)

(** The deadline can pass between the send and the update of the operation: the
    expiry finds a pending operation, records NOT_APPLIED and frees the lock,
    while the command is still on the operator's stream. *)
Definition short_timeout (c : Control Node) : Control Node :=
  let w := nd_world (cn_host c) in
  let settings := {[ emergencyEnabledKey := "true"; emergencyTimeoutKey := "1s" ]} in
  put_cn_host (put_world (with_db (set_auth (set_app_settings settings (db_auth (w_db w))) (w_db w)) w) (cn_host c)) c.
Definition expired_control : Control Node := (sample_schedule (short_timeout sample_control) (dispatch_steps ++ repeat 1%nat 8)).1.
Lemma expired_though_sent :
  (take_command 0 expired_control).1 = Ok sample_command ∧
  ((λ i, (emergencyCommandFromIntent i, ei_EffectStatus i, is_active_intent "d1" (db_of (cn_host expired_control)) i)) <$>
     db_emergency_intents (db_of (cn_host expired_control))) = [(sample_command, EmergencyEffectNotApplied, false)].
Proof. split; vm_compute; reflexivity. Qed.
(** The operator can take the command before the handler marks it queued. *)
Definition overtaken_control : Control Node :=
  (sample_schedule sample_control (dispatch_steps ++ repeat 2%nat 4)).1.
Definition finished_control : Control Node :=
  (sample_schedule sample_control (dispatch_steps ++ repeat 2%nat 4 ++ repeat 0%nat 4)).1.
Lemma delivered_then_queued :
  (ei_DeliveryStatus <$> db_emergency_intents (db_of (cn_host overtaken_control))) = ["delivered"] ∧
  (ei_DeliveryStatus <$> db_emergency_intents (db_of (cn_host finished_control))) = ["queued"].
Proof. split; vm_compute; reflexivity. Qed.
(** A stream that ends removes the entry of the stream that has replaced it. *)
Lemma closing_removes_successor {T} (c : Control T) operatorID command :
  operatorID ≠ "" → mc_CommandId command ≠ "" →
  let replaced := (close_stream operatorID (open_stream operatorID (open_stream operatorID c).2).2).2 in
  (DispatchEmergency operatorID command replaced).1 = Err (ErrOther "operator stream is offline").
Proof. intros H1 H2. simpl. unfold DispatchEmergency. rewrite !bool_decide_false by done. simpl. by rewrite lookup_delete_eq. Qed.
(** A number of the enum that is not defined passes for REQUIRE_PROMOTION without
    its checks. *)
Definition with_strategy (strategy replicas : Z) (annotations : list (string * string)) : ExecuteEmergencyChangeRequest :=
  {| eq_ReleaseDefinitionId := "d1"; eq_WorkloadRef := "deployments/ns/web"; eq_Container := ""; eq_OperationVersion := ""; eq_ArtifactRef := "";
     eq_ConvergenceStrategy := strategy; eq_TargetLocks := []; eq_IdempotencyKey := "k"; eq_RequestHash := ""; eq_SetReplicas := replicas; eq_Annotations := annotations;
     eq_AnnotationScope := "s"; eq_Reason := "incident 7" |}.
Definition response_to (strategy : Z) : res connect_error EmergencyResponse :=
  (exec_svc (sample_execute (with_strategy strategy 3 [])) sample_control).1.
Lemma unknown_strategy_promotes :
  response_to REQUIRE_PROMOTION =
    Err (emergencyError CodeInvalidArgument "target_locks_required" "target_locks are required for REQUIRE_PROMOTION") ∧
  response_to 3 = Ok {| eo_OperationId := "uuid-0"; eo_OperationVersion := "v2.0.0"; eo_ConvergencePolicy := EmergencyRequirePromotion;
                        eo_ConvergenceTask := Some ("uuid-3", PendingPromotion) |}.
Proof. split; vm_compute; reflexivity. Qed.
(** Annotations beside set_replicas are dropped without an error. *)
Lemma annotations_beside_replicas :
  map (map mc_Change)
    (cn_channels (exec_svc (sample_execute (with_strategy REVERT_ON_NEXT_RECONCILE 3 [("team", "a")])) sample_control).2) = [[SetReplicas 3]].
Proof. vm_compute. reflexivity. Qed.
