(* ===== verification/Preflight.v ===== *)
(** * Preflight (internal/orchestrator/preflight; the effective values of
    command.go, the runner, the coordinator)

    After an operation was created a coordinator checks it: one command per stage
    is put in the outbox of an operator of its cluster, the coordinator polls the
    row until the operator has answered, and when every stage passed it queues the
    operation together with the command that writes the release.  The coordinator
    is a program of store calls ([svc]); the runner holds one entry per running
    coordinator, whose flag is the cancelled context.

    [json.Marshal] of a payload, the YAML parser behind [Canonicalize] and the
    rounding of numbers to float64 are parameters; the number of polls before a
    stage's deadline is too, so nothing depends on the interval. *)
From S2P Require Import Prelude Utf8 Json JsonText Redact Hash Program Domain Lifecycle Values.
From S2P Require Import Database Timeline Idempotency Outbox OperationStore EmergencyStore ValuesRows Creation System Recovery Delivery.
From S2P Require Import Policy AuthStore Sessions Authn Authorization Operators.
From stdpp Require Import pretty sorting.
From Stdlib Require Import Ascii.
#[local] Open Scope Z_scope.

(** ** Stages (stage.go, result.go)

    Names and statuses are strings: an operator reports any. *)
Definition StageArtifact : string := "artifact".
Definition StageRender : string := "render".
Definition StageCluster : string := "cluster".
Definition StageRuntimePull : string := "runtime_pull".
Definition executionStageName : string := "execute".
Record StageDef := { sd_Name : string; sd_Required : bool; sd_Timeout : Z }.
Definition minute_ns : Z := 60 * nsec.
Definition ProductionStages : list StageDef :=
  [{| sd_Name := StageArtifact; sd_Required := true; sd_Timeout := 5 * minute_ns |};
   {| sd_Name := StageRender; sd_Required := true; sd_Timeout := 5 * minute_ns |};
   {| sd_Name := StageCluster; sd_Required := true; sd_Timeout := 10 * minute_ns |};
   {| sd_Name := StageRuntimePull; sd_Required := false; sd_Timeout := 5 * minute_ns |}].
Definition StagePassed : string := "passed".
Definition StageFailed : string := "failed".
Definition StageSkipped : string := "skipped".
Definition StageTimeout : string := "timeout".
Definition StageCancelled : string := "cancelled".
Record StageResult := { sr_Stage : string; sr_Status : string; sr_Detail : string }.
Record AggregateResult := {
  gr_OperationID : string; gr_Overall : string; gr_FailedStage : string; gr_Stages : list StageResult; gr_ErrorCode : string;
}.
Definition stage_result (stage status detail : string) : StageResult :=
  {| sr_Stage := stage; sr_Status := status; sr_Detail := detail |}.
Definition stagesForOperation (op : Operation) : list StageDef :=
  if bool_decide (op_BundleID op = "") then [] else ProductionStages.
Definition canonicalStageName (s : string) : string := if bool_decide (s = StageCluster) then "dryrun" else s.
Definition canonicalStages (stages : list StageResult) : string := String.concat "," ((λ s, canonicalStageName (sr_Stage s)) <$> stages).
(** [strings.Cut(detail, ":")] *)
Fixpoint before_colon (l acc : bytes) : option bytes :=
  match l with
  | [] => None
  | c :: l => if bool_decide (c = ":"%char) then Some (rev acc) else before_colon l (c :: acc)
  end.
Definition errorCodeFromStatus (result : StageResult) : string :=
  if negb (bool_decide (sr_Detail result = "")) then
    match before_colon (str (sr_Detail result)) [] with
    | Some code => TrimSpace (String.string_of_list_ascii code)
    | None => sr_Detail result
    end
  else if bool_decide (sr_Status result = StageTimeout) then "stage_timeout" else "preflight_failed".
(** [json.Unmarshal] into a StageResult. *)
Definition decode_stage_result (s : string) : option StageResult :=
  match parse_json s with
  | Some JNull => Some (stage_result "" "" "")
  | Some (JObj fields) =>
      stage ← decode_string_field "stage" fields ""; status ← decode_string_field "status" fields "";
      detail ← decode_string_field "detail" fields ""; Some (stage_result stage status detail)
  | _ => None
  end.
(** The result of a row that is persisted or succeeded. *)
Definition answered_result (stage resultJSON : string) : StageResult :=
  let result := if bool_decide (resultJSON = "") then stage_result "" "" "" else
    match decode_stage_result resultJSON with
    | Some result => result
    | None => stage_result "" StageFailed "unparseable result"
    end in
  let ok := bool_decide (sr_Status result = "") || bool_decide (sr_Status result = "succeeded") || bool_decide (sr_Status result = "passed") in
  stage_result stage (if ok then StagePassed else sr_Status result) (sr_Detail result).
Definition failedStageResult (stage resultJSON : string) : StageResult :=
  stage_result stage StageFailed
    (if bool_decide (resultJSON = "") then resultJSON else
     match decode_stage_result resultJSON with
     | Some reported => if bool_decide (sr_Detail reported = "") then resultJSON else sr_Detail reported
     | None => resultJSON
     end).
(** [json.Marshal] of the results; empty optional fields are left out. *)
Definition optional (name value : string) : list (string * json) := if bool_decide (value = "") then [] else [(name, JStr value)].
Definition stage_json (s : StageResult) : json :=
  JObj ([("stage", JStr (sr_Stage s)); ("status", JStr (sr_Status s))] ++ optional "detail" (sr_Detail s)).
Definition aggregate_json (r : AggregateResult) : json :=
  JObj ([("operation_id", JStr (gr_OperationID r)); ("overall", JStr (gr_Overall r))] ++ optional "failed_stage" (gr_FailedStage r)
    ++ [("stages", JArr (stage_json <$> gr_Stages r))] ++ optional "error_code" (gr_ErrorCode r)).

(** ** Bundles and payloads (command.go) *)
(** [commonv1.BundleStatus_value] and [commonv1.ImageValueKind_value]: an unknown
    name is 0. *)
Definition BundleStatus_value (s : BundleStatus) : Z :=
  match s with
  | BundleReceived => 1 | BundleValidated => 2 | BundleRejected => 3 | BundleArchived => 4 | BundleStatusOther _ => 0
  end.
Definition ImageValueKind_value : gmap string Z :=
  list_to_map [("IMAGE_VALUE_KIND_UNSPECIFIED", 0); ("IMAGE_VALUE_KIND_FULL_REFERENCE", 1); ("IMAGE_VALUE_KIND_REPOSITORY", 2);
               ("IMAGE_VALUE_KIND_TAG", 3); ("IMAGE_VALUE_KIND_DIGEST", 4)].
Definition ImageValueFullReference : string := "FULL_REFERENCE".
Definition ImageValueRepository : string := "REPOSITORY".
Definition ImageValueTag : string := "TAG".
Definition ImageValueDigest : string := "DIGEST".
(** bundleStore.Get: the row as the domain has it; no [archived_from_status] is nil. *)
Record ReleaseBundle := {
  rb_ID : string; rb_Status : BundleStatus; rb_ArchivedFromStatus : option BundleStatus; rb_ArchivedAt : option time; rb_Content : BundleContent;
}.
Definition scanBundle (id : string) (b : BundleRow) : ReleaseBundle :=
  {| rb_ID := id; rb_Status := br_Status b;
     rb_ArchivedFromStatus := if bool_decide (br_ArchivedFromStatus b = BundleStatusOther "") then None else Some (br_ArchivedFromStatus b);
     rb_ArchivedAt := br_ArchivedAt b; rb_Content := br_Content b |}.
Definition Get_bundle (id : string) : SM ReleaseBundle :=
  let! row := query (λ db, scanBundle id <$> (db_release_bundles db !! id)) in scan_row row.
Record ImageProto := { ip_Ref : string; ip_Digest : string; ip_ValuesPath : string; ip_ValueKind : Z }.
Record BundleProto := { bp_Id : string; bp_Status : Z; bp_Images : list ImageProto; bp_Content : BundleContent }.
Definition bundleToProto (bundle : ReleaseBundle) : BundleProto :=
  {| bp_Id := rb_ID bundle; bp_Status := BundleStatus_value (rb_Status bundle);
     bp_Images := (λ image, {| ip_Ref := bm_Ref image; ip_Digest := bm_Digest image; ip_ValuesPath := bm_ValuesPath image;
                               ip_ValueKind := default 0 (ImageValueKind_value !! bm_ValueKind image) |}) <$> bd_Images (rb_Content bundle);
     bp_Content := rb_Content bundle |}.
Record UpgradeCommand := {
  uc_DefinitionId : string; uc_Namespace : string; uc_ReleaseName : string; uc_BundleId : string; uc_BundleDigest : string;
  uc_ChartRef : string; uc_ChartVersion : string; uc_ChartDigest : string; uc_EffectiveValuesJson : string;
  uc_EffectiveValuesDigest : string; uc_SecretRefs : list Domain.SecretRef; uc_OperationId : string; uc_CommandId : string;
  uc_ExpectedRevision : Z; uc_Atomic : bool; uc_Timeout : Z; uc_MaxHistory : Z;
}.
Record CommandPayload := {
  cp_Stage : string; cp_OperationID : string; cp_BundleID : string; cp_PayloadVersion : Z; cp_Upgrade : option UpgradeCommand;
  cp_DefinitionID : string; cp_Namespace : string; cp_ReleaseName : string; cp_TimeoutSeconds : Z; cp_Bundle : option BundleProto;
  cp_Values : option string; cp_ValuesRevisionID : string; cp_ExpectedCurrentRevision : Z; cp_TargetRevision : Z;
  cp_CreateNamespace : bool; cp_ValuesPatch : option string; cp_ApprovedAnnotationKeys : list ApprovedAnnotationKey;
}.
(** The bytes of a document column. *)
Definition raw_bytes (r : raw) : string := match r with RawEmpty => "" | RawText s => s | RawJson j => json_text j end.

(** ** Effective values

    A map is the list of its entries; keys are unique. *)
Definition entry (k : string) (m : list (string * json)) : option json :=
  snd <$> find_row (λ e, bool_decide (e.1 = k)) m.
Definition without (k : string) (m : list (string * json)) : list (string * json) := filter (λ e, e.1 ≠ k) m.
Definition put (k : string) (v : json) (m : list (string * json)) : list (string * json) := without k m ++ [(k, v)].
(** [target[key].(map[string]any)], or a new map *)
Definition object_or_new (v : option json) : list (string * json) := match v with Some (JObj m) => m | _ => [] end.
(** What a patch value leaves in place of the old one. *)
Fixpoint merge_value (old : option json) (value : json) : json :=
  match value with
  | JObj patch =>
      JObj ((fix merge (target patch : list (string * json)) : list (string * json) :=
               match patch with
               | [] => target
               | (key, value) :: patch =>
                   merge (match value with
                          | JNull => without key target
                          | _ => put key (merge_value (entry key target) value) target
                          end) patch
               end) (object_or_new old) patch)
  | _ => value
  end.
Definition mergeJSON (target patch : list (string * json)) : list (string * json) :=
  object_or_new (Some (merge_value (Some (JObj target)) (JObj patch))).
(** [None]: a value on the way is no object, or the leaf holds no string. *)
Fixpoint setValuesPath (document : list (string * json)) (segments : list string) (value : string) : option (list (string * json)) :=
  match segments with
  | [] => None
  | [leaf] =>
      match entry leaf document with
      | None | Some (JStr _) => Some (put leaf (JStr value) document)
      | Some _ => None
      end
  | segment :: segments =>
      match entry segment document with
      | Some (JObj child) => child ← setValuesPath child segments value; Some (put segment (JObj child) document)
      | None | Some JNull => child ← setValuesPath [] segments value; Some (put segment (JObj child) document)
      | Some _ => None
      end
  end.
Definition segments (path : string) : list string := String.string_of_list_ascii <$> split_on "."%char (str path).
Definition normalizeImageReference (image : BundleImage) : string :=
  if HasPrefix (bm_Digest image) "sha256:" then bm_Ref image ++ "@" ++ bm_Digest image
  else bm_Ref image ++ "@sha256:" ++ bm_Digest image.
Fixpoint set_images (document : list (string * json)) (images : list BundleImage) : option (list (string * json)) :=
  match images with
  | [] => Some document
  | image :: images =>
      if bool_decide (bm_ValuesPath image = "") then None
      else document ← setValuesPath document (segments (bm_ValuesPath image)) (normalizeImageReference image); set_images document images
  end.
(** [json.Marshal] of the result: keys in byte order. *)
Fixpoint sorted (j : json) : json :=
  match j with
  | JObj fields => JObj (merge_sort field_le (map (λ kv, (kv.1, sorted kv.2)) fields))
  | JArr l => JArr (map sorted l)
  | _ => j
  end.

(** inventoryStore.GetByDefinition *)
Definition GetByDefinition_inventory (definitionID : string) : SM InventoryRow :=
  let! row := query (λ db, find_row (λ r, bool_decide (inv_ReleaseDefinitionID r = definitionID)) (db_release_inventory db)) in scan_row row.

Section values.
(** A number literal after [json.Unmarshal] into [any] and [json.Marshal]. *)
Context (float64 : json → json).
(** [json.Unmarshal] into [any]: of two equal keys the last one counts. *)
Fixpoint decode_any (j : json) : json :=
  match j with
  | JObj fields => JObj (fold_left (λ m kv, put kv.1 kv.2 m) (map (λ kv, (kv.1, decode_any kv.2)) fields) [])
  | JArr l => JArr (map decode_any l)
  | JNum _ | JFrac _ => float64 j
  | _ => j
  end.
(** The inner [None]: a document that is null is a nil map. *)
Definition decode_document (s : string) : option (option (list (string * json))) :=
  match parse_json s with
  | Some j => match decode_any j with JObj m => Some (Some m) | JNull => Some None | _ => None end
  | None => None
  end.
End values.

(** ** The gate

    [past_gate]: a standard operation that is queued or further, and not ended.
    Whatever does not queue operations keeps these, their kind and the commands. *)
Definition is_past (s : OperationStatus) : bool :=
  match s with StatusQueued | StatusRunning | StatusCancelling => true | _ => false end.
Definition past_gate (o : Operation) : Prop := IsStandard (op_OperationType o) = true ∧ is_past (op_Status o) = true.
Definition same_kind (o o' : Operation) : Prop :=
  op_ID o' = op_ID o ∧ op_OperationType o' = op_OperationType o ∧ op_BundleID o' = op_BundleID o.
Definition ops_gate (m m' : gmap string Operation) : Prop :=
  ops_wf m → ops_wf m' ∧
  (∀ id o', m' !! id = Some o' → past_gate o' → ∃ o, m !! id = Some o ∧ past_gate o ∧ same_kind o o') ∧
  ∀ id o, m !! id = Some o → ∃ o', m' !! id = Some o' ∧ same_kind o o'.
Definition rows_kept (l l' : list OutboxEntry) : Prop :=
  ∀ row, row ∈ l → ∃ row', row' ∈ l' ∧ ob_CommandID row' = ob_CommandID row ∧ ob_OperationID row' = ob_OperationID row.
Definition keeps_gate (db db' : DB) : Prop :=
  ops_gate (db_operations db) (db_operations db') ∧ rows_kept (db_outbox db) (db_outbox db').
#[export] Instance same_kind_preorder : PreOrder same_kind.
Proof. split; [done|]. intros a b c (?&?&?) (?&?&?). split_and!; congruence. Qed.
#[export] Instance ops_gate_preorder : PreOrder ops_gate.
Proof.
  split.
  - intros m Hwf. split_and!; [done| |]; intros id o Ho; [intros Hp|]; by exists o.
  - intros m1 m2 m3 H12 H23 Hwf. destruct (H12 Hwf) as (Hwf2 & Hb1 & Hf1). destruct (H23 Hwf2) as (Hwf3 & Hb2 & Hf2). split_and!; [done| |].
    + intros id o Ho Hp. destruct (Hb2 id o Ho Hp) as (o2 & Ho2 & Hp2 & ?). destruct (Hb1 id o2 Ho2 Hp2) as (o1 & Ho1 & Hp1 & ?).
      exists o1. split_and!; [done|done|by etransitivity].
    + intros id o Ho. destruct (Hf1 id o Ho) as (o2 & Ho2 & ?). destruct (Hf2 id o2 Ho2) as (o3 & Ho3 & ?). exists o3. split; [done|by etransitivity].
Qed.
#[export] Instance rows_kept_preorder : PreOrder rows_kept.
Proof.
  split; [intros l row Hr; by exists row|]. intros l1 l2 l3 H12 H23 row Hr. destruct (H12 row Hr) as (r2 & H2 & ? & ?).
  destruct (H23 r2 H2) as (r3 & H3 & ? & ?). exists r3. split_and!; [done|congruence|congruence].
Qed.
#[export] Instance keeps_gate_preorder : PreOrder keeps_gate.
Proof. split; [intros db; split; reflexivity|]. intros a b c [] []. split; by etransitivity. Qed.
Lemma keeps_gate_tables {A} (m : SM A) :
  preserves (db_rel (on_table db_operations ops_gate)) m → preserves (db_rel (on_table db_outbox rows_kept)) m →
  preserves (db_rel keeps_gate) m.
Proof. intros H1 H2 w r w' H. split; [by apply (H1 _ _ _ H)|by apply (H2 _ _ _ H)]. Qed.
(** One operation row is rewritten, its status not moved past the gate. *)
Lemma ops_gate_row m id o o' :
  m !! id = Some o → same_kind o o' → (past_gate o' → past_gate o) → ops_gate m (<[id := o']> m).
Proof.
  intros Ho Hk Hp Hwf. split_and!.
  - intros k x [[<- <-]|[? Hx]]%lookup_insert_Some; [|by apply Hwf]. destruct Hk as (-> & _). by apply Hwf.
  - intros k x [[<- <-]|[? Hx]]%lookup_insert_Some Hg; [exists o|exists x]; split_and!; auto. reflexivity.
  - intros k x Hx. destruct (decide (k = id)) as [->|]; [rewrite lookup_insert_eq; simplify_eq; eauto|].
    rewrite lookup_insert_ne by done. exists x. split; [done|reflexivity].
Qed.
Lemma ops_gate_new m id o :
  m !! id = None → op_ID o = id → ¬ past_gate o → ops_gate m (<[id := o]> m).
Proof.
  intros Hid Hop Hg Hwf. split_and!.
  - intros k x [[<- <-]|[? Hx]]%lookup_insert_Some; [done|by apply Hwf].
  - intros k x [[<- <-]|[? Hx]]%lookup_insert_Some Hp; [done|]. exists x. split_and!; [done|done|reflexivity].
  - intros k x Hx. rewrite lookup_insert_ne by congruence. exists x. split; [done|reflexivity].
Qed.
Lemma rows_kept_app l rows : rows_kept l (l ++ rows).
Proof. intros row Hr. exists row. split; [by apply elem_of_app; left|done]. Qed.
Lemma rows_kept_update p f l :
  (∀ r, ob_CommandID (f r) = ob_CommandID r ∧ ob_OperationID (f r) = ob_OperationID r) → rows_kept l (update_where p f l).
Proof.
  intros Hf row Hr. exists (if p row then f row else row). split; [|case_match; [apply Hf|done]].
  apply list_elem_of_fmap. by exists row.
Qed.
Lemma transition_past s e n terminal o :
  CanTransitionTo (op_Status o) s = true → s ≠ StatusQueued → past_gate (transition_row s e n terminal o) → past_gate o.
Proof. intros Hc Hs [Hstd Hin]. split; [done|]. simpl in Hin. by destruct (op_Status o), s. Qed.
Lemma createOutboxEntry_kept e : preserves (db_rel (on_table db_outbox rows_kept)) (createOutboxEntry e).
Proof. unfold createOutboxEntry. db_preserve. apply preserves_exec. intros db. apply rows_kept_app. Qed.
#[local] Hint Resolve createOutboxEntry_kept : preserve.
#[local] Hint Extern 5 (preserves _ (exec _)) => apply preserves_exec; intros ?db; first [by apply rows_kept_update|apply rows_kept_app] : preserve.
Lemma transitionInTx_gate id status v err w u w' :
  status ≠ StatusQueued → transitionInTx id status v err w = (Ok u, w') → keeps_gate (w_db w) (w_db w').
Proof.
  intros Hq H. split.
  - intros Hwf. destruct (transitionInTx_inv _ _ _ _ _ _ _ Hwf H) as (o & n & Ho & _ & Hcan & _ & _ & Hops). rewrite Hops.
    revert Hwf. apply (ops_gate_row _ _ o); [done|done|]. intros Hp. by eapply transition_past.
  - assert (Hf : preserves (db_rel (on_table db_outbox eq)) (transitionInTx id status v err)) by (unfold transitionInTx; db_preserve).
    unfold on_table in Hf. rewrite <- (Hf _ _ _ H). reflexivity.
Qed.
Lemma transition_gate id status v err : status ≠ StatusQueued → preserves (db_rel keeps_gate) (transition id status v err).
Proof.
  intros Hq. apply commits_run_tx; [apply _|]. intros w u w' H. apply -> @commit_Ok in H. by apply transitionInTx_gate in H.
Qed.
Lemma keeps_gate_frames {A} (m : SM A) :
  preserves (db_rel (on_table db_operations eq)) m → preserves (db_rel (on_table db_outbox eq)) m → preserves (db_rel keeps_gate) m.
Proof. intros H1 H2 w r w' H. split; [rewrite (frame db_operations m w r w' H1 H)|rewrite (frame db_outbox m w r w' H2 H)]; reflexivity. Qed.
Lemma outbox_gate {A} (m : SM A) :
  preserves (db_rel (on_table db_operations eq)) m → preserves (db_rel (on_table db_outbox rows_kept)) m → preserves (db_rel keeps_gate) m.
Proof. intros H1 H2 w r w' H. split; [rewrite (frame db_operations m w r w' H1 H); reflexivity|by apply (H2 _ _ _ H)]. Qed.
Lemma SavePreflightResult_gate id result : preserves (db_rel keeps_gate) (SavePreflightResult id result).
Proof. apply keeps_gate_frames; unfold SavePreflightResult; db_preserve. Qed.
Lemma CreateOrReset_gate id : preserves (db_rel keeps_gate) (CreateOrReset id).
Proof. apply keeps_gate_frames; unfold CreateOrReset, GetByOperationID_preflight; db_preserve. Qed.
Lemma UpdateResult_gate id overall stages : preserves (db_rel keeps_gate) (UpdateResult id overall stages).
Proof. apply keeps_gate_frames; unfold UpdateResult; db_preserve. Qed.
Lemma Create_outbox_gate e : preserves (db_rel keeps_gate) (Create_outbox e).
Proof. apply outbox_gate; unfold Create_outbox, normalizeOutboxEntry; db_preserve. Qed.
Lemma UpdateStatus_outbox_gate id status result : preserves (db_rel keeps_gate) (UpdateStatus_outbox id status result).
Proof. apply outbox_gate; unfold UpdateStatus_outbox; db_preserve.  Qed.
Lemma PersistAck_gate id : preserves (db_rel keeps_gate) (PersistAck id).
Proof.
  apply outbox_gate; unfold PersistAck, persist_ack, persistAckTx; db_preserve. 
Qed.
Lemma FinalizeUpgrade_gate input : IsTerminal (ui_Status input) = true → preserves (db_rel keeps_gate) (FinalizeUpgrade input).
Proof.
  intros Hterm. apply commits_run_tx; [apply _|]. intros w [] w' H. split.
  - destruct (finalizeUpgradeTx_inv _ _ _ H) as (_ & o & n & Ho & _ & Hops & _). rewrite Hops. apply (ops_gate_row _ _ o); [done|done|].
    intros [_ Hin]. simpl in Hin. by destruct (ui_Status input).
  - assert (Hf : preserves (db_rel (on_table db_outbox eq)) (finalizeUpgradeTx input)) by (unfold finalizeUpgradeTx; db_preserve).
    unfold on_table in Hf. rewrite <- (Hf _ _ _ H). reflexivity.
Qed.
Lemma Cancel_gate command : cc_TargetStatus command ≠ StatusQueued → preserves (db_rel keeps_gate) (OperationStore.Cancel command).
Proof.
  intros Hq. apply commits_run_tx; [apply _|]. intros w result w' H. split.
  - intros Hwf. destruct (cancelInTx_inv _ _ _ _ Hwf H) as (o & n & Ho & _ & Hcan & _ & Hops). rewrite Hops. revert Hwf.
    apply (ops_gate_row _ _ o); [done|done|]. intros Hp. by eapply transition_past.
  - assert (Hf : preserves (db_rel (on_table db_outbox eq)) (cancelInTx command)).
    { unfold cancelInTx, lookupOperationCancelIdempotency, insertOperationCancelIdempotency, decode_cancel. db_preserve. }
    unfold on_table in Hf. rewrite <- (Hf _ _ _ H). reflexivity.
Qed.
(** Creations: a new row of the same kind that is not past the gate. *)
Lemma createOperation_kind op w op' w' :
  createOperation op w = (Ok op', w') →
  db_operations (w_db w) !! op_ID op = None ∧ same_kind op op' ∧ op_Status op' = op_Status op ∧
  w_db w' = set_operations (<[op_ID op := operation_row op']> (db_operations (w_db w))) (w_db w).
Proof.
  intros Hc. pose proof (createOperation_inv _ _ _ _ Hc) as (Hfresh & _ & _ & _ & Hst & Hdb). split; [done|]. split; [|done].
  unfold createOperation in Hc. cbv zeta in Hc. by dinv.
Qed.
Lemma created_ops_gate op op' m :
  m !! op_ID op = None → same_kind op op' → op_Status op' = op_Status op → ¬ past_gate op → ops_gate m (<[op_ID op := operation_row op']> m).
Proof.
  intros Hfresh (Hid & Hty & _) Hst Hg. apply ops_gate_new; [done|exact Hid|]. unfold past_gate in *. simpl. by rewrite Hty, Hst.
Qed.
Lemma UnitOfWork_row req w res w' :
  createOperationUnitOfWork req w = (Ok res, w') →
  let op := ocr_Operation req in
  db_operations (w_db w) !! op_ID op = None ∧ same_kind op (ores_Operation res) ∧ op_Status (ores_Operation res) = op_Status op ∧
  db_operations (w_db w') = <[op_ID op := operation_row (ores_Operation res)]> (db_operations (w_db w)) ∧
  rows_kept (db_outbox (w_db w)) (db_outbox (w_db w')).
Proof.
  intros Hu op. unfold createOperationUnitOfWork in Hu. cbv zeta in Hu. fold op in Hu.
  apply bind_Ok in Hu as (u0 & w0 & Hfence & Hu). apply bind_Ok in Hu as (u1 & w1 & Havail & Hu).
  apply bind_Ok in Hu as (created & w2 & Hcreate & Hu). apply bind_Ok in Hu as (u3 & w3 & Hdisp & Hu).
  apply bind_Ok in Hu as (restored & w4 & Hbundle & Hu). apply bind_Ok in Hu as (linked & w5 & Hlink & Hu). dinv.
  assert (E0 : w_db w0 = w_db w) by (eapply (frame (λ db, db)); [|exact Hfence]; db_preserve).
  apply ensureOperationAvailable_Ok in Havail as [-> _]. apply createOperation_kind in Hcreate as (Hfresh & Hk & Hst & Hdb). rewrite E0 in *.
  simpl. split_and!; [done|done|done| |].
  - use_frame db_operations. by rewrite Hdb.
  - destruct (ocr_Dispatch req) as [d|]; dinv.
    + match goal with Hx : createOutbox _ _ = _ |- _ => apply createOutbox_inv in Hx as (e & He & _) end.
      replace (db_outbox (w_db w5)) with (db_outbox (w_db w) ++ [e])%list by (symmetry; use_frame db_outbox; by rewrite He, Hdb).
      apply rows_kept_app.
    + replace (db_outbox (w_db w5)) with (db_outbox (w_db w)) by (symmetry; use_frame db_outbox; by rewrite Hdb). reflexivity.
Qed.
Lemma UnitOfWork_gate req :
  ocr_Emergency req = None → ¬ past_gate (ocr_Operation req) → preserves (db_rel keeps_gate) (OperationCreationUnitOfWork req).
Proof.
  intros Hem Hg. unfold OperationCreationUnitOfWork. rewrite Hem. apply preserves_retryBusy; [apply _|]. apply commits_run_tx; [apply _|].
  intros w res w' Hu. apply -> @commit_Ok in Hu. apply UnitOfWork_row in Hu as (Hfresh & Hk & Hst & Hops & Hrows). split; [|done].
  rewrite Hops. by apply created_ops_gate.
Qed.
Lemma CreateIdempotent_row command w res w' :
  createIdempotentOperation command w = (Ok (Commit res), w') →
  let op := ccr_Operation command in
  db_operations (w_db w) !! op_ID op = None ∧ same_kind op (crr_Operation res) ∧ op_Status (crr_Operation res) = op_Status op ∧
  db_operations (w_db w') = <[op_ID op := operation_row (crr_Operation res)]> (db_operations (w_db w)) ∧ db_outbox (w_db w') = db_outbox (w_db w).
Proof.
  intros Hc op. unfold createIdempotentOperation in Hc. dinv.
  destruct (has_key (ccr_Idempotency command)) as [r|].
  - destruct a0 as [replay|]; [destruct (negb _); dinv|]. dinv.
    match type of Hc with (if ?x then _ else _) _ = _ => destruct x end; dinv.
    match goal with Hx : createOperation _ ?w1 = _ |- _ => apply createOperation_kind in Hx as (Hfresh & Hk & Hst & Hdb);
      assert (E : db_operations (w_db w1) = db_operations (w_db w)) by (by use_frame db_operations);
      assert (E2 : db_outbox (w_db w1) = db_outbox (w_db w)) by (by use_frame db_outbox) end.
    rewrite E in *. simpl. by rewrite Hdb.
  - dinv.
    match goal with Hx : createOperation _ ?w1 = _ |- _ => apply createOperation_kind in Hx as (Hfresh & Hk & Hst & Hdb);
      assert (E : db_operations (w_db w1) = db_operations (w_db w)) by (by use_frame db_operations);
      assert (E2 : db_outbox (w_db w1) = db_outbox (w_db w)) by (by use_frame db_outbox) end.
    rewrite E in *. simpl. by rewrite Hdb.
Qed.
Lemma CreateIdempotent_gate command : ¬ past_gate (ccr_Operation command) → preserves (db_rel keeps_gate) (CreateIdempotent command).
Proof.
  intros Hg. apply preserves_retryBusy; [apply _|]. apply commits_run_tx; [apply _|]. intros w res w' Hc.
  apply CreateIdempotent_row in Hc as (Hfresh & Hk & Hst & Hops & Hrows). split; [|rewrite Hrows; reflexivity]. rewrite Hops. by apply created_ops_gate.
Qed.
(** The services around the coordinator: delivery, results, recovery. *)
Lemma gate_query {A} (f : DB → A) : preserves (db_rel keeps_gate) (query f).
Proof. apply preserves_gets, _. Qed.
Lemma gate_scan_row {A} (o : option A) : preserves (db_rel keeps_gate) (scan_row o).
Proof. unfold scan_row. preserve. Qed.
Lemma gate_now : preserves (db_rel keeps_gate) now.
Proof. by intros w r w' [= _ <-]. Qed.
#[local] Hint Resolve gate_query gate_scan_row gate_now UpdateStatus_outbox_gate : preserve.
#[local] Hint Extern 1 (preserves (db_rel keeps_gate) (UpdateStatus_operation _ _ _ _)) => (apply transition_gate; congruence) : preserve.
#[local] Hint Extern 1 (preserves (db_rel keeps_gate) (Transition_operation _ _ _ _)) => (apply transition_gate; congruence) : preserve.
Lemma gate_Get_operation id : preserves (db_rel keeps_gate) (Get_operation id).
Proof. unfold Get_operation, getOperation. preserve. Qed.
Lemma gate_update id status v err : status ≠ StatusQueued → preserves (db_rel keeps_gate) (UpdateStatus_operation id status v err).
Proof. apply transition_gate. Qed.
Lemma gate_logged {A} (m : SM A) : preserves (db_rel keeps_gate) m → preserves (db_rel keeps_gate) (logged m).
Proof. intros Hm. unfold logged. preserve. Qed.
#[local] Hint Resolve gate_Get_operation gate_logged : preserve.
Lemma deliver_gate operatorID open : preserves (db_rel keeps_gate) (deliverNextPending operatorID open).
Proof.
  unfold deliverNextPending, deliver_entry, hand_over, assign_sequence, fenceDelivery, GetInflightForOperator, GetNextPending, GetNextSequence.
  preserve.
Qed.
(** Only two events lead to queued. *)
Lemma Transition_not_queued s e s' : Transition s e = Ok s' → e ≠ EventPreflightPassed → e ≠ EventEnqueue → s' ≠ StatusQueued.
Proof. intros Ht He1 He2 ->. by destruct s, e. Qed.
Lemma gate_finish_live op current s j : preserves (db_rel keeps_gate) (finish_live op current s j).
Proof.
  unfold finish_live, finishCancellingOperation, finishTerminalOperation. case_bool_decide.
  - destruct (Transition _ _) as [next|e] eqn:Ht; [|preserve]. apply gate_logged, gate_update.
    apply Transition_not_queued in Ht; [done|by destruct (acknowledges_cancel j)..].
  - destruct (Transition _ _) as [next|e] eqn:Ht; [|preserve]. apply gate_logged, gate_update.
    apply Transition_not_queued in Ht; [done|by case_bool_decide..].
Qed.
#[local] Hint Resolve gate_finish_live : preserve.
Lemma gate_begin op : preserves (db_rel keeps_gate) (beginQueuedOperation op).
Proof.
  unfold beginQueuedOperation. destruct (Transition _ _) as [next|e] eqn:Ht; [|preserve]. apply Transition_not_queued in Ht; [|done..].
  apply preserves_bind; [apply _|by apply gate_update|]. intros o. preserve.
Qed.
#[local] Hint Resolve gate_begin : preserve.
Lemma FinishOperation_gate id s j : preserves (db_rel keeps_gate) (FinishOperation id s j).
Proof. unfold FinishOperation, finishPendingOperation. preserve. Qed.
Lemma gate_rpc {A} wrap (m : SM A) : preserves (db_rel keeps_gate) m → preserves (db_rel keeps_gate) (rpc wrap m).
Proof. intros Hm w r w' E. unfold rpc in E. destruct (m w) as [[a|e] w1] eqn:Em; injection E as _ <-; exact (Hm _ _ _ Em). Qed.
#[local] Hint Resolve gate_rpc : preserve.
Lemma gate_finalize_result marshal op result : preserves (db_rel keeps_gate) (finalize_result marshal op result).
Proof.
  unfold finalize_result. apply preserves_bind; [apply _|apply gate_rpc; unfold Get_definition; preserve|intros d].
  destruct (cres_Upgrade result) as [upgrade|]; [|preserve]. destruct (_ && _); [preserve|].
  pose proof (outcome_terminal (op_Status op) result) as [Hterm _]. destruct (terminalMapping result) as [[status lastError] inv].
  destruct (marshal upgrade); [|preserve]. by apply gate_rpc, FinalizeUpgrade_gate.
Qed.
Lemma HandleCommandResult_gate marshal result : preserves (db_rel keeps_gate) (HandleCommandResult marshal result).
Proof.
  unfold HandleCommandResult, loadResultOperation. apply preserves_bind; [apply _|preserve|intros op0].
  destruct op0, result; [apply gate_finalize_result|preserve..].
Qed.
Lemma recover_gate opts : preserves (db_rel keeps_gate) (RecoverNonTerminal opts).
Proof.
  assert (Hloop : ∀ t ops, preserves (db_rel keeps_gate) (recover_loop opts t ops)).
  { intros t ops. induction ops as [|op ops IH]; cbn [recover_loop]; [preserve|]. unfold recoverOne, transitionTo. preserve. }
  unfold RecoverNonTerminal, ListNonTerminal. preserve.
Qed.
(** ** The runner (runner.go)

    An entry is the coordinator of an operation: the operation it was started
    with, whether its context is cancelled, whether its goroutine runs yet. *)
Record Entry := { en_Operation : Operation; en_cancelled : bool; en_running : bool }.
Record Runner := { rn_closed : bool; rn_entries : gmap string Entry }.
(** The process: the tables with what the authorizer needs, the runner, the rest. *)
Record Release (T X : Type) := { rl_host : T; rl_runner : Runner; rl_rest : X }.
Arguments rl_host {T X}. Arguments rl_runner {T X}. Arguments rl_rest {T X}.

Section coordinator.
(** [json.Marshal] of a payload; the polls that come before a stage's deadline, at
    most its timeout over the poll interval. *)
Context (float64 : json → json) (yaml_documents : string → list (option yaml_node)) (format_float : string → option string).
Context (marshal : CommandPayload → option string) (polls : StageDef → nat).

Definition mergeEffectiveValues (base : string) (patch : option string) (images : list BundleImage) : option string :=
  match Canonicalize yaml_documents format_float base with
  | Err _ => None
  | Ok canonical =>
      document ← decode_document float64 canonical;
      patchDocument ← (if bool_decide (default "" patch = "") then Some None else patch ≫= decode_document float64);
      match document with
      | Some document =>
          encoded ← set_images (mergeJSON document (default [] patchDocument)) images;
          Some (json_text (sorted (JObj encoded)))
      | None =>   (* a nil map: a write to it ends the process, here an error *)
          if forallb (λ kv, match kv.2 with JNull => true | _ => false end) (default [] patchDocument) && match images with [] => true | _ => false end
          then Some (json_text JNull) else None
      end
  end.
Definition BuildUpgradeCommand (now : time) (op : Operation) (definition : ReleaseDefinition) (bundle : ReleaseBundle)
    (revision : ValuesRevision) (commandID : string) : option UpgradeCommand :=
  let content := rb_Content bundle in
  effectiveValues ← mergeEffectiveValues (raw_bytes (vr_CanonicalDocument revision)) (op_ValuesPatch op) (bd_Images content);
  Some {| uc_DefinitionId := rd_ID definition; uc_Namespace := rd_Namespace definition; uc_ReleaseName := rd_ReleaseName definition;
          uc_BundleId := rb_ID bundle; uc_BundleDigest := bd_DigestAlg content ++ ":" ++ bd_DigestValue content;
          uc_ChartRef := bd_ChartRef content; uc_ChartVersion := bd_ChartVersion content; uc_ChartDigest := bd_ChartDigest content;
          uc_EffectiveValuesJson := effectiveValues; uc_EffectiveValuesDigest := Digest effectiveValues;
          uc_SecretRefs := vr_SecretRefs revision; uc_OperationId := op_ID op; uc_CommandId := commandID;
          uc_ExpectedRevision := op_ExpectedRevision op mod 2 ^ 64; uc_Atomic := true;
          uc_Timeout := match op_Deadline op with
                        | Some deadline => if 0 <? deadline - now then deadline - now else 5 * minute_ns
                        | None => 5 * minute_ns
                        end;
          uc_MaxHistory := 10 |}.
Definition BuildUpgradePayload (now : time) (op : Operation) (definition : ReleaseDefinition) (bundle : ReleaseBundle)
    (revision : ValuesRevision) (commandID : string) : option CommandPayload :=
  upgrade ← BuildUpgradeCommand now op definition bundle revision commandID;
  Some {| cp_Stage := ""; cp_OperationID := op_ID op; cp_BundleID := op_BundleID op; cp_PayloadVersion := 2; cp_Upgrade := Some upgrade;
          cp_DefinitionID := ""; cp_Namespace := rd_Namespace definition; cp_ReleaseName := rd_ReleaseName definition;
          cp_TimeoutSeconds := 0; cp_Bundle := None; cp_Values := None; cp_ValuesRevisionID := ""; cp_ExpectedCurrentRevision := 0;
          cp_TargetRevision := 0; cp_CreateNamespace := false; cp_ValuesPatch := None;
          cp_ApprovedAnnotationKeys := rd_ApprovedAnnotationKeys definition |}.

Context {T X : Type} {HT : Host T}.
Abbreviation S := (Release T X).
Definition put_host (t : T) (s : S) : S := {| rl_host := t; rl_runner := rl_runner s; rl_rest := rl_rest s |}.
Definition put_runner (r : Runner) (s : S) : S := {| rl_host := rl_host s; rl_runner := r; rl_rest := rl_rest s |}.
Definition put_rest (x : X) (s : S) : S := {| rl_host := rl_host s; rl_runner := rl_runner s; rl_rest := x |}.
#[export] Instance release_host : Host S :=
  {| node_of s := node_of (rl_host s); set_node n s := put_host (set_node n (rl_host s)) s; node_of_set n s := node_of_set n (rl_host s) |}.
Abbreviation csvc := (svc S error).
Definition set_entry (id : string) (e : Entry) (r : Runner) : Runner :=
  {| rn_closed := rn_closed r; rn_entries := <[id := e]> (rn_entries r) |}.
Definition cancelled_entry (e : Entry) : Entry := {| en_Operation := en_Operation e; en_cancelled := true; en_running := en_running e |}.
Definition Start (op : Operation) : M S error bool := λ s,
  if rn_closed (rl_runner s) || bool_decide (is_Some (rn_entries (rl_runner s) !! op_ID op)) then (Ok false, s)
  else (Ok true, put_runner (set_entry (op_ID op) {| en_Operation := op; en_cancelled := false; en_running := false |} (rl_runner s)) s).
Definition Cancel_preflight (id : string) : M S error unit := λ s,
  match rn_entries (rl_runner s) !! id with
  | Some e => (Ok tt, put_runner (set_entry id (cancelled_entry e) (rl_runner s)) s)
  | None => (Ok tt, s)
  end.
Definition unregister (id : string) : M S error unit := λ s,
  (Ok tt, put_runner {| rn_closed := rn_closed (rl_runner s); rn_entries := delete id (rn_entries (rl_runner s)) |} s).
(** Shutdown also waits until no entry is left, or its own context ends. *)
Definition Shutdown_runner : M S error unit := λ s,
  (Ok tt, put_runner {| rn_closed := true; rn_entries := cancelled_entry <$> rn_entries (rl_runner s) |} s).
(** The goroutine's start. *)
Definition begin_run (id : string) : M S error Operation := λ s,
  match rn_entries (rl_runner s) !! id with
  | Some e =>
      if en_running e then (Err (ErrOther "running"), s)
      else (Ok (en_Operation e),
            put_runner (set_entry id {| en_Operation := en_Operation e; en_cancelled := en_cancelled e; en_running := true |} (rl_runner s)) s)
  | None => (Err (ErrOther "no entry"), s)
  end.
(** [ctx.Err() != nil] *)
Definition ctx_done (id : string) : M S error bool := λ s,
  (Ok match rn_entries (rl_runner s) !! id with Some e => en_cancelled e | None => true end, s).
Definition unless_done {A} (id : string) (stop : csvc A) (k : csvc A) : csvc A :=
  svc_bind (once (ctx_done id)) (λ r, match r with Ok true => stop | _ => k end).

(** ** The coordinator (coordinator.go)

    Errors are only logged, apart from the result they give. *)
Definition resolveOperator (op : Operation) : csvc (res error string) :=
  let* def := here (Get_definition (op_ReleaseDefinitionID op)) fails failed in
  let* opers := here (ListByCluster_operators (rd_ClusterID def)) fails failed in
  match find_row (λ o, bool_decide (o_Status o = OperatorActive)) opers with
  | Some o => Done (Ok (o_ID o))
  | None =>
      match find_row (λ o, negb (bool_decide (o_Status o = OperatorRevoked))) opers with
      | Some o => Done (Ok (o_ID o))
      | None => failed (ErrOther "no operator for cluster")
      end
  end.
Definition timeoutSeconds : Z := 300.
Definition commandPayload (op : Operation) (stage : string) (bundle : option BundleProto) (values : option string) : csvc (res error CommandPayload) :=
  let* def := here (Get_definition (op_ReleaseDefinitionID op)) fails failed in
  Done (Ok {| cp_Stage := stage; cp_OperationID := op_ID op; cp_BundleID := op_BundleID op; cp_PayloadVersion := 0; cp_Upgrade := None;
              cp_DefinitionID := rd_ID def; cp_Namespace := rd_Namespace def; cp_ReleaseName := rd_ReleaseName def;
              cp_TimeoutSeconds := timeoutSeconds; cp_Bundle := bundle; cp_Values := values; cp_ValuesRevisionID := op_ValuesRevisionID op;
              cp_ExpectedCurrentRevision := op_ExpectedRevision op; cp_TargetRevision := op_TargetRevision op;
              cp_CreateNamespace := bool_decide (op_OperationType op = OperationInstall); cp_ValuesPatch := op_ValuesPatch op;
              cp_ApprovedAnnotationKeys := rd_ApprovedAnnotationKeys def |}).
Definition stage_command (op : Operation) (stage : string) : string := op_ID op ++ ":" ++ stage.
Definition execute_command (op : Operation) : string := op_ID op ++ ":execute".
Definition outbox_entry (id commandID : string) (op : Operation) (operatorID payload : string) : OutboxEntry :=
  {| ob_ID := id; ob_CommandID := commandID; ob_OperationID := op_ID op; ob_OperationType := OperationType_string (op_OperationType op);
     ob_OperatorID := operatorID; ob_Payload := Some payload; ob_Status := CommandStatusEmpty; ob_MaxInFlight := 0; ob_Sequence := 0;
     ob_ResultJSON := ""; ob_CreatedAt := 0; ob_UpdatedAt := 0; ob_DeliveredAt := None; ob_AckedAt := None |}.
Definition errNoOperator : error := ErrOther "no operator available".
(** The first command of an operation, and why it cannot be delivered if so. *)
Definition Dispatch (op : Operation) (bundle : option BundleProto) (values : option string) : csvc (option OutboxEntry * option error) :=
  svc_bind (resolveOperator op) (λ operator,
    svc_bind (commandPayload op StageArtifact bundle values) (λ payload,
      match payload with
      | Err e => Done (None, Some e)
      | Ok payload =>
          match marshal payload with
          | None => Done (None, Some (ErrOther "marshal payload"))
          | Some encoded =>
              svc_bind (once (here new_uuid)) (λ id,
                match id with
                | Err e => Done (None, Some e)
                | Ok id =>
                    Done (Some (outbox_entry id (stage_command op StageArtifact) op (match operator with Ok o => o | Err _ => "" end) encoded),
                          match operator with Ok _ => None | Err _ => Some errNoOperator end)
                end)
          end
      end)).
(** The bundle and the approved document; what cannot be loaded is left out. *)
Definition load_inputs {A} (op : Operation) (k : option BundleProto → option string → csvc A) : csvc A :=
  svc_bind (once (here (Get_bundle (op_BundleID op)))) (λ r,
    match r with
    | Err _ => k None None
    | Ok bundle =>
        if bool_decide (op_ValuesRevisionID op = "") then k (Some (bundleToProto bundle)) None
        else
          svc_bind (once (here (getValues (op_ValuesRevisionID op)))) (λ r,
            k (Some (bundleToProto bundle))
              (match r with Ok revision => Some (raw_bytes (vr_CanonicalDocument revision)) | Err _ => None end))
    end).
(** A payload is built, encoded and given an id. *)
Definition encode_command (op : Operation) (stage commandID operatorID : string) (bundle : option BundleProto) (values : option string)
    : csvc (res error OutboxEntry) :=
  svc_bind (commandPayload op stage bundle values) (λ payload,
    match payload with
    | Err e => failed e
    | Ok payload =>
        match marshal payload with
        | None => failed (ErrOther "marshal payload")
        | Some encoded =>
            let* id := here new_uuid fails failed in
            Done (Ok (outbox_entry id commandID op operatorID encoded))
        end
    end).
(** pollStage: [n] polls are left before the deadline. *)
Fixpoint pollStage (op : Operation) (stage : StageDef) (n : nat) : csvc StageResult :=
  let result := stage_result (sd_Name stage) in
  unless_done (op_ID op) (Done (result StageCancelled "preflight_cancelled"))
    (match n with
     | O => Done (result StageTimeout "stage_timeout")
     | Datatypes.S n =>
         svc_bind (once (here (GetByCommandID_outbox (stage_command op (sd_Name stage))))) (λ r,
           match r with
           | Err _ => pollStage op stage n
           | Ok row =>
               match ob_Status row with
               | CommandPersisted | CommandSucceeded => Done (answered_result (sd_Name stage) (ob_ResultJSON row))
               | CommandFailed => Done (failedStageResult (sd_Name stage) (ob_ResultJSON row))
               | _ => pollStage op stage n
               end
           end)
     end).
Definition runStage (op : Operation) (stage : StageDef) : csvc StageResult :=
  let result := stage_result (sd_Name stage) in
  let commandID := stage_command op (sd_Name stage) in
  svc_bind (resolveOperator op) (λ r,
    match r with
    | Err _ => Done (result StageFailed "stage_unavailable: no operator")
    | Ok operatorID =>
        load_inputs op (λ bundle values,
          svc_bind (once (here (GetByCommandID_outbox commandID))) (λ r,
            match r with
            | Ok existing =>
                if bool_decide (ob_OperatorID existing = "") then Done (result StageFailed "stage_unavailable: dispatch has no operator")
                else pollStage op stage (polls stage)
            | Err ErrNotFound =>
                svc_bind (encode_command op (sd_Name stage) commandID operatorID bundle values) (λ r,
                  match r with
                  | Err _ => Done (result StageFailed "")
                  | Ok row =>
                      svc_bind (once (here (Create_outbox row))) (λ r,
                        match r with
                        | Err _ => Done (result StageFailed "dispatch error: insert outbox entry")
                        | Ok _ => pollStage op stage (polls stage)
                        end)
                  end)
            | Err _ => Done (result StageFailed "dispatch lookup error: outbox")
            end))
    end).
(** The release write of an INSTALL or ROLLBACK; [Ok None]: its row exists already. *)
Definition buildExecutionDispatch (op : Operation) : csvc (res error (option OutboxEntry)) :=
  svc_bind (once (here (GetByCommandID_outbox (execute_command op)))) (λ r,
    match r with
    | Ok _ => Done (Ok None)
    | Err ErrNotFound =>
        svc_bind (resolveOperator op) (λ r,
          match r with
          | Err e => failed e
          | Ok operatorID =>
              load_inputs op (λ bundle values,
                svc_bind (encode_command op "" (execute_command op) operatorID bundle values) (λ r,
                  Done (match r with Ok row => Ok (Some row) | Err e => Err e end)))
          end)
    | Err e => failed e
    end).
(** The release write of an UPGRADE, or the code of the failure. *)
Definition buildUpgradeDispatch (op : Operation) : csvc (res string OutboxEntry) :=
  let fail code : csvc (res string OutboxEntry) := Done (Err code) in
  svc_bind (resolveOperator op) (λ r,
    match r with
    | Err _ => fail "stage_unavailable"
    | Ok operatorID =>
        let* definition := here (Get_definition (op_ReleaseDefinitionID op)) fails (λ _, fail "release_not_found") in
        let* _ := here (GetByDefinition_inventory (op_ReleaseDefinitionID op)) fails (λ _, fail "release_not_found") in
        let* bundle := here (Get_bundle (op_BundleID op)) fails (λ _, fail "bundle_not_found") in
        let* revision := here (getValues (op_ValuesRevisionID op)) fails (λ _, fail "revision_not_approved") in
        let* t := here now fails (λ _, fail "render_failed") in
        match BuildUpgradePayload t op definition bundle revision (execute_command op) with
        | None => fail "render_failed"
        | Some payload =>
            match marshal payload with
            | None => fail "invalid_command"
            | Some encoded =>
                let* id := here new_uuid fails (λ _, fail "invalid_command") in
                Done (Ok (outbox_entry id (execute_command op) op operatorID encoded))
            end
        end
    end).
(** The command that writes the release: [Ok None] when there is none to insert. *)
Definition build_dispatch (op : Operation) : csvc (res string (option OutboxEntry)) :=
  match op_OperationType op with
  | OperationInstall | OperationRollback =>
      svc_bind (buildExecutionDispatch op) (λ r, Done (match r with Ok row => Ok row | Err _ => Err "dispatch_failed" end))
  | OperationUpgrade =>
      svc_bind (buildUpgradeDispatch op) (λ r, Done (match r with Ok row => Ok (Some row) | Err code => Err code end))
  | _ => Done (Ok None)
  end.
Definition aggregate (op : Operation) (overall failedStage errorCode : string) (results : list StageResult) : AggregateResult :=
  {| gr_OperationID := op_ID op; gr_Overall := overall; gr_FailedStage := failedStage; gr_Stages := results; gr_ErrorCode := errorCode |}.
Definition persistPreflightResult (op : Operation) (result : AggregateResult) : csvc (res error unit) :=
  once (here (SavePreflightResult (op_ID op) (RawJson (aggregate_json result)))).
Definition casFailed (op : Operation) (result : AggregateResult) : csvc unit :=
  svc_bind (persistPreflightResult op result) (λ _,
    svc_bind (once (here (UpdateStatus_operation (op_ID op) StatusFailed (op_StateVersion op) (gr_ErrorCode result)))) (λ _, Done tt)).
Definition casCancelled (op : Operation) (result : AggregateResult) : csvc unit :=
  match Transition (op_Status op) EventCancel with
  | Err _ => Done tt
  | Ok next => svc_bind (once (here (UpdateStatus_operation (op_ID op) next (op_StateVersion op) (gr_ErrorCode result)))) (λ _, Done tt)
  end.
Definition queue_request (op : Operation) (next : OperationStatus) (dispatch : option OutboxEntry) : OperationQueueRequest :=
  {| qr_OperationID := op_ID op; qr_NextStatus := next; qr_StateVersion := op_StateVersion op; qr_Dispatch := dispatch |}.
Definition queueOperation (op : Operation) (result : AggregateResult) (dispatch : option OutboxEntry) : csvc (res error unit) :=
  svc_bind (persistPreflightResult op result) (λ _,
    match Transition (op_Status op) EventPreflightPassed with
    | Err _ => failed (ErrOther "transition invalid")
    | Ok next => once (here (QueueOperation (queue_request op next dispatch)))
    end).
(** What ends the pipeline: the overall status and the results. *)
Definition fail_pipeline (op : Operation) (failedStage code : string) (results : list StageResult) : csvc (string * list StageResult) :=
  svc_bind (casFailed op (aggregate op StageFailed failedStage code results)) (λ _, Done (StageFailed, results)).
Definition finish_pipeline (op : Operation) (results : list StageResult) : csvc (string * list StageResult) :=
  svc_bind (build_dispatch op) (λ r,
    match r with
    | Err code => fail_pipeline op executionStageName code results
    | Ok dispatch =>
        svc_bind (queueOperation op (aggregate op StagePassed "" "" results) dispatch) (λ r,
          match r with
          | Err _ => fail_pipeline op executionStageName "dispatch_failed" results
          | Ok _ => Done (StagePassed, results)
          end)
    end).
Fixpoint run_stages (op : Operation) (stages : list StageDef) (results : list StageResult) : csvc (string * list StageResult) :=
  match stages with
  | [] => finish_pipeline op results
  | stage :: stages =>
      unless_done (op_ID op) (Done (StageCancelled, results))
        (svc_bind (runStage op stage) (λ result,
          let results := (results ++ [result])%list in
          let code := errorCodeFromStatus result in
          unless_done (op_ID op) (Done (StageCancelled, results))
            (if bool_decide (sr_Status result = StageCancelled) then Done (StageCancelled, results)
             else if bool_decide (sr_Status result = StageTimeout) then
               svc_bind (casCancelled op (aggregate op StageCancelled (sd_Name stage) code results)) (λ _, Done (StageCancelled, results))
             else if bool_decide (sr_Status result = StageFailed) then fail_pipeline op (sd_Name stage) code results
             else run_stages op stages results)))
  end.
Definition runPipeline (op : Operation) : csvc (string * list StageResult) := run_stages op (stagesForOperation op) [].
Definition Run (op : Operation) : csvc unit :=
  let* _ := here (CreateOrReset (op_ID op)) fails (λ _, Done tt) in
  svc_bind (runPipeline op) (λ outcome,
    svc_bind (once (here (UpdateResult (op_ID op) outcome.1 (canonicalStages outcome.2)))) (λ _, Done tt)).
(** The goroutine of an entry. *)
Definition coordinate (id : string) : csvc unit :=
  let* op := begin_run id fails (λ _, Done tt) in
  svc_bind (Run op) (λ _, svc_bind (once (unregister id)) (λ _, Done tt)).
(** ResumePreflights: the number of coordinators started. *)
Fixpoint Resume (ops : list Operation) : csvc Z :=
  match ops with
  | [] => Done 0
  | op :: ops =>
      if bool_decide (op_Status op = StatusPreflight) then
        svc_bind (once (Start op)) (λ r, svc_bind (Resume ops) (λ n, Done (match r with Ok true => n + 1 | _ => n end)))
      else Resume ops
  end.
Definition ResumePreflights : csvc (res error Z) :=
  let* ops := here ListNonTerminal fails failed in svc_bind (Resume ops) (λ n, Done (Ok n)).
End coordinator.

(** ** What passes the gate

    To say when an operation may be queued, every call also records the tables it
    leaves: [recorded p] is [p] over the process and the list of those tables. *)
Section recording.
Context {T X : Type} {HT : Host T}.
Abbreviation S := (Release T X).
Abbreviation csvc := (svc S error).
Abbreviation G := (S * list DB)%type.
Definition record {A} (m : M S error A) : M G error A := λ g, let (r, s) := m g.1 in (r, (s, (g.2 ++ [db_of s])%list)).
Fixpoint recorded {A} (p : csvc A) : svc G error A :=
  match p with Done a => Done a | Call m k => Call (record m) (λ r, recorded (k r)) end.
(** The row of a stage was persisted or succeeded, with a result the pipeline goes on with. *)
Definition stops (status : string) : bool :=
  bool_decide (status = StageFailed) || bool_decide (status = StageTimeout) || bool_decide (status = StageCancelled).
Definition accepted (o : Operation) (stage : StageDef) (db : DB) : Prop :=
  ∃ row, row ∈ db_outbox db ∧ ob_CommandID row = stage_command o (sd_Name stage) ∧
    (ob_Status row = CommandPersisted ∨ ob_Status row = CommandSucceeded) ∧
    stops (sr_Status (answered_result (sd_Name stage) (ob_ResultJSON row))) = false.
Definition answered (history : list DB) (o : Operation) (stage : StageDef) : Prop := ∃ db, db ∈ history ∧ accepted o stage db.
Definition dispatched (db : DB) (o : Operation) : Prop := ∃ row, row ∈ db_outbox db ∧ ob_CommandID row = execute_command o.
Definition cleared (history : list DB) (db : DB) (o : Operation) : Prop :=
  dispatched db o ∧ Forall (answered history o) (stagesForOperation o).
Definition known (db : DB) (op : Operation) : Prop := ∃ o, db_operations db !! op_ID op = Some o ∧ same_kind op o.
Record gated (g : G) : Prop := {
  ga_wf : ops_wf (db_operations (db_of g.1));
  ga_entries id e : rn_entries (rl_runner g.1) !! id = Some e → op_ID (en_Operation e) = id ∧ known (db_of g.1) (en_Operation e);
  ga_cleared id o : db_operations (db_of g.1) !! id = Some o → past_gate o → cleared g.2 (db_of g.1) o;
}.
Record extends (g g' : G) : Prop := {
  ex_history : ∃ t, g'.2 = (g.2 ++ t)%list;
  ex_known op : known (db_of g.1) op → known (db_of g'.1) op;
  ex_rows : rows_kept (db_outbox (db_of g.1)) (db_outbox (db_of g'.1));
}.
#[export] Instance extends_preorder : PreOrder extends.
Proof.
  split.
  - intros g. split; [exists []; by rewrite app_nil_r|done|reflexivity].
  - intros a b c [(t & Ht) ? ?] [(u & Hu) ? ?]. split; [exists (t ++ u)%list; by rewrite Hu, Ht, <- app_assoc|auto|by etransitivity].
Qed.
Lemma answered_extends g g' o stage : extends g g' → answered g.2 o stage → answered g'.2 o stage.
Proof. intros [(t & ->) _ _] (db & Hdb & Ha). exists db. split; [by apply elem_of_app; left|done]. Qed.
Lemma dispatched_kept db db' o : rows_kept (db_outbox db) (db_outbox db') → dispatched db o → dispatched db' o.
Proof. intros Hr (row & Hrow & Hid). destruct (Hr row Hrow) as (row' & ? & ? & _). exists row'. split; [done|congruence]. Qed.
(** Both only look at what identifies the operation. *)
Lemma same_kind_cleared h db o o' : same_kind o o' → cleared h db o → cleared h db o'.
Proof.
  intros (Hid & _ & Hb) [Hd Hs]. split; [unfold dispatched, execute_command; by rewrite Hid|].
  unfold stagesForOperation in *. rewrite Hb. eapply Forall_impl; [exact Hs|]. intros stage (db0 & Hdb & row & Hr & Hc & Hrest).
  exists db0. split; [done|]. exists row. split_and!; [done| |apply Hrest..]. rewrite Hc. unfold stage_command. by rewrite Hid.
Qed.
Lemma cleared_extends g g' o : extends g g' → cleared g.2 (db_of g.1) o → cleared g'.2 (db_of g'.1) o.
Proof.
  intros He [Hd Hs]. split; [by eapply dispatched_kept; [apply He|]|]. eapply Forall_impl; [exact Hs|]. intros stage. by apply answered_extends.
Qed.
Lemma known_kept db db' op : ops_wf (db_operations db) → ops_gate (db_operations db) (db_operations db') → known db op → known db' op.
Proof.
  intros Hwf Hg (o & Ho & Hk). destruct (Hg Hwf) as (_ & _ & Hf). destruct (Hf _ _ Ho) as (o' & Ho' & ?). exists o'. split; [done|by etransitivity].
Qed.

(** A call that keeps the gate: it starts no coordinator of its own. *)
Definition benign B (m : M S error B) : Prop := ∀ s,
  keeps_gate (db_of s) (db_of (m s).2) ∧
  ∀ id e', rn_entries (rl_runner (m s).2) !! id = Some e' → ∃ e, rn_entries (rl_runner s) !! id = Some e ∧ en_Operation e' = en_Operation e.
Lemma record_step {A} (m : M S error A) g :
  gated g → keeps_gate (db_of g.1) (db_of (m g.1).2) →
  (∀ id e, rn_entries (rl_runner (m g.1).2) !! id = Some e → op_ID (en_Operation e) = id ∧ known (db_of (m g.1).2) (en_Operation e)) →
  gated (record m g).2 ∧ extends g (record m g).2.
Proof.
  intros [Hwf Hent Hcl] [Hops Hrows] Hrun. unfold record. destruct (m g.1) as [r s]. simpl in *.
  assert (He : extends g (s, (g.2 ++ [db_of s])%list)).
  { split; simpl; [by eexists|intros op; by apply known_kept|done]. }
  split; [split; simpl|done]; [by apply Hops|done|]. destruct (Hops Hwf) as (_ & Hb & _).
  intros id o' Ho' Hp. destruct (Hb id o' Ho' Hp) as (o & Ho & Hpo & Hk). eapply same_kind_cleared; [exact Hk|].
  apply (cleared_extends g _ o He). by eapply Hcl.
Qed.
Lemma benign_ok {A} (m : M S error A) : benign A m → guarantees gated extends (record m).
Proof.
  intros Hm g Hg. destruct (Hm g.1) as [Hk Hr]. apply record_step; [done|done|]. intros id e' He'. destruct (Hr id e' He') as (e & He & ->).
  destruct (ga_entries g Hg id e He) as [? Hkn]. split; [done|]. eapply known_kept; [apply Hg|apply Hk|done].
Qed.
Lemma here_db {A} (m : SM A) (s : S) : db_of (here m s).2 = w_db (m (nd_world (node_of s))).2 ∧ rl_runner (here m s).2 = rl_runner s.
Proof. rewrite here_eq. unfold db_of. simpl. by rewrite node_of_set. Qed.
Lemma here_benign {A} (m : SM A) : preserves (db_rel keeps_gate) m → benign A (here m).
Proof.
  intros Hm s. destruct (here_db m s) as [-> ->]. split; [|intros id e He; by exists e].
  apply (Hm _ (m (nd_world (node_of s))).1). by destruct (m _).
Qed.
Lemma runner_benign {A} (m : M S error A) :
  (∀ s, rl_host (m s).2 = rl_host s) →
  (∀ s id e', rn_entries (rl_runner (m s).2) !! id = Some e' → ∃ e, rn_entries (rl_runner s) !! id = Some e ∧ en_Operation e' = en_Operation e) →
  benign A m.
Proof. intros Hh Hr s. split; [unfold db_of, node_of; simpl; rewrite Hh; reflexivity|apply Hr]. Qed.
Lemma ctx_done_benign id : benign bool (ctx_done id).
Proof. apply runner_benign; [done|]. intros s k e He. by exists e. Qed.
Lemma unregister_benign id : benign unit (unregister id).
Proof. apply runner_benign; [done|]. intros s k e He. simpl in He. apply lookup_delete_Some in He as [_ He]. by exists e. Qed.
Lemma set_entry_benign id e e' r k x :
  rn_entries r !! id = Some e → en_Operation e' = en_Operation e → rn_entries (set_entry id e' r) !! k = Some x →
  ∃ y, rn_entries r !! k = Some y ∧ en_Operation x = en_Operation y.
Proof. intros He Heq Hx. simpl in Hx. apply lookup_insert_Some in Hx as [[<- <-]|[? Hx]]; eauto. Qed.
Lemma Cancel_preflight_benign id : benign unit (Cancel_preflight id).
Proof.
  apply runner_benign; intros s; unfold Cancel_preflight; [by case_match|]. intros k x. case_match; [|by eauto].
  by apply (set_entry_benign id e (cancelled_entry e)).
Qed.
Lemma Shutdown_benign : benign unit Shutdown_runner.
Proof. apply runner_benign; [done|]. intros s k x Hx. simpl in Hx. apply lookup_fmap_Some in Hx as (e & <- & He). by exists e. Qed.
Lemma begin_run_benign id : benign Operation (begin_run id).
Proof.
  apply runner_benign; intros s; unfold begin_run; [repeat case_match; done|]. intros k x. case_match; [|by eauto]. case_match; [by eauto|].
  by apply (set_entry_benign id e).
Qed.

Lemma run_preflight_gate {A} (m : SM A) : preserves (db_rel (on_table db_operations eq)) m → preserves (db_rel (on_table db_outbox eq)) m → benign A (here m).
Proof. intros ??. by apply here_benign, keeps_gate_frames. Qed.
Ltac benign_reads := apply run_preflight_gate; unfold Get_definition, ListByCluster_operators, Get_bundle, getValues, GetByCommandID_outbox, GetByDefinition_inventory; db_preserve.
Lemma Get_definition_benign id : benign _ (here (Get_definition id)). Proof. benign_reads. Qed.
Lemma ListByCluster_benign id : benign _ (here (ListByCluster_operators id)). Proof. benign_reads. Qed.
Lemma Get_bundle_benign id : benign _ (here (Get_bundle id)). Proof. benign_reads. Qed.
Lemma getValues_benign id : benign _ (here (getValues id)). Proof. benign_reads. Qed.
Lemma GetByCommandID_benign id : benign _ (here (GetByCommandID_outbox id)). Proof. benign_reads. Qed.
Lemma GetByDefinition_benign id : benign _ (here (GetByDefinition_inventory id)). Proof. benign_reads. Qed.
Lemma new_uuid_benign : benign _ (here new_uuid). Proof. benign_reads. Qed.
Lemma now_benign : benign _ (here now). Proof. benign_reads. Qed.
Lemma UpdateStatus_benign id status v err : status ≠ StatusQueued → benign _ (here (UpdateStatus_operation id status v err)).
Proof. intros Hq. by apply here_benign, transition_gate. Qed.
End recording.
Create HintDb gate.
#[export] Hint Resolve ctx_done_benign unregister_benign Cancel_preflight_benign Shutdown_benign begin_run_benign here_benign : gate.
#[export] Hint Resolve Get_definition_benign ListByCluster_benign Get_bundle_benign getValues_benign GetByCommandID_benign
  GetByDefinition_benign new_uuid_benign now_benign SavePreflightResult_gate CreateOrReset_gate UpdateResult_gate Create_outbox_gate : gate.
Ltac benign_step :=
  lazymatch goal with
  | |- calls _ (svc_bind _ _) => apply calls_bind; [|intros ?]
  | |- calls _ (once _) => split; [|intros ?; exact I]
  | |- calls _ (Done _) => exact I
  | |- calls _ (failed _) => exact I
  | |- calls _ (Call _ _) => split; [|intros [?|?]]
  | |- calls _ (match ?x with _ => _ end) => destruct x
  | |- benign _ _ => solve [eauto with gate]
  end.
Ltac benign := repeat benign_step.

Section gate.
Context (float64 : json → json) (yaml_documents : string → list (option yaml_node)) (format_float : string → option string).
Context (marshal : CommandPayload → option string) (polls : StageDef → nat).
Context {T X : Type} {HT : Host T} (fault : error → Prop).
Abbreviation S := (Release T X).
Abbreviation csvc := (svc S error).
Abbreviation G := (S * list DB)%type.
Abbreviation resolveOperator := (resolveOperator (T:=T) (X:=X)).
Abbreviation casFailed := (casFailed (T:=T) (X:=X)).
Abbreviation casCancelled := (casCancelled (T:=T) (X:=X)).
Abbreviation queueOperation := (queueOperation (T:=T) (X:=X)).
Abbreviation fail_pipeline := (fail_pipeline (T:=T) (X:=X)).
Abbreviation Resume := (Resume (T:=T) (X:=X)).
Abbreviation ResumePreflights := (ResumePreflights (T:=T) (X:=X)).
Abbreviation Dispatch := (Dispatch marshal (T:=T) (X:=X)).
Abbreviation commandPayload := (commandPayload (T:=T) (X:=X)).
Abbreviation encode_command := (encode_command marshal (T:=T) (X:=X)).
Abbreviation pollStage := (pollStage (T:=T) (X:=X)).
Abbreviation runStage := (runStage marshal polls (T:=T) (X:=X)).
Abbreviation buildExecutionDispatch := (buildExecutionDispatch marshal (T:=T) (X:=X)).
Abbreviation buildUpgradeDispatch := (buildUpgradeDispatch float64 yaml_documents format_float marshal (T:=T) (X:=X)).
Abbreviation build_dispatch := (build_dispatch float64 yaml_documents format_float marshal (T:=T) (X:=X)).
Abbreviation finish_pipeline := (finish_pipeline float64 yaml_documents format_float marshal (T:=T) (X:=X)).
Abbreviation run_stages := (run_stages float64 yaml_documents format_float marshal polls (T:=T) (X:=X)).
Abbreviation runPipeline := (runPipeline float64 yaml_documents format_float marshal polls (T:=T) (X:=X)).
Abbreviation Run := (Run float64 yaml_documents format_float marshal polls (T:=T) (X:=X)).
Abbreviation coordinate := (coordinate float64 yaml_documents format_float marshal polls (T:=T) (X:=X)).
Lemma resolveOperator_benign op : calls benign (resolveOperator op).
Proof. unfold resolveOperator. benign. Qed.
Lemma commandPayload_benign op stage bundle values : calls benign (commandPayload op stage bundle values).
Proof. unfold commandPayload. benign. Qed.
#[local] Hint Resolve resolveOperator_benign commandPayload_benign : gate.
Lemma encode_command_benign op stage id operator bundle values : calls benign (encode_command op stage id operator bundle values).
Proof. unfold encode_command. apply calls_bind; [apply commandPayload_benign|]. intros r. benign. Qed.
Lemma casFailed_benign op result : calls benign (casFailed op result).
Proof.
  unfold casFailed, persistPreflightResult. apply calls_bind; [benign|]. intros _. apply calls_bind; [|done].
  split; [by apply UpdateStatus_benign|done].
Qed.
Lemma casCancelled_benign op result : calls benign (casCancelled op result).
Proof.
  unfold casCancelled. destruct (Transition (op_Status op) EventCancel) as [next|e] eqn:E; [|done].
  apply calls_bind; [|done]. split; [|done]. apply UpdateStatus_benign. intros ->. by destruct (op_Status op).
Qed.

Abbreviation gwp p Q g := (wp gated extends fault (recorded p) Q g).
Lemma gwp_bind {A B} (p : csvc A) (f : A → csvc B) Q g : gwp p (λ a g', gwp (f a) Q g') g → gwp (svc_bind p f) Q g.
Proof.
  revert g. induction p as [a|C m k IH]; simpl; intros g Hp; [by apply wp_later; [apply _|]|]. intros g1 Hi Hr.
  destruct (Hp g1 Hi Hr) as (Hi' & Hr' & Hk & He). split_and!; [done|done|by apply IH|]. intros e Hf. by apply IH, He.
Qed.
Lemma gwp_total {A} (p : csvc A) (Q : A → G → Prop) g :
  calls benign p → (∀ a g', gated g' → extends g g' → Q a g') → gwp p Q g.
Proof.
  intros Hp HQ. apply (wp_calls gated extends fault (recorded p) Q g HQ). clear HQ. induction p as [a|C m k IH]; simpl; [done|]. destruct Hp as [Hm Hk].
  split; [by apply benign_ok|]. intros r. apply IH, Hk.
Qed.
Lemma gwp_then {A B} (p : csvc A) (f : A → csvc B) Q g :
  calls benign p → (∀ a g', gated g' → extends g g' → gwp (f a) Q g') → gwp (svc_bind p f) Q g.
Proof. intros Hp Hf. by apply gwp_bind, gwp_total. Qed.
Lemma gwp_call {A B} (m : M S error B) (k : res error B → csvc A) Q g :
  benign B m → (∀ r g', gated g' → extends g g' → gwp (k r) Q g') → gwp (Call m k) Q g.
Proof. intros Hm Hk. apply (gwp_then (once m) k); [split; [done|intros r; exact I]|done]. Qed.
Lemma gwp_Done {A} (a : A) (Q : A → G → Prop) g : (∀ g', gated g' → extends g g' → Q a g') → gwp (Done a) Q g.
Proof. done. Qed.
(** What a read returns is in the tables of that moment. *)
Definition read_from {A} (m : SM A) (g : G) (a : A) : Prop := ∃ w w', m w = (Ok a, w') ∧ w_db w = db_of g.1 ∧ db_of g.1 ∈ g.2.
Lemma gwp_read {A B} (m : SM B) (k : res error B → csvc A) Q g :
  preserves (db_rel eq) m →
  (∀ r g', gated g' → extends g g' → match r with Ok a => read_from m g' a | Err _ => True end → gwp (k r) Q g') → gwp (Call (here m) k) Q g.
Proof.
  intros Hm Hk g1 Hi Hr. assert (Hsame : ∀ w, w_db (m w).2 = w_db w) by (intros w; symmetry; apply (Hm w (m w).1); by destruct (m w)).
  assert (Hb : benign B (here m : M S error B)).
  { apply here_benign. intros w r w' E. unfold db_rel. specialize (Hm _ _ _ E). unfold db_rel in Hm. rewrite Hm. reflexivity. }
  destruct (benign_ok _ Hb g1 Hi) as [Hi' Hr']. split_and!; [done|done| |intros e _; by apply Hk].
  apply Hk; [done|by etransitivity|]. destruct (here_db (T:=T) (X:=X) m g1.1) as [Hdb _]. set (w := nd_world (node_of g1.1)) in Hdb.
  assert (Hr1 : (here m g1.1).1 = (m w).1) by (by rewrite here_eq). specialize (Hsame w). unfold record in *.
  destruct (here m g1.1) as [r s]. simpl in Hdb, Hr1. subst r. destruct (m w) as [[b|e] w'] eqn:E; [|done]. simpl in Hdb, Hsame. simpl.
  exists w, w'. split_and!; [done|simpl; congruence|]. apply elem_of_app. right. by apply list_elem_of_singleton.
Qed.
Lemma gwp_unless {A} id (stop k : csvc A) Q g :
  (∀ g', gated g' → extends g g' → gwp stop Q g') → (∀ g', gated g' → extends g g' → gwp k Q g') → gwp (unless_done id stop k) Q g.
Proof. intros Hs Hk. apply gwp_then; [split; [apply ctx_done_benign|intros r; exact I]|]. intros [[]|e]; auto. Qed.
Lemma GetByCommandID_outbox_reads id : preserves (db_rel eq) (GetByCommandID_outbox id).
Proof. unfold GetByCommandID_outbox. preserve. Qed.
Lemma latest_outbox_elem p db row : latest_outbox p db = Some row → row ∈ db_outbox db ∧ p row = true.
Proof.
  unfold latest_outbox. intros Hq. apply head_Some_elem_of in Hq. rewrite merge_sort_Permutation in Hq.
  apply list_elem_of_filter in Hq as [? ?]. done.
Qed.
Lemma GetByCommandID_outbox_Ok id w row w' :
  GetByCommandID_outbox id w = (Ok row, w') → row ∈ db_outbox (w_db w) ∧ ob_CommandID row = id.
Proof.
  unfold GetByCommandID_outbox. intros Hq. dinv.
  match goal with E : latest_outbox _ _ = Some _ |- _ => apply latest_outbox_elem in E as [? Hid] end. by destruct_bools.
Qed.
(** A stage passes on an answer. *)
Lemma pollStage_wp op stage n (g : G) :
  gwp (pollStage op stage n) (λ result g', stops (sr_Status result) = false → answered g'.2 op stage) g.
Proof.
  revert g. induction n as [|n IH]; intros g; cbn [pollStage]; apply gwp_unless; intros g1 Hi1 Hr1; try by intros ? ? ? ?.
  apply gwp_read; [apply GetByCommandID_outbox_reads|]. intros [row|e] g2 Hi2 Hr2; [|intros _; apply IH].
  intros (w & w' & Hq & Hw & Hin). apply GetByCommandID_outbox_Ok in Hq as [Hrow Hid]. rewrite Hw in Hrow.
  destruct (ob_Status row) eqn:Est; try apply IH; try by intros ? ? ? ?.
  all: intros g3 Hi3 Hr3 Hstop; eapply answered_extends; [exact Hr3|]; exists (db_of g2.1); split; [done|]; exists row; eauto.
Qed.
Lemma load_inputs_wp {A} op (k : option BundleProto → option string → csvc A) Q g :
  (∀ bundle values g', gated g' → extends g g' → gwp (k bundle values) Q g') → gwp (load_inputs op k) Q g.
Proof.
  intros Hk. unfold load_inputs. apply gwp_then; [benign|]. intros [bundle|e] g1 Hi1 Hr1; [|by apply Hk].
  case_bool_decide; [by apply Hk|]. apply gwp_then; [benign|]. intros r g2 Hi2 Hr2. apply Hk; [done|by etransitivity].
Qed.
Lemma runStage_wp op stage (g : G) :
  gwp (runStage op stage) (λ result g', stops (sr_Status result) = false → answered g'.2 op stage) g.
Proof.
  unfold runStage. apply gwp_then; [apply resolveOperator_benign|]. intros [operator|e] g1 Hi1 Hr1; [|by intros ? ? ? ?].
  apply load_inputs_wp. intros bundle values g2 Hi2 Hr2. apply gwp_then; [benign|].
  intros [existing|e] g3 Hi3 Hr3; [case_bool_decide; [by intros ? ? ? ?|apply pollStage_wp]|]. destruct e; try by intros ? ? ? ?.
  apply gwp_then; [apply encode_command_benign|]. intros [row|e] g4 Hi4 Hr4; [|by intros ? ? ? ?]. apply gwp_then; [benign|].
  intros [u|e] g5 Hi5 Hr5; [apply pollStage_wp|by intros ? ? ? ?].
Qed.
Definition dispatch_ready (op : Operation) (r : res string (option OutboxEntry)) (g : G) : Prop :=
  IsStandard (op_OperationType op) = true →
  match r with Ok (Some row) => ob_CommandID row = execute_command op | Ok None => dispatched (db_of g.1) op | Err _ => True end.
Lemma encode_command_id op stage id operator bundle values (g : G) :
  gwp (encode_command op stage id operator bundle values) (λ r _, match r with Ok row => ob_CommandID row = id | Err _ => True end) g.
Proof.
  unfold encode_command. apply gwp_then; [apply commandPayload_benign|]. intros [payload|e] g1 Hi1 Hr1; [|by apply gwp_Done].
  destruct (marshal payload); [|by apply gwp_Done]. apply gwp_call; [apply new_uuid_benign|]. intros [i|e] g2 Hi2 Hr2; by apply gwp_Done.
Qed.
Lemma build_dispatch_wp op (g : G) : gwp (build_dispatch op) (dispatch_ready op) g.
Proof.
  assert (Hexec : gwp (buildExecutionDispatch op) (λ r g', match r with
    | Ok (Some row) => ob_CommandID row = execute_command op | Ok None => dispatched (db_of g'.1) op | Err _ => True end) g).
  { unfold buildExecutionDispatch. apply gwp_read; [apply GetByCommandID_outbox_reads|]. intros [row|e] g1 Hi1 Hr1.
    - intros (w & w' & Hq & Hw & _). apply GetByCommandID_outbox_Ok in Hq as [Hrow Hid]. rewrite Hw in Hrow.
      apply gwp_Done. intros g2 Hi2 Hr2. eapply dispatched_kept; [apply Hr2|]. by exists row.
    - intros _. destruct e; try by apply gwp_Done. apply gwp_then; [apply resolveOperator_benign|].
      intros [operator|e] g2 Hi2 Hr2; [|by apply gwp_Done]. apply load_inputs_wp. intros bundle values g3 Hi3 Hr3. apply gwp_bind.
      eapply wp_mono; [apply _| |apply encode_command_id]. intros r g4 _ _ Hid. apply gwp_Done. by destruct r. }
  assert (Hup : gwp (buildUpgradeDispatch op) (λ r _, match r with Ok row => ob_CommandID row = execute_command op | Err _ => True end) g).
  { unfold buildUpgradeDispatch. apply gwp_then; [apply resolveOperator_benign|]. intros [operator|e] g1 _ _; [|by apply gwp_Done].
    do 5 (apply gwp_call; [eauto with gate|]; intros [?|?] ? _ _; [|by apply gwp_Done]).
    destruct (BuildUpgradePayload _ _ _ _ _ _); [|by apply gwp_Done]. destruct (marshal _); [|by apply gwp_Done].
    apply gwp_call; [eauto with gate|]. intros [?|?] ? _ _; by apply gwp_Done. }
  unfold build_dispatch, dispatch_ready. destruct (op_OperationType op); try by apply gwp_Done.
  all: apply gwp_bind; eapply wp_mono; [apply _| |first [exact Hexec|exact Hup]].
  all: intros r g1 _ _ Hr; apply gwp_Done; intros g2 _ Hr2 _; destruct r as [row|e]; simpl; try done.
  all: destruct row; try done; by eapply dispatched_kept; [apply Hr2|].
Qed.
(** Queueing an operation whose stages were answered and whose command is there. *)
Lemma execute_command_nonempty op : execute_command op ≠ "".
Proof. unfold execute_command. by destruct (op_ID op). Qed.
Lemma queue_ok op next dispatch (g : G) :
  gated g → known (db_of g.1) op → Forall (answered g.2 op) (stagesForOperation op) →
  dispatch_ready op (Ok dispatch) g →
  gated (record (here (QueueOperation (queue_request op next dispatch))) g).2 ∧
  extends g (record (here (QueueOperation (queue_request op next dispatch))) g).2.
Proof.
  intros Hg Hkn Hst Hd. set (m := QueueOperation _). destruct (here_db (T:=T) (X:=X) m g.1) as [Hdb Hrun]. set (w := nd_world (node_of g.1)) in Hdb.
  assert (Hwf : ops_wf (db_operations (w_db w))) by apply Hg.
  destruct (m w) as [[u|e] w'] eqn:E; apply QueueOperation_atomic in E; try exact Hwf; simpl in Hdb.
  2: { apply record_step; [done| |].
       - rewrite Hdb, E. reflexivity.
       - intros id en Hen. rewrite Hrun in Hen. rewrite Hdb, E. by apply (ga_entries g Hg). }
  destruct E as [(o & t & Ho & _ & _ & Hops) Hout]. cbn [queue_request qr_OperationID qr_NextStatus qr_Dispatch] in Ho, Hops, Hout.
  set (o' := transition_row next "" t (IsTerminal next) o) in Hops. change (w_db w) with (db_of g.1) in *. rewrite <- Hdb in Hops, Hout.
  unfold record. destruct (here m g.1) as [r s]. simpl in Hdb, Hrun, Hops, Hout. simpl.
  destruct Hkn as (o0 & Ho0 & Hk). assert (o0 = o) as -> by congruence.
  assert (Hrows : rows_kept (db_outbox (db_of g.1)) (db_outbox (db_of s))).
  { destruct dispatch as [d|]; [destruct Hout as (e & -> & _); apply rows_kept_app|rewrite Hout; reflexivity]. }
  assert (Hknown : ∀ x, known (db_of g.1) x → known (db_of s) x).
  { intros x (y & Hy & Hxy). unfold known. rewrite Hops. destruct (decide (op_ID x = op_ID op)) as [Ex|];
      [rewrite Ex in *; rewrite lookup_insert_eq; exists o'; split; [done|]|rewrite lookup_insert_ne by done; by exists y].
    assert (y = o) as -> by congruence. exact Hxy. }
  assert (He : extends g (s, (g.2 ++ [db_of s])%list)) by (split; [by eexists|done|done]).
  split; [|done]. split; simpl.
  - rewrite Hops. intros k x [[<- <-]|[? Hx]]%lookup_insert_Some; [|by apply Hwf]. destruct Hk as (Hid & _). exact Hid.
  - intros id en Hen. rewrite Hrun in Hen. destruct (ga_entries g Hg id en Hen). auto.
  - intros id x Hx Hp. rewrite Hops in Hx. apply lookup_insert_Some in Hx as [[<- <-]|[? Hx]].
    + apply (same_kind_cleared _ _ op); [exact Hk|]. split.
      * destruct Hp as [Hstd _]. destruct Hk as (_ & Hty & _). simpl in Hstd. rewrite Hty in Hstd. specialize (Hd Hstd).
        destruct dispatch as [d|]; [|by eapply dispatched_kept]. destruct Hout as (e & Hout & _ & _ & _ & Hc & _).
        exists e. rewrite Hout. split; [apply elem_of_app; right; by apply list_elem_of_singleton|].
        rewrite Hc, Hd. rewrite bool_decide_false by apply execute_command_nonempty. done.
      * eapply Forall_impl; [exact Hst|]. intros stage. apply (answered_extends g (s, _)). exact He.
    + apply (cleared_extends g (s, _)); [exact He|]. by eapply ga_cleared.
Qed.
Lemma queueOperation_wp op result dispatch (g : G) :
  known (db_of g.1) op → Forall (answered g.2 op) (stagesForOperation op) → dispatch_ready op (Ok dispatch) g →
  gwp (queueOperation op result dispatch) (λ _ _, True) g.
Proof.
  intros Hkn Hst Hd. unfold queueOperation, persistPreflightResult. apply gwp_then; [benign|]. intros _ g1 Hi1 Hr1.
  destruct (Transition _ _) as [next|e]; [|by apply gwp_Done]. intros g2 Hi2 Hr2.
  assert (Hr : extends g g2) by (by etransitivity). destruct (queue_ok op next dispatch g2) as [Hi3 Hr3]; [done|by apply Hr| | |].
  - eapply Forall_impl; [exact Hst|]. intros stage. by apply answered_extends.
  - intros Hstd. specialize (Hd Hstd). destruct dispatch; [done|]. by eapply dispatched_kept; [apply Hr|].
  - split_and!; [done|done|by apply wp_Done|]. intros e _. by apply wp_Done.
Qed.
Lemma fail_pipeline_benign op stage code results : calls benign (fail_pipeline op stage code results).
Proof. apply calls_bind; [apply casFailed_benign|]. intros r. exact I. Qed.
Lemma finish_pipeline_wp op results (g : G) :
  known (db_of g.1) op → Forall (answered g.2 op) (stagesForOperation op) → gwp (finish_pipeline op results) (λ _ _, True) g.
Proof.
  intros Hkn Hst. apply gwp_bind. eapply wp_mono; [apply _| |apply build_dispatch_wp]. intros r g1 Hi1 Hr1 Hready.
  destruct r as [dispatch|code]; [|by apply gwp_total; [apply fail_pipeline_benign|]]. apply gwp_bind.
  eapply wp_mono; [apply _| |apply queueOperation_wp; [by apply Hr1| |exact Hready]].
  - intros [u|e] g2 _ _ _; [by apply gwp_Done|by apply gwp_total; [apply fail_pipeline_benign|]].
  - eapply Forall_impl; [exact Hst|]. intros stage. by apply answered_extends.
Qed.
Lemma run_stages_wp op stages results (g : G) :
  known (db_of g.1) op → Forall (λ stage, stage ∈ stages ∨ answered g.2 op stage) (stagesForOperation op) →
  gwp (run_stages op stages results) (λ _ _, True) g.
Proof.
  revert results g. induction stages as [|stage stages IH]; intros results g Hkn Hst; cbn [run_stages].
  { apply finish_pipeline_wp; [done|]. eapply Forall_impl; [exact Hst|]. intros stage [[]%not_elem_of_nil|?]; done. }
  apply gwp_unless; intros g1 Hi1 Hr1; [by apply gwp_Done|]. apply gwp_bind. eapply wp_mono; [apply _| |apply runStage_wp].
  intros result g2 Hi2 Hr2 Hans. apply gwp_unless; intros g3 Hi3 Hr3; [by apply gwp_Done|].
  case_bool_decide as E1; [by apply gwp_Done|].
  case_bool_decide as E2; [apply gwp_total; [|done]; apply calls_bind; [apply casCancelled_benign|done]|].
  case_bool_decide as E3; [by apply gwp_total; [apply fail_pipeline_benign|]|].
  assert (Hr : extends g g3) by (by do 2 (etransitivity; [eassumption|])). apply IH; [by apply Hr|].
  eapply Forall_impl; [exact Hst|]. intros st [[->|?]%elem_of_cons|Ha]; [right|by left|right; by eapply answered_extends].
  eapply answered_extends; [exact Hr3|]. apply Hans. unfold stops. by rewrite !bool_decide_false.
Qed.
Lemma runPipeline_wp op (g : G) : known (db_of g.1) op → gwp (runPipeline op) (λ _ _, True) g.
Proof. intros Hkn. apply run_stages_wp; [done|]. apply Forall_forall. by left. Qed.
Lemma Run_wp op (g : G) : known (db_of g.1) op → gwp (Run op) (λ _ _, True) g.
Proof.
  intros Hkn. apply gwp_call; [eauto with gate|]. intros [u|e] g1 Hi1 Hr1; [|by apply gwp_Done]. apply gwp_bind.
  eapply wp_mono; [apply _| |by apply runPipeline_wp, Hr1]. intros outcome g2 _ _ _. apply gwp_total; [|done]. benign.
Qed.
(** The goroutine of any id, with an entry or without. *)
Lemma coordinate_wp id (g : G) : gwp (coordinate id) (λ _ _, True) g.
Proof.
  intros g1 Hi1 Hr1. destruct (benign_ok _ (begin_run_benign id) g1 Hi1) as [Hi2 Hr2]. split_and!; [done|done| |intros e _; by apply gwp_Done].
  assert (Hop : ∀ op, (record (begin_run id) g1).1 = Ok op → known (db_of g1.1) op).
  { intros op. unfold record, begin_run. destruct (rn_entries _ !! id) as [e|] eqn:E; [|done]. destruct (en_running e); [done|].
    intros [= <-]. by apply (ga_entries _ Hi1 id). }
  destruct (record (begin_run id) g1) as [[op|e] g2]; simpl in Hop, Hi2, Hr2; cbn [fst snd]; [|by apply gwp_Done]. apply gwp_bind.
  eapply wp_mono; [apply _| |apply Run_wp, Hr2, Hop]; [|done]. intros [] g3 _ _ _. apply gwp_total; [|done]. benign.
Qed.
Lemma Start_ok op (g : G) : gated g → known (db_of g.1) op → gated (record (Start op) g).2 ∧ extends g (record (Start op) g).2.
Proof.
  intros Hg Hkn.
  assert (Hhost : rl_host (Start op g.1).2 = rl_host g.1) by (unfold Start; by case_match).
  assert (Hdb : db_of (Start op g.1).2 = db_of g.1) by (unfold db_of, node_of; simpl; by rewrite Hhost).
  apply record_step; [done|rewrite Hdb; reflexivity|]. rewrite Hdb. unfold Start. case_match; simpl; [apply (ga_entries g Hg)|].
  intros id e [[<- <-]|[? He]]%lookup_insert_Some; [done|by apply (ga_entries g Hg)].
Qed.
Lemma Start_wp {A} op (k : res error bool → csvc A) Q g :
  known (db_of g.1) op → (∀ r g', gated g' → extends g g' → gwp (k r) Q g') → gwp (Call (Start op) k) Q g.
Proof.
  intros Hkn Hk g1 Hi1 Hr1. destruct (Start_ok op g1) as [Hi2 Hr2]; [done|by apply Hr1|]. split_and!; [done|done| |].
  - apply Hk; [done|by etransitivity].
  - intros e _. by apply Hk.
Qed.
Lemma Resume_wp ops (g : G) : Forall (known (db_of g.1)) ops → gwp (Resume ops) (λ _ _, True) g.
Proof.
  revert g. induction ops as [|op ops IH]; intros g Hall; cbn [Resume]; [by apply gwp_Done|]. apply Forall_cons in Hall as [Hop Hall].
  case_bool_decide; [|by apply IH]. apply Start_wp; [done|]. intros r g1 Hi1 Hr1. apply gwp_bind. eapply wp_mono; [apply _| |apply IH].
  - intros n g2 _ _ _. by apply gwp_Done.
  - eapply Forall_impl; [exact Hall|]. apply Hr1.
Qed.
Lemma all_operations_known db op : ops_wf (db_operations db) → op ∈ all_operations db → known db op.
Proof.
  intros Hwf Hop. unfold all_operations in Hop. apply list_elem_of_fmap in Hop as (o & -> & Hop).
  apply list_elem_of_fmap in Hop as ([id o'] & -> & Hop). apply elem_of_map_to_list in Hop. simpl.
  destruct (buildOperation_fields db o') as (Hid & _ & _ & Hty & _ & Him). exists o'. rewrite Hid, (Hwf _ _ Hop). split; [done|].
  unfold op_immutable in Him. injection Him. intros. split_and!; congruence.
Qed.
Lemma ResumePreflights_wp (g : G) : gwp ResumePreflights (λ _ _, True) g.
Proof.
  unfold ResumePreflights. apply gwp_read; [unfold ListNonTerminal; preserve|]. intros [ops|e] g1 Hi1 Hr1; [|by intros _; apply gwp_Done].
  intros (w & w' & Hq & Hw & _). apply gwp_bind. eapply wp_mono; [apply _| |apply Resume_wp]; [by intros; apply gwp_Done|].
  unfold ListNonTerminal in Hq. dinv. rewrite <- Hw. apply Forall_forall. unfold non_terminal_list. intros op.
  rewrite merge_sort_Permutation. intros [_ Hop]%list_elem_of_filter. apply all_operations_known; [|done]. rewrite Hw. apply Hi1.
Qed.
End gate.
