(* ===== verification/ReleaseService.v ===== *)
(** * The release service (internal/orchestrator: service.go, rollback.go,
    values.go, non_bundle_image.go)

    CreateOperation and RollbackRelease admit an INSTALL, UPGRADE or ROLLBACK:
    authorization, the gates of EMERGENCY changes, replay, the state of definition,
    customer, release and bundle, trust and vulnerability admission of the
    artifacts, the values; then one transaction creates the operation, its status
    moves to preflight and a coordinator ([Preflight]) is started.  CancelOperation
    moves it to cancelled or cancelling and stops the coordinator.  The handlers are
    programs of calls ([svc]) over the tables, the runner and the admission state.

    Parameters: the authorizer, the trust verifier and the stream revoker are
    interfaces of the service; [strconv.Quote], the merge-patch library and the JSON
    form of a protobuf Struct are third-party or need the Unicode tables. *)
From S2P Require Import Prelude Utf8 Json JsonText Redact Hash Trust Vulnerability System Recovery Delivery.
From S2P Require Import Domain Lifecycle Values Database Timeline Idempotency Outbox OperationStore EmergencyStore ValuesRows Creation.
From S2P Require Import Program AuthStore Policy Sessions Authn Authorization Operators EmergencyService Preflight.
From stdpp Require Import pretty sorting.
From Stdlib Require Import Ascii.
#[local] Open Scope Z_scope.

(** ** Values of an operation (values.go, non_bundle_image.go)

    A protobuf Struct is the list of its fields; the payload of a number does not
    matter here, only its JSON text. *)
#[warnings="-register-all"]
Inductive pb_value : Type :=
| PbNull | PbNumber (text : string) | PbString (s : string) | PbBool (b : bool)
| PbStruct (fields : list (string * pb_value)) | PbList (values : list pb_value).
Record mergedValues := { mg_patch : string; mg_patchDigest : string; mg_effective : string; mg_effectiveDigest : string }.
Inductive prepare_error : Type :=
| errInvalidMergePatch (detail : string) | errSecretLiteralForbidden | nonBundleImageError (path : string).
(** The bytes are a JSON object. *)
Definition isJSONObject (document : string) : bool :=
  match parse_json (TrimSpace document) with Some (JObj _) => true | _ => false end.
Fixpoint collectPatchValuePaths (path : string) (value : pb_value) : list string :=
  match value with
  | PbStruct fields =>
      flat_map (λ kv, let path := if bool_decide (path = "") then kv.1 else (path ++ "." ++ kv.1)%string in
                      path :: collectPatchValuePaths path kv.2) fields
  | PbList values =>
      (fix elements (index : nat) (values : list pb_value) : list string :=
         match values with
         | [] => []
         | element :: values =>
             let elementPath := (path ++ "." ++ pretty index)%string in
             (elementPath :: collectPatchValuePaths elementPath element) ++ elements (S index) values
         end) O values
  | _ => []
  end%list.
Definition collectPatchPaths (prefix : string) (fields : list (string * pb_value)) : list string :=
  collectPatchValuePaths prefix (PbStruct fields).
Definition patchPathIsBundleImage (path : string) (images : list BundleImage) : bool :=
  existsb (λ image, negb (bool_decide (bm_ValuesPath image = ""))
    && (bool_decide (path = bm_ValuesPath image) || HasPrefix path (bm_ValuesPath image ++ "."))) images.
Definition foreign_image (images : list BundleImage) (path : string) : bool :=
  contains_text "image" (ToLower path) && negb (patchPathIsBundleImage path images).
(** The first offending path in sorted order. *)
Definition nonBundleImagePath (patch : option (list (string * pb_value))) (images : list BundleImage) : option string :=
  match patch with
  | None => None
  | Some fields => find_row (foreign_image images) (merge_sort string_leb (collectPatchPaths "" fields))
  end.

Section values.
Context (yaml_documents : string → list (option yaml_node)) (format_float : string → option string).
Context (compile : string → option (string → bool)).
(** [json.Marshal(patch.AsMap())], jsonpatch.MergePatch *)
Context (json_of_struct : list (string * pb_value) → option string) (MergePatch : string → string → option string).
Abbreviation Canonicalize := (Canonicalize yaml_documents format_float).
Abbreviation ContainsSecret := (ContainsSecret yaml_documents format_float compile).
Definition patch_bytes (patch : option (list (string * pb_value))) : option string :=
  match patch with
  | None => Some "{}"
  | Some fields => encoded ← json_of_struct fields; match Canonicalize encoded with Ok canonical => Some canonical | Err _ => None end
  end.
Definition canonicalPatchForHash (patch : option (list (string * pb_value))) : string := default "{}" (patch_bytes patch).
Definition prepareValues (revision : ValuesRevision) (patch : option (list (string * pb_value))) (images : list BundleImage)
    : res prepare_error mergedValues :=
  let base := raw_bytes (vr_CanonicalDocument revision) in
  if ContainsSecret base then Err errSecretLiteralForbidden
  else if negb (isJSONObject base) then Err (errInvalidMergePatch "values revision must be an object")
  else match patch_bytes patch with
  | None => Err (errInvalidMergePatch "patch is not valid JSON Merge Patch")
  | Some patchBytes =>
      if negb (isJSONObject patchBytes) then Err (errInvalidMergePatch "patch must be an object")
      else if ContainsSecret patchBytes then Err errSecretLiteralForbidden
      else match nonBundleImagePath patch images with
      | Some path => Err (nonBundleImageError path)
      | None =>
          match MergePatch base patchBytes with
          | None => Err (errInvalidMergePatch "merge failed")
          | Some merged =>
              match Canonicalize merged with
              | Err _ => Err (errInvalidMergePatch "merged values must be an object")
              | Ok effective =>
                  if negb (isJSONObject effective) then Err (errInvalidMergePatch "merged values must be an object")
                  else if ContainsSecret effective then Err errSecretLiteralForbidden
                  else Ok {| mg_patch := patchBytes; mg_patchDigest := Digest patchBytes; mg_effective := effective;
                             mg_effectiveDigest := Digest effective |}
              end
          end
      end
  end.
End values.

(** ** Requests, responses, refusals *)
Record CreateOperationRequest := {
  cq_OperationType : string; cq_BundleId : string; cq_ReleaseDefinitionId : string; cq_ValuesRevisionId : string;
  cq_ValuesPatch : option (list (string * pb_value)); cq_ExpectedCurrentRevision : Z; cq_SignatureRef : option SignatureRef;
}.
Record RollbackReleaseRequest := {
  rq_ReleaseDefinitionId : string; rq_ExpectedCurrentRevision : Z; rq_TargetRevision : Z; rq_Reason : string;
  rq_ValuesRevisionId : string; rq_ValuesPatch : string;
}.
Record CancelOperationRequest := { nq_OperationId : string; nq_ExpectedStateVersion : Z; nq_Reason : string }.
(** commonv1.VerificationResult *)
Inductive VerificationResult : Type :=
| ResultUnspecified | ResultTrusted | ResultRejected | ResultPolicyWarning | ResultSignatureMissing | ResultVerificationUnavailable.
Record CreateOperationResponse := {
  cs_OperationId : string; cs_State : OperationStatus; cs_AcceptedAt : time; cs_VerificationResult : VerificationResult;
}.
Record RollbackReleaseResponse := { rs_OperationId : string; rs_FromRevision : Z; rs_ToRevision : Z; rs_State : OperationStatus }.
Record CancelOperationResponse := { ns_Operation : Operation; ns_RequestId : string }.
(** A refusal with the typed detail of the gates. *)
Record GateDetail := { gd_UnresolvedOperationIds : list string; gd_ConvergenceTaskIds : list string }.
Record rpc_failure := { rf_error : connect_error; rf_detail : option GateDetail }.
Definition failure (c : code) (message : string) : rpc_failure := {| rf_error := newError c message; rf_detail := None |}.
Definition with_meta (c : code) (message : string) (meta : list (string * string)) : rpc_failure :=
  {| rf_error := {| ce_code := c; ce_message := message; ce_meta := meta |}; rf_detail := None |}.
Definition operationGateError (reason : string) (detail : GateDetail) : rpc_failure :=
  {| rf_error := newError CodeFailedPrecondition reason; rf_detail := Some detail |}.
Definition cancelOperationError (c : code) (reason message : string) : rpc_failure :=
  with_meta c (reason ++ ": " ++ message) [("X-Reason-Code", reason)].
Definition prepareValuesError (quote_text : string → string) (e : prepare_error) : rpc_failure :=
  match e with
  | errSecretLiteralForbidden => failure CodeInvalidArgument "secret_literal_forbidden"
  | errInvalidMergePatch detail => failure CodeInvalidArgument ("invalid_merge_patch: " ++ detail)
  | nonBundleImageError path => with_meta CodeInvalidArgument ("non_bundle_image: patch path " ++ quote_text path ++ " is not a Bundle image values path")
                                            [("X-Reason-Code", "non_bundle_image")]
  end.
Definition definition_status_string (s : DefinitionStatus) : string :=
  match s with DefStatusDraft => "draft" | DefStatusActive => "active" | DefStatusDisabled => "disabled" end.
Definition parse_operation_type (s : string) : option OperationType :=
  if bool_decide (s = "INSTALL") then Some OperationInstall else if bool_decide (s = "UPGRADE") then Some OperationUpgrade else None.

(** ** Keys and hashes *)
Definition hashIdempotencyKey (key : string) : string := if bool_decide (key = "") then "" else sha256_hex key.
Definition idempotencyScope (orgID definitionID : string) : string := orgID ++ ":" ++ definitionID.
(** [operationIdempotencyKey] of a key that is not empty *)
Definition scopedOperationKey (scope key : string) : string :=
  if bool_decide (key = "") then "" else scope ++ ":" ++ hashIdempotencyKey key.
Definition operationCancelScope (operationID actorUserID : string) : string := operationID ++ ":" ++ actorUserID.
Definition hashCancelRequest (operationID : string) (expectedStateVersion : Z) (reason : string) : string :=
  sha256_hex (operationID ++ "|" ++ pretty expectedStateVersion ++ "|" ++ reason).

(** ** Bundles of an organization (store.go, sqlite/bundles.go) *)
Definition claims_bundle (bundleID : string) (db : DB) (d : ReleaseDefinition) : bool :=
  bool_decide (rd_CurrentBundleID d = Some bundleID)
  || existsb (λ o, bool_decide (op_ReleaseDefinitionID o = rd_ID d) && bool_decide (op_BundleID o = bundleID)) (map_to_list (db_operations db)).*2.
Definition belongs_to (orgID : string) (db : DB) (d : ReleaseDefinition) : bool :=
  bool_decide (default "" (rd_OwnerOrganizationID d) = orgID)
  || existsb (λ b, bool_decide (bi_OrgID b = orgID) && bool_decide (bi_CustomerID b = rd_CustomerID d) && bool_decide (bi_Status b = BindingActive))
       (at_bindings (db_auth db)).
Definition definitions_of (db : DB) : list ReleaseDefinition := (map_to_list (db_release_definitions db)).*2.
Definition ReachableFromOrganization (bundleID orgID : string) : SM bool :=
  if bool_decide (bundleID = "") || bool_decide (orgID = "") then ret false
  else query (λ db, existsb (λ d, belongs_to orgID db d && claims_bundle bundleID db d) (definitions_of db)).
Definition BundleClaimedOutsideOrganization (bundleID orgID : string) : SM bool :=
  if bool_decide (bundleID = "") || bool_decide (orgID = "") then ret false
  else query (λ db, existsb (λ d, claims_bundle bundleID db d && negb (belongs_to orgID db d)) (definitions_of db)).

(** ** Checks without calls *)
Definition checkDefinitionOperable (def : ReleaseDefinition) : option rpc_failure :=
  if bool_decide (rd_Status def = DefStatusActive) then None
  else Some (failure CodeFailedPrecondition
               ("release_definition_disabled: definition " ++ rd_ID def ++ " is " ++ definition_status_string (rd_Status def))).
Definition checkBundleStatus (bundle : ReleaseBundle) : option rpc_failure :=
  let not_ready := Some (failure CodeFailedPrecondition "bundle_not_ready") in
  let rejected := Some (failure CodeFailedPrecondition "bundle_rejected") in
  match rb_Status bundle with
  | BundleReceived => not_ready
  | BundleRejected => rejected
  | BundleValidated => None
  | BundleArchived =>
      match rb_ArchivedFromStatus bundle with
      | None | Some BundleValidated => None
      | Some BundleRejected => rejected
      | Some _ => not_ready
      end
  | BundleStatusOther _ => not_ready
  end.
(** What follows the last slash *)
Fixpoint after_slash (l acc : bytes) : bytes :=
  match l with
  | [] => acc
  | c :: l => if bool_decide (c = "/"%char) then after_slash l l else after_slash l acc
  end.
Definition extractChartName (ref : string) : string := String.string_of_list_ascii (after_slash (str ref) (str ref)).
Definition chartNameMatches (chartRef chartName : string) : bool := bool_decide (extractChartName chartRef = extractChartName chartName).
Example chart_names : extractChartName "registry.example.com/team/nginx" = "nginx" ∧ extractChartName "nginx" = "nginx" ∧ extractChartName "a/" = "".
Proof. vm_compute. done. Qed.
Definition bundleImageDigests (images : list BundleImage) : string * string :=
  let texts f := json_text (JArr (JStr <$> filter (λ s, s ≠ "") (f <$> images))) in (texts bm_Ref, texts bm_Digest).
Definition artifact_digests (content : BundleContent) : list string :=
  (if bool_decide (bd_ChartDigest content = "") then [] else [bd_ChartDigest content])
  ++ filter (λ s, s ≠ "") (bm_Digest <$> bd_Images content).
Definition bundle_digest (content : BundleContent) : string :=
  if bool_decide (bd_DigestAlg content = "") then bd_DigestValue content else bd_DigestAlg content ++ ":" ++ bd_DigestValue content.
(** bundleToProto (service.go): no value kinds. *)
Definition bundleToProto (bundle : ReleaseBundle) : BundleProto :=
  {| bp_Id := rb_ID bundle; bp_Status := BundleStatus_value (rb_Status bundle);
     bp_Images := (λ image, {| ip_Ref := bm_Ref image; ip_Digest := bm_Digest image; ip_ValuesPath := bm_ValuesPath image; ip_ValueKind := 0 |})
                  <$> bd_Images (rb_Content bundle);
     bp_Content := rb_Content bundle |}.
Definition actorHasRole (actor : authctx_Actor) (role : string) : bool := existsb (λ r, bool_decide (r = role)) (ax_Roles actor).
Definition canCancelOperation (role : Role) : bool :=
  bool_decide (role = RoleDeployer) || bool_decide (role = RoleReleaseAdmin) || bool_decide (role = RolePlatformAdmin).
Definition validateCancelInput (msg : CancelOperationRequest) (idempotencyKey : string) : option rpc_failure :=
  let invalid message := Some (cancelOperationError CodeInvalidArgument "invalid_argument" message) in
  if bool_decide (nq_OperationId msg = "") then invalid "operation_id is required"
  else if nq_ExpectedStateVersion msg <? 1 then invalid "expected_state_version must be >= 1"
  else if bool_decide (idempotencyKey = "") then invalid "Idempotency-Key header is required"
  else if (64 <? String.length idempotencyKey)%nat then invalid "idempotency key too large"
  else if 500 <? RuneCount (nq_Reason msg) then invalid "reason exceeds 500 characters"
  else if bool_decide (TrimSpace (nq_Reason msg) = "") then invalid "reason is required"
  else None.
Definition validate_rollback (msg : RollbackReleaseRequest) : option rpc_failure :=
  let invalid message := Some (failure CodeInvalidArgument message) in
  if negb (bool_decide (rq_ValuesRevisionId msg = "")) || negb (bool_decide (rq_ValuesPatch msg = "")) then invalid "rollback_values_not_allowed"
  else if bool_decide (rq_Reason msg = "") then invalid "reason is required for rollback"
  else if rq_TargetRevision msg <=? 0 then invalid ("target_revision must be >= 1, got " ++ pretty (rq_TargetRevision msg))%string
  else if rq_ExpectedCurrentRevision msg <=? 0
  then invalid ("expected_current_revision must be >= 1, got " ++ pretty (rq_ExpectedCurrentRevision msg))%string
  else if rq_ExpectedCurrentRevision msg <=? rq_TargetRevision msg
  then invalid ("target_revision " ++ pretty (rq_TargetRevision msg) ++ " must be < expected_current_revision "
                ++ pretty (rq_ExpectedCurrentRevision msg))%string
  else None.
(** trust.DefaultPolicy *)
Definition FailClosed (env : string) : bool := bool_decide (env = "production").
Definition DefaultPolicyVersion : string := "v1".
(** The verdict of the verifier, which reports one of four statuses. *)
Definition trust_decision (failClosed : bool) (out : Output) : res rpc_failure VerificationResult :=
  match ou_Status out with
  | VerificationTrusted => Ok ResultTrusted
  | VerificationRejected => Err (failure CodeFailedPrecondition (ou_Summary out))
  | VerificationSignatureMissing =>
      if failClosed then Err (failure CodeFailedPrecondition (ou_Summary out)) else Ok ResultPolicyWarning
  | VerificationUnavailable => if failClosed then Err (failure Program.CodeUnavailable (ou_Summary out)) else Ok ResultPolicyWarning
  end.
Record TrustAudit := {
  tv_ActorService : bool; tv_ActorID : string; tv_OrganizationID : string; tv_Role : string; tv_BundleId : string;
  tv_Status : VerificationStatus; tv_Summary : string; tv_Digest : string; tv_PolicyVersion : string;
}.
Definition trust_verification_audit (actor : authctx_Actor) (bundleID digest : string) (out : Output) : TrustAudit :=
  let service := negb (bool_decide (ax_Service actor = "")) in
  {| tv_ActorService := service; tv_ActorID := if service then ax_Service actor else ax_UserID actor;
     tv_OrganizationID := ax_OrganizationID actor; tv_Role := default "" (head (ax_Roles actor)); tv_BundleId := bundleID;
     tv_Status := ou_Status out; tv_Summary := ou_Summary out; tv_Digest := digest;
     tv_PolicyVersion := match ou_Record out with
                         | Some r => if bool_decide (ve_PolicyVersion r = "") then DefaultPolicyVersion else ve_PolicyVersion r
                         | None => DefaultPolicyVersion
                         end |}.
Definition unavailable_output (summary : string) : Output :=
  {| ou_Status := VerificationUnavailable; ou_Summary := summary; ou_Record := None; ou_RootID := ""; ou_KeyID := ""; ou_RevocationEpoch := 0 |}.

(** The admission step of the Service with the audit events of refused trust. *)
Record Rest (St : Type) := { re_admission : AdmissionService St; re_audits : list TrustAudit }.
Arguments re_admission {St}. Arguments re_audits {St}.

Section service.
(** The parameters of the effective values and of the coordinator. *)
Context (float64 : json → json) (yaml_documents : string → list (option yaml_node)) (format_float : string → option string).
Context (marshal : CommandPayload → option string) (polls : StageDef → nat).
Context (compile : string → option (string → bool)) (json_of_struct : list (string * pb_value) → option string).
Context (MergePatch : string → string → option string) (quote_text : string → string).
Context {T St : Type} {HT : Host T} {HR : ResultStore St}.
Abbreviation S := (Release T (Rest St)).
Abbreviation csvc := (svc S error).
Abbreviation rpc A := (csvc (res rpc_failure A)).
(** The interfaces of the service; what is absent is nil. *)
Context (authorize : option (authctx_Actor → string → string → AuthorizationAction → svc T error (res connect_error Z))).
Context (verifier : option (Input → csvc (res error (option Output)))) (revoke : option (string → M S error unit)).
Context (targetEnv : string) (OperationDeadline : Z).

Definition and_next {A B} (p : rpc A) (k : A → rpc B) : rpc B :=
  svc_bind p (λ r, match r with Ok a => k a | Err e => Done (Err e) end).
Definition deny {A} (c : code) (message : string) : rpc A := Done (Err (failure c message)).
Definition internal {A} (message : string) : error → rpc A := λ _, deny CodeInternal message.
Definition check (o : option rpc_failure) : rpc unit := Done (match o with Some e => Err e | None => Ok tt end).
Definition hashOperationRequest (opType : OperationType) (bundleID definitionID valuesRevisionID canonicalPatch : string)
    (expectedRevision targetRevision : Z) (reason : string) : string :=
  let field name := (quoted name ++ ":")%string in
  sha256_hex ("{" ++ field "operation_type" ++ quote_text (OperationType_string opType) ++ "," ++ field "bundle_id" ++ quote_text bundleID
    ++ "," ++ field "release_definition_id" ++ quote_text definitionID ++ "," ++ field "values_revision_id" ++ quote_text valuesRevisionID
    ++ "," ++ field "values_patch" ++ canonicalPatch ++ "," ++ field "expected_current_revision" ++ pretty expectedRevision
    ++ "," ++ field "target_revision" ++ pretty targetRevision ++ "," ++ field "reason" ++ quote_text reason ++ "}").
Definition hashRequest (opType : OperationType) (msg : CreateOperationRequest) (canonicalPatch : string) : string :=
  hashOperationRequest opType (cq_BundleId msg) (cq_ReleaseDefinitionId msg) (cq_ValuesRevisionId msg) canonicalPatch
    (cq_ExpectedCurrentRevision msg) 0 "".
Definition hashRollbackRequest (msg : RollbackReleaseRequest) : string :=
  hashOperationRequest OperationRollback "" (rq_ReleaseDefinitionId msg) "" "{}" (rq_ExpectedCurrentRevision msg) (rq_TargetRevision msg)
    (rq_Reason msg).
Definition standardOperationDeadline (now : time) : option time :=
  if OperationDeadline <=? 0 then None else Some (now + OperationDeadline).

(** ** The checks of a creation *)
Definition load_definition (id : string) : rpc ReleaseDefinition :=
  svc_bind (once (here (Get_definition id))) (λ r,
    match r with
    | Ok def => Done (Ok def)
    | Err ErrNotFound => deny CodeNotFound ("definition_not_found: " ++ id)
    | Err _ => deny CodeInternal "definition lookup"
    end).
(** The version the decision was made against, for the fence. *)
Definition authorizeOperationActor (actor : authctx_Actor) (credential customerID : string) : rpc Z :=
  match authorize with
  | None => deny CodeUnavailable "authorization_snapshot_stale: authorization snapshot is unavailable"
  | Some authorize =>
      svc_bind (svc_lift rl_host put_host (authorize actor credential customerID AuthorizationCreateOperation)) (λ r,
        match r with
        | Ok version => Done (Ok version)
        | Err e => if bool_decide (ce_code e = CodePermissionDenied) then deny CodePermissionDenied "permission_denied"
                   else Done (Err {| rf_error := e; rf_detail := None |})
        end)
  end.
Definition emergency_gates (def : ReleaseDefinition) : rpc unit :=
  let* unresolved := here (HasUnresolvedForDefinition (rd_ID def)) fails internal "emergency effect gate" in
  if (unresolved.1 : bool) then
    svc_bind (once (here (ListByDefinition (rd_ID def) PendingPromotion))) (λ r,
      Done (Err (operationGateError "emergency_effect_unresolved"
        {| gd_UnresolvedOperationIds := unresolved.2; gd_ConvergenceTaskIds := match r with Ok tasks => ct_ID <$> tasks | Err _ => [] end |})))
  else
    let* pending := here (ListByDefinition (rd_ID def) PendingPromotion) fails internal "convergence gate" in
    match pending with
    | [] => Done (Ok tt)
    | _ => Done (Err (operationGateError "release_convergence_pending"
             {| gd_UnresolvedOperationIds := []; gd_ConvergenceTaskIds := ct_ID <$> pending |}))
    end.
Definition releaseBusyError {A} (definitionID message : string) : rpc A :=
  svc_bind (once (here (GetActiveForDefinition definitionID))) (λ r,
    Done (Err (with_meta CodeFailedPrecondition message
      (("X-Reason-Code", "release_busy") :: match r with Ok active => [("X-Operation-ID", op_ID active)] | Err _ => [] end)))).
Definition checkNoActiveOperation (defID : string) : rpc unit :=
  let* active := here (HasActiveForDefinition defID) fails internal "active check" in
  if (active : bool) then releaseBusyError defID ("release_busy: definition " ++ defID ++ " has active operation")
  else
    let* emergency := here (HasActiveEmergencyForDefinition defID) fails internal "emergency check" in
    if (emergency : bool) then deny CodeFailedPrecondition ("release_busy: definition " ++ defID ++ " has a running EMERGENCY")
    else Done (Ok tt).
Definition checkCustomerNotDisabled (prefix customerID : string) : rpc unit :=
  let* customer := here (Get_customer customerID) fails (λ _, deny CodePermissionDenied (prefix ++ "customer lookup")) in
  if bool_decide (cu_Status customer = CustomerDisabled)
  then deny CodePermissionDenied (prefix ++ "customer " ++ customerID ++ " is disabled") else Done (Ok tt).
(** [replay]: the operation made by the same key, or [None]. *)
Definition find_replay (scope key requestHash : string) : rpc (option Operation) :=
  svc_bind (once (here (GetByIdempotencyScopeAndKey scope (scopedOperationKey scope key)))) (λ r,
    match r with
    | Ok existing =>
        if bool_decide (op_RequestHash existing = requestHash) then Done (Ok (Some existing))
        else deny CodeAlreadyExists "idempotency_conflict: key already used with different request"
    | Err ErrNotFound => Done (Ok None)
    | Err _ => deny CodeInternal "idempotency lookup"
    end).
Definition require_key (key : string) : rpc unit :=
  if bool_decide (key = "") then deny CodeInvalidArgument "idempotency_key is required" else Done (Ok tt).
(** What CreateOperation and RollbackRelease check before anything of their own. *)
Definition admit_request {A} (actor : authctx_Actor) (credential key definitionID : string) (requestHash : string)
    (replayed : Operation → rpc A) (k : ReleaseDefinition → Z → rpc A) : rpc A :=
  and_next (load_definition definitionID) (λ def,
  and_next (authorizeOperationActor actor credential (rd_CustomerID def)) (λ version,
  and_next (emergency_gates def) (λ _,
  and_next (require_key key) (λ _,
  and_next (find_replay (idempotencyScope (ax_OrganizationID actor) (rd_ID def)) key requestHash) (λ replay,
    match replay with
    | Some existing => replayed existing
    | None =>
        and_next (check (checkDefinitionOperable def)) (λ _,
        and_next (checkCustomerNotDisabled "customer_disabled: " (rd_CustomerID def)) (λ _,
        and_next (checkNoActiveOperation (rd_ID def)) (λ _, k def version)))
    end))))).
Definition load_bundle (id : string) : rpc ReleaseBundle :=
  svc_bind (once (here (Get_bundle id))) (λ r,
    match r with
    | Ok bundle => Done (Ok bundle)
    | Err ErrNotFound => deny CodeNotFound ("bundle_not_found: " ++ id)
    | Err _ => deny CodeInternal "bundle lookup"
    end).
(** A bundle of another organization is refused (TASK-215, TASK-216). *)
Definition checkBundleOwner (actor : authctx_Actor) (bundle : ReleaseBundle) : rpc unit :=
  if negb (bool_decide (ax_Service actor = "")) || actorHasRole actor (role_string RolePlatformAdmin) then Done (Ok tt)
  else
    let* reachable := here (ReachableFromOrganization (rb_ID bundle) (ax_OrganizationID actor)) fails internal "bundle reachability" in
    if (reachable : bool) then Done (Ok tt)
    else
      let* claimed := here (BundleClaimedOutsideOrganization (rb_ID bundle) (ax_OrganizationID actor)) fails internal "bundle ownership" in
      if (claimed : bool)
      then deny CodePermissionDenied ("bundle_not_reachable: bundle " ++ rb_ID bundle ++ " belongs to another organization")
      else
        let submitter := bd_SubmittedByOrganizationID (rb_Content bundle) in
        if negb (bool_decide (submitter = "")) && negb (bool_decide (submitter = ax_OrganizationID actor))
        then deny CodePermissionDenied ("bundle_not_reachable: bundle " ++ rb_ID bundle ++ " was submitted by another organization")
        else Done (Ok tt).
Definition checkChart (bundle : ReleaseBundle) (def : ReleaseDefinition) : option rpc_failure :=
  let ref := bd_ChartRef (rb_Content bundle) in
  if chartNameMatches ref (rd_ChartName def) then None
  else Some (failure CodeInvalidArgument ("chart_mismatch: bundle chart_ref " ++ quote_text ref ++ " does not match definition chart_name "
               ++ quote_text (rd_ChartName def))).
Definition emit_trust_audit (e : TrustAudit) : M S error unit :=
  modify (λ s, put_rest {| re_admission := re_admission (rl_rest s); re_audits := (re_audits (rl_rest s) ++ [e])%list |} s).
Definition verify_output (msg : CreateOperationRequest) (digest : string) : csvc Output :=
  match verifier with
  | None => Done (unavailable_output "verification_unavailable: verifier is not configured")
  | Some verify =>
      svc_bind (verify {| in_Digest := digest; in_SignatureRef := cq_SignatureRef msg; in_Environment := targetEnv |}) (λ r,
        Done (match r with
              | Ok (Some out) => out
              | Ok None => unavailable_output "verification_unavailable: verifier returned no result"
              | Err _ => unavailable_output "verification_unavailable"
              end))
  end.
Definition verify_trust (actor : authctx_Actor) (msg : CreateOperationRequest) (bundle : ReleaseBundle) : rpc VerificationResult :=
  let digest := bundle_digest (rb_Content bundle) in
  svc_bind (verify_output msg digest) (λ out,
    let decide := Done (trust_decision (FailClosed targetEnv) out) in
    if bool_decide (ou_Status out = VerificationTrusted) then decide
    else svc_bind (once (emit_trust_audit (trust_verification_audit actor (cq_BundleId msg) digest out))) (λ _, decide)).
Definition admission_actor (actor : authctx_Actor) : AdmissionActor :=
  {| aa_UserID := ax_UserID actor; aa_OrganizationID := ax_OrganizationID actor; aa_Service := ax_Service actor; aa_Roles := ax_Roles actor |}.
Definition admission_failure (e : admission_error) : rpc_failure :=
  match e with
  | Vulnerability.CodeFailedPrecondition reason _ => failure CodeFailedPrecondition reason
  | Vulnerability.CodeUnavailable reason _ => failure CodeUnavailable reason
  end.
Definition admit_image (actor : authctx_Actor) (t later : time) (digest sbomRef : string) : M S error (option admission_error) := λ s,
  let (r, a) := EvaluateArtifactAdmission (Some (admission_actor actor)) t later digest sbomRef (re_admission (rl_rest s)) in
  (Ok r, put_rest {| re_admission := a; re_audits := re_audits (rl_rest s) |} s).
Fixpoint admit_bundle (actor : authctx_Actor) (images : list BundleImage) (sbomRef : string) : rpc unit :=
  match images with
  | [] => Done (Ok tt)
  | image :: images =>
      let* t := here now fails internal "clock" in
      let* later := here now fails internal "clock" in
      let* r := admit_image actor t later (bm_Digest image) sbomRef fails internal "admission" in
      match r with Some e => Done (Err (admission_failure e)) | None => admit_bundle actor images sbomRef end
  end.
Definition checkValuesRevision (def : ReleaseDefinition) (revisionID : string) : rpc ValuesRevision :=
  if bool_decide (revisionID = "") then deny CodeFailedPrecondition "revision_not_approved"
  else
    svc_bind (once (here (getValues revisionID))) (λ r,
      match r with
      | Err ErrNotFound => deny CodeNotFound ("revision_mismatch: values_revision not found: " ++ revisionID)
      | Err _ => deny CodeInternal "values revision lookup"
      | Ok revision =>
          if negb (bool_decide (vr_ReleaseDefinitionID revision = rd_ID def))
          then deny CodeInvalidArgument ("values_revision " ++ vr_ID revision ++ " belongs to release_definition " ++ vr_ReleaseDefinitionID revision)
          else if negb (bool_decide (vr_Status revision = ValuesStatusApproved))
          then deny CodeFailedPrecondition ("revision_not_approved: values_revision " ++ vr_ID revision ++ " must be approved")
          else Done (Ok revision)
      end).
Definition checkReleaseState (def : ReleaseDefinition) (opType : OperationType) (expected : Z) : rpc unit :=
  svc_bind (once (here (GetByDefinition_inventory (rd_ID def)))) (λ r,
    let active := match r with Ok installed => bool_decide (inv_InventoryStatus installed = InventoryActive) | Err _ => false end in
    let lookup_failed := match r with Ok _ | Err ErrNotFound => false | Err _ => true end in
    if bool_decide (opType = OperationInstall) then
      if lookup_failed then deny CodeInternal "inventory lookup"
      else if active then deny CodeFailedPrecondition ("release_already_exists: installed release exists for definition " ++ rd_ID def)
      else Done (Ok tt)
    else if expected <? 1 then deny CodeInvalidArgument "expected_current_revision must be >= 1"
    else if lookup_failed then deny CodeInternal "inventory lookup"
    else match r with
         | Ok installed =>
             if negb active then deny CodeFailedPrecondition ("release_not_found: no installed release for definition " ++ rd_ID def)
             else if negb (inv_Revision installed =? expected)
             then deny CodeFailedPrecondition ("revision_conflict: expected revision " ++ pretty expected ++ ", but current revision is "
                    ++ pretty (inv_Revision installed))
             else Done (Ok tt)
         | Err _ => deny CodeFailedPrecondition ("release_not_found: no installed release for definition " ++ rd_ID def)
         end).

(** ** From creation to preflight *)
(** Pending to preflight; an error is only logged, the operation stays pending. *)
Definition start_preflight_status (op : Operation) : csvc (Operation * bool) :=
  match Transition (op_Status op) EventStartPreflight with
  | Err _ => Done (op, false)
  | Ok next =>
      svc_bind (once (here (UpdateStatus_operation (op_ID op) next (op_StateVersion op) ""))) (λ r,
        Done (match r with
              | Ok updated => (op_update op (op_Status updated) (op_StateVersion updated) (op_LastError op) (op_UpdatedAt op)
                                 (op_TerminalAt op) (op_EffectStatus op), true)
              | Err _ => (op, false)
              end))
  end.
(** The coordinator is started; a runner that is shut down ignores it. *)
Definition startPreflight (op : Operation) : csvc unit := svc_bind (once (Start op)) (λ _, Done tt).
Definition launch {A} (op : Operation) (response : Operation → A) : rpc A :=
  svc_bind (start_preflight_status op) (λ started,
    if started.2 then svc_bind (startPreflight started.1) (λ _, Done (Ok (response started.1)))
    else Done (Ok (response started.1))).
Definition toResponse (op : Operation) (verification : VerificationResult) : CreateOperationResponse :=
  {| cs_OperationId := op_ID op; cs_State := op_Status op; cs_AcceptedAt := op_CreatedAt op; cs_VerificationResult := verification |}.
Definition to_int32 (n : Z) : Z := (n + 2 ^ 31) mod 2 ^ 32 - 2 ^ 31.
Definition rollbackResponse (op : Operation) : RollbackReleaseResponse :=
  {| rs_OperationId := op_ID op; rs_FromRevision := to_int32 (op_ExpectedRevision op); rs_ToRevision := to_int32 (op_TargetRevision op);
     rs_State := op_Status op |}.
Definition new_operation (id : string) (opType : OperationType) (def : ReleaseDefinition) (scope key requestHash : string)
    (actor : authctx_Actor) (bundle : option ReleaseBundle) (valuesRevisionID : string) (merged : option mergedValues)
    (expected target : Z) (reason : string) (now : time) : Operation :=
  let content := rb_Content <$> bundle in
  let images := bundleImageDigests <$> (bd_Images <$> content) in
  {| op_ID := id; op_OperationType := opType; op_Status := InitialStatus; op_ReleaseDefinitionID := rd_ID def;
     op_IdempotencyKey := scopedOperationKey scope key; op_IdempotencyScope := scope; op_RequestHash := requestHash; op_StateVersion := 0;
     op_BundleID := default "" (rb_ID <$> bundle); op_BundleChartRef := default "" (bd_ChartRef <$> content);
     op_BundleChartDigest := default "" (bd_ChartDigest <$> content); op_ImageRefsJSON := fst <$> images; op_ImageDigestsJSON := snd <$> images;
     op_PolicyVersion := match bundle with Some _ => DefaultPolicyVersion | None => "" end; op_ValuesRevisionID := valuesRevisionID;
     op_ExpectedRevision := expected; op_TargetRevision := target; op_TargetOperationID := ""; op_ValuesPatch := mg_patch <$> merged;
     op_PatchDigest := default "" (mg_patchDigest <$> merged); op_EffectiveValuesDigest := default "" (mg_effectiveDigest <$> merged);
     op_Reason := reason; op_Actor := {| ac_UserID := ax_UserID actor; ac_Organization := ax_OrganizationID actor |}; op_LastError := "";
     op_CreatedAt := now; op_UpdatedAt := now; op_Deadline := standardOperationDeadline now; op_TerminalAt := None;
     op_EffectStatus := EffectEmpty |}.
(** The first row of an INSTALL when the coordinator could not build it. *)
Definition deferred_dispatch (op : Operation) (def : ReleaseDefinition) (bundle : ReleaseBundle) (effective : string)
    : rpc (option OutboxEntry) :=
  let payload :=
    {| cp_Stage := StageArtifact; cp_OperationID := op_ID op; cp_BundleID := op_BundleID op; cp_PayloadVersion := 0; cp_Upgrade := None;
       cp_DefinitionID := rd_ID def; cp_Namespace := rd_Namespace def; cp_ReleaseName := rd_ReleaseName def; cp_TimeoutSeconds := 0;
       cp_Bundle := Some (bundleToProto bundle); cp_Values := Some effective; cp_ValuesRevisionID := op_ValuesRevisionID op;
       cp_ExpectedCurrentRevision := op_ExpectedRevision op; cp_TargetRevision := op_TargetRevision op; cp_CreateNamespace := false;
       cp_ValuesPatch := op_ValuesPatch op; cp_ApprovedAnnotationKeys := rd_ApprovedAnnotationKeys def |} in
  match marshal payload with
  | None => deny CodeInternal "marshal deferred dispatch"
  | Some encoded =>
      let* id := here new_uuid fails internal "id" in
      Done (Ok (Some (outbox_entry id (stage_command op StageArtifact) op "" encoded)))
  end.
(** No first row for an UPGRADE. *)
Definition first_dispatch (op : Operation) (def : ReleaseDefinition) (bundle : ReleaseBundle) (effective : string) : rpc (option OutboxEntry) :=
  if bool_decide (op_OperationType op = OperationUpgrade) then Done (Ok None)
  else
    svc_bind (Dispatch marshal op (Some (bundleToProto bundle)) (Some effective)) (λ r,
      match r with
      | (None, Some _) => deferred_dispatch op def bundle effective
      | (dispatch, _) => Done (Ok dispatch)
      end).
Definition creation_error {A} (definitionID : string) (e : error) : rpc A :=
  match e with
  | ErrReleaseBusy => releaseBusyError definitionID "release_busy"
  | ErrDuplicateKey => deny CodeAlreadyExists "idempotency_conflict"
  | ErrBundleNotReady => deny CodeFailedPrecondition "bundle_not_ready"
  | ErrBundleRejected => deny CodeFailedPrecondition "bundle_rejected"
  | ErrAuthorizationStale => deny CodeUnavailable "authorization_snapshot_stale: authorization snapshot is stale"
  | _ => deny CodeInternal "create operation"
  end.
Definition create_from_bundle (actor : authctx_Actor) (key : string) (opType : OperationType) (msg : CreateOperationRequest)
    (def : ReleaseDefinition) (version : Z) (bundle : ReleaseBundle) (verification : VerificationResult) (merged : mergedValues)
    : rpc CreateOperationResponse :=
  let* t := here now fails internal "clock" in
  let* id := here new_uuid fails internal "id" in
  let op := new_operation id opType def (idempotencyScope (ax_OrganizationID actor) (rd_ID def)) key (hashRequest opType msg (mg_patch merged))
              actor (Some bundle) (cq_ValuesRevisionId msg) (Some merged) (cq_ExpectedCurrentRevision msg) 0 "" t in
  and_next (first_dispatch op def bundle (mg_effective merged)) (λ dispatch,
    svc_bind (once (here (OperationCreationUnitOfWork
        {| ocr_Operation := op; ocr_Dispatch := dispatch; ocr_CandidateArtifactDigests := artifact_digests (rb_Content bundle);
           ocr_ExpectedAuthorizationVersion := version; ocr_Emergency := None |}))) (λ r,
      match r with
      | Err e => creation_error (cq_ReleaseDefinitionId msg) e
      | Ok created => launch (ores_Operation created) (λ op, toResponse op verification)
      end)).
Definition CreateOperation (actor : option authctx_Actor) (credential key : string) (msg : CreateOperationRequest) : rpc CreateOperationResponse :=
  match parse_operation_type (cq_OperationType msg) with
  | None => deny CodeInvalidArgument "invalid_operation_type: only INSTALL and UPGRADE are accepted"
  | Some opType =>
  match actor with
  | None => deny CodeUnauthenticated "authentication required"
  | Some actor =>
      let canonical := canonicalPatchForHash yaml_documents format_float json_of_struct (cq_ValuesPatch msg) in
      admit_request actor credential key (cq_ReleaseDefinitionId msg) (hashRequest opType msg canonical)
        (λ existing, Done (Ok (toResponse existing ResultUnspecified)))
        (λ def version,
          and_next (load_bundle (cq_BundleId msg)) (λ bundle,
          and_next (checkBundleOwner actor bundle) (λ _,
          and_next (check (checkBundleStatus bundle)) (λ _,
          and_next (check (checkChart bundle def)) (λ _,
          and_next (verify_trust actor msg bundle) (λ verification,
          and_next (admit_bundle actor (bd_Images (rb_Content bundle)) (bd_SBOMRef (rb_Content bundle))) (λ _,
          and_next (checkValuesRevision def (cq_ValuesRevisionId msg)) (λ revision,
          and_next (checkReleaseState def opType (cq_ExpectedCurrentRevision msg)) (λ _,
            match prepareValues yaml_documents format_float compile json_of_struct MergePatch revision (cq_ValuesPatch msg)
                    (bd_Images (rb_Content bundle)) with
            | Err e => Done (Err (prepareValuesError quote_text e))
            | Ok merged => create_from_bundle actor key opType msg def version bundle verification merged
            end)))))))))
  end end.

(** ** RollbackRelease *)
Definition rollback_error {A} (definitionID : string) (e : error) : rpc A :=
  match e with
  | ErrReleaseBusy => releaseBusyError definitionID ("release_busy: definition " ++ definitionID ++ " has active operation")
  | ErrIdempotencyConflict => deny CodeAlreadyExists "idempotency_conflict: key already used with different request"
  | ErrAuthorizationStale => deny CodeUnavailable "authorization_snapshot_stale: authorization snapshot is stale"
  | _ => deny CodeInternal "create rollback operation"
  end.
Definition create_rollback (actor : authctx_Actor) (key : string) (msg : RollbackReleaseRequest) (def : ReleaseDefinition) (version : Z)
    : rpc RollbackReleaseResponse :=
  let scope := idempotencyScope (ax_OrganizationID actor) (rd_ID def) in
  let* t := here now fails internal "clock" in
  let* id := here new_uuid fails internal "id" in
  let op := new_operation id OperationRollback def scope key (hashRollbackRequest msg) actor None "" None
              (rq_ExpectedCurrentRevision msg) (rq_TargetRevision msg) (rq_Reason msg) t in
  svc_bind (once (here (CreateIdempotent
      {| ccr_Operation := op; ccr_CheckAvailable := true; ccr_ExpectedAuthorizationVersion := version;
         ccr_Idempotency := Some {| id_Scope := scope; id_Key := hashIdempotencyKey key; id_RequestHash := hashRollbackRequest msg;
                                    id_ResponseRef := RefEmpty; id_ExpiresAt := t + 24 * 3600 * nsec |} |}))) (λ r,
    match r with
    | Err e => rollback_error (rq_ReleaseDefinitionId msg) e
    | Ok created =>
        if crr_Replayed created then Done (Ok (rollbackResponse (crr_Operation created)))
        else launch (crr_Operation created) rollbackResponse
    end).
Definition RollbackRelease (actor : option authctx_Actor) (credential key : string) (msg : RollbackReleaseRequest) : rpc RollbackReleaseResponse :=
  match actor with
  | None => deny CodeUnauthenticated "authentication required"
  | Some actor =>
      and_next (check (validate_rollback msg)) (λ _,
        admit_request actor credential key (rq_ReleaseDefinitionId msg) (hashRollbackRequest msg)
          (λ existing, Done (Ok (rollbackResponse existing)))
          (λ def version,
            and_next (checkReleaseState def OperationRollback (rq_ExpectedCurrentRevision msg)) (λ _,
              create_rollback actor key msg def version)))
  end.

(** ** CancelOperation *)
Definition cancel_internal {A} (message : string) : error → rpc A :=
  λ _, Done (Err (cancelOperationError CodeInternal "internal_error" message)).
Definition cancel_denied {A} (reason message : string) : rpc A := Done (Err (cancelOperationError CodePermissionDenied reason message)).
Definition require_membership (actor : authctx_Actor) (customerID : string) : rpc Role :=
  let* _ := here (RequireActive (ax_OrganizationID actor) customerID)
  fails (λ _, cancel_denied "binding_revoked" "organization-customer binding is revoked") in
  let* member := here (Get_member (ax_OrganizationID actor) (ax_UserID actor))
  fails (λ e, match e with
    | ErrNotFound => cancel_denied "membership_inactive" "actor has no active membership"
    | _ => cancel_internal "membership lookup" e
    end) in
  Done (Ok (om_Role member)).
Definition authorizeCancelOperation (op : Operation) (actor : authctx_Actor) : rpc unit :=
  let* def := here (Get_definition (op_ReleaseDefinitionID op)) fails cancel_internal "definition lookup" in
  let* customer := here (Get_customer (rd_CustomerID def)) fails cancel_internal "customer lookup" in
  if negb (bool_decide (cu_Status customer = CustomerActive))
  then Done (Err (cancelOperationError CodeFailedPrecondition "customer_disabled" "customer is disabled"))
  else
    and_next (require_membership actor (rd_CustomerID def)) (λ role,
      if canCancelOperation role then Done (Ok tt)
      else cancel_denied "role_insufficient" ("actor role " ++ role_string role ++ " is insufficient for cancel")).
Definition cancel_conflict : rpc_failure :=
  cancelOperationError CodeAlreadyExists "idempotency_conflict" "idempotency key conflict: different request for same scope and key".
Definition cancel_hash (msg : CancelOperationRequest) : string :=
  hashCancelRequest (nq_OperationId msg) (nq_ExpectedStateVersion msg) (nq_Reason msg).
Definition cancel_response (result : OperationCancelResult) : CancelOperationResponse :=
  {| ns_Operation := cr_Operation result; ns_RequestId := cr_RequestID result |}.
Definition replayCancel (op : Operation) (actor : authctx_Actor) (msg : CancelOperationRequest) (key : string)
    : rpc (option CancelOperationResponse) :=
  svc_bind (once (here (GetCancelReplay {| cq_OperationID := op_ID op; cq_ActorUserID := ax_UserID actor;
                                           cq_IdempotencyKeyHash := hashIdempotencyKey key; cq_RequestHash := cancel_hash msg |}))) (λ r,
    match r with
    | Ok result => Done (Ok (Some (cancel_response result)))
    | Err ErrNotFound => Done (Ok None)
    | Err ErrIdempotencyConflict => Done (Err cancel_conflict)
    | Err e => cancel_internal "replay cancel operation" e
    end).
Definition cancelDeliveryStatus (op : Operation) : rpc OperationDeliveryStatus :=
  if negb (bool_decide (op_OperationType op = OperationEmergency)) then Done (Ok DeliveryStatusEmpty)
  else
    let* intent := here (getEmergencyIntentByOperation (op_ID op)) fails cancel_internal "load emergency delivery status" in
    let status := ei_DeliveryStatus intent in
    if bool_decide (status = "pending") then Done (Ok DeliveryUndelivered)
    else if bool_decide (status = "queued") then Done (Ok DeliveryUnknown)
    else if bool_decide (status = "delivered") || bool_decide (status = "persisted") then Done (Ok DeliveryDelivered)
    else cancel_internal ("unknown emergency delivery status " ++ quote_text status) ErrNotFound.
(** The stream of the operator that runs the release write ends; nothing else. *)
Definition revokeOperationStream (operationID : string) : csvc unit :=
  match revoke with
  | None => Done tt
  | Some revoke =>
      let* entry := here (GetByOperationID_outbox operationID) fails (λ _, Done tt) in
      if bool_decide (ob_OperatorID entry = "") || negb (bool_decide (ob_CommandID entry = (operationID ++ ":execute")%string)) then Done tt
      else svc_bind (once (revoke (ob_OperatorID entry))) (λ _, Done tt)
  end.
Definition cancel_command (op : Operation) (actor : authctx_Actor) (msg : CancelOperationRequest) (key : string)
    (target : OperationStatus) (requestID : string) (delivery : OperationDeliveryStatus) : OperationCancelCommand :=
  {| cc_OperationID := op_ID op; cc_ExpectedStateVersion := nq_ExpectedStateVersion msg; cc_TargetStatus := target;
     cc_ActorUserID := ax_UserID actor; cc_Reason := nq_Reason msg; cc_RequestID := requestID;
     cc_IdempotencyScope := operationCancelScope (op_ID op) (ax_UserID actor); cc_IdempotencyKeyHash := hashIdempotencyKey key;
     cc_RequestHash := cancel_hash msg; cc_DeliveryStatus := delivery |}.
(** After the commit: the coordinator is cancelled, then the stream revoked. *)
Definition after_cancel (id : string) (status : OperationStatus) : csvc unit :=
  let stop := once (Cancel_preflight id) in
  if bool_decide (status = StatusCancelling) then svc_bind stop (λ _, revokeOperationStream id)
  else if bool_decide (status = StatusCancelled) then svc_bind stop (λ _, Done tt)
  else Done tt.
Definition finishCancelWithTarget (requestID : string) (op : Operation) (actor : authctx_Actor) (msg : CancelOperationRequest) (key : string)
    (target : OperationStatus) : rpc CancelOperationResponse :=
  let finish requestID :=
    and_next (cancelDeliveryStatus op) (λ delivery,
      svc_bind (once (here (OperationStore.Cancel (cancel_command op actor msg key target requestID delivery)))) (λ r,
        match r with
        | Ok result =>
            svc_bind (after_cancel (op_ID op) (op_Status (cr_Operation result))) (λ _, Done (Ok (cancel_response result)))
        | Err (OperationStateVersionConflictError expected current) =>
            Done (Err (cancelOperationError CodeAborted "optimistic_lock_conflict"
              ("state version conflict: expected " ++ pretty expected ++ ", current " ++ pretty current)))
        | Err ErrIdempotencyConflict => Done (Err cancel_conflict)
        | Err e => cancel_internal "cancel operation" e
        end)) in
  if bool_decide (requestID = "") then let* id := here new_uuid fails cancel_internal "id" in finish id else finish requestID.
Definition CancelOperation (requestID : string) (actor : option authctx_Actor) (key : string) (msg : CancelOperationRequest)
    : rpc CancelOperationResponse :=
  let not_allowed (message : string) := Done (Err (cancelOperationError CodeFailedPrecondition "cancel_not_allowed" message)) in
  match actor with
  | None => deny CodeUnauthenticated "authentication required"
  | Some actor =>
      and_next (check (validateCancelInput msg key)) (λ _,
        svc_bind (once (here (Get_operation (nq_OperationId msg)))) (λ r,
          match r with
          | Err ErrNotFound => deny CodeNotFound ("operation not found: " ++ nq_OperationId msg)
          | Err _ => deny CodeInternal "operation lookup"
          | Ok op =>
              and_next (authorizeCancelOperation op actor) (λ _,
              and_next (replayCancel op actor msg key) (λ replayed,
                match replayed with
                | Some response => Done (Ok response)
                | None =>
                    if bool_decide (op_OperationType op = OperationEmergency) && bool_decide (op_Status op = StatusRunning)
                    then not_allowed ("running EMERGENCY operation " ++ op_ID op ++ " cannot be cancelled")%string
                    else if bool_decide (op_Status op = StatusCancelling)
                    then not_allowed ("operation " ++ op_ID op ++ " is cancelling and awaiting operator acknowledgment")%string
                    else if negb (CanCancel (op_Status op))
                    then not_allowed ("operation " ++ op_ID op ++ " is " ++ status_string (op_Status op) ++ ", cannot be cancelled")%string
                    else match Transition (op_Status op) EventCancel with
                         | Err _ => not_allowed "invalid transition"
                         | Ok target => finishCancelWithTarget requestID op actor msg key target
                         end
                end))
          end))
  end.

(** ** PublishRelease: only the checks, no operation *)
Definition PublishRelease (definitionID : string) : rpc string :=
  svc_bind (once (here (Get_definition definitionID))) (λ r,
    match r with
    | Err ErrNotFound => deny CodeNotFound ("release_definition not found: " ++ definitionID)
    | Err _ => deny CodeInternal "definition lookup"
    | Ok def =>
        and_next (check (checkDefinitionOperable def)) (λ _,
        and_next (checkCustomerNotDisabled "" (rd_CustomerID def)) (λ _,
          svc_bind (once (here (Get_cluster (rd_ClusterID def)))) (λ r,
            match r with
            | Err ErrNotFound => deny CodeNotFound ("cluster " ++ quote_text (rd_ClusterID def) ++ " not found for definition " ++ definitionID)
            | Err _ => deny CodeInternal "cluster lookup"
            | Ok cluster =>
                if bool_decide (kl_Status cluster = ClusterDisabled)
                then deny CodePermissionDenied ("cluster " ++ quote_text (kl_ID cluster) ++ " is disabled, cannot publish")
                else Done (Ok "not_implemented")
            end)))
    end).
Definition Shutdown : csvc unit := svc_bind (once Shutdown_runner) (λ _, Done tt).

(** ** What the service leaves of the gate

    Whatever the interfaces do, they neither queue operations nor start
    coordinators. *)
Context (authorize_benign : ∀ f actor credential customerID action,
  authorize = Some f → calls benign (svc_lift (A:=res connect_error Z) rl_host put_host (f actor credential customerID action) : csvc (res connect_error Z))).
Context (verifier_benign : ∀ f i, verifier = Some f → calls benign (f i)).
Context (revoke_benign : ∀ f operatorID, revoke = Some f → benign unit (f operatorID)).

Lemma read_benign {A} (m : SM A) : (∀ w, w_db (m w).2 = w_db w) → benign A (here m : M S error A).
Proof. intros Hm. apply here_benign. intros w r w' E. specialize (Hm w). rewrite E in Hm. simpl in Hm. unfold db_rel. rewrite Hm. reflexivity. Qed.
Lemma rest_benign {A} (m : M S error A) : (∀ s, rl_host (m s).2 = rl_host s ∧ rl_runner (m s).2 = rl_runner s) → benign A m.
Proof. intros Hm. apply runner_benign; [apply Hm|]. intros s id e. destruct (Hm s) as [_ ->]. by eauto. Qed.
Ltac read_call := first
  [ solve [auto with gate]
  | apply run_preflight_gate;
    unfold HasUnresolvedForDefinition, ListByDefinition, GetActiveForDefinition, HasActiveForDefinition, HasActiveEmergencyForDefinition, Get_customer,
      GetByIdempotencyScopeAndKey, ReachableFromOrganization, BundleClaimedOutsideOrganization, RequireActive, Get_member,
      GetCancelReplay, loadActiveIdempotencyRecord, decode_cancel, getEmergencyIntentByOperation, scanEmergencyIntent, GetByOperationID_outbox,
      Get_operation, getOperation, Get_cluster, Get_definition, Get_bundle, getValues, GetByDefinition_inventory;
    repeat case_match; db_preserve ].
Ltac safe_step :=
  lazymatch goal with
  | |- ∀ _, _ => intros ?
  | |- calls _ (and_next _ _) => apply calls_bind; [|intros [?|?]]
  | |- calls _ (svc_bind _ _) => apply calls_bind; [|intros ?]
  | |- calls _ (once _) => split; [|intros ?; exact I]
  | |- calls _ (Done _) => exact I
  | |- calls _ (deny _ _) => exact I
  | |- calls _ (check _) => exact I
  | |- calls _ (internal _ _) => exact I
  | |- calls _ (cancel_internal _ _) => exact I
  | |- calls _ (cancel_denied _ _) => exact I
  | |- calls _ (Call _ _) => split; [|intros [?|?]]
  | |- calls _ (match ?x with _ => _ end) => destruct x
  | |- benign _ (here _) => read_call
  | |- benign _ _ => solve [auto with gate]
  end.
Ltac safe := repeat safe_step.
Lemma load_definition_benign id : calls benign (load_definition id).
Proof. unfold load_definition. safe. Qed.
Lemma authorizeOperationActor_benign actor credential customerID : calls benign (authorizeOperationActor actor credential customerID).
Proof. unfold authorizeOperationActor. destruct authorize as [f|] eqn:E; [|done]. apply calls_bind; [by apply authorize_benign|]. safe. Qed.
Lemma emergency_gates_benign def : calls benign (emergency_gates def).
Proof. unfold emergency_gates. safe. Qed.
Lemma releaseBusyError_benign {A} id message : calls benign (releaseBusyError (A:=A) id message).
Proof. unfold releaseBusyError. safe. Qed.
Lemma checkNoActiveOperation_benign id : calls benign (checkNoActiveOperation id).
Proof. unfold checkNoActiveOperation. safe. apply releaseBusyError_benign. Qed.
Lemma checkCustomerNotDisabled_benign prefix id : calls benign (checkCustomerNotDisabled prefix id).
Proof. unfold checkCustomerNotDisabled. safe. Qed.
Lemma find_replay_benign scope key hash : calls benign (find_replay scope key hash).
Proof. unfold find_replay. safe. Qed.
Lemma load_bundle_benign id : calls benign (load_bundle id).
Proof. unfold load_bundle. safe. Qed.
Lemma checkBundleOwner_benign actor bundle : calls benign (checkBundleOwner actor bundle).
Proof. unfold checkBundleOwner. safe. Qed.
Lemma verify_trust_benign actor msg bundle : calls benign (verify_trust actor msg bundle).
Proof.
  unfold verify_trust, verify_output. apply calls_bind.
  - destruct verifier as [f|] eqn:E; [|done]. apply calls_bind; [by apply verifier_benign|]. safe.
  - intros out. destruct (bool_decide _); [done|]. safe. by apply rest_benign.
Qed.
Lemma admit_bundle_benign actor images sbomRef : calls benign (admit_bundle actor images sbomRef).
Proof.
  induction images as [|image images IH]; cbn [admit_bundle]; safe; try done. apply rest_benign. intros s. unfold admit_image.
  by destruct (EvaluateArtifactAdmission _ _ _ _ _ _).
Qed.
Lemma checkValuesRevision_benign def id : calls benign (checkValuesRevision def id).
Proof. unfold checkValuesRevision. safe. Qed.
Lemma checkReleaseState_benign def opType expected : calls benign (checkReleaseState def opType expected).
Proof. unfold checkReleaseState. safe. Qed.
(** *** Creations: the coordinator is started with a row of the tables *)
Context (fault : error → Prop).
Abbreviation G := (S * list DB)%type.
Abbreviation gwp p Q g := (wp gated extends fault (recorded p) Q g).
Lemma gwp_returns {A B} (m : SM B) (P : B → DB → Prop) (k : res error B → csvc A) Q g :
  benign B (here m : M S error B) → (∀ w a w', m w = (Ok a, w') → P a (w_db w')) →
  (∀ r g', gated g' → extends g g' → match r with Ok a => P a (db_of g'.1) | Err _ => True end → gwp (k r) Q g') →
  gwp (Call (here m) k) Q g.
Proof.
  intros Hb HP Hk g1 Hi Hr. destruct (benign_ok _ Hb g1 Hi) as [Hi' Hr']. split_and!; [done|done| |by intros e _; apply Hk].
  apply Hk; [done|by etransitivity|]. unfold record in *. destruct (here_db (T:=T) (X:=Rest St) m g1.1) as [Hdb _].
  assert (Hr1 : (here m g1.1).1 = (m (nd_world (node_of g1.1))).1) by (by rewrite here_eq).
  destruct (here m g1.1) as [r s]. simpl in *. subst r. destruct (m _) as [[b|e] w'] eqn:E; [|done]. simpl in *. rewrite Hdb. by eapply HP.
Qed.
Lemma UnitOfWork_known req w res w' :
  ocr_Emergency req = None → OperationCreationUnitOfWork req w = (Ok res, w') → known (w_db w') (ores_Operation res).
Proof.
  intros Hem E. unfold OperationCreationUnitOfWork in E. rewrite Hem in E. apply retryBusy_tx_Ok in E as (w0 & _ & [E|(w1 & E & _)]).
  - apply -> @commit_Ok in E. apply UnitOfWork_row in E as (_ & Hk & _ & Hops & _).
    exists (operation_row (ores_Operation res)). split; [|done]. rewrite Hops. destruct Hk as (-> & _). apply lookup_insert_eq.
  - unfold commit in E. by dinv.
Qed.
Lemma CreateIdempotent_known command w res w' :
  CreateIdempotent command w = (Ok res, w') → crr_Replayed res = true ∨ known (w_db w') (crr_Operation res).
Proof.
  intros E. apply retryBusy_tx_Ok in E as (w0 & _ & [E|(w1 & E & _)]).
  - right. apply CreateIdempotent_row in E as (_ & Hk & _ & Hops & _). exists (operation_row (crr_Operation res)).
    split; [|done]. rewrite Hops. destruct Hk as (-> & _). apply lookup_insert_eq.
  - left. unfold createIdempotentOperation, decodeOperationCreateReplay in E. dinv. repeat (case_match; dinv); done.
Qed.
Lemma and_next_benign {A B} (p : rpc A) (k : A → rpc B) : calls benign p → (∀ a, calls benign (k a)) → calls benign (and_next p k).
Proof. intros Hp Hk. apply calls_bind; [done|]. intros [a|e]; [apply Hk|exact I]. Qed.
(** A check before the rest: nothing of the gate is touched. *)
Lemma gwp_check {A B} (p : rpc A) (k : A → rpc B) (g : G) :
  calls benign p → (∀ a g', gwp (k a) (λ _ _, True) g') → gwp (and_next p k) (λ _ _, True) g.
Proof. intros Hp Hk. apply gwp_then; [done|]. intros [a|e] g1 _ _; [apply Hk|by apply gwp_Done]. Qed.
Lemma start_preflight_status_wp op (g : G) :
  known (db_of g.1) op → gwp (start_preflight_status op) (λ started g', known (db_of g'.1) started.1) g.
Proof.
  intros Hkn. unfold start_preflight_status. destruct (Transition _ _) as [next|e] eqn:E.
  - apply gwp_call; [apply UpdateStatus_benign; intros ->; by destruct (op_Status op)|].
    intros [updated|e] g1 _ Hr; apply gwp_Done; intros g2 _ Hr2; apply Hr, Hr2 in Hkn; exact Hkn.
  - apply gwp_Done. intros g1 _ Hr. by apply Hr.
Qed.
Lemma launch_wp {A} op (response : Operation → A) (g : G) : known (db_of g.1) op → gwp (launch op response) (λ _ _, True) g.
Proof.
  intros Hkn. apply gwp_bind. eapply wp_mono; [apply _| |by apply start_preflight_status_wp]. intros [op' started] g1 _ _ Hkn'. simpl in *.
  destruct started; [|by apply gwp_Done]. apply Start_wp; [done|]. intros r g2 _ _. by apply gwp_Done.
Qed.
Lemma Dispatch_benign op bundle values : calls benign (Dispatch marshal op bundle values : csvc _).
Proof.
  unfold Dispatch. apply calls_bind; [apply resolveOperator_benign|]. intros operator. apply calls_bind; [apply commandPayload_benign|].
  intros [payload|e]; [|done]. destruct (marshal payload); [|done]. safe.
Qed.
Lemma first_dispatch_benign op def bundle effective : calls benign (first_dispatch op def bundle effective).
Proof.
  unfold first_dispatch, deferred_dispatch. case_bool_decide; [done|]. apply calls_bind; [apply Dispatch_benign|]. intros [[row|] [e|]]; safe.
Qed.
Lemma creation_error_benign {A} id e : calls benign (creation_error (A:=A) id e).
Proof. destruct e; try done. apply releaseBusyError_benign. Qed.
Lemma rollback_error_benign {A} id e : calls benign (rollback_error (A:=A) id e).
Proof. destruct e; try done. apply releaseBusyError_benign. Qed.
Lemma create_from_bundle_wp actor key opType msg def version bundle verification merged (g : G) :
  gwp (create_from_bundle actor key opType msg def version bundle verification merged) (λ _ _, True) g.
Proof.
  apply gwp_call; [apply now_benign|]. intros [t|e] g1 _ _; [|by apply gwp_Done].
  apply gwp_call; [apply new_uuid_benign|]. intros [id|e] g2 _ _; [|by apply gwp_Done]. cbv zeta.
  apply gwp_check; [apply first_dispatch_benign|]. intros dispatch g3.
  eapply (gwp_returns _ (λ res db, known db (ores_Operation res))).
  - apply here_benign, UnitOfWork_gate; [done|]. intros [_ H]. discriminate H.
  - intros w a w'. by apply UnitOfWork_known.
  - intros [created|e] g4 _ _; [apply launch_wp|intros _; apply gwp_total; [apply creation_error_benign|done]].
Qed.
Lemma admit_request_wp {A} actor credential key id hash (replayed : Operation → rpc A) k (g : G) :
  (∀ op, calls benign (replayed op)) → (∀ def version g', gwp (k def version) (λ _ _, True) g') →
  gwp (admit_request actor credential key id hash replayed k) (λ _ _, True) g.
Proof.
  intros Hre Hk. apply gwp_check; [apply load_definition_benign|]. intros def g1.
  apply gwp_check; [apply authorizeOperationActor_benign|]. intros version g2. apply gwp_check; [apply emergency_gates_benign|]. intros _ g3.
  apply gwp_check; [unfold require_key; safe|]. intros _ g4. apply gwp_check; [apply find_replay_benign|].
  intros [existing|] g5; [by apply gwp_total|]. apply gwp_check; [done|]. intros _ g6.
  apply gwp_check; [apply checkCustomerNotDisabled_benign|]. intros _ g7. apply gwp_check; [apply checkNoActiveOperation_benign|].
  intros _ g8. apply Hk.
Qed.
Lemma CreateOperation_wp actor credential key msg (g : G) : gwp (CreateOperation actor credential key msg) (λ _ _, True) g.
Proof.
  unfold CreateOperation. destruct (parse_operation_type _) as [opType|]; [|by apply gwp_Done].
  destruct actor as [actor|]; [|by apply gwp_Done]. apply admit_request_wp; [done|]. intros def version g1.
  apply gwp_check; [apply load_bundle_benign|]. intros bundle g2. apply gwp_check; [apply checkBundleOwner_benign|]. intros _ g3.
  apply gwp_check; [done|]. intros _ g4. apply gwp_check; [done|]. intros _ g5. apply gwp_check; [apply verify_trust_benign|].
  intros verification g6. apply gwp_check; [apply admit_bundle_benign|]. intros _ g7. apply gwp_check; [apply checkValuesRevision_benign|].
  intros revision g8. apply gwp_check; [apply checkReleaseState_benign|]. intros _ g9.
  destruct (prepareValues _ _ _ _ _ _ _ _); [apply create_from_bundle_wp|by apply gwp_Done].
Qed.
Lemma RollbackRelease_wp actor credential key msg (g : G) : gwp (RollbackRelease actor credential key msg) (λ _ _, True) g.
Proof.
  unfold RollbackRelease. destruct actor as [actor|]; [|by apply gwp_Done]. apply gwp_check; [done|]. intros _ g1.
  apply admit_request_wp; [done|]. intros def version g2. apply gwp_check; [apply checkReleaseState_benign|]. intros _ g3.
  apply gwp_call; [apply now_benign|]. intros [t|e] g4 _ _; [|by apply gwp_Done].
  apply gwp_call; [apply new_uuid_benign|]. intros [id|e] g5 _ _; [|by apply gwp_Done]. cbv zeta.
  eapply (gwp_returns _ (λ res db, crr_Replayed res = true ∨ known db (crr_Operation res))).
  - apply here_benign, CreateIdempotent_gate. intros [_ H]. discriminate H.
  - intros w a w'. apply CreateIdempotent_known.
  - intros [created|e] g6 _ _; [|intros _; apply gwp_total; [apply rollback_error_benign|done]].
    intros [->|Hkn]; [by apply gwp_Done|]. destruct (crr_Replayed created); [by apply gwp_Done|by apply launch_wp].
Qed.
(** *** Cancellations *)
Lemma require_membership_benign actor customerID : calls benign (require_membership actor customerID).
Proof. unfold require_membership. safe. Qed.
Lemma authorizeCancelOperation_benign op actor : calls benign (authorizeCancelOperation op actor).
Proof. unfold authorizeCancelOperation. safe. apply require_membership_benign. Qed.
Lemma replayCancel_benign op actor msg key : calls benign (replayCancel op actor msg key).
Proof. unfold replayCancel. safe. Qed.
Lemma cancelDeliveryStatus_benign op : calls benign (cancelDeliveryStatus op).
Proof. unfold cancelDeliveryStatus. safe. Qed.
Lemma after_cancel_benign id status : calls benign (after_cancel id status).
Proof.
  unfold after_cancel, revokeOperationStream. case_bool_decide; [|safe]. apply calls_bind; [safe|]. intros _.
  destruct revoke as [f|] eqn:E; [|done]. split; [read_call|]. intros [entry|e]; [|done]. safe.
Qed.
Lemma finishCancelWithTarget_benign requestID op actor msg key target :
  target ≠ StatusQueued → calls benign (finishCancelWithTarget requestID op actor msg key target).
Proof.
  intros Hq. unfold finishCancelWithTarget.
  assert (Hfinish : ∀ id, calls benign (and_next (cancelDeliveryStatus op) (λ delivery,
    svc_bind (once (here (OperationStore.Cancel (cancel_command op actor msg key target id delivery)))) (λ r,
      match r with
      | Ok result => svc_bind (after_cancel (op_ID op) (op_Status (cr_Operation result))) (λ _, Done (Ok (cancel_response result)))
      | Err (OperationStateVersionConflictError expected current) =>
          Done (Err (cancelOperationError CodeAborted "optimistic_lock_conflict"
            ("state version conflict: expected " ++ pretty expected ++ ", current " ++ pretty current)))
      | Err ErrIdempotencyConflict => Done (Err cancel_conflict)
      | Err e => cancel_internal "cancel operation" e
      end)))).
  { intros id. apply and_next_benign; [apply cancelDeliveryStatus_benign|]. intros delivery.
    apply calls_bind; [split; [by apply here_benign, Cancel_gate|done]|]. intros [result|e]; [|by destruct e].
    apply calls_bind; [apply after_cancel_benign|done]. }
  cbv zeta. case_bool_decide; [|apply Hfinish]. split; [apply new_uuid_benign|]. intros [id|e]; [apply Hfinish|done].
Qed.
Lemma CancelOperation_benign requestID actor key msg : calls benign (CancelOperation requestID actor key msg).
Proof.
  unfold CancelOperation. destruct actor as [actor|]; [|done]. apply and_next_benign; [done|]. intros _.
  apply calls_bind; [safe|]. intros [op|e]; [|by destruct e].
  apply and_next_benign; [apply authorizeCancelOperation_benign|]. intros _. apply and_next_benign; [apply replayCancel_benign|].
  intros [response|]; [done|]. do 3 (match goal with |- calls _ (if ?b then _ else _) => destruct b; [done|] end).
  destruct (Transition _ _) as [target|e] eqn:E; [|done]. apply finishCancelWithTarget_benign. intros ->. by destruct (op_Status op).
Qed.
Lemma PublishRelease_benign id : calls benign (PublishRelease id).
Proof. unfold PublishRelease. safe. apply checkCustomerNotDisabled_benign. Qed.

(** Everything that runs: the requests, the coordinators, the delivery of commands
    and their results, the recovery after a restart and every other program whose
    calls neither queue an operation nor start a coordinator. *)
(** A store call whose answer goes elsewhere. *)
Definition silently {E A} (m : M World E A) : SM unit := λ w, (Ok tt, (m w).2).
Lemma silently_benign {E A} (m : M World E A) : preserves (db_rel keeps_gate) m → benign unit (here (silently m) : M S error unit).
Proof. intros Hm. apply here_benign. intros w r w' [= _ <-]. apply (Hm w (m w).1). by destruct (m w). Qed.
Definition ignore {A} (p : csvc A) : csvc unit := svc_bind p (λ _, Done tt).
Inductive release_program : csvc unit → Prop :=
| program_create actor credential key msg : release_program (ignore (CreateOperation actor credential key msg))
| program_rollback actor credential key msg : release_program (ignore (RollbackRelease actor credential key msg))
| program_cancel requestID actor key msg : release_program (ignore (CancelOperation requestID actor key msg))
| program_publish definitionID : release_program (ignore (PublishRelease definitionID))
| program_coordinate id : release_program (coordinate float64 yaml_documents format_float marshal polls id)
| program_resume : release_program (ignore ResumePreflights)
| program_shutdown : release_program Shutdown
| program_deliver operatorID open : release_program (ignore (once (here (silently (deliverNextPending operatorID open)))))
| program_ack commandID : release_program (ignore (once (here (silently (PersistAck commandID)))))
| program_result marshal_result result : release_program (ignore (once (here (silently (HandleCommandResult marshal_result result)))))
| program_recover opts : release_program (ignore (once (here (silently (RecoverNonTerminal opts)))))
| program_other p : calls benign p → release_program p.
Definition release_thread (q : svc G error unit) : Prop := ∃ p, release_program p ∧ q = recorded p.
Lemma release_program_wp p (g : G) : release_program p → gwp p (λ _ _, True) g.
Proof.
  assert (Hign : ∀ A (q : csvc A) g, gwp q (λ _ _, True) g → gwp (ignore q) (λ _ _, True) g).
  { intros A q g1 Hq. apply gwp_bind. eapply wp_mono; [apply _| |exact Hq]. intros a g2 _ _ _. by apply gwp_Done. }
  assert (Hcalls : ∀ A (q : csvc A) g, calls benign q → gwp q (λ _ _, True) g) by (intros A q g1 Hq; by apply gwp_total).
  destruct 1.
  - apply Hign, CreateOperation_wp.
  - apply Hign, RollbackRelease_wp.
  - apply Hign, Hcalls, CancelOperation_benign.
  - apply Hign, Hcalls, PublishRelease_benign.
  - apply coordinate_wp.
  - apply Hign, ResumePreflights_wp.
  - apply Hcalls. unfold Shutdown. safe.
  - apply Hign, Hcalls. split; [apply silently_benign, deliver_gate|done].
  - apply Hign, Hcalls. split; [apply silently_benign, PersistAck_gate|done].
  - apply Hign, Hcalls. split; [apply silently_benign, HandleCommandResult_gate|done].
  - apply Hign, Hcalls. split; [apply silently_benign, recover_gate|done].
  - by apply Hcalls.
Qed.

(** C27: no release is written unchecked.  Run any creations, rollbacks,
    cancellations, coordinators, resumptions, deliveries, results, recoveries and
    other calls that do not queue operations, interleaved, with calls that fail:
    a standard operation that is queued, running or cancelling has its write
    command in the outbox, and if it has a bundle, for every production stage
    there was a moment at which the outbox row of that stage's command was
    persisted or succeeded by the operator with a result that does not stop the
    pipeline. *)
Theorem release_gate g g' threads :
  gated g → rtc (pool_step fault release_thread) (g, []) (g', threads) →
  ∀ id o, db_operations (db_of g'.1) !! id = Some o → IsStandard (op_OperationType o) = true → is_past (op_Status o) = true →
    (∃ row, row ∈ db_outbox (db_of g'.1) ∧ ob_CommandID row = (id ++ ":execute")%string) ∧
    (op_BundleID o ≠ "" → ∀ stage, stage ∈ ProductionStages →
      ∃ db row, db ∈ g'.2 ∧ row ∈ db_outbox db ∧ ob_CommandID row = (id ++ ":" ++ sd_Name stage)%string ∧
        (ob_Status row = CommandPersisted ∨ ob_Status row = CommandSucceeded) ∧
        stops (sr_Status (answered_result (sd_Name stage) (ob_ResultJSON row))) = false).
Proof.
  intros Hg Hrun id o Ho Hstd Hpast.
  assert (Hok : ∀ q (g : G), release_thread q → gated g → wp gated extends fault q (λ _ _, True) g)
    by (intros q g0 (p & Hp & ->) _; by apply release_program_wp).
  destruct (pool_ok _ _ _ _ _ Hok _ _ Hrun Hg) as (Hg' & _ & _); [by apply Forall_nil|].
  destruct (ga_cleared g' Hg' id o Ho) as [Hd Hs]; [done|]. assert (Hid : op_ID o = id) by (by apply (ga_wf g' Hg')).
  split; [unfold dispatched, execute_command in Hd; by rewrite Hid in Hd|]. intros Hb stage Hstage.
  unfold stagesForOperation in Hs. rewrite bool_decide_false in Hs by done. rewrite Forall_forall in Hs.
  destruct (Hs stage Hstage) as (db & Hdb & row & Hr & Hc & Hrest). exists db, row. unfold stage_command in Hc. rewrite Hid in Hc. done.
Qed.
End service.

(** ** Witness: an INSTALL from the request to the queue *)
Definition web_definition : ReleaseDefinition :=
  {| rd_ID := "d1"; rd_Name := "web"; rd_CustomerID := "c1"; rd_ClusterID := "k1"; rd_Namespace := "ns"; rd_ReleaseName := "web";
     rd_ChartName := "web"; rd_Status := DefStatusActive; rd_OptimisticVersion := 1; rd_CurrentBundleID := None; rd_CreatedBy := "";
     rd_OwnerOrganizationID := None; rd_ApprovedRevisionID := None; rd_HPAManaged := false; rd_MaxEmergencyReplicas := 100;
     rd_ApprovedAnnotationKeys := []; rd_PromotionMappings := []; rd_CreatedAt := nsec; rd_UpdatedAt := nsec |}.
Definition release_db : DB :=
  set_values_revisions [sample_revision "r1" 1 ValuesStatusApproved]
    (set_release_definitions {[ "d1" := web_definition ]} (set_fleet online_fleet site_db)).
Definition clean_scan : ScannerResult := sample_result {| sc_Critical := 0; sc_High := 0; sc_Medium := 0; sc_Low := 0 |} [].
Definition release_start : Release Node (Rest VulnDB) :=
  {| rl_host := {| nd_world := sample_world release_db; nd_enforcer := nd_enforcer site_node; nd_limiter := nd_limiter site_node |};
     rl_runner := {| rn_closed := false; rn_entries := ∅ |};
     rl_rest := {| re_admission := sample_service clean_scan; re_audits := [] |} |}.
Definition object_yaml (_ : string) : list (option yaml_node) := [Some (Values.Node DocumentNode "" "" "" false [Values.Node MappingNode "!!map" "" "" false []])].
Definition sample_payload (p : CommandPayload) : option string := Some (cp_OperationID p).
Definition install_request : CreateOperationRequest :=
  {| cq_OperationType := "INSTALL"; cq_BundleId := "b1"; cq_ReleaseDefinitionId := "d1"; cq_ValuesRevisionId := "r1"; cq_ValuesPatch := None;
     cq_ExpectedCurrentRevision := 0; cq_SignatureRef := None |}.
Definition trusted_output (_ : Input) : svc (Release Node (Rest VulnDB)) error (res error (option Output)) :=
  Done (Ok (Some {| ou_Status := VerificationTrusted; ou_Summary := ""; ou_Record := None; ou_RootID := ""; ou_KeyID := ""; ou_RevocationEpoch := 0 |})).
Abbreviation sample_create := (CreateOperation object_yaml (λ _, None) sample_payload (λ _, None) (λ _, Some "{}")
  (λ base _, Some base) quoted (T:=Node) (St:=VulnDB) (Some store_authorize) (Some trusted_output) "production" (3600 * nsec)).
Abbreviation sample_thread := (release_thread (λ j, j) object_yaml (λ _, None) sample_payload (λ _, 2%nat) (λ _, None) (λ _, Some "{}")
  (λ base _, Some base) quoted (T:=Node) (St:=VulnDB) (Some store_authorize) (Some trusted_output) None "production" (3600 * nsec)).
Abbreviation sample_coordinate := (coordinate (λ j, j) object_yaml (λ _, None) sample_payload (λ _, 2%nat) (T:=Node) (X:=Rest VulnDB)).
(** The operator acknowledges the commands of the four stages. *)
Definition sample_programs : list (svc (Release Node (Rest VulnDB)) error unit) :=
  ignore (sample_create (Some sample_actor) "" "key" install_request) :: sample_coordinate "uuid-0"
  :: ((λ id, ignore (once (here (silently (PersistAck id))))) <$> ["uuid-1"; "uuid-6"; "uuid-8"; "uuid-10"]).
Definition release_schedule : list nat :=
  (repeat 0 60 ++ [2] ++ repeat 1 20 ++ [3] ++ repeat 1 12 ++ [4] ++ repeat 1 12 ++ [5] ++ repeat 1 12)%nat%list.
Definition release_run : Release Node (Rest VulnDB) * list DB * list (svc (Release Node (Rest VulnDB) * list DB) error unit) :=
  run_schedule release_schedule ((release_start, []), recorded <$> sample_programs).
Lemma release_start_gated : gated (release_start, []).
Proof. split; [by intros id o|by intros id e|by intros id o]. Qed.
Lemma release_run_reachable : rtc (pool_step (λ _, False) sample_thread) ((release_start, []), []) release_run.
Proof.
  etransitivity; [|apply schedule_reachable]. unfold sample_programs. rewrite !fmap_cons, fmap_nil.
  eapply rtc_l; [apply pool_start; eexists; split; [apply program_create|reflexivity]|].
  eapply rtc_l; [apply pool_start; eexists; split; [apply program_coordinate|reflexivity]|].
  do 4 (eapply rtc_l; [apply pool_start; eexists; split; [apply program_ack|reflexivity]|]). apply rtc_refl.
Qed.
Definition queued_operation (o : option Operation) : bool :=
  match o with
  | Some o => IsStandard (op_OperationType o) && is_past (op_Status o) && bool_decide (op_BundleID o = "b1")
  | None => false
  end.
Lemma release_run_queued : queued_operation (db_operations (db_of release_run.1.1) !! "uuid-0") = true.
Proof. vm_compute. reflexivity. Qed.
Lemma store_authorize_benign T X (HT : Host T) actor credential customerID action :
  calls benign (svc_lift rl_host put_host (store_authorize (T:=T) actor credential customerID action) : svc (Release T X) error _).
Proof.
  eapply (calls_svc_lift _ _ quiet); [|apply StoreAuthorizeWrite_quiet]. intros B m Hm s. rewrite lift_eq. simpl.
  split; [|intros id e He; by exists e]. destruct (Hm (rl_host s)) as [E _]. unfold db_of. simpl. rewrite E. reflexivity.
Qed.
Lemma release_gate_witness :
  ∃ row db answer, row ∈ db_outbox (db_of release_run.1.1) ∧ ob_CommandID row = "uuid-0:execute" ∧
    db ∈ release_run.1.2 ∧ answer ∈ db_outbox db ∧ ob_CommandID answer = "uuid-0:cluster".
Proof.
  assert (Hq := release_run_queued). destruct (db_operations (db_of release_run.1.1) !! "uuid-0") as [o|] eqn:Eo; [|discriminate Hq].
  apply andb_true_iff in Hq as [[Hstd Hpast]%andb_true_iff Hb]. apply bool_decide_eq_true_1 in Hb.
  assert (Hrun := release_run_reachable). rewrite (surjective_pairing release_run) in Hrun.
  destruct (release_gate (λ j, j) object_yaml (λ _, None) sample_payload (λ _, 2%nat) (λ _, None) (λ _, Some "{}") (λ base _, Some base) quoted
    (Some store_authorize) (Some trusted_output) None "production" (3600 * nsec)) with (fault := λ _ : error, False)
    (g := (release_start, [] : list DB)) (g' := release_run.1) (threads := release_run.2) (id := "uuid-0") (o := o) as [(row & Hr & Hc) Hs].
  - intros f actor credential customerID action [= <-]. apply store_authorize_benign.
  - by intros f i [= <-].
  - done.
  - exact release_start_gated.
  - exact Hrun.
  - exact Eo.
  - exact Hstd.
  - exact Hpast.
  - destruct (Hs ltac:(by rewrite Hb) {| sd_Name := StageCluster; sd_Required := true; sd_Timeout := 10 * minute_ns |}) as (db & answer & ? & ? & ? & _).
    { right. right. left. }
    exists row, db, answer. by split_and!.
Defined.

(** ** What the gate lets through *)

(** An acknowledgement that the command was stored is enough: in the run above no
    stage has reported anything, its rows are persisted with an empty result. *)
Lemma persisted_suffices :
  Forall (λ row, ob_CommandID row = "uuid-0:execute" ∨ ob_Status row = CommandPersisted ∧ ob_ResultJSON row = "")
    (db_outbox (db_of release_run.1.1)).
Proof. apply (bool_decide_unpack _). vm_compute. exact I. Qed.
(** So is a status the pipeline does not know. *)
Lemma unknown_status_passes :
  stops (sr_Status (answered_result StageRender (json_text (JObj [("status", JStr "error"); ("detail", JStr "chart_invalid")])))) = false.
Proof. vm_compute. reflexivity. Qed.
(** The kind of an image is looked up under a name the table does not have, so a
    stage command never carries one. *)
Lemma image_kind_lost bundle image : image ∈ bp_Images (Preflight.bundleToProto bundle) →
  bm_ValueKind <$> bd_Images (rb_Content bundle) ⊆ [ImageValueFullReference; ImageValueRepository; ImageValueTag; ImageValueDigest] → ip_ValueKind image = 0.
Proof.
  intros Hi Hk. apply list_elem_of_fmap in Hi as (source & -> & Hs). apply (list_elem_of_fmap_2 bm_ValueKind) in Hs. apply Hk in Hs. simpl.
  rewrite !elem_of_cons, elem_of_nil in Hs. destruct Hs as [->|[->|[->|[->|[]]]]]; reflexivity.
Qed.

